(* ===== verification/_CoqProject ===== *)
-Q . S2P
Prelude.v
JsString.v
JsMap.v
JsVal.v
Ids.v
Rbac.v
Lifecycle.v
Secrets.v
Identity.v
Accounts.v
Membership.v
AccountInvariants.v
AccountSafety.v
InviteSafety.v
OrganizationIdentity.v
Sessions.v
Auth.v
EmailCodes.v
EmailCodeSafety.v
EmailVerification.v
EmailFlows.v
AuthExamples.v
OrganizationInvites.v
OAuth.v
RateLimit.v
Redaction.v
RedactionSafety.v
DatabaseGuard.v
Security.v
Workflows.v
WorkflowSafety.v
WorkflowExamples.v
WorkflowRefinement.v
ControlPlane.v
Deployments.v
DeploymentSafety.v
DeploymentOperations.v
DeploymentOperationSafety.v
DeploymentExamples.v
Paging.v
RecoveryProvenance.v
Recovery.v
RecoveryService.v
RecoverySafety.v
RecoveryRuns.v
RecoveryPages.v
RecoveryExamples.v
Domains.v
DomainSafety.v
DomainRouter.v
DomainRouterSafety.v
DomainRentals.v
DomainRentalSafety.v
Quotas.v
QuotaSafety.v
PreviewContract.v
PreviewLineage.v
PreviewSafety.v
PreviewWebhooks.v
PreviewWebhookSafety.v
PreviewExamples.v
EnvFiles.v
Environments.v
EnvironmentSafety.v
DeploymentRequests.v
DeploymentRequestSafety.v
DeploymentHistory.v
Catalog.v
EnvInjection.v
ServiceRuntime.v
SourceDiscovery.v
BuildStrategy.v
Manifests.v
ManifestSafety.v
ManifestSecrets.v
ServiceRuntimeSafety.v
BuildSafety.v
ManifestExamples.v
TenantInputs.v
Services.v
