(* ===== verification/Prelude.v ===== *)
(** * RAIBITSERVER control plane: verification library

    RAIBITSERVER is a container platform for clubs and small teams.  A
    TypeScript control plane ([packages/core], with schemas in
    [packages/schemas]) keeps the desired state of organizations, projects,
    services and deployments and decides who may change it; an API, a dashboard
    and a command line client call it, and Go services carry the desired state
    out.  This library models the deterministic core of that control plane as
    Rocq functions and proves what its parts promise.

    ** How the code is modelled

    A function of the source is a function here, under its own name.  A
    thrown exception is a value ([result]); an operation of the store is a
    state transformer [M S A := S -> result A * S] that keeps the changes made
    before it throws, as JavaScript does.  Tables are JavaScript [Map]s with
    their insertion order ([JsMap]), untyped inputs are [jsval] ([JsVal]),
    strings are sequences of code units below 256 ([JsString]), instants are
    integral milliseconds ([JsVal] prints them) and the clock is an argument.
    Code outside the repository (SHA-256, HMAC, scrypt, random values, URL
    parsing, IDNA, mail delivery, workflow handlers) is a parameter of the
    section that uses it.  State machines and concurrent runs are step
    relations.

    ** Parts

    - [Prelude], [JsString], [JsMap], [JsVal]: the language.
    - [Ids] ([ids.ts], [scope.ts]), [Rbac] ([rbac.ts],
      [schemas/organization-role.ts]), [Lifecycle] ([lifecycle.ts],
      [deployments.ts], [schemas/lifecycle.ts]), [Secrets] ([secrets.ts]).
    - [Identity], [Sessions] ([identity.ts]): emails, passwords, signup policy,
      session payloads.
    - [Accounts] ([store.ts], [organization-creation.ts]): organizations,
      users, quotas, approval, bans; [Membership]
      ([membership-transition*.ts], [organization-invite-memory.ts]): members
      and invites.  [AccountInvariants], [AccountSafety], [InviteSafety],
      [OrganizationIdentity] hold their theorems, [InviteSafety] also a sample
      organization.
    - [Auth], [AuthExamples] ([auth.ts]): tokens, subjects, scopes, actions.
    - [EmailCodes] ([store.ts]), [EmailVerification], [EmailFlows]
      ([email-verification.ts], [password-recovery.ts]), with
      [EmailCodeSafety] and the examples: one-time codes, signup, recovery.
    - [OrganizationInvites] ([organization-invite.ts]), [OAuth]
      ([oauth-transaction.ts]), [RateLimit] ([security.ts], [store.ts]).
    - [Redaction], [RedactionSafety] ([observability-redaction.ts]):
      redaction of logs and records.
    - [DatabaseGuard], [Security] ([security.ts]): tenant inputs.
    - [Workflows] ([workflows.ts], [error-spec.ts], [store.ts]) with
      [WorkflowSafety], [WorkflowExamples], [WorkflowRefinement]: the job
      queue and its workers.
    - [Domains], [DomainSafety] ([domain.ts], [store.ts]): custom domains;
      [DomainRentals], [DomainRentalSafety] ([domain-rentals.ts]): rented names.
    - [ControlPlane], [Deployments] ([store.ts], [deployment-health.ts],
      [store-helpers.ts]) with [DeploymentSafety], [DeploymentExamples]:
      deployment rows, transitions, cancellation, rollback;
      [DeploymentOperations] ([deployment-operations.ts]) with
      [DeploymentOperationSafety]: retries and redeployments;
      [DeploymentRequests] ([persistence.ts]) with [DeploymentRequestSafety]:
      the same as callers reach them, with quotas and idempotency keys;
      [DeploymentHistory] ([deployment-history.ts]): the listing of deployments
      with signed cursors and the action offered for each.
    - [EnvFiles] ([env-file.ts], [env-policy.ts]) and
      [Environments], [EnvironmentSafety] ([secret-vault.ts], [store.ts]): the
      variables of a service and the vault of its secrets.
    - [RecoveryProvenance], [Recovery], [RecoveryService]
      ([resource-recovery*.ts]): backups and restores of resources, their
      workers with leases and attempts, cleanup, listing; with [RecoverySafety]
      (the invariant), [RecoveryRuns] (runs of steps), [RecoveryPages] over the
      generic keyset pagination of [Paging], and [RecoveryExamples].
    - [DomainRouter] ([domain-router.ts]) with [DomainRouterSafety]: the
      generated hostnames of tenants and the domain plan of a project.
    - [Quotas] ([quota.ts], the usage helpers of [store-helpers.ts],
      [enforceUserCan] of [store.ts]) with [QuotaSafety].
    - [PreviewContract] ([preview-contract.ts]), [PreviewLineage]
      ([preview-lineage.ts], [preview-deployments.ts]) with [PreviewSafety]: the
      previews of a pull request as a state machine; [PreviewWebhooks]
      ([handlePreviewWebhook] and [requestPreviewCleanup] of [store.ts]) with
      [PreviewWebhookSafety] (transactions, and the store refines the
      machine) and [PreviewExamples].
    - [TenantInputs] ([schemas/desired-state-validation.ts],
      [resource-sanitizer.ts], the sanitizers of [security.ts]): requests to
      create or change services and resources, with their properties.
    - [Services] ([store.ts], [project-settings.ts], [service-settings.ts],
      [resource-execution.ts]): projects, services and resources in the store,
      settings edited against a version, replacements, attachments and the
      deletion of a project, with their properties.
    - From a description to the cluster: [Catalog] ([catalog.ts],
      [resource-capabilities.ts]) and [EnvInjection] ([env-injection.ts]), the
      managed resources and their variables; [ServiceRuntime]
      ([service-runtime.ts], [deployment-health.ts]), quantities, volumes and
      health paths; [SourceDiscovery] ([source-discovery.ts]) and
      [BuildStrategy] ([framework-detector.ts], [build-strategy.ts]);
      [Manifests] ([manifest-compiler.ts]).  Their theorems are in
      [ManifestSafety], [ManifestSecrets], [ServiceRuntimeSafety] and
      [BuildSafety], a compiled project in [ManifestExamples].

    ** What the theorems show

    - Access: the four ways in which a request is let through (a token of a current
      account whose role in the organization permits the action, a token signed
      as global, development headers, disabled authentication) and no other;
      revoked sessions stay revoked; tokens round trip.
    - Accounts: organizations keep an owner, memberships are unique, stale
      versions are refused, an invite is delivered or revoked and good once.
    - Codes: guesses are bounded, answers reveal nothing, a recovery works end
      to end; an OAuth callback is accepted once and never replayed; rate
      limits hold within a window.
    - Jobs: a claim takes the earliest ready job, executions are bounded by the
      attempts, draining terminates, and the loop over the store refines the
      loop over an array and adds to the audit log only.
    - Redaction: tokens, key blocks and values under secret keys do not
      survive; a record within the budgets becomes exactly its redaction, and
      every record is bounded.
    - Domains: a claimed hostname stays with its tenant as long as no other name
      with the same identifier is written, rotations supersede challenges; rented
      names are unique, no request lifts an account above its allowance, and a
      rented name resolves.
    - Deployments: no row is removed, and unless its identifier is taken again its
      status follows the lifecycle contract and its lineage never changes;
      cancellation and rollback are exact; a
      successor is pinned to a commit or digest, and redeploying it deploys the
      same thing.  The history shows every deployment once, its cursors hold for
      one project and one set of filters, and what it offers has a source (a
      redeployment is offered more often than the operation accepts it).
    - Recovery: a worker whose attempt was superseded changes nothing; a restore
      under way keeps a verified artifact; statuses follow the lifecycle
      contract; requests are idempotent; the pages of a listing are complete.
    - Hostnames: one wildcard certificate covers them, services do not share
      them, preview patterns are exact.  Quotas: what passes the check of an
      account that is not exempt stays within the limits.
    - Previews: webhooks converge in any order unless two share the latest
      instant, are handled at most once and as
      a whole, and move lineages only by steps of the machine.
    - Environments: secret values reach the vault and nothing else, and what is
      written is what a service gets.  Deployment requests: one at a time,
      answered once, within the quota, without traces when refused.
    - Requests of tenants: only known fields pass at the top level, quantities
      stay within quotas, connection details and secrets of resources are
      dropped at any depth.  In the
      store, tables stay consistent, no update is lost, tenants change settings
      and not identities, and deleting a project deletes all of it only.
    - The cluster: manifests stay in their namespace, workloads are hardened
      whatever a tenant asks for, references resolve, secrets stay in Secrets,
      no private network, IPv4 or IPv6, is reachable, builds stay in the checkout, and the
      rounding of quantities never lets a request exceed its limit.
    - Defects of the code are theorems next to the code they concern: mostly
      identifiers cut to 63 characters, so that organizations, domains, codes,
      rollbacks, services or the lineages of previews overwrite each other.

    ** Bounds and fuel

    Loops over text run with the length of the text (redaction, SQL comments) as
    fuel, and each of them consumes at least one character
    per round; the comment stripper's lemmas show that its fuel is enough.
    Draining makes at most 316 worker steps (three per job for at most 100
    jobs, one per worker for at most 16).  Records are visited nine levels
    deep, as in the code.  Integers that the code keeps as JavaScript numbers
    are integers here; the code compares or bounds them before use, and where
    it asks for safe integers the model asks too.

    ** Not modelled

    The PostgreSQL twin of the store ([persistence.ts] and the [*-postgres.ts]
    files) is SQL behind a generated client; the API servers, dashboard, command
    line and clients are plumbing around the core; GitHub, Kubernetes, build
    and provisioning code has its effects outside the process. *)

From Stdlib Require Export ZArith Lia Ascii.
From stdpp Require Export base numbers strings gmap fin_maps list.

Create HintDb raibit discriminated.

(** ** Thrown errors and results

    A JavaScript exception is a value: the class that was thrown, the
    machine-readable code it carries and its HTTP status ([None] for a plain
    [Error], which has no [statusCode]). *)

Record jserror := JsError {
  err_class : string;
  err_code : string;
  err_status : option Z
}.

#[export] Instance jserror_eq_dec : EqDecision jserror.
Proof. solve_decision. Defined.

Inductive result (A : Type) : Type :=
| Ok (a : A)
| Throw (e : jserror).
Arguments Ok {A} a.
Arguments Throw {A} e.

#[export] Instance result_ret : MRet result := fun A a => Ok a.
#[export] Instance result_bind : MBind result := fun A B f m =>
  match m with Ok a => f a | Throw e => Throw e end.

(** [if (b) throw e;] *)
Definition throw_if (b : bool) (e : jserror) : result unit :=
  if b then Throw e else Ok tt.

Lemma bind_Ok {A B} (m : result A) (f : A -> result B) b :
  (m ≫= f) = Ok b <-> exists a, m = Ok a /\ f a = Ok b.
Proof.
  destruct m as [a|e]; cbn; split; intros H; eauto; try discriminate.
  - by destruct H as (a' & [= ->] & ?).
  - by destruct H as (a' & [=] & _).
Qed.

Lemma bind_Throw {A B} (m : result A) (f : A -> result B) e :
  (m ≫= f) = Throw e <-> m = Throw e \/ exists a, m = Ok a /\ f a = Throw e.
Proof.
  destruct m as [a|e']; cbn; split; intros H; eauto.
  - destruct H as [[=]|(a' & [= ->] & ?)]; done.
  - left; congruence.
  - destruct H as [[= ->]|(a' & [=] & _)]; done.
Qed.

Lemma throw_if_Ok b e u : throw_if b e = Ok u <-> b = false.
Proof. destruct b, u; cbn; split; congruence. Qed.

Lemma throw_if_Throw b e e' : throw_if b e = Throw e' <-> b = true /\ e = e'.
Proof. destruct b; cbn; intuition congruence. Qed.

(** ** Stateful operations

    An operation of the control plane mutates the store in place; when it
    throws, the mutations made before the throw remain, so the state is
    returned on both outcomes. *)

Definition M (S A : Type) : Type := S -> result A * S.

#[export] Instance M_ret {S} : MRet (M S) := fun A a s => (Ok a, s).
#[export] Instance M_bind {S} : MBind (M S) := fun A B f m s =>
  match m s with
  | (Ok a, s') => f a s'
  | (Throw e, s') => (Throw e, s')
  end.

Definition get {S} : M S S := fun s => (Ok s, s).
Definition put {S} (s' : S) : M S unit := fun _ => (Ok tt, s').
Definition modify {S} (f : S -> S) : M S unit := fun s => (Ok tt, f s).
Definition lift {S A} (r : result A) : M S A := fun s => (r, s).
Definition raise {S A} (e : jserror) : M S A := fun s => (Throw e, s).

(** ** Decomposition tactics for handler bodies *)

(** Split one [match]/[if] of the named hypothesis, remembering the case. *)
Ltac break_in H :=
  match type of H with
  | context [match ?x with _ => _ end] =>
      lazymatch x with
      | context [match _ with _ => _ end] => fail
      | _ => let E := fresh "E" in destruct x eqn:E
      end
  end; simplify_eq/=.

Ltac break_goal :=
  match goal with
  | |- context [match ?x with _ => _ end] =>
      lazymatch x with
      | context [match _ with _ => _ end] => fail
      | _ => let E := fresh "E" in destruct x eqn:E
      end
  end; simplify_eq/=.

(** Turn a successful run of a monadic body into the facts of its steps. *)
Ltac unbind :=
  repeat match goal with
  | H : mbind _ _ = Ok _ |- _ => apply bind_Ok in H as (? & ? & ?)
  | H : throw_if _ _ = Ok ?u |- _ => apply throw_if_Ok in H
  | H : mret _ = Ok _ |- _ => injection H as H
  | H : Ok _ = Ok _ |- _ => injection H as H
  | H : orb _ _ = false |- _ => apply orb_false_iff in H as [? ?]
  | H : andb _ _ = true |- _ => apply andb_true_iff in H as [? ?]
  | H : negb _ = false |- _ => apply negb_false_iff in H
  | H : negb _ = true |- _ => apply negb_true_iff in H
  end; simplify_eq/=.

(** ** Lists: [find], [findIndex] and in-place update *)

Section find_lemmas.
Context {A : Type} (P : A -> Prop) `{forall x, Decision (P x)}.

(** [array.find(p)] *)
Definition js_find (l : list A) : option A := snd <$> list_find P l.

(** [array.findIndex(p)]; [None] stands for [-1]. *)
Definition js_findIndex (l : list A) : option nat := fst <$> list_find P l.

Lemma js_find_Some l x :
  js_find l = Some x -> exists i, l !! i = Some x /\ P x /\ list_find P l = Some (i, x).
Proof.
  unfold js_find. destruct (list_find P l) as [[i y]|] eqn:E; cbn; intros [= <-].
  apply list_find_Some in E as E'. exists i. naive_solver.
Qed.

Lemma js_find_None l : js_find l = None <-> Forall (fun x => ~ P x) l.
Proof.
  unfold js_find. rewrite fmap_None, list_find_None. done.
Qed.

Lemma js_find_elem l x : js_find l = Some x -> x ∈ l /\ P x.
Proof.
  intros (i & Hi & HP & _)%js_find_Some. split; [|done].
  by eapply list_elem_of_lookup_2.
Qed.

(** The element appended to a list without any is the one found. *)
Lemma js_find_snoc l x : js_find l = None -> P x -> js_find (l ++ [x]) = Some x.
Proof.
  rewrite js_find_None. intros Hl Hx. unfold js_find. induction Hl as [|y l Hy Hl IH]; cbn; [by rewrite decide_True|].
  rewrite decide_False by done. destruct (list_find P (l ++ [x])) as [[i z]|]; [|done]. exact IH.
Qed.

Lemma js_findIndex_Some l i :
  js_findIndex l = Some i -> exists x, l !! i = Some x /\ P x.
Proof.
  unfold js_findIndex. destruct (list_find P l) as [[j y]|] eqn:E; cbn; intros [= <-].
  apply list_find_Some in E. naive_solver.
Qed.

Lemma js_find_is_Some l : is_Some (js_find l) <-> Exists P l.
Proof.
  rewrite <- not_eq_None_Some, js_find_None.
  split.
  - intros Hn. destruct (decide (Exists P l)) as [|Hne]; [done|].
    destruct Hn. by apply Forall_Exists_neg.
  - intros HE HF. by apply Forall_Exists_neg in HF.
Qed.
End find_lemmas.

(** ** Functional update of record fields

    [{ ...row, field: v }] and [row.field = v] are written
    [row <| field := v |>].  A record type declares how to rebuild itself from
    its projections ([Rebuild]); the setter of a projection is that term with
    the projection replaced. *)

Class Rebuild (R : Type) := rebuild : R -> R.

Class FieldUpdate {R T : Type} (proj : R -> T) := update_field : (T -> T) -> R -> R.

Ltac derive_field_update R proj :=
  let inst := constr:(_ : Rebuild R) in
  let body := eval hnf in inst in
  let abstracted := eval pattern proj in body in
  lazymatch abstracted with
  | ?f _ => exact (fun change r => f (fun x => change (proj x)) r)
  end.

#[export] Hint Extern 1 (@FieldUpdate ?R _ ?proj) =>
  derive_field_update R proj : typeclass_instances.

Declare Scope update_scope.
Notation "r <| proj := v |>" := (update_field (proj := proj) (fun _ => v) r)
  (at level 12, left associativity, format "r  <| proj  :=  v |>") : update_scope.
Open Scope update_scope.

Arguments update_field {R T} proj {FieldUpdate} change r /.

(** ** Dates

    A date field holds a string; what the code asks of it is the instant it
    denotes, in milliseconds since the epoch, or that it denotes none. *)

Inductive jsdate : Type :=
| At (ms : Z)
| BadDate.

#[export] Instance jsdate_eq_dec : EqDecision jsdate.
Proof. solve_decision. Defined.

(** [Date.parse(s)] / [new Date(s).getTime()]; [None] is [NaN]. *)
Definition getTime (d : jsdate) : option Z :=
  match d with At ms => Some ms | BadDate => None end.

(** Comparisons with [NaN] are false. *)
Definition num_gt (a : option Z) (b : Z) : bool :=
  match a with Some x => (b <? x)%Z | None => false end.
Definition num_le (a : option Z) (b : Z) : bool :=
  match a with Some x => (x <=? b)%Z | None => false end.

(** ** Stable sorting ([Array.prototype.sort]) *)

Section sorting.
Context {A : Type} (le : A -> A -> bool).

Fixpoint sort_insert (x : A) (l : list A) : list A :=
  match l with
  | [] => [x]
  | y :: l' => if le x y then x :: y :: l' else y :: sort_insert x l'
  end.

Definition js_sort (l : list A) : list A := foldr sort_insert [] l.

Lemma sort_insert_perm x l : sort_insert x l ≡ₚ x :: l.
Proof.
  induction l as [|y l IH]; cbn; [done|]. destruct (le x y); [done|].
  rewrite IH. constructor.
Qed.

Lemma js_sort_perm l : js_sort l ≡ₚ l.
Proof. induction l as [|x l IH]; cbn; [done|]. by rewrite sort_insert_perm, IH. Qed.

(** The first element of a sorted array is below every element. *)
Lemma sort_insert_head x l :
  (forall a b, le a b = false -> le b a = true) ->
  (forall a b c, le a b = true -> le b c = true -> le a c = true) ->
  forall y, (forall h, head l = Some h -> forall z, z ∈ l -> le h z = true) ->
  head (sort_insert x l) = Some y -> forall z, z ∈ x :: l -> le y z = true.
Proof.
  intros Htot Htr y Hl Hy z Hz.
  assert (Hrefl : forall a, le a a = true).
  { intros a. destruct (le a a) eqn:E; [done|]. by rewrite (Htot a a) in E. }
  destruct l as [|h l]; cbn in Hy.
  { injection Hy as <-. apply list_elem_of_singleton in Hz as ->. done. }
  destruct (le x h) eqn:E; cbn in Hy; injection Hy as <-.
  - apply elem_of_cons in Hz as [->|Hz]; [done|].
    eapply Htr; [exact E|]. by apply (Hl h).
  - apply elem_of_cons in Hz as [->|Hz]; [by apply Htot|]. by apply (Hl h).
Qed.

Lemma js_sort_head l y :
  (forall a b, le a b = false -> le b a = true) ->
  (forall a b c, le a b = true -> le b c = true -> le a c = true) ->
  head (js_sort l) = Some y -> y ∈ l /\ forall z, z ∈ l -> le y z = true.
Proof.
  intros Htot Htr Hy. split.
  { rewrite <- js_sort_perm. destruct (js_sort l); [done|]. cbn in Hy.
    injection Hy as ->. set_solver. }
  revert y Hy. induction l as [|x l IH]; [done|]. intros y Hy z Hz. cbn in Hy.
  eapply (sort_insert_head x (js_sort l)); try done.
  - intros h Hh w Hw. apply (IH h Hh). by rewrite <- js_sort_perm.
  - apply elem_of_cons. apply elem_of_cons in Hz as [->|Hz]; [by left|].
    right. by rewrite js_sort_perm.
Qed.
End sorting.

(** ** Counting the members of a list *)

Section counting.
Context {A : Type} (P : A -> Prop) `{forall x, Decision (P x)}.

Lemma length_filter_insert l i x y :
  l !! i = Some x ->
  (length (filter P (<[i := y]> l)) + (if decide (P x) then 1 else 0)
   = length (filter P l) + (if decide (P y) then 1 else 0))%nat.
Proof.
  revert i; induction l as [|z l IH]; intros [|i] Hi; simplify_eq/=.
  - rewrite !filter_cons. repeat case_decide; simpl; lia.
  - specialize (IH i Hi). rewrite !filter_cons. repeat case_decide; simpl; lia.
Qed.

Lemma length_filter_delete l i x :
  l !! i = Some x ->
  (length (filter P (delete i l)) + (if decide (P x) then 1 else 0) = length (filter P l))%nat.
Proof.
  revert i; induction l as [|z l IH]; intros [|i] Hi; simplify_eq/=.
  - rewrite filter_cons. case_decide; simpl; lia.
  - specialize (IH i Hi). rewrite !filter_cons. repeat case_decide; simpl; lia.
Qed.

Lemma length_filter_snoc l x :
  length (filter P (l ++ [x])) = (length (filter P l) + (if decide (P x) then 1 else 0))%nat.
Proof. rewrite filter_app, length_app, filter_cons, filter_nil. case_decide; done. Qed.

Lemma length_filter_pos l : (0 < length (filter P l))%nat <-> Exists P l.
Proof.
  induction l as [|x l IH]; [cbn; split; [lia|by inversion 1]|].
  rewrite filter_cons, Exists_cons. case_decide; simpl; [split; [naive_solver|lia]|].
  rewrite IH. naive_solver.
Qed.
End counting.

(** ** Operations that leave a part of the state alone *)

Definition frame {S A T} (proj : S -> T) (m : M S A) : Prop :=
  forall s, proj (m s).2 = proj s.

Section frames.
Context {S T : Type} (proj : S -> T).

Lemma frame_bind {A B} (m : M S A) (f : A -> M S B) :
  frame proj m -> (forall a, frame proj (f a)) -> frame proj (m ≫= f).
Proof.
  intros Hm Hf s. unfold mbind, M_bind. specialize (Hm s).
  destruct (m s) as [[a|e] s']; cbn in *; [|done]. by rewrite Hf.
Qed.

Lemma frame_ret {A} (a : A) : frame proj (mret a : M S A).
Proof. intros s. reflexivity. Qed.

Lemma frame_lift {A} (r : result A) : frame proj (lift r : M S A).
Proof. intros s. reflexivity. Qed.

Lemma frame_get : frame proj (get : M S S).
Proof. intros s. reflexivity. Qed.

Lemma frame_modify f : (forall s, proj (f s) = proj s) -> frame proj (modify f : M S unit).
Proof. intros H s. apply H. Qed.

Lemma frame_if {A} (b : bool) (m1 m2 : M S A) : frame proj m1 -> frame proj m2 -> frame proj (if b then m1 else m2).
Proof. by destruct b. Qed.
End frames.

#[export] Hint Resolve frame_bind frame_ret frame_lift frame_get frame_if : raibit.

(** Prove that an operation leaves a projection alone, step by step. *)
Ltac solve_frame :=
  repeat first
    [ solve [auto 2 with raibit nocore] | apply frame_ret | apply frame_lift | apply frame_get
    | apply frame_modify; intros; reflexivity
    | apply frame_bind; [|intros ?]
    | match goal with |- frame _ (match ?x with _ => _ end) => destruct x end
    | match goal with |- frame _ (if ?x then _ else _) => destruct x end
    | solve [auto with raibit]
    | progress cbn beta zeta ].

(** Evaluate the monadic plumbing of a body applied to a state. *)
Ltac run :=
  unfold mbind, M_bind, mret, M_ret, get, put, modify, lift, raise, throw_if, mret, result_ret in *;
  cbn beta iota zeta in *.

(** ** Stepping through a body *)

Section stepping.
Context {S A B : Type}.

Lemma run_get (f : S -> M S B) s : (get ≫= f) s = f s s.
Proof. reflexivity. Qed.

Lemma run_lift (r : result A) (f : A -> M S B) s :
  (lift r ≫= f) s = match r with Ok a => f a s | Throw e => (Throw e, s) end.
Proof. by destruct r. Qed.

Lemma run_modify (g : S -> S) (f : unit -> M S B) s : (modify g ≫= f) s = f tt (g s).
Proof. reflexivity. Qed.

Lemma run_bind_state (P : S -> Prop) (m : M S A) (f : A -> M S B) s :
  P (m s).2 -> (forall a s', m s = (Ok a, s') -> P s' -> P (f a s').2) -> P ((m ≫= f) s).2.
Proof.
  unfold mbind, M_bind. destruct (m s) as [[a|e] s'] eqn:E; cbn; [|done].
  intros H1 H2. by apply (H2 a s').
Qed.
End stepping.

(** Walk through [get], [lift] and [modify]; a [lift] that throws ends the
    run with the state unchanged. *)
Ltac step_once :=
  first
    [ rewrite run_get; cbn beta
    | rewrite run_modify; cbn beta
    | rewrite run_lift;
      match goal with
      | |- context [match ?r with Ok _ => _ | Throw _ => _ end] =>
          let E := fresh "E" in destruct r eqn:E; cbn beta iota
      end ].

(** A guard whose tests hold by the facts at hand, reduced to its last test. *)
Ltac settle_guard E :=
  repeat (rewrite bool_decide_true in E by done); cbn [andb orb negb] in E; apply Z.leb_gt in E.

(** ** Successful runs

    A run that returns is inverted into the facts of its steps. *)

Section successful.
Context {S : Type}.

Lemma bind_returns {A B} (m : M S A) (f : A -> M S B) s b s' :
  (m ≫= f) s = (Ok b, s') <-> exists a s1, m s = (Ok a, s1) /\ f a s1 = (Ok b, s').
Proof.
  unfold mbind, M_bind. destruct (m s) as [[a|e] s1]; split; intros H.
  - by exists a, s1.
  - by destruct H as (a' & s1' & [= <- <-] & ?).
  - done.
  - by destruct H as (? & ? & [=] & _).
Qed.

Lemma get_returns {B} (f : S -> M S B) s b s' : (get ≫= f) s = (Ok b, s') <-> f s s = (Ok b, s').
Proof. reflexivity. Qed.

Lemma modify_returns {B} (g : S -> S) (f : unit -> M S B) s b s' :
  (modify g ≫= f) s = (Ok b, s') <-> f tt (g s) = (Ok b, s').
Proof. reflexivity. Qed.

Lemma lift_returns {A B} (r : result A) (f : A -> M S B) s b s' :
  (lift r ≫= f) s = (Ok b, s') <-> exists a, r = Ok a /\ f a s = (Ok b, s').
Proof.
  rewrite bind_returns. unfold lift. split.
  - intros (a & s1 & [= -> <-] & H). by exists a.
  - intros (a & -> & H). by exists a, s.
Qed.

Lemma ret_returns {A} (a b : A) (s s' : S) : (mret a : M S A) s = (Ok b, s') <-> a = b /\ s = s'.
Proof. unfold mret, M_ret. split; [by intros [= -> ->]|by intros [-> ->]]. Qed.

Lemma guard_returns {B} g e (f : unit -> M S B) s b s' :
  (lift (throw_if g e) ≫= f) s = (Ok b, s') <-> g = false /\ f tt s = (Ok b, s').
Proof.
  rewrite lift_returns. split.
  - intros ([] & H%throw_if_Ok & Hf). done.
  - intros [-> Hf]. by exists tt.
Qed.
End successful.

(** Take one step off a successful run, naming what it gave. *)
Ltac returns_step H :=
  lazymatch type of H with
  | (get ≫= _) _ = _ => apply get_returns in H; cbn beta zeta in H
  | (modify _ ≫= _) _ = _ => apply modify_returns in H; cbn beta zeta in H
  | (lift (throw_if _ _) ≫= _) _ = _ =>
      let G := fresh "G" in apply guard_returns in H as [G H]; cbn beta zeta in H
  | (lift _ ≫= _) _ = _ =>
      let x := fresh "x" in let L := fresh "L" in apply lift_returns in H as (x & L & H); cbn beta zeta in H
  | mret _ _ = (Ok _, _) => apply ret_returns in H as [? ?]
  end.
Ltac returns_in H := repeat returns_step H.
