(* ===== verification/JsString.v ===== *)
(** * JavaScript strings

    The string operations the control plane uses ([trim], [toLowerCase],
    [replace] with a character class, [slice], [startsWith], anchored
    character-class patterns), over sequences of code units below 256.
    [toLowerCase] and [trim] are exact on that range; [toUpperCase] is exact
    except for the three Latin-1 letters whose upper case lies outside it,
    which it leaves alone. *)

From S2P Require Import Prelude.

Definition chars (s : string) : list Ascii.ascii := String.list_ascii_of_string s.
Definition unchars (l : list Ascii.ascii) : string := String.string_of_list_ascii l.

Lemma chars_unchars l : chars (unchars l) = l.
Proof. apply String.list_ascii_of_string_of_list_ascii. Qed.

Lemma unchars_chars s : unchars (chars s) = s.
Proof. apply String.string_of_list_ascii_of_string. Qed.

#[export] Hint Rewrite chars_unchars unchars_chars : raibit.

Lemma chars_app a b : chars (a +:+ b) = chars a ++ chars b.
Proof.
  induction a as [|c a IH]; [done|].
  change (String c a +:+ b) with (String c (a +:+ b)).
  unfold chars in *; cbn. by rewrite IH.
Qed.

#[export] Instance chars_inj : Inj (=) (=) chars.
Proof. intros s t H. rewrite <- (unchars_chars s), <- (unchars_chars t). by f_equal. Qed.

(** [s.length] *)
Definition str_length (s : string) : Z := Z.of_nat (length (chars s)).

(** [!s] for a string: only the empty string is falsy. *)
Definition str_empty (s : string) : bool :=
  match s with EmptyString => true | _ => false end.

Lemma str_empty_eq s : str_empty s = bool_decide (s = "").
Proof. by destruct s. Qed.

(** [a || b] on strings *)
Definition str_or (a b : string) : string := if str_empty a then b else a.

(** ** Code units and character classes *)

Definition code (c : Ascii.ascii) : N := Ascii.N_of_ascii c.
Definition chr (n : N) : Ascii.ascii := Ascii.ascii_of_N n.

Lemma chr_code c : chr (code c) = c.
Proof. apply Ascii.ascii_N_embedding. Qed.

Definition in_range (lo hi : N) (c : Ascii.ascii) : bool :=
  ((lo <=? code c) && (code c <=? hi))%N.

Definition is_lower (c : Ascii.ascii) : bool := in_range 97 122 c.
Definition is_upper (c : Ascii.ascii) : bool := in_range 65 90 c.
Definition is_digit (c : Ascii.ascii) : bool := in_range 48 57 c.
Definition is_lower_alnum (c : Ascii.ascii) : bool := is_lower c || is_digit c.
Definition is_alnum (c : Ascii.ascii) : bool := is_lower c || is_upper c || is_digit c.
Definition is_hyphen (c : Ascii.ascii) : bool := (code c =? 45)%N.
(** [/\s/] and the characters [trim] removes, below 256 *)
Definition is_space (c : Ascii.ascii) : bool :=
  in_range 9 13 c || (code c =? 32)%N || (code c =? 160)%N.

(** ** Case *)

Definition lower_char (c : Ascii.ascii) : Ascii.ascii :=
  if is_upper c || (in_range 192 222 c && negb (code c =? 215)%N)
  then chr (code c + 32) else c.
Definition upper_char (c : Ascii.ascii) : Ascii.ascii :=
  if is_lower c || (in_range 224 254 c && negb (code c =? 247)%N)
  then chr (code c - 32) else c.

Definition toLowerCase (s : string) : string := unchars (lower_char <$> chars s).
Definition toUpperCase (s : string) : string := unchars (upper_char <$> chars s).

(** ** Trimming and class replacement *)

Fixpoint drop_while {A} (p : A -> bool) (l : list A) : list A :=
  match l with
  | [] => []
  | x :: l' => if p x then drop_while p l' else l
  end.

(** Remove the characters of a class from both ends:
    [replace(/^p+|p+$/g, '')]. *)
Definition strip_chars {A} (p : A -> bool) (l : list A) : list A :=
  rev (drop_while p (rev (drop_while p l))).

Definition trim (s : string) : string := unchars (strip_chars is_space (chars s)).

(** [replace(/p+/g, r)]: every maximal run of the class becomes one [r]. *)
Fixpoint collapse_runs {A} (p : A -> bool) (r : A) (in_run : bool) (l : list A) : list A :=
  match l with
  | [] => []
  | x :: l' =>
      if p x then (if in_run then collapse_runs p r true l'
                   else r :: collapse_runs p r true l')
      else x :: collapse_runs p r false l'
  end.

(** [s.slice(0, n)] for [n >= 0] *)
Definition slice0 (n : nat) (s : string) : string := unchars (take n (chars s)).

(** ** Prefixes, suffixes and substrings *)

Fixpoint prefixb (p l : list Ascii.ascii) : bool :=
  match p, l with
  | [], _ => true
  | x :: p', y :: l' => Ascii.eqb x y && prefixb p' l'
  | _ :: _, [] => false
  end.
Definition startsWith (s p : string) : bool := prefixb (chars p) (chars s).
Definition endsWith (s p : string) : bool := prefixb (rev (chars p)) (rev (chars s)).

Fixpoint infixb (p l : list Ascii.ascii) : bool :=
  prefixb p l || match l with [] => false | _ :: l' => infixb p l' end.
Definition includes (s p : string) : bool := infixb (chars p) (chars s).

(** [s.split(c)] for a one-character separator *)
Fixpoint split_chars (c : Ascii.ascii) (l : list Ascii.ascii) : list (list Ascii.ascii) :=
  match l with
  | [] => [[]]
  | x :: l' =>
      if Ascii.eqb x c then [] :: split_chars c l'
      else match split_chars c l' with
           | [] => [[x]]
           | seg :: segs => (x :: seg) :: segs
           end
  end.
Definition split_on (c : Ascii.ascii) (s : string) : list string :=
  unchars <$> split_chars c (chars s).

(** The number of bytes of the UTF-8 encoding ([TextEncoder().encode(s)]). *)
Definition utf8_length (s : string) : Z :=
  foldr (fun c n => (if (code c <? 128)%N then 1 else 2) + n)%Z 0%Z (chars s).

(** ** Lemmas *)

Lemma prefixb_spec p l : prefixb p l = true <-> exists k, l = p ++ k.
Proof.
  revert l; induction p as [|x p IH]; intros l; cbn.
  - split; eauto.
  - destruct l as [|y l]; cbn.
    + split; [done|]. by intros [k [=]].
    + rewrite andb_true_iff, IH. split.
      * intros [->%Ascii.eqb_eq [k ->]]. by exists k.
      * intros [k [= -> ->]]. split; [apply Ascii.eqb_refl|eauto].
Qed.

Lemma infixb_spec p l : infixb p l = true <-> exists k1 k2, l = k1 ++ p ++ k2.
Proof.
  induction l as [|y l IH]; cbn [infixb]; rewrite orb_true_iff, prefixb_spec.
  - split.
    + intros [[k ->]|[=]]. by exists [], k.
    + intros (k1 & k2 & H). left. exists k2.
      by destruct k1.
  - split.
    + intros [[k ->]|(k1 & k2 & ->)%IH]; [by exists [], k|by exists (y :: k1), k2].
    + intros ([|z k1] & k2 & H); cbn in H; [by left; exists k2|].
      right. apply IH. injection H as -> ->. eauto.
Qed.

Lemma startsWith_spec s p : startsWith s p = true <-> exists t, s = p +:+ t.
Proof.
  unfold startsWith. rewrite prefixb_spec.
  split.
  - intros [k Hk]. exists (unchars k). apply (inj chars).
    by rewrite chars_app, chars_unchars.
  - intros [t ->]. rewrite chars_app. eauto.
Qed.

Lemma drop_while_Forall {A} (p : A -> bool) (Q : A -> Prop) l :
  Forall Q l -> Forall Q (drop_while p l).
Proof.
  induction 1 as [|x l Hx Hl IH]; cbn; [constructor|].
  destruct (p x); [done|by constructor].
Qed.

Lemma strip_chars_Forall {A} (p : A -> bool) (Q : A -> Prop) l :
  Forall Q l -> Forall Q (strip_chars p l).
Proof.
  intros. unfold strip_chars. rewrite <- Permutation_rev.
  apply drop_while_Forall. rewrite <- Permutation_rev. by apply drop_while_Forall.
Qed.

Lemma drop_while_head {A} (p : A -> bool) l x k :
  drop_while p l = x :: k -> p x = false.
Proof.
  induction l as [|y l IH]; cbn; [done|].
  destruct (p y) eqn:E; [done|]. congruence.
Qed.

Lemma drop_while_suffix {A} (p : A -> bool) l :
  exists k, l = k ++ drop_while p l /\ Forall (fun x => p x = true) k.
Proof.
  induction l as [|y l (k & IH & Hk)]; cbn; [by exists []|].
  destruct (p y) eqn:E.
  - exists (y :: k). cbn. split; [by f_equal|]. by constructor.
  - by exists [].
Qed.

Lemma strip_chars_last {A} (p : A -> bool) l k x :
  strip_chars p l = k ++ [x] -> p x = false.
Proof.
  unfold strip_chars. intros H.
  apply (f_equal (@rev A)) in H. rewrite rev_involutive, rev_app_distr in H. cbn in H.
  by eapply drop_while_head.
Qed.

Lemma strip_chars_head {A} (p : A -> bool) l k x :
  strip_chars p l = x :: k -> p x = false.
Proof.
  unfold strip_chars. intros H.
  destruct (drop_while_suffix p (rev (drop_while p l))) as (m & Hm & _).
  set (d := drop_while p (rev (drop_while p l))) in *.
  assert (Hd : drop_while p l = rev d ++ rev m).
  { rewrite <- rev_app_distr, <- Hm. by rewrite rev_involutive. }
  rewrite H in Hd. cbn in Hd. by eapply drop_while_head.
Qed.

(** Nothing is removed from a sequence whose ends are outside the class. *)
Lemma drop_while_id {A} (p : A -> bool) l :
  (forall x k, l = x :: k -> p x = false) -> drop_while p l = l.
Proof. destruct l as [|x l]; cbn; [done|]. intros H. by rewrite (H x l). Qed.

Lemma strip_chars_id {A} (p : A -> bool) l :
  (forall x k, l = x :: k -> p x = false) ->
  (forall x k, l = k ++ [x] -> p x = false) -> strip_chars p l = l.
Proof.
  intros Hh Hl. unfold strip_chars. rewrite (drop_while_id p l) by done.
  rewrite drop_while_id; [apply rev_involutive|].
  intros x k H. apply (Hl x (rev k)).
  apply (f_equal (@rev A)) in H. by rewrite rev_involutive in H.
Qed.

Lemma collapse_runs_id {A} (p : A -> bool) r b l :
  Forall (fun x => p x = false) l -> collapse_runs p r b l = l.
Proof.
  intros Hl. revert b. induction Hl as [|x l Hx Hl IH]; intros b; cbn; [done|].
  rewrite Hx. by f_equal.
Qed.

(** Every character of a collapsed sequence is outside the class or the
    replacement itself. *)
Lemma collapse_runs_Forall {A} (p : A -> bool) r b l :
  Forall (fun x => p x = false \/ x = r) (collapse_runs p r b l).
Proof.
  revert b; induction l as [|x l IH]; intros b; cbn; [constructor|].
  destruct (p x) eqn:E; [destruct b|]; auto.
Qed.

(** When the replacement belongs to the class, no two replacements are
    adjacent in a collapsed sequence. *)
Fixpoint no_adjacent {A} (p : A -> bool) (l : list A) : bool :=
  match l with
  | [] => true
  | x :: l' => match l' with [] => true | y :: _ => negb (p x && p y) && no_adjacent p l' end
  end.

Lemma no_adjacent_cons {A} (p : A -> bool) x y l :
  no_adjacent p (x :: y :: l) = negb (p x && p y) && no_adjacent p (y :: l).
Proof. reflexivity. Qed.

Lemma collapse_runs_head {A} (p : A -> bool) r l x k :
  collapse_runs p r true l = x :: k -> p x = false.
Proof.
  induction l as [|y l IH]; cbn; [done|].
  destruct (p y) eqn:E; [done|]. intros [= <- _]. done.
Qed.

Lemma collapse_runs_no_adjacent {A} (p : A -> bool) r b l :
  no_adjacent p (collapse_runs p r b l) = true.
Proof.
  revert b; induction l as [|x l IH]; intros b; cbn [collapse_runs]; [done|].
  destruct (p x) eqn:E; [destruct b; [apply IH|]|].
  - specialize (IH true). pose proof (collapse_runs_head p r l) as Hh.
    destruct (collapse_runs p r true l) as [|y k]; [done|].
    rewrite no_adjacent_cons, IH, (Hh y k) by done.
    by rewrite andb_false_r.
  - specialize (IH false). destruct (collapse_runs p r false l) as [|y k]; [done|].
    by rewrite no_adjacent_cons, IH, E.
Qed.

Lemma no_adjacent_app_l {A} (p : A -> bool) l k :
  no_adjacent p (l ++ k) = true -> no_adjacent p l = true.
Proof.
  induction l as [|x [|y l] IH]; [done|done|].
  cbn [app] in *. rewrite !no_adjacent_cons, !andb_true_iff. naive_solver.
Qed.

Lemma no_adjacent_app_r {A} (p : A -> bool) l k :
  no_adjacent p (l ++ k) = true -> no_adjacent p k = true.
Proof.
  induction l as [|x l IH]; [done|]. cbn [app]. intros H. apply IH.
  destruct (l ++ k) as [|y m]; [done|].
  rewrite no_adjacent_cons, andb_true_iff in H. naive_solver.
Qed.

(** A sequence without adjacent members of the class is a fixed point of the
    replacement by a member of the class. *)
Lemma collapse_runs_fixed {A} (p : A -> bool) r l :
  (forall x, p x = true -> x ∈ l -> x = r) -> no_adjacent p l = true ->
  collapse_runs p r false l = l.
Proof.
  induction l as [|x l IH]; intros Hr Hna; [done|]. cbn.
  assert (Hl : collapse_runs p r false l = l).
  { apply IH; [set_solver|]. by apply (no_adjacent_app_r p [x]). }
  destruct (p x) eqn:E; [|by f_equal].
  f_equal; [symmetry; apply Hr; set_solver|].
  destruct l as [|y l]; [done|].
  rewrite no_adjacent_cons, E, andb_true_iff in Hna. destruct Hna as [Hy _].
  cbn in Hy. apply negb_true_iff in Hy.
  cbn in Hl |- *. by rewrite Hy in *.
Qed.

(** ** Decimal and hexadecimal digits, and the DNS label pattern *)

(** [/^[a-z0-9](?:[a-z0-9-]*[a-z0-9])?$/] *)
Definition label_chars (l : list Ascii.ascii) : bool :=
  match l with
  | [] => false
  | x :: _ =>
      is_lower_alnum x
      && forallb (fun c => is_lower_alnum c || is_hyphen c) l
      && match last l with Some y => is_lower_alnum y | None => false end
  end.
Definition label_pattern (s : string) : bool := label_chars (chars s).

(** [/^[p]{lo,hi}$/] *)
Definition class_pattern (p : Ascii.ascii -> bool) (lo hi : nat) (s : string) : bool :=
  let l := chars s in
  (lo <=? length l)%nat && (length l <=? hi)%nat && forallb p l.

(** Facts on single characters, by enumeration of the 256 code units. *)
Ltac char_cases c := destruct c as [[] [] [] [] [] [] [] []].

Lemma lower_alnum_not_hyphen c : is_lower_alnum c = true -> is_hyphen c = false.
Proof. char_cases c; vm_compute; congruence. Qed.

Lemma lower_alnum_not_space c : is_lower_alnum c || is_hyphen c = true -> is_space c = false.
Proof. char_cases c; vm_compute; congruence. Qed.

Lemma lower_char_lower_alnum c : is_lower_alnum c || is_hyphen c = true -> lower_char c = c.
Proof. char_cases c; vm_compute; congruence. Qed.

Lemma lower_char_idem c : lower_char (lower_char c) = lower_char c.
Proof. char_cases c; reflexivity. Qed.

Lemma lower_char_space c : is_space (lower_char c) = is_space c.
Proof. char_cases c; reflexivity. Qed.

Lemma is_hyphen_eq c : is_hyphen c = true -> c = "-"%char.
Proof. char_cases c; vm_compute; congruence. Qed.

Lemma toLowerCase_idem s : toLowerCase (toLowerCase s) = toLowerCase s.
Proof.
  unfold toLowerCase. rewrite chars_unchars. f_equal.
  rewrite <- list_fmap_compose. apply list_fmap_ext.
  intros i c _. apply lower_char_idem.
Qed.

(** ** Splitting *)

Lemma split_chars_none c l : c ∉ l -> split_chars c l = [l].
Proof.
  induction l as [|x l IH]; [done|]. rewrite not_elem_of_cons. intros [Hx Hl]. cbn.
  rewrite (IH Hl). by destruct (Ascii.eqb_spec x c) as [->|].
Qed.

Lemma split_chars_sep c a b : c ∉ a -> split_chars c (a ++ c :: b) = a :: split_chars c b.
Proof.
  induction a as [|x a IH]; cbn; [by rewrite Ascii.eqb_refl|].
  rewrite not_elem_of_cons. intros [Hx Ha]. rewrite (IH Ha). by destruct (Ascii.eqb_spec x c) as [->|].
Qed.

Lemma split_chars_clean c l : Forall (fun seg => c ∉ seg) (split_chars c l).
Proof.
  induction l as [|x l IH]; cbn [split_chars]; [by repeat constructor; apply not_elem_of_nil|]. destruct (Ascii.eqb_spec x c) as [->|Hx].
  - constructor; [apply not_elem_of_nil|done].
  - destruct (split_chars c l) as [|seg segs]; [constructor; set_solver|]. apply Forall_cons in IH as [H1 H2]. constructor; [set_solver|done].
Qed.

Lemma split_on_none c a : c ∉ chars a -> split_on c a = [a].
Proof. intros Ha. unfold split_on. rewrite split_chars_none by done. cbn [fmap list_fmap]. by rewrite unchars_chars. Qed.

Lemma split_on_sep c a b : c ∉ chars a -> split_on c (a +:+ unchars [c] +:+ b) = a :: split_on c b.
Proof.
  intros Ha. unfold split_on. rewrite !chars_app, chars_unchars. cbn [app]. rewrite split_chars_sep by done. cbn [fmap list_fmap]. by rewrite unchars_chars.
Qed.

Lemma split_on_clean c s : Forall (fun seg => c ∉ chars seg) (split_on c s).
Proof.
  unfold split_on. apply Forall_fmap. eapply Forall_impl; [apply split_chars_clean|]. intros seg H. cbn. by rewrite chars_unchars.
Qed.

Lemma split_chars_cover c l x : x ∈ l -> x = c \/ exists p, p ∈ split_chars c l /\ x ∈ p.
Proof.
  induction l as [|y l IH]; [set_solver|]. intros [-> |Hx]%elem_of_cons; cbn [split_chars];
    destruct (Ascii.eqb_spec y c) as [-> |Hne].
  - by left.
  - right. destruct (split_chars c l) as [|p ps]; [exists [y]; set_solver|]. exists (y :: p). set_solver.
  - destruct (IH Hx) as [?|(p & Hp & Hxp)]; [by left|right]. exists p. set_solver.
  - destruct (IH Hx) as [?|(p & Hp & Hxp)]; [by left|right]. destruct (split_chars c l) as [|q qs]; [set_solver|].
    apply elem_of_cons in Hp as [-> |Hp]; [exists (y :: q); set_solver|exists p; set_solver].
Qed.

Lemma split_chars_last c l : last l = Some c -> exists p ps, split_chars c l = p :: ps /\ last ps = Some [].
Proof.
  induction l as [|y l IH]; [done|]. intros Hl. cbn [split_chars]. destruct l as [|z l].
  - injection Hl as ->. rewrite Ascii.eqb_refl. by exists [], [[]].
  - destruct (IH Hl) as (p & ps & -> & Hps). destruct (Ascii.eqb y c).
    + exists [], (p :: ps). split; [done|]. by destruct ps.
    + by exists (y :: p), ps.
Qed.

(** The last segment of a split is the text after the last separator. *)
Lemma split_chars_tail c l : exists front seg,
  l = front ++ seg /\ c ∉ seg /\
  ((front = [] /\ split_chars c l = [seg]) \/
   (last front = Some c /\ exists p ps, split_chars c l = p :: ps /\ last ps = Some seg)).
Proof.
  induction l as [|x l (front & seg & -> & Hs & IH)]; [exists [], []; set_solver|].
  cbn [split_chars]. destruct (Ascii.eqb_spec x c) as [-> |Hx].
  - exists (c :: front), seg. split_and!; [done..|right]. destruct IH as [[-> ->]|(Hf & p & ps & -> & Hp)].
    + split; [done|]. by exists [], [seg].
    + split; [by destruct front|]. exists [], (p :: ps). split; [done|]. by destruct ps.
  - destruct IH as [[-> ->]|(Hf & p & ps & -> & Hp)].
    + exists [], (x :: seg). split_and!; [done|set_solver|by left].
    + exists (x :: front), seg. split_and!; [done..|right]. split; [by destruct front|]. by exists (x :: p), ps.
Qed.
