(* ===== verification/JsMap.v ===== *)
(** * JavaScript [Map] keyed by strings

    The control plane keeps its tables in [Map] objects and iterates over
    [map.values()], whose order is the insertion order: [set] on a present key
    keeps the key's position, [set] on a new key appends. The model is an
    association list with exactly that order; [to_gmap] is the abstraction to
    an unordered finite map, and every operation refines the operation of the
    abstract map. *)

From S2P Require Import Prelude.

(** What a client may rely on: a table with point lookup, update and removal.
    Clients that do not depend on iteration order are proved against it. *)
Class TableOps (T V : Type) := {
  t_empty : T;
  t_get : string -> T -> option V;
  t_set : string -> V -> T -> T;
  t_delete : string -> T -> T
}.

Class TableLaws (T V : Type) `{TableOps T V} := {
  t_get_empty k : t_get k t_empty = None;
  t_get_set_eq k v t : t_get k (t_set k v t) = Some v;
  t_get_set_ne k k' v t : k <> k' -> t_get k' (t_set k v t) = t_get k' t;
  t_get_delete_eq k t : t_get k (t_delete k t) = None;
  t_get_delete_ne k k' t : k <> k' -> t_get k' (t_delete k t) = t_get k' t
}.

Section jsmap.
Context {V : Type}.

Definition jsmap : Type := list (string * V).

Fixpoint map_get (k : string) (m : list (string * V)) : option V :=
  match m with
  | [] => None
  | (k', v) :: m' => if decide (k' = k) then Some v else map_get k m'
  end.

Fixpoint map_set (k : string) (v : V) (m : list (string * V)) : list (string * V) :=
  match m with
  | [] => [(k, v)]
  | (k', v') :: m' =>
      if decide (k' = k) then (k', v) :: m' else (k', v') :: map_set k v m'
  end.

Fixpoint map_delete (k : string) (m : list (string * V)) : list (string * V) :=
  match m with
  | [] => []
  | (k', v) :: m' => if decide (k' = k) then map_delete k m' else (k', v) :: map_delete k m'
  end.

Definition map_has (k : string) (m : list (string * V)) : bool :=
  match map_get k m with Some _ => true | None => false end.

Definition map_values (m : list (string * V)) : list V := m.*2.
Definition map_keys (m : list (string * V)) : list string := m.*1.

(** Keys are unique: the invariant every [Map] satisfies. *)
Definition map_wf (m : list (string * V)) : Prop := NoDup (map_keys m).

(** ** Lookup laws *)

Lemma map_get_set_eq k v m : map_get k (map_set k v m) = Some v.
Proof.
  induction m as [|[k' v'] m IH]; cbn; [by rewrite decide_True|].
  case_decide; cbn; [by rewrite decide_True|by rewrite decide_False].
Qed.

Lemma map_get_set_ne k k' v m : k <> k' -> map_get k' (map_set k v m) = map_get k' m.
Proof.
  intros Hne. induction m as [|[k'' v''] m IH]; cbn; [by rewrite decide_False|].
  destruct (decide (k'' = k)) as [->|]; cbn; [by rewrite !decide_False|].
  by rewrite IH.
Qed.

Lemma map_get_set k k' v m :
  map_get k' (map_set k v m) = if decide (k = k') then Some v else map_get k' m.
Proof. case_decide as E; [subst; apply map_get_set_eq|by apply map_get_set_ne]. Qed.

Lemma map_get_delete_eq k m : map_get k (map_delete k m) = None.
Proof.
  induction m as [|[k' v'] m IH]; cbn; [done|].
  case_decide; cbn; [done|by rewrite decide_False].
Qed.

Lemma map_get_delete_ne k k' m : k <> k' -> map_get k' (map_delete k m) = map_get k' m.
Proof.
  intros Hne. induction m as [|[k'' v''] m IH]; cbn; [done|].
  destruct (decide (k'' = k)) as [->|]; cbn; [by rewrite (decide_False (P := k = k'))|].
  by rewrite IH.
Qed.

(** ** Keys and order *)

Lemma map_keys_set k v m :
  map_keys (map_set k v m) = if map_has k m then map_keys m else map_keys m ++ [k].
Proof.
  unfold map_has, map_keys. induction m as [|[k' v'] m IH]; cbn; [done|].
  destruct (decide (k' = k)) as [->|]; cbn; [done|].
  rewrite IH. by destruct (map_get k m).
Qed.

Lemma map_set_fresh k v m : map_get k m = None -> map_set k v m = m ++ [(k, v)].
Proof.
  induction m as [|[k' v'] m IH]; cbn; [done|]. case_decide; [done|]. intros Hk. by rewrite IH.
Qed.

Lemma map_keys_set_subset k v m k' : k' ∈ map_keys (map_set k v m) -> k' = k \/ k' ∈ map_keys m.
Proof. rewrite map_keys_set. destruct (map_has k m); set_solver. Qed.

Lemma map_get_None k m : map_get k m = None <-> k ∉ map_keys m.
Proof.
  unfold map_keys. induction m as [|[k' v'] m IH]; cbn; [set_solver|].
  case_decide; set_solver.
Qed.

Lemma map_get_Some_elem k v m : map_get k m = Some v -> (k, v) ∈ m.
Proof.
  induction m as [|[k' v'] m IH]; cbn; [done|].
  case_decide; [intros [= ->]; subst; set_solver|set_solver].
Qed.

Lemma map_get_elem k v m : map_wf m -> (k, v) ∈ m -> map_get k m = Some v.
Proof.
  unfold map_wf, map_keys. induction m as [|[k' v'] m IH]; cbn; [set_solver|].
  rewrite NoDup_cons. intros [Hk' Hm] [[= -> ->]|Hin]%elem_of_cons; [by rewrite decide_True|].
  rewrite decide_False; [by apply IH|].
  intros ->. apply Hk'. apply list_elem_of_fmap. by exists (k, v).
Qed.

Lemma map_values_elem v m : map_wf m -> v ∈ map_values m <-> exists k, map_get k m = Some v.
Proof.
  intros Hwf. unfold map_values. rewrite list_elem_of_fmap. split.
  - intros [[k v'] [-> Hin]]. exists k. by apply map_get_elem.
  - intros [k Hk]. exists (k, v). split; [done|]. by apply map_get_Some_elem.
Qed.

Lemma map_wf_nil : map_wf [].
Proof. constructor. Qed.

Lemma map_wf_set k v m : map_wf m -> map_wf (map_set k v m).
Proof.
  unfold map_wf. rewrite map_keys_set. unfold map_has.
  destruct (map_get k m) eqn:E; [done|]. intros Hm.
  apply NoDup_app. split_and!; [done| |apply NoDup_singleton].
  intros x Hx Hk. apply list_elem_of_singleton in Hk as ->.
  by apply map_get_None in E.
Qed.

Lemma map_keys_delete k m : map_keys (map_delete k m) = filter (fun k' => k' <> k) (map_keys m).
Proof.
  induction m as [|[k' v'] m IH]; [done|].
  cbn [map_delete map_keys fmap list_fmap]. rewrite filter_cons.
  case_decide; cbn; destruct (decide (k' <> k)); try done; cbn; unfold map_keys in *; congruence.
Qed.

Lemma map_wf_delete k m : map_wf m -> map_wf (map_delete k m).
Proof. unfold map_wf. rewrite map_keys_delete. apply NoDup_filter. Qed.

(** ** Refinement of the abstract finite map *)

Definition to_gmap (m : list (string * V)) : gmap string V := list_to_map m.

Lemma to_gmap_lookup k m : to_gmap m !! k = map_get k m.
Proof.
  unfold to_gmap. induction m as [|[k' v'] m IH]; cbn; [apply lookup_empty|].
  rewrite lookup_insert. by case_decide; [|rewrite IH].
Qed.

Lemma to_gmap_set k v m : to_gmap (map_set k v m) = <[k := v]> (to_gmap m).
Proof.
  apply map_eq. intros k'. rewrite to_gmap_lookup, map_get_set, lookup_insert.
  by rewrite to_gmap_lookup.
Qed.

Lemma to_gmap_delete k m : to_gmap (map_delete k m) = delete k (to_gmap m).
Proof.
  apply map_eq. intros k'. rewrite to_gmap_lookup, lookup_delete.
  case_decide as E; [subst; apply map_get_delete_eq|].
  by rewrite map_get_delete_ne, to_gmap_lookup.
Qed.

(** Two tables with the same lookups: what callers that never iterate see. *)
Definition map_equiv (m1 m2 : list (string * V)) : Prop := forall k, map_get k m1 = map_get k m2.

#[export] Instance map_equiv_equivalence : Equivalence map_equiv.
Proof. split; [by intros ??|by intros ????|]. intros m1 m2 m3 H1 H2 k. by rewrite H1, H2. Qed.

#[export] Instance map_set_proper k v : Proper (map_equiv ==> map_equiv) (map_set k v).
Proof. intros m1 m2 H k'. by rewrite !map_get_set, H. Qed.

#[export] Instance map_get_proper k : Proper (map_equiv ==> (=)) (map_get k).
Proof. intros m1 m2 H. apply H. Qed.

Lemma map_equiv_to_gmap m1 m2 : map_equiv m1 m2 <-> to_gmap m1 = to_gmap m2.
Proof.
  split.
  - intros H. apply map_eq. intros k. by rewrite !to_gmap_lookup.
  - intros H k. by rewrite <- !to_gmap_lookup, H.
Qed.
End jsmap.
Arguments jsmap V : clear implicits.

#[export] Hint Resolve map_wf_nil map_wf_set map_wf_delete : raibit.
#[export] Hint Rewrite @map_get_set_eq @map_get_delete_eq : raibit.

#[export] Instance jsmap_table {V} : TableOps (jsmap V) V := {|
  t_empty := [];
  t_get := map_get;
  t_set := map_set;
  t_delete := map_delete
|}.

#[export] Instance jsmap_table_laws {V} : TableLaws (jsmap V) V.
Proof.
  split; cbn; intros.
  - done.
  - apply map_get_set_eq.
  - by apply map_get_set_ne.
  - apply map_get_delete_eq.
  - by apply map_get_delete_ne.
Qed.

#[export] Instance gmap_table {V} : TableOps (gmap string V) V := {|
  t_empty := ∅;
  t_get k t := t !! k;
  t_set k v t := <[k := v]> t;
  t_delete k t := delete k t
|}.

#[export] Instance gmap_table_laws {V} : TableLaws (gmap string V) V.
Proof.
  split; cbn; intros.
  - apply lookup_empty.
  - apply lookup_insert_eq.
  - by apply lookup_insert_ne.
  - apply lookup_delete_eq.
  - by apply lookup_delete_ne.
Qed.
