(* ===== verification/JsVal.v ===== *)
(** * Untyped JavaScript values

    Inputs the TypeScript code receives as [unknown] or [any] are values of
    [jsval]; functions over declared types use Rocq types directly.  Numbers
    are split by what the code asks of them: integral values (exact, as every
    safe integer is), finite non-integral values (with the decimal text
    [String] prints for them), and the non-finite ones. *)

From S2P Require Import Prelude JsString.
From Stdlib Require Import QArith.
From stdpp Require Import pretty list.

Inductive jsnum : Type :=
| NInt (z : Z)
| NFrac (text : string) (q : Q)
| NNaN
| NInf (negative : bool).

Inductive jsval : Type :=
| JUndef
| JNull
| JBool (b : bool)
| JNum (n : jsnum)
| JStr (s : string)
| JArr (l : list jsval)
| JObj (fields : list (string * jsval)).

(** [Boolean(v)] *)
Definition truthy (v : jsval) : bool :=
  match v with
  | JUndef | JNull => false
  | JBool b => b
  | JNum (NInt z) => negb (z =? 0)%Z
  | JNum NNaN => false
  | JNum _ => true
  | JStr s => negb (str_empty s)
  | JArr _ | JObj _ => true
  end.

(** [a || b] and [a ?? b] *)
Definition js_or (a b : jsval) : jsval := if truthy a then a else b.
Definition js_nullish (a b : jsval) : jsval :=
  match a with JUndef | JNull => b | _ => a end.

Definition num_text (n : jsnum) : string :=
  match n with
  | NInt z => pretty z
  | NFrac t _ => t
  | NNaN => "NaN"
  | NInf true => "-Infinity"
  | NInf false => "Infinity"
  end.

Fixpoint join (sep : string) (l : list string) : string :=
  match l with
  | [] => ""
  | [s] => s
  | s :: l' => s +:+ sep +:+ join sep l'
  end.

(** [String(v)] *)
Fixpoint js_String (v : jsval) : string :=
  match v with
  | JUndef => "undefined"
  | JNull => "null"
  | JBool true => "true"
  | JBool false => "false"
  | JNum n => num_text n
  | JStr s => s
  | JArr l =>
      join "," (map (fun x => match x with JUndef | JNull => "" | _ => js_String x end) l)
  | JObj _ => "[object Object]"
  end.

(** [value.field] on an object value; a missing field is [undefined]. *)
Fixpoint obj_get (k : string) (fs : list (string * jsval)) : jsval :=
  match fs with
  | [] => JUndef
  | (k', v) :: fs' => if decide (k' = k) then v else obj_get k fs'
  end.

Definition field (k : string) (v : jsval) : jsval :=
  match v with JObj fs => obj_get k fs | _ => JUndef end.

(** [Object.keys(value)] of an object value *)
Definition obj_keys (v : jsval) : list string :=
  match v with JObj fs => fs.*1 | _ => [] end.

(** [typeof v === 'string'] *)
Definition as_string (v : jsval) : option string :=
  match v with JStr s => Some s | _ => None end.

(** [Number.isInteger(v)] for a value of any type *)
Definition as_integer (v : jsval) : option Z :=
  match v with JNum (NInt z) => Some z | _ => None end.

(** [Number.isSafeInteger] *)
Definition max_safe_integer : Z := 9007199254740991.
Definition safe_integer (z : Z) : bool :=
  ((- max_safe_integer <=? z) && (z <=? max_safe_integer))%Z.

(** ** [Number(v)]

    Decimal literals with fraction and exponent, hexadecimal integers and
    [Infinity]; anything else is [NaN].  Values are exact rationals: rounding
    to a double is not modelled. *)

Fixpoint digits_value (base : Z) (value_of : ascii -> option Z) (acc : Z) (l : list ascii) : option Z :=
  match l with
  | [] => Some acc
  | c :: l' => match value_of c with
               | Some d => digits_value base value_of (acc * base + d)%Z l'
               | None => None
               end
  end.

Definition dec_digit (c : ascii) : option Z :=
  if is_digit c then Some (Z.of_N (code c) - 48)%Z else None.
Definition hex_digit (c : ascii) : option Z :=
  if is_digit c then Some (Z.of_N (code c) - 48)%Z
  else if in_range 97 102 c then Some (Z.of_N (code c) - 87)%Z
  else if in_range 65 70 c then Some (Z.of_N (code c) - 55)%Z
  else None.

Definition nonempty_digits (base : Z) (value_of : ascii -> option Z) (l : list ascii) : option Z :=
  match l with [] => None | _ => digits_value base value_of 0 l end.

(** Split at the first character that satisfies the predicate. *)
Fixpoint break_at (p : ascii -> bool) (l : list ascii) : list ascii * option (list ascii) :=
  match l with
  | [] => ([], None)
  | c :: l' => if p c then ([], Some l') else let '(a, b) := break_at p l' in (c :: a, b)
  end.

Definition signed_digits (l : list ascii) : option Z :=
  match l with
  | "-"%char :: l' => Z.opp <$> nonempty_digits 10 dec_digit l'
  | "+"%char :: l' => nonempty_digits 10 dec_digit l'
  | _ => nonempty_digits 10 dec_digit l
  end.

(** A number of the form [m * 10^e]. *)
Definition scaled (text : string) (m e : Z) : jsnum :=
  if (0 <=? e)%Z then NInt (m * 10 ^ e)
  else let d := (10 ^ (- e))%Z in
       if (m mod d =? 0)%Z then NInt (m / d) else NFrac text (Qmake m (Z.to_pos d)).

Definition unsigned_decimal (text : string) (sign : Z) (l : list ascii) : jsnum :=
  let '(mantissa, exponent) := break_at (fun c => (code c =? 101) || (code c =? 69))%N l in
  let '(whole, fraction) := break_at (fun c => code c =? 46)%N mantissa in
  let frac := match fraction with Some f => f | None => [] end in
  match nonempty_digits 10 dec_digit (whole ++ frac),
        match exponent with Some x => signed_digits x | None => Some 0%Z end with
  | Some m, Some e => scaled text (sign * m) (e - Z.of_nat (length frac))
  | _, _ => NNaN
  end.

Definition js_Number (s : string) : jsnum :=
  let t := trim s in
  match chars t with
  | [] => NInt 0
  | "0"%char :: "x"%char :: h | "0"%char :: "X"%char :: h =>
      match nonempty_digits 16 hex_digit h with Some z => NInt z | None => NNaN end
  | "-"%char :: l => if decide (t = "-Infinity") then NInf true else unsigned_decimal t (-1) l
  | "+"%char :: l => if decide (t = "+Infinity") then NInf false else unsigned_decimal t 1 l
  | l => if decide (t = "Infinity") then NInf false else unsigned_decimal t 1 l
  end.

Definition to_number (v : jsval) : jsnum :=
  match v with
  | JUndef => NNaN
  | JNull => NInt 0
  | JBool b => NInt (if b then 1 else 0)
  | JNum n => n
  | JStr s => js_Number s
  | JArr _ => js_Number (js_String v)
  | JObj _ => NNaN
  end.

Example js_Number_examples :
  js_Number " 42 " = NInt 42 /\ js_Number "-1.50" = NFrac "-1.50" (-150 # 100) /\ js_Number "1e3" = NInt 1000
  /\ js_Number "0x1F" = NInt 31 /\ js_Number "" = NInt 0 /\ js_Number "12px" = NNaN /\ js_Number "." = NNaN
  /\ js_Number "2.50e1" = NInt 25 /\ js_Number "-Infinity" = NInf true.
Proof. vm_compute. done. Qed.

(** ** Decimal text *)

Lemma pretty_N_char_digit (d : N) : (d < 10)%N -> is_digit (pretty_N_char d) = true.
Proof.
  intros H. assert (Hd : In d (map N.of_nat (seq 0 10))).
  { rewrite <- (N2Nat.id d). apply in_map, in_seq. lia. }
  cbn in Hd. repeat (destruct Hd as [<- | Hd]; [reflexivity|]). done.
Qed.

(** The digits [pretty_N_go] puts in front of what it was given. *)
Lemma pretty_N_go_digits k : forall x acc, (0 < x < 10 ^ k)%N ->
  exists l, chars (pretty_N_go x acc) = l ++ chars acc /\ (1 <= length l)%nat /\ (N.of_nat (length l) <= k)%N
            /\ forallb is_digit l = true.
Proof.
  induction k as [|k IH] using N.peano_ind; intros x acc Hx; [cbn in Hx; lia|].
  rewrite pretty_N_go_step by lia.
  assert (Hc : is_digit (pretty_N_char (x `mod` 10)%N) = true) by (apply pretty_N_char_digit, N.mod_lt; lia).
  destruct (decide (x < 10)%N) as [Hlt|Hge].
  - rewrite N.div_small, pretty_N_go_0 by done. exists [pretty_N_char (x `mod` 10)%N].
    cbn. rewrite Hc. split_and!; [done|lia|lia|done].
  - destruct (IH (x `div` 10)%N (String (pretty_N_char (x `mod` 10)) acc)) as (l & Hl & H1 & H2 & H3).
    { split; [apply N.div_str_pos; lia|]. apply N.Div0.div_lt_upper_bound. rewrite N.pow_succ_r in Hx; lia. }
    exists (l ++ [pretty_N_char (x `mod` 10)%N]). rewrite Hl. cbn [chars String.list_ascii_of_string].
    rewrite <- app_assoc, length_app, forallb_app, H3. cbn. rewrite Hc. split_and!; [done|lia|lia|done].
Qed.

Lemma pretty_Z_digits (z k : Z) : (0 <= z < 10 ^ k)%Z -> (1 <= k)%Z ->
  let l := chars (pretty z) in (1 <= length l)%nat /\ (Z.of_nat (length l) <= k)%Z /\ forallb is_digit l = true.
Proof.
  intros Hz Hk. destruct z as [|p|p]; [cbn; split_and!; [lia|lia|done]| |lia].
  change (pretty (Zpos p)) with (pretty (Npos p)). unfold pretty, pretty_N. rewrite decide_False by done.
  destruct (pretty_N_go_digits (Z.to_N k) (Npos p) "") as (l & Hl & H1 & H2 & H3).
  { split; [lia|]. apply N2Z.inj_lt. rewrite N2Z.inj_pow, Z2N.id by lia. cbn. lia. }
  cbn zeta. rewrite Hl. cbn [chars String.list_ascii_of_string]. rewrite app_nil_r. split_and!; [done|lia|done].
Qed.

(** ** Dates *)

Open Scope Z_scope.

Definition ms_per_day : Z := 86400000.

(** The proleptic Gregorian date of a day number, counting from 1970-01-01:
    eras of 400 years start on March 1st. *)
Definition civil_from_days (days : Z) : Z * Z * Z :=
  let z := days + 719468 in
  let era := z / 146097 in
  let doe := z mod 146097 in
  let yoe := (doe - doe / 1460 + doe / 36524 - doe / 146096) / 365 in
  let doy := doe - (365 * yoe + yoe / 4 - yoe / 100) in
  let mp := (5 * doy + 2) / 153 in
  let d := doy - (153 * mp + 2) / 5 + 1 in
  let m := if mp <? 10 then mp + 3 else mp - 9 in
  (yoe + era * 400 + (if m <=? 2 then 1 else 0), m, d).

Definition days_from_civil (y m d : Z) : Z :=
  let y' := if m <=? 2 then y - 1 else y in
  let era := y' / 400 in
  let yoe := y' mod 400 in
  let doy := (153 * (if 2 <? m then m - 3 else m + 9) + 2) / 5 + d - 1 in
  era * 146097 + (yoe * 365 + yoe / 4 - yoe / 100 + doy) - 719468.

Definition pad (width : nat) (n : Z) : string :=
  let digits := chars (pretty n) in
  unchars (replicate (width - length digits) "0"%char ++ digits).

(** [new Date(ms).toISOString()] for the years 0 to 9999 *)
Definition toISOString (ms : Z) : string :=
  let '(y, m, d) := civil_from_days (ms / ms_per_day) in
  let t := ms mod ms_per_day in
  pad 4 y +:+ "-" +:+ pad 2 m +:+ "-" +:+ pad 2 d +:+ "T" +:+ pad 2 (t / 3600000) +:+ ":"
  +:+ pad 2 (t / 60000 mod 60) +:+ ":" +:+ pad 2 (t / 1000 mod 60) +:+ "." +:+ pad 3 (t mod 1000) +:+ "Z".

Example iso_examples :
  toISOString 0 = "1970-01-01T00:00:00.000Z"
  /\ toISOString 951827696789 = "2000-02-29T12:34:56.789Z"
  /\ toISOString 1783900800001 = "2026-07-13T00:00:00.001Z"
  /\ toISOString (-1) = "1969-12-31T23:59:59.999Z".
Proof. vm_compute. done. Qed.

Close Scope Z_scope.
