(* ===== verification/Ids.v ===== *)
(** * Identifiers ([packages/core/src/ids.ts], [scope.ts])

    Slugs and the stable identifiers derived from them, and the resolution of
    the organization and project an input belongs to. *)

From S2P Require Import Prelude JsString JsVal.

(** ** Operations *)

(** [.replace(/[^a-z0-9]+/g, '-').replace(/^-+|-+$/g, '').slice(0, 63)] after
    [.trim().toLowerCase()] *)
Definition slug_chars (s : string) : list ascii :=
  let lowered := chars (toLowerCase (trim s)) in
  let dashed := collapse_runs (fun c => negb (is_lower_alnum c)) "-"%char false lowered in
  take 63 (strip_chars is_hyphen dashed).

Definition slugify (value : jsval) (fallback : string) : string :=
  let slug := unchars (slug_chars (js_String (js_nullish value (JStr "")))) in
  str_or slug fallback.

(** The default of the [fallback] parameter. *)
Definition slugify_default (value : jsval) : string := slugify value "item".

Definition stableId (prefix : string) (parts : list jsval) : string :=
  let base := join "-" (map (fun part => slugify part "x") parts) in
  slugify (JStr (prefix +:+ "-" +:+ base)) prefix.

Arguments slugify : simpl never.
Arguments stableId : simpl never.

Definition organizationScopeFromProjectInput (projectInput subject : jsval) : jsval :=
  js_or (field "organizationId" projectInput)
  (js_or (field "orgId" projectInput)
  (js_or (field "id" (field "organization" projectInput))
  (js_or (field "slug" (field "organization" projectInput))
  (js_or (field "organizationSlug" projectInput)
  (js_or (field "organizationId" subject)
         (JStr "default")))))).

Definition projectScopeFromInput (input : jsval) : jsval :=
  js_or (field "projectId" input)
  (js_or (field "id" (field "project" input))
  (js_or (field "slug" (field "project" input)) JNull)).

(** ** Properties *)

(** What a slug promises to its users: at most 63 characters of [a-z0-9-],
    not starting with a hyphen and without a double hyphen. *)
Record slug_shape (l : list ascii) : Prop := {
  shape_length : (length l <= 63)%nat;
  shape_class : Forall (fun c => is_lower_alnum c || is_hyphen c = true) l;
  shape_head : forall c k, l = c :: k -> is_hyphen c = false;
  shape_single : no_adjacent is_hyphen l = true
}.

Lemma not_lower_alnum_adjacent l :
  Forall (fun c => is_lower_alnum c = true \/ c = "-"%char) l ->
  no_adjacent (fun c => negb (is_lower_alnum c)) l = true -> no_adjacent is_hyphen l = true.
Proof.
  induction 1 as [|x l Hx Hl IH]; [done|].
  destruct Hl as [|y l Hy Hl]; [done|].
  rewrite !no_adjacent_cons, !andb_true_iff. intros [Hxy Hr]. split; [|by apply IH].
  destruct Hx as [Hx| ->], Hy as [Hy| ->]; cbn in *; try done;
    try (rewrite (lower_alnum_not_hyphen x) by done); try done.
  rewrite (lower_alnum_not_hyphen y) by done. by rewrite andb_false_r.
Qed.

Lemma strip_chars_infix {A} (p : A -> bool) l : exists k1 k2, l = k1 ++ strip_chars p l ++ k2.
Proof.
  destruct (drop_while_suffix p l) as (k1 & Hk1 & _).
  destruct (drop_while_suffix p (rev (drop_while p l))) as (k2 & Hk2 & _).
  exists k1, (rev k2). unfold strip_chars.
  rewrite <- rev_app_distr, <- Hk2, rev_involutive. done.
Qed.

Lemma slug_chars_shape s : slug_shape (slug_chars s).
Proof.
  unfold slug_chars. set (low := chars (toLowerCase (trim s))).
  set (p := fun c => negb (is_lower_alnum c)).
  set (dash := collapse_runs p "-"%char false low).
  assert (Hc : Forall (fun c => is_lower_alnum c = true \/ c = "-"%char) dash).
  { eapply Forall_impl; [apply collapse_runs_Forall|]. unfold p. cbn.
    intros c [H|H]; [left; by apply negb_false_iff in H|by right]. }
  assert (Hna : no_adjacent is_hyphen dash = true).
  { apply not_lower_alnum_adjacent; [done|]. apply collapse_runs_no_adjacent. }
  destruct (strip_chars_infix is_hyphen dash) as (k1 & k2 & Hsplit).
  split.
  - rewrite length_take. lia.
  - apply Forall_take, strip_chars_Forall. eapply Forall_impl; [exact Hc|].
    cbn. intros c [->| ->]; done.
  - intros c k Hk. apply (strip_chars_head is_hyphen dash
      (tail (strip_chars is_hyphen dash))).
    destruct (strip_chars is_hyphen dash) as [|d m]; [done|].
    cbn in Hk |- *. congruence.
  - rewrite Hsplit in Hna. apply no_adjacent_app_r, no_adjacent_app_l in Hna.
    rewrite <- (take_drop 63 (strip_chars is_hyphen dash)) in Hna.
    by apply no_adjacent_app_l in Hna.
Qed.

(** A slug that did not reach the 63-character cut also ends in a letter or
    digit: it is a DNS label. *)
Lemma slug_chars_last s c k :
  (length (slug_chars s) < 63)%nat -> slug_chars s = k ++ [c] -> is_hyphen c = false.
Proof.
  unfold slug_chars. intros Hlen Hk.
  set (dash := collapse_runs _ _ _ _) in *.
  rewrite take_ge in Hk; [by eapply strip_chars_last|].
  rewrite length_take in Hlen. lia.
Qed.

(** A sequence that has the shape of a slug but for its length is only cut. *)
Lemma slug_chars_cut l :
  Forall (fun c => is_lower_alnum c || is_hyphen c = true) l ->
  (forall c k, l = c :: k -> is_hyphen c = false) -> no_adjacent is_hyphen l = true ->
  (forall c k, l = k ++ [c] -> is_hyphen c = false) ->
  slug_chars (unchars l) = take 63 l.
Proof.
  intros Hcls Hhd Hsg Hlast. unfold slug_chars.
  assert (Hsp : Forall (fun c => is_space c = false) l).
  { eapply Forall_impl; [exact Hcls|]. intros c. apply lower_alnum_not_space. }
  unfold trim. rewrite chars_unchars.
  rewrite (strip_chars_id is_space l).
  2: { intros c k ->. by apply Forall_cons in Hsp as [? _]. }
  2: { intros c k ->. apply Forall_app in Hsp as [_ Hsp]. by apply Forall_cons in Hsp as [? _]. }
  unfold toLowerCase. rewrite !chars_unchars.
  assert (Hlow : lower_char <$> l = l).
  { clear -Hcls. induction Hcls as [|c l Hc Hl IH]; [done|].
    cbn. rewrite IH. f_equal. by apply lower_char_lower_alnum. }
  rewrite Hlow.
  rewrite (collapse_runs_fixed (fun c => negb (is_lower_alnum c))).
  - by rewrite strip_chars_id.
  - intros c Hc Hin. rewrite Forall_forall in Hcls. specialize (Hcls c Hin).
    apply negb_true_iff in Hc. rewrite Hc in Hcls. by apply is_hyphen_eq.
  - clear -Hcls Hsg. induction Hcls as [|x l Hx Hl IH]; [done|].
    destruct Hl as [|y l Hy Hl]; [done|].
    rewrite no_adjacent_cons, andb_true_iff in Hsg |- *. destruct Hsg as [Hxy Hr].
    split; [|by apply IH].
    destruct (is_lower_alnum x) eqn:Ex; [done|]. destruct (is_lower_alnum y) eqn:Ey; [by rewrite andb_false_r|].
    cbn in *. by rewrite Hx, Hy in Hxy.
Qed.

Lemma slug_shape_fixed l :
  slug_shape l -> (forall c k, l = k ++ [c] -> is_hyphen c = false) ->
  slug_chars (unchars l) = l.
Proof.
  intros [Hlen Hcls Hhd Hsg] Hlast. rewrite slug_chars_cut by done. by apply take_ge.
Qed.

Lemma label_chars_shape l :
  slug_shape l -> l <> [] -> (forall c k, l = k ++ [c] -> is_hyphen c = false) ->
  label_chars l = true.
Proof.
  intros [_ Hcls Hhd _] Hne Hlast.
  assert (Hin : forall c, c ∈ l -> is_hyphen c = false -> is_lower_alnum c = true).
  { rewrite Forall_forall in Hcls. intros c Hc Hh. specialize (Hcls c Hc).
    by rewrite Hh, orb_false_r in Hcls. }
  destruct l as [|x l]; [done|]. unfold label_chars.
  rewrite !andb_true_iff. split_and!.
  - apply Hin; [set_solver|by eapply Hhd].
  - apply forallb_forall. intros c Hc%list_elem_of_In. rewrite Forall_forall in Hcls. by apply Hcls.
  - destruct (last (x :: l)) as [y|] eqn:E; [|by apply last_None in E].
    apply last_Some in E as [k E]. apply Hin; [rewrite E; set_solver|by eapply Hlast].
Qed.

Lemma slugify_shape_or value fallback :
  let s := slugify value fallback in
  (s = fallback /\ slug_chars (js_String (js_nullish value (JStr ""))) = [])
  \/ (slug_shape (chars s)
      /\ ((str_length s < 63)%Z ->
          label_pattern s = true /\ forall fb, slugify (JStr s) fb = s)).
Proof.
  cbn zeta. unfold slugify at 1 2 3 4 6 7, str_or.
  set (l := slug_chars (js_String _)).
  destruct (str_empty (unchars l)) eqn:E.
  { left. split; [done|]. destruct l; done. }
  right. unfold str_length, label_pattern. rewrite chars_unchars.
  assert (Hsh : slug_shape l) by apply slug_chars_shape. split; [done|].
  intros Hlen.
  assert (Hlast : forall c k, l = k ++ [c] -> is_hyphen c = false).
  { intros c k. apply slug_chars_last. fold l. lia. }
  assert (Hne : l <> []) by (by intros ->).
  split; [by apply label_chars_shape|].
  intros fb. unfold slugify. cbn [js_nullish js_String]. rewrite slug_shape_fixed by done.
  unfold str_or. by rewrite E.
Qed.

(** [slugify] either falls back (exactly when nothing of the value
    survives) or returns at most 63 characters of [a-z0-9-] that do not start
    with a hyphen and hold no double hyphen; when the 63-character cut did not
    apply the result is a DNS label and [slugify] maps it to itself. *)
Theorem slugify_correct value fallback :
  let s := slugify value fallback in
  (s = fallback /\ slug_chars (js_String (js_nullish value (JStr ""))) = [])
  \/ (slug_shape (chars s)
      /\ ((str_length s < 63)%Z ->
          label_pattern s = true /\ forall fb, slugify (JStr s) fb = s)).
Proof. apply slugify_shape_or. Qed.

(** The cut at 63 characters comes after the hyphens were stripped, so a slug
    of full length can end in a hyphen: such a slug is no DNS label, and
    [slugify] does not map it to itself. *)
Theorem slugify_cut_leaves_hyphen :
  exists value, let s := slugify_default value in
    endsWith s "-" = true /\ label_pattern s = false /\ slugify_default (JStr s) <> s.
Proof.
  exists (JStr "aaaaaaaaaabbbbbbbbbbccccccccccddddddddddeeeeeeeeeeffffffffff11 organisation").
  vm_compute. split_and!; [done|done|congruence].
Qed.

(** A stable identifier never is empty when its prefix is a slug. *)
Lemma slugify_nonempty value fallback : fallback <> "" -> slugify value fallback <> "".
Proof.
  unfold slugify, str_or. intros H. destruct (str_empty _) eqn:E; [done|].
  intros E'. by rewrite E' in E.
Qed.
