(* ===== verification/Rbac.v ===== *)
(** * Roles and permissions ([packages/core/src/rbac.ts] and
    [packages/schemas/src/organization-role.ts])

    The organization roles, what each may do, how stored role strings are
    read, which role changes an actor may make, and the organization route
    slugs.  The schema package has its own copy of the role parsers; both are
    modelled and shown to agree. *)

From S2P Require Import Prelude JsString JsVal Ids.

(** ** Roles *)

Inductive OrganizationMembershipRole : Type :=
| OWNER | ADMIN | MAINTAINER | DEVELOPER | DB_ADMIN | VIEWER.

#[export] Instance role_eq_dec : EqDecision OrganizationMembershipRole.
Proof. solve_decision. Defined.

Definition ORGANIZATION_MEMBERSHIP_ROLES : list OrganizationMembershipRole :=
  [OWNER; ADMIN; MAINTAINER; DEVELOPER; DB_ADMIN; VIEWER].

Definition role_string (r : OrganizationMembershipRole) : string :=
  match r with
  | OWNER => "OWNER" | ADMIN => "ADMIN" | MAINTAINER => "MAINTAINER"
  | DEVELOPER => "DEVELOPER" | DB_ADMIN => "DB_ADMIN" | VIEWER => "VIEWER"
  end.

Definition LEGACY_ORGANIZATION_ROLE_ALIASES : list string := ["billing-manager"; "project-owner"].

(** The [switch] of [normalizeOrganizationRoleForRead]. *)
Definition normalizeOrganizationRoleForRead (value : jsval) : option OrganizationMembershipRole :=
  match as_string value with
  | None => None
  | Some s =>
      if decide (s ∈ ["OWNER"; "owner"]) then Some OWNER
      else if decide (s ∈ ["ADMIN"; "admin"]) then Some ADMIN
      else if decide (s ∈ ["MAINTAINER"; "maintainer"]) then Some MAINTAINER
      else if decide (s ∈ ["DEVELOPER"; "developer"]) then Some DEVELOPER
      else if decide (s ∈ ["DB_ADMIN"; "db_admin"; "db-admin"]) then Some DB_ADMIN
      else if decide (s ∈ ["VIEWER"; "viewer"; "billing-manager"; "project-owner"]) then Some VIEWER
      else None
  end.

Definition membership_role_invalid : jserror := JsError "" "membership_role_invalid" (Some 400%Z).

Definition parseOrganizationMembershipRoleForMutation (value : jsval)
    : result OrganizationMembershipRole :=
  if decide (as_string value = Some "billing-manager" \/ as_string value = Some "project-owner")
  then Throw membership_role_invalid
  else match normalizeOrganizationRoleForRead value with
       | Some role => Ok role
       | None => Throw membership_role_invalid
       end.

Arguments normalizeOrganizationRoleForRead : simpl never.
Arguments parseOrganizationMembershipRoleForMutation : simpl never.

(** ** Permissions *)

Definition ROLE_PERMISSIONS (r : OrganizationMembershipRole) : list string :=
  match r with
  | OWNER => ["*"]
  | ADMIN => ["project:read"; "project:create"; "project:update"; "project:delete"; "service:create";
              "service:update"; "deploy:run"; "env:write"; "env:read"; "db:create"; "db:delete";
              "db:schema:read"; "backup:manage"; "team:invite"; "github:disconnect"; "github:refresh";
              "audit:read"; "billing:read"; "logs:read"; "metrics:read"; "domain:read"; "domain:verify";
              "domain:manage"]
  | MAINTAINER => ["project:read"; "project:update"; "service:create"; "service:update"; "deploy:run";
                   "env:write"; "env:read"; "db:connect"; "db:schema:read"; "db:data:read"; "logs:read";
                   "metrics:read"; "domain:read"; "domain:verify"]
  | DEVELOPER => ["project:read"; "deploy:run"; "logs:read"; "metrics:read"; "env:write-limited";
                  "db:schema:read"; "domain:read"]
  | DB_ADMIN => ["project:read"; "db:create"; "db:delete"; "db:connect"; "db:schema:read"; "db:data:read";
                 "db:query"; "db:query:write"; "backup:manage"; "backup:restore"; "domain:read"]
  | VIEWER => ["project:read"; "logs:read"; "metrics:read"; "domain:read"]
  end.

Definition permits (permissions : list string) (action : string) : bool :=
  bool_decide (action ∈ permissions).

(** [permission.endsWith(':*') && action.startsWith(permission.slice(0, -1))] *)
Definition wildcard_permits (permission action : string) : bool :=
  endsWith permission ":*"
  && startsWith action (unchars (take (length (chars permission) - 1) (chars permission))).

Definition role_can (r : OrganizationMembershipRole) (action : string) : bool :=
  let permissions := ROLE_PERMISSIONS r in
  if bool_decide (action = "env:write-limited") && permits permissions "env:write" then true
  else if bool_decide (action = "db:connect-limited") && permits permissions "db:connect" then true
  else if bool_decide (action = "db:schema:read")
          && (permits permissions "db:connect" || permits permissions "db:data:read") then true
  else if bool_decide (action = "db:data:read") && permits permissions "db:connect" then true
  else if bool_decide (action = "db:query:write") && permits permissions "db:query" then true
  else permits permissions "*" || permits permissions action
       || existsb (fun permission => wildcard_permits permission action) permissions.

Definition can (role : jsval) (action : string) : bool :=
  match normalizeOrganizationRoleForRead role with
  | None => false
  | Some normalizedRole => role_can normalizedRole action
  end.

Definition role_permission_error (role : jsval) (action : string) : jserror :=
  JsError "RolePermissionError"
    ("role " +:+ js_String role +:+ " cannot perform " +:+ action) (Some 403%Z).

Definition assertCan (role : jsval) (action : string) : result bool :=
  if can role action then Ok true else Throw (role_permission_error role action).

Definition visibleEnvironment (environment : list (string * jsval)) (role : jsval)
    : list (string * jsval) :=
  if can role "env:read" then environment
  else if can role "env:write-limited" || can role "db:schema:read"
  then map (fun key => (key, JStr "<restricted>")) environment.*1
  else [].

(** ** Role transitions *)

Inductive MembershipRoleTransitionResult : Type :=
| Transition (role : OrganizationMembershipRole)
| Membership_role_invalid
| Membership_role_transition_forbidden
| Membership_last_owner.

Definition membershipRoleTransition (actorRole targetRole currentRole : jsval) (ownerCount : Z)
    : MembershipRoleTransitionResult :=
  match parseOrganizationMembershipRoleForMutation targetRole with
  | Throw _ => Membership_role_invalid
  | Ok next =>
      let actor := normalizeOrganizationRoleForRead actorRole in
      let current := normalizeOrganizationRoleForRead currentRole in
      if bool_decide (current = Some OWNER) && bool_decide (next <> OWNER) && (ownerCount <=? 1)%Z
      then Membership_last_owner
      else if bool_decide (actor = Some OWNER) then Transition next
      else if bool_decide (actor = Some ADMIN) && bool_decide (next <> OWNER)
              && bool_decide (current <> Some OWNER)
      then Transition next
      else Membership_role_transition_forbidden
  end.

(** ** Organization route slugs *)

Definition RESERVED_ORGANIZATION_ROUTE_SLUGS : list string :=
  ["app"; "api"; "admin"; "apps"; "preview"; "console"; "resources"; "logs"; "metrics"].

Definition route_slug_error (code : string) : jserror := JsError "" code (Some 400%Z).

Definition parseOrganizationRouteSlug (value : jsval) : result string :=
  match as_string value with
  | None => Throw (route_slug_error "organization_route_slug_invalid")
  | Some s =>
      if negb (label_pattern s) || includes s "--"
      then Throw (route_slug_error "organization_route_slug_invalid")
      else if (63 <? utf8_length s)%Z then Throw (route_slug_error "organization_route_slug_too_long")
      else if bool_decide (s ∈ RESERVED_ORGANIZATION_ROUTE_SLUGS)
      then Throw (route_slug_error "organization_route_slug_reserved")
      else Ok s
  end.

(** ** The schema package's copies *)

Module Schemas.

Definition MembershipRoleMutationSchema : list string := map role_string ORGANIZATION_MEMBERSHIP_ROLES.
Definition MembershipRoleReadSchema : list string :=
  MembershipRoleMutationSchema
  ++ ["owner"; "admin"; "maintainer"; "developer"; "db-admin"; "db_admin"; "viewer"]
  ++ LEGACY_ORGANIZATION_ROLE_ALIASES.

(** [z.enum(values).safeParse(value)] *)
Definition enum_safeParse (values : list string) (value : jsval) : option string :=
  match as_string value with
  | Some s => if decide (s ∈ values) then Some s else None
  | None => None
  end.

Definition normalizeOrganizationRoleForRead (value : jsval) : option OrganizationMembershipRole :=
  match enum_safeParse MembershipRoleReadSchema value with
  | None => None
  | Some s =>
      if decide (s ∈ ["billing-manager"; "project-owner"]) then Some VIEWER
      else if decide (s ∈ ["db-admin"; "db_admin"; "DB_ADMIN"]) then Some DB_ADMIN
      else if decide (s ∈ ["OWNER"; "owner"]) then Some OWNER
      else if decide (s ∈ ["ADMIN"; "admin"]) then Some ADMIN
      else if decide (s ∈ ["MAINTAINER"; "maintainer"]) then Some MAINTAINER
      else if decide (s ∈ ["DEVELOPER"; "developer"]) then Some DEVELOPER
      else if decide (s ∈ ["VIEWER"; "viewer"]) then Some VIEWER
      else None
  end.

(** The canonical enum parser: the enum value is the role of that name. *)
Definition canonical_role (value : jsval) : option OrganizationMembershipRole :=
  s ← enum_safeParse MembershipRoleMutationSchema value;
  snd <$> list_find (fun r => role_string r = s) ORGANIZATION_MEMBERSHIP_ROLES.

Definition parseOrganizationMembershipRoleForMutation (value : jsval)
    : result OrganizationMembershipRole :=
  match canonical_role value with
  | Some role => Ok role
  | None =>
      if decide (as_string value = Some "billing-manager" \/ as_string value = Some "project-owner")
      then Throw membership_role_invalid
      else match normalizeOrganizationRoleForRead value with
           | Some role => Ok role
           | None => Throw membership_role_invalid
           end
  end.

End Schemas.

(** ** Properties *)

(** The strings that name a role when a stored value is read. *)
Definition role_names : list string := Schemas.MembershipRoleReadSchema.

Lemma read_role_outside s :
  s ∉ role_names ->
  normalizeOrganizationRoleForRead (JStr s) = None
  /\ Schemas.normalizeOrganizationRoleForRead (JStr s) = None
  /\ Schemas.canonical_role (JStr s) = None.
Proof.
  intros Hn. unfold role_names, Schemas.MembershipRoleReadSchema in Hn.
  rewrite !not_elem_of_app in Hn. destruct Hn as (Hc & Ho & Hl).
  unfold Schemas.canonical_role, Schemas.normalizeOrganizationRoleForRead, Schemas.enum_safeParse. cbn [as_string].
  rewrite (decide_False (P := s ∈ Schemas.MembershipRoleMutationSchema)) by done.
  rewrite (decide_False (P := s ∈ Schemas.MembershipRoleReadSchema))
    by (unfold Schemas.MembershipRoleReadSchema; rewrite !not_elem_of_app; done).
  split; [|done].
  unfold normalizeOrganizationRoleForRead. cbn [as_string].
  unfold Schemas.MembershipRoleMutationSchema, LEGACY_ORGANIZATION_ROLE_ALIASES in *. cbn in Hc.
  rewrite !decide_False by set_solver. done.
Qed.

Ltac each_role_name s Hin :=
  unfold role_names in Hin; vm_compute in Hin;
  repeat (apply elem_of_cons in Hin as [->|Hin]); [..|by apply not_elem_of_nil in Hin].

(** The role parsers of the core package and of the schema package are the
    same functions: they read every stored value as the same role and accept
    the same values as the target of a mutation. *)
Theorem role_parsers_agree value :
  normalizeOrganizationRoleForRead value = Schemas.normalizeOrganizationRoleForRead value
  /\ parseOrganizationMembershipRoleForMutation value
     = Schemas.parseOrganizationMembershipRoleForMutation value.
Proof.
  destruct value as [| | | |s| |]; try done.
  destruct (decide (s ∈ role_names)) as [Hin|Hn].
  - each_role_name s Hin; split; vm_compute; reflexivity.
  - destruct (read_role_outside s Hn) as (H1 & H2 & H3).
    unfold parseOrganizationMembershipRoleForMutation, Schemas.parseOrganizationMembershipRoleForMutation.
    by rewrite H1, H2, H3.
Qed.

Lemma normalize_role_string r : normalizeOrganizationRoleForRead (JStr (role_string r)) = Some r.
Proof. by destruct r. Qed.

Lemma parse_mutation_Ok value r :
  parseOrganizationMembershipRoleForMutation value = Ok r ->
  normalizeOrganizationRoleForRead value = Some r.
Proof.
  unfold parseOrganizationMembershipRoleForMutation. case_decide; [done|].
  destruct (normalizeOrganizationRoleForRead value); congruence.
Qed.

(** Reading a role never yields more than it was written with: the lower-case
    spelling [addMember] stores reads back as the role that was parsed. *)
Lemma parse_role_string r :
  parseOrganizationMembershipRoleForMutation (JStr (role_string r)) = Ok r.
Proof. by destruct r. Qed.

(** A role change is granted exactly when the target names a role, the
    change does not take the last owner away, and the actor is an owner, or an
    administrator who neither makes nor unmakes an owner. *)
Theorem membershipRoleTransition_granted actorRole targetRole currentRole ownerCount r :
  membershipRoleTransition actorRole targetRole currentRole ownerCount = Transition r
  <-> parseOrganizationMembershipRoleForMutation targetRole = Ok r
      /\ ~ (normalizeOrganizationRoleForRead currentRole = Some OWNER /\ r <> OWNER /\ (ownerCount <= 1)%Z)
      /\ (normalizeOrganizationRoleForRead actorRole = Some OWNER
          \/ (normalizeOrganizationRoleForRead actorRole = Some ADMIN /\ r <> OWNER
              /\ normalizeOrganizationRoleForRead currentRole <> Some OWNER)).
Proof.
  unfold membershipRoleTransition.
  destruct (parseOrganizationMembershipRoleForMutation targetRole) as [next|e] eqn:Hp;
    [|split; [done|by intros [[=] _]]].
  generalize (normalizeOrganizationRoleForRead actorRole) as actor; intros actor.
  generalize (normalizeOrganizationRoleForRead currentRole) as current; intros current.
  repeat case_bool_decide; destruct (Z.leb_spec ownerCount 1); cbn;
    split; try done; intros H'; naive_solver lia.
Qed.

(** Whoever may not read the environment sees no value of it: every entry
    shown carries the restricted marker, and keys are only ever keys of the
    environment. *)
Theorem visibleEnvironment_restricted environment role k v :
  can role "env:read" = false ->
  (k, v) ∈ visibleEnvironment environment role ->
  v = JStr "<restricted>" /\ k ∈ environment.*1.
Proof.
  unfold visibleEnvironment. intros ->. destruct (_ || _); [|set_solver].
  rewrite list_elem_of_In, in_map_iff. intros (k' & [= -> <-] & Hk).
  split; [done|]. by apply list_elem_of_In.
Qed.

Lemma visibleEnvironment_restricted_witness :
  can (JStr "developer") "env:read" = false
  /\ (JStr "<restricted>" = JStr "<restricted>"
      /\ "TOKEN" ∈ ([("TOKEN", JStr "s3cret")] : list (string * jsval)).*1).
Proof.
  split; [vm_compute; reflexivity|].
  apply (visibleEnvironment_restricted [("TOKEN", JStr "s3cret")] (JStr "developer")).
  - vm_compute; reflexivity.
  - vm_compute. constructor.
Defined.

(** Evaluate the tests of a role's own permission list. *)
Ltac eval_permissions :=
  unfold role_can, wildcard_permits, permits; cbn [ROLE_PERMISSIONS existsb];
  repeat match goal with
  | |- context [endsWith ?a ?b] =>
      let v := eval vm_compute in (endsWith a b) in change (endsWith a b) with v
  | |- context [bool_decide (String ?c ?a ∈ ?l)] =>
      let v := eval vm_compute in (bool_decide (String c a ∈ l)) in
      change (bool_decide (String c a ∈ l)) with v
  end; cbn [andb orb]; rewrite ?andb_false_r, ?andb_true_r, ?orb_false_r.

Lemma viewer_can action : role_can VIEWER action = bool_decide (action ∈ ROLE_PERMISSIONS VIEWER).
Proof. eval_permissions. reflexivity. Qed.

Lemma owner_can action : role_can OWNER action = true.
Proof. eval_permissions. by repeat case_bool_decide. Qed.

(** The permissions of a viewer are permissions of every role except the
    database administrator, who may not read logs or metrics; an owner may do
    everything; a value that names no role may do nothing. *)
Theorem can_lattice role action :
  (normalizeOrganizationRoleForRead role = None -> can role action = false)
  /\ (normalizeOrganizationRoleForRead role = Some OWNER -> can role action = true)
  /\ (normalizeOrganizationRoleForRead role <> None ->
      normalizeOrganizationRoleForRead role <> Some DB_ADMIN ->
      role_can VIEWER action = true -> can role action = true).
Proof.
  unfold can. destruct (normalizeOrganizationRoleForRead role) as [r|]; [|naive_solver].
  split_and!; [done|intros [= ->]; apply owner_can|].
  intros _ Hdb. rewrite viewer_can. intros Hin%bool_decide_eq_true. cbn in Hin.
  repeat (apply elem_of_cons in Hin as [->|Hin]); [..|by apply not_elem_of_nil in Hin];
    by destruct r.
Qed.

(** A label holds ASCII characters only, so its UTF-8 length is its length. *)
Lemma label_class_ascii l :
  Forall (fun c => is_lower_alnum c || is_hyphen c = true) l ->
  utf8_length (unchars l) = Z.of_nat (length l).
Proof.
  unfold utf8_length. rewrite chars_unchars.
  induction 1 as [|c l Hc Hl IH]; [done|]. cbn [foldr length]. rewrite IH.
  assert (Hlt : (code c <? 128)%N = true) by (revert Hc; char_cases c; vm_compute; congruence).
  rewrite Hlt. lia.
Qed.

Lemma label_pattern_class s :
  label_pattern s = true -> Forall (fun c => is_lower_alnum c || is_hyphen c = true) (chars s).
Proof.
  unfold label_pattern, label_chars. destruct (chars s) as [|x l]; [done|].
  rewrite !andb_true_iff. intros [[_ H] _]. apply Forall_forall.
  intros c Hc%list_elem_of_In. rewrite forallb_forall in H. by apply H.
Qed.

Lemma route_slug_Ok value s :
  parseOrganizationRouteSlug value = Ok s
  <-> value = JStr s /\ label_pattern s = true /\ includes s "--" = false
      /\ (str_length s <= 63)%Z /\ s ∉ RESERVED_ORGANIZATION_ROUTE_SLUGS.
Proof.
  unfold parseOrganizationRouteSlug.
  destruct value as [| | | |t| |]; cbn [as_string]; try (split; [done|naive_solver]).
  destruct (label_pattern t) eqn:Hl; cbn [negb orb];
    [|split; [done|]; intros ([= ->] & ? & _); congruence].
  pose proof (label_class_ascii _ (label_pattern_class t Hl)) as Hu.
  rewrite unchars_chars in Hu.
  destruct (includes t "--") eqn:Hi;
    [split; [done|]; intros ([= ->] & _ & ? & _); congruence|].
  destruct (Z.ltb_spec 63 (utf8_length t)); rewrite Hu in *.
  - split; [done|]. unfold str_length. intros ([= ->] & _ & _ & ? & _). lia.
  - unfold str_length. case_bool_decide.
    + split; [done|]. intros ([= ->] & _ & _ & _ & ?). done.
    + split; [intros [= ->]; done|]. by intros ([= ->] & _).
Qed.

(** A route slug is accepted exactly when it is a DNS label of at most 63
    characters without a double hyphen that is not a reserved word, and it is
    returned unchanged. *)
Theorem parseOrganizationRouteSlug_Ok value s :
  parseOrganizationRouteSlug value = Ok s
  <-> value = JStr s /\ label_pattern s = true /\ includes s "--" = false
      /\ (str_length s <= 63)%Z /\ s ∉ RESERVED_ORGANIZATION_ROUTE_SLUGS.
Proof. apply route_slug_Ok. Qed.

Lemma no_adjacent_includes l :
  no_adjacent is_hyphen l = true -> infixb (chars "--") l = false.
Proof.
  intros Hna. apply not_true_iff_false. intros (k1 & k2 & ->)%infixb_spec.
  by apply no_adjacent_app_r, no_adjacent_app_l in Hna.
Qed.

(** The slug [slugify] derives from a name is accepted as a route slug,
    unless nothing of the name survives, the 63-character cut applied, or the
    slug is a reserved word. *)
Theorem slugify_is_route_slug value fallback :
  slug_chars (js_String (js_nullish value (JStr ""))) <> [] ->
  (str_length (slugify value fallback) < 63)%Z ->
  slugify value fallback ∉ RESERVED_ORGANIZATION_ROUTE_SLUGS ->
  parseOrganizationRouteSlug (JStr (slugify value fallback)) = Ok (slugify value fallback).
Proof.
  intros Hne Hlen Hres. apply route_slug_Ok.
  destruct (slugify_shape_or value fallback) as [[_ H]|[Hsh Hlab]]; [done|].
  destruct (Hlab Hlen) as [Hl _]. split_and!; try done; [|lia].
  unfold includes. apply no_adjacent_includes, Hsh.
Qed.

Lemma slugify_is_route_slug_witness :
  parseOrganizationRouteSlug (JStr (slugify (JStr " RAIBIT Club ") "item")) = Ok "raibit-club".
Proof.
  apply (slugify_is_route_slug (JStr " RAIBIT Club ") "item").
  - vm_compute. congruence.
  - vm_compute. reflexivity.
  - vm_compute. intros H. repeat (apply elem_of_cons in H as [[=]|H]). by apply not_elem_of_nil in H.
Defined.
