(* ===== verification/Lifecycle.v ===== *)
(** * Lifecycle machines and deployment statuses
    ([packages/core/src/lifecycle.ts], [deployments.ts],
    [packages/schemas/src/lifecycle.ts] and the shared [lifecycle-v1.json])

    The nine lifecycle machines of the contract as data, the parsers of stored
    status strings, and the deployment transition checks.  The schema package
    validates the contract and has its own parsers; both are modelled. *)

From S2P Require Import Prelude JsString JsVal JsMap.

(** ** The contract *)

Record lifecycle_state := { terminal : bool; next : list string }.

Record lifecycle_machine := {
  initial : string;
  states : list (string * lifecycle_state);
  aliases : list (string * string)
}.

Definition machine_deployment : lifecycle_machine := {|
  initial := "queued";
  states := [
    ("queued", {| terminal := false; next := ["BUILDING"; "CANCELLED"; "FAILED"] |});
    ("BUILDING", {| terminal := false; next := ["IMAGE_READY"; "BUILD_FAILED"; "FAILED"; "CANCELLED"] |});
    ("IMAGE_READY", {| terminal := false; next := ["DEPLOYING"; "READY"; "FAILED"; "CANCELLED"] |});
    ("DEPLOYING", {| terminal := false; next := ["READY"; "FAILED"; "CLEANED_UP"] |});
    ("READY", {| terminal := true; next := ["PREVIEW_CLEANUP_REQUESTED"; "ROLLBACK_REQUESTED"] |});
    ("BUILD_FAILED", {| terminal := true; next := ["BUILDING"; "PREVIEW_CLEANUP_REQUESTED"] |});
    ("FAILED", {| terminal := true; next := ["BUILDING"; "PREVIEW_CLEANUP_REQUESTED"; "ROLLBACK_REQUESTED"] |});
    ("CANCELLED", {| terminal := true; next := ["PREVIEW_CLEANUP_REQUESTED"] |});
    ("PREVIEW_CLEANUP_REQUESTED", {| terminal := false; next := ["DEPLOYING"; "CLEANED_UP"; "FAILED"] |});
    ("ROLLBACK_REQUESTED", {| terminal := false; next := ["DEPLOYING"; "FAILED"] |});
    ("CLEANED_UP", {| terminal := true; next := [] |})];
  aliases := [("pending", "queued"); ("build_queued", "queued"); ("build", "BUILDING");
    ("imageready", "IMAGE_READY"); ("deploy_ready", "IMAGE_READY"); ("rollout", "DEPLOYING");
    ("succeeded", "READY"); ("success", "READY"); ("buildfailed", "BUILD_FAILED");
    ("error", "FAILED"); ("canceled", "CANCELLED");
    ("cleanup_requested", "PREVIEW_CLEANUP_REQUESTED")]
|}.

Definition machine_workflow : lifecycle_machine := {|
  initial := "queued";
  states := [
    ("queued", {| terminal := false; next := ["running"; "cancelled"] |});
    ("running", {| terminal := false; next := ["queued"; "succeeded"; "failed"; "cancelled"] |});
    ("succeeded", {| terminal := true; next := [] |});
    ("failed", {| terminal := true; next := [] |});
    ("cancelled", {| terminal := true; next := [] |})];
  aliases := [("completed", "succeeded"); ("complete", "succeeded"); ("success", "succeeded");
    ("pending", "queued"); ("retrying", "queued")]
|}.

Definition machine_resource : lifecycle_machine := {|
  initial := "PROVISIONING";
  states := [
    ("PROVISIONING", {| terminal := false; next := ["RECONCILING"; "DELETE_REQUESTED"] |});
    ("RECONCILING", {| terminal := false; next := ["PROVISIONING"; "READY"; "FAILED"; "DELETE_REQUESTED"] |});
    ("READY", {| terminal := true; next := ["RECONCILING"; "DELETE_REQUESTED"] |});
    ("FAILED", {| terminal := true; next := ["PROVISIONING"; "RECONCILING"; "DELETE_REQUESTED"] |});
    ("DELETE_REQUESTED", {| terminal := false; next := ["DELETING"] |});
    ("DELETING", {| terminal := false; next := ["DELETE_REQUESTED"; "DELETED"] |});
    ("DELETED", {| terminal := true; next := [] |})];
  aliases := []
|}.

Definition machine_backup : lifecycle_machine := {|
  initial := "QUEUED";
  states := [
    ("QUEUED", {| terminal := false; next := ["RUNNING"; "FAILED"] |});
    ("RUNNING", {| terminal := false; next := ["VERIFYING"; "FAILED"] |});
    ("VERIFYING", {| terminal := false; next := ["READY"; "FAILED"] |});
    ("READY", {| terminal := true; next := ["EXPIRED"; "DELETING"] |});
    ("FAILED", {| terminal := true; next := ["DELETING"] |});
    ("EXPIRED", {| terminal := true; next := ["DELETING"] |});
    ("DELETING", {| terminal := false; next := ["DELETED"; "FAILED"] |});
    ("DELETED", {| terminal := true; next := [] |})];
  aliases := [("created", "QUEUED")]
|}.

Definition machine_restore : lifecycle_machine := {|
  initial := "QUEUED";
  states := [
    ("QUEUED", {| terminal := false; next := ["RUNNING"; "FAILED"; "CANCELLED"] |});
    ("RUNNING", {| terminal := false; next := ["VERIFYING"; "FAILED"; "CANCELLED"] |});
    ("VERIFYING", {| terminal := false; next := ["READY"; "FAILED"; "CANCELLED"] |});
    ("READY", {| terminal := true; next := [] |});
    ("FAILED", {| terminal := true; next := [] |});
    ("CANCELLED", {| terminal := true; next := [] |})];
  aliases := []
|}.

Definition machine_domain : lifecycle_machine := {|
  initial := "PENDING_VERIFICATION";
  states := [
    ("PENDING_VERIFICATION", {| terminal := false; next := ["VERIFIED"; "FAILED"; "DELETING"] |});
    ("VERIFIED", {| terminal := false; next := ["ROUTING"; "PENDING_VERIFICATION"; "FAILED"; "DELETING"] |});
    ("ROUTING", {| terminal := false; next := ["READY"; "PENDING_VERIFICATION"; "FAILED"; "DELETING"] |});
    ("READY", {| terminal := true; next := ["PENDING_VERIFICATION"; "FAILED"; "DELETING"] |});
    ("FAILED", {| terminal := true; next := ["PENDING_VERIFICATION"; "VERIFIED"; "ROUTING"; "DELETING"] |});
    ("DELETING", {| terminal := false; next := [] |})];
  aliases := [("pending", "PENDING_VERIFICATION")]
|}.

Definition machine_tls : lifecycle_machine := {|
  initial := "PENDING";
  states := [
    ("PENDING", {| terminal := false; next := ["ISSUING"; "FAILED"] |});
    ("ISSUING", {| terminal := false; next := ["READY"; "FAILED"; "PENDING"] |});
    ("READY", {| terminal := true; next := ["PENDING"; "ISSUING"; "FAILED"] |});
    ("FAILED", {| terminal := true; next := ["PENDING"; "ISSUING"] |})];
  aliases := []
|}.

Definition machine_health : lifecycle_machine := {|
  initial := "UNKNOWN";
  states := [
    ("UNKNOWN", {| terminal := false; next := ["CHECKING"] |});
    ("CHECKING", {| terminal := false; next := ["HEALTHY"; "DEGRADED"; "UNKNOWN"] |});
    ("HEALTHY", {| terminal := true; next := ["CHECKING"; "UNKNOWN"] |});
    ("DEGRADED", {| terminal := true; next := ["CHECKING"; "UNKNOWN"] |})];
  aliases := []
|}.

Definition machine_resourceHealth : lifecycle_machine := {|
  initial := "UNKNOWN";
  states := [
    ("UNKNOWN", {| terminal := false; next := ["HEALTHY"; "UNHEALTHY"] |});
    ("HEALTHY", {| terminal := true; next := ["UNHEALTHY"] |});
    ("UNHEALTHY", {| terminal := true; next := ["HEALTHY"] |})];
  aliases := []
|}.


(** [LIFECYCLE_CONTRACT.machines] *)
Definition machines : list (string * lifecycle_machine) :=
  [("deployment", machine_deployment); ("workflow", machine_workflow); ("resource", machine_resource);
   ("backup", machine_backup); ("restore", machine_restore); ("domain", machine_domain);
   ("tls", machine_tls); ("health", machine_health); ("resourceHealth", machine_resourceHealth)].

(** [Object.hasOwn(machine.states, value)] *)
Definition is_status (m : lifecycle_machine) (value : string) : bool := map_has value (states m).

Definition status_terminal (m : lifecycle_machine) (s : string) : bool :=
  match map_get s (states m) with Some st => terminal st | None => false end.
Definition status_next (m : lifecycle_machine) (s : string) : list string :=
  match map_get s (states m) with Some st => next st | None => [] end.

(** ** Status parsers *)

Definition LifecycleStatusError (machine value : string) : jserror :=
  JsError "LifecycleStatusError" ("Invalid " +:+ machine +:+ " status: " +:+ value) None.

(** [String(input ?? initial).trim().toLowerCase()] *)
Definition status_text (m : lifecycle_machine) (input : jsval) : string :=
  toLowerCase (trim (js_String (js_nullish input (JStr (initial m))))).

(** [.replace(/[\s-]+/g, '_')] *)
Definition underscored (s : string) : string :=
  unchars (collapse_runs (fun c => is_space c || is_hyphen c) "_"%char false (chars s)).

Definition parseDeploymentStatus (input : jsval) : result string :=
  let key := underscored (status_text machine_deployment input) in
  let value := match map_get key (aliases machine_deployment) with
               | Some alias => alias
               | None => if decide (key = "queued" \/ key = "") then "queued" else toUpperCase key
               end in
  if is_status machine_deployment value then Ok value
  else Throw (LifecycleStatusError "deployment" value).

Definition parseWorkflowStatus (input : jsval) : result string :=
  let key := status_text machine_workflow input in
  let value := match map_get key (aliases machine_workflow) with
               | Some alias => alias
               | None => str_or key "queued"
               end in
  if is_status machine_workflow value then Ok value
  else Throw (LifecycleStatusError "workflow" value).

(** [[...new Set(xs)]]: the first occurrence of each element, in order. *)
Fixpoint dedupe (seen l : list string) : list string :=
  match l with
  | [] => []
  | x :: l' => if decide (x ∈ seen) then dedupe seen l' else x :: dedupe (x :: seen) l'
  end.

Definition terminalLifecycleInputs (m : lifecycle_machine) : list string :=
  let canonical := (filter (fun p => terminal p.2 = true) (states m)).*1 in
  let legacy := (filter (fun p => status_terminal m p.2 = true) (aliases m)).*1 in
  dedupe [] (concat (map (fun status => [status; toLowerCase status; toUpperCase status])
                         (canonical ++ legacy))).

(** ** Deployment transitions ([deployments.ts]) *)

Definition normalizeDeploymentStatus (input : jsval) : result string := parseDeploymentStatus input.

Definition canTransitionDeployment (from to : jsval) : result bool :=
  current ← normalizeDeploymentStatus from;
  nxt ← normalizeDeploymentStatus to;
  Ok (bool_decide (current = nxt) || bool_decide (nxt ∈ status_next machine_deployment current)).

Definition DeploymentTransitionError (from to : string) : jserror :=
  JsError "DeploymentTransitionError"
    ("invalid deployment status transition: " +:+ from +:+ " -> " +:+ to) None.

Definition assertDeploymentTransition (from to : jsval) : result bool :=
  current ← normalizeDeploymentStatus from;
  nxt ← normalizeDeploymentStatus to;
  allowed ← canTransitionDeployment (JStr current) (JStr nxt);
  if (allowed : bool) then Ok true else Throw (DeploymentTransitionError current nxt).

Definition canCancelDeployment (status : jsval) : result bool :=
  s ← normalizeDeploymentStatus status;
  Ok (bool_decide ("CANCELLED" ∈ status_next machine_deployment s)).

Definition isDeploymentTerminal (status : jsval) : result bool :=
  s ← normalizeDeploymentStatus status;
  Ok (status_terminal machine_deployment s).

(** ** The schema package's parsers *)

Module SchemaLifecycle.

Definition DeploymentStatusSchema : list string :=
  ["queued"; "BUILDING"; "IMAGE_READY"; "DEPLOYING"; "READY"; "BUILD_FAILED"; "FAILED"; "CANCELLED";
   "PREVIEW_CLEANUP_REQUESTED"; "ROLLBACK_REQUESTED"; "CLEANED_UP"].
Definition WorkflowStatusSchema : list string :=
  ["queued"; "running"; "succeeded"; "failed"; "cancelled"].
Definition ResourceStatusSchema : list string :=
  ["PROVISIONING"; "RECONCILING"; "READY"; "FAILED"; "DELETE_REQUESTED"; "DELETING"; "DELETED"].
Definition BackupStatusSchema : list string :=
  ["QUEUED"; "RUNNING"; "VERIFYING"; "READY"; "FAILED"; "EXPIRED"; "DELETING"; "DELETED"].
Definition RestoreStatusSchema : list string :=
  ["QUEUED"; "RUNNING"; "VERIFYING"; "READY"; "FAILED"; "CANCELLED"].
Definition DomainStatusSchema : list string :=
  ["PENDING_VERIFICATION"; "VERIFIED"; "ROUTING"; "READY"; "FAILED"; "DELETING"].
Definition TlsStatusSchema : list string := ["PENDING"; "ISSUING"; "READY"; "FAILED"].
Definition HealthStatusSchema : list string := ["UNKNOWN"; "CHECKING"; "HEALTHY"; "DEGRADED"].
Definition ResourceHealthStatusSchema : list string := ["UNKNOWN"; "HEALTHY"; "UNHEALTHY"].

Definition ZodError : jserror := JsError "ZodError" "" None.

(** [z.enum(values).parse(value)] *)
Definition enum_parse (values : list string) (value : string) : result string :=
  if decide (value ∈ values) then Ok value else Throw ZodError.

(** [machineSchema(status)]: the initial state, every successor and every
    alias target are statuses, and the record of states is keyed by exactly
    the statuses. *)
Definition machineSchema (status : list string) (m : lifecycle_machine) : bool :=
  bool_decide (initial m ∈ status)
  && forallb (fun p : string * lifecycle_state =>
       bool_decide (p.1 ∈ status) && forallb (fun s => bool_decide (s ∈ status)) (next p.2)) (states m)
  && forallb (fun s => map_has s (states m)) status
  && forallb (fun p : string * string => bool_decide (p.2 ∈ status)) (aliases m).

Definition LifecycleContractSchema (fixture : list (string * lifecycle_machine)) : bool :=
  bool_decide (fixture.*1 = ["deployment"; "workflow"; "resource"; "backup"; "restore"; "domain"; "tls";
                             "health"; "resourceHealth"])
  && forallb (fun q : list string * (string * lifecycle_machine) => machineSchema q.1 q.2.2)
       (zip [DeploymentStatusSchema; WorkflowStatusSchema; ResourceStatusSchema; BackupStatusSchema;
             RestoreStatusSchema; DomainStatusSchema; TlsStatusSchema; HealthStatusSchema;
             ResourceHealthStatusSchema] fixture).

Definition parseDeploymentStatus (input : jsval) : result string :=
  let key := underscored (status_text machine_deployment input) in
  enum_parse DeploymentStatusSchema
    match map_get key (aliases machine_deployment) with
    | Some alias => alias
    | None => if decide (key = "queued" \/ key = "") then "queued" else toUpperCase key
    end.

Definition parseWorkflowStatus (input : jsval) : result string :=
  let key := status_text machine_workflow input in
  enum_parse WorkflowStatusSchema
    match map_get key (aliases machine_workflow) with
    | Some alias => alias
    | None => str_or key "queued"
    end.

End SchemaLifecycle.

(** ** Properties *)

(** The contract every package ships passes the schema's validation: in
    each of the nine machines the initial state, every successor and every
    alias target is a status, and every status has a state. *)
Theorem lifecycle_contract_valid : SchemaLifecycle.LifecycleContractSchema machines = true.
Proof. vm_compute. reflexivity. Qed.

Lemma is_status_deployment s :
  is_status machine_deployment s = bool_decide (s ∈ SchemaLifecycle.DeploymentStatusSchema).
Proof.
  unfold is_status, map_has. case_bool_decide as H.
  - unfold SchemaLifecycle.DeploymentStatusSchema in H.
    repeat (apply elem_of_cons in H as [->|H]); [reflexivity..|by apply not_elem_of_nil in H].
  - destruct (map_get s (states machine_deployment)) eqn:E; [|done].
    apply map_get_Some_elem in E. exfalso. apply H.
    apply (list_elem_of_fmap_2 fst) in E. exact E.
Qed.

Lemma is_status_workflow s :
  is_status machine_workflow s = bool_decide (s ∈ SchemaLifecycle.WorkflowStatusSchema).
Proof.
  unfold is_status, map_has. case_bool_decide as H.
  - unfold SchemaLifecycle.WorkflowStatusSchema in H.
    repeat (apply elem_of_cons in H as [->|H]); [reflexivity..|by apply not_elem_of_nil in H].
  - destruct (map_get s (states machine_workflow)) eqn:E; [|done].
    apply map_get_Some_elem in E. exfalso. apply H.
    apply (list_elem_of_fmap_2 fst) in E. exact E.
Qed.

(** The status parsers of the two packages accept the same inputs and
    return the same canonical status. *)
Theorem status_parsers_agree input s :
  (parseDeploymentStatus input = Ok s <-> SchemaLifecycle.parseDeploymentStatus input = Ok s)
  /\ (parseWorkflowStatus input = Ok s <-> SchemaLifecycle.parseWorkflowStatus input = Ok s).
Proof.
  unfold parseDeploymentStatus, parseWorkflowStatus, SchemaLifecycle.parseDeploymentStatus,
    SchemaLifecycle.parseWorkflowStatus, SchemaLifecycle.enum_parse. cbn zeta.
  rewrite is_status_deployment, is_status_workflow.
  split; match goal with |- context [bool_decide (?v ∈ _)] => generalize v; intros w end;
    case_bool_decide; case_decide; done.
Qed.

Lemma parseDeploymentStatus_status input s :
  parseDeploymentStatus input = Ok s -> s ∈ SchemaLifecycle.DeploymentStatusSchema.
Proof.
  unfold parseDeploymentStatus. cbn zeta. rewrite is_status_deployment.
  by case_bool_decide; intros [= <-].
Qed.

Lemma parseWorkflowStatus_status input s :
  parseWorkflowStatus input = Ok s -> s ∈ SchemaLifecycle.WorkflowStatusSchema.
Proof.
  unfold parseWorkflowStatus. cbn zeta. rewrite is_status_workflow.
  by case_bool_decide; intros [= <-].
Qed.

(** Case analysis over the members of a literal list. *)
Ltac each_member H :=
  match type of H with
  | ?s ∈ ?l => let l' := eval vm_compute in l in change (s ∈ l') in H
  end;
  repeat (apply elem_of_cons in H as [->|H]); [..|by apply not_elem_of_nil in H].

Lemma parse_canonical s :
  s ∈ SchemaLifecycle.DeploymentStatusSchema -> parseDeploymentStatus (JStr s) = Ok s.
Proof. intros H. each_member H; vm_compute; reflexivity. Qed.

Lemma parse_workflow_canonical s :
  s ∈ SchemaLifecycle.WorkflowStatusSchema -> parseWorkflowStatus (JStr s) = Ok s.
Proof. intros H. each_member H; vm_compute; reflexivity. Qed.

(** Parsing a stored status is idempotent: a status that was accepted,
    through whatever legacy spelling, is accepted again unchanged. *)
Theorem parse_status_idempotent input s :
  (parseDeploymentStatus input = Ok s -> parseDeploymentStatus (JStr s) = Ok s)
  /\ (parseWorkflowStatus input = Ok s -> parseWorkflowStatus (JStr s) = Ok s).
Proof.
  split; intros H.
  - by apply parse_canonical, (parseDeploymentStatus_status input).
  - by apply parse_workflow_canonical, (parseWorkflowStatus_status input).
Qed.

(** One step of a machine. *)
Definition lifecycle_step (m : lifecycle_machine) (s t : string) : Prop := t ∈ status_next m s.

#[export] Instance lifecycle_step_dec m s t : Decision (lifecycle_step m s t).
Proof. unfold lifecycle_step. apply _. Defined.

(** A deployment status change is accepted exactly when both ends parse
    and the parsed target equals the parsed source or is one step away in the
    contract; otherwise the parse error or a transition error is thrown. *)
Theorem assertDeploymentTransition_spec from to :
  match parseDeploymentStatus from, parseDeploymentStatus to with
  | Ok s, Ok t =>
      if decide (s = t \/ lifecycle_step machine_deployment s t)
      then assertDeploymentTransition from to = Ok true
      else assertDeploymentTransition from to = Throw (DeploymentTransitionError s t)
  | Throw e, _ => assertDeploymentTransition from to = Throw e
  | _, Throw e => assertDeploymentTransition from to = Throw e
  end.
Proof.
  unfold assertDeploymentTransition, normalizeDeploymentStatus.
  destruct (parseDeploymentStatus from) as [s|e] eqn:Hs; [|done].
  destruct (parseDeploymentStatus to) as [t|e] eqn:Ht; [|done].
  cbn [mbind result_bind]. unfold canTransitionDeployment, normalizeDeploymentStatus.
  rewrite (parse_canonical s) by (by eapply parseDeploymentStatus_status).
  rewrite (parse_canonical t) by (by eapply parseDeploymentStatus_status).
  cbn [mbind result_bind]. unfold lifecycle_step.
  case_bool_decide; case_bool_decide; cbn; case_decide; naive_solver.
Qed.

(** A deployment can be cancelled exactly while it is queued, building or
    has an image that is not yet being rolled out. *)
Theorem canCancelDeployment_spec status s :
  parseDeploymentStatus status = Ok s ->
  canCancelDeployment status = Ok (bool_decide (s ∈ ["queued"; "BUILDING"; "IMAGE_READY"])).
Proof.
  intros H. unfold canCancelDeployment, normalizeDeploymentStatus. rewrite H. cbn [mbind result_bind].
  f_equal. apply parseDeploymentStatus_status in H. each_member H; reflexivity.
Qed.

Lemma canCancelDeployment_spec_witness : canCancelDeployment (JStr " Build-Queued ") = Ok true.
Proof. apply (canCancelDeployment_spec (JStr " Build-Queued ") "queued"). vm_compute. reflexivity. Defined.

(** ** Reachability *)

(** The statuses within [fuel] steps of the given ones. *)
Fixpoint closure (m : lifecycle_machine) (fuel : nat) (from : list string) : list string :=
  match fuel with
  | O => from
  | S n => closure m n (dedupe [] (from ++ concat (map (status_next m) from)))
  end.

Lemma dedupe_elem seen l x : x ∈ dedupe seen l -> x ∈ l.
Proof.
  revert seen; induction l as [|y l IH]; intros seen; cbn; [done|].
  case_decide; [intros ?%IH; set_solver|].
  intros [->|?%IH]%elem_of_cons; set_solver.
Qed.

Lemma closure_sound m fuel from t :
  t ∈ closure m fuel from -> exists s, s ∈ from /\ rtc (lifecycle_step m) s t.
Proof.
  revert from; induction fuel as [|n IH]; intros from; cbn.
  - intros H. exists t. split; [done|constructor].
  - intros (s & Hs & Hst)%IH. apply dedupe_elem in Hs.
    apply elem_of_app in Hs as [Hs|Hs]; [by exists s|].
    apply list_elem_of_In, in_concat in Hs as (l & Hl & Hsl).
    apply in_map_iff in Hl as (r & <- & Hr). exists r.
    split; [by apply list_elem_of_In|]. econstructor; [|exact Hst].
    by apply list_elem_of_In.
Qed.

(** Every status is reachable from the initial one, and a terminal status is
    reachable from every status but those listed. *)
Definition machine_live (m : lifecycle_machine) (dead_ends : list string) : bool :=
  forallb (fun s => bool_decide (s ∈ closure m 11 [initial m])
                    && (bool_decide (s ∈ dead_ends)
                        || existsb (status_terminal m) (closure m 11 [s]))) (states m).*1.

Lemma machine_live_sound m dead_ends s :
  machine_live m dead_ends = true -> s ∈ (states m).*1 ->
  rtc (lifecycle_step m) (initial m) s
  /\ (s ∉ dead_ends -> exists t, rtc (lifecycle_step m) s t /\ status_terminal m t = true).
Proof.
  unfold machine_live. rewrite forallb_forall. intros H Hs%list_elem_of_In.
  specialize (H s Hs). apply andb_true_iff in H as [Hi Ht]. split.
  - apply bool_decide_eq_true, closure_sound in Hi as (i & ->%list_elem_of_singleton & Hr). done.
  - intros Hd. apply orb_true_iff in Ht as [?%bool_decide_eq_true|Ht]; [done|].
    apply existsb_exists in Ht as (t & Ht%list_elem_of_In & Hterm).
    apply closure_sound in Ht as (s' & ->%list_elem_of_singleton & Hr). eauto.
Qed.

(** In every machine of the contract each status is reachable from the
    initial one and some terminal status is reachable from each status; the
    only exception is a domain being deleted, whose row is removed instead. *)
Theorem lifecycle_machines_live name m s :
  (name, m) ∈ machines -> s ∈ (states m).*1 ->
  rtc (lifecycle_step m) (initial m) s
  /\ ((name, s) <> ("domain", "DELETING") ->
      exists t, rtc (lifecycle_step m) s t /\ status_terminal m t = true).
Proof.
  intros Hm Hs.
  assert (Hl : machine_live m (if decide (name = "domain") then ["DELETING"] else []) = true).
  { unfold machines in Hm. repeat (apply elem_of_cons in Hm as [[= -> ->]|Hm]);
      [vm_compute; reflexivity..|by apply not_elem_of_nil in Hm]. }
  destruct (machine_live_sound _ _ s Hl Hs) as [Hi Ht]. split; [done|].
  intros Hne. apply Ht. case_decide; [|set_solver].
  intros ->%list_elem_of_singleton. subst. done.
Qed.

Lemma lifecycle_machines_live_witness :
  rtc (lifecycle_step machine_deployment) "queued" "ROLLBACK_REQUESTED"
  /\ (("deployment", "ROLLBACK_REQUESTED") <> ("domain", "DELETING") ->
      exists t, rtc (lifecycle_step machine_deployment) "ROLLBACK_REQUESTED" t
                /\ status_terminal machine_deployment t = true).
Proof.
  apply (lifecycle_machines_live "deployment" machine_deployment "ROLLBACK_REQUESTED").
  - unfold machines. set_solver.
  - vm_compute. set_solver.
Defined.

(** A finished job and a cleaned-up deployment never change status again:
    whatever steps the contract allows from a succeeded, failed or cancelled
    workflow status, or from [CLEANED_UP], lead nowhere. *)
Theorem terminal_absorbing s t :
  (s ∈ SchemaLifecycle.WorkflowStatusSchema -> status_terminal machine_workflow s = true ->
   rtc (lifecycle_step machine_workflow) s t -> t = s)
  /\ (rtc (lifecycle_step machine_deployment) "CLEANED_UP" t -> t = "CLEANED_UP").
Proof.
  assert (Hstep : forall m x y, status_next m x = [] -> rtc (lifecycle_step m) x y -> y = x).
  { intros m x y Hn [->|(z & Hz & _)]%rtc_inv; [done|].
    unfold lifecycle_step in Hz. rewrite Hn in Hz. set_solver. }
  split; [|by apply Hstep].
  intros Hs Hterm Hr. apply (Hstep machine_workflow); [|done].
  each_member Hs; done.
Qed.

(** The status spellings the SQL layer treats as terminal are all
    spellings the parser reads as a terminal status. *)
Theorem terminal_inputs_terminal x :
  (x ∈ terminalLifecycleInputs machine_deployment -> isDeploymentTerminal (JStr x) = Ok true)
  /\ (x ∈ terminalLifecycleInputs machine_workflow ->
      exists s, parseWorkflowStatus (JStr x) = Ok s /\ status_terminal machine_workflow s = true).
Proof.
  split; intros H.
  - each_member H; vm_compute; reflexivity.
  - each_member H; eexists; split; vm_compute; reflexivity.
Qed.
