(* ===== verification/Secrets.v ===== *)
(** * Secret masking ([packages/core/src/secrets.ts])

    Which keys name secrets, how a secret value is shown, and the recursive
    masking applied to everything that is logged or audited.  Encryption
    ([sealSecretValue]) is [node:crypto] and stays outside. *)

From S2P Require Import Prelude JsString JsVal.

(** ** Keys *)

(** A key fragment of [SECRET_KEY_RE]: words joined by an optional [_] or [-]. *)
Definition SECRET_KEY_WORDS : list (list string) :=
  [["secret"]; ["password"]; ["token"]; ["private"]; ["credential"]; ["api"; "key"]; ["access"; "key"];
   ["database"; "url"]; ["connection"; "url"]; ["mongodb"; "uri"]; ["redis"; "url"]; ["mysql"; "url"];
   ["mariadb"; "url"]; ["postgres"; "url"]; ["postgresql"; "url"]; ["dsn"]].

Definition is_separator (c : ascii) : bool := (code c =? 95)%N || is_hyphen c.

(** The rest of the input after the words, when they are a prefix of it. *)
Fixpoint match_words (ws : list string) (l : list ascii) : option (list ascii) :=
  match ws with
  | [] => Some l
  | w :: ws' =>
      if prefixb (chars w) l then
        let rest := drop (length (chars w)) l in
        match ws', rest with
        | [], _ => Some rest
        | _, c :: rest' =>
            if is_separator c then
              match match_words ws' rest' with Some r => Some r | None => match_words ws' rest end
            else match_words ws' rest
        | _, [] => match_words ws' rest
        end
      else None
  end.

(** [regex.test(text)]: the pattern matches at some position. *)
Fixpoint search (test : list ascii -> bool) (l : list ascii) : bool :=
  test l || match l with [] => false | _ :: l' => search test l' end.

Definition is_some {A} (o : option A) : bool := match o with Some _ => true | None => false end.

Definition SECRET_KEY_RE (l : list ascii) : bool :=
  search (fun t => existsb (fun ws => is_some (match_words ws t)) SECRET_KEY_WORDS) l.

(** [(secret|password|token|credential)s?[_-]?count$] at the start of [l] *)
Definition count_suffix (l : list ascii) : bool :=
  existsb (fun w =>
    if prefixb (chars w) l then
      let rest := drop (length (chars w)) l in
      let tails := rest :: match rest with c :: r => if Ascii.eqb c "s"%char then [r] else [] | [] => [] end in
      existsb (fun t =>
        let tails' := t :: match t with c :: r => if is_separator c then [r] else [] | [] => [] end in
        existsb (fun u => bool_decide (unchars u = "count")) tails') tails
    else false) ["secret"; "password"; "token"; "credential"].

(** [/(^|[_-])(secret|password|token|credential)s?[_-]?count$/i] *)
Definition COUNT_KEY_RE (l : list ascii) : bool :=
  count_suffix l
  || search (fun t => match t with c :: r => is_separator c && count_suffix r | [] => false end) l.

Definition isSecretKey (key : string) : bool :=
  let value := chars (toLowerCase key) in
  if COUNT_KEY_RE value || infixb (chars "secretcount") value || infixb (chars "plaincount") value
  then false
  else SECRET_KEY_RE value.

Definition isSafeSecretMetadataKey (key : string) : bool :=
  bool_decide (toLowerCase (trim key) ∈ ["secretname"; "connectionsecretname"; "credentialsecretuid"]).

(** ** Values *)

Definition mask_text (text : list ascii) : list ascii :=
  if (length text <=? 4)%nat then chars "****"
  else take 2 text ++ chars "****" ++ drop (length text - 2) text.

Definition maskSecretValue (value : jsval) : jsval :=
  match value with
  | JNull | JUndef => value
  | _ => JStr (unchars (mask_text (chars (js_String value))))
  end.

(** The URL schemes of [SECRET_VALUE_RE], with its optional parts spelled out. *)
Definition SECRET_SCHEMES : list string :=
  ["postgres"; "postgresql"; "mysql"; "mariadb"; "mongodb"; "mongodb+srv"; "redis"; "rediss"; "nats";
   "amqp"; "amqps"; "s3"].

Definition is_word (c : ascii) : bool := is_alnum c || (code c =? 95)%N.

(** The characters of the URL body: no space, quote, comma or parenthesis. *)
Definition is_url_char (c : ascii) : bool :=
  negb (is_space c || (code c =? 39)%N || (code c =? 34)%N || (code c =? 44)%N || (code c =? 41)%N).

Fixpoint span {A} (p : A -> bool) (l : list A) : list A * list A :=
  match l with
  | [] => ([], [])
  | x :: l' => if p x then let '(a, b) := span p l' in (x :: a, b) else ([], l)
  end.

(** A connection URL at the start of the input: the matched text and the rest. *)
Definition match_secret_url (l : list ascii) : option (list ascii * list ascii) :=
  match list_find (fun s => prefixb (chars (s +:+ "://")) (lower_char <$> l) = true
                            /\ (span is_url_char (drop (length (chars (s +:+ "://"))) l)).1 <> [])
          SECRET_SCHEMES with
  | None => None
  | Some (_, s) =>
      let n := length (chars (s +:+ "://")) in
      let '(body, rest) := span is_url_char (drop n l) in
      Some (take n l ++ body, rest)
  end.

(** [text.replace(SECRET_VALUE_RE, mask)]: scan left to right; a match starts
    at a word boundary.  Every step consumes a character, so the length of the
    text is enough fuel. *)
Fixpoint mask_urls (fuel : nat) (after_word : bool) (l : list ascii) : list ascii :=
  match fuel with
  | O => l
  | S n =>
      match l with
      | [] => []
      | c :: l' =>
          match (if after_word then None else match_secret_url l) with
          | Some (m, rest) => mask_text m ++ mask_urls n (match last m with Some d => is_word d | None => false end) rest
          | None => c :: mask_urls n (is_word c) l'
          end
      end
  end.

Definition maskSecretLikeString (value : string) : string :=
  unchars (mask_urls (length (chars value)) false (chars value)).

(** [typeof value !== 'object'] for a value that is neither null nor undefined *)
Definition is_scalar (v : jsval) : bool :=
  match v with JBool _ | JNum _ | JStr _ => true | _ => false end.

Fixpoint maskSecrets (input : jsval) : jsval :=
  match input with
  | JArr l => JArr (map maskSecrets l)
  | JStr s => JStr (maskSecretLikeString s)
  | JObj fs =>
      JObj (map (fun kv =>
              match kv with
              | (key, value) =>
                  (key, if negb (isSafeSecretMetadataKey key) && isSecretKey key && is_scalar value
                        then maskSecretValue value else maskSecrets value)
              end) fs)
  | _ => input
  end.

(** ** Properties *)

(** Examples from the keys and values the platform handles. *)
Example secret_keys :
  map isSecretKey ["DATABASE_URL"; "apiKey"; "API-KEY"; "db_password"; "tokenCount"; "secret_count"; "PORT"; "DSN"]
  = [true; true; true; true; false; false; false; true].
Proof. vm_compute. reflexivity. Qed.

Example masked_url :
  maskSecretLikeString "db at postgres://u:p@h/db, retry" = "db at po****db, retry".
Proof. vm_compute. reflexivity. Qed.

(** What is shown of a text: its first two and last two characters at most. *)
Lemma mask_text_reveals text :
  exists a b, mask_text text = a ++ chars "****" ++ b /\ (length a <= 2)%nat /\ (length b <= 2)%nat
    /\ ((length text <= 4)%nat -> a = [] /\ b = []).
Proof.
  unfold mask_text. destruct (Nat.leb_spec (length text) 4) as [H|H].
  - exists [], []. split_and!; [done|cbn; lia|cbn; lia|done].
  - exists (take 2 text), (drop (length text - 2) text). rewrite length_take, length_drop.
    split_and!; [done|lia|lia|lia].
Qed.

Lemma mask_text_idem text : mask_text (mask_text text) = mask_text text.
Proof.
  unfold mask_text at 2 3. destruct (Nat.leb_spec (length text) 4) as [H|H]; [done|].
  set (a := take 2 text). set (b := drop (length text - 2) text).
  assert (Ha : length a = 2%nat) by (unfold a; rewrite length_take; lia).
  assert (Hb : length b = 2%nat) by (unfold b; rewrite length_drop; lia).
  unfold mask_text. rewrite !length_app, Ha, Hb.
  replace (2 + (length (chars "****") + 2) <=? 4)%nat with false by done.
  replace (2 + (length (chars "****") + 2) - 2)%nat with (2 + 4)%nat by done.
  rewrite <- Ha at 1. rewrite take_app_length.
  rewrite (app_assoc a (chars "****") b), drop_app_length'; [by rewrite app_assoc|].
  rewrite length_app, Ha. done.
Qed.

(** The values of a masked tree, together with the key they are stored under. *)
Fixpoint scalar_leaf (k : string) (v : jsval) (t : jsval) : Prop :=
  match t with
  | JArr l => (fix any l := match l with [] => False | x :: l' => scalar_leaf k v x \/ any l' end) l
  | JObj fs =>
      (fix any fs := match fs with
                     | [] => False
                     | (k', x) :: fs' =>
                         (k' = k /\ x = v /\ is_scalar v = true) \/ scalar_leaf k v x \/ any fs'
                     end) fs
  | _ => False
  end.

(** An induction principle for values that reaches inside arrays and objects. *)
Lemma jsval_nested_ind (P : jsval -> Prop) :
  P JUndef -> P JNull -> (forall b, P (JBool b)) -> (forall n, P (JNum n)) -> (forall s, P (JStr s)) ->
  (forall l, Forall P l -> P (JArr l)) ->
  (forall fs, Forall (fun kv => P kv.2) fs -> P (JObj fs)) ->
  forall v, P v.
Proof.
  intros H1 H2 H3 H4 H5 Harr Hobj.
  fix IH 1. intros [| |b|n|s|l|fs]; [done|done|apply H3|apply H4|apply H5| |].
  - apply Harr. induction l as [|x l IHl]; constructor; [apply IH|exact IHl].
  - apply Hobj. induction fs as [|[k x] fs IHf]; constructor; [apply IH|exact IHf].
Qed.

Lemma maskSecretValue_shape w :
  is_scalar w = true ->
  exists a b, maskSecretValue w = JStr (unchars (a ++ chars "****" ++ b))
    /\ (length a <= 2)%nat /\ (length b <= 2)%nat.
Proof.
  intros Hw. destruct (mask_text_reveals (chars (js_String w))) as (a & b & Hm & Ha & Hb & _).
  exists a, b. split_and!; [|done|done]. rewrite <- Hm. by destruct w.
Qed.

(** After masking, every scalar stored under a key that names a secret,
    at any depth of the value, shows at most its first two and last two
    characters around a fixed marker. *)
Theorem maskSecrets_hides key v input :
  isSecretKey key = true -> isSafeSecretMetadataKey key = false ->
  scalar_leaf key v (maskSecrets input) ->
  exists a b, v = JStr (unchars (a ++ chars "****" ++ b)) /\ (length a <= 2)%nat /\ (length b <= 2)%nat.
Proof.
  intros Hk Hs. induction input as [| | | | |l IHl|fs IHf] using jsval_nested_ind; cbn; try done.
  - induction IHl as [|x l Hx _ IH]; cbn; [done|]. intros [H|H]; [by apply Hx|by apply IH].
  - induction IHf as [|[k x] fs Hx _ IH]; cbn; [done|]. cbn in Hx.
    destruct (isSafeSecretMetadataKey k) eqn:Es, (isSecretKey k) eqn:Ek, (is_scalar x) eqn:Ex;
      cbn; intros [(-> & <- & Hsc)|[H|H]]; try congruence; try (by apply IH); try (by apply Hx);
      try (by apply maskSecretValue_shape);
      try (destruct (maskSecretValue_shape x Ex) as (a & b & Heq & _); rewrite Heq in H; done);
      destruct x; cbn in *; congruence.
Qed.

Lemma maskSecrets_hides_witness :
  exists a b, JStr "s3****sy" = JStr (unchars (a ++ chars "****" ++ b))
    /\ (length a <= 2)%nat /\ (length b <= 2)%nat.
Proof.
  apply (maskSecrets_hides "DB_PASSWORD" (JStr "s3****sy")
           (JObj [("env", JArr [JObj [("DB_PASSWORD", JStr "s3cret-sassy")]])])).
  - vm_compute; reflexivity.
  - vm_compute; reflexivity.
  - vm_compute. tauto.
Defined.
