(* ===== verification/Identity.v ===== *)
(** * Identity policy ([packages/core/src/identity.ts])

    Normalisation of emails and account types, the session lifetime, and the
    policy that decides what a signup is granted.  Password hashing and token
    signing are [node:crypto] and stay outside. *)

From S2P Require Import Prelude JsString JsVal JsMap Ids.
From Stdlib Require Import QArith Qround.
From stdpp Require Import list.

Definition plain_error (message : string) (status : Z) : jserror := JsError "Error" message (Some status).

(** ** Emails *)

Definition is_at (c : ascii) : bool := (code c =? 64)%N.
Definition is_dot (c : ascii) : bool := (code c =? 46)%N.

(** [EMAIL_RE]: one at-sign, no spaces, a non-empty local part and a dot inside the
    domain with something on both sides. *)
Definition EMAIL_RE (s : string) : bool :=
  match split_chars "@"%char (chars s) with
  | [loc; dom] =>
      negb (bool_decide (loc = []))
      && forallb (fun c => negb (is_space c)) loc
      && forallb (fun c => negb (is_space c)) dom
      && existsb is_dot (drop 1 (take (length dom - 1) dom))
  | _ => false
  end.

(** [String(v || '')] *)
Definition string_or_empty (v : jsval) : string := if truthy v then js_String v else "".

Definition normalizeEmail (email : jsval) : result string :=
  let value := toLowerCase (trim (string_or_empty email)) in
  if EMAIL_RE value then Ok value else Throw (plain_error "valid email is required" 400).

Definition assertPasswordStrength (password : jsval) : result bool :=
  if (str_length (string_or_empty password) <? 8)%Z
  then Throw (plain_error "password must be at least 8 characters" 400)
  else Ok true.

(** ** Account types *)

Definition ACCOUNT_TYPE_ALIASES : list (string * string) :=
  [("CLUB", "CLUB_MEMBER"); ("CLUB_MEMBER", "CLUB_MEMBER"); ("CLUBMEMBER", "CLUB_MEMBER");
   ("NON_CLUB", "NON_CLUB"); ("NONCLUB", "NON_CLUB"); ("NON_MEMBER", "NON_CLUB"); ("NONMEMBER", "NON_CLUB")].

Definition is_blank (v : jsval) : bool :=
  match v with
  | JUndef | JNull => true
  | _ => str_empty (trim (js_String v))
  end.

Definition normalizeAccountType (value : jsval) (fallback : string) : result string :=
  let raw := if is_blank value then JStr fallback else value in
  let text := toUpperCase (trim (js_String (js_or raw (JStr fallback)))) in
  let normalized := unchars (collapse_runs (fun c => is_space c || is_hyphen c) "_"%char false (chars text)) in
  match map_get normalized ACCOUNT_TYPE_ALIASES with
  | Some accountType => Ok accountType
  | None => Throw (plain_error "accountType must be CLUB_MEMBER or NON_CLUB" 400)
  end.

(** ** Session lifetime *)

Definition DEFAULT_SESSION_TTL_SECONDS : Z := 3600.
Definition MAX_SESSION_TTL_SECONDS : Z := 24 * 60 * 60.

(** [configured] is the number the options and the environment were read as. *)
Definition sessionTtlSeconds (configured : jsnum) : Z :=
  match configured with
  | NNaN | NInf _ => DEFAULT_SESSION_TTL_SECONDS
  | NInt z => if (z <=? 0)%Z then DEFAULT_SESSION_TTL_SECONDS
              else Z.max 60 (Z.min z MAX_SESSION_TTL_SECONDS)
  | NFrac _ q => if Qle_bool q 0 then DEFAULT_SESSION_TTL_SECONDS
                 else Z.max 60 (Z.min (Qfloor q) MAX_SESSION_TTL_SECONDS)
  end.

(** ** Signup policy *)

(** The part of the environment the policy reads. *)
Record SignupEnv := {
  env_production : bool;
  env_ADMIN_EMAILS : string;
  env_ADMIN_BOOTSTRAP_TOKEN : string
}.

Record SignupPolicy := {
  isAdminBootstrap : bool;
  bootstrapReason : option string;
  pol_role : string;
  pol_accountType : string;
  pol_approvalStatus : string
}.

Definition configuredAdminEmails (env : SignupEnv) : list string :=
  filter (fun s => s <> "") (map (fun v => toLowerCase (trim v)) (split_on ","%char (env_ADMIN_EMAILS env))).

(** [input.bootstrapToken || input.adminBootstrapToken || ''] is passed as
    [token]. *)
Definition signupPolicyForAccount (token email : string) (firstUser : bool) (env : SignupEnv) : SignupPolicy :=
  let isAdminEmail := bool_decide (toLowerCase email ∈ configuredAdminEmails env) in
  if env_production env then
    let expected := env_ADMIN_BOOTSTRAP_TOKEN env in
    let tokenOk := negb (str_empty expected) && negb (str_empty token) && bool_decide (token = expected) in
    let isAdmin := tokenOk && isAdminEmail in
    {| isAdminBootstrap := isAdmin;
       bootstrapReason := if isAdmin then Some "admin-invite-token" else None;
       pol_role := if isAdmin then "ADMIN" else "USER";
       pol_accountType := "NON_CLUB";
       pol_approvalStatus := if isAdmin then "APPROVED" else "PENDING" |}
  else
    if firstUser || isAdminEmail then
      {| isAdminBootstrap := true;
         bootstrapReason := Some (if firstUser then "first-user" else "admin-email");
         pol_role := "ADMIN"; pol_accountType := "NON_CLUB"; pol_approvalStatus := "APPROVED" |}
    else
      {| isAdminBootstrap := false; bootstrapReason := None;
         pol_role := "USER"; pol_accountType := "NON_CLUB"; pol_approvalStatus := "PENDING" |}.

(** ** Properties *)

(** In production a signup is granted the administrator role, or any
    approval, only with the configured non-empty bootstrap token and an email
    on the administrator list; being the first user grants nothing. *)
Theorem signup_policy_production token email firstUser env :
  env_production env = true ->
  let p := signupPolicyForAccount token email firstUser env in
  (pol_role p = "ADMIN" <-> pol_approvalStatus p = "APPROVED")
  /\ (pol_role p = "ADMIN" <->
      token <> "" /\ token = env_ADMIN_BOOTSTRAP_TOKEN env
      /\ toLowerCase email ∈ configuredAdminEmails env)
  /\ (pol_role p <> "ADMIN" -> pol_role p = "USER" /\ pol_approvalStatus p = "PENDING").
Proof.
  intros Hp. unfold signupPolicyForAccount. rewrite Hp. cbn zeta.
  rewrite !str_empty_eq. repeat case_bool_decide; cbn; intuition congruence.
Qed.

Lemma signup_policy_production_witness :
  let env := {| env_production := true; env_ADMIN_EMAILS := "root@club.kr, ops@club.kr";
                env_ADMIN_BOOTSTRAP_TOKEN := "let-me-in" |} in
  pol_role (signupPolicyForAccount "let-me-in" "Ops@club.kr" false env) = "ADMIN".
Proof.
  cbn zeta.
  apply (signup_policy_production "let-me-in" "Ops@club.kr" false
           {| env_production := true; env_ADMIN_EMAILS := "root@club.kr, ops@club.kr";
              env_ADMIN_BOOTSTRAP_TOKEN := "let-me-in" |}); [reflexivity|].
  vm_compute. split_and!; [congruence|reflexivity|]. repeat constructor.
Defined.

Lemma normalizeAccountType_values value fallback t :
  normalizeAccountType value fallback = Ok t -> t = "CLUB_MEMBER" \/ t = "NON_CLUB".
Proof.
  unfold normalizeAccountType. cbn zeta.
  destruct (map_get _ ACCOUNT_TYPE_ALIASES) as [a|] eqn:E; [|done].
  intros [= <-]. apply map_get_Some_elem in E. unfold ACCOUNT_TYPE_ALIASES in E.
  repeat (apply elem_of_cons in E as [[= _ ->]|E]); [naive_solver..|by apply not_elem_of_nil in E].
Qed.

Lemma normalizeAccountType_canonical t fallback :
  t = "CLUB_MEMBER" \/ t = "NON_CLUB" -> normalizeAccountType (JStr t) fallback = Ok t.
Proof. intros [-> | ->]; reflexivity. Qed.

(** The session lifetime stays between a minute and a day. *)
Lemma sessionTtlSeconds_bounds configured :
  (60 <= sessionTtlSeconds configured <= MAX_SESSION_TTL_SECONDS)%Z.
Proof.
  unfold sessionTtlSeconds, DEFAULT_SESSION_TTL_SECONDS, MAX_SESSION_TTL_SECONDS.
  destruct configured as [z|t q| |]; try lia; [destruct (Z.leb_spec z 0)|destruct (Qle_bool q 0)]; lia.
Qed.

Lemma normalizeEmail_fixed email e :
  normalizeEmail email = Ok e ->
  EMAIL_RE e = true /\ toLowerCase e = e /\ normalizeEmail (JStr e) = Ok e.
Proof.
  unfold normalizeEmail. cbn zeta. destruct (EMAIL_RE _) eqn:E; [|done]. intros [= <-].
  set (t := trim (string_or_empty email)) in *.
  assert (Hlow : toLowerCase (toLowerCase t) = toLowerCase t) by apply toLowerCase_idem.
  split_and!; [done|done|].
  assert (Hne : truthy (JStr (toLowerCase t)) = true).
  { cbn. rewrite str_empty_eq. case_bool_decide as Et; [by rewrite Et in E|done]. }
  unfold string_or_empty at 1 2. rewrite Hne. cbn [js_String].
  assert (Htrim : trim (toLowerCase t) = toLowerCase t).
  { unfold trim, toLowerCase, t. rewrite chars_unchars. f_equal. apply strip_chars_id.
    - intros x k Hx. unfold trim in Hx. rewrite chars_unchars in Hx.
      destruct (strip_chars is_space (chars (string_or_empty email))) as [|y m] eqn:Es; [done|].
      cbn in Hx. injection Hx as <- _. apply strip_chars_head in Es. by rewrite lower_char_space.
    - intros x k Hx. unfold trim in Hx. rewrite chars_unchars in Hx.
      apply fmap_app_inv in Hx as (k1 & k2 & -> & Hk2 & Hs).
      destruct k2 as [|y [|]]; try done. cbn in Hk2. injection Hk2 as ->.
      apply strip_chars_last in Hs. by rewrite lower_char_space. }
  rewrite Htrim, Hlow, E. done.
Qed.

(** A normalised email has the shape the platform requires and is in lower
    case; normalising it again leaves it alone. *)
Theorem normalizeEmail_idempotent email e :
  normalizeEmail email = Ok e ->
  EMAIL_RE e = true /\ toLowerCase e = e /\ normalizeEmail (JStr e) = Ok e.
Proof. apply normalizeEmail_fixed. Qed.

Lemma normalizeEmail_idempotent_witness :
  EMAIL_RE "kim@club.kr" = true /\ toLowerCase "kim@club.kr" = "kim@club.kr"
  /\ normalizeEmail (JStr "kim@club.kr") = Ok "kim@club.kr".
Proof. apply (normalizeEmail_idempotent (JStr "  Kim@Club.KR ")). vm_compute. reflexivity. Defined.
