(* ===== verification/Accounts.v ===== *)
(** * Accounts: organizations, users and members
    (the identity tables of [packages/core/src/store.ts] and
    [organization-creation.ts])

    The state is the part of [ControlPlaneStore] that holds identities; every
    operation that changes it is a state transformer that may throw.  The clock
    is read once per operation: all timestamps an operation writes are the
    [now] it was given. *)

From S2P Require Import Prelude JsString JsVal JsMap Ids Rbac Secrets Identity.
From Stdlib Require QArith.Qround.

(** ** Rows *)

Record Organization := mkOrganization {
  org_id : string;
  org_name : string;
  org_slug : string;
  org_plan : string;
  org_createdAt : Z
}.

Record User := mkUser {
  u_id : string;
  u_name : string;
  u_studentId : string;
  u_clubMemberClaim : bool;
  u_email : string;
  u_avatarUrl : option string;
  u_githubId : option string;
  u_passwordHash : option string;
  u_role : string;
  u_accountType : string;
  u_approvalStatus : string;
  u_sessionVersion : Z;
  u_bannedAt : option Z;
  u_banExpiresAt : option jsdate;
  u_banReason : option string;
  u_bannedByUserId : option string;
  u_emailVerifiedAt : option Z;
  u_createdAt : Z;
  u_updatedAt : Z
}.

#[export] Instance User_rebuild : Rebuild User := fun u =>
  mkUser (u_id u) (u_name u) (u_studentId u) (u_clubMemberClaim u) (u_email u) (u_avatarUrl u)
    (u_githubId u) (u_passwordHash u) (u_role u) (u_accountType u) (u_approvalStatus u)
    (u_sessionVersion u) (u_bannedAt u) (u_banExpiresAt u) (u_banReason u) (u_bannedByUserId u)
    (u_emailVerifiedAt u) (u_createdAt u) (u_updatedAt u).

(** [redactUser]: everything but the password hash and who banned the user. *)
Record PublicUser := {
  pu_id : string;
  pu_name : string;
  pu_studentId : string;
  pu_clubMemberClaim : bool;
  pu_email : string;
  pu_avatarUrl : option string;
  pu_githubId : option string;
  pu_role : string;
  pu_accountType : string;
  pu_approvalStatus : string;
  pu_sessionVersion : Z;
  pu_bannedAt : option Z;
  pu_banExpiresAt : option jsdate;
  pu_banReason : option string;
  pu_emailVerifiedAt : option Z;
  pu_createdAt : Z;
  pu_updatedAt : Z
}.

Definition redactUser (u : User) : PublicUser := {|
  pu_id := u_id u; pu_name := u_name u; pu_studentId := u_studentId u;
  pu_clubMemberClaim := u_clubMemberClaim u; pu_email := u_email u; pu_avatarUrl := u_avatarUrl u;
  pu_githubId := u_githubId u; pu_role := u_role u; pu_accountType := u_accountType u;
  pu_approvalStatus := u_approvalStatus u; pu_sessionVersion := u_sessionVersion u;
  pu_bannedAt := u_bannedAt u; pu_banExpiresAt := u_banExpiresAt u; pu_banReason := u_banReason u;
  pu_emailVerifiedAt := u_emailVerifiedAt u; pu_createdAt := u_createdAt u; pu_updatedAt := u_updatedAt u
|}.

(** The stored role is the raw string; readers normalise it. *)
Record Member := mkMember {
  m_organizationId : string;
  m_userId : string;
  m_role : string;
  m_createdAt : option Z;
  m_updatedAt : option Z;
  m_version : option Z
}.

#[export] Instance Member_rebuild : Rebuild Member := fun m =>
  mkMember (m_organizationId m) (m_userId m) (m_role m) (m_createdAt m) (m_updatedAt m) (m_version m).

#[export] Instance Member_eq_dec : EqDecision Member.
Proof. solve_decision. Defined.

Record OrganizationInviteRecord := mkInvite {
  inv_id : string;
  inv_organizationId : string;
  inv_email : string;
  inv_role : OrganizationMembershipRole;
  inv_tokenHash : string;
  inv_tokenVersion : Z;
  inv_invitedByUserId : string;
  inv_expiresAt : Z;
  inv_acceptedAt : option Z;
  inv_revokedAt : option Z;
  inv_createdAt : Z
}.

#[export] Instance Invite_rebuild : Rebuild OrganizationInviteRecord := fun i =>
  mkInvite (inv_id i) (inv_organizationId i) (inv_email i) (inv_role i) (inv_tokenHash i)
    (inv_tokenVersion i) (inv_invitedByUserId i) (inv_expiresAt i) (inv_acceptedAt i)
    (inv_revokedAt i) (inv_createdAt i).

(** A row of [emailVerificationCodes]. *)
Record EmailCode := mkEmailCode {
  ec_id : string;
  ec_userId : option string;
  ec_email : string;
  ec_purpose : string;
  ec_payload : option jsval;
  ec_codeHash : string;
  ec_codeSalt : string;
  ec_expiresAt : jsdate;
  ec_sentAt : Z;
  ec_consumedAt : option Z;
  ec_attempts : Z;
  ec_createdAt : Z;
  ec_updatedAt : Z
}.

#[export] Instance EmailCode_rebuild : Rebuild EmailCode := fun c =>
  mkEmailCode (ec_id c) (ec_userId c) (ec_email c) (ec_purpose c) (ec_payload c) (ec_codeHash c)
    (ec_codeSalt c) (ec_expiresAt c) (ec_sentAt c) (ec_consumedAt c) (ec_attempts c)
    (ec_createdAt c) (ec_updatedAt c).

Record QuotaRow := {
  q_id : string;
  q_userId : string;
  q_accountType : string;
  q_limits : jsmap Z;
  q_createdAt : Z;
  q_updatedAt : Z
}.

Record AuditRow := mkAudit {
  aud_id : string;
  aud_actorUserId : string;
  aud_action : string;
  aud_targetType : string;
  aud_targetId : string;
  aud_metadata : jsval;
  aud_createdAt : Z
}.

(** ** State *)

Record AccountStore := mkAccounts {
  organizations : jsmap Organization;
  users : jsmap User;
  members : list Member;
  organizationInvites : list OrganizationInviteRecord;
  emailVerificationCodes : list EmailCode;
  quotas : jsmap QuotaRow;
  auditLogs : list AuditRow
}.

#[export] Instance AccountStore_rebuild : Rebuild AccountStore := fun s =>
  mkAccounts (organizations s) (users s) (members s) (organizationInvites s)
    (emailVerificationCodes s) (quotas s) (auditLogs s).

(** The constructor of [ControlPlaneStore]. *)
Definition empty_accounts : AccountStore := mkAccounts [] [] [] [] [] [] [].

(** ** Errors of the store *)

Definition notFound (message : string) : jserror := JsError "Error" message (Some 404%Z).
Definition badRequest (message : string) : jserror := JsError "Error" message (Some 400%Z).
Definition forbidden (message : string) : jserror := JsError "Error" message (Some 403%Z).
Definition conflict (message : string) : jserror := JsError "Error" message (Some 409%Z).

(** ** Audit log *)

Definition audit_row (s : AccountStore) (actorUserId action targetType targetId : string)
    (metadata : jsval) (now : Z) : AuditRow := {|
  aud_id := stableId "aud" [JStr action; JStr targetId; JNum (NInt now);
                            JNum (NInt (Z.of_nat (length (auditLogs s))))];
  aud_actorUserId := actorUserId; aud_action := action; aud_targetType := targetType;
  aud_targetId := targetId; aud_metadata := maskSecrets metadata; aud_createdAt := now
|}.

Definition audit (actorUserId action targetType targetId : string) (metadata : jsval) (now : Z)
    : M AccountStore unit :=
  modify (fun s => s <| auditLogs := auditLogs s ++ [audit_row s actorUserId action targetType targetId metadata now] |>).

(** ** Organizations *)

(** [slug] is [None] when the input object has no [slug] property. *)
Definition organizationSlugForCreate (name : string) (slug : option jsval) : result string :=
  match slug with
  | None => Ok (slugify_default (JStr name))
  | Some value =>
      match parseOrganizationRouteSlug value with
      | Ok s => Ok s
      | Throw e => Throw (badRequest (err_code e))
      end
  end.

Definition createOrganization (name plan : string) (slug : option jsval) (now : Z)
    : M AccountStore Organization :=
  slug ← lift (organizationSlugForCreate name slug);
  let org := mkOrganization (stableId "org" [JStr (str_or slug name)]) name slug plan now in
  s ← get;
  _ ← lift (match map_get (org_id org) (organizations s) with
            | Some existing => throw_if (negb (bool_decide (org_slug existing = slug)))
                                 (conflict "organization_identity_collision")
            | None => Ok tt
            end);
  _ ← modify (fun s => s <| organizations := map_set (org_id org) org (organizations s) |>);
  _ ← audit "system" "organization:create" "organization" (org_id org)
        (JObj [("slug", JStr slug); ("plan", JStr plan)]) now;
  mret org.

Definition findOrganizationBySlug (slug : jsval) (s : AccountStore) : option Organization :=
  let normalized := slugify_default slug in
  js_find (fun o => org_slug o = normalized) (map_values (organizations s)).

(** *** Authenticated creation ([organization-creation.ts]) *)

Definition OrganizationCreationError (code : string) (status : Z) : jserror :=
  JsError "OrganizationCreationError" code (Some status).

Record ParsedOrganizationCreate := { poc_actorUserId : string; poc_name : string; poc_slug : string }.

Definition parseAuthenticatedOrganizationCreateInput (input : jsval) : result ParsedOrganizationCreate :=
  _ ← throw_if (existsb (fun key => negb (bool_decide (key ∈ ["actorUserId"; "name"; "slug"]))) (obj_keys input))
        (OrganizationCreationError "organization_creation_input_invalid" 400);
  let actorUserId := trim (string_or_empty (field "actorUserId" input)) in
  _ ← throw_if (str_empty actorUserId) (OrganizationCreationError "organization_creation_auth_required" 401);
  let name := trim (string_or_empty (field "name" input)) in
  _ ← throw_if (str_empty name || (128 <? str_length name)%Z || (256 <? utf8_length name)%Z)
        (OrganizationCreationError "organization_name_invalid" 400);
  match parseOrganizationRouteSlug (field "slug" input) with
  | Throw e => Throw (OrganizationCreationError (err_code e) 400)
  | Ok slug => Ok {| poc_actorUserId := actorUserId; poc_name := name; poc_slug := slug |}
  end.

(** A ban is in force unless it names an expiry that has passed. *)
Definition ban_active (u : User) (now : Z) : bool :=
  match u_bannedAt u with
  | None => false
  | Some _ =>
      match u_banExpiresAt u with
      | None => true
      | Some d => match getTime d with None => true | Some t => (now <? t)%Z end
      end
  end.

Definition assertOrganizationCreatorEligible (user : option User) (now : Z) : result User :=
  match user with
  | None => Throw (OrganizationCreationError "organization_creation_auth_required" 401)
  | Some u =>
      _ ← throw_if (bool_decide (u_emailVerifiedAt u = None)) (OrganizationCreationError "email_not_verified" 403);
      _ ← throw_if (negb (bool_decide (toUpperCase (str_or (u_approvalStatus u) "PENDING") = "APPROVED")))
            (OrganizationCreationError "account_not_approved" 403);
      _ ← throw_if (ban_active u now) (OrganizationCreationError "account_banned" 403);
      Ok u
  end.

(** The body of the [try] does not throw once the guards passed, so the
    restoring [catch] never runs. *)
Definition createOrganizationForUser (input : jsval) (now : Z) : M AccountStore (Organization * Member) :=
  parsed ← lift (parseAuthenticatedOrganizationCreateInput input);
  s ← get;
  user ← lift (assertOrganizationCreatorEligible (map_get (poc_actorUserId parsed) (users s)) now);
  _ ← lift (throw_if (existsb (fun o => bool_decide (org_slug o = poc_slug parsed)) (map_values (organizations s)))
              (OrganizationCreationError "organization_slug_already_exists" 409));
  let organization := mkOrganization (stableId "org" [JStr (poc_slug parsed)]) (poc_name parsed) (poc_slug parsed) "free" now in
  let membership := mkMember (org_id organization) (poc_actorUserId parsed) "OWNER" (Some now) None None in
  _ ← modify (fun s => s <| organizations := map_set (org_id organization) organization (organizations s) |>
                         <| members := members s ++ [membership] |>
                         <| users := map_set (poc_actorUserId parsed)
                                       (user <| u_sessionVersion := (u_sessionVersion user + 1)%Z |>
                                             <| u_updatedAt := now |>) (users s) |>);
  _ ← audit (poc_actorUserId parsed) "organization:create" "organization" (org_id organization)
        (JObj [("slug", JStr (poc_slug parsed))]) now;
  mret (organization, membership).

(** ** Users *)

(** The destructured input of [createUser]; optional fields carry the
    parameter defaults already. [emailVerifiedAt] is [None] when the property
    is [undefined]. *)
Record CreateUserInput := {
  cu_name : string;
  cu_studentId : string;
  cu_clubMemberClaim : bool;
  cu_email : string;
  cu_githubId : option string;
  cu_passwordHash : option string;
  cu_role : string;
  cu_accountType : jsval;
  cu_approvalStatus : string;
  cu_avatarUrl : option string;
  cu_emailVerifiedAt : option (option Z);
  cu_bannedAt : option Z;
  cu_banExpiresAt : option jsdate;
  cu_banReason : option string;
  cu_bannedByUserId : option string
}.

(** [existing?.f ?? v] *)
Definition existing_or {A} (existing : option User) (f : User -> option A) (v : option A) : option A :=
  match existing with
  | Some e => match f e with Some x => Some x | None => v end
  | None => v
  end.

Definition createUser (i : CreateUserInput) (now : Z) : M AccountStore PublicUser :=
  let id := stableId "usr" [JStr (str_or (cu_email i) (cu_name i))] in
  s ← get;
  let existing := map_get id (users s) in
  let email := toLowerCase (cu_email i) in
  _ ← lift (match existing with
            | Some e => throw_if (negb (bool_decide (u_email e = email))) (conflict "user_identity_collision")
            | None => Ok tt
            end);
  let passwordChanged :=
    match existing, cu_passwordHash i with
    | Some e, Some h => negb (str_empty h) && negb (bool_decide (Some h = u_passwordHash e))
    | _, _ => false
    end in
  accountType ← lift (normalizeAccountType (cu_accountType i) "NON_CLUB");
  let user := {|
    u_id := id; u_name := cu_name i; u_studentId := cu_studentId i;
    u_clubMemberClaim := cu_clubMemberClaim i; u_email := email; u_avatarUrl := cu_avatarUrl i;
    u_githubId := cu_githubId i; u_passwordHash := cu_passwordHash i; u_role := cu_role i;
    u_accountType := accountType; u_approvalStatus := cu_approvalStatus i;
    u_sessionVersion := (match existing with Some e => u_sessionVersion e | None => 0 end
                         + if passwordChanged then 1 else 0)%Z;
    u_bannedAt := existing_or existing u_bannedAt (cu_bannedAt i);
    u_banExpiresAt := existing_or existing u_banExpiresAt (cu_banExpiresAt i);
    u_banReason := existing_or existing u_banReason (cu_banReason i);
    u_bannedByUserId := existing_or existing u_bannedByUserId (cu_bannedByUserId i);
    u_emailVerifiedAt := match cu_emailVerifiedAt i with None => Some now | Some v => v end;
    u_createdAt := now; u_updatedAt := now
  |} in
  _ ← modify (fun s => s <| users := map_set id user (users s) |>);
  mret (redactUser user).

Definition findUserByEmail (email : string) (s : AccountStore) : option User :=
  let normalized := toLowerCase email in
  js_find (fun u => u_email u = normalized) (map_values (users s)).

(** [limit] is the requested limit as a number. *)
Definition countUsers (limit : jsnum) (s : AccountStore) : Z :=
  let boundedLimit :=
    match limit with
    | NInt z => if safe_integer z then Z.max 1 (Z.min z 100) else 1
    | NFrac _ q => let z := Qround.Qfloor q in
                   if safe_integer z then Z.max 1 (Z.min z 100) else 1
    | _ => 1
    end%Z in
  Z.min (Z.of_nat (length (users s))) boundedLimit.

Definition findUserById (userId : string) (s : AccountStore) : option User := map_get userId (users s).

(** [this.users.get(userId)] or throw. *)
Definition require_user (userId : string) : M AccountStore User :=
  s ← get;
  lift (match map_get userId (users s) with
        | Some u => Ok u
        | None => Throw (notFound ("user not found: " +:+ userId))
        end).

(** Writing the fields of a stored user object. *)
Definition store_user (userId : string) (u : User) : M AccountStore unit :=
  modify (fun s => s <| users := map_set userId u (users s) |>).

Definition bump_session (u : User) : User := u <| u_sessionVersion := (u_sessionVersion u + 1)%Z |>.

Definition incrementSessionVersion (userId : string) (now : Z) : M AccountStore PublicUser :=
  user ← require_user userId;
  let user' := bump_session user <| u_updatedAt := now |> in
  _ ← store_user userId user';
  mret (redactUser user').

Definition markUserEmailVerified (userId : string) (verifiedAt now : Z) : M AccountStore PublicUser :=
  user ← require_user userId;
  let user' := user <| u_emailVerifiedAt := Some verifiedAt |> <| u_updatedAt := verifiedAt |> in
  _ ← store_user userId user';
  _ ← audit userId "user.email:verify" "user" userId (JObj []) now;
  mret (redactUser user').

Definition option_text (o : option string) : string := match o with Some s => s | None => "" end.

(** [value || null] for a string field *)
Definition json_or_null (o : option string) : jsval :=
  match o with Some s => if str_empty s then JNull else JStr s | None => JNull end.

Definition findUserByGitHubId (githubId : string) (s : AccountStore) : option User :=
  let id := trim githubId in
  if str_empty id then None
  else js_find (fun u => option_text (u_githubId u) = id) (map_values (users s)).

(** [value !== null && value !== undefined && String(value).trim()] *)
Definition present (o : option string) : option string :=
  match o with Some s => if str_empty (trim s) then None else Some s | None => None end.

Definition linkGitHubUser (userId : string) (githubId avatarUrl name : option string)
    (actorUserId : string) (githubLogin : option string) (now : Z) : M AccountStore PublicUser :=
  user ← require_user userId;
  s ← get;
  let existing := match githubId with
                  | Some g => if str_empty g then None else findUserByGitHubId g s
                  | None => None
                  end in
  _ ← lift (match existing with
            | Some e => throw_if (negb (bool_decide (u_id e = userId)))
                          (forbidden "github account is already linked to another user")
            | None => Ok tt
            end);
  let user1 := match present githubId with Some g => user <| u_githubId := Some g |> | None => user end in
  let user2 := match present avatarUrl with Some a => user1 <| u_avatarUrl := Some a |> | None => user1 end in
  let user3 := match present name with Some n => user2 <| u_name := n |> | None => user2 end in
  let user' := user3 <| u_updatedAt := now |> in
  _ ← store_user userId user';
  _ ← audit actorUserId "user.github:link" "user" userId
        (JObj [("githubId", json_or_null (u_githubId user')); ("githubLogin", json_or_null githubLogin)]) now;
  mret (redactUser user').

(** ** Approval and bans *)

Definition DEFAULT_QUOTA_LIMITS : jsmap Z :=
  [("maxProjects", 1); ("maxServices", 2); ("maxDeploymentsPerDay", 3); ("maxPreviewDeployments", 1);
   ("maxCpuMillicores", 500); ("maxMemoryMb", 512); ("maxDbStorageMb", 512); ("maxObjectStorageMb", 1024);
   ("maxBuildMinutesPerMonth", 60); ("maxRuntimeHoursPerMonth", 120)]%Z.

Definition setQuota (userId : string) (accountType : jsval) (limits : list (string * Z)) (now : Z)
    : M AccountStore QuotaRow :=
  normalizedAccountType ← lift (normalizeAccountType accountType "NON_CLUB");
  let id := stableId "quota" [JStr userId; JStr normalizedAccountType] in
  s ← get;
  let row := {|
    q_id := id; q_userId := userId; q_accountType := normalizedAccountType;
    q_limits := foldl (fun m kv => map_set kv.1 kv.2 m) DEFAULT_QUOTA_LIMITS limits;
    q_createdAt := match map_get id (quotas s) with Some q => q_createdAt q | None => now end;
    q_updatedAt := now
  |} in
  _ ← modify (fun s => s <| quotas := map_set id row (quotas s) |>);
  _ ← audit "system" "quota:set" "user" userId
        (JObj [("accountType", JStr normalizedAccountType);
               ("limits", JObj (map (fun kv : string * Z => (kv.1, JNum (NInt kv.2))) limits))]) now;
  mret row.

Definition approveUser (userId : string) (accountType : jsval) (role : option string) (actorUserId : string)
    (now : Z) : M AccountStore PublicUser :=
  user ← require_user userId;
  nextAccountType ← lift (normalizeAccountType accountType (str_or (u_accountType user) "NON_CLUB"));
  let user1 := bump_session (user <| u_approvalStatus := "APPROVED" |>) <| u_accountType := nextAccountType |> in
  let user2 := match role with
               | Some r => if str_empty r then user1 else user1 <| u_role := r |>
               | None => user1
               end in
  let user' := user2 <| u_updatedAt := now |> in
  _ ← store_user userId user';
  _ ← (if bool_decide (nextAccountType = "NON_CLUB")
       then _ ← setQuota userId (JStr nextAccountType) [] now; mret tt
       else mret tt);
  _ ← audit actorUserId "user:approve" "user" userId (JObj [("accountType", JStr nextAccountType)]) now;
  mret (redactUser user').

Definition rejectUser (userId actorUserId : string) (now : Z) : M AccountStore PublicUser :=
  user ← require_user userId;
  let user' := bump_session (user <| u_approvalStatus := "REJECTED" |>) <| u_updatedAt := now |> in
  _ ← store_user userId user';
  _ ← audit actorUserId "user:reject" "user" userId (JObj []) now;
  mret (redactUser user').

Definition normalizeBanReason (value : jsval) : result string :=
  let reason := trim (string_or_empty value) in
  _ ← throw_if (str_empty reason || (500 <? str_length reason)%Z)
        (badRequest "ban reason must be between 1 and 500 characters");
  Ok reason.

(** [value] is [None] for [undefined], [null] and blank text. *)
Definition normalizeBanExpiresAt (value : option jsdate) (now : Z) : result (option jsdate) :=
  match value with
  | None => Ok None
  | Some d =>
      match getTime d with
      | Some t => if (t <=? now)%Z then Throw (badRequest "ban expiration must be a valid future date")
                  else Ok (Some (At t))
      | None => Throw (badRequest "ban expiration must be a valid future date")
      end
  end.

Definition json_date (d : option jsdate) : jsval :=
  match d with Some (At t) => JNum (NInt t) | Some BadDate => JStr "" | None => JNull end.

Definition banUser (userId : string) (actor : option string) (reason : jsval) (expires : option jsdate)
    (now : Z) : M AccountStore PublicUser :=
  user ← require_user userId;
  let actorUserId := str_or (option_text actor) "system" in
  _ ← lift (throw_if (bool_decide (actorUserId = userId)) (forbidden "administrators cannot ban themselves"));
  reason ← lift (normalizeBanReason reason);
  expiresAt ← lift (normalizeBanExpiresAt expires now);
  let user' :=
    bump_session (user <| u_bannedAt := Some now |> <| u_banExpiresAt := expiresAt |>
                       <| u_banReason := Some reason |>
                       <| u_bannedByUserId := if bool_decide (actorUserId = "system") then None else Some actorUserId |>)
      <| u_updatedAt := now |> in
  _ ← store_user userId user';
  _ ← audit actorUserId "user:ban" "user" userId
        (JObj [("reason", JStr reason); ("expiresAt", json_date expiresAt);
               ("permanent", JBool (bool_decide (expiresAt = None)))]) now;
  mret (redactUser user').

Definition unbanUser (userId : string) (actor : option string) (now : Z) : M AccountStore PublicUser :=
  user ← require_user userId;
  let actorUserId := str_or (option_text actor) "system" in
  let user' :=
    bump_session (user <| u_bannedAt := None |> <| u_banExpiresAt := None |> <| u_banReason := None |>
                       <| u_bannedByUserId := None |>) <| u_updatedAt := now |> in
  _ ← store_user userId user';
  _ ← audit actorUserId "user:unban" "user" userId (JObj []) now;
  mret (redactUser user').

(** [isActiveBan] of the store. *)
Definition isActiveBan (user : User) (now : Z) : bool := ban_active user now.

(** ** Members *)

Definition raw_role (m : Member) : jsval := JStr (m_role m).

Definition is_owner (organizationId : string) (m : Member) : Prop :=
  m_organizationId m = organizationId /\ normalizeOrganizationRoleForRead (raw_role m) = Some OWNER.

#[export] Instance is_owner_dec o m : Decision (is_owner o m).
Proof. unfold is_owner. apply _. Defined.

Definition ownerCount (s : AccountStore) (organizationId : string) : Z :=
  Z.of_nat (length (filter (is_owner organizationId) (members s))).

Definition is_member (organizationId userId : string) (m : Member) : Prop :=
  m_organizationId m = organizationId /\ m_userId m = userId.

#[export] Instance is_member_dec o u m : Decision (is_member o u m).
Proof. unfold is_member. apply _. Defined.

(** Replace or drop the member at a position. *)
Definition set_member (i : nat) (m : Member) (s : AccountStore) : AccountStore :=
  s <| members := <[i := m]> (members s) |>.
Definition splice_member (i : nat) (s : AccountStore) : AccountStore :=
  s <| members := delete i (members s) |>.

(** [if (this.users.has(userId)) this.incrementSessionVersion(userId)] *)
Definition bump_if_present (userId : string) (now : Z) : M AccountStore unit :=
  s ← get;
  if map_has userId (users s) then _ ← incrementSessionVersion userId now; mret tt else mret tt.

(** [typeof role === 'string' && role === role.toLowerCase() ? role : canonical] *)
Definition stored_role (role : jsval) (canonical : OrganizationMembershipRole) : string :=
  match role with
  | JStr r => if bool_decide (r = toLowerCase r) then r else role_string canonical
  | _ => role_string canonical
  end.

Definition transition_error (t : MembershipRoleTransitionResult) : option jserror :=
  match t with
  | Transition _ => None
  | Membership_role_invalid => Some (badRequest "membership_role_invalid")
  | Membership_role_transition_forbidden => Some (forbidden "membership_role_transition_forbidden")
  | Membership_last_owner => Some (conflict "membership_last_owner")
  end.

(** [actorRole] is [None] when it is [undefined]. *)
Definition addMember (organizationId userId : string) (role : jsval) (actorRole : option jsval) (now : Z)
    : M AccountStore Member :=
  canonical ← lift (match parseOrganizationMembershipRoleForMutation role with
                    | Ok r => Ok r
                    | Throw e => Throw (badRequest (err_code e))
                    end);
  let storedRole := stored_role role canonical in
  s ← get;
  let found := list_find (is_member organizationId userId) (members s) in
  let currentCanonicalRole := match found with
                              | Some (_, e) => normalizeOrganizationRoleForRead (raw_role e)
                              | None => None
                              end in
  let protectCanonicalOwner := bool_decide (currentCanonicalRole = Some OWNER) && bool_decide (canonical <> OWNER) in
  let owners := if protectCanonicalOwner || match actorRole with Some _ => true | None => false end
                then ownerCount s organizationId else 0%Z in
  _ ← lift (match actorRole with
            | None => Ok tt
            | Some actor =>
                let current := match found with
                               | Some (_, e) => JStr (str_or (m_role e) "VIEWER")
                               | None => JStr "VIEWER"
                               end in
                match transition_error (membershipRoleTransition actor (JStr (role_string canonical)) current owners) with
                | Some e => Throw e
                | None => Ok tt
                end
            end);
  match found with
  | Some (i, existing) =>
      _ ← lift (throw_if (protectCanonicalOwner && (owners <=? 1)%Z) (conflict "membership_last_owner"));
      if bool_decide (m_role existing = storedRole) then mret existing
      else
        let existing' := existing <| m_role := storedRole |> <| m_updatedAt := Some now |> in
        _ ← modify (set_member i existing');
        _ ← bump_if_present userId now;
        _ ← audit userId "organization.member:role-change" "organization" organizationId
              (JObj [("role", JStr storedRole)]) now;
        mret existing'
  | None =>
      let member := mkMember organizationId userId storedRole (Some now) None None in
      _ ← modify (fun s => s <| members := members s ++ [member] |>);
      _ ← audit userId "organization.member:add" "organization" organizationId
            (JObj [("role", JStr storedRole)]) now;
      mret member
  end.

Definition removeMember (organizationId userId : string) (now : Z) : M AccountStore (option Member) :=
  s ← get;
  match list_find (is_member organizationId userId) (members s) with
  | None => mret None
  | Some (index, member) =>
      _ ← lift (throw_if (bool_decide (normalizeOrganizationRoleForRead (raw_role member) = Some OWNER)
                          && (ownerCount s organizationId <=? 1)%Z) (conflict "membership_last_owner"));
      _ ← modify (splice_member index);
      _ ← bump_if_present userId now;
      _ ← audit userId "organization.member:remove" "organization" organizationId
            (JObj [("role", JStr (m_role member))]) now;
      mret (Some member)
  end.

Definition listMembershipsForUser (userId : string) (s : AccountStore) : list Member :=
  filter (fun m => m_userId m = userId) (members s).

(** ** What the operations leave alone *)

Lemma frame_audit {T} (proj : AccountStore -> T) a b c d e now :
  (forall s l, proj (s <| auditLogs := l |>) = proj s) -> frame proj (audit a b c d e now).
Proof. intros H. apply frame_modify. intros s. apply H. Qed.

Lemma frame_store_user {T} (proj : AccountStore -> T) k u :
  (forall s l, proj (s <| users := l |>) = proj s) -> frame proj (store_user k u).
Proof. intros H. apply frame_modify. intros s. apply H. Qed.

Lemma frame_require_user {T} (proj : AccountStore -> T) k : frame proj (require_user k).
Proof. unfold require_user. solve_frame. Qed.

#[export] Hint Resolve frame_require_user : raibit.
#[export] Hint Extern 2 (frame _ (audit _ _ _ _ _ _)) => apply frame_audit; intros; reflexivity : raibit.
#[export] Hint Extern 2 (frame _ (store_user _ _)) => apply frame_store_user; intros; reflexivity : raibit.

Lemma frame_incrementSessionVersion {T} (proj : AccountStore -> T) k now :
  (forall s l, proj (s <| users := l |>) = proj s) -> frame proj (incrementSessionVersion k now).
Proof. intros H. unfold incrementSessionVersion. solve_frame. by apply frame_store_user. Qed.

#[export] Hint Extern 2 (frame _ (incrementSessionVersion _ _)) =>
  apply frame_incrementSessionVersion; intros; reflexivity : raibit.

Lemma frame_bump_if_present {T} (proj : AccountStore -> T) k now :
  (forall s l, proj (s <| users := l |>) = proj s) -> frame proj (bump_if_present k now).
Proof.
  intros H. unfold bump_if_present. apply frame_bind; [apply frame_get|intros s].
  apply frame_if; [|apply frame_ret].
  apply frame_bind; [by apply frame_incrementSessionVersion|intros; apply frame_ret].
Qed.

#[export] Hint Extern 2 (frame _ (bump_if_present _ _)) =>
  apply frame_bump_if_present; intros; reflexivity : raibit.

(** The operations on accounts never touch the member list. *)
Lemma account_operations_frame_members :
  (forall name plan slug now, frame members (createOrganization name plan slug now))
  /\ (forall i now, frame members (createUser i now))
  /\ (forall k now, frame members (incrementSessionVersion k now))
  /\ (forall k v now, frame members (markUserEmailVerified k v now))
  /\ (forall k g a n act l now, frame members (linkGitHubUser k g a n act l now))
  /\ (forall k t r a now, frame members (approveUser k t r a now))
  /\ (forall k a now, frame members (rejectUser k a now))
  /\ (forall k a r e now, frame members (banUser k a r e now))
  /\ (forall k a now, frame members (unbanUser k a now)).
Proof.
  split_and!; intros;
    unfold createOrganization, createUser, markUserEmailVerified, linkGitHubUser, approveUser, setQuota,
      rejectUser, banUser, unbanUser; solve_frame.
Qed.
