(* ===== verification/Membership.v ===== *)
(** * Membership transitions and invites
    ([packages/core/src/membership-transition.ts],
    [membership-transition-memory.ts], [organization-invite.ts],
    [organization-invite-memory.ts])

    Changing, removing and leaving memberships under optimistic versions, and
    the life of an organization invite, over the tables of [Accounts].  SHA-256
    is a parameter. *)

From S2P Require Import Prelude JsString JsVal JsMap Ids Rbac Secrets Identity Accounts.

(** ** The repository interface

    The request handlers of [membership-transition.ts] work against any
    repository; the in-memory store is one. *)

Definition MembershipTransitionError (code : string) (status : Z) : jserror :=
  JsError "MembershipTransitionError" code (Some status).

Record MemberUserView := {
  mu_id : string; mu_email : string; mu_name : option string; mu_avatarUrl : option string
}.

Record OrganizationMemberRecord := {
  om_id : string;
  om_organizationId : string;
  om_userId : string;
  om_role : OrganizationMembershipRole;
  om_version : Z;
  om_createdAt : Z;
  om_user : MemberUserView
}.

Class MembershipTransitionRepository (S : Type) := {
  repo_list : string -> string -> M S (list OrganizationMemberRecord);
  repo_changeRole : string -> string -> string -> OrganizationMembershipRole -> Z -> Z -> M S OrganizationMemberRecord;
  repo_remove : string -> string -> string -> Z -> Z -> M S unit;
  repo_leave : string -> string -> Z -> Z -> M S unit;
  repo_revokeInvite : string -> string -> string -> Z -> M S unit
}.

Definition parseExpectedVersion (value : jsval) : result Z :=
  match as_integer value with
  | Some v => if (v <? 1)%Z then Throw (MembershipTransitionError "MEMBERSHIP_INPUT_INVALID" 400) else Ok v
  | None => Throw (MembershipTransitionError "MEMBERSHIP_INPUT_INVALID" 400)
  end.

Section handlers.
Context {S : Type} `{MembershipTransitionRepository S}.

Definition listOrganizationMembers (organizationId actorUserId : string) : M S (list OrganizationMemberRecord) :=
  repo_list organizationId actorUserId.

Definition changeOrganizationMembershipRole (organizationId membershipId actorUserId : string)
    (role expectedVersion : jsval) (now : Z) : M S OrganizationMemberRecord :=
  let role := parseOrganizationMembershipRoleForMutation role in
  expectedVersion ← lift (parseExpectedVersion expectedVersion);
  match role with
  | Throw _ => raise (MembershipTransitionError "MEMBERSHIP_INPUT_INVALID" 400)
  | Ok role => repo_changeRole organizationId membershipId actorUserId role expectedVersion now
  end.

Definition removeOrganizationMember (organizationId membershipId actorUserId : string)
    (expectedVersion : jsval) (now : Z) : M S unit :=
  expectedVersion ← lift (parseExpectedVersion expectedVersion);
  repo_remove organizationId membershipId actorUserId expectedVersion now.

Definition leaveOrganization (organizationId actorUserId : string) (expectedVersion : jsval) (now : Z) : M S unit :=
  expectedVersion ← lift (parseExpectedVersion expectedVersion);
  repo_leave organizationId actorUserId expectedVersion now.

Definition revokeOrganizationInvite (organizationId inviteId actorUserId : string) (now : Z) : M S unit :=
  repo_revokeInvite organizationId inviteId actorUserId now.
End handlers.

Definition requireMembershipTransitionAuthority (actorRole currentRole targetRole : OrganizationMembershipRole)
    : result unit :=
  if bool_decide (actorRole = OWNER) then Ok tt
  else if bool_decide (actorRole = ADMIN) && bool_decide (currentRole <> OWNER) && bool_decide (targetRole <> OWNER)
  then Ok tt
  else Throw (MembershipTransitionError "MEMBERSHIP_FORBIDDEN" 403).

Definition requireMembershipRemovalAuthority (actorRole targetRole : OrganizationMembershipRole) : result unit :=
  if bool_decide (actorRole = OWNER) then Ok tt
  else if bool_decide (actorRole = ADMIN) && bool_decide (targetRole <> OWNER) then Ok tt
  else Throw (MembershipTransitionError "MEMBERSHIP_FORBIDDEN" 403).

(** ** The in-memory repository *)

Section memory.
Context (sha256_hex : string -> string).

(** [`mem_${sha256(`${organizationId}:${userId}`).hex.slice(0, 24)}`] *)
Definition memoryMembershipId (organizationId userId : string) : string :=
  "mem_" +:+ slice0 24 (sha256_hex (organizationId +:+ ":" +:+ userId)).

Definition member_id (m : Member) : string := memoryMembershipId (m_organizationId m) (m_userId m).

Definition not_found : jserror := MembershipTransitionError "MEMBERSHIP_NOT_FOUND" 404.

(** The position of the member is kept: the code mutates the row it found. *)
Definition requireOrganizationMember (s : AccountStore) (organizationId userId : string) : result (nat * Member) :=
  if map_has organizationId (organizations s)
  then match list_find (is_member organizationId userId) (members s) with
       | Some im => Ok im
       | None => Throw not_found
       end
  else Throw not_found.

Definition has_membership_id (organizationId membershipId : string) (m : Member) : Prop :=
  m_organizationId m = organizationId /\ member_id m = membershipId.

#[export] Instance has_membership_id_dec o i m : Decision (has_membership_id o i m).
Proof. unfold has_membership_id. apply _. Defined.

Definition findMemoryMembership (s : AccountStore) (organizationId membershipId : string) : result (nat * Member) :=
  match list_find (has_membership_id organizationId membershipId) (members s) with
  | Some im => Ok im
  | None => Throw not_found
  end.

Definition canonicalRole (value : jsval) : result OrganizationMembershipRole :=
  match normalizeOrganizationRoleForRead value with Some r => Ok r | None => Throw not_found end.

Definition member_version (m : Member) : Z := match m_version m with Some v => v | None => 1 end.

Definition memoryMemberView (s : AccountStore) (m : Member) : result OrganizationMemberRecord :=
  match map_get (m_userId m) (users s) with
  | None => Throw not_found
  | Some user =>
      role ← canonicalRole (raw_role m);
      Ok {| om_id := member_id m; om_organizationId := m_organizationId m; om_userId := m_userId m;
            om_role := role; om_version := member_version m;
            om_createdAt := match m_createdAt m with Some t => t | None => 0 end;
            om_user := {| mu_id := u_id user; mu_email := u_email user; mu_name := Some (u_name user);
                          mu_avatarUrl := u_avatarUrl user |} |}
  end.

Fixpoint mapM_result {A B} (f : A -> result B) (l : list A) : result (list B) :=
  match l with
  | [] => Ok []
  | x :: l' => y ← f x; ys ← mapM_result f l'; Ok (y :: ys)
  end.

Definition listMemoryOrganizationMembers (organizationId actorUserId : string)
    : M AccountStore (list OrganizationMemberRecord) :=
  s ← get;
  _ ← lift (requireOrganizationMember s organizationId actorUserId);
  lift (mapM_result (memoryMemberView s) (filter (fun m => m_organizationId m = organizationId) (members s))).

Definition role_json (r : OrganizationMembershipRole) : jsval := JStr (role_string r).

Definition changeMemoryOrganizationMembershipRole (organizationId membershipId actorUserId : string)
    (role : OrganizationMembershipRole) (expectedVersion now : Z) : M AccountStore OrganizationMemberRecord :=
  s ← get;
  actor ← lift (requireOrganizationMember s organizationId actorUserId);
  target ← lift (findMemoryMembership s organizationId membershipId);
  actorRole ← lift (canonicalRole (raw_role actor.2));
  currentRole ← lift (canonicalRole (raw_role target.2));
  _ ← lift (requireMembershipTransitionAuthority actorRole currentRole role);
  let version := member_version target.2 in
  _ ← lift (throw_if (negb (version =? expectedVersion)%Z) (MembershipTransitionError "STALE_MEMBERSHIP" 409));
  if bool_decide (currentRole = role) then lift (memoryMemberView s target.2)
  else
    _ ← lift (throw_if (bool_decide (currentRole = OWNER) && bool_decide (role <> OWNER)
                        && (ownerCount s organizationId <=? 1)%Z) (MembershipTransitionError "LAST_OWNER" 409));
    let target' := target.2 <| m_role := role_string role |> <| m_version := Some (version + 1)%Z |> in
    _ ← modify (set_member target.1 target');
    _ ← incrementSessionVersion (m_userId target') now;
    _ ← audit actorUserId "organization.member:role-change" "membership" membershipId
          (JObj [("organizationId", JStr organizationId); ("role", role_json role);
                 ("version", JNum (NInt (version + 1)))]) now;
    s' ← get;
    lift (memoryMemberView s' target').

Definition removeMemoryOrganizationMember (organizationId membershipId actorUserId : string)
    (expectedVersion now : Z) : M AccountStore unit :=
  s ← get;
  actor ← lift (requireOrganizationMember s organizationId actorUserId);
  target ← lift (findMemoryMembership s organizationId membershipId);
  actorRole ← lift (canonicalRole (raw_role actor.2));
  targetRole ← lift (canonicalRole (raw_role target.2));
  _ ← lift (requireMembershipRemovalAuthority actorRole targetRole);
  let version := member_version target.2 in
  _ ← lift (throw_if (negb (version =? expectedVersion)%Z) (MembershipTransitionError "STALE_MEMBERSHIP" 409));
  _ ← lift (throw_if (bool_decide (targetRole = OWNER) && (ownerCount s organizationId <=? 1)%Z)
              (MembershipTransitionError "LAST_OWNER" 409));
  _ ← modify (splice_member target.1);
  _ ← incrementSessionVersion (m_userId target.2) now;
  audit actorUserId "organization.member:remove" "membership" membershipId
    (JObj [("organizationId", JStr organizationId); ("role", role_json targetRole)]) now.

Definition leaveMemoryOrganization (organizationId actorUserId : string) (expectedVersion now : Z)
    : M AccountStore unit :=
  s ← get;
  target ← lift (requireOrganizationMember s organizationId actorUserId);
  let version := member_version target.2 in
  _ ← lift (throw_if (negb (version =? expectedVersion)%Z) (MembershipTransitionError "STALE_MEMBERSHIP" 409));
  targetRole ← lift (canonicalRole (raw_role target.2));
  _ ← lift (throw_if (bool_decide (targetRole = OWNER) && (ownerCount s organizationId <=? 1)%Z)
              (MembershipTransitionError "LAST_OWNER" 409));
  let membershipId := member_id target.2 in
  _ ← modify (splice_member target.1);
  _ ← incrementSessionVersion actorUserId now;
  audit actorUserId "organization.member:leave" "membership" membershipId
    (JObj [("organizationId", JStr organizationId)]) now.

(** ** Invites *)

Definition invite_pending (i : OrganizationInviteRecord) : Prop :=
  inv_acceptedAt i = None /\ inv_revokedAt i = None.

#[export] Instance invite_pending_dec i : Decision (invite_pending i).
Proof. unfold invite_pending. apply _. Defined.

Definition set_invite (k : nat) (i : OrganizationInviteRecord) (s : AccountStore) : AccountStore :=
  s <| organizationInvites := <[k := i]> (organizationInvites s) |>.

Definition revokeMemoryOrganizationInvite (organizationId inviteId actorUserId : string) (now : Z)
    : M AccountStore unit :=
  s ← get;
  actor ← lift (requireOrganizationMember s organizationId actorUserId);
  match list_find (fun i => inv_id i = inviteId /\ inv_organizationId i = organizationId /\ invite_pending i)
          (organizationInvites s) with
  | None => raise (MembershipTransitionError "INVITE_NOT_FOUND" 404)
  | Some (index, invite) =>
      actorRole ← lift (canonicalRole (raw_role actor.2));
      _ ← lift (requireMembershipRemovalAuthority actorRole (inv_role invite));
      _ ← modify (set_invite index (invite <| inv_revokedAt := Some now |>));
      audit actorUserId "organization.invite:revoked" "organization-invite" inviteId
        (JObj [("organizationId", JStr organizationId); ("role", role_json (inv_role invite))]) now
  end.

Definition OrganizationInviteError (code : string) (status : Z) : jserror :=
  JsError "OrganizationInviteError" code (Some status).

Definition invite_forbidden : jserror := OrganizationInviteError "organization_invite_forbidden" 403.

(** [targetRole] is [None] when the parameter is omitted. *)
Definition requireInviter (s : AccountStore) (organizationId actorUserId : string)
    (targetRole : option OrganizationMembershipRole) : result unit :=
  if negb (map_has organizationId (organizations s)) then Throw invite_forbidden
  else
    let actorRole := match js_find (is_member organizationId actorUserId) (members s) with
                     | Some m => normalizeOrganizationRoleForRead (raw_role m)
                     | None => None
                     end in
    throw_if ((negb (bool_decide (actorRole = Some OWNER)) && negb (bool_decide (actorRole = Some ADMIN)))
              || (bool_decide (actorRole = Some ADMIN) && bool_decide (targetRole = Some OWNER)))
      invite_forbidden.

Record ReplaceOrganizationInviteInput := {
  roi_id : string; roi_organizationId : string; roi_email : string; roi_role : OrganizationMembershipRole;
  roi_tokenHash : string; roi_invitedByUserId : string; roi_expiresAt : Z; roi_createdAt : Z
}.

Definition same_invitee (organizationId email : string) (i : OrganizationInviteRecord) : Prop :=
  inv_organizationId i = organizationId /\ inv_email i = email.

#[export] Instance same_invitee_dec o e i : Decision (same_invitee o e i).
Proof. unfold same_invitee. apply _. Defined.

(** [(versions.length ? Math.max(...versions) : 0) + 1] *)
Definition next_token_version (versions : list Z) : Z :=
  ((match versions with [] => 0 | v :: vs => foldl Z.max v vs end) + 1)%Z.

Definition revoke_pending (organizationId email : string) (at_ : Z) (i : OrganizationInviteRecord)
    : OrganizationInviteRecord :=
  if decide (same_invitee organizationId email i /\ invite_pending i) then i <| inv_revokedAt := Some at_ |> else i.

Definition replaceMemoryOrganizationInvite (input : ReplaceOrganizationInviteInput) (now : Z)
    : M AccountStore OrganizationInviteRecord :=
  s ← get;
  _ ← lift (requireInviter s (roi_organizationId input) (roi_invitedByUserId input) (Some (roi_role input)));
  let versions := inv_tokenVersion <$> filter (same_invitee (roi_organizationId input) (roi_email input)) (organizationInvites s) in
  let tokenVersion := next_token_version versions in
  let invite := {|
    inv_id := roi_id input; inv_organizationId := roi_organizationId input; inv_email := roi_email input;
    inv_role := roi_role input; inv_tokenHash := roi_tokenHash input; inv_tokenVersion := tokenVersion;
    inv_invitedByUserId := roi_invitedByUserId input; inv_expiresAt := roi_expiresAt input;
    inv_acceptedAt := None; inv_revokedAt := None; inv_createdAt := roi_createdAt input
  |} in
  _ ← modify (fun s => s <| organizationInvites :=
        (revoke_pending (roi_organizationId input) (roi_email input) (roi_createdAt input) <$> organizationInvites s)
        ++ [invite] |>);
  _ ← audit (roi_invitedByUserId input) "organization.invite:created" "organization-invite" (roi_id input)
        (JObj [("organizationId", JStr (roi_organizationId input)); ("role", role_json (roi_role input));
               ("tokenVersion", JNum (NInt tokenVersion))]) now;
  mret invite.

Definition revokeMemoryOrganizationInviteAfterDeliveryFailure (id : string) (revokedAt now : Z) : M AccountStore unit :=
  s ← get;
  match list_find (fun i => inv_id i = id /\ invite_pending i) (organizationInvites s) with
  | None => mret tt
  | Some (index, invite) =>
      _ ← modify (set_invite index (invite <| inv_revokedAt := Some revokedAt |>));
      audit (inv_invitedByUserId invite) "organization.invite:delivery-failed" "organization-invite" id
        (JObj [("organizationId", JStr (inv_organizationId invite))]) now
  end.

Inductive OrganizationInviteAcceptance : Type :=
| Accepted (organizationId : string) (role : OrganizationMembershipRole)
| Already_member.

Definition invite_usable (tokenHash : string) (now : Z) (i : OrganizationInviteRecord) : Prop :=
  inv_tokenHash i = tokenHash /\ invite_pending i /\ (now < inv_expiresAt i)%Z.

#[export] Instance invite_usable_dec t n i : Decision (invite_usable t n i).
Proof. unfold invite_usable. apply _. Defined.

Definition acceptMemoryOrganizationInvite (tokenHash userId : string) (now : Z)
    : M AccountStore (option OrganizationInviteAcceptance) :=
  s ← get;
  match list_find (invite_usable tokenHash now) (organizationInvites s), map_get userId (users s) with
  | Some (index, invite), Some user =>
      if bool_decide (u_emailVerifiedAt user = None) || negb (bool_decide (u_email user = inv_email invite))
      then mret None
      else
        _ ← modify (set_invite index (invite <| inv_acceptedAt := Some now |>));
        match js_find (is_member (inv_organizationId invite) userId) (members s) with
        | Some _ =>
            _ ← audit userId "organization.invite:accepted-existing-member" "organization-invite" (inv_id invite)
                  (JObj [("organizationId", JStr (inv_organizationId invite))]) now;
            mret (Some Already_member)
        | None =>
            let member := mkMember (inv_organizationId invite) userId (role_string (inv_role invite)) (Some now) None None in
            _ ← modify (fun s => s <| members := members s ++ [member] |>);
            _ ← store_user userId (bump_session user);
            _ ← audit userId "organization.invite:accepted" "organization-invite" (inv_id invite)
                  (JObj [("organizationId", JStr (inv_organizationId invite)); ("role", role_json (inv_role invite))]) now;
            mret (Some (Accepted (inv_organizationId invite) (inv_role invite)))
        end
  | _, _ => mret None
  end.

Definition listMemoryOrganizationInvites (organizationId actorUserId : string)
    : M AccountStore (list OrganizationInviteRecord) :=
  s ← get;
  _ ← lift (requireInviter s organizationId actorUserId None);
  mret (filter (fun i => inv_organizationId i = organizationId) (organizationInvites s)).

#[export] Instance memory_repository : MembershipTransitionRepository AccountStore := {|
  repo_list := listMemoryOrganizationMembers;
  repo_changeRole := changeMemoryOrganizationMembershipRole;
  repo_remove := removeMemoryOrganizationMember;
  repo_leave := leaveMemoryOrganization;
  repo_revokeInvite := revokeMemoryOrganizationInvite
|}.
End memory.
