(* ===== verification/AccountInvariants.v ===== *)
(** * Invariants of the account tables

    What holds in every state the account, membership and invite operations
    can reach: an organization that has an owner keeps one, memberships are
    unique, table keys are row identifiers. *)

From S2P Require Import Prelude JsString JsVal JsMap Ids Rbac Secrets Identity Accounts Membership.

(** ** Effect of each operation on the member list *)

Section effects.
Context (sha256_hex : string -> string).

(** What an operation may do to the member list: nothing; append a member of a
    user that was not one; rewrite the role of a member in place; or drop one.
    Losing an owner requires a second one. *)
Inductive member_effect (s : AccountStore) : list Member -> Prop :=
| effect_none : member_effect s (members s)
| effect_add m :
    js_find (is_member (m_organizationId m) (m_userId m)) (members s) = None ->
    member_effect s (members s ++ [m])
| effect_role i m m' :
    members s !! i = Some m ->
    m_organizationId m' = m_organizationId m -> m_userId m' = m_userId m ->
    (is_owner (m_organizationId m) m -> is_owner (m_organizationId m) m' \/ (1 < ownerCount s (m_organizationId m))%Z) ->
    member_effect s (<[i := m']> (members s))
| effect_drop i m :
    members s !! i = Some m ->
    (is_owner (m_organizationId m) m -> (1 < ownerCount s (m_organizationId m))%Z) ->
    member_effect s (delete i (members s)).

Hint Constructors member_effect : raibit.

Lemma list_find_lookup {A} (P : A -> Prop) `{forall x, Decision (P x)} l i x :
  list_find P l = Some (i, x) -> l !! i = Some x /\ P x.
Proof. intros H'%list_find_Some. tauto. Qed.

Lemma list_find_js_None {A} (P : A -> Prop) `{forall x, Decision (P x)} l :
  list_find P l = None -> js_find P l = None.
Proof. unfold js_find. by intros ->. Qed.

Lemma stored_role_reads role r :
  parseOrganizationMembershipRoleForMutation role = Ok r ->
  normalizeOrganizationRoleForRead (JStr (stored_role role r)) = Some r.
Proof.
  intros H. apply parse_mutation_Ok in H as H'. unfold stored_role.
  destruct role; try apply normalize_role_string.
  case_bool_decide; [done|apply normalize_role_string].
Qed.

(** Drop the rest of a body that leaves the member list alone. *)
Ltac frame_tail :=
  match goal with
  | |- context [members (?m ?st).2] =>
      let H := fresh in assert (H : frame members m) by solve_frame; rewrite (H st); clear H
  end.

Lemma addMember_effect o u role actor now s :
  member_effect s (members (addMember o u role actor now s).2).
Proof.
  unfold addMember. step_once; [|constructor]. step_once.
  destruct (list_find (is_member o u) (members s)) as [[i e]|] eqn:Hf.
  - apply list_find_lookup in Hf as [Hi [Ho Hu]].
    step_once; [|constructor]. step_once; [|constructor].
    apply throw_if_Ok in E1.
    destruct (bool_decide (m_role e = _)); [constructor|].
    rewrite run_modify. frame_tail. cbn [members set_member update_field].
    apply effect_role with e; [done|done|done|]. rewrite Ho.
    intros [_ Hown]. rewrite Hown in E1.
    destruct (decide (a = OWNER)) as [->|Hne].
    + left. split; [done|]. cbn. apply stored_role_reads.
      destruct (parseOrganizationMembershipRoleForMutation role); congruence.
    + right. settle_guard E1. lia.
  - step_once; [|constructor]. rewrite run_modify. frame_tail. cbn.
    apply effect_add. cbn. by apply list_find_js_None.
Qed.

Lemma removeMember_effect o u now s :
  member_effect s (members (removeMember o u now s).2).
Proof.
  unfold removeMember. step_once.
  destruct (list_find (is_member o u) (members s)) as [[i e]|] eqn:Hf; [|constructor].
  apply list_find_lookup in Hf as [Hi [Ho Hu]].
  step_once; [|constructor]. apply throw_if_Ok in E.
  rewrite run_modify. frame_tail. cbn.
  apply effect_drop with e; [done|]. rewrite Ho. intros [_ Hown].
  rewrite Hown in E. settle_guard E. lia.
Qed.

(** The membership an authenticated organization creation adds. *)
Definition created_member (parsed : ParsedOrganizationCreate) (now : Z) : Member :=
  mkMember (stableId "org" [JStr (poc_slug parsed)]) (poc_actorUserId parsed) "OWNER" (Some now) None None.

Lemma createOrganizationForUser_members input now s :
  members (createOrganizationForUser input now s).2 = members s
  \/ exists parsed, parseAuthenticatedOrganizationCreateInput input = Ok parsed
     /\ members (createOrganizationForUser input now s).2 = members s ++ [created_member parsed now].
Proof.
  unfold createOrganizationForUser.
  step_once; [|by left]. step_once. step_once; [|by left]. step_once; [|by left].
  rewrite run_modify. right. exists a. split; [done|]. frame_tail. reflexivity.
Qed.

Lemma changeMemory_effect o i u role v now s :
  member_effect s (members (changeMemoryOrganizationMembershipRole sha256_hex o i u role v now s).2).
Proof.
  unfold changeMemoryOrganizationMembershipRole. step_once. step_once; [|constructor]. step_once; [|constructor].
  step_once; [|constructor]. step_once; [|constructor]. step_once; [|constructor]. step_once; [|constructor].
  destruct a0 as [k t]. unfold findMemoryMembership in E0.
  destruct (list_find _ (members s)) as [[k' t']|] eqn:Hf; [|done]. injection E0 as -> ->.
  apply list_find_lookup in Hf as [Hk [Ho Hid]]. cbn [fst snd] in *.
  destruct (bool_decide (a2 = role)); [constructor|].
  step_once; [|constructor]. apply throw_if_Ok in E0.
  rewrite run_modify. frame_tail. cbn.
  apply effect_role with t; [done|done|done|]. rewrite Ho. intros [_ Hown].
  unfold canonicalRole in E2. rewrite Hown in E2. injection E2 as <-.
  destruct (decide (role = OWNER)) as [->|Hne]; [left; split; [done|apply (normalize_role_string OWNER)]|].
  right. settle_guard E0. lia.
Qed.

Lemma removeMemory_effect o i u v now s :
  member_effect s (members (removeMemoryOrganizationMember sha256_hex o i u v now s).2).
Proof.
  unfold removeMemoryOrganizationMember. step_once. step_once; [|constructor]. step_once; [|constructor].
  step_once; [|constructor]. step_once; [|constructor]. step_once; [|constructor]. step_once; [|constructor].
  step_once; [|constructor].
  destruct a0 as [k t]. unfold findMemoryMembership in E0.
  destruct (list_find _ (members s)) as [[k' t']|] eqn:Hf; [|done]. injection E0 as -> ->.
  apply list_find_lookup in Hf as [Hk [Ho Hid]]. cbn [fst snd] in *. apply throw_if_Ok in E5.
  rewrite run_modify. frame_tail. cbn.
  apply effect_drop with t; [done|]. rewrite Ho. intros [_ Hown].
  unfold canonicalRole in E2. rewrite Hown in E2. injection E2 as <-. settle_guard E5. lia.
Qed.

Lemma leaveMemory_effect o u v now s :
  member_effect s (members (leaveMemoryOrganization sha256_hex o u v now s).2).
Proof.
  unfold leaveMemoryOrganization. step_once. step_once; [|constructor]. step_once; [|constructor].
  step_once; [|constructor]. step_once; [|constructor].
  destruct a as [k t]. unfold requireOrganizationMember in E.
  destruct (map_has o (organizations s)); [|done].
  destruct (list_find _ (members s)) as [[k' t']|] eqn:Hf; [|done]. injection E as -> ->.
  apply list_find_lookup in Hf as [Hk [Ho Hid]]. cbn [fst snd] in *. apply throw_if_Ok in E2.
  rewrite run_modify. frame_tail. cbn.
  apply effect_drop with t; [done|]. rewrite Ho. intros [_ Hown].
  unfold canonicalRole in E1. rewrite Hown in E1. injection E1 as <-. settle_guard E2. lia.
Qed.

Lemma acceptMemory_effect t u now s :
  member_effect s (members (acceptMemoryOrganizationInvite t u now s).2).
Proof.
  unfold acceptMemoryOrganizationInvite. step_once.
  destruct (list_find (invite_usable t now) (organizationInvites s)) as [[k inv]|]; [|constructor].
  destruct (map_get u (users s)) as [user|]; [|constructor].
  destruct (_ || _); [constructor|]. rewrite run_modify.
  destruct (js_find _ (members s)) eqn:Hf.
  - frame_tail. exact (effect_none s).
  - rewrite run_modify. frame_tail. cbn. by apply effect_add.
Qed.

(** ** Steps *)

(** One operation on the account tables, whatever its input and outcome.
    [admit_create] restricts which authenticated creations are considered. *)
Inductive account_step (admit_create : jsval -> AccountStore -> Prop) (s : AccountStore) : AccountStore -> Prop :=
| step_createOrganization name plan slug now :
    account_step admit_create s (createOrganization name plan slug now s).2
| step_createOrganizationForUser input now :
    admit_create input s ->
    account_step admit_create s (createOrganizationForUser input now s).2
| step_createUser i now : account_step admit_create s (createUser i now s).2
| step_incrementSessionVersion k now : account_step admit_create s (incrementSessionVersion k now s).2
| step_markUserEmailVerified k v now : account_step admit_create s (markUserEmailVerified k v now s).2
| step_linkGitHubUser k g a n act l now : account_step admit_create s (linkGitHubUser k g a n act l now s).2
| step_setQuota k t l now : account_step admit_create s (setQuota k t l now s).2
| step_approveUser k t r a now : account_step admit_create s (approveUser k t r a now s).2
| step_rejectUser k a now : account_step admit_create s (rejectUser k a now s).2
| step_banUser k a r e now : account_step admit_create s (banUser k a r e now s).2
| step_unbanUser k a now : account_step admit_create s (unbanUser k a now s).2
| step_addMember o u r a now : account_step admit_create s (addMember o u r a now s).2
| step_removeMember o u now : account_step admit_create s (removeMember o u now s).2
| step_changeRole o i u r v now :
    account_step admit_create s (changeMemoryOrganizationMembershipRole sha256_hex o i u r v now s).2
| step_remove o i u v now :
    account_step admit_create s (removeMemoryOrganizationMember sha256_hex o i u v now s).2
| step_leave o u v now : account_step admit_create s (leaveMemoryOrganization sha256_hex o u v now s).2
| step_revokeInvite o i u now : account_step admit_create s (revokeMemoryOrganizationInvite o i u now s).2
| step_replaceInvite i now : account_step admit_create s (replaceMemoryOrganizationInvite i now s).2
| step_deliveryFailure i r now :
    account_step admit_create s (revokeMemoryOrganizationInviteAfterDeliveryFailure i r now s).2
| step_acceptInvite t u now : account_step admit_create s (acceptMemoryOrganizationInvite t u now s).2.

Definition any_creation (_ : jsval) (_ : AccountStore) : Prop := True.

(** The creator is not yet a member of an organization with the derived id. *)
Definition fresh_creation (input : jsval) (s : AccountStore) : Prop :=
  forall parsed, parseAuthenticatedOrganizationCreateInput input = Ok parsed ->
    js_find (is_member (stableId "org" [JStr (poc_slug parsed)]) (poc_actorUserId parsed)) (members s) = None.

(** Every step is one member effect, but for a creation that may not be fresh. *)
Lemma account_step_effect P s s' :
  account_step P s s' ->
  member_effect s (members s')
  \/ exists input parsed now, P input s /\ parseAuthenticatedOrganizationCreateInput input = Ok parsed
       /\ members s' = members s ++ [created_member parsed now].
Proof.
  destruct account_operations_frame_members as (F1 & F2 & F3 & F4 & F5 & F6 & F7 & F8 & F9).
  assert (Hq : forall k t l now, frame members (setQuota k t l now)) by (intros; unfold setQuota; solve_frame).
  assert (Hrv : forall o i u now, frame members (revokeMemoryOrganizationInvite o i u now))
    by (intros; unfold revokeMemoryOrganizationInvite; solve_frame).
  assert (Hrp : forall i now, frame members (replaceMemoryOrganizationInvite i now))
    by (intros; unfold replaceMemoryOrganizationInvite; solve_frame).
  assert (Hdf : forall i r now, frame members (revokeMemoryOrganizationInviteAfterDeliveryFailure i r now))
    by (intros; unfold revokeMemoryOrganizationInviteAfterDeliveryFailure; solve_frame).
  destruct 1 as [| |i now| | | | | | | | |o u r a now|o u now|o i u r v now|o i u v now|o u v now| | | |t u now];
    try (left; match goal with |- member_effect _ (members (?m s).2) =>
           assert (Hf : frame members m) by auto; rewrite (Hf s); exact (effect_none s) end).
  - destruct (createOrganizationForUser_members input now s) as [-> |(parsed & Hp & Hm)];
      [left; exact (effect_none s)|right; eauto 6].
  - left. apply addMember_effect.
  - left. apply removeMember_effect.
  - left. apply changeMemory_effect.
  - left. apply removeMemory_effect.
  - left. apply leaveMemory_effect.
  - left. apply acceptMemory_effect.
Qed.

(** ** An organization keeps an owner *)

Lemma member_effect_owner s l o :
  member_effect s l -> (1 <= ownerCount s o)%Z ->
  (1 <= Z.of_nat (length (filter (is_owner o) l)))%Z.
Proof.
  unfold ownerCount. intros [|m Hm|i m m' Hi Ho Hu Hown|i m Hi Hown] Hc; [done|..].
  - rewrite length_filter_snoc. lia.
  - pose proof (length_filter_insert (is_owner o) _ i m m' Hi) as HL.
    destruct (decide (is_owner o m)) as [Hm|Hm]; [|case_decide; lia].
    destruct Hm as [<- Hr]. specialize (Hown (conj eq_refl Hr)).
    destruct Hown as [Hm'|Hgt]; [rewrite decide_True in HL by done; lia|].
    unfold ownerCount in Hgt. case_decide; lia.
  - pose proof (length_filter_delete (is_owner o) _ i m Hi) as HL.
    destruct (decide (is_owner o m)) as [Hm|Hm]; [|lia].
    destruct Hm as [<- Hr]. specialize (Hown (conj eq_refl Hr)). unfold ownerCount in Hown. lia.
Qed.

(** C2. An organization that has an owner has one after any sequence of
    account, membership and invite operations, whoever performs them and
    whether or not they succeed. *)
Theorem organization_keeps_owner o s s' :
  rtc (account_step any_creation) s s' -> (1 <= ownerCount s o)%Z -> (1 <= ownerCount s' o)%Z.
Proof.
  induction 1 as [|s t u Hstep _ IH]; [done|]. intros Hc. apply IH. clear IH.
  apply account_step_effect in Hstep as [He|(input & parsed & now & _ & _ & Hm)].
  - by eapply member_effect_owner.
  - unfold ownerCount in *. rewrite Hm, length_filter_snoc. lia.
Qed.

(** ** Memberships are unique *)

Definition member_key (m : Member) : string * string := (m_organizationId m, m_userId m).

Definition members_unique (l : list Member) : Prop := NoDup (member_key <$> l).

Lemma not_member_key o u l : js_find (is_member o u) l = None -> (o, u) ∉ member_key <$> l.
Proof.
  rewrite js_find_None, Forall_forall. intros H (m & Hk & Hm)%list_elem_of_fmap.
  injection Hk as -> ->. by apply (H m).
Qed.

Lemma members_unique_snoc l m :
  members_unique l -> js_find (is_member (m_organizationId m) (m_userId m)) l = None ->
  members_unique (l ++ [m]).
Proof.
  unfold members_unique. intros Hl Hn%not_member_key. rewrite fmap_app, NoDup_app.
  split_and!; [done| |apply NoDup_singleton]. intros k Hk ->%list_elem_of_singleton. done.
Qed.

Lemma member_effect_unique s l :
  member_effect s l -> members_unique (members s) -> members_unique l.
Proof.
  intros [|m Hm|i m m' Hi Ho Hu _|i m Hi _] Hn; [done|..].
  - by apply members_unique_snoc.
  - unfold members_unique. rewrite list_fmap_insert, list_insert_id; [done|].
    rewrite list_lookup_fmap, Hi. cbn. unfold member_key. by rewrite Ho, Hu.
  - unfold members_unique in *. eapply sublist_NoDup; [exact Hn|].
    apply fmap_sublist, sublist_delete.
Qed.

(** A user has at most one membership in an organization, in every state
    reached by operations that do not create an organization under an id the
    creator already is a member of. *)
Theorem memberships_unique s s' :
  rtc (account_step fresh_creation) s s' -> members_unique (members s) -> members_unique (members s').
Proof.
  induction 1 as [|s t u Hstep _ IH]; [done|]. intros Hn. apply IH. clear IH.
  apply account_step_effect in Hstep as [He|(input & parsed & now & Hf & Hp & ->)].
  - by eapply member_effect_unique.
  - apply members_unique_snoc; [done|]. by apply Hf.
Qed.
End effects.
