(* ===== verification/AccountSafety.v ===== *)
(** * Safety of the account operations

    Sessions are revoked whenever an account's standing changes, identities
    are stable, membership changes need authority and a current version, and
    an invite is good once.  Ends with the identity collision of
    [createOrganizationForUser]. *)

From S2P Require Import Prelude JsString JsVal JsMap Ids Rbac Secrets Identity Accounts Membership AccountInvariants.

(** ** Users only grow *)

Lemma run_require_user {B} k (f : User -> M AccountStore B) s :
  (require_user k ≫= f) s
  = match map_get k (users s) with
    | Some u => f u s
    | None => (Throw (notFound ("user not found: " +:+ k)), s)
    end.
Proof. unfold require_user. unfold mbind, M_bind, get, lift. by destruct (map_get k (users s)). Qed.

Lemma run_store_user {B} k u (f : unit -> M AccountStore B) s :
  (store_user k u ≫= f) s = f tt (s <| users := map_set k u (users s) |>).
Proof. reflexivity. Qed.

(** Every user of [s] is still there in [s'], under the same identity, with a
    session version that did not go back; a new user is stored under its id. *)
Definition user_evolves (k : string) (before after : option User) : Prop :=
  match before, after with
  | Some u, Some u' =>
      u_id u' = u_id u /\ u_email u' = u_email u /\ (u_sessionVersion u <= u_sessionVersion u')%Z
  | Some _, None => False
  | None, Some u' => u_id u' = k
  | None, None => True
  end.

Definition users_grow (s s' : AccountStore) : Prop :=
  forall k, user_evolves k (map_get k (users s)) (map_get k (users s')).

Lemma user_evolves_refl k o : user_evolves k o o.
Proof. destruct o; cbn; [split_and!; done || lia|done]. Qed.

#[export] Instance users_grow_preorder : PreOrder users_grow.
Proof.
  split.
  - intros s k. apply user_evolves_refl.
  - intros s1 s2 s3 H12 H23 k. specialize (H12 k). specialize (H23 k).
    destruct (map_get k (users s1)), (map_get k (users s2)), (map_get k (users s3)); cbn in *; try done.
    + destruct H12 as (? & ? & ?), H23 as (? & ? & ?). split_and!; [congruence|congruence|lia].
    + destruct H23 as (? & ? & ?). congruence.
Qed.

Lemma users_grow_same s s' : users s' = users s -> users_grow s s'.
Proof. intros H k. rewrite H. apply user_evolves_refl. Qed.

Lemma users_grow_store s s' k u' :
  users s' = map_set k u' (users s) -> user_evolves k (map_get k (users s)) (Some u') -> users_grow s s'.
Proof.
  intros H Hu' k0. rewrite H, map_get_set. case_decide as E; [by subst|apply user_evolves_refl].
Qed.

(** Users are stored under their identifiers. *)
Definition users_keyed (s : AccountStore) : Prop := forall k u, map_get k (users s) = Some u -> u_id u = k.

Lemma users_grow_keyed s s' : users_grow s s' -> users_keyed s -> users_keyed s'.
Proof.
  intros Hg Hk k u' Hu'. specialize (Hg k). rewrite Hu' in Hg.
  destruct (map_get k (users s)) as [u|] eqn:Hu; cbn in Hg; [|done].
  destruct Hg as (Hid & _). rewrite Hid. by apply Hk.
Qed.

(** The rest of a body that does not touch the users. *)
Ltac users_tail :=
  match goal with
  | |- users_grow _ (?m ?st).2 =>
      let H := fresh in
      assert (H : frame users m) by solve_frame;
      first [ apply users_grow_same; rewrite (H st); reflexivity
            | eapply users_grow_store; [rewrite (H st); reflexivity|] ]
  end.

Ltac same_users := apply users_grow_same; reflexivity.

(** An operation of the shape: load a user, write it back changed. *)
Ltac user_write :=
  rewrite run_require_user;
  match goal with |- context [map_get ?k ?m] => destruct (map_get k m) eqn:?; [|same_users] end;
  repeat (step_once; [|same_users]);
  rewrite ?run_store_user; users_tail;
  match goal with H : map_get _ _ = Some _ |- _ => rewrite H end; cbn; split_and!; done || lia.

Lemma incrementSessionVersion_grow k now s : users_grow s (incrementSessionVersion k now s).2.
Proof. unfold incrementSessionVersion. user_write. Qed.

Lemma markUserEmailVerified_grow k v now s : users_grow s (markUserEmailVerified k v now s).2.
Proof. unfold markUserEmailVerified. user_write. Qed.

Lemma rejectUser_grow k a now s : users_grow s (rejectUser k a now s).2.
Proof. unfold rejectUser. user_write. Qed.

Lemma banUser_grow k a r e now s : users_grow s (banUser k a r e now s).2.
Proof. unfold banUser. user_write. Qed.

Lemma unbanUser_grow k a now s : users_grow s (unbanUser k a now s).2.
Proof. unfold unbanUser. user_write. Qed.

Lemma frame_setQuota_users k t l now : frame users (setQuota k t l now).
Proof. unfold setQuota. solve_frame. Qed.
#[export] Hint Resolve frame_setQuota_users : raibit.

Lemma approveUser_grow k t r a now s : users_grow s (approveUser k t r a now s).2.
Proof.
  unfold approveUser. rewrite run_require_user.
  destruct (map_get k (users s)) as [u|] eqn:Hu; [|same_users]. step_once; [|same_users].
  rewrite run_store_user. users_tail. rewrite Hu.
  destruct r as [r|]; [destruct (str_empty r)|]; cbn; split_and!; done || lia.
Qed.

Lemma linkGitHubUser_grow k g a n act l now s : users_grow s (linkGitHubUser k g a n act l now s).2.
Proof.
  unfold linkGitHubUser. rewrite run_require_user.
  destruct (map_get k (users s)) as [u|] eqn:Hu; [|same_users]. step_once. step_once; [|same_users].
  rewrite run_store_user. users_tail. rewrite Hu.
  destruct (present g), (present a), (present n); cbn; split_and!; done || lia.
Qed.

Lemma createUser_grow i now s : users_keyed s -> users_grow s (createUser i now s).2.
Proof.
  intros Hid. unfold createUser. step_once. step_once; [|same_users]. step_once; [|same_users].
  rewrite run_modify. users_tail. cbn.
  destruct (map_get _ (users s)) as [u|] eqn:Hu; cbn in E |- *; [|done].
  apply throw_if_Ok, negb_false_iff, bool_decide_eq_true in E.
  split_and!; [by rewrite (Hid _ _ Hu)|done|].
  destruct (cu_passwordHash i); [destruct (_ && _)|]; lia.
Qed.

(** Growth composes along a body. *)
Definition grows {A} (m : M AccountStore A) : Prop := forall s, users_grow s (m s).2.

Lemma grows_bind {A B} (m : M AccountStore A) (f : A -> M AccountStore B) :
  grows m -> (forall a, grows (f a)) -> grows (m ≫= f).
Proof.
  intros Hm Hf s. apply run_bind_state; [apply Hm|].
  intros a s' _ Hg. etrans; [exact Hg|apply Hf].
Qed.

Lemma grows_frame {A} (m : M AccountStore A) : frame users m -> grows m.
Proof. intros H s. apply users_grow_same, H. Qed.

Ltac solve_grow :=
  repeat first
    [ apply grows_frame; solve [solve_frame]
    | solve [auto 2 with raibit nocore]
    | apply grows_bind; [|intros ?]
    | match goal with |- grows (match ?x with _ => _ end) => destruct x end
    | match goal with |- grows (if ?x then _ else _) => destruct x end
    | progress cbn beta zeta ].

Lemma grows_incrementSessionVersion k now : grows (incrementSessionVersion k now).
Proof. intros s. apply incrementSessionVersion_grow. Qed.
#[export] Hint Resolve grows_incrementSessionVersion : raibit.

Lemma grows_bump_if_present k now : grows (bump_if_present k now).
Proof. unfold bump_if_present. solve_grow. Qed.
#[export] Hint Resolve grows_bump_if_present : raibit.

Lemma grows_addMember o u r a now : grows (addMember o u r a now).
Proof. unfold addMember. solve_grow. Qed.

Lemma grows_removeMember o u now : grows (removeMember o u now).
Proof. unfold removeMember. solve_grow. Qed.

Lemma grows_createOrganization name plan slug now : grows (createOrganization name plan slug now).
Proof. unfold createOrganization. solve_grow. Qed.

Lemma createOrganizationForUser_grow input now s : users_grow s (createOrganizationForUser input now s).2.
Proof.
  unfold createOrganizationForUser. step_once; [|same_users]. step_once. step_once; [|same_users].
  step_once; [|same_users]. rewrite run_modify. users_tail.
  destruct (map_get (poc_actorUserId a) (users s)) as [u|]; [|done].
  assert (a0 = u) as ->.
  { unfold assertOrganizationCreatorEligible in E0. unbind. done. }
  cbn. split_and!; done || lia.
Qed.

Lemma acceptMemory_grow t u now s : users_grow s (acceptMemoryOrganizationInvite t u now s).2.
Proof.
  unfold acceptMemoryOrganizationInvite. step_once.
  destruct (list_find (invite_usable t now) (organizationInvites s)) as [[k inv]|]; [|same_users].
  destruct (map_get u (users s)) as [user|] eqn:Hu; [|same_users].
  destruct (_ || _); [same_users|]. rewrite run_modify.
  destruct (js_find _ (members s)); [users_tail|].
  rewrite run_modify, run_store_user. users_tail. rewrite Hu. cbn. split_and!; done || lia.
Qed.

Section steps.
Context (sha256_hex : string -> string).

Lemma grows_changeMemory o i u r v now : grows (changeMemoryOrganizationMembershipRole sha256_hex o i u r v now).
Proof. unfold changeMemoryOrganizationMembershipRole. solve_grow. Qed.

Lemma grows_removeMemory o i u v now : grows (removeMemoryOrganizationMember sha256_hex o i u v now).
Proof. unfold removeMemoryOrganizationMember. solve_grow. Qed.

Lemma grows_leaveMemory o u v now : grows (leaveMemoryOrganization sha256_hex o u v now).
Proof. unfold leaveMemoryOrganization. solve_grow. Qed.

Lemma account_step_grow P s s' : users_keyed s -> account_step sha256_hex P s s' -> users_grow s s'.
Proof.
  intros Hk [].
  - apply grows_createOrganization.
  - apply createOrganizationForUser_grow.
  - by apply createUser_grow.
  - apply incrementSessionVersion_grow.
  - apply markUserEmailVerified_grow.
  - apply linkGitHubUser_grow.
  - apply grows_frame, frame_setQuota_users.
  - apply approveUser_grow.
  - apply rejectUser_grow.
  - apply banUser_grow.
  - apply unbanUser_grow.
  - apply grows_addMember.
  - apply grows_removeMember.
  - apply grows_changeMemory.
  - apply grows_removeMemory.
  - apply grows_leaveMemory.
  - apply grows_frame. unfold revokeMemoryOrganizationInvite. solve_frame.
  - apply grows_frame. unfold replaceMemoryOrganizationInvite. solve_frame.
  - apply grows_frame. unfold revokeMemoryOrganizationInviteAfterDeliveryFailure. solve_frame.
  - apply acceptMemory_grow.
Qed.

Lemma rtc_users_grow P s s' : rtc (account_step sha256_hex P) s s' -> users_keyed s -> users_grow s s'.
Proof.
  induction 1 as [|s t s' Hst _ IH]; intros Hk; [reflexivity|].
  pose proof (account_step_grow _ _ _ Hk Hst) as Hg. etrans; [exact Hg|].
  apply IH. by eapply users_grow_keyed.
Qed.

(** Along any sequence of account operations a user is never lost, keeps
    its identifier and email, and its session version never goes back, so a
    session revoked once stays revoked. *)
Theorem sessions_never_revive s s' k u :
  rtc (account_step sha256_hex any_creation) s s' -> users_keyed s ->
  map_get k (users s) = Some u ->
  exists u', map_get k (users s') = Some u' /\ u_id u' = u_id u /\ u_email u' = u_email u
             /\ (u_sessionVersion u <= u_sessionVersion u')%Z.
Proof.
  intros Hr Hk Hu. pose proof (rtc_users_grow _ _ _ Hr Hk k) as Hg. rewrite Hu in Hg.
  destruct (map_get k (users s')) as [u'|]; [|done]. by exists u'.
Qed.

(** ** Role changes *)

Lemma run_incrementSessionVersion {B} k now (f : PublicUser -> M AccountStore B) s :
  (incrementSessionVersion k now ≫= f) s
  = match map_get k (users s) with
    | Some u => let u' := bump_session u <| u_updatedAt := now |> in
                f (redactUser u') (s <| users := map_set k u' (users s) |>)
    | None => (Throw (notFound ("user not found: " +:+ k)), s)
    end.
Proof.
  unfold incrementSessionVersion, require_user, store_user. unfold mbind, M_bind, get, lift, modify, mret, M_ret.
  by destruct (map_get k (users s)).
Qed.

(** The state of a successful run. *)
Lemma run_audit {B} a b c d e now (f : unit -> M AccountStore B) s :
  (audit a b c d e now ≫= f) s = f tt (s <| auditLogs := auditLogs s ++ [audit_row s a b c d e now] |>).
Proof. reflexivity. Qed.

Definition role_of (m : Member) : option OrganizationMembershipRole := normalizeOrganizationRoleForRead (raw_role m).

Lemma canonicalRole_Ok m r : canonicalRole (raw_role m) = Ok r <-> role_of m = Some r.
Proof.
  unfold canonicalRole, role_of. destruct (normalizeOrganizationRoleForRead (raw_role m)); naive_solver.
Qed.

Lemma requireOrganizationMember_Ok s o u k m :
  requireOrganizationMember s o u = Ok (k, m) ->
  map_has o (organizations s) = true /\ members s !! k = Some m /\ is_member o u m.
Proof.
  unfold requireOrganizationMember. destruct (map_has o (organizations s)); [|done].
  destruct (list_find _ (members s)) as [[k' m']|] eqn:Hf; [|done]. intros [= -> ->].
  apply list_find_lookup in Hf. tauto.
Qed.

Lemma findMemoryMembership_Ok s o i k m :
  findMemoryMembership sha256_hex s o i = Ok (k, m) ->
  list_find (has_membership_id sha256_hex o i) (members s) = Some (k, m)
  /\ members s !! k = Some m /\ has_membership_id sha256_hex o i m.
Proof.
  unfold findMemoryMembership.
  destruct (list_find _ (members s)) as [[k' m']|] eqn:Hf; [|done]. intros [= -> ->].
  split; [done|]. by apply list_find_lookup in Hf.
Qed.

Lemma transition_authority_Ok a c r u :
  requireMembershipTransitionAuthority a c r = Ok u ->
  a = OWNER \/ (a = ADMIN /\ c <> OWNER /\ r <> OWNER).
Proof.
  unfold requireMembershipTransitionAuthority. repeat case_bool_decide; cbn; naive_solver.
Qed.

(** What a successful role change establishes: who acted ([actor], in role
    [a]), on which membership ([m], at position [k], in role [c]), and what
    became of it. *)
Definition role_changed (s s' : AccountStore) (o i u : string) (role : OrganizationMembershipRole) (v now : Z) : Prop :=
  exists ka actor a k m c,
    members s !! ka = Some actor /\ is_member o u actor /\ role_of actor = Some a
    /\ list_find (has_membership_id sha256_hex o i) (members s) = Some (k, m) /\ role_of m = Some c
    /\ (a = OWNER \/ (a = ADMIN /\ c <> OWNER /\ role <> OWNER))
    /\ member_version m = v
    /\ ~ (c = OWNER /\ role <> OWNER /\ (ownerCount s o <= 1)%Z)
    /\ ((c = role /\ s' = s)
        \/ (c <> role
            /\ members s' = <[k := m <| m_role := role_string role |> <| m_version := Some (v + 1)%Z |>]> (members s)
            /\ exists user, map_get (m_userId m) (users s) = Some user
               /\ map_get (m_userId m) (users s') = Some (bump_session user <| u_updatedAt := now |>))).

Lemma memoryMemberView_role s m view :
  memoryMemberView sha256_hex s m = Ok view -> role_of m = Some (om_role view).
Proof.
  unfold memoryMemberView. destruct (map_get _ _); [|done]. intros (r & Hr & H)%bind_Ok.
  injection H as <-. by apply canonicalRole_Ok.
Qed.

Lemma changeRole_facts o i u role v now s s' view :
  changeMemoryOrganizationMembershipRole sha256_hex o i u role v now s = (Ok view, s') ->
  role_changed s s' o i u role v now /\ om_role view = role.
Proof.
  unfold changeMemoryOrganizationMembershipRole, role_changed.
  step_once. step_once; [|done]. step_once; [|done]. step_once; [|done]. step_once; [|done].
  step_once; [|done]. step_once; [|done].
  destruct a as [ka actor], a0 as [k t]. cbn [fst snd] in *.
  apply requireOrganizationMember_Ok in E as (_ & Hka & Hact).
  apply findMemoryMembership_Ok in E0 as (Hfind & Hk & Hid).
  apply canonicalRole_Ok in E1, E2. apply transition_authority_Ok in E3.
  apply throw_if_Ok, negb_false_iff, Z.eqb_eq in E4. subst v.
  case_bool_decide as Hsame.
  - subst a2. unfold lift. intros [= Hv <-]. apply memoryMemberView_role in Hv as Hv'.
    split; [|congruence]. exists ka, actor, a1, k, t, role. split_and!; try done; [naive_solver|by left].
  - step_once; [|done]. apply throw_if_Ok in E.
    rewrite run_modify, run_incrementSessionVersion. cbn [m_userId update_field users set_member].
    destruct (map_get (m_userId t) (users s)) as [user|] eqn:Huser; [|done]. cbn zeta.
    rewrite run_audit, run_get. unfold lift. intros [= Hv <-]. apply memoryMemberView_role in Hv as Hv'.
    unfold role_of, raw_role in Hv'. cbn [m_role update_field] in Hv'. rewrite normalize_role_string in Hv'.
    split; [|congruence]. exists ka, actor, a1, k, t, a2. split_and!; try done.
    + intros (-> & Hr & Hle). settle_guard E. lia.
    + right. split_and!; [done|reflexivity|]. exists user. split; [done|]. cbn. apply map_get_set_eq.
Qed.

(** A role change that succeeds was made by an owner, or by an
    administrator who neither makes nor unmakes an owner; it saw the current
    version of the membership; it did not take the last owner away; and,
    unless the role was already that, it raised the version by one and revoked
    the member's sessions. *)
Theorem changeRole_success o i u role v now s s' view :
  changeMemoryOrganizationMembershipRole sha256_hex o i u role v now s = (Ok view, s') ->
  role_changed s s' o i u role v now /\ om_role view = role.
Proof. apply changeRole_facts. Qed.

Lemma list_find_update {A} (P : A -> Prop) `{forall x, Decision (P x)} l i x x' :
  list_find P l = Some (i, x) -> P x' -> list_find P (<[i := x']> l) = Some (i, x').
Proof.
  intros (Hi & HP & Hb)%list_find_Some HP'. apply list_find_Some. split_and!; [|done|].
  - apply list_lookup_insert_eq. by eapply lookup_lt_Some.
  - intros j y Hj Hlt. rewrite list_lookup_insert_ne in Hj by lia. by eapply Hb.
Qed.

(** A request that names a version the membership no longer has changes no
    member and does not succeed. *)
Lemma changeRole_stale o i u role v now s k m :
  list_find (has_membership_id sha256_hex o i) (members s) = Some (k, m) -> member_version m <> v ->
  exists e, changeMemoryOrganizationMembershipRole sha256_hex o i u role v now s = (Throw e, s).
Proof.
  intros Hf Hv. unfold changeMemoryOrganizationMembershipRole.
  step_once. step_once; [|by eexists]. unfold findMemoryMembership. rewrite Hf, run_lift. cbn iota.
  step_once; [|by eexists]. step_once; [|by eexists]. step_once; [|by eexists]. step_once; [|by eexists].
  apply throw_if_Ok, negb_false_iff, Z.eqb_eq in E3. done.
Qed.

Lemma removeMember_stale o i u v now s k m :
  list_find (has_membership_id sha256_hex o i) (members s) = Some (k, m) -> member_version m <> v ->
  exists e, removeMemoryOrganizationMember sha256_hex o i u v now s = (Throw e, s).
Proof.
  intros Hf Hv. unfold removeMemoryOrganizationMember.
  step_once. step_once; [|by eexists]. unfold findMemoryMembership. rewrite Hf, run_lift. cbn iota.
  step_once; [|by eexists]. step_once; [|by eexists]. step_once; [|by eexists]. step_once; [|by eexists].
  apply throw_if_Ok, negb_false_iff, Z.eqb_eq in E3. done.
Qed.

(** Two administrators who read the same version of a membership cannot
    both act on it: once one role change went through, every later change or
    removal that still names the old version fails and leaves the state
    alone. *)
Theorem concurrent_change_rejected o i u role v now s s' view :
  changeMemoryOrganizationMembershipRole sha256_hex o i u role v now s = (Ok view, s') -> s' <> s ->
  forall u2 role2 now2,
    (exists e, changeMemoryOrganizationMembershipRole sha256_hex o i u2 role2 v now2 s' = (Throw e, s'))
    /\ (exists e, removeMemoryOrganizationMember sha256_hex o i u2 v now2 s' = (Throw e, s')).
Proof.
  intros H Hne u2 role2 now2. apply changeRole_facts in H as [(ka & ac & a & k & m & c & _ & _ & _ & Hf & _ & _ & Hv & _ & [[_ Hs]|(_ & Hm & _)]) _];
    [done|].
  assert (Hf' : list_find (has_membership_id sha256_hex o i) (members s')
                = Some (k, m <| m_role := role_string role |> <| m_version := Some (v + 1)%Z |>)).
  { rewrite Hm. eapply list_find_update; [done|]. by apply list_find_lookup in Hf as [_ ?]. }
  split; [eapply changeRole_stale|eapply removeMember_stale]; try exact Hf'; cbn; lia.
Qed.
End steps.
