(* ===== verification/InviteSafety.v ===== *)
(** * Safety of organization invites

    Invites of one invitee are versioned, at most the newest of them is
    pending, a spent invite is never pending again, and acceptance grants
    exactly what was offered, to the verified owner of the address, once. *)

From S2P Require Import Prelude JsString JsVal JsMap Ids Rbac Secrets Identity Accounts Membership AccountInvariants AccountSafety.

Notation invite := OrganizationInviteRecord (only parsing).

Definition spent (i : invite) : Prop := ~ invite_pending i.

(** A pending invite with its acceptance or revocation time filled in. *)
Definition spends (i i' : invite) : Prop :=
  invite_pending i /\ exists t, i' = i <| inv_acceptedAt := Some t |> \/ i' = i <| inv_revokedAt := Some t |>.

Lemma spends_facts i i' :
  spends i i' -> spent i' /\ inv_organizationId i' = inv_organizationId i /\ inv_email i' = inv_email i
  /\ inv_tokenVersion i' = inv_tokenVersion i /\ inv_tokenHash i' = inv_tokenHash i.
Proof. intros (_ & t & [-> | ->]); (split_and!; [intros [H1 H2]; cbn in *; congruence|done..]). Qed.

(** ** Effect of each operation on the invites *)

Inductive invite_effect (l : list invite) : list invite -> Prop :=
| invite_same : invite_effect l l
| invite_spend k i i' : l !! k = Some i -> spends i i' -> invite_effect l (<[k := i']> l)
| invite_issue (new : invite) at_ :
    inv_tokenVersion new
      = next_token_version (inv_tokenVersion <$> filter (same_invitee (inv_organizationId new) (inv_email new)) l) ->
    invite_effect l ((revoke_pending (inv_organizationId new) (inv_email new) at_ <$> l) ++ [new]).

(** Drop the rest of a body that leaves the invites alone. *)
Ltac invite_tail :=
  match goal with
  | |- context [organizationInvites (?m ?st).2] =>
      let H := fresh in assert (H : frame organizationInvites m) by solve_frame; rewrite (H st); clear H
  end.

Lemma revoke_invite_effect o i u now s :
  invite_effect (organizationInvites s) (organizationInvites (revokeMemoryOrganizationInvite o i u now s).2).
Proof.
  unfold revokeMemoryOrganizationInvite. step_once. step_once; [|constructor].
  destruct (list_find _ (organizationInvites s)) as [[k inv]|] eqn:Hf; [|constructor].
  step_once; [|constructor]. step_once; [|constructor]. rewrite run_modify. invite_tail. cbn.
  apply list_find_lookup in Hf as [Hk (_ & _ & Hp)]. eapply invite_spend; [done|]. split; [done|eauto].
Qed.

Lemma delivery_invite_effect i r now s :
  invite_effect (organizationInvites s)
    (organizationInvites (revokeMemoryOrganizationInviteAfterDeliveryFailure i r now s).2).
Proof.
  unfold revokeMemoryOrganizationInviteAfterDeliveryFailure. step_once.
  destruct (list_find _ (organizationInvites s)) as [[k inv]|] eqn:Hf; [|constructor].
  rewrite run_modify. invite_tail. cbn.
  apply list_find_lookup in Hf as [Hk (_ & Hp)]. eapply invite_spend; [done|]. split; [done|eauto].
Qed.

Lemma replace_invite_effect i now s :
  invite_effect (organizationInvites s) (organizationInvites (replaceMemoryOrganizationInvite i now s).2).
Proof.
  unfold replaceMemoryOrganizationInvite. step_once. step_once; [|constructor].
  rewrite run_modify. invite_tail. cbn.
  match goal with |- invite_effect _ (_ ++ [?x]) => apply (invite_issue _ x) end. done.
Qed.

Lemma accept_invite_effect t u now s :
  invite_effect (organizationInvites s) (organizationInvites (acceptMemoryOrganizationInvite t u now s).2).
Proof.
  unfold acceptMemoryOrganizationInvite. step_once.
  destruct (list_find (invite_usable t now) (organizationInvites s)) as [[k inv]|] eqn:Hf; [|constructor].
  destruct (map_get u (users s)) as [user|]; [|constructor].
  destruct (_ || _); [constructor|]. rewrite run_modify.
  apply list_find_lookup in Hf as [Hk (_ & Hp & _)].
  assert (invite_effect (organizationInvites s) (<[k := inv <| inv_acceptedAt := Some now |>]> (organizationInvites s))).
  { eapply invite_spend; [done|]. split; [done|eauto]. }
  destruct (js_find _ (members s)); [invite_tail; done|].
  rewrite run_modify. invite_tail. done.
Qed.

Section steps.
Context (sha256_hex : string -> string).

Lemma account_step_invites P s s' :
  account_step sha256_hex P s s' -> invite_effect (organizationInvites s) (organizationInvites s').
Proof.
  intros [];
    try (unfold createOrganization, createOrganizationForUser, createUser, markUserEmailVerified, linkGitHubUser,
           approveUser, setQuota, rejectUser, banUser, unbanUser, addMember, removeMember,
           changeMemoryOrganizationMembershipRole, removeMemoryOrganizationMember, leaveMemoryOrganization;
         invite_tail; constructor).
  - apply revoke_invite_effect.
  - apply replace_invite_effect.
  - apply delivery_invite_effect.
  - apply accept_invite_effect.
Qed.

(** ** A spent invite stays as it is *)

Lemma revoke_pending_spent o e at_ i : spent i -> revoke_pending o e at_ i = i.
Proof. intros H. unfold revoke_pending. case_decide as Hd; [|done]. by destruct Hd as [_ ?]. Qed.

Lemma invite_effect_spent l l' k i :
  invite_effect l l' -> l !! k = Some i -> spent i -> l' !! k = Some i.
Proof.
  intros [|k' j j' Hj Hs|new at_ Hv] Hk Hi; [done|..].
  - destruct (decide (k = k')) as [->|Hne]; [|by rewrite list_lookup_insert_ne].
    rewrite Hj in Hk. injection Hk as ->. by destruct Hs as [? _].
  - apply lookup_app_l_Some. rewrite list_lookup_fmap, Hk. cbn. by rewrite revoke_pending_spent.
Qed.

Lemma spent_forever P s s' k i :
  rtc (account_step sha256_hex P) s s' ->
  organizationInvites s !! k = Some i -> spent i -> organizationInvites s' !! k = Some i.
Proof.
  induction 1 as [|s t s' Hst _ IH]; [done|]. intros Hk Hi. apply IH; [|done].
  eapply invite_effect_spent; [|done|done]. by eapply account_step_invites.
Qed.

(** ** Versions increase and only the newest invite is pending *)

Definition invites_versioned (l : list invite) : Prop :=
  forall a b i j, l !! a = Some i -> l !! b = Some j -> (a < b)%nat ->
    same_invitee (inv_organizationId j) (inv_email j) i ->
    spent i /\ (inv_tokenVersion i < inv_tokenVersion j)%Z.

Lemma foldl_max_ge l : forall v, (v <= foldl Z.max v l)%Z /\ Forall (fun x => x <= foldl Z.max v l)%Z l.
Proof.
  induction l as [|x l IH]; intros v; cbn; [split; [lia|constructor]|].
  destruct (IH (Z.max v x)) as [H1 H2]. split; [lia|]. constructor; [lia|done].
Qed.

Lemma next_token_version_gt l v : v ∈ l -> (v < next_token_version l)%Z.
Proof.
  destruct l as [|x l]; [by intros ?%not_elem_of_nil|]. unfold next_token_version. intros Hv.
  destruct (foldl_max_ge l x) as [H1 H2]. apply elem_of_cons in Hv as [->|Hv]; [lia|].
  rewrite Forall_forall in H2. specialize (H2 v Hv). cbn in H2. lia.
Qed.

Lemma revoke_pending_facts o e at_ i :
  inv_organizationId (revoke_pending o e at_ i) = inv_organizationId i
  /\ inv_email (revoke_pending o e at_ i) = inv_email i
  /\ inv_tokenVersion (revoke_pending o e at_ i) = inv_tokenVersion i
  /\ (same_invitee o e i -> spent (revoke_pending o e at_ i))
  /\ (spent i -> spent (revoke_pending o e at_ i)).
Proof.
  unfold revoke_pending. case_decide as Hd; split_and!; try done; cbn.
  - intros _ [_ H]. done.
  - intros _ [_ H]. done.
  - intros Hs Hp. by destruct Hd.
Qed.

Lemma lookup_insert_cases {A} (l : list A) k x y j z :
  l !! k = Some x -> <[k := y]> l !! j = Some z -> (j = k /\ z = y) \/ (j <> k /\ l !! j = Some z).
Proof.
  intros Hk Hj. destruct (decide (j = k)) as [->|Hne].
  - left. split; [done|]. rewrite list_lookup_insert_eq in Hj by (by eapply lookup_lt_Some). congruence.
  - right. by rewrite list_lookup_insert_ne in Hj.
Qed.

Lemma invite_effect_versioned l l' : invite_effect l l' -> invites_versioned l -> invites_versioned l'.
Proof.
  intros [|k x x' Hx Hs|new at_ Hv] H; [done|..]; intros a b i j Ha Hb Hab Hsame.
  - apply spends_facts in Hs as (Hsp & Ho & He & Hver & _).
    destruct (lookup_insert_cases _ _ _ _ _ _ Hx Ha) as [[-> ->]|[_ Ha']],
      (lookup_insert_cases _ _ _ _ _ _ Hx Hb) as [[-> ->]|[_ Hb']]; [lia|..].
    + destruct (H k b x j Hx Hb' Hab) as [_ ?]; [destruct Hsame; split; congruence|]. split; [done|lia].
    + rewrite Ho, He in Hsame. destruct (H a k i x Ha' Hx Hab Hsame) as [? ?]. split; [done|lia].
    + by apply (H a b i j).
  - set (r := revoke_pending (inv_organizationId new) (inv_email new) at_) in *.
    assert (Hlt : (a < length l)%nat).
    { apply lookup_lt_Some in Hb. rewrite length_app, length_fmap in Hb. cbn in Hb. lia. }
    rewrite lookup_app_l in Ha by (by rewrite length_fmap). rewrite list_lookup_fmap in Ha.
    destruct (l !! a) as [i0|] eqn:Hi0; [|done]. cbn in Ha. injection Ha as <-.
    destruct (revoke_pending_facts (inv_organizationId new) (inv_email new) at_ i0) as (Ho & He & Hver & Hsp1 & Hsp2).
    fold r in Ho, He, Hver, Hsp1, Hsp2. unfold same_invitee in Hsame. rewrite Ho, He in Hsame. rewrite Hver.
    apply lookup_app_Some in Hb as [Hb|[Hge Hb]].
    + rewrite list_lookup_fmap in Hb. destruct (l !! b) as [j0|] eqn:Hj0; [|done]. cbn in Hb. injection Hb as <-.
      destruct (revoke_pending_facts (inv_organizationId new) (inv_email new) at_ j0) as (Ho' & He' & Hver' & _).
      fold r in Ho', He', Hver'. rewrite Ho', He' in Hsame. rewrite Hver'.
      destruct (H a b i0 j0 Hi0 Hj0 Hab Hsame). auto.
    + apply list_lookup_singleton_Some in Hb as [_ <-]. split; [by apply Hsp1|].
      rewrite Hv. apply next_token_version_gt, list_elem_of_fmap. exists i0. split; [done|].
      apply list_elem_of_filter. split; [done|]. by eapply list_elem_of_lookup_2.
Qed.

Lemma invites_versioned_empty : invites_versioned [].
Proof. intros a b i j Ha. done. Qed.

(** In every state reached from one where it holds (the empty store, for
    instance), two invites of the same address to the same organization have
    different token versions, the later one the greater, and only the latest
    can still be pending: reissuing an invite cancels the one before it. *)
Theorem invites_stay_versioned P s s' :
  rtc (account_step sha256_hex P) s s' ->
  invites_versioned (organizationInvites s) -> invites_versioned (organizationInvites s').
Proof.
  induction 1 as [|s t s' Hst _ IH]; [done|]. intros H. apply IH.
  eapply invite_effect_versioned; [|done]. by eapply account_step_invites.
Qed.
End steps.

(** ** Acceptance *)

(** The member, user and invite rows an acceptance leaves. *)
Definition acceptance_effect (s s' : AccountStore) (userId : string) (now : Z) (k : nat) (inv : invite) (user : User)
    (r : OrganizationInviteAcceptance) : Prop :=
  organizationInvites s' = <[k := inv <| inv_acceptedAt := Some now |>]> (organizationInvites s)
  /\ match r with
     | Already_member =>
         is_Some (js_find (is_member (inv_organizationId inv) userId) (members s))
         /\ members s' = members s /\ users s' = users s
     | Accepted o role =>
         o = inv_organizationId inv /\ role = inv_role inv
         /\ js_find (is_member o userId) (members s) = None
         /\ (exists m, members s' = members s ++ [m] /\ is_member o userId m /\ role_of m = Some role)
         /\ users s' = map_set userId (bump_session user) (users s)
     end.

Lemma accept_cases t u now s :
  acceptMemoryOrganizationInvite t u now s = (Ok None, s)
  \/ exists r s' k inv user,
       acceptMemoryOrganizationInvite t u now s = (Ok (Some r), s')
       /\ list_find (invite_usable t now) (organizationInvites s) = Some (k, inv)
       /\ map_get u (users s) = Some user /\ u_emailVerifiedAt user <> None /\ u_email user = inv_email inv
       /\ acceptance_effect s s' u now k inv user r.
Proof.
  unfold acceptMemoryOrganizationInvite, acceptance_effect. rewrite run_get.
  destruct (list_find (invite_usable t now) (organizationInvites s)) as [[k inv]|] eqn:Hf; [|by left].
  destruct (map_get u (users s)) as [user|] eqn:Hu; [|by left].
  destruct (bool_decide (u_emailVerifiedAt user = None) || _) eqn:Eg; [by left|right].
  apply orb_false_iff in Eg as [Ev%bool_decide_eq_false Ee%negb_false_iff%bool_decide_eq_true].
  rewrite run_modify. destruct (js_find _ (members s)) as [m|] eqn:Hm.
  - rewrite run_audit. exists Already_member. do 4 eexists. split_and!; done.
  - rewrite run_modify, run_store_user, run_audit. exists (Accepted (inv_organizationId inv) (inv_role inv)).
    do 4 eexists. split_and!; try done.
    eexists. split_and!; [reflexivity|done|apply normalize_role_string].
Qed.

(** An invite is accepted only when its token matches, it is neither
    accepted nor revoked nor expired, and the acting user has verified the
    very address it was sent to. Acceptance never throws, spends the invite,
    and grants the offered role in the inviting organization, to nobody else,
    unless the user already is a member, whose role it leaves alone. Anything
    else changes nothing. *)
Theorem accept_grants_exactly_the_offer t u now s :
  acceptMemoryOrganizationInvite t u now s = (Ok None, s)
  \/ exists r s' k inv user,
       acceptMemoryOrganizationInvite t u now s = (Ok (Some r), s')
       /\ organizationInvites s !! k = Some inv
       /\ inv_tokenHash inv = t /\ invite_pending inv /\ (now < inv_expiresAt inv)%Z
       /\ map_get u (users s) = Some user /\ u_emailVerifiedAt user <> None /\ u_email user = inv_email inv
       /\ acceptance_effect s s' u now k inv user r.
Proof.
  destruct (accept_cases t u now s) as [?|(r & s' & k & inv & user & Hr & Hf & Hu & Hv & He & Ha)]; [by left|right].
  apply list_find_lookup in Hf as [Hk (Ht & Hp & Hx)]. exists r, s', k, inv, user. split_and!; done.
Qed.

Section single_use.
Context (sha256_hex : string -> string).

(** A token is good once: after it was accepted, no sequence of account,
    membership and invite operations makes it acceptable again, by anyone, as
    long as no other invite carries the same token hash. *)
Theorem invite_token_single_use P t u now s s' s'' r :
  acceptMemoryOrganizationInvite t u now s = (Ok (Some r), s') ->
  rtc (account_step sha256_hex P) s' s'' ->
  (forall a b i j, organizationInvites s'' !! a = Some i -> organizationInvites s'' !! b = Some j ->
     inv_tokenHash i = t -> inv_tokenHash j = t -> a = b) ->
  forall u2 now2, acceptMemoryOrganizationInvite t u2 now2 s'' = (Ok None, s'').
Proof.
  intros Hacc Hrtc Huniq u2 now2.
  destruct (accept_cases t u now s) as [Hn|(r1 & s1 & k & inv & user & Hr & Hf & _ & _ & _ & Ha)]; [congruence|].
  rewrite Hacc in Hr. injection Hr as <- <-. apply list_find_lookup in Hf as [Hk (Ht & _ & _)].
  destruct Ha as [Hinv _].
  assert (Hk'' : organizationInvites s'' !! k = Some (inv <| inv_acceptedAt := Some now |>)).
  { eapply spent_forever; [exact Hrtc| |intros [H _]; done]. rewrite Hinv. apply list_lookup_insert_eq.
    by eapply lookup_lt_Some. }
  destruct (accept_cases t u2 now2 s'') as [Hn|(r2 & s2 & k2 & inv2 & user2 & _ & Hf2 & _)]; [done|].
  apply list_find_lookup in Hf2 as [Hk2 (Ht2 & Hp2 & _)].
  assert (k = k2) as <- by (eapply Huniq; [exact Hk''|exact Hk2|exact Ht|exact Ht2]).
  rewrite Hk'' in Hk2. injection Hk2 as <-. by destruct Hp2.
Qed.
End single_use.

(** ** A small club, for running the account operations

    One organization with an owner, an administrator and a pending invite; the
    theorems on accounts are applied to it. *)

(** A stand-in for the digest: identifiers stay readable. *)
Definition plain_digest (s : string) : string := s.

Definition sample_user (id email : string) : User :=
  mkUser id "Kim" "20240001" true email None None (Some "scrypt:v1:1024:salt:hash") "USER" "NON_CLUB" "APPROVED"
    0 None None None None (Some 10%Z) 10 10.

Definition sample_invite : OrganizationInviteRecord :=
  mkInvite "inv-1" "org-club" "cho@club.kr" DEVELOPER "hash-1" 1 "usr-an" 1000 None None 20.

Definition club : AccountStore := {|
  organizations := [("org-club", mkOrganization "org-club" "Club" "club" "free" 5)];
  users := [("usr-an", sample_user "usr-an" "an@club.kr"); ("usr-bae", sample_user "usr-bae" "bae@club.kr");
            ("usr-cho", sample_user "usr-cho" "cho@club.kr")];
  members := [mkMember "org-club" "usr-an" "OWNER" (Some 5%Z) None None;
              mkMember "org-club" "usr-bae" "ADMIN" (Some 6%Z) None None];
  organizationInvites := [sample_invite];
  emailVerificationCodes := []; quotas := []; auditLogs := []
|}.

Lemma club_keyed : users_keyed club.
Proof.
  intros k u H. apply map_get_Some_elem in H. unfold club in H. cbn [users] in H.
  repeat (apply elem_of_cons in H as [[= -> ->]|H]; [reflexivity|]). by apply not_elem_of_nil in H.
Qed.

(** The owner tries to leave, then promotes the administrator and leaves. *)
Definition after_failed_leave : AccountStore := (leaveMemoryOrganization plain_digest "org-club" "usr-an" 1 100 club).2.
Definition after_promotion : AccountStore :=
  (changeMemoryOrganizationMembershipRole plain_digest "org-club" "mem_org-club:usr-bae" "usr-an" OWNER 1 101
     after_failed_leave).2.
Definition after_leave : AccountStore := (leaveMemoryOrganization plain_digest "org-club" "usr-an" 1 102 after_promotion).2.

Example club_run :
  ((leaveMemoryOrganization plain_digest "org-club" "usr-an" 1 100 club).1
     = Throw (MembershipTransitionError "LAST_OWNER" 409))
  /\ (m_userId <$> members after_leave) = ["usr-bae"]
  /\ (u_sessionVersion <$> map_get "usr-an" (users after_leave)) = Some 1%Z.
Proof. vm_compute. done. Qed.

Lemma club_steps P : rtc (account_step plain_digest P) club after_leave.
Proof.
  eapply rtc_l; [apply step_leave with (o := "org-club") (u := "usr-an") (v := 1%Z) (now := 100%Z)|].
  eapply rtc_l; [apply step_changeRole with (o := "org-club") (i := "mem_org-club:usr-bae") (u := "usr-an") (r := OWNER)
    (v := 1%Z) (now := 101%Z)|].
  eapply rtc_l; [apply step_leave with (o := "org-club") (u := "usr-an") (v := 1%Z) (now := 102%Z)|].
  apply rtc_refl.
Qed.

Lemma organization_keeps_owner_witness : (1 <= ownerCount after_leave "org-club")%Z.
Proof. apply (organization_keeps_owner plain_digest "org-club" club after_leave); [apply club_steps|vm_compute; congruence]. Defined.

Lemma memberships_unique_witness : members_unique (members after_leave).
Proof.
  apply (memberships_unique plain_digest club after_leave); [apply club_steps|].
  apply (bool_decide_unpack (members_unique (members club))). vm_compute. exact I.
Defined.

Lemma sessions_never_revive_witness :
  exists u', map_get "usr-an" (users after_leave) = Some u' /\ u_id u' = "usr-an" /\ u_email u' = "an@club.kr"
             /\ (0 <= u_sessionVersion u')%Z.
Proof.
  apply (sessions_never_revive plain_digest club after_leave "usr-an" (sample_user "usr-an" "an@club.kr"));
    [apply club_steps|apply club_keyed|reflexivity].
Defined.

(** The promotion in detail. *)
Definition promoted_view : OrganizationMemberRecord := {|
  om_id := "mem_org-club:usr-bae"; om_organizationId := "org-club"; om_userId := "usr-bae"; om_role := OWNER;
  om_version := 2; om_createdAt := 6;
  om_user := {| mu_id := "usr-bae"; mu_email := "bae@club.kr"; mu_name := Some "Kim"; mu_avatarUrl := None |}
|}.

Lemma changeRole_success_witness :
  role_changed plain_digest after_failed_leave after_promotion "org-club" "mem_org-club:usr-bae" "usr-an" OWNER 1 101
  /\ om_role promoted_view = OWNER.
Proof. apply (changeRole_success plain_digest). vm_compute. reflexivity. Defined.

Lemma concurrent_change_rejected_witness :
    (exists e, changeMemoryOrganizationMembershipRole plain_digest "org-club" "mem_org-club:usr-bae" "usr-an" DEVELOPER 1 102
                 after_promotion = (Throw e, after_promotion))
    /\ (exists e, removeMemoryOrganizationMember plain_digest "org-club" "mem_org-club:usr-bae" "usr-an" 1 102
                    after_promotion = (Throw e, after_promotion)).
Proof.
  apply (concurrent_change_rejected plain_digest "org-club" "mem_org-club:usr-bae" "usr-an" OWNER 1 101
           after_failed_leave after_promotion promoted_view); [vm_compute; reflexivity|].
  intros H. apply (f_equal (fun s => length (auditLogs s))) in H. vm_compute in H. congruence.
Defined.

(** The invited user accepts. *)
Definition after_accept : AccountStore := (acceptMemoryOrganizationInvite "hash-1" "usr-cho" 200 club).2.

Lemma invites_stay_versioned_witness : invites_versioned (organizationInvites after_leave).
Proof.
  apply (invites_stay_versioned plain_digest any_creation club after_leave); [apply club_steps|].
  intros [|a] [|b] i j; cbn; intros; try lia; done.
Defined.

Lemma invite_token_single_use_witness :
  acceptMemoryOrganizationInvite "hash-1" "usr-bae" 300 after_accept = (Ok None, after_accept).
Proof.
  apply (invite_token_single_use plain_digest any_creation "hash-1" "usr-cho" 200 club after_accept after_accept
           (Accepted "org-club" DEVELOPER)); [vm_compute; reflexivity|apply rtc_refl|].
  intros [|a] [|b] i j; cbn; intros; done.
Defined.
