(* ===== verification/OrganizationIdentity.v ===== *)
(** * Identity of organizations

    An organization's identifier is derived from its slug.  The derivation
    keeps the first 59 characters: slugs that agree on them share an
    identifier.  [createOrganization] refuses such a collision;
    [createOrganizationForUser] does not look for one. *)

From S2P Require Import Prelude JsString JsVal JsMap Ids Rbac Secrets Identity Accounts Membership AccountInvariants AccountSafety.

Lemma infix_no_adjacent l : infixb (chars "--") l = false -> no_adjacent is_hyphen l = true.
Proof.
  induction l as [|x l IH]; [done|]. intros H.
  assert (Hl : infixb (chars "--") l = false).
  { apply not_true_iff_false. intros (k1 & k2 & E)%infixb_spec.
    apply not_true_iff_false in H. apply H, infixb_spec. exists (x :: k1), k2. by rewrite E. }
  destruct l as [|y l]; [done|]. rewrite no_adjacent_cons, (IH Hl), andb_true_r.
  destruct (is_hyphen x && is_hyphen y) eqn:E; [|done].
  apply andb_true_iff in E as [->%is_hyphen_eq ->%is_hyphen_eq].
  apply not_true_iff_false in H. destruct H. apply infixb_spec. by exists [], l.
Qed.

(** The facts of an accepted route slug, on its characters. *)
Record route_slug (l : list ascii) : Prop := {
  rs_class : Forall (fun c => is_lower_alnum c || is_hyphen c = true) l;
  rs_head : forall c k, l = c :: k -> is_hyphen c = false;
  rs_single : no_adjacent is_hyphen l = true;
  rs_last : forall c k, l = k ++ [c] -> is_hyphen c = false;
  rs_length : (length l <= 63)%nat;
  rs_nonempty : l <> []
}.

Lemma accepted_route_slug value s : parseOrganizationRouteSlug value = Ok s -> route_slug (chars s).
Proof.
  intros (_ & Hl & Hi & Hlen & _)%route_slug_Ok. pose proof (label_pattern_class _ Hl) as Hc.
  unfold label_pattern, label_chars in Hl. unfold includes in Hi. unfold str_length in Hlen.
  destruct (chars s) as [|x l] eqn:E; [done|]. apply andb_true_iff in Hl as [[Hx _]%andb_true_iff Hlast].
  split; [done| | | |lia|done].
  - intros c k [= <- _]. by apply lower_alnum_not_hyphen.
  - by apply infix_no_adjacent.
  - intros c k Hk. rewrite Hk, last_snoc in Hlast. by apply lower_alnum_not_hyphen.
Qed.

Lemma route_slug_prefixed l : route_slug l -> slug_chars (unchars (chars "org-" ++ l)) = take 63 (chars "org-" ++ l).
Proof.
  intros [Hc Hh Hs Hl Hlen Hne]. apply slug_chars_cut.
  - apply Forall_app. split; [by repeat constructor|done].
  - intros c k. cbn. by intros [= <- _].
  - destruct l as [|x l]; [done|]. change (chars "org-" ++ x :: l) with (["o"; "r"; "g"; "-"]%char ++ x :: l).
    cbn [app]. rewrite !no_adjacent_cons, Hs. by rewrite (Hh x l).
  - intros c k Hk. destruct l as [|y l _] using rev_ind; [done|].
    rewrite app_assoc in Hk. apply app_inj_tail in Hk as [_ <-]. by apply (Hl y l).
Qed.

Lemma stableId_org s :
  route_slug (chars s) -> stableId "org" [JStr s] = unchars (chars "org-" ++ take 59 (chars s)).
Proof.
  intros Hs. unfold stableId. cbn [map join].
  assert (Hfix : slugify (JStr s) "x" = s).
  { unfold slugify. cbn [js_nullish js_String].
    assert (Hc : slug_chars s = chars s).
    { rewrite <- (unchars_chars s) at 1. destruct Hs. apply slug_shape_fixed; [by split|done]. }
    rewrite Hc, unchars_chars. unfold str_or. rewrite str_empty_eq. case_bool_decide as E; [|done].
    subst s. by destruct Hs. }
  rewrite Hfix. unfold slugify. cbn [js_nullish js_String].
  assert (Hcat : "org" +:+ "-" +:+ s = unchars (chars "org-" ++ chars s)).
  { rewrite <- (unchars_chars ("org" +:+ "-" +:+ s)), !chars_app. done. }
  rewrite Hcat, route_slug_prefixed by done. reflexivity.
Qed.

(** Two accepted route slugs give the same organization identifier exactly
    when their first 59 characters agree; in particular slugs of at most 59
    characters never collide. *)
Theorem organization_id_collision p q :
  parseOrganizationRouteSlug (JStr p) = Ok p -> parseOrganizationRouteSlug (JStr q) = Ok q ->
  (stableId "org" [JStr p] = stableId "org" [JStr q] <-> take 59 (chars p) = take 59 (chars q))
  /\ ((str_length p <= 59)%Z -> (str_length q <= 59)%Z -> stableId "org" [JStr p] = stableId "org" [JStr q] -> p = q).
Proof.
  intros Hp%accepted_route_slug Hq%accepted_route_slug. rewrite !stableId_org by done.
  assert (Hiff : unchars (chars "org-" ++ take 59 (chars p)) = unchars (chars "org-" ++ take 59 (chars q))
                 <-> take 59 (chars p) = take 59 (chars q)).
  { split; [|by intros ->]. intros H%(f_equal chars). rewrite !chars_unchars in H. by apply app_inv_head in H. }
  split; [done|]. unfold str_length. intros Hlp Hlq H%Hiff.
  rewrite !take_ge in H by lia. by rewrite <- (unchars_chars p), H, unchars_chars.
Qed.

Definition sixty_as : string := "aaaaaaaaaaaaaaaaaaaaaaaaaaaaaaaaaaaaaaaaaaaaaaaaaaaaaaaaaaaa".

Lemma organization_id_collision_witness :
  stableId "org" [JStr "raibit"] = stableId "org" [JStr "raibit-club"] -> "raibit" = "raibit-club".
Proof.
  apply (organization_id_collision "raibit" "raibit-club"); vm_compute; try reflexivity; congruence.
Defined.

(** ** The store's own creation refuses the collision *)

(** [createOrganization] never changes the slug an identifier stands for:
    an organization that exists keeps its slug, and one that would collide is
    refused with the store unchanged. *)
Theorem createOrganization_keeps_slugs name plan slug now s id org :
  map_get id (organizations s) = Some org ->
  exists org', map_get id (organizations (createOrganization name plan slug now s).2) = Some org'
               /\ org_slug org' = org_slug org.
Proof.
  intros Hid. unfold createOrganization. step_once; [|by exists org]. step_once. step_once; [|by exists org].
  rewrite run_modify. match goal with |- context [organizations (?m ?st).2] =>
    assert (Hf : frame organizations m) by solve_frame; rewrite (Hf st) end.
  cbn. rewrite map_get_set. case_decide as Eid; [|by exists org].
  eexists. split; [done|]. cbn in E0 |- *. rewrite Eid, Hid in E0.
  apply throw_if_Ok, negb_false_iff, bool_decide_eq_true in E0. done.
Qed.

Lemma createOrganization_keeps_slugs_witness :
  let s := (createOrganization "First" "free" (Some (JStr (sixty_as +:+ "1"))) 1 empty_accounts).2 in
  exists org', map_get (stableId "org" [JStr (sixty_as +:+ "1")])
                 (organizations (createOrganization "Second" "free" (Some (JStr (sixty_as +:+ "2"))) 2 s).2) = Some org'
               /\ org_slug org' = sixty_as +:+ "1".
Proof.
  apply (createOrganization_keeps_slugs "Second" "free" (Some (JStr (sixty_as +:+ "2"))) 2
           (createOrganization "First" "free" (Some (JStr (sixty_as +:+ "1"))) 1 empty_accounts).2
           (stableId "org" [JStr (sixty_as +:+ "1")])
           (mkOrganization (stableId "org" [JStr (sixty_as +:+ "1")]) "First" (sixty_as +:+ "1") "free" 1)).
  vm_compute. reflexivity.
Defined.

(** ** The authenticated creation does not *)

Definition creation_input (user name slug : string) : jsval :=
  JObj [("actorUserId", JStr user); ("name", JStr name); ("slug", JStr slug)].

(** An approved user who creates an organization under a fresh slug whose
    first 59 characters are those of another organization's slug succeeds, and
    becomes an owner of that other organization, whose name, slug and plan are
    overwritten. *)
Theorem createOrganizationForUser_takeover s user name p q now u victim :
  parseOrganizationRouteSlug (JStr p) = Ok p -> parseOrganizationRouteSlug (JStr q) = Ok q ->
  take 59 (chars p) = take 59 (chars q) -> p <> q ->
  map_get (stableId "org" [JStr p]) (organizations s) = Some victim -> org_slug victim = p ->
  parseAuthenticatedOrganizationCreateInput (creation_input user name q)
    = Ok {| poc_actorUserId := user; poc_name := name; poc_slug := q |} ->
  assertOrganizationCreatorEligible (map_get user (users s)) now = Ok u ->
  existsb (fun o => bool_decide (org_slug o = q)) (map_values (organizations s)) = false ->
  exists o m s', createOrganizationForUser (creation_input user name q) now s = (Ok (o, m), s')
    /\ map_get (stableId "org" [JStr p]) (organizations s') = Some (mkOrganization (stableId "org" [JStr p]) name q "free" now)
    /\ members s' = members s ++ [m]
    /\ is_member (stableId "org" [JStr p]) user m /\ role_of m = Some OWNER.
Proof.
  intros Hp Hq Hpre Hne Hv Hslug Hparse Helig Hfree. apply accepted_route_slug in Hp, Hq.
  assert (Hid : stableId "org" [JStr q] = stableId "org" [JStr p]) by (rewrite !stableId_org by done; by rewrite Hpre).
  unfold createOrganizationForUser. rewrite Hparse, run_lift, run_get. cbn [poc_actorUserId poc_slug poc_name].
  rewrite Helig, run_lift, Hfree, run_lift. cbn [throw_if]. rewrite run_modify, run_audit, Hid.
  do 3 eexists. split_and!; [reflexivity| |reflexivity|done|done].
  cbn. by rewrite map_get_set_eq.
Qed.

Definition takeover_state : AccountStore := {|
  organizations := [(stableId "org" [JStr (sixty_as +:+ "1")],
                     mkOrganization (stableId "org" [JStr (sixty_as +:+ "1")]) "Victim" (sixty_as +:+ "1") "pro" 1)];
  users := [("usr-eve", mkUser "usr-eve" "Eve" "" false "eve@club.kr" None None None "USER" "NON_CLUB" "APPROVED"
                          0 None None None None (Some 1%Z) 1 1)];
  members := [mkMember (stableId "org" [JStr (sixty_as +:+ "1")]) "usr-victim" "OWNER" (Some 1%Z) None None];
  organizationInvites := []; emailVerificationCodes := []; quotas := []; auditLogs := []
|}.

Lemma createOrganizationForUser_takeover_witness :
  exists o m s', createOrganizationForUser (creation_input "usr-eve" "Mine" (sixty_as +:+ "2")) 9 takeover_state = (Ok (o, m), s')
    /\ map_get (stableId "org" [JStr (sixty_as +:+ "1")]) (organizations s')
       = Some (mkOrganization (stableId "org" [JStr (sixty_as +:+ "1")]) "Mine" (sixty_as +:+ "2") "free" 9)
    /\ members s' = members takeover_state ++ [m]
    /\ is_member (stableId "org" [JStr (sixty_as +:+ "1")]) "usr-eve" m /\ role_of m = Some OWNER.
Proof.
  eapply (createOrganizationForUser_takeover takeover_state "usr-eve" "Mine" (sixty_as +:+ "1") (sixty_as +:+ "2") 9);
    try (vm_compute; reflexivity). vm_compute. congruence.
Defined.
