(* ===== verification/Sessions.v ===== *)
(** * Passwords and session payloads ([packages/core/src/identity.ts])

    Password hashes and their verification, the payload a session token
    carries, and the promotion of the first user.  [crypto.scrypt] and the
    random salt are parameters. *)

From S2P Require Import Prelude JsString JsVal JsMap Ids Rbac Secrets Identity Accounts Membership AccountInvariants AccountSafety.
From stdpp Require Import pretty.

Section passwords.
(** [crypto.scrypt(password, salt, 32, { N: cost })] in base64url. *)
Context (scrypt : string -> string -> jsnum -> string).

Definition DUMMY_PASSWORD_HASH : string :=
  "scrypt:v1:16384:raibitserver-login-dummy-v1:JppfEKtMgGpjjcApqHiLK-1Cno0OpvqN1hdYNu6zdQg".

(** [cost] is [Number(options.cost || 16384)]; [salt] the given or random salt. *)
Definition hashPasswordAsync (password : jsval) (salt : string) (cost : Z) : result string :=
  _ ← assertPasswordStrength password;
  let hash := scrypt (js_String password) salt (NInt cost) in
  Ok ("scrypt:v1:" +:+ pretty cost +:+ ":" +:+ salt +:+ ":" +:+ hash).

(** The synchronous twin. *)
Definition hashPassword (password : jsval) (salt : string) (cost : Z) : result string :=
  hashPasswordAsync password salt cost.

(** [const [a, b, ...] = text.split(':')]; a missing element is [undefined]. *)
Definition nth_text (l : list string) (k : nat) : option string := l !! k.
Definition blank (o : option string) : bool := str_empty (option_text o).

Definition cost_number (o : option string) : jsnum :=
  if blank o then NInt 16384 else js_Number (option_text o).

Definition verifyPassword (password encoded : string) : bool :=
  let parts := split_on ":"%char encoded in
  if negb (bool_decide (nth_text parts 0 = Some "scrypt")) || negb (bool_decide (nth_text parts 1 = Some "v1"))
     || blank (nth_text parts 3) || blank (nth_text parts 4)
  then false
  else
    let actual := scrypt password (option_text (nth_text parts 3)) (cost_number (nth_text parts 2)) in
    bool_decide (Some actual = nth_text parts 4).

Definition is_base64url (c : ascii) : bool := is_alnum c || (code c =? 95)%N || is_hyphen c.

Definition power_of_two_cost (z : Z) : bool :=
  ((1024 <=? z) && (z <=? 16384) && (Z.land z (z - 1) =? 0))%Z.

Definition validPasswordHashForVerification (encoded : string) : bool :=
  let parts := split_on ":"%char encoded in
  bool_decide (nth_text parts 0 = Some "scrypt") && bool_decide (nth_text parts 1 = Some "v1")
  && negb (blank (nth_text parts 3))
  && class_pattern is_base64url 43 43 (option_text (nth_text parts 4))
  && match nth_text parts 2 with
     | None => false
     | Some text => match js_Number text with
                    | NInt z => safe_integer z && power_of_two_cost z
                    | _ => false
                    end
     end.

(** An encoding that is missing or malformed is replaced by a dummy, so that
    the same work is done. *)
Definition verifyPasswordAsync (password encoded : string) : bool :=
  let candidate := if validPasswordHashForVerification encoded then encoded else DUMMY_PASSWORD_HASH in
  let parts := split_on ":"%char candidate in
  let actual := scrypt password (option_text (nth_text parts 3)) (cost_number (nth_text parts 2)) in
  bool_decide (Some actual = nth_text parts 4).

(** ** Round trip *)

Definition no_colon (s : string) : Prop := ":"%char ∉ chars s.

Lemma split_on_cons a b : no_colon a -> split_on ":"%char (a +:+ ":" +:+ b) = a :: split_on ":"%char b.
Proof. apply (split_on_sep ":"%char). Qed.

Lemma split_on_last a : no_colon a -> split_on ":"%char a = [a].
Proof. apply split_on_none. Qed.

Lemma pretty_no_colon (z : Z) : (0 <= z < 10 ^ 6)%Z -> no_colon (pretty z).
Proof.
  intros Hz Hin. destruct (pretty_Z_digits z 6 Hz ltac:(lia)) as (_ & _ & Hd).
  rewrite forallb_forall in Hd. apply list_elem_of_In in Hin. by apply Hd in Hin.
Qed.

Lemma hash_parts cost salt hash :
  (0 <= cost < 10 ^ 6)%Z -> no_colon salt -> no_colon hash ->
  split_on ":"%char ("scrypt:v1:" +:+ pretty cost +:+ ":" +:+ salt +:+ ":" +:+ hash)
  = ["scrypt"; "v1"; pretty cost; salt; hash].
Proof.
  intros Hc Hs Hh.
  change ("scrypt:v1:" +:+ ?x) with ("scrypt" +:+ ":" +:+ ("v1" +:+ ":" +:+ x)).
  rewrite !split_on_cons, split_on_last; try done; try by apply pretty_no_colon.
  all: unfold no_colon; cbn; set_solver.
Qed.

Lemma power_of_two_cost_range cost : power_of_two_cost cost = true -> (1024 <= cost <= 16384)%Z.
Proof. unfold power_of_two_cost. rewrite !andb_true_iff, !Z.leb_le. tauto. Qed.

Lemma power_of_two_between cost k :
  (0 <= k)%Z -> (2 ^ k < cost < 2 ^ (k + 1))%Z -> power_of_two_cost cost = false.
Proof.
  intros Hk Hc. apply not_true_iff_false. unfold power_of_two_cost. rewrite !andb_true_iff, Z.eqb_eq. intros [_ Hl].
  apply (f_equal (fun z => Z.testbit z k)) in Hl. rewrite Z.land_spec, Z.bits_0 in Hl.
  rewrite Z.pow_add_r in Hc by lia. change (2 ^ 1)%Z with 2%Z in Hc.
  assert (Hbit : forall z, (2 ^ k <= z < 2 * 2 ^ k)%Z -> Z.testbit z k = true).
  { intros z Hz. apply Z.testbit_true; [done|].
    replace (z / 2 ^ k)%Z with 1%Z; [done|]. apply (Z.div_unique z (2 ^ k) 1 (z - 2 ^ k)); lia. }
  rewrite !Hbit in Hl by lia. done.
Qed.

Lemma power_of_two_costs cost :
  power_of_two_cost cost = true -> cost ∈ [1024; 2048; 4096; 8192; 16384]%Z.
Proof.
  intros H. pose proof (power_of_two_cost_range cost H) as Hr.
  destruct (decide (cost ∈ [1024; 2048; 4096; 8192; 16384]%Z)) as [|Hn]; [done|exfalso].
  rewrite !not_elem_of_cons in Hn. apply not_false_iff_true in H. apply H.
  destruct (decide (cost < 2048)%Z); [apply (power_of_two_between cost 10); cbn; lia|].
  destruct (decide (cost < 4096)%Z); [apply (power_of_two_between cost 11); cbn; lia|].
  destruct (decide (cost < 8192)%Z); [apply (power_of_two_between cost 12); cbn; lia|].
  apply (power_of_two_between cost 13); cbn; lia.
Qed.

(** The admitted costs are read back from their text. *)
Lemma cost_text_round_trip cost : power_of_two_cost cost = true -> js_Number (pretty cost) = NInt cost.
Proof.
  intros H%power_of_two_costs. rewrite !elem_of_cons, elem_of_nil in H.
  destruct H as [->|[->|[->|[->|[->|[]]]]]]; vm_compute; reflexivity.
Qed.

(** A password verifies against its own hash, by both verifiers, when salt
    and digest are what [crypto] produces (non-empty, without a colon, the
    digest 43 base64url characters) and the cost is an admitted power of two. *)
Theorem password_round_trip password salt cost encoded :
  power_of_two_cost cost = true -> no_colon salt -> salt <> "" ->
  class_pattern is_base64url 43 43 (scrypt password salt (NInt cost)) = true ->
  hashPasswordAsync (JStr password) salt cost = Ok encoded ->
  verifyPassword password encoded = true /\ verifyPasswordAsync password encoded = true.
Proof.
  intros Hcost Hsalt Hne Hcls (u & _ & [= <-])%bind_Ok. cbn [js_String].
  remember (scrypt password salt (NInt cost)) as hash eqn:Ehash.
  pose proof (cost_text_round_trip cost Hcost) as Hnum.
  assert (Hrange : (1024 <= cost <= 16384)%Z) by (by apply power_of_two_cost_range).
  assert (Hh : no_colon hash).
  { intros Hin. unfold class_pattern in Hcls. rewrite !andb_true_iff, forallb_forall in Hcls.
    destruct Hcls as [_ Hall]. apply list_elem_of_In in Hin. by apply Hall in Hin. }
  assert (Hhne : str_empty hash = false) by (clear -Hcls; destruct hash; [vm_compute in Hcls; discriminate|reflexivity]).
  assert (Hpne : str_empty (pretty cost) = false).
  { destruct (pretty_Z_digits cost 6 ltac:(lia) ltac:(lia)) as (Hl & _). clear -Hl. destruct (pretty cost); [cbn in Hl; lia|reflexivity]. }
  assert (Hsne : str_empty salt = false) by (rewrite str_empty_eq; by case_bool_decide).
  pose proof (hash_parts cost salt hash ltac:(lia) Hsalt Hh) as Hparts.
  assert (Hcn : cost_number (Some (pretty cost)) = NInt cost) by (unfold cost_number, blank; cbn; by rewrite Hpne).
  assert (Hvalid : validPasswordHashForVerification
            ("scrypt:v1:" +:+ pretty cost +:+ ":" +:+ salt +:+ ":" +:+ hash) = true).
  { unfold validPasswordHashForVerification, nth_text, blank. rewrite Hparts.
    cbn [lookup list_lookup option_text]. rewrite Hsne, Hcls, Hnum, Hcost.
    assert (Hsafe : safe_integer cost = true)
      by (apply andb_true_iff; unfold max_safe_integer; rewrite !Z.leb_le; lia).
    by rewrite Hsafe. }
  split.
  - unfold verifyPassword, nth_text, blank. rewrite Hparts. cbn [lookup list_lookup option_text].
    rewrite Hsne, Hhne, Hcn, <- Ehash, !bool_decide_true by done. done.
  - unfold verifyPasswordAsync. rewrite Hvalid. unfold nth_text. rewrite Hparts. cbn [lookup list_lookup option_text].
    rewrite Hcn, <- Ehash, bool_decide_true by done. done.
Qed.
End passwords.

Lemma password_round_trip_witness :
  let scrypt := fun _ _ _ : _ => "JppfEKtMgGpjjcApqHiLK-1Cno0OpvqN1hdYNu6zdQg" in
  let encoded := "scrypt:v1:16384:salt:JppfEKtMgGpjjcApqHiLK-1Cno0OpvqN1hdYNu6zdQg" in
  verifyPassword scrypt "correct horse" encoded = true /\ verifyPasswordAsync scrypt "correct horse" encoded = true.
Proof.
  cbn zeta.
  apply (password_round_trip (fun _ _ _ => "JppfEKtMgGpjjcApqHiLK-1Cno0OpvqN1hdYNu6zdQg") "correct horse" "salt" 16384);
    try (vm_compute; reflexivity); [|congruence].
  unfold no_colon. cbn. set_solver.
Defined.

(** ** Session payloads *)

(** What the token says about the user. *)
Record SessionPayload := {
  sp_sub : string;
  sp_email : string;
  sp_role : string;
  sp_organizationId : option string;
  sp_organizationIds : list string;
  sp_rolesByOrganization : list (string * string);
  sp_accountType : string;
  sp_approvalStatus : string;
  sp_sessionVersion : Z;
  sp_userRole : string;
  sp_emailVerified : bool
}.

Definition sessionPayloadForUser (user : PublicUser) (memberships : list Member) : SessionPayload :=
  let organizationIds := filter (fun o => o <> "") (m_organizationId <$> memberships) in
  let rolesByOrganization :=
    foldl (fun roles m => map_set (m_organizationId m) (m_role m) roles) []
      (filter (fun m => m_organizationId m <> "" /\ m_role m <> "") memberships) in
  {| sp_sub := pu_id user; sp_email := pu_email user;
     sp_role := str_or (match memberships with m :: _ => m_role m | [] => "" end) "developer";
     sp_organizationId := head organizationIds;
     sp_organizationIds := organizationIds;
     sp_rolesByOrganization := rolesByOrganization;
     sp_accountType := str_or (pu_accountType user) "NON_CLUB";
     sp_approvalStatus := str_or (pu_approvalStatus user) "PENDING";
     sp_sessionVersion := pu_sessionVersion user;
     sp_userRole := str_or (pu_role user) "USER";
     sp_emailVerified := bool_decide (is_Some (pu_emailVerifiedAt user)) |}.

(** The payload as the JSON object that is signed. *)
Definition session_json (p : SessionPayload) : list (string * jsval) :=
  [("sub", JStr (sp_sub p)); ("email", JStr (sp_email p)); ("role", JStr (sp_role p));
   ("organizationId", match sp_organizationId p with Some o => JStr o | None => JNull end);
   ("organizationIds", JArr (JStr <$> sp_organizationIds p));
   ("rolesByOrganization", JObj (prod_map id JStr <$> sp_rolesByOrganization p));
   ("accountType", JStr (sp_accountType p)); ("approvalStatus", JStr (sp_approvalStatus p));
   ("sessionVersion", JNum (NInt (sp_sessionVersion p))); ("userRole", JStr (sp_userRole p));
   ("emailVerified", JBool (sp_emailVerified p))].

Definition personalOrganizationSlug (email : string) : string :=
  slugify_default (JStr (str_or (match split_on "@"%char email with local :: _ => local | [] => "" end) "user")).

(** ** Promotion of the first user *)

(** Users as [shouldPromoteFirstLogin] reads them. *)
Definition sameUser (a b : User) : bool :=
  if negb (str_empty (u_id a)) && negb (str_empty (u_id b)) && bool_decide (u_id a = u_id b) then true
  else negb (str_empty (u_email a)) && negb (str_empty (u_email b))
       && bool_decide (toLowerCase (u_email a) = toLowerCase (u_email b)).

(** [localeCompare] on identifiers is a parameter: a total preorder. *)
Definition compareUsersByCreation (locale_le : string -> string -> bool) (a b : User) : bool :=
  if bool_decide (u_createdAt a = u_createdAt b)
  then locale_le (str_or (u_id a) (u_email a)) (str_or (u_id b) (u_email b))
  else (u_createdAt a <=? u_createdAt b)%Z.

Definition shouldPromoteFirstLogin (locale_le : string -> string -> bool) (production : bool) (user : option User)
    (all : list User) : bool :=
  match user with
  | None => false
  | Some u =>
      if production || bool_decide (u_role u = "ADMIN") then false
      else if existsb (fun c => bool_decide (u_role c = "ADMIN")) all then false
      else match js_sort (compareUsersByCreation locale_le) all with
           | [] => false
           | first :: _ => sameUser first u
           end
  end.
