(* ===== verification/Auth.v ===== *)
(** * Authentication and authorization ([packages/core/src/auth.ts])

    Session tokens, the subject of a request, and the checks of action and
    scope.  HMAC-SHA-256 and the base64url encoding of JSON segments are
    parameters; the subject is mutated by the checks, as in the code. *)

From S2P Require Import Prelude JsString JsVal JsMap Ids Rbac Secrets Identity Accounts Membership AccountInvariants AccountSafety Sessions.
From Stdlib Require QArith.QArith_base.

Definition unauthorized (message : string) : jserror := JsError "Error" message (Some 401%Z).
Definition auth_forbidden (message : string) : jserror := JsError "Error" message (Some 403%Z).
Definition type_error : jserror := JsError "TypeError" "cannot read properties of null" None.

(** [value.key]: reading a property of [null] or [undefined] throws. *)
Definition get_prop (key : string) (v : jsval) : result jsval :=
  match v with JNull | JUndef => Throw type_error | _ => Ok (field key v) end.

(** [a <= n] and [n <= a] for an integer [a] and any number [n]; false on [NaN]. *)
Definition int_ge_num (a : Z) (n : jsnum) : bool :=
  match n with
  | NInt z => (z <=? a)%Z
  | NFrac _ q => QArith_base.Qle_bool q (QArith_base.inject_Z a)
  | NNaN => false
  | NInf negative => negative
  end.
Definition int_lt_num (a : Z) (n : jsnum) : bool :=
  match n with
  | NInt z => (a <? z)%Z
  | NFrac _ q => negb (QArith_base.Qle_bool q (QArith_base.inject_Z a))
  | NNaN => false
  | NInf negative => negb negative
  end.

(** ** Tokens *)

Section tokens.
Context (hmac : string -> string -> string).
Context (encode_segment : jsval -> string) (decode_segment : string -> option jsval).

Definition reserved_claims : list string := ["exp"; "iat"; "nbf"; "iss"; "aud"; "jti"].

Definition jwt_header : jsval := JObj [("alg", JStr "HS256"); ("typ", JStr "JWT")].

Definition token_ttl (expiresInSeconds : Z) : Z :=
  Z.max 60 (Z.min (if (expiresInSeconds =? 0)%Z then 3600 else expiresInSeconds) (24 * 60 * 60))%Z.

Definition jwt_body (payload : list (string * jsval)) (expiresInSeconds : Z) (issuer audience jti : string) (nowMs : Z)
    : jsval :=
  let now := (nowMs / 1000)%Z in
  let safePayload := filter (fun kv : string * jsval => kv.1 ∉ reserved_claims) payload in
  JObj (safePayload ++ [("iss", JStr issuer); ("aud", JStr audience); ("jti", JStr jti);
                        ("iat", JNum (NInt now)); ("exp", JNum (NInt (now + token_ttl expiresInSeconds)%Z))]).

Definition signJwtHs256 (payload : list (string * jsval)) (secret : string) (expiresInSeconds : Z)
    (issuer audience jti : string) (nowMs : Z) : result string :=
  if str_empty secret then Throw (JsError "Error" "jwt secret is required" None)
  else
    let encodedHeader := encode_segment jwt_header in
    let encodedBody := encode_segment (jwt_body payload expiresInSeconds issuer audience jti nowMs) in
    let signature := hmac secret (encodedHeader +:+ "." +:+ encodedBody) in
    Ok (encodedHeader +:+ "." +:+ encodedBody +:+ "." +:+ signature).

Definition createSessionToken (user : PublicUser) (memberships : list Member) (jwtSecret : string) (ttl : jsnum)
    (issuer jti : string) (nowMs : Z) : result string :=
  signJwtHs256 (session_json (sessionPayloadForUser user memberships)) jwtSecret (sessionTtlSeconds ttl)
    (str_or issuer "raibitserver") "raibitserver-api" jti nowMs.

Definition parseJsonSegment (segment : string) : result jsval :=
  match decode_segment segment with
  | Some v => Ok v
  | None => Throw (unauthorized "invalid bearer token payload")
  end.

Definition claim_is (expected : string) (v : jsval) : bool := bool_decide (as_string v = Some expected).

Definition verifyJwtHs256 (token secret issuer audience : string) (nowMs : Z) : result jsval :=
  _ ← throw_if (str_empty secret) (unauthorized "jwt auth is not configured");
  let parts := split_on "."%char token in
  let headerSegment := option_text (parts !! 0%nat) in
  let payloadSegment := option_text (parts !! 1%nat) in
  let signature := option_text (parts !! 2%nat) in
  _ ← throw_if (str_empty headerSegment || str_empty payloadSegment || str_empty signature)
        (unauthorized "invalid bearer token");
  header ← parseJsonSegment headerSegment;
  alg ← get_prop "alg" header;
  _ ← throw_if (negb (claim_is "HS256" alg)) (unauthorized "unsupported jwt algorithm");
  let expected := hmac secret (headerSegment +:+ "." +:+ payloadSegment) in
  _ ← throw_if (negb (bool_decide (signature = expected))) (unauthorized "invalid bearer token signature");
  payload ← parseJsonSegment payloadSegment;
  let now := (nowMs / 1000)%Z in
  exp ← get_prop "exp" payload;
  _ ← throw_if (negb (truthy exp)) (unauthorized "missing bearer token expiration");
  _ ← throw_if (int_ge_num now (to_number exp)) (unauthorized "expired bearer token");
  _ ← throw_if (truthy (field "nbf" payload) && int_lt_num now (to_number (field "nbf" payload)))
        (unauthorized "bearer token is not active yet");
  _ ← throw_if (negb (str_empty issuer) && negb (claim_is issuer (field "iss" payload)))
        (unauthorized "invalid token issuer");
  _ ← throw_if (negb (str_empty audience) && negb (claim_is audience (field "aud" payload)))
        (unauthorized "invalid token audience");
  _ ← throw_if (negb (truthy (field "jti" payload))) (unauthorized "missing token id");
  Ok payload.

(** ** The subject of a request *)

Record Subject := mkSubject {
  sub_id : jsval;
  sub_role : jsval;
  sub_organizationId : jsval;
  sub_organizationIds : jsval;
  sub_rolesByOrganization : option (list (string * jsval));
  sub_projectId : jsval;
  sub_projectIds : jsval;
  sub_global : bool;
  sub_authMode : string;
  sub_claims : jsval;
  sub_requestAction : option string;
  sub_resolvedOrganization : option string
}.

#[export] Instance Subject_rebuild : Rebuild Subject := fun s =>
  mkSubject (sub_id s) (sub_role s) (sub_organizationId s) (sub_organizationIds s) (sub_rolesByOrganization s)
    (sub_projectId s) (sub_projectIds s) (sub_global s) (sub_authMode s) (sub_claims s) (sub_requestAction s)
    (sub_resolvedOrganization s).

Definition role_text (v : jsval) : bool := match v with JStr role => negb (str_empty (trim role)) | _ => false end.

Definition roleMap (value : jsval) : option (list (string * jsval)) :=
  match value with
  | JObj entries =>
      Some (filter (fun kv : string * jsval =>
              kv.1 <> "" /\ role_text kv.2 = true) entries)
  | _ => None
  end.

Definition isUserBanned (user : option User) (now : Z) : bool :=
  match user with None => false | Some u => ban_active u now end.

Definition claims_global (s : Subject) : bool :=
  sub_global s || match field "global" (sub_claims s) with JBool true => true | _ => false end.

(** [!Number.isInteger(v) || v !== current] *)
Definition session_current (claim : jsval) (current : Z) : bool :=
  match to_number (js_or claim (JNum (NInt 0))) with NInt v => (v =? current)%Z | _ => false end.

Definition assertCurrentSession (s : Subject) (user : option User) (now : Z) : result bool :=
  if negb (bool_decide (sub_authMode s = "jwt")) || claims_global s then Ok true
  else
    match user with
    | None => Throw (unauthorized "session user no longer exists")
    | Some u =>
        _ ← throw_if (isUserBanned user now) (unauthorized "account is banned");
        _ ← throw_if (negb (bool_decide (toUpperCase (str_or (u_approvalStatus u) "PENDING") = "APPROVED")))
              (unauthorized "account is not approved");
        _ ← throw_if (negb (session_current (field "sessionVersion" (sub_claims s)) (u_sessionVersion u)))
              (unauthorized "session has been revoked");
        Ok true
    end.

(** The configuration of the middleware. *)
Record AuthConfig := {
  auth_mode : string;
  auth_allowDisabled : bool;
  auth_defaultRole : jsval;
  auth_allowDevHeaders : bool;
  auth_jwtSecret : string;
  auth_issuer : string;
  auth_audience : string;
  auth_currentUser : option (jsval -> option User)
}.

Definition bearer_token (headers : jsval) : string :=
  let authorization := js_String (js_or (field "authorization" headers) (js_or (field "Authorization" headers) (JStr ""))) in
  if startsWith authorization "Bearer " then unchars (drop 7 (chars authorization)) else "".

Definition or_null (v : jsval) : jsval := js_or v JNull.

Definition jwt_subject (payload : jsval) : Subject := {|
  sub_id := js_or (field "sub" payload) (js_or (field "userId" payload) (js_or (field "email" payload) (JStr "user")));
  sub_role := js_or (field "role" payload) (js_or (field "orgRole" payload) (JStr "viewer"));
  sub_organizationId := js_or (field "organizationId" payload) (or_null (field "orgId" payload));
  sub_organizationIds := or_null (field "organizationIds" payload);
  sub_rolesByOrganization := roleMap (field "rolesByOrganization" payload);
  sub_projectId := or_null (field "projectId" payload);
  sub_projectIds := or_null (field "projectIds" payload);
  sub_global := match field "global" payload with JBool true => true | _ => false end;
  sub_authMode := "jwt"; sub_claims := payload; sub_requestAction := None; sub_resolvedOrganization := None
|}.

Definition subjectFromRequest (headers : jsval) (auth : AuthConfig) (now : Z) : result Subject :=
  if bool_decide (str_or (auth_mode auth) "jwt" = "disabled") then
    _ ← throw_if (negb (auth_allowDisabled auth)) (unauthorized "disabled auth mode requires explicit allowDisabled=true");
    Ok (mkSubject (JStr "system") (js_or (auth_defaultRole auth) (JStr "owner")) JUndef JUndef None JUndef JUndef
          true "disabled" JUndef None None)
  else
    let token := bearer_token headers in
    if str_empty token && auth_allowDevHeaders auth then
      Ok (mkSubject (js_or (field "x-raibitserver-user" headers) (JStr "dev-user"))
            (js_or (field "x-raibitserver-role" headers) (JStr "developer"))
            (or_null (field "x-raibitserver-organization" headers)) JUndef None
            (or_null (field "x-raibitserver-project" headers)) JUndef false "dev-header" JUndef None None)
    else
      _ ← throw_if (str_empty token) (unauthorized "missing bearer token");
      payload ← verifyJwtHs256 token (auth_jwtSecret auth) (str_or (auth_issuer auth) "raibitserver")
                  (str_or (auth_audience auth) "raibitserver-api") now;
      let subject := jwt_subject payload in
      _ ← match auth_currentUser auth with
          | Some currentUser => assertCurrentSession subject (currentUser (sub_id subject)) now
          | None => Ok true
          end;
      Ok subject.

(** ** Actions and scopes *)

Definition normalizeRole (role : jsval) : jsval := JStr (toLowerCase (trim (js_String (js_or role (JStr "viewer"))))).

Definition requireAction (action : string) : M Subject bool :=
  _ ← modify (fun s => s <| sub_requestAction := Some action |>);
  s ← get;
  let roles := match sub_resolvedOrganization s with
               | Some _ => [sub_role s]
               | None => sub_role s :: (match sub_rolesByOrganization s with Some l => l.*2 | None => [] end)
               end in
  _ ← lift (throw_if (negb (existsb (fun role => can (normalizeRole role) action) roles))
              (auth_forbidden ("role " +:+ js_String (sub_role s) +:+ " cannot perform " +:+ action)));
  mret true.

Definition matchesScope (single many expected : jsval) : bool :=
  let value := js_String expected in
  (truthy single && bool_decide (js_String single = value))
  || match many with JArr l => bool_decide (value ∈ (js_String <$> l)) | _ => false end.

Definition own_property (key : string) (fields : list (string * jsval)) : bool := bool_decide (key ∈ fields.*1).

Definition roleForOrganization (s : Subject) (organizationId : jsval) : option jsval :=
  let expected := js_String organizationId in
  let roles := match sub_rolesByOrganization s with Some l => l | None => [] end in
  if own_property expected roles && truthy (obj_get expected roles) then Some (obj_get expected roles)
  else
    let ids := remove_dups (js_String <$> filter (fun v => truthy v = true)
                 (sub_organizationId s :: match sub_organizationIds s with JArr l => l | _ => [] end)) in
    if match roles with [] => true | _ => false end && bool_decide (ids = [expected]) then Some (sub_role s) else None.

Definition scope_organization (scope : jsval) : jsval := js_or (field "organizationId" scope) (or_null (field "orgId" scope)).

Definition requireScope (scope : jsval) : M Subject bool :=
  s ← get;
  if claims_global s || bool_decide (sub_authMode s = "disabled") then mret true
  else
    let organizationId := scope_organization scope in
    let projectId := or_null (field "projectId" scope) in
    _ ← lift (throw_if (truthy organizationId && negb (matchesScope (sub_organizationId s) (sub_organizationIds s) organizationId))
                (auth_forbidden ("subject is not scoped to organization " +:+ js_String organizationId)));
    _ ← (if truthy organizationId then
           match roleForOrganization s organizationId with
           | Some organizationRole =>
               if truthy organizationRole then
                 _ ← modify (fun s => s <| sub_role := organizationRole |>
                                       <| sub_resolvedOrganization := Some (js_String organizationId) |>);
                 match sub_requestAction s with
                 | Some action =>
                     lift (throw_if (negb (str_empty action) && negb (can (normalizeRole organizationRole) action))
                             (auth_forbidden ("role " +:+ js_String organizationRole +:+ " cannot perform " +:+ action)))
                 | None => mret tt
                 end
               else raise (auth_forbidden ("subject has no role in organization " +:+ js_String organizationId))
           | None => raise (auth_forbidden ("subject has no role in organization " +:+ js_String organizationId))
           end
         else mret tt);
    _ ← lift (throw_if (truthy projectId && negb (matchesScope (sub_projectId s) (sub_projectIds s) projectId))
                (auth_forbidden ("subject is not scoped to project " +:+ js_String projectId)));
    mret true.

Definition authorizeSubject (action : string) (scope : jsval) : M Subject Subject :=
  let organizationId := scope_organization scope in
  _ ← (if truthy organizationId then requireScope scope else mret true);
  _ ← requireAction action;
  _ ← (if truthy organizationId then mret true else requireScope scope);
  get.

(** [scope] is [{ ...req.params, ...scope }]. *)
Definition authorizeRequest (headers : jsval) (action : string) (auth : AuthConfig) (scope : jsval) (now : Z)
    : result Subject :=
  subject ← subjectFromRequest headers auth now;
  (authorizeSubject action scope subject).1.

(** ** Tokens: soundness and round trip *)

(** What a token must be for [verifyJwtHs256] to accept it. *)
Definition token_valid (token secret issuer audience : string) (nowMs : Z) (payload : jsval) : Prop :=
  secret <> ""
  /\ exists h p sig rest header,
       split_on "."%char token = h :: p :: sig :: rest
       /\ sig = hmac secret (h +:+ "." +:+ p)
       /\ decode_segment h = Some header /\ as_string (field "alg" header) = Some "HS256"
       /\ decode_segment p = Some payload
       /\ truthy (field "exp" payload) = true
       /\ int_ge_num (nowMs / 1000) (to_number (field "exp" payload)) = false
       /\ (truthy (field "nbf" payload) = true -> int_lt_num (nowMs / 1000) (to_number (field "nbf" payload)) = false)
       /\ (issuer <> "" -> as_string (field "iss" payload) = Some issuer)
       /\ (audience <> "" -> as_string (field "aud" payload) = Some audience)
       /\ truthy (field "jti" payload) = true.

Lemma get_prop_Ok k v w : get_prop k v = Ok w -> w = field k v.
Proof. destruct v; cbn; congruence. Qed.

Lemma parseJsonSegment_Ok s v : parseJsonSegment s = Ok v -> decode_segment s = Some v.
Proof. unfold parseJsonSegment. destruct (decode_segment s); congruence. Qed.

Lemma segment_present (parts : list string) k :
  str_empty (option_text (parts !! k)) = false -> exists s, parts !! k = Some s.
Proof. destruct (parts !! k); [eauto|done]. Qed.

Lemma claim_guard expected v :
  negb (str_empty expected) && negb (claim_is expected v) = false -> expected <> "" -> as_string v = Some expected.
Proof.
  rewrite str_empty_eq. unfold claim_is. intros H Hne. rewrite bool_decide_false in H by done.
  by apply negb_false_iff, bool_decide_eq_true in H.
Qed.

Lemma verify_facts token secret issuer audience nowMs payload :
  verifyJwtHs256 token secret issuer audience nowMs = Ok payload ->
  token_valid token secret issuer audience nowMs payload.
Proof.
  unfold verifyJwtHs256. intros H. unbind.
  repeat match goal with
  | H : parseJsonSegment _ = Ok _ |- _ => apply parseJsonSegment_Ok in H
  | H : get_prop _ _ = Ok _ |- _ => apply get_prop_Ok in H
  end. unbind. subst. unfold claim_is in *.
  repeat match goal with H : bool_decide _ = true |- _ => apply bool_decide_eq_true in H end.
  repeat match goal with
  | H : str_empty (option_text (_ !! ?k)) = false |- _ => apply segment_present in H as [? H]
  end.
  split; [intros ->; done|].
  destruct (split_on "."%char token) as [|h [|p [|sig rest]]]; try done. cbn in *. simplify_eq.
  do 5 eexists. split_and!; [reflexivity|reflexivity|eassumption|..]; try done.
  - match goal with H : truthy (field "nbf" _) && _ = false |- _ => intros Hn; rewrite Hn in H; done end.
  - match goal with H : _ && negb (bool_decide (as_string (field "iss" _) = _)) = false |- _ => by apply claim_guard end.
  - match goal with H : _ && negb (bool_decide (as_string (field "aud" _) = _)) = false |- _ => by apply claim_guard end.
Qed.

Lemma obj_get_absent k (l : list (string * jsval)) : k ∉ l.*1 -> obj_get k l = JUndef.
Proof.
  induction l as [|[k' v] l IH]; [done|]. cbn. rewrite not_elem_of_cons. intros [Hne Hl].
  rewrite decide_False by done. by apply IH.
Qed.

Lemma obj_get_app k (l1 l2 : list (string * jsval)) : k ∉ l1.*1 -> obj_get k (l1 ++ l2) = obj_get k l2.
Proof.
  induction l1 as [|[k' v] l IH]; [done|]. cbn. rewrite not_elem_of_cons. intros [Hne Hl].
  rewrite decide_False by done. by apply IH.
Qed.

Lemma safe_payload_absent k (payload : list (string * jsval)) :
  k ∈ reserved_claims -> k ∉ (filter (fun kv : string * jsval => kv.1 ∉ reserved_claims) payload).*1.
Proof. intros Hk ([k' v] & -> & Hin)%list_elem_of_fmap. apply list_elem_of_filter in Hin. naive_solver. Qed.

(** The reserved claims of a signed body are the signer's, whatever the payload
    brought along. *)
Lemma jwt_body_reserved payload ttl issuer audience jti nowMs k :
  k ∈ reserved_claims ->
  field k (jwt_body payload ttl issuer audience jti nowMs)
  = obj_get k [("iss", JStr issuer); ("aud", JStr audience); ("jti", JStr jti);
               ("iat", JNum (NInt (nowMs / 1000)));
               ("exp", JNum (NInt (nowMs / 1000 + token_ttl ttl)%Z))].
Proof. intros Hk. cbn [jwt_body field]. apply obj_get_app. by apply safe_payload_absent. Qed.

Lemma token_ttl_bounds ttl : (60 <= token_ttl ttl <= 86400)%Z.
Proof. unfold token_ttl. destruct (ttl =? 0)%Z; lia. Qed.

Definition no_dot (s : string) : Prop := "."%char ∉ chars s.

Lemma split_dots a b c : no_dot a -> no_dot b -> no_dot c ->
  split_on "."%char (a +:+ "." +:+ b +:+ "." +:+ c) = [a; b; c].
Proof.
  intros Ha Hb Hc. unfold split_on. rewrite !chars_app.
  change (chars ".") with ["."%char]. cbn [app].
  rewrite !split_chars_sep, split_chars_none by done. cbn. by rewrite !unchars_chars.
Qed.

(** A token signed for a session verifies, from the moment it was issued
    and until its lifetime (between a minute and a day) is over, under the same
    secret, issuer and audience, and yields exactly the signed body; when the
    lifetime is over it is refused. The claims [exp], [iat], [nbf], [iss],
    [aud] and [jti] of a payload have no influence. *)
Theorem jwt_round_trip payload secret ttl issuer audience jti nowMs token later :
  let body := jwt_body payload ttl issuer audience jti nowMs in
  decode_segment (encode_segment jwt_header) = Some jwt_header ->
  decode_segment (encode_segment body) = Some body ->
  no_dot (encode_segment jwt_header) -> no_dot (encode_segment body) -> (forall k x, no_dot (hmac k x)) ->
  encode_segment jwt_header <> "" -> encode_segment body <> "" -> (forall k x, hmac k x <> "") ->
  issuer <> "" -> audience <> "" -> jti <> "" ->
  (0 <= nowMs <= later)%Z ->
  signJwtHs256 payload secret ttl issuer audience jti nowMs = Ok token ->
  verifyJwtHs256 token secret issuer audience later
  = if (later / 1000 <? nowMs / 1000 + token_ttl ttl)%Z then Ok body else Throw (unauthorized "expired bearer token").
Proof.
  intros body Hdh Hdb Hh Hb Hm Hhne Hbne Hmne Hi Ha Hj Htime. unfold signJwtHs256.
  assert (Hne : forall s, s <> "" -> str_empty s = false) by (intros s ?; rewrite str_empty_eq; by case_bool_decide).
  destruct (str_empty secret) eqn:Hs; [done|]. intros [= <-]. fold body.
  unfold verifyJwtHs256. rewrite Hs, split_dots by done. cbn [throw_if mbind result_bind lookup list_lookup option_text].
  rewrite (Hne (encode_segment jwt_header)), (Hne (encode_segment body)), (Hne (hmac _ _)) by done.
  cbn [orb throw_if mbind result_bind]. unfold parseJsonSegment. rewrite Hdh, Hdb.
  cbn [mbind result_bind get_prop jwt_header]. cbn [field obj_get].
  assert (Hf : forall k, k ∈ reserved_claims -> field k body = _) by (intros; by apply jwt_body_reserved).
  assert (Hgp : get_prop "exp" body = Ok (field "exp" body)) by done.
  rewrite Hgp, !Hf by (unfold reserved_claims; set_solver). unfold claim_is. cbn [obj_get].
  repeat (first [rewrite decide_True by done | rewrite decide_False by done]).
  cbn [as_string to_number truthy]. rewrite !bool_decide_true by done.
  rewrite (Hne issuer), (Hne audience), (Hne jti) by done.
  pose proof (token_ttl_bounds ttl) as Httl.
  assert (Hpos : (0 <= nowMs / 1000)%Z) by (apply Z.div_pos; lia).
  cbn [negb throw_if mbind result_bind].
  assert (Hexp : truthy (JNum (NInt (nowMs / 1000 + token_ttl ttl))) = true)
    by (cbn; apply negb_true_iff, Z.eqb_neq; lia).
  rewrite Hexp. cbn [negb throw_if to_number int_ge_num].
  rewrite Z.ltb_antisym. destruct (nowMs / 1000 + token_ttl ttl <=? later / 1000)%Z; reflexivity.
Qed.

(** ** Authorization *)

Lemma requireScope_Ok scope s b s' :
  requireScope scope s = (Ok b, s') -> claims_global s = false -> sub_authMode s <> "disabled" ->
  truthy (scope_organization scope) = true ->
  matchesScope (sub_organizationId s) (sub_organizationIds s) (scope_organization scope) = true
  /\ (truthy (field "projectId" scope) = true ->
      matchesScope (sub_projectId s) (sub_projectIds s) (field "projectId" scope) = true)
  /\ exists role, roleForOrganization s (scope_organization scope) = Some role /\ truthy role = true
       /\ s' = s <| sub_role := role |> <| sub_resolvedOrganization := Some (js_String (scope_organization scope)) |>.
Proof.
  intros H Hg Hm Ho. revert H. unfold requireScope. rewrite run_get, Hg, bool_decide_false by done. cbn [orb].
  rewrite Ho. cbn [andb]. step_once; [|done]. apply throw_if_Ok, negb_false_iff in E.
  unfold mbind at 1, M_bind at 1.
  destruct (roleForOrganization s (scope_organization scope)) as [role|]; [|done].
  destruct (truthy role) eqn:Hr; [|done]. rewrite run_modify.
  set (s1 := s <| sub_role := role |> <| sub_resolvedOrganization := Some _ |>).
  assert (Htail : forall st, (lift (throw_if (truthy (or_null (field "projectId" scope))
             && negb (matchesScope (sub_projectId s) (sub_projectIds s) (or_null (field "projectId" scope))))
             (auth_forbidden ("subject is not scoped to project " +:+ js_String (or_null (field "projectId" scope)))))
             ≫= (fun _ => mret true)) st = (Ok b, s') ->
             s' = st /\ (truthy (field "projectId" scope) = true ->
               matchesScope (sub_projectId s) (sub_projectIds s) (field "projectId" scope) = true)).
  { intros st. step_once; [|done]. apply throw_if_Ok in E0. intros [= _ <-]. split; [done|].
    unfold or_null, js_or in E0. intros Hp. rewrite Hp in E0. rewrite Hp in E0. by apply negb_false_iff in E0. }
  assert (Hdone : (s' = s1 /\ (truthy (field "projectId" scope) = true ->
               matchesScope (sub_projectId s) (sub_projectIds s) (field "projectId" scope) = true)) ->
            matchesScope (sub_organizationId s) (sub_organizationIds s) (scope_organization scope) = true
            /\ (truthy (field "projectId" scope) = true ->
                matchesScope (sub_projectId s) (sub_projectIds s) (field "projectId" scope) = true)
            /\ exists role0, Some role = Some role0 /\ truthy role0 = true
                 /\ s' = s <| sub_role := role0 |> <| sub_resolvedOrganization := Some (js_String (scope_organization scope)) |>)
    by (intros [-> Hp]; split_and!; [done|done|by exists role]).
  destruct (sub_requestAction s) as [action|].
  - match goal with |- context [lift ?r s1] => change (lift r s1) with (r, s1); destruct r; [|done] end.
    intros H. apply Hdone, (Htail s1), H.
  - intros H. apply Hdone, (Htail s1), H.
Qed.

Lemma requireAction_Ok action s b s' :
  requireAction action s = (Ok b, s') -> is_Some (sub_resolvedOrganization s) ->
  can (normalizeRole (sub_role s)) action = true /\ s' = s <| sub_requestAction := Some action |>.
Proof.
  unfold requireAction. rewrite run_modify, run_get. cbn [sub_resolvedOrganization update_field].
  intros H [o Ho]. revert H. rewrite Ho. step_once; [|done]. intros [= _ <-].
  apply throw_if_Ok, negb_false_iff in E. cbn in E. rewrite orb_false_r in E. done.
Qed.

(** What authorization in an organization establishes of the subject that asked:
    it is scoped to the organization (and the project, when one is named) and
    the role it holds in that organization permits the action. *)
Definition permitted_in_scope (s : Subject) (action : string) (scope : jsval) : Prop :=
  matchesScope (sub_organizationId s) (sub_organizationIds s) (scope_organization scope) = true
  /\ (truthy (field "projectId" scope) = true ->
      matchesScope (sub_projectId s) (sub_projectIds s) (field "projectId" scope) = true)
  /\ exists role, roleForOrganization s (scope_organization scope) = Some role
                  /\ can (normalizeRole role) action = true.

Lemma authorizeSubject_facts action scope s r s' :
  authorizeSubject action scope s = (Ok r, s') ->
  claims_global s = false -> sub_authMode s <> "disabled" -> truthy (scope_organization scope) = true ->
  permitted_in_scope s action scope.
Proof.
  intros H Hg Hm Ho. revert H. unfold authorizeSubject. rewrite Ho. unfold mbind, M_bind.
  destruct (requireScope scope s) as [[b|e] s1] eqn:Hsc; [|done].
  destruct (requireAction action s1) as [[b'|e] s2] eqn:Hac; [|done]. intros _.
  apply requireScope_Ok in Hsc as (Hms & Hproj & role & Hrole & Htr & Hs1); [|done..].
  apply requireAction_Ok in Hac as [Hcan _]; [|rewrite Hs1; by eexists].
  split_and!; [done|done|]. exists role. split; [done|]. by rewrite Hs1 in Hcan.
Qed.

(** A subject without global standing that is let through for an action in
    an organization is scoped to that organization and holds there a role that
    permits the action; roles it holds elsewhere do not count. *)
Theorem authorizeSubject_sound action scope s r s' :
  authorizeSubject action scope s = (Ok r, s') ->
  claims_global s = false -> sub_authMode s <> "disabled" -> truthy (scope_organization scope) = true ->
  permitted_in_scope s action scope.
Proof. apply authorizeSubject_facts. Qed.

Lemma assertCurrentSession_Ok s user now b :
  assertCurrentSession s user now = Ok b -> sub_authMode s = "jwt" -> claims_global s = false ->
  exists u, user = Some u /\ ban_active u now = false
            /\ toUpperCase (str_or (u_approvalStatus u) "PENDING") = "APPROVED"
            /\ session_current (field "sessionVersion" (sub_claims s)) (u_sessionVersion u) = true.
Proof.
  unfold assertCurrentSession. intros H Hm Hg. rewrite bool_decide_true, Hg in H by done. cbn [negb orb] in H.
  destruct user as [u|]; [|done]. unbind. exists u. split_and!; try done.
  match goal with H : bool_decide _ = true |- _ => by apply bool_decide_eq_true in H end.
Qed.

(** The roles of a subject with global standing, in any organization *)
Definition some_role_permits (s : Subject) (action : string) : bool :=
  existsb (fun role => can (normalizeRole role) action) (sub_role s :: match sub_rolesByOrganization s with Some l => l.*2 | None => [] end).

Lemma requireAction_any action s b s' : requireAction action s = (Ok b, s') -> some_role_permits s action = true.
Proof.
  unfold requireAction. rewrite run_modify, run_get. cbn [sub_resolvedOrganization update_field]. step_once; [|done]. intros _.
  apply throw_if_Ok, negb_false_iff in E. unfold some_role_permits. destruct (sub_resolvedOrganization s); [|exact E].
  cbn [existsb] in E |- *. rewrite orb_false_r in E. change (can (normalizeRole (sub_role s)) action = true) in E. by rewrite E.
Qed.

Lemma authorizeSubject_global action scope s r s' : authorizeSubject action scope s = (Ok r, s') ->
  claims_global s || bool_decide (sub_authMode s = "disabled") = true -> truthy (scope_organization scope) = true -> some_role_permits s action = true.
Proof.
  intros H Hg Ho. revert H. unfold authorizeSubject. rewrite Ho. unfold mbind at 1, M_bind at 1. unfold requireScope. rewrite run_get, Hg. cbn [mret M_ret].
  unfold mbind, M_bind. destruct (requireAction action s) as [[b|e] s2] eqn:E; [|done]. intros _. by eapply requireAction_any.
Qed.

Definition dev_subject (headers : jsval) : Subject :=
  mkSubject (js_or (field "x-raibitserver-user" headers) (JStr "dev-user")) (js_or (field "x-raibitserver-role" headers) (JStr "developer"))
    (or_null (field "x-raibitserver-organization" headers)) JUndef None (or_null (field "x-raibitserver-project" headers)) JUndef false "dev-header" JUndef None None.

(** The account a token names, as it is now *)
Definition account_current (currentUser : jsval -> option User) (payload : jsval) (now : Z) : Prop :=
  exists u, currentUser (sub_id (jwt_subject payload)) = Some u /\ ban_active u now = false
    /\ toUpperCase (str_or (u_approvalStatus u) "PENDING") = "APPROVED" /\ session_current (field "sessionVersion" payload) (u_sessionVersion u) = true.

(** The ways through: authentication switched off, headers trusted in
    development, a token of a member of the organization, a token signed as global *)
Inductive admission (headers : jsval) (action : string) (auth : AuthConfig) (scope : jsval) (now : Z) : Prop :=
  | by_disabled_auth : str_or (auth_mode auth) "jwt" = "disabled" -> auth_allowDisabled auth = true ->
      can (normalizeRole (js_or (auth_defaultRole auth) (JStr "owner"))) action = true -> admission headers action auth scope now
  | by_dev_headers : str_or (auth_mode auth) "jwt" <> "disabled" -> bearer_token headers = "" -> auth_allowDevHeaders auth = true ->
      permitted_in_scope (dev_subject headers) action scope -> admission headers action auth scope now
  | by_token payload : str_or (auth_mode auth) "jwt" <> "disabled" ->
      token_valid (bearer_token headers) (auth_jwtSecret auth) (str_or (auth_issuer auth) "raibitserver")
        (str_or (auth_audience auth) "raibitserver-api") now payload ->
      claims_global (jwt_subject payload) = false ->
      (forall currentUser, auth_currentUser auth = Some currentUser -> account_current currentUser payload now) ->
      permitted_in_scope (jwt_subject payload) action scope -> admission headers action auth scope now
  | by_global_token payload : str_or (auth_mode auth) "jwt" <> "disabled" ->
      token_valid (bearer_token headers) (auth_jwtSecret auth) (str_or (auth_issuer auth) "raibitserver")
        (str_or (auth_audience auth) "raibitserver-api") now payload ->
      claims_global (jwt_subject payload) = true -> some_role_permits (jwt_subject payload) action = true -> admission headers action auth scope now.

(** C1. There are four ways to be let through for an action in an organization,
    and no other: authentication is configured as disabled and explicitly
    allowed, and the default role permits the action; there is no token,
    development headers are allowed, and the role they give in that
    organization permits it; a token that was signed with the server's secret
    and is neither expired nor issued for someone else names an account that,
    where accounts are looked up, exists, is approved, is not banned and has not
    had its sessions revoked, and whose role in that very organization permits
    it; or such a token was signed as global and one of its roles permits it. *)
Theorem authorizeRequest_sound headers action auth scope now subject :
  authorizeRequest headers action auth scope now = Ok subject -> truthy (scope_organization scope) = true ->
  admission headers action auth scope now.
Proof.
  unfold authorizeRequest, subjectFromRequest. intros H Ho. case_bool_decide as Hd.
  { unbind. apply by_disabled_auth; [done|by destruct (auth_allowDisabled auth)|].
    destruct (authorizeSubject action scope _) as [[r|e] s1] eqn:E in *; [|done].
    apply authorizeSubject_global in E; [|done|done]. unfold some_role_permits in E. cbn [existsb sub_role sub_rolesByOrganization] in E. by rewrite orb_false_r in E. }
  destruct (str_empty (bearer_token headers) && auth_allowDevHeaders auth) eqn:Hdev.
  { apply andb_true_iff in Hdev as [He Ha]. rewrite str_empty_eq in He. apply bool_decide_eq_true in He. unbind. apply by_dev_headers; [done..|].
    destruct (authorizeSubject action scope _) as [[r|e] s1] eqn:E in *; [|done]. by eapply authorizeSubject_facts. }
  unbind. match goal with H : verifyJwtHs256 _ _ _ _ _ = Ok ?p |- _ => rename p into payload; apply verify_facts in H end.
  destruct (authorizeSubject action scope (jwt_subject payload)) as [[r|e] s1] eqn:Hauth; [|done].
  destruct (claims_global (jwt_subject payload)) eqn:Hg.
  - eapply by_global_token; [done..|]. eapply authorizeSubject_global; [exact Hauth|by rewrite Hg|done].
  - eapply by_token; [done..| |by eapply authorizeSubject_facts]. intros currentUser Hc. rewrite Hc in *.
    match goal with H : assertCurrentSession _ _ _ = Ok _ |- _ => by apply assertCurrentSession_Ok in H end.
Qed.
End tokens.

(** ** Revocation *)

(** A token that names a session version older than the account's is
    refused from then on: no sequence of account operations makes it current
    again. *)
Theorem revoked_token_stays_rejected sha256_hex P s s' k u subject v now :
  rtc (account_step sha256_hex P) s s' -> users_keyed s ->
  map_get k (users s) = Some u -> (v < u_sessionVersion u)%Z ->
  sub_authMode subject = "jwt" -> claims_global subject = false ->
  field "sessionVersion" (sub_claims subject) = JNum (NInt v) ->
  exists e, assertCurrentSession subject (map_get k (users s')) now = Throw e.
Proof.
  intros Hr Hk Hu Hv Hm Hg Hclaim.
  destruct (assertCurrentSession subject (map_get k (users s')) now) as [b|e] eqn:E; [|by exists e].
  apply assertCurrentSession_Ok in E as (u' & Hu' & _ & _ & Hcur); [|done..].
  pose proof (rtc_users_grow _ _ _ _ Hr Hk k) as Hgrow. rewrite Hu, Hu' in Hgrow. destruct Hgrow as (_ & _ & Hle).
  rewrite Hclaim in Hcur. unfold session_current, js_or, truthy in Hcur.
  destruct (Z.eqb_spec v 0) as [->|]; cbn [negb to_number] in Hcur; apply Z.eqb_eq in Hcur; lia.
Qed.
