(* ===== verification/EmailCodes.v ===== *)
(** * Email codes: signup verification and password recovery in the store
    ([packages/core/src/store.ts], the [emailVerificationCodes] table)

    Issuing, replacing and consuming one-time codes, completing a signup and
    completing a password recovery.  The comparison of a code with its salted
    hash is the caller's ([verifyCode]); what it returns or throws decides the
    branch. *)

From S2P Require Import Prelude JsString JsVal JsMap Ids Rbac Secrets Identity Accounts Membership AccountInvariants AccountSafety.
From stdpp Require Import list.

Definition AUTH_RETENTION_PRUNE_BATCH_SIZE : nat := 256.

(** ** Issuing *)

Record CodeInput := {
  ci_userId : option string;
  ci_email : string;
  ci_purpose : string;
  ci_payload : option jsval;
  ci_codeHash : string;
  ci_codeSalt : string;
  ci_expiresAt : jsdate;
  ci_sentAt : option Z;
  ci_attempts : Z
}.

Definition code_id (i : CodeInput) (now : Z) (count : nat) : string :=
  stableId "evc" [match ci_userId i with Some u => JStr u | None => JNull end; JStr (ci_email i);
                  JNum (NInt now); JNum (NInt (Z.of_nat count))].

Definition createEmailVerificationCode (i : CodeInput) (now : Z) : M AccountStore EmailCode :=
  s ← get;
  let row := {|
    ec_id := code_id i now (length (emailVerificationCodes s));
    ec_userId := match ci_userId i with Some u => if str_empty u then None else Some u | None => None end;
    ec_email := toLowerCase (ci_email i);
    ec_purpose := str_or (ci_purpose i) "signup";
    ec_payload := ci_payload i;
    ec_codeHash := ci_codeHash i;
    ec_codeSalt := ci_codeSalt i;
    ec_expiresAt := ci_expiresAt i;
    ec_sentAt := match ci_sentAt i with Some t => t | None => now end;
    ec_consumedAt := None;
    ec_attempts := ci_attempts i;
    ec_createdAt := now;
    ec_updatedAt := now
  |} in
  _ ← modify (fun s => s <| emailVerificationCodes := emailVerificationCodes s ++ [row] |>);
  mret row.

(** The retention filter: drop expired rows, at most [budget] of them. *)
Fixpoint prune_codes (budget : nat) (now : Z) (l : list EmailCode) : list EmailCode :=
  match l with
  | [] => []
  | row :: l' =>
      match budget with
      | O => row :: l'
      | S n => if num_gt (getTime (ec_expiresAt row)) now then row :: prune_codes budget now l'
               else prune_codes n now l'
      end
  end.

Definition consume (at_ : Z) (c : EmailCode) : EmailCode := c <| ec_consumedAt := Some at_ |> <| ec_updatedAt := at_ |>.

(** [if (condition(row)) row.consumedAt = row.updatedAt = at] for every row *)
Definition consume_where (P : EmailCode -> Prop) `{forall c, Decision (P c)} (at_ : Z) (l : list EmailCode)
    : list EmailCode :=
  (fun c => if decide (P c) then consume at_ c else c) <$> l.

Definition superseded_by (r : EmailCode) (c : EmailCode) : Prop :=
  ec_id c <> ec_id r /\ ec_email c = ec_email r /\ ec_purpose c = ec_purpose r /\ ec_consumedAt c = None.

#[export] Instance superseded_by_dec r c : Decision (superseded_by r c).
Proof. unfold superseded_by. apply _. Defined.

Definition set_codes (f : list EmailCode -> list EmailCode) (s : AccountStore) : AccountStore :=
  s <| emailVerificationCodes := f (emailVerificationCodes s) |>.

Definition replaceEmailVerificationCode (i : CodeInput) (now : Z) : M AccountStore EmailCode :=
  _ ← modify (set_codes (prune_codes AUTH_RETENTION_PRUNE_BATCH_SIZE now));
  replacement ← createEmailVerificationCode i now;
  _ ← modify (set_codes (consume_where (superseded_by replacement) now));
  mret replacement.

Definition invalidatePendingEmailVerificationCodes (email : string) (now : Z) : M AccountStore bool :=
  let normalized := toLowerCase email in
  _ ← modify (set_codes (consume_where (fun c => ec_email c = normalized /\ ec_consumedAt c = None) now));
  mret true.

(** ** Looking codes up *)

(** [[...codes].filter(P).sort(newest first)[0]], with the position of the row:
    the code goes on to mutate the row it found. *)
Definition newer (a b : nat * EmailCode) : bool := (ec_createdAt b.2 <=? ec_createdAt a.2)%Z.

Definition newest_code (P : EmailCode -> Prop) `{forall c, Decision (P c)} (l : list EmailCode) : option (nat * EmailCode) :=
  head (js_sort newer (filter (fun ic => P ic.2) (imap pair l))).

Definition findPendingEmailVerificationCode (email purpose : string) (now : Z) (s : AccountStore) : option EmailCode :=
  let normalized := toLowerCase email in
  let normalizedPurpose := str_or purpose "signup" in
  snd <$> newest_code (fun c => ec_email c = normalized /\ ec_consumedAt c = None
                               /\ str_or (ec_purpose c) "signup" = normalizedPurpose
                               /\ num_gt (getTime (ec_expiresAt c)) now = true) (emailVerificationCodes s).

Definition update_code (k : nat) (f : EmailCode -> EmailCode) (s : AccountStore) : AccountStore :=
  set_codes (alter f k) s.

Definition bump_attempts (next now : Z) (c : EmailCode) : EmailCode := c <| ec_attempts := next |> <| ec_updatedAt := now |>.

Definition code_not_found (id : string) : jserror := notFound ("email verification code not found: " +:+ id).

Definition incrementEmailVerificationAttempts (id : string) (now : Z) : M AccountStore EmailCode :=
  s ← get;
  match list_find (fun c => ec_id c = id) (emailVerificationCodes s) with
  | None => raise (code_not_found id)
  | Some (k, row) =>
      let row' := bump_attempts (ec_attempts row + 1) now row in
      _ ← modify (update_code k (fun _ => row'));
      mret row'
  end.

Definition consumeEmailVerificationCode (id : string) (consumedAt : Z) : M AccountStore EmailCode :=
  s ← get;
  match list_find (fun c => ec_id c = id) (emailVerificationCodes s) with
  | None => raise (code_not_found id)
  | Some (k, row) =>
      _ ← modify (update_code k (consume consumedAt));
      mret (consume consumedAt row)
  end.

(** ** Completing a signup *)

Definition signup_code (email purpose : string) (c : EmailCode) : Prop :=
  ec_email c = email /\ str_or (ec_purpose c) "signup" = purpose /\ ec_consumedAt c = None.

#[export] Instance signup_code_dec e p c : Decision (signup_code e p c).
Proof. unfold signup_code. apply _. Defined.

(** The row is unusable: its expiry has passed or its attempts are used up. *)
Definition code_closed (maxAttempts now : Z) (c : EmailCode) : bool :=
  num_le (getTime (ec_expiresAt c)) now || (maxAttempts <=? ec_attempts c)%Z.

(** The attempts after a wrong code: [Math.min(maxAttempts, attempts + 1)]. *)
Definition wrong_guess (maxAttempts now : Z) (c : EmailCode) : EmailCode :=
  bump_attempts (Z.min maxAttempts (ec_attempts c + 1)) now c.

Definition payload_of (c : EmailCode) : jsval := match ec_payload c with Some v => v | None => JObj [] end.

Inductive SignupCompletion : Type :=
| SignupInvalid
| SignupVerified (user : PublicUser) (organization : Organization) (membership : Member)
    (memberships : list Member) (verifiedAt : Z).

(** A text parameter with a default: the default replaces [undefined]. *)
Definition text_default (v : jsval) (default : string) : string :=
  match v with JUndef => default | _ => js_String v end.

Definition completeSignupEmailVerification (email purpose : string) (now maxAttempts : Z)
    (verifyCode : EmailCode -> result bool) (resolvePolicy : jsval -> bool -> jsval) (clock : Z)
    : M AccountStore SignupCompletion :=
  let email := toLowerCase (trim email) in
  let purpose := str_or purpose "signup" in
  let maxAttempts := Z.max 1 (if (maxAttempts =? 0)%Z then 5 else maxAttempts)%Z in
  s ← get;
  match newest_code (signup_code email purpose) (emailVerificationCodes s) with
  | None => mret SignupInvalid
  | Some (k, row) =>
      if code_closed maxAttempts now row then mret SignupInvalid
      else
      valid ← lift (verifyCode row);
      if negb valid then
        _ ← modify (update_code k (wrong_guess maxAttempts now));
        mret SignupInvalid
      else
        let payload := payload_of row in
        if negb (bool_decide (as_string (field "kind" payload) = Some "signup")) then mret SignupInvalid
        else
          organizationSlug ← lift (organizationSlugForCreate "" (Some (field "organizationSlug" payload)));
          _ ← lift (throw_if (bool_decide (is_Some (findUserByEmail email s))) (conflict "user_already_exists"));
          _ ← lift (throw_if (bool_decide (is_Some (findOrganizationBySlug (JStr organizationSlug) s)))
                      (conflict "organization_slug_already_exists"));
          _ ← lift (throw_if (map_has (stableId "usr" [JStr email]) (users s)) (conflict "user_identity_collision"));
          let firstUser := bool_decide (users s = []) in
          let policy := resolvePolicy payload firstUser in
          organization ← createOrganization
            (js_String (js_or (field "organizationName" payload) (field "organizationSlug" payload)))
            (js_String (js_or (field "plan" payload) (JStr "free"))) (Some (field "organizationSlug" payload)) clock;
          user ← createUser {|
            cu_name := js_String (js_or (field "name" payload) (JStr email));
            cu_studentId := js_String (js_or (field "studentId" payload) (JStr ""));
            cu_clubMemberClaim := truthy (field "clubMemberClaim" payload);
            cu_email := email; cu_githubId := None;
            cu_passwordHash := as_string (field "passwordHash" payload);
            cu_role := text_default (field "role" policy) "USER";
            cu_accountType := field "accountType" policy;
            cu_approvalStatus := text_default (field "approvalStatus" policy) "PENDING";
            cu_avatarUrl := None; cu_emailVerifiedAt := Some (Some now);
            cu_bannedAt := None; cu_banExpiresAt := None; cu_banReason := None; cu_bannedByUserId := None |} clock;
          membership ← addMember (org_id organization) (pu_id user) (JStr "owner") None clock;
          _ ← modify (update_code k (consume now));
          s' ← get;
          mret (SignupVerified user organization membership (listMembershipsForUser (pu_id user) s') now)
  end.

(** ** Completing a password recovery *)

Definition recovery_code (email purpose : string) (c : EmailCode) : Prop :=
  ec_email c = email /\ ec_purpose c = purpose /\ ec_consumedAt c = None.

#[export] Instance recovery_code_dec e p c : Decision (recovery_code e p c).
Proof. unfold recovery_code. apply _. Defined.

Definition passwordRecoveryUserEligible (user : User) (now : Z) : bool :=
  if str_empty (option_text (u_passwordHash user)) || bool_decide (u_emailVerifiedAt user = None)
     || negb (bool_decide (toUpperCase (str_or (u_approvalStatus user) "PENDING") = "APPROVED"))
  then false
  else match u_bannedAt user with
       | None => true
       | Some _ => match u_banExpiresAt user with
                   | None => false
                   | Some d => num_le (getTime d) now
                   end
       end.

Inductive RecoveryCompletion : Type :=
| RecoveryInvalid
| RecoveryReset (user : PublicUser) (resetAt : Z).

Definition completePasswordRecovery (email purpose passwordHash : string) (now maxAttempts : Z)
    (verifyCode : EmailCode -> result bool) (clock : Z) : M AccountStore RecoveryCompletion :=
  let email := toLowerCase (trim email) in
  let purpose := str_or purpose "password-reset" in
  let maxAttempts := Z.max 1 (if (maxAttempts =? 0)%Z then 5 else maxAttempts)%Z in
  s ← get;
  match newest_code (recovery_code email purpose) (emailVerificationCodes s) with
  | None => mret RecoveryInvalid
  | Some (k, record) =>
      if code_closed maxAttempts now record then mret RecoveryInvalid
      else
      valid ← lift (verifyCode record);
      if negb valid then
        _ ← modify (update_code k (wrong_guess maxAttempts now));
        mret RecoveryInvalid
      else
        let payload := payload_of record in
        let userId := string_or_empty (field "userId" payload) in
        match map_get userId (users s) with
        | Some user =>
            if negb (bool_decide (as_string (field "kind" payload) = Some purpose)) || negb (bool_decide (u_email user = email))
               || negb (passwordRecoveryUserEligible user now)
            then
              _ ← modify (update_code k (consume now));
              mret RecoveryInvalid
            else
              _ ← modify (set_codes (consume_where (recovery_code email purpose) now));
              let user' := bump_session (user <| u_passwordHash := Some passwordHash |>) <| u_updatedAt := now |> in
              _ ← store_user userId user';
              _ ← audit (u_id user) "user.password:reset" "user" (u_id user) (JObj []) clock;
              mret (RecoveryReset (redactUser user') now)
        | None =>
            _ ← modify (update_code k (consume now));
            mret RecoveryInvalid
        end
  end.

Definition failPasswordRecoveryDelivery (challengeId : string) (failedAt clock : Z) : M AccountStore unit :=
  s ← get;
  _ ← match list_find (fun c => ec_id c = challengeId) (emailVerificationCodes s) with
      | Some (k, record) =>
          if bool_decide (ec_consumedAt record = None) then modify (update_code k (consume failedAt)) else mret tt
      | None => mret tt
      end;
  audit "system" "user.password-reset:delivery-failed" "email-verification-code" (str_or challengeId "unknown")
    (JObj [("reasonCode", JStr "password_reset_delivery_failed")]) clock.
