(* ===== verification/EmailCodeSafety.v ===== *)
(** * Safety of one-time codes

    A code can be guessed only a bounded number of times, is good once, and
    resets the password of nobody but the eligible account it was issued for.
    Ends with the identifiers of long addresses, which collide. *)

From S2P Require Import Prelude JsString JsVal JsMap Ids Rbac Secrets Identity Accounts Membership AccountInvariants AccountSafety EmailCodes.
From stdpp Require Import list.

(** ** The newest matching row *)

Section newest.
Context (P : EmailCode -> Prop) `{forall c, Decision (P c)}.

Lemma newest_code_Some l k c : newest_code P l = Some (k, c) -> l !! k = Some c /\ P c.
Proof.
  unfold newest_code. destruct (js_sort newer _) as [|x xs] eqn:E; [done|]. intros [= ->].
  assert (Hin : (k, c) ∈ filter (fun ic => P ic.2) (imap pair l)) by (rewrite <- (js_sort_perm newer), E; set_solver).
  apply list_elem_of_filter in Hin as [HP Hin]. split; [|done].
  apply list_elem_of_lookup in Hin as [j Hj]. rewrite list_lookup_imap in Hj.
  destruct (l !! j) eqn:Hl; [|done]. cbn in Hj. by injection Hj as -> ->.
Qed.

Lemma newest_code_None l : newest_code P l = None <-> Forall (fun c => ~ P c) l.
Proof.
  unfold newest_code. rewrite Forall_lookup. split.
  - intros Hh k c Hk HP. destruct (js_sort newer _) as [|x xs] eqn:E; [|done].
    assert (Hin : (k, c) ∈ filter (fun ic => P ic.2) (imap pair l)).
    { apply list_elem_of_filter. split; [done|]. apply list_elem_of_lookup. exists k.
      by rewrite list_lookup_imap, Hk. }
    rewrite <- (js_sort_perm newer), E in Hin. by apply not_elem_of_nil in Hin.
  - intros Hn. destruct (js_sort newer _) as [|[k c] xs] eqn:E; [done|].
    assert (Hk : l !! k = Some c /\ P c) by (apply newest_code_Some; unfold newest_code; by rewrite E).
    destruct Hk as [Hk HP]. by destruct (Hn k c).
Qed.

(** Sorting commutes with a change that the order does not see. *)
Lemma js_sort_fmap {A} (le : A -> A -> bool) (f : A -> A) l :
  (forall x y, le (f x) (f y) = le x y) -> js_sort le (f <$> l) = f <$> js_sort le l.
Proof.
  intros Hle. unfold js_sort. induction l as [|x l IH]; [done|]. cbn in IH |- *. rewrite IH.
  generalize (foldr (sort_insert le) [] l) as m. induction m as [|y m IHm]; [done|]. cbn. rewrite Hle.
  destruct (le x y); [done|]. cbn. by rewrite IHm.
Qed.

Lemma filter_fmap_same {A} (Q : A -> Prop) `{forall x, Decision (Q x)} (f : A -> A) (l : list A) :
  (forall x, Q (f x) <-> Q x) -> filter Q (f <$> l) = f <$> filter Q l.
Proof.
  intros HQ. induction l as [|x l IH]; [done|]. rewrite fmap_cons, !filter_cons, IH.
  destruct (decide (Q (f x))), (decide (Q x)); naive_solver.
Qed.

(** Rewriting a row in a way that neither the test nor the order sees does not
    change which row is the newest. *)
Lemma newest_code_alter g l i :
  (forall c, P (g c) <-> P c) -> (forall c, ec_createdAt (g c) = ec_createdAt c) ->
  newest_code P (alter g i l) = (fun ic => (ic.1, if decide (ic.1 = i) then g ic.2 else ic.2)) <$> newest_code P l.
Proof.
  intros HP Hc. set (f := fun ic : nat * EmailCode => (ic.1, if decide (ic.1 = i) then g ic.2 else ic.2)).
  assert (Himap : imap pair (alter g i l) = f <$> imap pair l).
  { apply list_eq. intros j. rewrite list_lookup_fmap, !list_lookup_imap.
    destruct (decide (j = i)) as [->|Hne].
    - rewrite list_lookup_alter_eq. destruct (l !! i); [|done]. cbn. unfold f. cbn. by rewrite decide_True.
    - rewrite list_lookup_alter_ne by done. destruct (l !! j); [|done]. cbn. unfold f. cbn. by rewrite decide_False. }
  unfold newest_code. rewrite Himap, filter_fmap_same, js_sort_fmap.
  - by destruct (js_sort newer _).
  - intros [j x] [k y]. unfold newer, f. cbn. destruct (decide (j = i)), (decide (k = i)); cbn; by rewrite ?Hc.
  - intros [j x]. unfold f. cbn. destruct (decide (j = i)); [apply HP|done].
Qed.
End newest.

(** ** Guessing *)

(** The attempts the code has been offered so far are what limits it. *)
Definition effective_max (maxAttempts : Z) : Z := Z.max 1 (if (maxAttempts =? 0)%Z then 5 else maxAttempts)%Z.

Section recovery.
Context (email purpose passwordHash : string) (maxAttempts : Z).
Let e := toLowerCase (trim email).
Let p := str_or purpose "password-reset".
Let m := effective_max maxAttempts.

(** One try to complete a recovery. *)
Record attempt := { at_now : Z; at_clock : Z; at_verify : EmailCode -> result bool }.

Definition try (a : attempt) : M AccountStore RecoveryCompletion :=
  completePasswordRecovery email purpose passwordHash (at_now a) maxAttempts (at_verify a) (at_clock a).

Lemma closed_attempt a s k c :
  newest_code (recovery_code e p) (emailVerificationCodes s) = Some (k, c) -> (m <= ec_attempts c)%Z ->
  try a s = (Ok RecoveryInvalid, s).
Proof.
  intros Hn Hc. unfold try, completePasswordRecovery. rewrite run_get. fold e p. rewrite Hn. cbn zeta.
  assert (Hcl : code_closed (effective_max maxAttempts) (at_now a) c = true).
  { unfold code_closed. fold m. apply orb_true_iff. right. by apply Z.leb_le. }
  unfold effective_max in Hcl. by rewrite Hcl.
Qed.

(** A wrong guess costs one attempt and nothing else. *)
Lemma wrong_attempt a s k c :
  newest_code (recovery_code e p) (emailVerificationCodes s) = Some (k, c) ->
  num_le (getTime (ec_expiresAt c)) (at_now a) = false -> (ec_attempts c < m)%Z -> at_verify a c = Ok false ->
  try a s = (Ok RecoveryInvalid, update_code k (wrong_guess m (at_now a)) s).
Proof.
  intros Hn Hx Hc Hv. unfold try, completePasswordRecovery. rewrite run_get. fold e p. rewrite Hn. cbn zeta.
  fold (effective_max maxAttempts). fold m.
  assert (Hopen : code_closed m (at_now a) c = false) by (unfold code_closed; rewrite Hx; by apply Z.leb_gt).
  by rewrite Hopen, Hv, run_lift.
Qed.

(** Running tries one after the other. *)
Fixpoint run_attempts (l : list attempt) (s : AccountStore) : AccountStore :=
  match l with [] => s | a :: l' => run_attempts l' (try a s).2 end.

Definition newest_attempts (s : AccountStore) (n : Z) : Prop :=
  exists k c, newest_code (recovery_code e p) (emailVerificationCodes s) = Some (k, c) /\ (n <= ec_attempts c)%Z.

Lemma wrong_attempts_count l : forall s n,
  newest_attempts s n -> Forall (fun a => forall c, at_verify a c = Ok false) l ->
  (forall k c now, newest_code (recovery_code e p) (emailVerificationCodes s) = Some (k, c) ->
     In now (at_now <$> l) -> num_le (getTime (ec_expiresAt c)) now = false) ->
  newest_attempts (run_attempts l s) (Z.min m (n + Z.of_nat (length l))) /\ users (run_attempts l s) = users s.
Proof.
  induction l as [|a l IH]; intros s n (k & c & Hn & Hc) Hv Hexp.
  { cbn. split; [|done]. exists k, c. split; [done|lia]. }
  apply Forall_cons in Hv as [Ha Hl]. cbn [run_attempts].
  destruct (decide (m <= ec_attempts c)%Z) as [Hfull|Hlt].
  { rewrite (closed_attempt a s k c Hn Hfull). cbn [snd].
    destruct (IH s m) as [IH1 IH2]; [exists k, c; done|done| |].
    - intros k' c' now Hn' Hin. eapply Hexp; [done|]. by right.
    - split; [|done]. destruct IH1 as (k' & c' & Hn' & Hc'). exists k', c'. split; [done|]. cbn [length]. lia. }
  rewrite (wrong_attempt a s k c Hn) by (done || lia || (eapply Hexp; [done|by left])). cbn [snd].
  set (s' := update_code k (wrong_guess m (at_now a)) s).
  assert (Hn' : newest_code (recovery_code e p) (emailVerificationCodes s') = Some (k, wrong_guess m (at_now a) c)).
  { unfold s', update_code, set_codes. cbn. rewrite newest_code_alter, Hn; [|done|done]. cbn. by rewrite decide_True. }
  destruct (IH s' (n + 1)%Z) as [IH1 IH2].
  - exists k, (wrong_guess m (at_now a) c). split; [done|]. cbn. lia.
  - done.
  - intros k' c' now Hk' Hin. rewrite Hn' in Hk'. injection Hk' as <- <-. cbn. eapply Hexp; [done|]. by right.
  - split; [|done]. destruct IH1 as (k' & c' & Hk' & Hc'). exists k', c'. split; [done|]. cbn [length]. lia.
Qed.

(** C8. A reset code can be guessed at most [maxAttempts] times: after that
    many wrong guesses at the pending code, every further try, even with the
    right code, is refused and changes nothing. No user row changed on the way. *)
Theorem recovery_guesses_bounded l s k c :
  newest_code (recovery_code e p) (emailVerificationCodes s) = Some (k, c) -> (0 <= ec_attempts c)%Z ->
  Forall (fun a => forall c, at_verify a c = Ok false) l ->
  Forall (fun a => num_le (getTime (ec_expiresAt c)) (at_now a) = false) l ->
  (m <= Z.of_nat (length l))%Z ->
  users (run_attempts l s) = users s
  /\ forall a, try a (run_attempts l s) = (Ok RecoveryInvalid, run_attempts l s).
Proof.
  intros Hn Hc Hv Hexp Hlen.
  destruct (wrong_attempts_count l s 0) as [(k' & c' & Hk' & Hc') Hu]; [by exists k, c|done| |].
  - intros k0 c0 now H0 Hin. rewrite Hn in H0. injection H0 as <- <-.
    apply in_map_iff in Hin as (a & <- & Ha). rewrite Forall_forall in Hexp. apply Hexp. by apply list_elem_of_In.
  - split; [done|]. intros a. eapply closed_attempt; [exact Hk'|]. lia.
Qed.
End recovery.

(** ** What a reset does *)

Lemma consume_where_clears P `{forall c, Decision (P c)} at_ l :
  (forall c, P c -> ec_consumedAt c = None) -> Forall (fun c => ~ (P c /\ ec_consumedAt c = None)) (consume_where P at_ l).
Proof.
  intros HP. apply Forall_fmap, Forall_forall. intros c _. cbn. case_decide as Hd.
  - by intros [_ ?].
  - intros [? _]. done.
Qed.

Lemma eligible_spec user now :
  passwordRecoveryUserEligible user now = true <->
  option_text (u_passwordHash user) <> "" /\ u_emailVerifiedAt user <> None
  /\ toUpperCase (str_or (u_approvalStatus user) "PENDING") = "APPROVED"
  /\ (u_bannedAt user = None \/ exists d, u_banExpiresAt user = Some d /\ num_le (getTime d) now = true).
Proof.
  unfold passwordRecoveryUserEligible. rewrite str_empty_eq.
  destruct (decide (option_text (u_passwordHash user) = "")); [rewrite bool_decide_true by done; cbn; split; [done|tauto]|].
  rewrite bool_decide_false by done.
  destruct (decide (u_emailVerifiedAt user = None)); [rewrite bool_decide_true by done; cbn; split; [done|tauto]|].
  rewrite bool_decide_false by done. cbn [orb].
  case_bool_decide; cbn [negb]; [|split; [done|tauto]].
  destruct (u_bannedAt user); [|split; [naive_solver|done]].
  destruct (u_banExpiresAt user) as [d|].
  - split; [|naive_solver]. intros Hd. split_and!; try done. right. by exists d.
  - split; [done|]. intros (_ & _ & _ & [?|(d & ? & _)]); done.
Qed.

(** An eligible user is one the ban check of the session layer lets through. *)
Lemma eligible_not_banned user now : passwordRecoveryUserEligible user now = true -> ban_active user now = false.
Proof.
  intros (_ & _ & _ & [Hb|(d & Hd & Hle)])%eligible_spec; unfold ban_active.
  - by rewrite Hb.
  - destruct (u_bannedAt user); [|done]. rewrite Hd. destruct d; cbn in *; [|done].
    apply Z.leb_le in Hle. by apply Z.ltb_ge.
Qed.

(** What a completed reset establishes. *)
Definition reset_effect (s s' : AccountStore) (email purpose passwordHash : string) (now max : Z)
    (verifyCode : EmailCode -> result bool) : Prop :=
  exists k c userId user,
    emailVerificationCodes s !! k = Some c /\ recovery_code email purpose c
    /\ code_closed max now c = false /\ verifyCode c = Ok true
    /\ as_string (field "kind" (payload_of c)) = Some purpose
    /\ userId = string_or_empty (field "userId" (payload_of c))
    /\ map_get userId (users s) = Some user /\ u_email user = email
    /\ passwordRecoveryUserEligible user now = true
    /\ users s' = map_set userId (bump_session (user <| u_passwordHash := Some passwordHash |>) <| u_updatedAt := now |>)
                    (users s)
    /\ Forall (fun c => ~ recovery_code email purpose c) (emailVerificationCodes s')
    /\ members s' = members s /\ organizations s' = organizations s.

Lemma recovery_cases email purpose passwordHash now maxAttempts verifyCode clock s :
  (exists r s', completePasswordRecovery email purpose passwordHash now maxAttempts verifyCode clock s = (Ok r, s')
     /\ match r with
        | RecoveryInvalid => users s' = users s /\ members s' = members s /\ organizations s' = organizations s
        | RecoveryReset _ _ =>
            reset_effect s s' (toLowerCase (trim email)) (str_or purpose "password-reset") passwordHash now
              (effective_max maxAttempts) verifyCode
        end)
  \/ exists k c e, emailVerificationCodes s !! k = Some c /\ verifyCode c = Throw e
       /\ completePasswordRecovery email purpose passwordHash now maxAttempts verifyCode clock s = (Throw e, s).
Proof.
  unfold completePasswordRecovery. rewrite run_get. cbn zeta. fold (effective_max maxAttempts).
  set (m := effective_max maxAttempts). set (e := toLowerCase (trim email)). set (p := str_or purpose "password-reset").
  destruct (newest_code (recovery_code e p) (emailVerificationCodes s)) as [[k c]|] eqn:Hn;
    [|left; exists RecoveryInvalid, s; done].
  apply newest_code_Some in Hn as [Hk Hc].
  destruct (code_closed m now c) eqn:Hopen; [left; exists RecoveryInvalid, s; done|].
  destruct (verifyCode c) as [[]|err] eqn:Hv; rewrite run_lift; cbn [negb];
    [|left; eexists RecoveryInvalid, _; split; [reflexivity|done]|right; by exists k, c, err].
  destruct (map_get _ (users s)) as [user|] eqn:Hu; [|left; eexists RecoveryInvalid, _; split; [reflexivity|done]].
  destruct (negb (bool_decide _) || _ || _) eqn:Hg; [left; eexists RecoveryInvalid, _; split; [reflexivity|done]|].
  apply orb_false_iff in Hg as [[Hkind Hem]%orb_false_iff Hel].
  apply negb_false_iff, bool_decide_eq_true in Hkind, Hem. apply negb_false_iff in Hel.
  rewrite run_modify, run_store_user, run_audit. left. eexists (RecoveryReset _ _), _. split; [reflexivity|].
  exists k, c, (string_or_empty (field "userId" (payload_of c))), user. split_and!; try done.
  cbn. eapply Forall_impl; [apply (consume_where_clears (recovery_code e p)); by intros ? (_ & _ & ?)|].
  cbn. intros x Hx Hr. apply Hx. split; [done|]. by destruct Hr as (_ & _ & ?).
Qed.

(** A password is reset only with an unconsumed, unexpired and not
    exhausted code of that address that the caller verified, issued for
    resetting, for a user who has a password, a verified address, approval and
    no ban in force; the reset revokes the user's sessions and consumes every
    pending reset code of the address. Any other outcome leaves users, members
    and organizations alone, and the operation throws only when the
    verification of the code does. *)
Theorem recovery_resets_only_the_owner email purpose passwordHash now maxAttempts verifyCode clock s :
  (exists r s', completePasswordRecovery email purpose passwordHash now maxAttempts verifyCode clock s = (Ok r, s')
     /\ match r with
        | RecoveryInvalid => users s' = users s /\ members s' = members s /\ organizations s' = organizations s
        | RecoveryReset _ _ =>
            reset_effect s s' (toLowerCase (trim email)) (str_or purpose "password-reset") passwordHash now
              (effective_max maxAttempts) verifyCode
        end)
  \/ exists k c e, emailVerificationCodes s !! k = Some c /\ verifyCode c = Throw e
       /\ completePasswordRecovery email purpose passwordHash now maxAttempts verifyCode clock s = (Throw e, s).
Proof. apply recovery_cases. Qed.

(** A reset code is good once: right after a reset, with any code, password
    and time, another reset of the address is refused and changes nothing. *)
Theorem recovery_single_use email purpose h now maxAttempts verifyCode clock s s' user at_ :
  completePasswordRecovery email purpose h now maxAttempts verifyCode clock s = (Ok (RecoveryReset user at_), s') ->
  forall h2 now2 max2 verify2 clock2,
    completePasswordRecovery email purpose h2 now2 max2 verify2 clock2 s' = (Ok RecoveryInvalid, s').
Proof.
  intros H h2 now2 max2 verify2 clock2.
  destruct (recovery_cases email purpose h now maxAttempts verifyCode clock s)
    as [(r & s1 & Hr & Heff)|(k & c & e & _ & _ & Hr)]; rewrite Hr in H; [|done]. injection H as -> ->.
  destruct Heff as (k & c & userId & u & _ & _ & _ & _ & _ & _ & _ & _ & _ & _ & Hnone & _).
  apply (newest_code_None (recovery_code _ _)) in Hnone. unfold completePasswordRecovery. rewrite run_get. cbn zeta. by rewrite Hnone.
Qed.

(** ** Completing a signup *)

Lemma createOrganization_Ok name plan slug now s o s' :
  createOrganization name plan slug now s = (Ok o, s') ->
  organizationSlugForCreate name slug = Ok (org_slug o) /\ map_get (org_id o) (organizations s') = Some o
  /\ users s' = users s /\ members s' = members s /\ emailVerificationCodes s' = emailVerificationCodes s.
Proof.
  unfold createOrganization. step_once; [|done]. step_once. step_once; [|done].
  rewrite run_modify, run_audit. intros [= <- <-]. cbn. rewrite map_get_set_eq. done.
Qed.

Lemma createUser_Ok i now s u s' :
  createUser i now s = (Ok u, s') ->
  pu_id u = stableId "usr" [JStr (str_or (cu_email i) (cu_name i))] /\ pu_email u = toLowerCase (cu_email i)
  /\ pu_role u = cu_role i /\ pu_approvalStatus u = cu_approvalStatus i
  /\ (exists row, map_get (pu_id u) (users s') = Some row /\ redactUser row = u /\ u_passwordHash row = cu_passwordHash i)
  /\ organizations s' = organizations s /\ members s' = members s
  /\ emailVerificationCodes s' = emailVerificationCodes s.
Proof.
  unfold createUser. step_once. step_once; [|done]. step_once; [|done]. rewrite run_modify.
  intros [= <- <-]. cbn. split_and!; try done. eexists. by rewrite map_get_set_eq.
Qed.

Lemma addMember_Ok o u role r actor now s m s' :
  parseOrganizationMembershipRoleForMutation role = Ok r ->
  addMember o u role actor now s = (Ok m, s') ->
  m ∈ members s' /\ is_member o u m /\ role_of m = Some r
  /\ organizations s' = organizations s /\ emailVerificationCodes s' = emailVerificationCodes s.
Proof.
  intros Hr H.
  assert (Hfo : organizations (addMember o u role actor now s).2 = organizations s)
    by (match goal with |- organizations (?f s).2 = _ => assert (frame organizations f) as Hf by (unfold addMember; solve_frame); apply Hf end).
  assert (Hfc : emailVerificationCodes (addMember o u role actor now s).2 = emailVerificationCodes s)
    by (match goal with |- emailVerificationCodes (?f s).2 = _ => assert (frame emailVerificationCodes f) as Hf by (unfold addMember; solve_frame); apply Hf end).
  rewrite H in Hfo, Hfc. cbn in Hfo, Hfc. cut (m ∈ members s' /\ is_member o u m /\ role_of m = Some r); [tauto|].
  clear Hfo Hfc. revert H. unfold addMember. rewrite Hr, run_lift, run_get.
  pose proof (stored_role_reads role r Hr) as Hread.
  destruct (list_find (is_member o u) (members s)) as [[i e]|] eqn:Hf.
  - apply list_find_lookup in Hf as [Hi Hm]. step_once; [|done]. step_once; [|done].
    destruct (bool_decide (m_role e = stored_role role r)) eqn:Hsame.
    + apply bool_decide_eq_true in Hsame. intros [= <- <-]. split_and!; [by eapply list_elem_of_lookup_2|done|]. unfold role_of, raw_role. by rewrite Hsame.
    + rewrite run_modify. set (e' := e <| m_role := _ |> <| m_updatedAt := _ |>). unfold mbind at 1, M_bind at 1.
      destruct (bump_if_present u now (set_member i e' s)) as [[x|err] s1] eqn:Hb; [|done].
      assert (Hs1 : members s1 = members (set_member i e' s)).
      { assert (frame members (bump_if_present u now)) as HF by solve_frame. specialize (HF (set_member i e' s)).
        by rewrite Hb in HF. }
      rewrite run_audit. intros [= <- <-]. cbn. rewrite Hs1. cbn. split_and!; [|done|done].
      apply list_elem_of_lookup. exists i. apply list_lookup_insert_eq. by eapply lookup_lt_Some.
  - step_once; [|done]. rewrite run_modify, run_audit. intros [= <- <-]. cbn. split_and!; [set_solver|done|done].
Qed.

(** A signup completes only with a live code of the address that the caller
    verified and that was issued for a signup, when neither the address nor the
    organization slug is taken; it then leaves a user with that address and the
    role and approval the policy resolved, and the organization with the
    requested slug, owned by that user, and the code consumed. *)
Theorem signup_completion email purpose now maxAttempts verifyCode resolvePolicy clock s user org m ms at_ s' :
  completeSignupEmailVerification email purpose now maxAttempts verifyCode resolvePolicy clock s
    = (Ok (SignupVerified user org m ms at_), s') ->
  exists k c,
    emailVerificationCodes s !! k = Some c
    /\ signup_code (toLowerCase (trim email)) (str_or purpose "signup") c
    /\ code_closed (effective_max maxAttempts) now c = false /\ verifyCode c = Ok true
    /\ as_string (field "kind" (payload_of c)) = Some "signup"
    /\ findUserByEmail (toLowerCase (trim email)) s = None
    /\ field "organizationSlug" (payload_of c) = JStr (org_slug org)
    /\ findOrganizationBySlug (JStr (org_slug org)) s = None
    /\ pu_email user = toLowerCase (trim email)
    /\ (let policy := resolvePolicy (payload_of c) (bool_decide (users s = [])) in
        pu_role user = text_default (field "role" policy) "USER"
        /\ pu_approvalStatus user = text_default (field "approvalStatus" policy) "PENDING")
    /\ map_get (org_id org) (organizations s') = Some org
    /\ m ∈ members s' /\ is_member (org_id org) (pu_id user) m /\ role_of m = Some OWNER
    /\ emailVerificationCodes s' = alter (consume now) k (emailVerificationCodes s).
Proof.
  unfold completeSignupEmailVerification. rewrite run_get. cbn zeta. fold (effective_max maxAttempts).
  destruct (newest_code _ _) as [[k c]|] eqn:Hn; [|done]. apply newest_code_Some in Hn as [Hk Hc].
  destruct (code_closed _ now c) eqn:Hopen; [done|].
  step_once; [|done]. destruct a; cbn [negb]; [|done].
  destruct (negb (bool_decide _)) eqn:Hkind; [done|]. apply negb_false_iff, bool_decide_eq_true in Hkind.
  step_once; [|done]. step_once; [|done]. step_once; [|done]. step_once; [|done].
  apply throw_if_Ok, bool_decide_eq_false in E1, E2. rewrite <- eq_None_not_Some in E1. rewrite <- eq_None_not_Some in E2.
  unfold mbind at 1, M_bind at 1. destruct (createOrganization _ _ _ _ s) as [[o|e] s1] eqn:Ho; [|done].
  apply createOrganization_Ok in Ho as (Hslug & Hget & _ & _ & Hc1).
  unfold mbind at 1, M_bind at 1. destruct (createUser _ _ s1) as [[u|e] s2] eqn:Hu; [|done].
  apply createUser_Ok in Hu as (_ & Hemail & Hrole & Happ & _ & Ho2 & _ & Hc2). cbn [cu_email cu_role cu_approvalStatus] in Hemail, Hrole, Happ.
  unfold mbind at 1, M_bind at 1. destruct (addMember _ _ _ _ _ s2) as [[mm|e] s3] eqn:Hm; [|done].
  apply addMember_Ok with (r := OWNER) in Hm as (Hin & Hmem & Hr & Ho3 & Hc3); [|done].
  rewrite run_modify, run_get. intros [= <- <- <- _ _ <-].
  assert (Hsl : field "organizationSlug" (payload_of c) = JStr (org_slug o) /\ a = org_slug o).
  { cbn in Hslug, E0. unfold organizationSlugForCreate in *.
    destruct (parseOrganizationRouteSlug (field "organizationSlug" (payload_of c))) eqn:Hp; [|done].
    injection Hslug as Hslug. injection E0 as E0. apply route_slug_Ok in Hp as [Hp _]. by subst. }
  destruct Hsl as [Hsl ->]. rewrite toLowerCase_idem in Hemail.
  exists k, c. split_and!; try done.
  - cbn. by rewrite Ho3, Ho2.
  - cbn. by rewrite Hc3, Hc2, Hc1.
Qed.

(** ** Replacing a code *)

Lemma prune_codes_sub budget now l c : c ∈ prune_codes budget now l -> c ∈ l.
Proof.
  revert budget. induction l as [|x l IH]; intros [|n]; cbn; try done.
  destruct (num_gt _ now); [|intros; right; eauto]. intros [->|Hc]%elem_of_cons; [by left|right; eauto].
Qed.

Lemma replace_facts i now s r s' :
  replaceEmailVerificationCode i now s = (Ok r, s') ->
  Forall (fun c => ec_id c <> ec_id r) (emailVerificationCodes s) ->
  r ∈ emailVerificationCodes s' /\ recovery_code (toLowerCase (ci_email i)) (str_or (ci_purpose i) "signup") r
  /\ forall c, c ∈ emailVerificationCodes s' -> recovery_code (ec_email r) (ec_purpose r) c -> c = r.
Proof.
  unfold replaceEmailVerificationCode, createEmailVerificationCode. rewrite run_modify.
  unfold mbind at 1, M_bind at 1. rewrite run_get, run_modify. cbn [mret M_ret]. rewrite run_modify.
  intros [= <- <-] Hfresh. set (r := mkEmailCode _ _ _ _ _ _ _ _ _ _ _ _ _) in *. cbn [set_codes emailVerificationCodes update_field].
  unfold consume_where. rewrite fmap_app. cbn [fmap list_fmap].
  assert (Hr : (if decide (superseded_by r r) then consume now r else r) = r).
  { rewrite decide_False; [done|]. intros (H & _). by apply H. }
  rewrite Hr.
  split; [apply elem_of_app; right; by apply list_elem_of_singleton|].
  split; [split_and!; reflexivity|].
  intros c [Hc|Hc%list_elem_of_singleton]%elem_of_app Hpend; [|done].
  apply list_elem_of_fmap in Hc as (c0 & -> & Hc0). apply prune_codes_sub in Hc0.
  rewrite Forall_forall in Hfresh. specialize (Hfresh c0 Hc0).
  case_decide as Hd; [by destruct Hpend as (_ & _ & ?)|]. destruct Hpend as (He & Hp & Hn).
  by destruct Hd.
Qed.

(** Issuing a new code for an address and purpose cancels the pending ones:
    the new code is the only pending code left, as long as no stored code has
    the new one's identifier. *)
Theorem replacement_supersedes i now s r s' :
  replaceEmailVerificationCode i now s = (Ok r, s') ->
  Forall (fun c => ec_id c <> ec_id r) (emailVerificationCodes s) ->
  r ∈ emailVerificationCodes s' /\ recovery_code (toLowerCase (ci_email i)) (str_or (ci_purpose i) "signup") r
  /\ forall c, c ∈ emailVerificationCodes s' -> recovery_code (ec_email r) (ec_purpose r) c -> c = r.
Proof. apply replace_facts. Qed.

Definition reset_request (user email : string) : CodeInput := {|
  ci_userId := Some user; ci_email := email; ci_purpose := "password-reset";
  ci_payload := Some (JObj [("kind", JStr "password-reset"); ("userId", JStr user)]);
  ci_codeHash := "h"; ci_codeSalt := "s"; ci_expiresAt := At 600000; ci_sentAt := None; ci_attempts := 0
|}.

Lemma replacement_supersedes_witness :
  let s' := (replaceEmailVerificationCode (reset_request "usr-an" "an@club.kr") 1000 empty_accounts).2 in
  match emailVerificationCodes s' with
  | [r] => r ∈ emailVerificationCodes s' /\ recovery_code "an@club.kr" "password-reset" r
           /\ forall c, c ∈ emailVerificationCodes s' -> recovery_code (ec_email r) (ec_purpose r) c -> c = r
  | _ => False
  end.
Proof.
  cbn zeta.
  apply (replacement_supersedes (reset_request "usr-an" "an@club.kr") 1000 empty_accounts); [reflexivity|constructor].
Defined.

(** The identifier of a code is cut at 63 characters, before the time and
    the running number, when user id and address are long. Two reset requests
    of such an account then carry the same identifier: the first code is not
    cancelled by the second, and reporting that the delivery of the second
    failed consumes the first while the second stays pending. *)
Theorem long_address_codes_collide :
  let request := reset_request "usr-kim-minsu-20240001-raibit-club-kr" "kim.minsu.20240001@raibit.club.kr" in
  let s1 := (replaceEmailVerificationCode request 1000 empty_accounts).2 in
  let s2 := (replaceEmailVerificationCode request 2000 s1).2 in
  (ec_id <$> emailVerificationCodes s2)
    = ["evc-usr-kim-minsu-20240001-raibit-club-kr-kim-minsu-20240001-ra";
       "evc-usr-kim-minsu-20240001-raibit-club-kr-kim-minsu-20240001-ra"]
  /\ (ec_consumedAt <$> emailVerificationCodes s2) = [None; None]
  /\ (ec_consumedAt <$> emailVerificationCodes
        (failPasswordRecoveryDelivery "evc-usr-kim-minsu-20240001-raibit-club-kr-kim-minsu-20240001-ra" 3000 3000 s2).2)
     = [Some 3000%Z; None].
Proof. vm_compute. done. Qed.
