(* ===== verification/EmailVerification.v ===== *)
(** * Email verification and password recovery flows
    ([packages/core/src/email-verification.ts], [password-recovery.ts])

    Codes, senders and delivery configuration, and the request handlers on top
    of a repository of codes.  HMAC, scrypt, random numbers, URL parsing and
    the network are parameters; the texts of the messages are not modelled. *)

From S2P Require Import Prelude JsString JsVal JsMap Ids Rbac Secrets Identity Accounts Membership AccountInvariants AccountSafety Sessions Auth EmailCodes.
From Stdlib Require QArith.Qround QArith.QArith_base.
From stdpp Require Import pretty.

Definition statusError (message : string) (status : Z) : jserror := plain_error message status.

Definition DEFAULT_EMAIL_VERIFICATION_TTL_SECONDS : Z := 10 * 60.
Definition MAX_EMAIL_VERIFICATION_TTL_SECONDS : Z := 24 * 60 * 60.
Definition MAX_EMAIL_VERIFICATION_ATTEMPTS : Z := 5.
Definition DEFAULT_EMAIL_VERIFICATION_SENDER_LOCAL_PART : string := "email-verification".
Definition DEFAULT_EMAIL_VERIFICATION_SENDER_DOMAIN : string := "raibitserver.local".
Definition EMAIL_VERIFICATION_PADDING_PURPOSE : string := "request-padding".

Definition env_is (key value : string) (env : jsval) : bool := bool_decide (as_string (field key env) = Some value).
Definition in_production (env : jsval) : bool := env_is "NODE_ENV" "production" env.

(** ** Codes *)

Definition normalizeEmailVerificationCode (code : jsval) : result string :=
  let value := trim (string_or_empty code) in
  if class_pattern is_digit 6 6 value then Ok value
  else Throw (statusError "email_verification_code_must_be_6_digits" 400).

Definition emailVerificationTtlSeconds (env : jsval) : Z :=
  match to_number (js_or (field "RAIBITSERVER_EMAIL_VERIFICATION_TTL_SECONDS" env)
                     (JNum (NInt DEFAULT_EMAIL_VERIFICATION_TTL_SECONDS))) with
  | NNaN | NInf _ => DEFAULT_EMAIL_VERIFICATION_TTL_SECONDS
  | NInt z => if (z <=? 0)%Z then DEFAULT_EMAIL_VERIFICATION_TTL_SECONDS
              else Z.max 60 (Z.min z MAX_EMAIL_VERIFICATION_TTL_SECONDS)
  | NFrac _ q => if QArith_base.Qle_bool q (QArith_base.inject_Z 0) then DEFAULT_EMAIL_VERIFICATION_TTL_SECONDS
                 else Z.max 60 (Z.min (Qround.Qfloor q) MAX_EMAIL_VERIFICATION_TTL_SECONDS)
  end.

(** [s.padStart(n, '0')] *)
Definition padStart0 (n : nat) (s : string) : string :=
  unchars (replicate (n - length (chars s)) "0"%char ++ chars s).

(** [random] is [crypto.randomInt(0, 1_000_000)]. *)
Definition generateEmailVerificationCode (env : jsval) (random : Z) : result string :=
  let testCode := trim (string_or_empty (field "RAIBITSERVER_EMAIL_VERIFICATION_TEST_CODE" env)) in
  if negb (str_empty testCode) && negb (in_production env)
  then normalizeEmailVerificationCode (JStr testCode)
  else Ok (padStart0 6 (pretty random)).

Definition emailVerificationSecret (jwtSecret : string) (env : jsval) : result string :=
  let secret := js_String (js_or (field "RAIBITSERVER_EMAIL_VERIFICATION_SECRET" env) (JStr jwtSecret)) in
  if str_empty secret then Throw (statusError "email_verification_secret_not_configured" 500) else Ok secret.

Definition timingSafeEqualText (a b : string) : bool := bool_decide (a = b).

Section hashing.
Context (hmac : string -> string -> string).

Definition hashEmailVerificationCode (email : jsval) (code : jsval) (codeSalt secret : string) : result string :=
  email ← normalizeEmail email;
  code ← normalizeEmailVerificationCode code;
  _ ← throw_if (str_empty codeSalt) (statusError "email_verification_salt_required" 500);
  Ok (hmac secret (email +:+ ":" +:+ code +:+ ":" +:+ codeSalt)).

Definition verifyEmailVerificationCodeHash (email code : jsval) (codeSalt codeHash secret : string) : result bool :=
  actual ← hashEmailVerificationCode email code codeSalt secret;
  Ok (timingSafeEqualText actual codeHash).
End hashing.

(** ** Senders *)

Definition is_domain_char (c : ascii) : bool := is_lower_alnum c || is_dot c || is_hyphen c.

Definition strip_prefix (p s : string) : string :=
  if startsWith s p then unchars (drop (length (chars p)) (chars s)) else s.

(** [domain.replace(/^https?:\/\//, '')] *)
Definition strip_scheme (s : string) : string :=
  if startsWith s "https://" then strip_prefix "https://" s else strip_prefix "http://" s.

Definition first_segment (c : ascii) (s : string) : string :=
  match split_on c s with seg :: _ => seg | [] => "" end.

Definition normalizeEmailSenderDomain (value : jsval) : result string :=
  let domain := toLowerCase (trim (string_or_empty value)) in
  if str_empty domain then Ok ""
  else
    let domain := first_segment ":"%char (first_segment "/"%char (strip_scheme domain)) in
    _ ← throw_if (str_empty domain || startsWith domain "." || endsWith domain "." || includes domain "..")
          (statusError "email_sender_domain_invalid" 500);
    _ ← throw_if (negb (forallb is_domain_char (chars domain))) (statusError "email_sender_domain_invalid" 500);
    Ok domain.

Definition isLocalEmailSenderDomain (domain : string) : bool :=
  bool_decide (domain = "localhost") || endsWith domain ".local".

Definition emailVerificationSenderDomainFromEnv (env : jsval) : result string :=
  a ← normalizeEmailSenderDomain (field "RAIBITSERVER_EMAIL_DOMAIN" env);
  if negb (str_empty a) then Ok a
  else
    b ← normalizeEmailSenderDomain (field "RAIBITSERVER_BASE_DOMAIN" env);
    if negb (str_empty b) then Ok b else normalizeEmailSenderDomain (field "BASE_DOMAIN" env).

Definition formatEmailVerificationSender (domain : string) : result string :=
  normalizedDomain ← normalizeEmailSenderDomain (JStr domain);
  _ ← throw_if (str_empty normalizedDomain) (statusError "email_sender_domain_invalid" 500);
  Ok ("RAIBITSERVER <" +:+ DEFAULT_EMAIL_VERIFICATION_SENDER_LOCAL_PART +:+ "@" +:+ normalizedDomain +:+ ">").

Definition is_angle (c : ascii) : bool := ((code c =? 60) || (code c =? 62))%N.
Definition is_line_break (c : ascii) : bool := ((code c =? 13) || (code c =? 10))%N.

(** The group of [/<([^<>]+)>$/]. *)
Definition angle_match (s : string) : option string :=
  match rev (chars s) with
  | ">"%char :: r =>
      let '(inner, rest) := span (fun c => negb (is_angle c)) r in
      match inner, rest with
      | _ :: _, "<"%char :: _ => Some (unchars (rev inner))
      | _, _ => None
      end
  | _ => None
  end.

Definition address_part (l : list ascii) : bool :=
  match l with [] => false | _ => forallb (fun c => negb (is_space c) && negb (is_angle c)) l end.

(** [/^[^\s@<>]+@[^\s@<>]+$/] *)
Definition plain_address (s : string) : option string :=
  match split_chars "@"%char (chars s) with
  | [a; b] => if address_part a && address_part b then Some (unchars b) else None
  | _ => None
  end.

Definition sanitizeEmailSenderHeader (value : jsval) : result string :=
  let sender := trim (string_or_empty value) in
  if str_empty sender then Ok ""
  else
    _ ← throw_if (existsb is_line_break (chars sender)) (statusError "email_sender_invalid" 500);
    let address := match angle_match sender with Some a => a | None => sender end in
    match plain_address address with
    | None => Throw (statusError "email_sender_invalid" 500)
    | Some domain => _ ← normalizeEmailSenderDomain (JStr domain); Ok sender
    end.

Definition emailVerificationSenderFromEnv (env : jsval) : result string :=
  configuredFrom ← sanitizeEmailSenderHeader (field "RAIBITSERVER_EMAIL_FROM" env);
  if negb (str_empty configuredFrom) then Ok configuredFrom
  else
    domain ← emailVerificationSenderDomainFromEnv env;
    _ ← throw_if ((str_empty domain || isLocalEmailSenderDomain domain) && in_production env)
          (statusError "email_sender_not_configured" 500);
    formatEmailVerificationSender (str_or domain DEFAULT_EMAIL_VERIFICATION_SENDER_DOMAIN).

(** ** Delivery *)

(** What the code reads of [new URL(text)]. *)
Record Url := { url_protocol : string; url_hostname : string; url_username : string; url_password : string;
                url_search : string; url_hash : string; url_host : string }.

Definition webhook_url (env : jsval) : string := trim (string_or_empty (field "RAIBITSERVER_EMAIL_WEBHOOK_URL" env)).

Definition delivery_mode (env : jsval) : string :=
  let configuredMode := toLowerCase (trim (string_or_empty (field "RAIBITSERVER_EMAIL_DELIVERY_MODE" env))) in
  str_or configuredMode (if str_empty (webhook_url env) then "console" else "webhook").

Section delivery.
Context (parse_url : string -> option Url).

Definition assertEmailDeliveryConfigured (env : jsval) : result bool :=
  let webhookUrl := webhook_url env in
  _ ← throw_if (in_production env && str_empty webhookUrl) (statusError "email_delivery_not_configured" 500);
  let mode := delivery_mode env in
  _ ← throw_if (negb (bool_decide (mode ∈ ["webhook"; "console"; "log"; "stdout"])))
        (statusError ("unsupported_email_delivery_mode:" +:+ mode) 500);
  _ ← throw_if (in_production env && negb (bool_decide (mode = "webhook")))
        (statusError "production_email_delivery_mode_must_be_webhook" 500);
  _ ← (if bool_decide (mode = "webhook") then
         _ ← throw_if (str_empty webhookUrl) (statusError "email_webhook_url_required" 500);
         match parse_url webhookUrl with
         | None => Throw (statusError "email_webhook_url_invalid" 500)
         | Some parsed => throw_if (negb (bool_decide (url_protocol parsed ∈ ["http:"; "https:"])))
                            (statusError "email_webhook_url_invalid" 500)
         end
       else Ok tt);
  _ ← emailVerificationSenderFromEnv env;
  Ok true.

(** The outcome of the POST to the webhook. *)
Inductive FetchOutcome : Type :=
| Responded (ok : bool) (status : Z) (messageId requestId : option string)
| TimedOut
| FetchFailed (e : jserror).

Record DeliveryResult := { dr_mode : string; dr_messageId : option string }.

Definition deliverEmailVerificationMessage (fetch : string -> list (string * string) -> FetchOutcome) (env : jsval)
    : result DeliveryResult :=
  let webhookUrl := webhook_url env in
  _ ← assertEmailDeliveryConfigured env;
  let mode := delivery_mode env in
  if bool_decide (mode = "webhook") then
    _ ← throw_if (str_empty webhookUrl) (statusError "email_webhook_url_required" 500);
    let token := trim (string_or_empty (field "RAIBITSERVER_EMAIL_WEBHOOK_TOKEN" env)) in
    let headers := ("content-type", "application/json")
                   :: (if str_empty token then [] else [("authorization", "Bearer " +:+ token)]) in
    match fetch webhookUrl headers with
    | TimedOut => Throw (statusError "email_delivery_timeout" 504)
    | FetchFailed e => Throw e
    | Responded ok status messageId requestId =>
        _ ← throw_if (negb ok) (statusError ("email_delivery_failed:" +:+ pretty status) 502);
        let id := str_or (option_text messageId) (option_text requestId) in
        Ok {| dr_mode := "webhook"; dr_messageId := if str_empty id then None else Some id |}
    end
  else if bool_decide (mode ∈ ["console"; "log"; "stdout"])
  then Ok {| dr_mode := "console"; dr_messageId := None |}
  else Throw (statusError ("unsupported_email_delivery_mode:" +:+ mode) 500).
End delivery.

(** ** Configuration is sound *)

Lemma normalize_domain_chars v d :
  normalizeEmailSenderDomain v = Ok d -> forallb is_domain_char (chars d) = true.
Proof.
  unfold normalizeEmailSenderDomain. destruct (str_empty _); [by intros [= <-]|].
  intros (u & _ & (u2 & H & [= <-])%bind_Ok)%bind_Ok. by apply throw_if_Ok, negb_false_iff in H.
Qed.

Lemma domain_char_no_break c : is_domain_char c = true -> is_line_break c = false.
Proof. char_cases c; vm_compute; congruence. Qed.

Definition one_line (s : string) : Prop := existsb is_line_break (chars s) = false.

Lemma one_line_app a b : one_line a -> one_line b -> one_line (a +:+ b).
Proof. unfold one_line. rewrite chars_app, existsb_app. by intros -> ->. Qed.

Lemma one_line_domain d : forallb is_domain_char (chars d) = true -> one_line d.
Proof.
  unfold one_line. rewrite forallb_forall. intros H. apply not_true_iff_false. intros (c & Hc & Hb)%existsb_exists.
  by rewrite (domain_char_no_break c (H c Hc)) in Hb.
Qed.

Lemma sender_one_line env s : emailVerificationSenderFromEnv env = Ok s -> s <> "" /\ one_line s.
Proof.
  unfold emailVerificationSenderFromEnv. intros (configured & Hc & H)%bind_Ok.
  destruct (str_empty configured) eqn:Ee; cbn [negb] in H.
  - unfold formatEmailVerificationSender in H. unbind.
    match goal with H : normalizeEmailSenderDomain (JStr _) = Ok ?d |- _ => apply normalize_domain_chars in H; rename d into dom end.
    split; [done|]. repeat apply one_line_app; try reflexivity. by apply one_line_domain.
  - injection H as <-. unfold sanitizeEmailSenderHeader in Hc.
    destruct (str_empty (trim _)) eqn:Et; [injection Hc as <-; by vm_compute in Ee|].
    unbind. destruct (plain_address _); [|done]. unbind. split; [|done]. intros E. by rewrite E in Et.
Qed.

Section delivery_soundness.
Context (parse_url : string -> option Url).

(** When the delivery configuration is accepted, the sender header is a
    single non-empty line (an injected line break is refused), and in
    production mail goes to a webhook with an http or https address and never
    to the console. *)
Theorem delivery_configuration_sound env b :
  assertEmailDeliveryConfigured parse_url env = Ok b ->
  (exists sender, emailVerificationSenderFromEnv env = Ok sender /\ sender <> "" /\ one_line sender)
  /\ (in_production env = true ->
      delivery_mode env = "webhook"
      /\ exists url, parse_url (webhook_url env) = Some url /\ url_protocol url ∈ ["http:"; "https:"]).
Proof.
  unfold assertEmailDeliveryConfigured. intros H. unbind.
  match goal with H : emailVerificationSenderFromEnv env = Ok ?s |- _ =>
    pose proof (sender_one_line env s H) as Hs; split; [by exists s|] end.
  intros Hp. rewrite Hp in *. cbn [andb] in *.
  match goal with H : negb (bool_decide (delivery_mode env = "webhook")) = false |- _ =>
    apply negb_false_iff, bool_decide_eq_true in H as Hm end.
  split; [done|]. rewrite Hm in *. rewrite bool_decide_true in * by done. unbind.
  destruct (parse_url (webhook_url env)) as [url|]; [|done]. exists url. split; [done|]. unbind.
  match goal with H : bool_decide (url_protocol url ∈ _) = true |- _ => by apply bool_decide_eq_true in H end.
Qed.
End delivery_soundness.

Lemma delivery_configuration_sound_witness :
  let env := JObj [("NODE_ENV", JStr "production"); ("RAIBITSERVER_EMAIL_WEBHOOK_URL", JStr "https://mail.club.kr/send");
                   ("RAIBITSERVER_EMAIL_DOMAIN", JStr "club.kr")] in
  let parse := fun _ : string => Some (Build_Url "https:" "mail.club.kr" "" "" "" "" "mail.club.kr") in
  (exists sender, emailVerificationSenderFromEnv env = Ok sender /\ sender <> "" /\ one_line sender)
  /\ (in_production env = true ->
      delivery_mode env = "webhook"
      /\ exists url, parse (webhook_url env) = Some url /\ url_protocol url ∈ ["http:"; "https:"]).
Proof.
  cbn zeta.
  apply (delivery_configuration_sound (fun _ => Some (Build_Url "https:" "mail.club.kr" "" "" "" "" "mail.club.kr")) _ true).
  vm_compute. reflexivity.
Defined.
