(* ===== verification/EmailFlows.v ===== *)
(** * Signup, resend, verification and recovery requests
    ([packages/core/src/email-verification.ts], [password-recovery.ts])

    The handlers are written against a repository of codes; the store of
    [Accounts] is one.  A handler returns the body of its response together
    with the delivery it schedules: the response must not tell whether an
    address is registered. *)

From S2P Require Import Prelude JsString JsVal JsMap Ids Rbac Secrets Identity Accounts Membership AccountInvariants AccountSafety Sessions Auth EmailCodes EmailCodeSafety EmailVerification.
From stdpp Require Import pretty.

(** ** The repository *)

Class CodeRepository (S : Type) := {
  cr_countUsers : S -> Z;
  cr_findUserByEmail : string -> S -> option User;
  cr_findOrganizationBySlug : jsval -> S -> option Organization;
  cr_findPendingEmailVerificationCode : string -> string -> Z -> S -> option EmailCode;
  cr_replaceEmailVerificationCode : CodeInput -> Z -> M S EmailCode;
  cr_completeSignupEmailVerification :
    string -> string -> Z -> Z -> (EmailCode -> result bool) -> (jsval -> bool -> jsval) -> Z -> M S SignupCompletion;
  cr_completePasswordRecovery :
    string -> string -> string -> Z -> Z -> (EmailCode -> result bool) -> Z -> M S RecoveryCompletion;
  cr_failPasswordRecoveryDelivery : string -> Z -> Z -> M S unit
}.

(** What the handlers rely on: a code can always be stored, and is stored as
    given. *)
Class CodeRepositoryLaws (S : Type) `{CodeRepository S} := {
  cr_replace_total i now s : exists s' row, cr_replaceEmailVerificationCode i now s = (Ok row, s')
    /\ ec_codeHash row = ci_codeHash i /\ ec_codeSalt row = ci_codeSalt i
}.

#[export] Instance store_codes : CodeRepository AccountStore := {|
  cr_countUsers := countUsers (NInt 1);
  cr_findUserByEmail := findUserByEmail;
  cr_findOrganizationBySlug := findOrganizationBySlug;
  cr_findPendingEmailVerificationCode := findPendingEmailVerificationCode;
  cr_replaceEmailVerificationCode := replaceEmailVerificationCode;
  cr_completeSignupEmailVerification := completeSignupEmailVerification;
  cr_completePasswordRecovery := completePasswordRecovery;
  cr_failPasswordRecoveryDelivery := failPasswordRecoveryDelivery
|}.

#[export] Instance store_codes_laws : CodeRepositoryLaws AccountStore.
Proof.
  split. intros i now s. cbn. unfold replaceEmailVerificationCode, createEmailVerificationCode.
  rewrite run_modify. unfold mbind at 1, M_bind at 1. rewrite run_get, run_modify. cbn [mret M_ret]. rewrite run_modify.
  do 2 eexists. split; [reflexivity|]. done.
Qed.

(** ** Small helpers *)

Definition requiredSignupString (value : jsval) (name : string) : result string :=
  match value with
  | JStr s => if str_empty (trim s) then Throw (statusError (name +:+ "_is_required") 400) else Ok (trim s)
  | _ => Throw (statusError (name +:+ "_is_required") 400)
  end.

Definition normalizeClubMemberClaim (value : jsval) : bool :=
  match value with JBool true => true | _ => false end
  || bool_decide (toLowerCase (trim (string_or_empty value)) ∈ ["1"; "true"; "yes"; "club_member"]).

Definition emailVerificationPaddingPayload : jsval :=
  JObj [("kind", JStr EMAIL_VERIFICATION_PADDING_PURPOSE); ("name", JStr ""); ("studentId", JStr "");
        ("clubMemberClaim", JBool false); ("email", JStr ""); ("passwordHash", JStr ""); ("organizationSlug", JStr "");
        ("organizationName", JStr ""); ("plan", JStr "free"); ("policy", JObj [])].

Definition assertUserEmailVerified (user : User) : result bool :=
  match u_emailVerifiedAt user with
  | None => Throw (statusError "email_not_verified" 403)
  | Some _ => Ok true
  end.

Definition maskEmailAddress (email : jsval) : result string :=
  email ← normalizeEmail email;
  let parts := split_on "@"%char email in
  let name := chars (option_text (parts !! 0%nat)) in
  let domain := option_text (parts !! 1%nat) in
  let maskedName :=
    if (length name <=? 2)%nat then match name with c :: _ => [c] | [] => ["*"%char] end ++ ["*"%char]
    else take 2 name ++ chars "***" ++ drop (length name - 1) name in
  Ok (unchars maskedName +:+ "@" +:+ domain).

Definition signup_env (env : jsval) : SignupEnv := {|
  env_production := in_production env;
  env_ADMIN_EMAILS := string_or_empty (field "ADMIN_EMAILS" env);
  env_ADMIN_BOOTSTRAP_TOKEN := string_or_empty (field "RAIBITSERVER_ADMIN_BOOTSTRAP_TOKEN" env)
|}.

Definition policy_json (p : SignupPolicy) : jsval :=
  JObj [("isAdminBootstrap", JBool (isAdminBootstrap p));
        ("bootstrapReason", match bootstrapReason p with Some r => JStr r | None => JNull end);
        ("role", JStr (pol_role p)); ("accountType", JStr (pol_accountType p));
        ("approvalStatus", JStr (pol_approvalStatus p))].

(** The policy a signup is granted when it is completed: a claim to be the
    first user is decided anew. *)
Definition resolvePolicy (env : jsval) (email : string) (payload : jsval) (firstUser : bool) : jsval :=
  let fresh := policy_json (signupPolicyForAccount "" email firstUser (signup_env env)) in
  if bool_decide (as_string (field "bootstrapReason" (field "policy" payload)) = Some "first-user") then fresh
  else js_or (field "policy" payload) fresh.

(** ** Handlers *)

(** The body of a response, and what the request schedules *)
Definition emailVerificationRequestAccepted : jsval := JObj [("accepted", JBool true)].

Record FlowOptions := { fo_env : jsval; fo_jwtSecret : string; fo_issuer : string; fo_ttl : jsnum }.

(** A delivery the handler schedules: address, code and its expiry. *)
Record Scheduled := { sch_email : string; sch_code : string; sch_expiresAt : Z }.

(** Random values drawn by a request. *)
Record Randomness := { rnd_code : Z; rnd_salt : string; rnd_passwordSalt : string }.

Section flows.
Context {S : Type} `{CodeRepository S}.
Context (hmac : string -> string -> string) (scrypt : string -> string -> jsnum -> string).
Context (encode_segment : jsval -> string).

Definition read {A} (f : S -> A) : M S A := fun s => (Ok (f s), s).

Definition countUsersForRepository : M S Z :=
  count ← read cr_countUsers;
  if safe_integer count && (0 <=? count)%Z then mret (Z.min count 1)
  else raise (statusError "repository_user_count_invalid" 500).

Definition issueEmailVerificationChallenge (email : string) (payload : jsval) (o : FlowOptions) (deliverable : bool)
    (r : Randomness) (now : Z) : M S (option Scheduled) :=
  secret ← lift (emailVerificationSecret (fo_jwtSecret o) (fo_env o));
  code ← lift (generateEmailVerificationCode (fo_env o) (rnd_code r));
  codeHash ← lift (hashEmailVerificationCode hmac (JStr email) (JStr code) (rnd_salt r) secret);
  let expiresAt := (now + emailVerificationTtlSeconds (fo_env o) * 1000)%Z in
  _ ← cr_replaceEmailVerificationCode {|
        ci_userId := if truthy (field "userId" payload) then Some (js_String (field "userId" payload)) else None;
        ci_email := email;
        ci_purpose := js_String (js_or (field "kind" payload) (JStr "signup"));
        ci_payload := Some payload; ci_codeHash := codeHash; ci_codeSalt := rnd_salt r; ci_expiresAt := At expiresAt;
        ci_sentAt := Some now; ci_attempts := 0 |} now;
  mret (if deliverable then Some {| sch_email := email; sch_code := code; sch_expiresAt := expiresAt |} else None).

Definition explicit_slug (input : jsval) : option jsval :=
  if bool_decide ("organizationSlug" ∈ obj_keys input) then Some (field "organizationSlug" input)
  else if bool_decide ("orgSlug" ∈ obj_keys input) then Some (field "orgSlug" input)
  else None.

Definition issueSignupEmailVerificationCode (input : jsval) (o : FlowOptions) (r : Randomness) (now : Z)
    : M S (jsval * option Scheduled) :=
  email ← lift (normalizeEmail (field "email" input));
  name ← lift (requiredSignupString (field "name" input) "name");
  studentId ← lift (requiredSignupString (field "studentId" input) "student_id");
  let clubMemberClaim := normalizeClubMemberClaim (field "clubMemberClaim" input) in
  let organizationSlug := match explicit_slug input with
                          | Some slug => slug
                          | None => JStr (personalOrganizationSlug email)
                          end in
  _ ← lift (match explicit_slug input with
            | Some slug => match parseOrganizationRouteSlug slug with
                           | Ok _ => Ok tt
                           | Throw e => Throw (statusError (err_code e) 400)
                           end
            | None => Ok tt
            end);
  userCount ← countUsersForRepository;
  passwordHash ← lift (hashPasswordAsync scrypt (field "password" input) (rnd_passwordSalt r) 16384);
  existing ← read (cr_findUserByEmail email);
  existingOrganization ← read (cr_findOrganizationBySlug organizationSlug);
  let token := string_or_empty (js_or (field "bootstrapToken" input) (field "adminBootstrapToken" input)) in
  let policy := signupPolicyForAccount token email (userCount =? 0)%Z (signup_env (fo_env o)) in
  let payload := JObj [("kind", JStr "signup"); ("name", JStr name); ("studentId", JStr studentId);
                       ("clubMemberClaim", JBool clubMemberClaim); ("email", JStr email);
                       ("passwordHash", JStr passwordHash); ("organizationSlug", organizationSlug);
                       ("organizationName", js_or (field "organizationName" input) organizationSlug);
                       ("plan", js_or (field "plan" input) (JStr "free")); ("policy", policy_json policy)] in
  let deliverable := match existing, existingOrganization with None, None => true | _, _ => false end in
  scheduled ← issueEmailVerificationChallenge email (if deliverable then payload else emailVerificationPaddingPayload) o deliverable r now;
  mret (emailVerificationRequestAccepted, scheduled).

Definition resendEmailVerificationCode (input : jsval) (o : FlowOptions) (r : Randomness) (now : Z)
    : M S (jsval * option Scheduled) :=
  email ← lift (normalizeEmail (field "email" input));
  existing ← read (cr_findUserByEmail email);
  record ← read (cr_findPendingEmailVerificationCode email "signup" now);
  let stored := match record with Some c => payload_of c | None => JObj [] end in
  let deliverable := match existing with None => true | Some _ => false end
                     && bool_decide (as_string (field "kind" stored) = Some "signup") in
  scheduled ← issueEmailVerificationChallenge email (if deliverable then stored else emailVerificationPaddingPayload) o deliverable r now;
  mret (emailVerificationRequestAccepted, scheduled).

Definition code_verifier (email code secret : string) (c : EmailCode) : result bool :=
  verifyEmailVerificationCodeHash hmac (JStr email) (JStr code) (ec_codeSalt c) (ec_codeHash c) secret.

Definition invalid_code : jserror := statusError "invalid_or_expired_email_verification_code" 403.

(** The path of a repository that completes the signup itself, as the store does. *)
Definition verifyEmailCodeAndCreateSession (input : jsval) (o : FlowOptions) (jti : string) (now : Z)
    : M S (SignupCompletion * string) :=
  secret ← lift (emailVerificationSecret (fo_jwtSecret o) (fo_env o));
  email ← lift (normalizeEmail (field "email" input));
  code ← lift (normalizeEmailVerificationCode (field "code" input));
  completion ← cr_completeSignupEmailVerification email "signup" now MAX_EMAIL_VERIFICATION_ATTEMPTS
                 (code_verifier email code secret) (resolvePolicy (fo_env o) email) now;
  match completion with
  | SignupInvalid => raise invalid_code
  | SignupVerified user _ _ memberships _ =>
      token ← lift (createSessionToken hmac encode_segment user memberships (fo_jwtSecret o) (fo_ttl o)
                      (str_or (fo_issuer o) (string_or_empty (field "RAIBITSERVER_AUTH_ISSUER" (fo_env o)))) jti now);
      mret (completion, token)
  end.

(** *** Password recovery *)

Definition PASSWORD_RESET_PURPOSE : string := "password-reset".
Definition PASSWORD_RESET_TTL_SECONDS : Z := 10 * 60.
Definition PASSWORD_RESET_MAX_ATTEMPTS : Z := 5.

(** [passwordRecoveryUser], on the row the repository returned. *)
Definition passwordRecoveryUser (user : option User) (now : Z) : option string :=
  match user with
  | None => None
  | Some u =>
      if str_empty (option_text (u_passwordHash u)) || bool_decide (u_emailVerifiedAt u = None)
         || negb (bool_decide (toUpperCase (u_approvalStatus u) = "APPROVED")) || ban_active u now
      then None
      else Some (u_id u)
  end.

Definition requestPasswordRecovery (input : jsval) (o : FlowOptions) (r : Randomness) (now : Z)
    : M S (jsval * option (Scheduled * string)) :=
  email ← lift (normalizeEmail (field "email" input));
  user ← read (cr_findUserByEmail email);
  let deliverableUser := passwordRecoveryUser user now in
  code ← lift (generateEmailVerificationCode (fo_env o) (rnd_code r));
  secret ← lift (emailVerificationSecret (fo_jwtSecret o) (fo_env o));
  codeHash ← lift (hashEmailVerificationCode hmac (JStr email) (JStr code) (rnd_salt r) secret);
  let expiresAt := (now + PASSWORD_RESET_TTL_SECONDS * 1000)%Z in
  challenge ← cr_replaceEmailVerificationCode {|
        ci_userId := deliverableUser; ci_email := email; ci_purpose := PASSWORD_RESET_PURPOSE;
        ci_payload := Some (match deliverableUser with
                            | Some id => JObj [("kind", JStr PASSWORD_RESET_PURPOSE); ("userId", JStr id)]
                            | None => JObj [("kind", JStr EMAIL_VERIFICATION_PADDING_PURPOSE)]
                            end);
        ci_codeHash := codeHash; ci_codeSalt := rnd_salt r; ci_expiresAt := At expiresAt;
        ci_sentAt := Some now; ci_attempts := 0 |} now;
  mret (JObj [("accepted", JBool true)],
        match deliverableUser with
        | Some _ => Some ({| sch_email := email; sch_code := code; sch_expiresAt := expiresAt |}, ec_id challenge)
        | None => None
        end).

(** The scheduled task: when the delivery fails the challenge is withdrawn. *)
Definition password_reset_delivery (scheduled : option (Scheduled * string)) (delivered : bool) (failedAt clock : Z)
    : M S unit :=
  match scheduled with
  | None => mret tt
  | Some (_, challengeId) => if delivered then mret tt else cr_failPasswordRecoveryDelivery challengeId failedAt clock
  end.

Definition completePasswordRecoveryRequest (input : jsval) (o : FlowOptions) (passwordSalt : string) (now : Z) : M S bool :=
  email ← lift (normalizeEmail (field "email" input));
  code ← lift (normalizeEmailVerificationCode (field "code" input));
  passwordHash ← lift (hashPasswordAsync scrypt (field "newPassword" input) passwordSalt 16384);
  secret ← lift (emailVerificationSecret (fo_jwtSecret o) (fo_env o));
  result ← cr_completePasswordRecovery email PASSWORD_RESET_PURPOSE passwordHash now PASSWORD_RESET_MAX_ATTEMPTS
             (code_verifier email code secret) now;
  match result with
  | RecoveryReset _ _ => mret true
  | RecoveryInvalid => raise (plain_error "invalid_or_expired_password_reset_code" 403)
  end.
End flows.

(** ** Answers do not reveal accounts *)

(** What the requester sees: the body of the response or the error, and not the
    delivery nor the state. *)
Definition answer {A S} (r : result (jsval * A) * S) : result jsval :=
  match r.1 with Ok (body, _) => Ok body | Throw e => Throw e end.

Section answers.
Context {S : Type} `{CodeRepositoryLaws S}.
Context (hmac : string -> string -> string) (scrypt : string -> string -> jsnum -> string).

(** The errors of issuing a challenge come from the configuration alone. *)
Definition challenge_answer (body : jsval) (email : string) (o : FlowOptions) (r : Randomness) : result jsval :=
  secret ← emailVerificationSecret (fo_jwtSecret o) (fo_env o);
  code ← generateEmailVerificationCode (fo_env o) (rnd_code r);
  _ ← hashEmailVerificationCode hmac (JStr email) (JStr code) (rnd_salt r) secret;
  Ok body.

Lemma issue_answer body email payload o d r now s :
  answer ((scheduled ← issueEmailVerificationChallenge hmac email payload o d r now; mret (body, scheduled)) s) = challenge_answer body email o r.
Proof.
  unfold issueEmailVerificationChallenge, challenge_answer. unfold mbind at 1, M_bind at 1.
  rewrite run_lift. destruct (emailVerificationSecret _ _) as [secret|]; [|done]. cbn [mbind result_bind].
  rewrite run_lift. destruct (generateEmailVerificationCode _ _) as [code|]; [|done]. cbn [mbind result_bind].
  rewrite run_lift. destruct (hashEmailVerificationCode _ _ _ _ _) as [h|]; [|done]. cbn [mbind result_bind].
  unfold mbind, M_bind. match goal with |- context [cr_replaceEmailVerificationCode ?i now s] =>
    destruct (cr_replace_total i now s) as (s' & row & -> & _) end. done.
Qed.

(** A repository that counts its users. *)
Definition counts (s : S) : Prop := safe_integer (cr_countUsers s) = true /\ (0 <= cr_countUsers s)%Z.

Lemma run_count {A} (f : Z -> M S A) s : counts s -> (countUsersForRepository ≫= f) s = f (Z.min (cr_countUsers s) 1) s.
Proof.
  intros [Hs Hp]. unfold countUsersForRepository, read. unfold mbind, M_bind. rewrite Hs.
  destruct (Z.leb_spec 0 (cr_countUsers s)); [done|lia].
Qed.

Lemma run_read {A B} (g : S -> A) (f : A -> M S B) s : (read g ≫= f) s = f (g s) s.
Proof. reflexivity. Qed.

(** C36. What a requester is told by signup, resend and password recovery is the
    same in every state of the repository: neither whether the address is
    registered nor whether the organization exists can be read off the body of
    the response or the error. *)
Theorem answers_reveal_nothing input o r now s1 s2 :
  counts s1 -> counts s2 ->
  answer (issueSignupEmailVerificationCode hmac scrypt input o r now s1)
    = answer (issueSignupEmailVerificationCode hmac scrypt input o r now s2)
  /\ answer (resendEmailVerificationCode hmac input o r now s1)
    = answer (resendEmailVerificationCode hmac input o r now s2)
  /\ answer (requestPasswordRecovery hmac input o r now s1)
    = answer (requestPasswordRecovery hmac input o r now s2).
Proof.
  intros Hc1 Hc2. split_and!.
  - unfold issueSignupEmailVerificationCode. rewrite !run_lift.
    destruct (normalizeEmail _); [|done]. rewrite !run_lift. destruct (requiredSignupString _ _); [|done].
    rewrite !run_lift. destruct (requiredSignupString _ _); [|done]. rewrite !run_lift.
    destruct (match explicit_slug input with Some _ => _ | None => _ end); [|done].
    rewrite !run_count by done. rewrite !run_lift. destruct (hashPasswordAsync _ _ _ _); [|done].
    rewrite !run_read, !issue_answer. done.
  - unfold resendEmailVerificationCode. rewrite !run_lift. destruct (normalizeEmail _); [|done].
    rewrite !run_read, !issue_answer. done.
  - unfold requestPasswordRecovery. rewrite !run_lift. destruct (normalizeEmail _); [|done]. rewrite !run_read, !run_lift.
    destruct (generateEmailVerificationCode _ _); [|done]. rewrite !run_lift.
    destruct (emailVerificationSecret _ _); [|done]. rewrite !run_lift.
    destruct (hashEmailVerificationCode _ _ _ _ _); [|done]. unfold mbind, M_bind, answer.
    match goal with |- context [cr_replaceEmailVerificationCode ?i now s1] =>
      destruct (cr_replace_total i now s1) as (s1' & row1 & -> & _) end.
    match goal with |- context [cr_replaceEmailVerificationCode ?i now s2] =>
      destruct (cr_replace_total i now s2) as (s2' & row2 & -> & _) end. done.
Qed.
End answers.

(** ** Codes verify *)

Lemma digit_not_space c : is_digit c = true -> is_space c = false.
Proof. char_cases c; vm_compute; congruence. Qed.

Lemma digits_trim v : forallb is_digit (chars v) = true -> trim v = v.
Proof.
  rewrite forallb_forall. intros H. unfold trim. rewrite strip_chars_id; [apply unchars_chars| |].
  - intros c k Hc. apply digit_not_space, H. rewrite Hc. by left.
  - intros c k Hc. apply digit_not_space, H. rewrite Hc. apply in_app_iff. right. by left.
Qed.

Lemma class_pattern_all p lo hi s : class_pattern p lo hi s = true -> forallb p (chars s) = true.
Proof. unfold class_pattern. rewrite !andb_true_iff. tauto. Qed.

Lemma string_or_empty_str s : string_or_empty (JStr s) = s.
Proof. unfold string_or_empty. cbn [truthy js_String]. rewrite str_empty_eq. case_bool_decide as E; [by rewrite E|done]. Qed.

Lemma normalize_code_fixed v c : normalizeEmailVerificationCode v = Ok c -> normalizeEmailVerificationCode (JStr c) = Ok c.
Proof.
  unfold normalizeEmailVerificationCode. destruct (class_pattern is_digit 6 6 (trim (string_or_empty v))) eqn:E; [|done].
  intros [= <-]. set (t := trim (string_or_empty v)) in *.
  assert (Hd : forallb is_digit (chars t) = true) by (by eapply class_pattern_all).
  by rewrite (string_or_empty_str t), (digits_trim t Hd), E.
Qed.

Lemma padded_code n : (0 <= n < 1000000)%Z -> class_pattern is_digit 6 6 (padStart0 6 (pretty n)) = true.
Proof.
  intros Hn. destruct (pretty_Z_digits n 6 Hn ltac:(lia)) as (H1 & H2 & H3).
  unfold class_pattern, padStart0. rewrite chars_unchars, length_app, length_replicate, forallb_app, H3, andb_true_r.
  rewrite !andb_true_iff, !Nat.leb_le. split_and!; [lia|lia|].
  apply forallb_forall. intros x [-> _]%list_elem_of_In%elem_of_replicate. done.
Qed.

(** A generated code has six digits and is accepted as typed. *)
Lemma generated_code_normal env n c :
  (0 <= n < 1000000)%Z -> generateEmailVerificationCode env n = Ok c -> normalizeEmailVerificationCode (JStr c) = Ok c.
Proof.
  intros Hn. unfold generateEmailVerificationCode. destruct (_ && _); [apply normalize_code_fixed|].
  intros [= <-]. pose proof (padded_code n Hn) as Hp. unfold normalizeEmailVerificationCode.
  set (t := padStart0 6 (pretty n)) in *.
  assert (Hd : forallb is_digit (chars t) = true) by (by eapply class_pattern_all).
  by rewrite (string_or_empty_str t), (digits_trim t Hd), Hp.
Qed.

Lemma issued_hash_verifies hmac email code salt secret h :
  normalizeEmail (JStr email) = Ok email -> normalizeEmailVerificationCode (JStr code) = Ok code ->
  hashEmailVerificationCode hmac (JStr email) (JStr code) salt secret = Ok h ->
  verifyEmailVerificationCodeHash hmac (JStr email) (JStr code) salt h secret = Ok true.
Proof.
  intros He Hc Hh. unfold verifyEmailVerificationCodeHash. rewrite Hh. cbn. unfold timingSafeEqualText.
  by rewrite bool_decide_true.
Qed.

(** ** Recovery end to end *)

(** The newest code after a replacement is the replacement. *)
Lemma replaced_is_newest i now s r s' :
  replaceEmailVerificationCode i now s = (Ok r, s') ->
  Forall (fun c => ec_id c <> ec_id r) (emailVerificationCodes s) ->
  exists k, newest_code (recovery_code (toLowerCase (ci_email i)) (str_or (ci_purpose i) "signup"))
              (emailVerificationCodes s') = Some (k, r).
Proof.
  intros Hrep Hfresh. destruct (replace_facts _ _ _ _ _ Hrep Hfresh) as (Hin & Hrec & Huniq).
  destruct Hrec as (He & Hp & Hn). rewrite <- He, <- Hp.
  destruct (newest_code (recovery_code (ec_email r) (ec_purpose r)) (emailVerificationCodes s')) as [[k c]|] eqn:E.
  - exists k. apply newest_code_Some in E as [Hk Hc]. rewrite (Huniq c); [done| |done]. by eapply list_elem_of_lookup_2.
  - apply newest_code_None in E. rewrite Forall_forall in E. by destruct (E r Hin).
Qed.

Lemma frame_replace_users i now : frame users (replaceEmailVerificationCode i now).
Proof. unfold replaceEmailVerificationCode, createEmailVerificationCode. solve_frame. Qed.

Lemma replace_users i now s r s' : replaceEmailVerificationCode i now s = (Ok r, s') -> users s' = users s.
Proof. intros H. pose proof (frame_replace_users i now s) as Hf. by rewrite H in Hf. Qed.

Lemma replace_row i now s r s' :
  replaceEmailVerificationCode i now s = (Ok r, s') ->
  ec_payload r = ci_payload i /\ ec_codeHash r = ci_codeHash i /\ ec_codeSalt r = ci_codeSalt i
  /\ ec_expiresAt r = ci_expiresAt i /\ ec_attempts r = ci_attempts i.
Proof.
  unfold replaceEmailVerificationCode, createEmailVerificationCode. rewrite run_modify.
  unfold mbind at 1, M_bind at 1. rewrite run_get, run_modify. cbn [mret M_ret]. rewrite run_modify.
  by intros [= <- _].
Qed.

Section end_to_end.
Context (hmac : string -> string -> string) (scrypt : string -> string -> jsnum -> string).

(** C37. Recovery works: when the owner of an eligible account asks for a reset
    and within ten minutes presents the code that was mailed, together with an
    acceptable new password, the password is reset. *)
Theorem recovery_end_to_end email o r t0 t1 s s1 body sch id u newPassword passwordSalt newHash secret :
  normalizeEmail (JStr email) = Ok email ->
  requestPasswordRecovery hmac (JObj [("email", JStr email)]) o r t0 s = (Ok (body, Some (sch, id)), s1) ->
  (0 <= rnd_code r < 1000000)%Z -> emailVerificationSecret (fo_jwtSecret o) (fo_env o) = Ok secret ->
  Forall (fun c => ec_id c <> id) (emailVerificationCodes s) ->
  findUserByEmail email s = Some u -> map_get (u_id u) (users s) = Some u ->
  passwordRecoveryUserEligible u t1 = true -> (t1 < t0 + 600000)%Z ->
  hashPasswordAsync scrypt (JStr newPassword) passwordSalt 16384 = Ok newHash ->
  exists s2, completePasswordRecoveryRequest hmac scrypt
               (JObj [("email", JStr email); ("code", JStr (sch_code sch)); ("newPassword", JStr newPassword)])
               o passwordSalt t1 s1 = (Ok true, s2)
    /\ map_get (u_id u) (users s2)
       = Some (bump_session (u <| u_passwordHash := Some newHash |>) <| u_updatedAt := t1 |>).
Proof.
  intros He Hreq Hrnd Hsecret Hfresh Hfind Hu Helig Ht Hpw.
  revert Hreq. unfold requestPasswordRecovery. cbn [field obj_get]. rewrite decide_True by done.
  rewrite He, run_lift, run_read, run_lift. cbn [cr_findUserByEmail store_codes]. rewrite Hfind.
  destruct (generateEmailVerificationCode _ _) as [code|] eqn:Hgen; [|done].
  rewrite run_lift, Hsecret, run_lift.
  destruct (hashEmailVerificationCode _ _ _ _ _) as [h|] eqn:Hhash; [|done].
  unfold mbind, M_bind. cbn [cr_replaceEmailVerificationCode store_codes].
  destruct (passwordRecoveryUser (Some u) t0) as [uid|] eqn:Hrec.
  2: { destruct (replaceEmailVerificationCode _ t0 s) as [[row|e] s']; done. }
  assert (uid = u_id u) as ->.
  { unfold passwordRecoveryUser in Hrec. destruct (_ || _ || _ || _); congruence. }
  destruct (replaceEmailVerificationCode _ t0 s) as [[row|e] s'] eqn:Hrep; [|done].
  intros [= _ <- <- <-]. cbn [sch_code].
  destruct (replaced_is_newest _ _ _ _ _ Hrep Hfresh) as (k & Hnew). cbn [ci_email ci_purpose] in Hnew.
  destruct (replace_row _ _ _ _ _ Hrep) as (Hpay & Hrh & Hrs & Hexp & Hatt). cbn in Hpay, Hrh, Hrs, Hexp, Hatt.
  pose proof (replace_users _ _ _ _ _ Hrep) as Hus.
  apply normalizeEmail_fixed in He as (_ & Hlow & He).
  pose proof (generated_code_normal _ _ _ Hrnd Hgen) as Hcode.
  unfold completePasswordRecoveryRequest. cbn [field obj_get].
  repeat (first [rewrite decide_True by done | rewrite decide_False by done]).
  rewrite He, run_lift, Hcode, run_lift, Hpw, run_lift, Hsecret, run_lift.
  unfold mbind, M_bind. cbn [cr_completePasswordRecovery store_codes].
  unfold completePasswordRecovery. rewrite run_get. cbn zeta.
  assert (Htrim : toLowerCase (trim email) = email).
  { unfold normalizeEmail in He. rewrite string_or_empty_str in He. destruct (EMAIL_RE _); [congruence|done]. }
  rewrite Htrim. rewrite Hlow in Hnew. unfold PASSWORD_RESET_PURPOSE in *.
  change (str_or "password-reset" "password-reset") with "password-reset".
  change (str_or "password-reset" "signup") with "password-reset" in Hnew. rewrite Hnew.
  assert (Hopen : code_closed (Z.max 1 (if (PASSWORD_RESET_MAX_ATTEMPTS =? 0)%Z then 5 else PASSWORD_RESET_MAX_ATTEMPTS)) t1 row = false).
  { unfold code_closed. rewrite Hexp, Hatt. cbn [getTime num_le]. apply orb_false_iff. split; [apply Z.leb_gt; unfold PASSWORD_RESET_TTL_SECONDS; lia|done]. }
  rewrite Hopen. unfold code_verifier. rewrite Hrs, Hrh.
  rewrite (issued_hash_verifies hmac email code _ secret h He Hcode Hhash), run_lift. cbn [negb].
  unfold payload_of. rewrite Hpay. cbn [field obj_get].
  repeat (first [rewrite decide_True by done | rewrite decide_False by done]).
  rewrite string_or_empty_str, Hus, Hu. cbn [as_string]. rewrite bool_decide_true by done.
  assert (Hmail : u_email u = email).
  { unfold findUserByEmail in Hfind. apply js_find_elem in Hfind as [_ Hf]. by rewrite Hlow in Hf. }
  rewrite (bool_decide_true (u_email u = email)), Helig by done. cbn [negb orb].
  rewrite run_modify, run_store_user, run_audit. eexists. split; [reflexivity|].
  cbn. rewrite Hus. apply map_get_set_eq.
Qed.
End end_to_end.

(** ** The first user *)

(** A signup that was requested as the first user of an installation is
    granted nothing on that ground once somebody else has signed up: when it
    completes it becomes an administrator only if its address is configured as
    one, and in production not at all. *)
Theorem stale_first_user_claim env email payload :
  as_string (field "bootstrapReason" (field "policy" payload)) = Some "first-user" ->
  field "role" (resolvePolicy env email payload false) = JStr "ADMIN"
  \/ field "approvalStatus" (resolvePolicy env email payload false) = JStr "APPROVED" ->
  in_production env = false /\ toLowerCase email ∈ configuredAdminEmails (signup_env env).
Proof.
  intros Hreason. unfold resolvePolicy. rewrite bool_decide_true by done.
  unfold signupPolicyForAccount. cbn [signup_env env_production].
  destruct (in_production env).
  - cbn. rewrite !andb_false_r. cbn. intros [[=]|[=]].
  - cbn [orb]. case_bool_decide; [done|]. cbn. intros [[=]|[=]].
Qed.

Lemma stale_first_user_claim_witness :
  in_production (JObj [("ADMIN_EMAILS", JStr "an@club.kr")]) = false
  /\ toLowerCase "an@club.kr" ∈ configuredAdminEmails (signup_env (JObj [("ADMIN_EMAILS", JStr "an@club.kr")])).
Proof.
  apply (stale_first_user_claim (JObj [("ADMIN_EMAILS", JStr "an@club.kr")]) "an@club.kr"
           (JObj [("policy", JObj [("bootstrapReason", JStr "first-user")])])); [reflexivity|].
  left. vm_compute. reflexivity.
Defined.
