(* ===== verification/AuthExamples.v ===== *)
(** * Authentication on the sample club: requests, codes and recovery *)

From S2P Require Import Prelude JsString JsVal JsMap Ids Rbac Secrets Identity Accounts Membership AccountInvariants AccountSafety InviteSafety Sessions Auth EmailCodes EmailCodeSafety EmailVerification EmailFlows.

(** A signer and an encoding that are easy to evaluate. *)
Definition toy_hmac (_ _ : string) : string := "sig".
Definition toy_encode (v : jsval) : string := match field "alg" v with JUndef => "body" | _ => "head" end.

Definition bae_payload : list (string * jsval) :=
  session_json (sessionPayloadForUser (redactUser (sample_user "usr-bae" "bae@club.kr")) (listMembershipsForUser "usr-bae" club)).

Definition bae_body : jsval := jwt_body bae_payload 3600 "raibitserver" "raibitserver-api" "id-1" 1000000.

Definition toy_decode (s : string) : option jsval :=
  if decide (s = "head") then Some jwt_header else if decide (s = "body") then Some bae_body else None.

Lemma jwt_round_trip_witness :
  verifyJwtHs256 toy_hmac toy_decode "head.body.sig" "secret" "raibitserver" "raibitserver-api" 2000000 = Ok bae_body.
Proof.
  apply (jwt_round_trip toy_hmac toy_encode toy_decode bae_payload "secret" 3600 "raibitserver" "raibitserver-api" "id-1"
           1000000 "head.body.sig" 2000000); try reflexivity; try discriminate; try lia; try (intros; discriminate);
    try (intros; unfold no_dot; cbn; set_solver).
Defined.

Definition club_auth : AuthConfig := {|
  auth_mode := "jwt"; auth_allowDisabled := false; auth_defaultRole := JUndef; auth_allowDevHeaders := false;
  auth_jwtSecret := "secret"; auth_issuer := ""; auth_audience := "";
  auth_currentUser := Some (fun id => map_get (js_String id) (users club))
|}.

Definition bae_headers : jsval := JObj [("authorization", JStr "Bearer head.body.sig")].
Definition club_scope : jsval := JObj [("organizationId", JStr "org-club")].

Definition bae_subject : Subject :=
  (jwt_subject bae_body) <| sub_role := JStr "ADMIN" |> <| sub_resolvedOrganization := Some "org-club" |>
    <| sub_requestAction := Some "env:read" |>.

Lemma authorizeSubject_sound_witness : permitted_in_scope (jwt_subject bae_body) "env:read" club_scope.
Proof.
  apply (authorizeSubject_sound "env:read" club_scope (jwt_subject bae_body) bae_subject bae_subject);
    [vm_compute; reflexivity|reflexivity|discriminate|reflexivity].
Defined.

Lemma authorizeRequest_sound_witness :
  authorizeRequest toy_hmac toy_decode bae_headers "env:read" club_auth club_scope 2000000 = Ok bae_subject
  /\ admission toy_hmac toy_decode bae_headers "env:read" club_auth club_scope 2000000.
Proof.
  assert (authorizeRequest toy_hmac toy_decode bae_headers "env:read" club_auth club_scope 2000000 = Ok bae_subject) as E by (vm_compute; reflexivity).
  split; [exact E|]. exact (authorizeRequest_sound toy_hmac toy_decode bae_headers "env:read" club_auth club_scope 2000000 bae_subject E eq_refl).
Defined.

(** An administrator of the club may not act in an organization that is not his. *)
Example bae_elsewhere :
  exists e, authorizeRequest toy_hmac toy_decode bae_headers "env:read" club_auth
              (JObj [("organizationId", JStr "org-other")]) 2000000 = Throw e /\ err_status e = Some 403%Z.
Proof. eexists. split; [vm_compute; reflexivity|reflexivity]. Qed.

(** The token of a user whose role changed. *)
Lemma revoked_token_stays_rejected_witness :
  exists e, assertCurrentSession (jwt_subject bae_body) (map_get "usr-bae" (users after_leave)) 5 = Throw e.
Proof.
  apply (revoked_token_stays_rejected plain_digest any_creation after_promotion after_leave "usr-bae"
           (bump_session (sample_user "usr-bae" "bae@club.kr") <| u_updatedAt := 101%Z |>) (jwt_subject bae_body) 0);
    [|apply (users_grow_keyed club); [|apply club_keyed]|vm_compute; reflexivity|cbn; lia|reflexivity|reflexivity|vm_compute; reflexivity].
  - eapply rtc_l; [apply step_leave with (o := "org-club") (u := "usr-an") (v := 1%Z) (now := 102%Z)|]. apply rtc_refl.
  - apply (rtc_users_grow plain_digest any_creation); [|apply club_keyed].
    eapply rtc_l; [apply step_leave with (o := "org-club") (u := "usr-an") (v := 1%Z) (now := 100%Z)|].
    eapply rtc_l; [apply step_changeRole with (o := "org-club") (i := "mem_org-club:usr-bae") (u := "usr-an") (r := OWNER)
      (v := 1%Z) (now := 101%Z)|]. apply rtc_refl.
Defined.

(** ** Email codes *)

Definition club_reset : AccountStore := (replaceEmailVerificationCode (reset_request "usr-an" "an@club.kr") 1000 club).2.

Definition an_code : EmailCode :=
  mkEmailCode "evc-usr-an-an-club-kr-1000-0" (Some "usr-an") "an@club.kr" "password-reset"
    (Some (JObj [("kind", JStr "password-reset"); ("userId", JStr "usr-an")])) "h" "s" (At 600000) 1000 None 0 1000 1000.

Definition wrong_try : attempt := {| at_now := 2000; at_clock := 2000; at_verify := fun _ => Ok false |}.
Definition right_try : attempt := {| at_now := 3000; at_clock := 3000; at_verify := fun _ => Ok true |}.

Lemma recovery_guesses_bounded_witness :
  let s := run_attempts "an@club.kr" "password-reset" "new-hash" 5 (replicate 5 wrong_try) club_reset in
  users s = users club_reset
  /\ forall a, try "an@club.kr" "password-reset" "new-hash" 5 a s = (Ok RecoveryInvalid, s).
Proof.
  apply (recovery_guesses_bounded "an@club.kr" "password-reset" "new-hash" 5 (replicate 5 wrong_try) club_reset 0 an_code);
    [vm_compute; reflexivity|vm_compute; congruence| | |vm_compute; congruence];
    cbn [replicate]; repeat constructor.
Defined.

(** Before the limit is reached the right code does reset the password. *)
Definition after_reset : AccountStore :=
  (completePasswordRecovery "an@club.kr" "password-reset" "new-hash" 3000 5 (fun _ => Ok true) 3000 club_reset).2.

Definition an_reset_view : PublicUser :=
  redactUser (bump_session (sample_user "usr-an" "an@club.kr") <| u_updatedAt := 3000%Z |>).

Lemma recovery_single_use_witness :
  completePasswordRecovery "an@club.kr" "password-reset" "other-hash" 3001 5 (fun _ => Ok true) 3001 after_reset
  = (Ok RecoveryInvalid, after_reset).
Proof.
  apply (recovery_single_use "an@club.kr" "password-reset" "new-hash" 3000 5 (fun _ => Ok true) 3000 club_reset after_reset
           an_reset_view 3000). vm_compute. reflexivity.
Defined.

(** A signup for an address that is not registered. *)
Definition signup_request : CodeInput := {|
  ci_userId := None; ci_email := "dan@club.kr"; ci_purpose := "signup";
  ci_payload := Some (JObj [("kind", JStr "signup"); ("name", JStr "Dan"); ("organizationSlug", JStr "dan");
                            ("passwordHash", JStr "hash")]);
  ci_codeHash := "h"; ci_codeSalt := "s"; ci_expiresAt := At 600000; ci_sentAt := None; ci_attempts := 0
|}.
Definition club_signup : AccountStore := (replaceEmailVerificationCode signup_request 1000 club).2.
Definition run_signup :=
  completeSignupEmailVerification "dan@club.kr" "signup" 2000 5 (fun _ => Ok true) (fun _ _ => JObj []) 2000 club_signup.
Definition dan_view : PublicUser :=
  redactUser (mkUser "usr-dan-club-kr" "Dan" "" false "dan@club.kr" None None (Some "hash") "USER" "NON_CLUB" "PENDING"
                0 None None None None (Some 2000%Z) 2000 2000).
Definition dan_org : Organization := mkOrganization "org-dan" "dan" "dan" "free" 2000.
Definition dan_member : Member := mkMember "org-dan" "usr-dan-club-kr" "owner" (Some 2000%Z) None None.

Lemma signup_completion_witness :
  exists k c,
    emailVerificationCodes club_signup !! k = Some c
    /\ signup_code "dan@club.kr" "signup" c
    /\ code_closed (effective_max 5) 2000 c = false /\ (Ok true : result bool) = Ok true
    /\ as_string (field "kind" (payload_of c)) = Some "signup"
    /\ findUserByEmail "dan@club.kr" club_signup = None
    /\ field "organizationSlug" (payload_of c) = JStr (org_slug dan_org)
    /\ findOrganizationBySlug (JStr (org_slug dan_org)) club_signup = None
    /\ pu_email dan_view = "dan@club.kr"
    /\ (let policy := JObj [] in
        pu_role dan_view = text_default (field "role" policy) "USER"
        /\ pu_approvalStatus dan_view = text_default (field "approvalStatus" policy) "PENDING")
    /\ map_get (org_id dan_org) (organizations run_signup.2) = Some dan_org
    /\ dan_member ∈ members run_signup.2 /\ is_member (org_id dan_org) (pu_id dan_view) dan_member
    /\ role_of dan_member = Some OWNER
    /\ emailVerificationCodes run_signup.2 = alter (consume 2000) k (emailVerificationCodes club_signup).
Proof.
  apply (signup_completion "dan@club.kr" "signup" 2000 5 (fun _ => Ok true) (fun _ _ => JObj []) 2000 club_signup
           dan_view dan_org dan_member [dan_member] 2000 run_signup.2). vm_compute. reflexivity.
Defined.

(** ** Email flows *)

Definition clear_hmac (key text : string) : string := key +:+ "/" +:+ text.
Definition clear_scrypt (password salt : string) (_ : jsnum) : string := salt +:+ password.

Definition club_options : FlowOptions := {|
  fo_env := JObj [("NODE_ENV", JStr "production")]; fo_jwtSecret := "secret"; fo_issuer := ""; fo_ttl := NInt 3600
|}.
Definition draw : Randomness := {| rnd_code := 4711; rnd_salt := "salt"; rnd_passwordSalt := "pepper" |}.

Lemma answers_reveal_nothing_witness :
  answer (requestPasswordRecovery clear_hmac (JObj [("email", JStr "an@club.kr")]) club_options draw 1000 club)
  = answer (requestPasswordRecovery clear_hmac (JObj [("email", JStr "an@club.kr")]) club_options draw 1000 empty_accounts).
Proof.
  apply (answers_reveal_nothing clear_hmac clear_scrypt (JObj [("email", JStr "an@club.kr")]) club_options draw 1000 club
           empty_accounts); (split; [vm_compute; reflexivity|vm_compute; congruence]).
Defined.

(** The club's owner forgets the password and gets back in. *)
Definition recovery_requested : AccountStore :=
  (requestPasswordRecovery clear_hmac (JObj [("email", JStr "an@club.kr")]) club_options draw 1000 club).2.

Lemma recovery_end_to_end_witness :
  exists s2, completePasswordRecoveryRequest clear_hmac clear_scrypt
               (JObj [("email", JStr "an@club.kr"); ("code", JStr "004711"); ("newPassword", JStr "long enough")])
               club_options "pepper" 2000 recovery_requested = (Ok true, s2)
    /\ map_get "usr-an" (users s2)
       = Some (bump_session (sample_user "usr-an" "an@club.kr" <| u_passwordHash := Some "scrypt:v1:16384:pepper:pepperlong enough" |>)
                 <| u_updatedAt := 2000%Z |>).
Proof.
  apply (recovery_end_to_end clear_hmac clear_scrypt "an@club.kr" club_options draw 1000 2000 club recovery_requested
           (JObj [("accepted", JBool true)]) {| sch_email := "an@club.kr"; sch_code := "004711"; sch_expiresAt := 601000 |}
           "evc-usr-an-an-club-kr-1000-0" (sample_user "usr-an" "an@club.kr") "long enough" "pepper"
           "scrypt:v1:16384:pepper:pepperlong enough" "secret");
    try (vm_compute; reflexivity); [vm_compute; split; congruence|constructor].
Defined.
