(* ===== verification/OrganizationInvites.v ===== *)
(** * Issuing and accepting organization invites
    ([packages/core/src/organization-invite.ts])

    The request handlers on top of the invite table of [Membership].  Random
    tokens and identifiers, the digest, URL parsing and the mail delivery are
    parameters. *)

From S2P Require Import Prelude JsString JsVal JsMap Ids Rbac Secrets Identity Accounts Membership AccountInvariants AccountSafety InviteSafety Sessions EmailVerification.

Definition ORGANIZATION_INVITE_TTL_MS : Z := 7 * 24 * 60 * 60 * 1000.

(** [OrganizationInviteView]: the record without its token hash. *)
Record OrganizationInviteView := {
  iv_id : string;
  iv_organizationId : string;
  iv_email : string;
  iv_role : OrganizationMembershipRole;
  iv_tokenVersion : Z;
  iv_invitedByUserId : string;
  iv_expiresAt : Z;
  iv_acceptedAt : option Z;
  iv_revokedAt : option Z;
  iv_createdAt : Z
}.

Definition publicOrganizationInvite (i : OrganizationInviteRecord) : OrganizationInviteView := {|
  iv_id := inv_id i; iv_organizationId := inv_organizationId i; iv_email := inv_email i; iv_role := inv_role i;
  iv_tokenVersion := inv_tokenVersion i; iv_invitedByUserId := inv_invitedByUserId i; iv_expiresAt := inv_expiresAt i;
  iv_acceptedAt := inv_acceptedAt i; iv_revokedAt := inv_revokedAt i; iv_createdAt := inv_createdAt i
|}.

Definition parseInviteRole (value : jsval) : result OrganizationMembershipRole :=
  match parseOrganizationMembershipRoleForMutation value with
  | Ok role => Ok role
  | Throw _ => Throw (OrganizationInviteError "organization_invite_input_invalid" 400)
  end.

(** What [OrganizationInviteDelivery] is handed; the text is not modelled. *)
Record InviteMessage := { im_from : string; im_to : string; im_acceptanceUrl : string }.

Section invites.
Context (hashOrganizationInviteToken : string -> string).
Context (parse_url : string -> option Url).

Definition invite_url_invalid : jserror := OrganizationInviteError "organization_invite_url_invalid" 400.

Definition organizationInviteAcceptanceUrl (token : string) (env : jsval) : result string :=
  let configured := field "RAIBITSERVER_APP_URL" env in
  _ ← throw_if (in_production env && negb (truthy configured)) invite_url_invalid;
  match parse_url (js_String (js_nullish configured (JStr "http://localhost:3000"))) with
  | None => Throw invite_url_invalid
  | Some base =>
      let local := bool_decide (url_hostname base ∈ ["localhost"; "127.0.0.1"; "::1"]) in
      let localDevelopmentUrl := negb (in_production env) && bool_decide (url_protocol base = "http:") && local in
      _ ← throw_if ((negb (bool_decide (url_protocol base = "https:")) && negb localDevelopmentUrl)
                    || negb (str_empty (url_username base)) || negb (str_empty (url_password base))
                    || negb (str_empty (url_search base)) || negb (str_empty (url_hash base))) invite_url_invalid;
      Ok (url_protocol base +:+ "//" +:+ url_host base +:+ "/organization-invites/accept?token=" +:+ token)
  end.

Definition buildOrganizationInviteMessage (email acceptanceUrl : string) (env : jsval) : result InviteMessage :=
  from ← emailVerificationSenderFromEnv env;
  Ok {| im_from := from; im_to := email; im_acceptanceUrl := acceptanceUrl |}.

(** The [try] block: everything that may fail after the invite was stored. *)
Definition invite_delivery (deliver : InviteMessage -> result unit) (token email : string) (env : jsval) : result unit :=
  acceptanceUrl ← organizationInviteAcceptanceUrl token env;
  message ← buildOrganizationInviteMessage email acceptanceUrl env;
  deliver message.

(** [token] and [id] are the random values drawn by the request; [later] is the
    time of a failed delivery. *)
Definition issueOrganizationInvite (organizationId : string) (email role : jsval) (actorUserId : string) (env : jsval)
    (deliver : InviteMessage -> result unit) (token id : string) (now later : Z)
    : M AccountStore OrganizationInviteView :=
  role ← lift (parseInviteRole role);
  email ← lift (match as_string email with
                | Some e => normalizeEmail (JStr e)
                | None => Throw (OrganizationInviteError "organization_invite_input_invalid" 400)
                end);
  invite ← replaceMemoryOrganizationInvite {|
    roi_id := id; roi_organizationId := organizationId; roi_email := email; roi_role := role;
    roi_tokenHash := hashOrganizationInviteToken token; roi_invitedByUserId := actorUserId;
    roi_expiresAt := (now + ORGANIZATION_INVITE_TTL_MS)%Z; roi_createdAt := now |} now;
  match invite_delivery deliver token email env with
  | Ok _ => mret (publicOrganizationInvite invite)
  | Throw error =>
      _ ← revokeMemoryOrganizationInviteAfterDeliveryFailure (inv_id invite) later later;
      raise (if bool_decide (err_class error = "OrganizationInviteError") then error
             else OrganizationInviteError "organization_invite_delivery_failed" 502)
  end.

Definition invite_invalid : jserror := OrganizationInviteError "organization_invite_invalid" 403.

Definition acceptOrganizationInvite (token : jsval) (userId : string) (now : Z)
    : M AccountStore OrganizationInviteAcceptance :=
  match as_string token with
  | Some t =>
      if class_pattern is_base64url 43 43 t then
        accepted ← acceptMemoryOrganizationInvite (hashOrganizationInviteToken t) userId now;
        match accepted with Some a => mret a | None => raise invite_invalid end
      else raise invite_invalid
  | None => raise invite_invalid
  end.

Definition listOrganizationInvites (organizationId actorUserId : string) : M AccountStore (list OrganizationInviteView) :=
  rows ← listMemoryOrganizationInvites organizationId actorUserId;
  mret (publicOrganizationInvite <$> rows).

(** ** Outcome of a request *)

Lemma replace_invite_Ok i now s inv s' :
  replaceMemoryOrganizationInvite i now s = (Ok inv, s') ->
  requireInviter s (roi_organizationId i) (roi_invitedByUserId i) (Some (roi_role i)) = Ok tt
  /\ inv_id inv = roi_id i /\ inv_organizationId inv = roi_organizationId i /\ inv_email inv = roi_email i
  /\ inv_role inv = roi_role i /\ inv_tokenHash inv = roi_tokenHash i /\ inv_expiresAt inv = roi_expiresAt i
  /\ invite_pending inv
  /\ organizationInvites s'
     = (revoke_pending (roi_organizationId i) (roi_email i) (roi_createdAt i) <$> organizationInvites s) ++ [inv]
  /\ members s' = members s /\ users s' = users s.
Proof.
  unfold replaceMemoryOrganizationInvite. step_once. step_once; [|done].
  rewrite run_modify, run_audit. intros [= <- <-]. cbn. destruct a. split_and!; try done.
Qed.

Lemma list_find_app_fresh {A} (P : A -> Prop) `{forall x, Decision (P x)} l x :
  Forall (fun y => ~ P y) l -> P x -> list_find P (l ++ [x]) = Some (length l, x).
Proof.
  intros Hl Hx. rewrite list_find_app_r by (by apply list_find_None). cbn. rewrite decide_True by done.
  cbn. by rewrite ?Nat.add_0_r.
Qed.

(** A request for an invite either is refused with nothing stored, or ends
    with the invite delivered and stored as the one pending invite of that
    address, valid for seven days and made by someone entitled to grant the
    role, or fails in delivery, and then the stored invite is already revoked:
    no undelivered token is ever good. *)
Theorem invite_delivered_or_revoked organizationId email role actorUserId env deliver token id now later s :
  Forall (fun i => inv_id i <> id) (organizationInvites s) ->
  let '(result, s') := issueOrganizationInvite organizationId email role actorUserId env deliver token id now later s in
  match result with
  | Ok view =>
      exists inv, view = publicOrganizationInvite inv
        /\ inv ∈ organizationInvites s' /\ invite_pending inv /\ inv_organizationId inv = organizationId
        /\ inv_expiresAt inv = (now + ORGANIZATION_INVITE_TTL_MS)%Z
        /\ inv_tokenHash inv = hashOrganizationInviteToken token
        /\ parseOrganizationMembershipRoleForMutation role = Ok (inv_role inv)
        /\ requireInviter s organizationId actorUserId (Some (inv_role inv)) = Ok tt
        /\ invite_delivery deliver token (inv_email inv) env = Ok tt
  | Throw _ =>
      s' = s \/ (forall i, i ∈ organizationInvites s' -> inv_id i = id -> spent i)
  end.
Proof.
  intros Hfresh. destruct (issueOrganizationInvite _ _ _ _ _ _ _ _ _ _ s) as [result s'] eqn:H. revert H.
  unfold issueOrganizationInvite. rewrite run_lift.
  destruct (parseInviteRole role) as [r|] eqn:Hrole; [|by intros [= <- <-]; left].
  rewrite run_lift. destruct (match as_string email with Some _ => _ | None => _ end) as [em|];
    [|by intros [= <- <-]; left].
  unfold mbind at 1, M_bind at 1.
  destruct (replaceMemoryOrganizationInvite _ now s) as [[inv|e] s1] eqn:Hrep.
  2: { intros [= <- <-]. left. revert Hrep. unfold replaceMemoryOrganizationInvite. step_once. step_once; [|by intros [= _ <-]].
       by rewrite run_modify, run_audit. }
  apply replace_invite_Ok in Hrep as (Hreq & Hid & Horg & Hemail & Hrl & Hhash & Hexp & Hpend & Hinv & _).
  cbn in Hreq, Hid, Horg, Hemail, Hrl, Hhash, Hexp, Hinv.
  destruct (invite_delivery deliver token em env) as [[]|error] eqn:Hdel.
  - intros [= <- <-]. exists inv. split_and!; try done.
    + rewrite Hinv. apply elem_of_app. right. by apply list_elem_of_singleton.
    + rewrite Hrl. unfold parseInviteRole in Hrole. destruct (parseOrganizationMembershipRoleForMutation role); congruence.
    + by rewrite Hrl.
    + by rewrite Hemail.
  - assert (Hmap : Forall (fun i => ~ (inv_id i = inv_id inv /\ invite_pending i))
                     (revoke_pending organizationId em now <$> organizationInvites s)).
    { apply Forall_fmap. eapply Forall_impl; [exact Hfresh|]. cbn. intros i Hi [Heq _]. rewrite Hid in Heq.
      unfold revoke_pending in Heq. case_decide; done. }
    unfold revokeMemoryOrganizationInviteAfterDeliveryFailure. unfold mbind at 1, M_bind at 1. rewrite run_get, Hinv.
    rewrite list_find_app_fresh by (done || by split). rewrite run_modify. cbn [audit modify].
    intros [= <- <-]. right. cbn. rewrite Hinv, insert_app_r_alt, Nat.sub_diag by lia. cbn [insert list_insert].
    intros i [Hi|Hi%list_elem_of_singleton]%elem_of_app Heq; [|subst i; by intros [_ ?]].
    apply list_elem_of_fmap in Hi as (i0 & -> & Hi0). rewrite Forall_forall in Hfresh.
    unfold revoke_pending in Heq. case_decide; by destruct (Hfresh i0 Hi0).
Qed.
End invites.

(** The club's owner invites an address, and the mail bounces. *)
Definition clear_hash (token : string) : string := token.
Definition app_url (_ : string) : option Url := Some (Build_Url "https:" "app.club.kr" "" "" "" "" "app.club.kr").
Definition club_env : jsval :=
  JObj [("NODE_ENV", JStr "production"); ("RAIBITSERVER_APP_URL", JStr "https://app.club.kr"); ("RAIBITSERVER_EMAIL_DOMAIN", JStr "club.kr")].
Definition bounce (_ : InviteMessage) : result unit := Throw (plain_error "550" 502).

Lemma invite_delivered_or_revoked_witness :
  let '(result, s') := issueOrganizationInvite clear_hash app_url "org-club" (JStr "eun@club.kr") (JStr "viewer") "usr-an"
                         club_env bounce "tok" "inv-2" 500 600 club in
  match result with
  | Ok view =>
      exists inv, view = publicOrganizationInvite inv
        /\ inv ∈ organizationInvites s' /\ invite_pending inv /\ inv_organizationId inv = "org-club"
        /\ inv_expiresAt inv = (500 + ORGANIZATION_INVITE_TTL_MS)%Z
        /\ inv_tokenHash inv = clear_hash "tok"
        /\ parseOrganizationMembershipRoleForMutation (JStr "viewer") = Ok (inv_role inv)
        /\ requireInviter club "org-club" "usr-an" (Some (inv_role inv)) = Ok tt
        /\ invite_delivery app_url bounce "tok" (inv_email inv) club_env = Ok tt
  | Throw _ => s' = club \/ (forall i, i ∈ organizationInvites s' -> inv_id i = "inv-2" -> spent i)
  end.
Proof.
  apply (invite_delivered_or_revoked clear_hash app_url "org-club" (JStr "eun@club.kr") (JStr "viewer") "usr-an" club_env
           bounce "tok" "inv-2" 500 600 club).
  apply Forall_singleton. discriminate.
Defined.

Example bounced_invite :
  let '(result, s') := issueOrganizationInvite clear_hash app_url "org-club" (JStr "eun@club.kr") (JStr "viewer") "usr-an"
                         club_env bounce "tok" "inv-2" 500 600 club in
  result = Throw (OrganizationInviteError "organization_invite_delivery_failed" 502)
  /\ (inv_revokedAt <$> organizationInvites s') = [None; Some 600%Z].
Proof. vm_compute. done. Qed.
