(* ===== verification/OAuth.v ===== *)
(** * OAuth transactions ([packages/core/src/oauth-transaction.ts])

    The one-time transactions that bind a login's callback to its start:
    state, source, redirect address and PKCE challenge.  SHA-256, HMAC, the
    random identifier and URL parsing are parameters.  Creating and consuming
    only look rows up and replace them, so they are written against the table
    interface of [JsMap]; the cleanup iterates and works on the [Map] itself. *)

From S2P Require Import Prelude JsString JsVal JsMap Sessions EmailVerification.
From stdpp Require Import list.

Inductive OAuthTransactionErrorCode : Type :=
| oauth_transaction_invalid | oauth_transaction_missing | oauth_transaction_exists
| oauth_transaction_expired | oauth_transaction_mismatch | oauth_transaction_replayed.

#[export] Instance oauth_code_eq_dec : EqDecision OAuthTransactionErrorCode.
Proof. solve_decision. Defined.

Definition oauth_code_text (c : OAuthTransactionErrorCode) : string :=
  match c with
  | oauth_transaction_invalid => "oauth_transaction_invalid"
  | oauth_transaction_missing => "oauth_transaction_missing"
  | oauth_transaction_exists => "oauth_transaction_exists"
  | oauth_transaction_expired => "oauth_transaction_expired"
  | oauth_transaction_mismatch => "oauth_transaction_mismatch"
  | oauth_transaction_replayed => "oauth_transaction_replayed"
  end.

Definition OAuthTransactionError (c : OAuthTransactionErrorCode) : jserror :=
  JsError "OAuthTransactionError" (oauth_code_text c)
    (Some (if bool_decide (c = oauth_transaction_replayed) || bool_decide (c = oauth_transaction_exists) then 409 else 400)%Z).

Record OAuthTransactionRecord := mkOAuth {
  oa_id : string;
  oa_stateHash : string;
  oa_sourceHash : string;
  oa_codeChallenge : string;
  oa_redirectUri : string;
  oa_createdAt : Z;
  oa_expiresAt : Z;
  oa_consumedAt : option Z;
  oa_failureCode : option string;
  oa_failedAt : option Z
}.

#[export] Instance OAuth_rebuild : Rebuild OAuthTransactionRecord := fun r =>
  mkOAuth (oa_id r) (oa_stateHash r) (oa_sourceHash r) (oa_codeChallenge r) (oa_redirectUri r) (oa_createdAt r)
    (oa_expiresAt r) (oa_consumedAt r) (oa_failureCode r) (oa_failedAt r).

Record OAuthBindingInput := {
  ob_state : string; ob_source : string; ob_sourceSecret : string; ob_redirectUri : string; ob_now : Z
}.

Record OAuthBinding := { b_stateHash : string; b_sourceHash : string; b_redirectUri : string; b_now : Z }.
Record OAuthConsumeBinding := { cb_binding : OAuthBinding; cb_codeChallenge : string }.

Definition invalid_transaction : jserror := OAuthTransactionError oauth_transaction_invalid.

(** [timestamp] *)
Definition oauth_timestamp (value : Z) : result Z :=
  _ ← throw_if (negb (safe_integer value) || (value <? 0)%Z || (8640000000000000 - 600000 <? value)%Z) invalid_transaction;
  Ok value.

Definition is_verifier_char (c : ascii) : bool := is_alnum c || bool_decide (c ∈ ["."; "_"; "~"; "-"]%char).

(** The six bits a base64url character stands for. *)
Definition sextet (c : ascii) : N :=
  (if is_upper c then code c - 65
   else if is_lower c then code c - 71
   else if is_digit c then code c + 4
   else if is_hyphen c then 62 else 63)%N.

(** 43 characters carry 258 bits, two more than 32 bytes: decoding and encoding
    again gives the text back exactly when these two bits are zero. *)
Definition canonical_base64url43 (s : string) : bool :=
  match last (chars s) with Some c => (sextet c mod 4 =? 0)%N | None => false end.

Section oauth.
Context (sha256_hex sha256_base64url : string -> string) (hmac_hex : string -> string -> string).
Context (parse_url : string -> option Url).

Definition loopback_redirect (u : Url) : bool :=
  bool_decide (url_protocol u = "http:") && bool_decide (url_hostname u ∈ ["localhost"; "127.0.0.1"; "[::1]"]).

Definition binding (input : OAuthBindingInput) : result OAuthBinding :=
  _ ← throw_if (negb (class_pattern is_base64url 32 128 (ob_state input))
                || (str_length (ob_source input) <? 1)%Z || (512 <? str_length (ob_source input))%Z
                || (str_length (ob_sourceSecret input) <? 32)%Z || (512 <? str_length (ob_sourceSecret input))%Z
                || (2048 <? str_length (ob_redirectUri input))%Z) invalid_transaction;
  match parse_url (ob_redirectUri input) with
  | None => Throw invalid_transaction
  | Some redirect =>
      _ ← throw_if ((negb (bool_decide (url_protocol redirect = "https:")) && negb (loopback_redirect redirect))
                    || negb (str_empty (url_username redirect)) || negb (str_empty (url_password redirect))
                    || negb (str_empty (url_hash redirect)) || negb (str_empty (url_search redirect))) invalid_transaction;
      now ← oauth_timestamp (ob_now input);
      Ok {| b_stateHash := sha256_hex (ob_state input);
            b_sourceHash := hmac_hex (ob_sourceSecret input) ("oauth-source" +:+ String (chr 0) (ob_source input));
            b_redirectUri := ob_redirectUri input; b_now := now |}
  end.

(** [ttlMs] has its default 600 000 applied; [id] is the random identifier. *)
Definition newOAuthTransaction (input : OAuthBindingInput) (codeChallenge : string) (ttlMs : Z) (id : string)
    : result OAuthTransactionRecord :=
  parsed ← binding input;
  _ ← throw_if (negb (safe_integer ttlMs) || (ttlMs <? 1)%Z || (600000 <? ttlMs)%Z
                || negb (class_pattern is_base64url 43 43 codeChallenge)
                || negb (canonical_base64url43 codeChallenge)) invalid_transaction;
  Ok {| oa_id := id; oa_stateHash := b_stateHash parsed; oa_sourceHash := b_sourceHash parsed;
        oa_codeChallenge := codeChallenge; oa_redirectUri := b_redirectUri parsed; oa_createdAt := b_now parsed;
        oa_expiresAt := (b_now parsed + ttlMs)%Z; oa_consumedAt := None; oa_failureCode := None; oa_failedAt := None |}.

Definition parseOAuthConsume (input : OAuthBindingInput) (codeVerifier : string) : result OAuthConsumeBinding :=
  parsed ← binding input;
  _ ← throw_if (negb (class_pattern is_verifier_char 43 128 codeVerifier)) invalid_transaction;
  Ok {| cb_binding := parsed; cb_codeChallenge := sha256_base64url codeVerifier |}.

Definition sameDigest (left right : string) : bool := bool_decide (left = right).

Definition oauthConsumeFailure (row : option OAuthTransactionRecord) (input : OAuthConsumeBinding)
    : option OAuthTransactionErrorCode :=
  match row with
  | None => Some oauth_transaction_missing
  | Some r =>
      if bool_decide (oa_consumedAt r <> None) then Some oauth_transaction_replayed
      else if (oa_expiresAt r <=? b_now (cb_binding input))%Z then Some oauth_transaction_expired
      else if (b_now (cb_binding input) <? oa_createdAt r)%Z
              || negb (bool_decide (oa_redirectUri r = b_redirectUri (cb_binding input)))
              || negb (sameDigest (oa_sourceHash r) (b_sourceHash (cb_binding input)))
              || negb (sameDigest (oa_codeChallenge r) (cb_codeChallenge input))
      then Some oauth_transaction_mismatch
      else None
  end.

(** ** Memory operations, over any table *)

Section table.
Context {T : Type} `{TableLaws T OAuthTransactionRecord}.

Definition createMemoryOAuthTransaction (input : OAuthBindingInput) (codeChallenge : string) (ttlMs : Z) (id : string)
    : M T OAuthTransactionRecord :=
  row ← lift (newOAuthTransaction input codeChallenge ttlMs id);
  rows ← get;
  _ ← lift (match t_get (oa_stateHash row) rows with
            | Some _ => Throw (OAuthTransactionError oauth_transaction_exists)
            | None => Ok tt
            end);
  _ ← modify (t_set (oa_stateHash row) row);
  mret row.

Definition consumeMemoryOAuthTransaction (input : OAuthBindingInput) (codeVerifier : string)
    : M T OAuthTransactionRecord :=
  parsed ← lift (parseOAuthConsume input codeVerifier);
  rows ← get;
  let row := t_get (b_stateHash (cb_binding parsed)) rows in
  match oauthConsumeFailure row parsed, row with
  | Some failure, Some r =>
      _ ← (if bool_decide (failure = oauth_transaction_mismatch)
           then modify (t_set (oa_stateHash r) (r <| oa_failureCode := Some (oauth_code_text failure) |>
                                                  <| oa_failedAt := Some (b_now (cb_binding parsed)) |>))
           else mret tt);
      raise (OAuthTransactionError failure)
  | Some failure, None => raise (OAuthTransactionError failure)
  | None, Some r =>
      let consumed := r <| oa_consumedAt := Some (b_now (cb_binding parsed)) |> in
      _ ← modify (t_set (oa_stateHash r) consumed);
      mret consumed
  | None, None => raise (OAuthTransactionError oauth_transaction_missing)
  end.

(** Rows are stored under their state hash. *)
Definition oauth_keyed (rows : T) : Prop := forall k r, t_get k rows = Some r -> oa_stateHash r = k.

Lemma binding_stateHash input b : binding input = Ok b -> b_stateHash b = sha256_hex (ob_state input).
Proof.
  unfold binding. intros (u & _ & Hb)%bind_Ok. destruct (parse_url _); [|done].
  apply bind_Ok in Hb as (u2 & _ & Hb). apply bind_Ok in Hb as (n & _ & [= <-]). done.
Qed.

Lemma consume_Ok input verifier rows r rows' :
  consumeMemoryOAuthTransaction input verifier rows = (Ok r, rows') ->
  exists parsed row, parseOAuthConsume input verifier = Ok parsed
    /\ t_get (b_stateHash (cb_binding parsed)) rows = Some row
    /\ oauthConsumeFailure (Some row) parsed = None
    /\ r = row <| oa_consumedAt := Some (b_now (cb_binding parsed)) |>
    /\ rows' = t_set (oa_stateHash row) r rows.
Proof.
  unfold consumeMemoryOAuthTransaction. rewrite run_lift.
  destruct (parseOAuthConsume input verifier) as [parsed|] eqn:Hp; [|done]. rewrite run_get. cbn zeta.
  destruct (t_get _ rows) as [row|] eqn:Hrow; [|done].
  destruct (oauthConsumeFailure (Some row) parsed) as [f|] eqn:Hf.
  - destruct (bool_decide (f = oauth_transaction_mismatch)); done.
  - rewrite run_modify. intros [= <- <-]. by exists parsed, row.
Qed.

(** A callback is accepted only when a transaction was started with the
    same state, from the same source and for the same redirect address, at most
    its lifetime ago, the verifier hashes to the challenge of the start, and
    the transaction had not been used; accepting it marks it as used. *)
Theorem oauth_consume_sound input verifier rows r rows' :
  consumeMemoryOAuthTransaction input verifier rows = (Ok r, rows') -> oauth_keyed rows ->
  exists row, t_get (sha256_hex (ob_state input)) rows = Some row
    /\ oa_consumedAt row = None
    /\ (oa_createdAt row <= ob_now input < oa_expiresAt row)%Z
    /\ oa_redirectUri row = ob_redirectUri input
    /\ oa_sourceHash row = hmac_hex (ob_sourceSecret input) ("oauth-source" +:+ String (chr 0) (ob_source input))
    /\ oa_codeChallenge row = sha256_base64url verifier
    /\ t_get (sha256_hex (ob_state input)) rows' = Some (row <| oa_consumedAt := Some (ob_now input) |>).
Proof.
  intros (parsed & row & Hp & Hrow & Hf & -> & ->)%consume_Ok Hk.
  unfold parseOAuthConsume in Hp. apply bind_Ok in Hp as (b & Hb & Hp). apply bind_Ok in Hp as (u & _ & [= <-]).
  unfold oauthConsumeFailure in Hf. cbn [cb_binding cb_codeChallenge] in *. rewrite (binding_stateHash _ _ Hb) in Hrow.
  assert (Hnow : b_now b = ob_now input /\ b_redirectUri b = ob_redirectUri input
                 /\ b_sourceHash b = hmac_hex (ob_sourceSecret input) ("oauth-source" +:+ String (chr 0) (ob_source input))).
  { clear Hf. unfold binding in Hb. apply bind_Ok in Hb as (u1 & _ & Hb). destruct (parse_url _); [|done].
    apply bind_Ok in Hb as (u2 & _ & Hb). apply bind_Ok in Hb as (n & Hn & [= <-]). cbn.
    unfold oauth_timestamp in Hn. apply bind_Ok in Hn as (u3 & _ & [= <-]). done. }
  destruct Hnow as (Hnow & Huri & Hsrc).
  destruct (bool_decide (oa_consumedAt row <> None)) eqn:Hc; [done|].
  destruct (Z.leb_spec (oa_expiresAt row) (b_now b)); [done|].
  destruct (_ || _ || _ || _) eqn:Hg; [done|]. rewrite !orb_false_iff, !negb_false_iff in Hg.
  destruct Hg as (((Hcr & Hr) & Hs) & Hch). apply Z.ltb_ge in Hcr. unfold sameDigest in *.
  apply bool_decide_eq_true in Hr, Hs, Hch. apply bool_decide_eq_false in Hc.
  exists row. split_and!; try congruence; try lia.
  - destruct (oa_consumedAt row); [by destruct Hc|done].
  - rewrite (Hk _ _ Hrow), t_get_set_eq, Hnow. done.
Qed.

(** A transaction that was started is accepted once, within its lifetime,
    for the verifier whose digest was the challenge: the flow is not blocked by
    its own checks. *)
Theorem oauth_round_trip input challenge ttl id rows r0 rows0 verifier later :
  createMemoryOAuthTransaction input challenge ttl id rows = (Ok r0, rows0) ->
  sha256_base64url verifier = challenge -> class_pattern is_verifier_char 43 128 verifier = true ->
  (ob_now input <= later < ob_now input + ttl)%Z -> oauth_timestamp later = Ok later ->
  exists r rows1,
    consumeMemoryOAuthTransaction {| ob_state := ob_state input; ob_source := ob_source input;
      ob_sourceSecret := ob_sourceSecret input; ob_redirectUri := ob_redirectUri input; ob_now := later |} verifier rows0
    = (Ok r, rows1) /\ oa_consumedAt r = Some later /\ oa_id r = id.
Proof.
  unfold createMemoryOAuthTransaction. rewrite run_lift. unfold newOAuthTransaction.
  destruct (binding input) as [b|] eqn:Hb; [|done]. cbn [mbind result_bind].
  destruct (throw_if _ invalid_transaction) as [[]|]; [|done]. cbn [mbind result_bind]. rewrite run_get, run_lift.
  destruct (t_get _ rows); [done|]. rewrite run_modify. intros [= <- <-] Hch Hv Ht Hl. cbn [oa_stateHash].
  unfold binding in Hb. apply bind_Ok in Hb as (u1 & Hg1 & Hb). destruct (parse_url (ob_redirectUri input)) as [url|] eqn:Hurl; [|done].
  apply bind_Ok in Hb as (u2 & Hg2 & Hb). apply bind_Ok in Hb as (n & Hn & [= <-]).
  assert (n = ob_now input) as ->.
  { unfold oauth_timestamp in Hn. apply bind_Ok in Hn as (u3 & _ & [= <-]). done. }
  unfold consumeMemoryOAuthTransaction. rewrite run_lift. unfold parseOAuthConsume, binding.
  cbn [ob_state ob_source ob_sourceSecret ob_redirectUri ob_now]. rewrite Hg1. cbn [mbind result_bind].
  rewrite Hurl, Hg2. cbn [mbind result_bind]. rewrite Hl. cbn [mbind result_bind]. rewrite Hv. cbn [negb throw_if mbind result_bind].
  rewrite run_get. cbn [cb_binding b_stateHash b_now b_redirectUri b_sourceHash cb_codeChallenge].
  rewrite t_get_set_eq. unfold oauthConsumeFailure, sameDigest. cbn.
  destruct (Z.leb_spec (ob_now input + ttl) later); [lia|]. destruct (Z.ltb_spec later (ob_now input)); [lia|].
  rewrite !bool_decide_true by done. cbn. do 2 eexists. split; [reflexivity|]. done.
Qed.

(** ** No replay *)

Inductive oauth_step (rows : T) : T -> Prop :=
| oauth_create input challenge ttl id : oauth_step rows (createMemoryOAuthTransaction input challenge ttl id rows).2
| oauth_consume input verifier : oauth_step rows (consumeMemoryOAuthTransaction input verifier rows).2.

Lemma create_keeps input challenge ttl id rows k r :
  t_get k rows = Some r -> t_get k (createMemoryOAuthTransaction input challenge ttl id rows).2 = Some r.
Proof.
  intros Hk. unfold createMemoryOAuthTransaction. step_once; [|done]. step_once. step_once; [|done].
  rewrite run_modify. cbn. destruct (decide (oa_stateHash a = k)) as [<-|Hne]; [by rewrite Hk in E0|].
  by rewrite t_get_set_ne.
Qed.

Lemma consume_keeps_used input verifier rows k r :
  oauth_keyed rows -> t_get k rows = Some r -> oa_consumedAt r <> None ->
  t_get k (consumeMemoryOAuthTransaction input verifier rows).2 = Some r.
Proof.
  intros Hkey Hk Hused. unfold consumeMemoryOAuthTransaction. step_once; [|done]. rewrite run_get. cbn zeta.
  destruct (t_get (b_stateHash (cb_binding a)) rows) as [row|] eqn:Hrow; [|done].
  destruct (decide (oa_stateHash row = k)) as [Heq|Hne].
  - assert (row = r) as ->.
    { rewrite (Hkey _ _ Hrow) in Heq. congruence. }
    unfold oauthConsumeFailure. rewrite bool_decide_true by done. rewrite bool_decide_false by done. done.
  - destruct (oauthConsumeFailure (Some row) a) as [f|]; [|rewrite run_modify; cbn; by rewrite t_get_set_ne].
    destruct (bool_decide (f = oauth_transaction_mismatch)); [|done]. rewrite run_modify. cbn. by rewrite t_get_set_ne.
Qed.

Lemma oauth_keyed_set rows k r : oauth_keyed rows -> oa_stateHash r = k -> oauth_keyed (t_set k r rows).
Proof.
  intros Hk <- k' x. destruct (decide (oa_stateHash r = k')) as [<-|Hne];
    [rewrite t_get_set_eq; congruence|rewrite t_get_set_ne by done; apply Hk].
Qed.

Lemma oauth_step_keyed rows rows' : oauth_step rows rows' -> oauth_keyed rows -> oauth_keyed rows'.
Proof.
  intros [input ch ttl id|input v] Hk.
  - unfold createMemoryOAuthTransaction. step_once; [|done]. step_once. step_once; [|done]. rewrite run_modify.
    by apply oauth_keyed_set.
  - unfold consumeMemoryOAuthTransaction. step_once; [|done]. rewrite run_get. cbn zeta.
    destruct (t_get _ rows) as [row|] eqn:Hrow; [|done].
    destruct (oauthConsumeFailure (Some row) a) as [f|].
    + destruct (bool_decide (f = oauth_transaction_mismatch)); [|done]. rewrite run_modify. by apply oauth_keyed_set.
    + rewrite run_modify. by apply oauth_keyed_set.
Qed.

(** C10. A callback that was accepted once is never accepted again: whatever is
    started or consumed afterwards, presenting its state again, with any
    verifier, source and time, fails, and a well-formed replay fails as a
    replay with the table unchanged. *)
Theorem oauth_no_replay input verifier rows r rows1 rows2 :
  oauth_keyed rows -> consumeMemoryOAuthTransaction input verifier rows = (Ok r, rows1) -> rtc oauth_step rows1 rows2 ->
  forall input2 verifier2, ob_state input2 = ob_state input ->
    match parseOAuthConsume input2 verifier2 with
    | Ok _ => consumeMemoryOAuthTransaction input2 verifier2 rows2
              = (Throw (OAuthTransactionError oauth_transaction_replayed), rows2)
    | Throw e => consumeMemoryOAuthTransaction input2 verifier2 rows2 = (Throw e, rows2)
    end.
Proof.
  intros Hkey Hc Hrtc input2 verifier2 Hstate.
  assert (Hkey1 : oauth_keyed rows1).
  { eapply oauth_step_keyed; [|exact Hkey]. pose proof (oauth_consume rows input verifier) as Hs. by rewrite Hc in Hs. }
  apply consume_Ok in Hc as (parsed & row & Hp & Hrow & _ & Hr & Hrows1).
  assert (Hhash : b_stateHash (cb_binding parsed) = sha256_hex (ob_state input)).
  { unfold parseOAuthConsume in Hp. apply bind_Ok in Hp as (b & Hb & Hp). apply bind_Ok in Hp as (u & _ & [= <-]).
    by apply binding_stateHash. }
  assert (H2 : exists r2, t_get (sha256_hex (ob_state input)) rows2 = Some r2 /\ oa_consumedAt r2 <> None).
  { assert (H1 : exists r2, t_get (sha256_hex (ob_state input)) rows1 = Some r2 /\ oa_consumedAt r2 <> None).
    { exists r. rewrite <- Hhash, <- (Hkey _ _ Hrow), Hrows1, t_get_set_eq. split; [done|]. by rewrite Hr. }
    clear -H0 Hrtc H1 Hkey1. induction Hrtc as [|a b c Hst _ IH]; [done|]. apply IH.
    - by eapply oauth_step_keyed.
    - destruct H1 as (r2 & Hg & Hu). exists r2. split; [|done].
      destruct Hst; [by apply create_keeps|by apply consume_keeps_used]. }
  destruct H2 as (r2 & Hg & Hu). unfold consumeMemoryOAuthTransaction. rewrite run_lift.
  destruct (parseOAuthConsume input2 verifier2) as [p2|e] eqn:Hp2; [|done].
  unfold parseOAuthConsume in Hp2. apply bind_Ok in Hp2 as (b & Hb & Hp2). apply bind_Ok in Hp2 as (u & _ & [= <-]).
  rewrite run_get. cbn [cb_binding]. rewrite (binding_stateHash _ _ Hb), Hstate, Hg.
  unfold oauthConsumeFailure. rewrite bool_decide_true by done. by rewrite bool_decide_false.
Qed.
End table.
End oauth.

(** ** Cleanup *)

(** [limit] has its default 256 applied. *)
Definition parseOAuthCleanup (now limit : Z) : result (Z * Z) :=
  _ ← throw_if (negb (safe_integer limit) || (limit <? 1)%Z || (256 <? limit)%Z) invalid_transaction;
  now ← oauth_timestamp now;
  Ok (now, limit).

Section cleanup.
(** [a.id.localeCompare(b.id) <= 0] *)
Context (locale_le : string -> string -> bool).

Definition older (a b : OAuthTransactionRecord) : bool :=
  if (oa_expiresAt a =? oa_expiresAt b)%Z then locale_le (oa_id a) (oa_id b) else (oa_expiresAt a <? oa_expiresAt b)%Z.

Definition expired_rows (now limit : Z) (rows : list (string * OAuthTransactionRecord)) : list OAuthTransactionRecord :=
  take (Z.to_nat limit) (js_sort older (filter (fun r => (oa_expiresAt r <= now)%Z) (map_values rows))).

Definition deleteMemoryOAuthTransactions (now limit : Z) : M (list (string * OAuthTransactionRecord)) Z :=
  parsed ← lift (parseOAuthCleanup now limit);
  rows ← get;
  let expired := expired_rows parsed.1 parsed.2 rows in
  _ ← modify (fun rows => foldl (fun m r => map_delete (oa_stateHash r) m) rows expired);
  mret (Z.of_nat (length expired)).

Lemma map_delete_all (l : list OAuthTransactionRecord) : forall (rows : list (string * OAuthTransactionRecord)) k,
  map_get k (foldl (fun m r => map_delete (oa_stateHash r) m) rows l)
  = if decide (k ∈ oa_stateHash <$> l) then None else map_get k rows.
Proof.
  induction l as [|r l IH]; intros rows k; [done|]. cbn [foldl fmap list_fmap]. rewrite IH.
  destruct (decide (k ∈ oa_stateHash <$> l)) as [Hin|Hout]; [by rewrite decide_True by (by right)|].
  destruct (decide (k = oa_stateHash r)) as [->|Hne].
  - rewrite decide_True by (by left). apply map_get_delete_eq.
  - rewrite decide_False by (rewrite not_elem_of_cons; tauto). by apply map_get_delete_ne.
Qed.

(** Cleanup removes expired transactions only, keeps every other one, and
    removes as many as there are up to the limit. *)
Theorem oauth_cleanup_exact now limit rows n rows' :
  deleteMemoryOAuthTransactions now limit rows = (Ok n, rows') -> map_wf rows ->
  (forall k r, map_get k rows = Some r -> oa_stateHash r = k) ->
  n = Z.min limit (Z.of_nat (length (filter (fun r => (oa_expiresAt r <= now)%Z) (map_values rows))))
  /\ forall k r, map_get k rows = Some r ->
       ((now < oa_expiresAt r)%Z -> map_get k rows' = Some r)
       /\ (map_get k rows' = None \/ map_get k rows' = Some r).
Proof.
  unfold deleteMemoryOAuthTransactions. rewrite run_lift.
  destruct (parseOAuthCleanup now limit) as [p|] eqn:Hp; [|done]. unfold parseOAuthCleanup, oauth_timestamp in Hp.
  apply bind_Ok in Hp as (u & Hg & Hp). apply bind_Ok in Hp as (n0 & Hn & [= <-]).
  apply bind_Ok in Hn as (u2 & _ & [= <-]). apply throw_if_Ok in Hg. rewrite !orb_false_iff in Hg.
  destruct Hg as [[_ Hl1%Z.ltb_ge] _]. rewrite run_get, run_modify. cbn [fst snd].
  intros [= <- <-] Hwf Hkey. split.
  - unfold expired_rows. rewrite length_take, js_sort_perm. lia.
  - intros k r Hk. rewrite map_delete_all. split; [|case_decide; tauto].
    intros Hlive. rewrite decide_False; [done|]. intros (x & -> & Hx)%list_elem_of_fmap.
    assert (Hx' : x ∈ filter (fun r => (oa_expiresAt r <= now)%Z) (map_values rows)).
    { rewrite <- (js_sort_perm older). apply list_elem_of_lookup in Hx as (j & Hj). apply lookup_take_Some in Hj as [Hj _]. by eapply list_elem_of_lookup_2. }
    apply list_elem_of_filter in Hx' as [Hexp Hin]. apply list_elem_of_fmap in Hin as ([k' x'] & -> & Hin).
    cbn in *. apply (map_get_elem _ _ _ Hwf) in Hin as Hg. rewrite (Hkey _ _ Hg), Hg in Hk. injection Hk as ->. lia.
Qed.
End cleanup.

(** ** A login, for running the transactions *)

Definition echo (s : string) : string := s.
Definition echo2 (_ s : string) : string := s.
Definition console_url (_ : string) : option Url := Some (Build_Url "https:" "console.club.kr" "" "" "" "" "console.club.kr").

Definition login (now : Z) : OAuthBindingInput := {|
  ob_state := "0123456789abcdef0123456789abcdef"; ob_source := "203.0.113.7";
  ob_sourceSecret := "secret-secret-secret-secret-secret"; ob_redirectUri := "https://console.club.kr/cb"; ob_now := now |}.
Definition verifier43 : string := "AAAAAAAAAAAAAAAAAAAAAAAAAAAAAAAAAAAAAAAAAAA".

Definition login_row : OAuthTransactionRecord :=
  mkOAuth "id-1" "0123456789abcdef0123456789abcdef" ("oauth-source" +:+ String (chr 0) "203.0.113.7") verifier43
    "https://console.club.kr/cb" 1000 601000 None None None.
Definition login_rows : list (string * OAuthTransactionRecord) := [("0123456789abcdef0123456789abcdef", login_row)].
Definition login_used : OAuthTransactionRecord := login_row <| oa_consumedAt := Some 2000%Z |>.
Definition used_rows : list (string * OAuthTransactionRecord) := [("0123456789abcdef0123456789abcdef", login_used)].

Lemma login_rows_keyed : oauth_keyed login_rows.
Proof. intros k r. cbn. case_decide; [intros [= <-]; by subst|done]. Qed.

Lemma oauth_consume_sound_witness :
  exists row, t_get "0123456789abcdef0123456789abcdef" login_rows = Some row
    /\ oa_consumedAt row = None /\ (oa_createdAt row <= 2000 < oa_expiresAt row)%Z
    /\ oa_redirectUri row = "https://console.club.kr/cb"
    /\ oa_sourceHash row = "oauth-source" +:+ String (chr 0) "203.0.113.7"
    /\ oa_codeChallenge row = verifier43
    /\ t_get "0123456789abcdef0123456789abcdef" used_rows = Some (row <| oa_consumedAt := Some 2000%Z |>).
Proof.
  apply (oauth_consume_sound echo echo echo2 console_url (login 2000) verifier43 login_rows
           login_used used_rows); [vm_compute; reflexivity|apply login_rows_keyed].
Defined.

Lemma oauth_round_trip_witness :
  exists r rows1, consumeMemoryOAuthTransaction echo echo echo2 console_url (login 2000) verifier43 login_rows = (Ok r, rows1)
    /\ oa_consumedAt r = Some 2000%Z /\ oa_id r = "id-1".
Proof.
  apply (oauth_round_trip echo echo echo2 console_url (login 1000) verifier43 600000 "id-1" [] login_row login_rows verifier43 2000);
    try (vm_compute; reflexivity). vm_compute. split; congruence.
Defined.

Lemma oauth_no_replay_witness :
  consumeMemoryOAuthTransaction echo echo echo2 console_url (login 3000) verifier43 used_rows
  = (Throw (OAuthTransactionError oauth_transaction_replayed), used_rows).
Proof.
  apply (oauth_no_replay echo echo echo2 console_url (login 2000) verifier43 login_rows login_used
           used_rows used_rows login_rows_keyed ltac:(vm_compute; reflexivity) ltac:(apply rtc_refl) (login 3000) verifier43
           ltac:(reflexivity)).
Defined.

Lemma oauth_cleanup_exact_witness :
  1%Z = Z.min 10 (Z.of_nat (length (filter (fun r => (oa_expiresAt r <= 700000)%Z) (map_values login_rows))))
  /\ forall k r, map_get k login_rows = Some r ->
       ((700000 < oa_expiresAt r)%Z -> map_get k ([] : list (string * OAuthTransactionRecord)) = Some r)
       /\ (map_get k ([] : list (string * OAuthTransactionRecord)) = None \/ map_get k ([] : list (string * OAuthTransactionRecord)) = Some r).
Proof.
  apply (oauth_cleanup_exact (fun _ _ => true) 700000 10 login_rows 1 []);
    [vm_compute; reflexivity|apply NoDup_singleton|apply login_rows_keyed].
Defined.
