(* ===== verification/RateLimit.v ===== *)
(** * Rate limits of the authentication endpoints
    ([packages/core/src/store.ts], [security.ts])

    Fixed-window counters per key, kept in a [Map] and pruned as they expire,
    and the limits a request has to pass: per source and action, per source,
    globally, and per address.  The keyed digest is a parameter. *)

From S2P Require Import Prelude JsString JsVal JsMap Identity EmailCodes.
From Stdlib Require QArith.Qround.
From stdpp Require Import list.

Record RateRow := mkRate { rl_key : string; rl_count : Z; rl_windowStartedAt : Z; rl_expiresAt : Z }.

#[export] Instance RateRow_rebuild : Rebuild RateRow := fun r =>
  mkRate (rl_key r) (rl_count r) (rl_windowStartedAt r) (rl_expiresAt r).

Notation limits := (list (string * RateRow)) (only parsing).

Record RateResult := { rr_allowed : bool; rr_count : Z; rr_remaining : Z; rr_resetAt : Z }.

(** Drop expired rows in iteration order, at most [budget] of them. *)
Fixpoint prune_limits (budget : nat) (now : Z) (rows : limits) : limits :=
  match rows with
  | [] => []
  | (k, row) :: rows' =>
      match budget with
      | O => (k, row) :: rows'
      | S n => if (now <? rl_expiresAt row)%Z then (k, row) :: prune_limits budget now rows'
               else prune_limits n now rows'
      end
  end.

Definition consumeAuthRateLimit (key : string) (limit windowMs now : Z) : M limits RateResult :=
  let normalizedKey := str_or key "global" in
  _ ← modify (prune_limits AUTH_RETENTION_PRUNE_BATCH_SIZE now);
  rows ← get;
  let current := map_get normalizedKey rows in
  let live := match current with Some c => if (rl_expiresAt c <=? now)%Z then None else Some c | None => None end in
  let allowed := match live with None => true | Some c => (rl_count c <? limit)%Z end in
  let row := match live with
             | None => mkRate normalizedKey 1 now (now + windowMs)
             | Some c => if allowed then c <| rl_count := (rl_count c + 1)%Z |> else c
             end in
  _ ← modify (map_set normalizedKey row);
  mret {| rr_allowed := allowed; rr_count := rl_count row; rr_remaining := Z.max 0 (limit - rl_count row);
          rr_resetAt := rl_expiresAt row |}.

Definition peekAuthRateLimit (key : string) (limit now : Z) (rows : limits) : RateResult :=
  match map_get (str_or key "global") rows with
  | Some row =>
      if (rl_expiresAt row <=? now)%Z
      then {| rr_allowed := true; rr_count := 0; rr_remaining := limit; rr_resetAt := now |}
      else {| rr_allowed := (rl_count row <? limit)%Z; rr_count := rl_count row;
              rr_remaining := Z.max 0 (limit - rl_count row); rr_resetAt := rl_expiresAt row |}
  | None => {| rr_allowed := true; rr_count := 0; rr_remaining := limit; rr_resetAt := now |}
  end.

Definition resetAuthRateLimit (key : string) : M limits bool :=
  _ ← modify (map_delete (str_or key "global"));
  mret true.

(** ** The process-local limiter of [security.ts] *)

Record WindowEntry := { we_count : Z; we_resetAt : Z }.

(** [check] of [createFixedWindowRateLimiter({ limit, windowMs })] *)
Definition fixed_window_check (limit windowMs : Z) (key : string) (now : Z) : M (list (string * WindowEntry)) RateResult :=
  let normalized := str_or key "global" in
  entries ← get;
  match map_get normalized entries with
  | Some current =>
      if (we_resetAt current <=? now)%Z then
        _ ← modify (map_set normalized {| we_count := 1; we_resetAt := now + windowMs |});
        mret {| rr_allowed := true; rr_count := 1; rr_remaining := Z.max 0 (limit - 1); rr_resetAt := now + windowMs |}
      else
        let count := (we_count current + 1)%Z in
        _ ← modify (map_set normalized {| we_count := count; we_resetAt := we_resetAt current |});
        mret {| rr_allowed := (count <=? limit)%Z; rr_count := count; rr_remaining := Z.max 0 (limit - count);
                rr_resetAt := we_resetAt current |}
  | None =>
      _ ← modify (map_set normalized {| we_count := 1; we_resetAt := now + windowMs |});
      mret {| rr_allowed := true; rr_count := 1; rr_remaining := Z.max 0 (limit - 1); rr_resetAt := now + windowMs |}
  end.

Definition rate_limit_exceeded : jserror := JsError "Error" "rate_limit_exceeded" (Some 429%Z).

Definition assertRateLimit (limit windowMs : Z) (key : string) (now : Z) : M (list (string * WindowEntry)) RateResult :=
  result ← fixed_window_check limit windowMs key now;
  _ ← lift (throw_if (negb (rr_allowed result)) rate_limit_exceeded);
  mret result.

(** ** The limits of a request *)

Definition boundedPositiveInteger (value : jsval) (fallback minimum maximum : Z) : Z :=
  match to_number value with
  | NNaN | NInf _ => fallback
  | NInt z => Z.max minimum (Z.min maximum z)
  | NFrac _ q => Z.max minimum (Z.min maximum (Qround.Qfloor q))
  end.

Inductive Phase : Type := PhaseAll | PhaseRequest | PhaseEmail.

#[export] Instance Phase_eq_dec : EqDecision Phase.
Proof. solve_decision. Defined.

Record Dimension := { dim_key : string; dim_limit : Z; dim_windowMs : Z }.

(** [.replace(/[^a-z0-9-]/g, '-')] *)
Definition action_slug (action : string) : string :=
  str_or (unchars ((fun c => if is_lower_alnum c || is_hyphen c then c else "-"%char) <$> chars (toLowerCase (trim action)))) "auth".

Section abuse.
(** The keyed digest of [authRateLimitKey]: the secret (empty when none is
    configured, then an unkeyed digest) and the material. *)
Context (digest : string -> string -> string).

Definition authRateLimitKey (dimension value : string) (env : jsval) : string :=
  let material := dimension +:+ String (chr 0) value in
  let secret := string_or_empty (js_or (field "RAIBITSERVER_AUTH_RATE_LIMIT_KEY_SECRET" env)
                                       (field "RAIBITSERVER_AUTH_JWT_SECRET" env)) in
  "auth:" +:+ match split_on ":"%char dimension with d :: _ => d | [] => "" end +:+ ":" +:+ digest secret material.

Definition window_of (env : jsval) : Z := boundedPositiveInteger (field "RAIBITSERVER_AUTH_RATE_WINDOW_MS" env) 60000 1000 (60 * 60000).

Definition global_dimension (env : jsval) : Dimension := {|
  dim_key := authRateLimitKey "global" "all" env;
  dim_limit := boundedPositiveInteger (field "RAIBITSERVER_AUTH_GLOBAL_RATE_LIMIT" env) 5000 1 50000;
  dim_windowMs := window_of env
|}.

Definition abuse_dimensions (action email source : string) (phase : Phase) (env : jsval) : list Dimension :=
  let windowMs := window_of env in
  (if bool_decide (phase = PhaseEmail) then [] else
     [{| dim_key := authRateLimitKey ("source:" +:+ action) source env;
         dim_limit := boundedPositiveInteger (field "RAIBITSERVER_AUTH_SOURCE_RATE_LIMIT" env) 30 1 100000;
         dim_windowMs := windowMs |};
      {| dim_key := authRateLimitKey "flow-source" source env;
         dim_limit := boundedPositiveInteger (field "RAIBITSERVER_AUTH_FLOW_SOURCE_RATE_LIMIT" env) 60 1 100000;
         dim_windowMs := windowMs |};
      global_dimension env])
  ++ (if negb (bool_decide (phase = PhaseRequest)) && bool_decide (action ∈ ["email-resend"; "password-reset"])
         && negb (str_empty email)
      then [{| dim_key := authRateLimitKey "resend-cooldown" email env; dim_limit := 1;
               dim_windowMs := boundedPositiveInteger (field "RAIBITSERVER_EMAIL_RESEND_COOLDOWN_MS" env) 60000 1000 (24 * 60 * 60000) |}]
      else [])
  ++ (if negb (bool_decide (phase = PhaseRequest)) && negb (str_empty email)
      then [{| dim_key := authRateLimitKey ("email:" +:+ action) email env;
               dim_limit := boundedPositiveInteger (field "RAIBITSERVER_AUTH_EMAIL_RATE_LIMIT" env) 10 1 10000;
               dim_windowMs := windowMs |}]
      else []).

Fixpoint consume_all (dims : list Dimension) (now : Z) : M limits (list RateResult) :=
  match dims with
  | [] => mret []
  | d :: dims' =>
      result ← consumeAuthRateLimit (dim_key d) (dim_limit d) (dim_windowMs d) now;
      _ ← lift (throw_if (negb (rr_allowed result)) rate_limit_exceeded);
      results ← consume_all dims' now;
      mret (result :: results)
  end.

Definition enforceAuthAbuseLimits (action email source : string) (phase : Phase) (env : jsval) (now : Z)
    : M limits (list RateResult) :=
  let action := action_slug (str_or action "auth") in
  let email := toLowerCase (trim email) in
  let source := str_or (toLowerCase (trim (str_or source "unknown"))) "unknown" in
  rows ← get;
  let globalDimension := global_dimension env in
  _ ← lift (throw_if (negb (bool_decide (phase = PhaseEmail))
                      && negb (rr_allowed (peekAuthRateLimit (dim_key globalDimension) (dim_limit globalDimension) now rows)))
              rate_limit_exceeded);
  consume_all (abuse_dimensions action email source phase env) now.
End abuse.

(** ** The counters *)

Lemma prune_limits_live budget now (rows : limits) k row :
  map_get k rows = Some row -> (now < rl_expiresAt row)%Z -> map_get k (prune_limits budget now rows) = Some row.
Proof.
  revert budget. induction rows as [|[k' r'] rows IH]; intros [|n]; cbn [prune_limits map_get]; try done.
  intros Hk Hlive. destruct (Z.ltb_spec now (rl_expiresAt r')); cbn [map_get].
  - case_decide; [done|]. by apply IH.
  - case_decide; [|by apply IH]. injection Hk as ->. lia.
Qed.

Lemma prune_limits_sub budget now (rows : limits) kr : kr ∈ prune_limits budget now rows -> kr ∈ rows.
Proof.
  revert budget. induction rows as [|[k' r'] rows IH]; intros [|n]; cbn [prune_limits]; try done.
  destruct (now <? rl_expiresAt r')%Z; [|intros; right; eauto].
  intros [->|Hin]%elem_of_cons; [by left|right; eauto].
Qed.

(** A window that is running, with the allowance used so far. *)
Definition window_state (rows : limits) (k : string) (count expiresAt : Z) : Prop :=
  exists row, map_get k rows = Some row /\ rl_count row = count /\ rl_expiresAt row = expiresAt.

Lemma consume_in_window key limit windowMs now rows k count expires :
  window_state rows k count expires -> (now < expires)%Z ->
  let '(result, rows') := consumeAuthRateLimit key limit windowMs now rows in
  exists r, result = Ok r
    /\ (str_or key "global" = k ->
        rr_allowed r = (count <? limit)%Z
        /\ window_state rows' k (if (count <? limit)%Z then count + 1 else count)%Z expires)
    /\ (str_or key "global" <> k -> window_state rows' k count expires).
Proof.
  intros (row & Hk & Hcount & Hexp) Hnow. unfold consumeAuthRateLimit. rewrite run_modify, run_get, run_modify. cbn zeta.
  set (pruned := prune_limits AUTH_RETENTION_PRUNE_BATCH_SIZE now rows).
  assert (Hp : map_get k pruned = Some row) by (apply prune_limits_live; [done|lia]).
  eexists. split; [reflexivity|]. split.
  - intros ->. rewrite Hp. destruct (Z.leb_spec (rl_expiresAt row) now); [lia|]. cbn [rr_allowed]. rewrite Hcount.
    split; [done|]. eexists. rewrite map_get_set_eq. split; [reflexivity|]. destruct (count <? limit)%Z; cbn; subst; done.
  - intros Hne. exists row. by rewrite map_get_set_ne.
Qed.

(** One call, and the calls of a window in their order. *)
Record call := { c_key : string; c_limit : Z; c_window : Z; c_now : Z }.

Fixpoint allowed_calls (k : string) (l : list call) (rows : limits) : Z :=
  match l with
  | [] => 0
  | c :: l' =>
      let '(result, rows') := consumeAuthRateLimit (c_key c) (c_limit c) (c_window c) (c_now c) rows in
      ((if bool_decide (str_or (c_key c) "global" = k)
        then match result with Ok r => if rr_allowed r then 1 else 0 | Throw _ => 0 end else 0)
       + allowed_calls k l' rows')%Z
  end.

(** While a key's window is running, at most [limit] calls for the key are
    allowed in it, however many are made, interleaved with calls for other keys
    and with the pruning of expired rows. *)
Theorem rate_limit_window k limit l rows count expires :
  window_state rows k count expires ->
  Forall (fun c => (c_now c < expires)%Z /\ (str_or (c_key c) "global" = k -> c_limit c = limit)) l ->
  (allowed_calls k l rows <= Z.max 0 (limit - count))%Z.
Proof.
  revert rows count. induction l as [|c l IH]; intros rows count Hw Hl; [cbn; lia|].
  apply Forall_cons in Hl as [[Hnow Hlim] Hl]. cbn [allowed_calls].
  pose proof (consume_in_window (c_key c) (c_limit c) (c_window c) (c_now c) rows k count expires Hw Hnow) as Hc.
  destruct (consumeAuthRateLimit _ _ _ _ rows) as [result rows']. destruct Hc as (r & -> & Hsame & Hother).
  destruct (decide (str_or (c_key c) "global" = k)) as [Heq|Hne].
  - rewrite bool_decide_true by done. destruct (Hsame Heq) as [Ha Hw']. rewrite (Hlim Heq) in Ha, Hw'. rewrite Ha.
    specialize (IH rows' _ Hw' Hl). destruct (Z.ltb_spec count limit); lia.
  - rewrite bool_decide_false by done. specialize (IH rows' _ (Hother Hne) Hl). lia.
Qed.

Definition one_row : limits := [("auth:global:k", mkRate "auth:global:k" 1 0 60000)].

Lemma rate_limit_window_witness :
  (allowed_calls "auth:global:k" (replicate 20 {| c_key := "auth:global:k"; c_limit := 10; c_window := 60000; c_now := 500 |}) one_row <= 9)%Z.
Proof.
  apply (rate_limit_window "auth:global:k" 10 _ one_row 1 60000); [by eexists|].
  apply Forall_replicate. cbn. split; [lia|done].
Defined.

(** ** Exceeding a limit *)

Lemma peek_agrees key limit windowMs now rows :
  let '(result, _) := consumeAuthRateLimit key limit windowMs now rows in
  exists r, result = Ok r
    /\ (rr_allowed (peekAuthRateLimit key limit now rows) = false -> rr_allowed r = false).
Proof.
  unfold consumeAuthRateLimit. rewrite run_modify, run_get, run_modify. eexists. split; [reflexivity|].
  unfold peekAuthRateLimit. destruct (map_get (str_or key "global") rows) as [row|] eqn:Hk; [|done].
  destruct (Z.leb_spec (rl_expiresAt row) now) as [|Hlive]; [done|]. cbn [rr_allowed]. intros Hn.
  rewrite (prune_limits_live _ _ _ _ _ Hk Hlive). by destruct (Z.leb_spec (rl_expiresAt row) now); [lia|].
Qed.

Section abuse_theorems.
Context (digest : string -> string -> string).

(** When the global allowance is used up, a request is refused without
    using up anybody's budget: the counters stay as they are. *)
Theorem exhausted_global_budget_consumes_nothing action email source phase env now rows :
  let g := global_dimension digest env in
  phase <> PhaseEmail -> rr_allowed (peekAuthRateLimit (dim_key g) (dim_limit g) now rows) = false ->
  enforceAuthAbuseLimits digest action email source phase env now rows = (Throw rate_limit_exceeded, rows).
Proof.
  intros g Hph Hg. unfold enforceAuthAbuseLimits. rewrite run_get, run_lift. fold g. rewrite Hg.
  by rewrite bool_decide_false.
Qed.
End abuse_theorems.

Lemma exhausted_global_budget_consumes_nothing_witness :
  let rows := [("auth:global:k", mkRate "auth:global:k" 5000 0 60000)] in
  enforceAuthAbuseLimits (fun _ _ => "k") "login" "an@club.kr" "203.0.113.7" PhaseAll (JObj []) 500 rows
  = (Throw rate_limit_exceeded, rows).
Proof.
  cbn zeta. apply (exhausted_global_budget_consumes_nothing (fun _ _ => "k")); [discriminate|vm_compute; reflexivity].
Defined.
