(* ===== verification/RedactionSafety.v ===== *)
(** * What redaction guarantees

    Completeness of the JSON web token pass, and the shape of sanitized
    records ([packages/core/src/observability-redaction.ts]). *)

From S2P Require Import Prelude JsString JsVal JsMap Secrets Redaction.

(** ** Scanning by index *)

Lemma at_char_drop p l i j : at_char p (drop i l) j = at_char p l (i + j).
Proof. unfold at_char. by rewrite lookup_drop. Qed.

Lemma at_char_app_l p a b i : (i < length a)%nat -> at_char p (a ++ b) i = at_char p a i.
Proof. intros H. unfold at_char. by rewrite lookup_app_l. Qed.

Lemma at_char_app_r p a b i : at_char p (a ++ b) (length a + i) = at_char p b i.
Proof. unfold at_char. rewrite lookup_app_r by lia. by replace (length a + i - length a)%nat with i by lia. Qed.

Lemma at_char_lt p l i : at_char p l i = true -> (i < length l)%nat.
Proof. unfold at_char. destruct (l !! i) eqn:E; [intros _; by eapply lookup_lt_Some|done]. Qed.

Lemma at_char_mono (p q : ascii -> bool) l i :
  (forall c, p c = true -> q c = true) -> at_char p l i = true -> at_char q l i = true.
Proof. intros H. unfold at_char. destruct (l !! i); [apply H|done]. Qed.

Lemma span_length {A} (p : A -> bool) l e :
  length (span p l).1 = e <->
  (forall i, (i < e)%nat -> exists c, l !! i = Some c /\ p c = true)
  /\ match l !! e with Some c => p c = false | None => (e <= length l)%nat end.
Proof.
  revert e. induction l as [|x l IH]; intros e; cbn.
  { split; [intros <-; cbn; split; [intros ? ?; lia|lia]|intros [_ H]]. rewrite lookup_nil in H. lia. }
  destruct (p x) eqn:Ex.
  - destruct (span p l) as [a b]. cbn in *. split.
    + intros <-. destruct (proj1 (IH (length a)) eq_refl) as [H1 H2]. cbn. split.
      * intros [|i] Hi; [by exists x|]. apply H1. lia.
      * destruct (l !! length a); [done|lia].
    + destruct e as [|e]; cbn; [intros [_ H]; congruence|]. intros [H1 H2]. f_equal. apply IH. split.
      * intros i Hi. apply (H1 (S i)). lia.
      * destruct (l !! e); [done|lia].
  - cbn. split; [intros <-; cbn; split; [lia|done]|].
    intros [H1 _]. destruct e as [|e]; [done|]. destruct (H1 0%nat ltac:(lia)) as (c & [= <-] & Hc). congruence.
Qed.

Lemma skip_while_spec p l i e :
  (i <= length l)%nat ->
  skip_while p l i = e <->
  (i <= e)%nat /\ (forall j, (i <= j < e)%nat -> at_char p l j = true) /\ at_char p l e = false
  /\ (e <= length l)%nat.
Proof.
  intros Hi. unfold skip_while, at_char. split.
  - intros <-. destruct (proj1 (span_length p (drop i l) _) eq_refl) as [H1 H2]. rewrite lookup_drop in H2.
    set (n := length (span p (drop i l)).1) in *. split_and!; [lia| |by destruct (l !! (i + n)%nat)|].
    + intros j Hj. destruct (H1 (j - i)%nat ltac:(lia)) as (c & Hc & Hp). rewrite lookup_drop in Hc.
      replace (i + (j - i))%nat with j in Hc by lia. by rewrite Hc.
    + rewrite length_drop in H2. destruct (l !! (i + n)%nat) eqn:E; [apply lookup_lt_Some in E; lia|lia].
  - intros (H1 & H2 & H3 & H4). assert (length (span p (drop i l)).1 = (e - i)%nat) as ->; [|lia].
    apply span_length. split.
    + intros j Hj. specialize (H2 (i + j)%nat ltac:(lia)). rewrite lookup_drop.
      destruct (l !! (i + j)%nat); [by eexists|done].
    + rewrite lookup_drop, length_drop. replace (i + (e - i))%nat with e by lia. destruct (l !! e); [done|lia].
Qed.

Lemma skip_while_unfold p l i :
  (i <= length l)%nat ->
  (i <= skip_while p l i)%nat /\ (forall j, (i <= j < skip_while p l i)%nat -> at_char p l j = true)
  /\ at_char p l (skip_while p l i) = false /\ (skip_while p l i <= length l)%nat.
Proof. intros H. by apply skip_while_spec. Qed.

(** A run that begins earlier inside the same run ends at the same place. *)
Lemma skip_while_same p l i j :
  (i <= j)%nat -> (j <= skip_while p l i)%nat -> (i <= length l)%nat ->
  skip_while p l j = skip_while p l i.
Proof.
  intros Hij Hj Hi. destruct (skip_while_unfold p l i Hi) as (H1 & H2 & H3 & H4).
  apply skip_while_spec; [lia|]. split_and!; [lia| |done|lia]. intros k Hk. apply H2. lia.
Qed.

Lemma skip_while_drop p l c i : (c + i <= length l)%nat ->
  (c + skip_while p (drop c l) i)%nat = skip_while p l (c + i).
Proof.
  intros H. symmetry. apply skip_while_spec; [lia|].
  destruct (skip_while_unfold p (drop c l) i) as (H1 & H2 & H3 & H4); [rewrite length_drop; lia|].
  rewrite length_drop in H4. rewrite at_char_drop in H3. split_and!; [lia| |done|lia].
  intros j Hj. specialize (H2 (j - c)%nat ltac:(lia)). rewrite at_char_drop in H2.
  by replace (c + (j - c))%nat with j in H2 by lia.
Qed.

(** Appending text whose first character is outside the class does not move the end of a run. *)
Lemma skip_while_app p a b i :
  (i <= length a)%nat -> at_char p b 0 = false -> skip_while p (a ++ b) i = skip_while p a i.
Proof.
  intros Hi Hb. destruct (skip_while_unfold p a i Hi) as (H1 & H2 & H3 & H4).
  apply skip_while_spec; [rewrite length_app; lia|]. split_and!; [lia| | |rewrite length_app; lia].
  - intros j Hj. rewrite at_char_app_l by lia. by apply H2.
  - destruct (decide (skip_while p a i < length a)%nat); [by rewrite at_char_app_l|].
    replace (skip_while p a i) with (length a + 0)%nat by lia. by rewrite at_char_app_r.
Qed.

Lemma skip_while_app_inside p a b i :
  (i <= length a)%nat -> (skip_while p a i < length a)%nat -> skip_while p (a ++ b) i = skip_while p a i.
Proof.
  intros Hi Hlt. destruct (skip_while_unfold p a i Hi) as (H1 & H2 & H3 & H4).
  apply skip_while_spec; [rewrite length_app; lia|]. split_and!; [lia| | |rewrite length_app; lia].
  - intros j Hj. rewrite at_char_app_l by lia. by apply H2.
  - by rewrite at_char_app_l.
Qed.

(** ** JSON web tokens *)

Definition eyJ : list ascii := chars "eyJ".
Definition key_run (l : list ascii) (i : nat) : nat := skip_while isKeyCharacter l i.
Definition dot_at (l : list ascii) (i : nat) : bool := char_is "."%char l i.

(** Three non-empty runs of key characters separated by dots start at [i], of
    which the caller has read the first [k] characters of the first. *)
Definition three_runs (l : list ascii) (i : nat) : bool :=
  let e1 := key_run l i in
  let e2 := key_run l (S e1) in
  (i <? e1)%nat && dot_at l e1 && (S e1 <? e2)%nat && dot_at l e2 && (S e2 <? key_run l (S e2))%nat.

(** A token starts at [p]: [eyJ] at a word boundary and three runs. *)
Definition jwt_at (l : list ascii) (p : nat) : bool :=
  prefixb eyJ (drop p l) && negb ((0 <? p)%nat && at_char isWordCharacter l (p - 1)) && three_runs l (p + 3).

Definition jwt_free (l : list ascii) : Prop := forall p, jwt_at l p = false.

Lemma dot_lt l e : dot_at l e = true -> (e < length l)%nat.
Proof. apply at_char_lt. Qed.

Lemma dot_not_key l e : dot_at l e = true -> at_char isKeyCharacter l e = false.
Proof.
  unfold dot_at, char_is, at_char. destruct (l !! e) as [c|]; [|done].
  intros <-%Ascii.eqb_eq. reflexivity.
Qed.

(** The characters of [eyJ], by index. *)
Lemma eyJ_at l p :
  prefixb eyJ (drop p l) = true <->
  char_is "e"%char l p = true /\ char_is "y"%char l (S p) = true /\ char_is "J"%char l (S (S p)) = true.
Proof.
  assert (Hd : forall k c, char_is c (drop p l) k = char_is c l (p + k))
    by (intros; apply at_char_drop).
  rewrite <- (Nat.add_0_r p) at 2. rewrite <- (Nat.add_1_r p), <- !Nat.add_succ_r, <- !Hd.
  destruct (drop p l) as [|a [|b [|c k]]]; cbn; rewrite ?andb_true_r, ?andb_false_r, ?andb_true_iff; try naive_solver.
Qed.

Lemma eyJ_key l p j :
  prefixb eyJ (drop p l) = true -> (p <= j < p + 3)%nat -> at_char isKeyCharacter l j = true.
Proof.
  intros (H1 & H2 & H3)%eyJ_at Hj.
  assert (Hk : forall c, isKeyCharacter c = true -> char_is c l j = true -> at_char isKeyCharacter l j = true).
  { intros c Hc. apply at_char_mono. by intros d <-%Ascii.eqb_eq. }
  assert (j = p \/ j = S p \/ j = S (S p)) as [-> | [-> | ->]] by lia;
    (eapply Hk; [|eassumption]; reflexivity).
Qed.

Lemma eyJ_length l p : prefixb eyJ (drop p l) = true -> (p + 3 <= length l)%nat.
Proof. intros (_ & _ & H)%eyJ_at. apply at_char_lt in H. lia. Qed.

(** Two occurrences of [eyJ] do not overlap. *)
Lemma eyJ_apart l p q :
  prefixb eyJ (drop p l) = true -> prefixb eyJ (drop q l) = true -> (p < q)%nat -> (p + 3 <= q)%nat.
Proof.
  intros (H1 & H2 & H3)%eyJ_at (H4 & _)%eyJ_at Hlt. unfold char_is, at_char in *.
  destruct (decide (q = S p)) as [-> |].
  { destruct (l !! S p); [|done]. apply Ascii.eqb_eq in H2, H4. congruence. }
  destruct (decide (q = S (S p))) as [-> |]; [|lia].
  destruct (l !! S (S p)); [|done]. apply Ascii.eqb_eq in H3, H4. congruence.
Qed.

Lemma find_prefix_spec text l i r :
  find_prefix text l i = r ->
  match r with
  | Some j => (i <= j)%nat /\ prefixb text (drop (j - i) l) = true
              /\ forall k, (i <= k < j)%nat -> prefixb text (drop (k - i) l) = false
  | None => forall k, (i <= k)%nat -> prefixb text (drop (k - i) l) = false
  end.
Proof.
  intros <-. revert i. induction l as [|c l IH]; intros i; cbn [find_prefix].
  - destruct (prefixb text []) eqn:E.
    + rewrite Nat.sub_diag. split_and!; [done|done|lia].
    + intros k _. by rewrite drop_nil.
  - destruct (prefixb text (c :: l)) eqn:E.
    { rewrite Nat.sub_diag. split_and!; [done|done|lia]. }
    assert (Hk : forall k, (i <= k)%nat -> (S i <= k)%nat -> drop (k - i) (c :: l) = drop (k - S i) l).
    { intros k _ ?. by replace (k - i)%nat with (S (k - S i)) by lia. }
    specialize (IH (S i)). destruct (find_prefix text l (S i)) as [j|].
    + destruct IH as (H1 & H2 & H3). split_and!; [lia|by rewrite Hk by lia|].
      intros k ?. destruct (decide (k = i)) as [-> |]; [by rewrite Nat.sub_diag|].
      rewrite Hk by lia. apply H3. lia.
    + intros k ?. destruct (decide (k = i)) as [-> |]; [by rewrite Nat.sub_diag|].
      rewrite Hk by lia. apply IH. lia.
Qed.

Lemma indexOf_spec text l from :
  match indexOf text l from with
  | Some j => (from <= j)%nat /\ prefixb text (drop j l) = true
              /\ forall k, (from <= k < j)%nat -> prefixb text (drop k l) = false
  | None => forall k, (from <= k)%nat -> prefixb text (drop k l) = false
  end.
Proof.
  unfold indexOf. pose proof (find_prefix_spec text (drop from l) from _ eq_refl) as H.
  assert (Hd : forall k, (from <= k)%nat -> drop (k - from) (drop from l) = drop k l).
  { intros k Hk. rewrite drop_drop. f_equal. lia. }
  destruct (find_prefix _ _ _) as [j|].
  - destruct H as (H1 & H2 & H3). split_and!; [done|by rewrite <- Hd|].
    intros k Hk. rewrite <- Hd by lia. by apply H3.
  - intros k Hk. rewrite <- Hd by lia. by apply H.
Qed.

Lemma key_run_gt l i : (i <= length l)%nat -> (i <? key_run l i)%nat = at_char isKeyCharacter l i.
Proof.
  intros Hi. destruct (skip_while_unfold isKeyCharacter l i Hi) as (H1 & H2 & H3 & _). fold (key_run l i) in *.
  destruct (Nat.ltb_spec i (key_run l i)) as [H|H]; [symmetry; apply H2; lia|].
  by replace (key_run l i) with i in H3 by lia.
Qed.

(** [three_runs] as conditions, without the bound checks. *)
Lemma three_runs_true l i :
  (i <= length l)%nat ->
  three_runs l i = true <->
  at_char isKeyCharacter l i = true /\ dot_at l (key_run l i) = true
  /\ at_char isKeyCharacter l (S (key_run l i)) = true
  /\ dot_at l (key_run l (S (key_run l i))) = true
  /\ at_char isKeyCharacter l (S (key_run l (S (key_run l i)))) = true.
Proof.
  intros Hi. unfold three_runs. rewrite !andb_true_iff, key_run_gt by done. split.
  - intros ((((H1 & H2) & H3) & H4) & H5). apply dot_lt in H2 as L2. apply dot_lt in H4 as L4.
    rewrite key_run_gt in H3, H5 by lia. done.
  - intros (H1 & H2 & H3 & H4 & H5). apply dot_lt in H2 as L2. apply dot_lt in H4 as L4.
    rewrite !key_run_gt by lia. done.
Qed.

Lemma dot_at_app_stop a b e :
  (e <= length a)%nat -> dot_at b 0 = false -> dot_at (a ++ b) e = dot_at a e.
Proof.
  intros He Hb. unfold dot_at, char_is in *. destruct (decide (e < length a)%nat); [by apply at_char_app_l|].
  replace e with (length a + 0)%nat by lia. rewrite at_char_app_r, Hb. symmetry.
  unfold at_char. by rewrite lookup_ge_None_2 by lia.
Qed.

Lemma key_run_le l i : (i <= length l)%nat -> (key_run l i <= length l)%nat.
Proof. intros H. by apply skip_while_unfold. Qed.

Lemma three_runs_app_stop a b i :
  (i <= length a)%nat -> at_char isKeyCharacter b 0 = false -> dot_at b 0 = false ->
  three_runs (a ++ b) i = true -> three_runs a i = true.
Proof.
  intros Hi Hk Hd. rewrite !three_runs_true by (rewrite ?length_app; lia).
  assert (Hrun : forall j, (j <= length a)%nat -> key_run (a ++ b) j = key_run a j)
    by (intros; by apply skip_while_app).
  assert (Hkey : forall j, (j <= length a)%nat -> at_char isKeyCharacter (a ++ b) j = true ->
            at_char isKeyCharacter a j = true).
  { intros j Hj. destruct (decide (j < length a)%nat); [by rewrite at_char_app_l|].
    replace j with (length a + 0)%nat by lia. rewrite at_char_app_r. congruence. }
  rewrite Hrun by done. pose proof (key_run_le a i Hi) as L1.
  rewrite dot_at_app_stop by done. intros (H1 & H2 & H3 & H4 & H5).
  apply dot_lt in H2 as L2. rewrite Hrun in H4, H5 by lia. pose proof (key_run_le a (S (key_run a i)) ltac:(lia)).
  rewrite dot_at_app_stop in H4 by done. apply dot_lt in H4 as L4. eauto 10 with lia.
Qed.

Lemma three_runs_extend a b i :
  (i <= length a)%nat -> three_runs a i = true -> three_runs (a ++ b) i = true.
Proof.
  intros Hi. rewrite !three_runs_true by (rewrite ?length_app; lia). intros (H1 & H2 & H3 & H4 & H5).
  apply dot_lt in H2 as L2. apply dot_lt in H4 as L4.
  apply at_char_lt in H1 as L1. apply at_char_lt in H3 as L3. apply at_char_lt in H5 as L5.
  assert (Hrun : forall j, (j <= length a)%nat -> (key_run a j < length a)%nat -> key_run (a ++ b) j = key_run a j)
    by (intros; by apply skip_while_app_inside).
  rewrite (Hrun i) by lia. rewrite (Hrun (S (key_run a i))) by lia.
  unfold dot_at, char_is in *. rewrite !at_char_app_l by lia. done.
Qed.

Lemma three_runs_drop l c i :
  (c + i <= length l)%nat -> three_runs (drop c l) i = true -> three_runs l (c + i) = true.
Proof.
  intros Hi. rewrite !three_runs_true by (rewrite ?length_drop; lia). unfold dot_at, char_is.
  rewrite !at_char_drop. intros (H1 & H2 & H3 & H4 & H5).
  assert (Hrun : forall j, (c + j <= length l)%nat -> (c + key_run (drop c l) j)%nat = key_run l (c + j))
    by (intros; by apply skip_while_drop).
  rewrite Hrun in H2 by done. rewrite Nat.add_succ_r, Hrun in H3 by done.
  apply at_char_lt in H2 as L2.
  rewrite Hrun in H4 by (rewrite Nat.add_succ_r, Hrun; lia). rewrite Nat.add_succ_r, Hrun in H4 by done.
  rewrite Nat.add_succ_r, Hrun in H5 by (rewrite Nat.add_succ_r, Hrun; lia).
  rewrite Nat.add_succ_r, Hrun in H5 by done. done.
Qed.

Lemma jwt_at_spec l p :
  jwt_at l p = true <->
  prefixb eyJ (drop p l) = true /\ (p = 0%nat \/ at_char isWordCharacter l (p - 1) = false) /\ three_runs l (p + 3) = true.
Proof.
  unfold jwt_at. rewrite !andb_true_iff, negb_true_iff, andb_false_iff, Nat.ltb_ge.
  assert ((p <= 0)%nat <-> p = 0%nat) as -> by lia. tauto.
Qed.

(** A token of a part that starts where no key character stands is a token of the whole. *)
Lemma jwt_at_part l c s p :
  (c <= s <= length l)%nat -> c = 0%nat \/ at_char isKeyCharacter l c = false ->
  jwt_at (slice c s l) p = true -> jwt_at l (c + p) = true /\ (c + p < s)%nat.
Proof.
  intros Hcs Hc. rewrite !jwt_at_spec. intros (He & Hw & Hr).
  assert (Hl : length (slice c s l) = (s - c)%nat).
  { unfold slice. rewrite length_take, length_drop. lia. }
  pose proof (eyJ_length _ _ He) as Hlen.
  assert (Hsplit : drop c l = slice c s l ++ drop (s - c) (drop c l))
    by (unfold slice; by rewrite take_drop).
  assert (Hat : forall q i, (i < s - c)%nat -> at_char q (slice c s l) i = at_char q l (c + i)).
  { intros q i Hi. rewrite <- at_char_drop, Hsplit. by rewrite at_char_app_l by lia. }
  split; [|lia]. split_and!.
  - rewrite <- drop_drop, Hsplit, drop_app_le by lia. by apply prefixb_app.
  - destruct (decide (p = 0%nat)) as [-> |Hp].
    + destruct Hc as [-> |Hc]; [by left|]. exfalso.
      apply (eyJ_key _ 0 0) in He; [|lia]. rewrite Hat in He by lia. rewrite Nat.add_0_r in He. congruence.
    + right. destruct Hw as [?|Hw]; [done|]. rewrite Hat in Hw by lia.
      by replace (c + p - 1)%nat with (c + (p - 1))%nat by lia.
  - rewrite <- Nat.add_assoc. apply three_runs_drop; [lia|]. rewrite Hsplit. by apply three_runs_extend; [lia|].
Qed.

Lemma three_runs_shift a b i :
  (i <= length b)%nat -> three_runs (a ++ b) (length a + i) = true -> three_runs b i = true.
Proof.
  intros Hi Hr. apply three_runs_true; [done|]. apply three_runs_true in Hr; [|rewrite length_app; lia].
  assert (Hrun : forall j, (j <= length b)%nat -> key_run (a ++ b) (length a + j) = (length a + key_run b j)%nat).
  { intros j Hj. unfold key_run. rewrite <- skip_while_drop by (rewrite length_app; lia). by rewrite drop_app_length. }
  unfold dot_at, char_is in *. rewrite Hrun, !at_char_app_r in Hr by done.
  destruct Hr as (R1 & R2 & R3 & R4 & R5). apply at_char_lt in R2 as L2.
  rewrite <- Nat.add_succ_r, at_char_app_r in R3. rewrite <- Nat.add_succ_r, Hrun, at_char_app_r in R4 by lia.
  rewrite <- Nat.add_succ_r, Hrun, <- Nat.add_succ_r, at_char_app_r in R5 by lia. done.
Qed.

Lemma jwt_at_shift a b q : jwt_at (a ++ b) (length a + q) = true -> jwt_at b q = true.
Proof.
  rewrite !jwt_at_spec. intros (He & Hw & Hr). rewrite drop_app_add in He. split_and!; [done| |].
  - destruct (decide (q = 0%nat)); [by left|right]. destruct Hw as [?|Hw]; [lia|].
    replace (length a + q - 1)%nat with (length a + (q - 1))%nat in Hw by lia. by rewrite at_char_app_r in Hw.
  - apply (three_runs_shift a); [by apply eyJ_length|]. by rewrite Nat.add_assoc.
Qed.

Lemma jwt_at_before a b p :
  (p + 3 <= length a)%nat -> at_char isKeyCharacter b 0 = false -> dot_at b 0 = false ->
  jwt_at (a ++ b) p = true -> jwt_at a p = true.
Proof.
  intros Hp Hk Hd. rewrite !jwt_at_spec. intros (He & Hw & Hr). split_and!.
  - rewrite eyJ_at in *. unfold char_is in *. rewrite !at_char_app_l in He by lia. done.
  - destruct Hw as [?|Hw]; [by left|right]. by rewrite at_char_app_l in Hw by lia.
  - by apply (three_runs_app_stop a b).
Qed.

Lemma jwt_free_marker a b : jwt_free a -> jwt_free b -> jwt_free (a ++ marker ++ b).
Proof.
  intros Ha Hb p. destruct (jwt_at (a ++ marker ++ b) p) eqn:E; [|done]. exfalso.
  destruct (decide (p + 3 <= length a)%nat) as [Hp|Hp].
  { apply jwt_at_before in E; [|done|done|done]. by rewrite Ha in E. }
  destruct (decide (p < length a + 4)%nat) as [Hq|Hq].
  - apply jwt_at_spec in E as (He & _ & _).
    pose proof (eyJ_key _ _ (Nat.max p (length a)) He ltac:(lia)) as Hk.
    assert (Hm : (Nat.max p (length a) - length a < 4)%nat) by lia.
    replace (Nat.max p (length a)) with (length a + (Nat.max p (length a) - length a))%nat in Hk by lia.
    rewrite at_char_app_r in Hk. revert Hk Hm. generalize (Nat.max p (length a) - length a)%nat.
    intros [|[|[|[|n]]]]; cbn; lia || done.
  - rewrite app_assoc in E. replace p with (length (a ++ marker) + (p - length a - 4))%nat in E
      by (rewrite length_app; cbn; lia).
    apply jwt_at_shift in E. by rewrite Hb in E.
Qed.

(** Where the scan resumes after an occurrence of [eyJ], no token was skipped. *)
Section resume.
Context (l : list ascii) (start : nat).
Hypothesis Hstart : prefixb eyJ (drop start l) = true.
Let e1 := key_run l (start + 3).
Let e2 := key_run l (S e1).

Lemma start_bound : (start + 3 <= e1 <= length l)%nat.
Proof using Hstart.
  pose proof (eyJ_length _ _ Hstart) as H. destruct (skip_while_unfold isKeyCharacter l (start + 3) H) as (? & _ & _ & ?).
  unfold e1, key_run. lia.
Qed.

Lemma no_token_overlap p : (start < p < start + 3)%nat -> jwt_at l p = false.
Proof using Hstart.
  intros Hp. destruct (jwt_at l p) eqn:E; [|done]. apply jwt_at_spec in E as (He & _).
  pose proof (eyJ_apart _ _ _ Hstart He). lia.
Qed.

(** Every occurrence inside the first run shares its end. *)
Lemma run_of_occurrence p :
  (start <= p < e1)%nat -> prefixb eyJ (drop p l) = true -> key_run l (p + 3) = e1.
Proof using Hstart.
  intros Hp He. pose proof start_bound. pose proof (eyJ_length _ _ He) as Hl.
  destruct (skip_while_unfold isKeyCharacter l (start + 3)) as (_ & _ & Hstop & _); [lia|].
  fold (key_run l (start + 3)) in Hstop. fold e1 in Hstop.
  assert (p + 3 <= e1)%nat.
  { destruct (decide (p + 3 <= e1)%nat); [done|]. rewrite (eyJ_key _ _ e1 He) in Hstop by lia. done. }
  unfold e1, key_run. apply skip_while_same; [lia|by fold (key_run l (start + 3)); fold e1|lia].
Qed.

Lemma first_run_fails p :
  (e1 =? start + 3)%nat || negb (dot_at l e1) = true ->
  (start <= p < Nat.max e1 (start + 3))%nat -> jwt_at l p = false.
Proof using Hstart.
  intros Hf Hp. pose proof start_bound. destruct (jwt_at l p) eqn:E; [|done]. apply jwt_at_spec in E as (He & _ & Hr).
  rewrite (three_runs_true l (p + 3)), (run_of_occurrence p) in Hr by (by apply eyJ_length || lia || done).
  destruct Hr as (R1 & R2 & _). rewrite R2 in Hf. cbn in Hf. rewrite orb_false_r in Hf. apply Nat.eqb_eq in Hf.
  pose proof (run_of_occurrence p ltac:(lia) He). pose proof (eyJ_apart l start p Hstart He).
  assert (p = start) as -> by lia. apply dot_not_key in R2. rewrite Hf in R2. congruence.
Qed.

Lemma second_run_fails p :
  dot_at l e1 = true -> (e2 =? S e1)%nat || negb (dot_at l e2) = true ->
  (start <= p < Nat.max e2 (start + 3))%nat -> jwt_at l p = false.
Proof using Hstart.
  intros Hd Hf Hp. pose proof start_bound. apply dot_lt in Hd as Ld.
  destruct (skip_while_unfold isKeyCharacter l (S e1) ltac:(lia)) as (B1 & _ & Bstop & B2).
  fold (key_run l (S e1)) in B1, B2, Bstop. fold e2 in B1, B2, Bstop.
  destruct (jwt_at l p) eqn:E; [|done]. apply jwt_at_spec in E as (He & _ & Hr).
  pose proof (eyJ_length _ _ He) as Hl. rewrite three_runs_true in Hr by done.
  destruct (decide (p < e1)%nat) as [Hlt|Hge].
  - rewrite (run_of_occurrence p) in Hr by (done || lia). fold e2 in Hr. destruct Hr as (_ & _ & R3 & R4 & _).
    rewrite R4 in Hf. cbn in Hf. rewrite orb_false_r in Hf.
    assert (Heq : e2 = S e1) by (by apply Nat.eqb_eq). rewrite Heq in Bstop. congruence.
  - assert (p <> e1). { intros ->. apply dot_not_key in Hd. rewrite (eyJ_key _ _ e1 He) in Hd by lia. done. }
    assert (p + 3 <= e2)%nat.
    { destruct (decide (p + 3 <= e2)%nat); [done|]. rewrite (eyJ_key _ _ e2 He) in Bstop by lia. done. }
    assert (Hrun : key_run l (p + 3) = e2) by (apply skip_while_same; [lia|by fold (key_run l (S e1)); fold e2|lia]).
    rewrite Hrun in Hr. destruct Hr as (_ & R2 & _). rewrite R2 in Hf. cbn in Hf. rewrite orb_false_r in Hf.
    assert (Heq : e2 = S e1) by (by apply Nat.eqb_eq). lia.
Qed.
End resume.

Lemma rest_free l c s :
  (c <= s)%nat -> c = 0%nat \/ at_char isKeyCharacter l c = false ->
  (forall p, (c <= p < s)%nat -> jwt_at l p = false) -> jwt_free (slice c (Nat.min s (length l)) l).
Proof.
  intros Hcs Hc Hn p. destruct (jwt_at (slice c (Nat.min s (length l)) l) p) eqn:E; [|done].
  destruct (decide (c <= length l)%nat).
  - apply jwt_at_part in E as [E Hp]; [|lia|done]. rewrite Hn in E by lia. done.
  - unfold slice in E. rewrite drop_ge, take_nil in E by lia. apply jwt_at_spec in E as (He & _).
    apply eyJ_length in He. cbn in He. lia.
Qed.

Lemma drop_free l c s :
  (length l <= s)%nat -> c = 0%nat \/ at_char isKeyCharacter l c = false ->
  (forall p, (c <= p < s)%nat -> jwt_at l p = false) -> jwt_free (drop c l).
Proof.
  intros Hs Hc Hn. destruct (decide (c <= s)%nat) as [Hcs|Hcs].
  - pose proof (rest_free l c s Hcs Hc Hn) as H. unfold slice in H. rewrite take_ge in H; [done|].
    rewrite length_drop. lia.
  - rewrite drop_ge by lia. intros p. unfold jwt_at. by rewrite drop_nil.
Qed.

(** The output of the scan holds no token, from any state of the loop in which
    none was skipped. *)
Lemma jwt_loop_free value truncated fuel : forall consumed search,
  (length value <= search + fuel)%nat -> (consumed <= search)%nat ->
  consumed = 0%nat \/ at_char isKeyCharacter value consumed = false ->
  (forall p, (consumed <= p < search)%nat -> jwt_at value p = false) ->
  jwt_free (jwt_loop fuel value truncated consumed search).
Proof.
  induction fuel as [|fuel IH]; intros consumed search Hfuel Hcs Hc Hn; cbn [jwt_loop].
  { apply (drop_free _ _ search); done || lia. }
  destruct (Nat.leb_spec (length value) search) as [Hs|Hs]; [by apply (drop_free _ _ search)|].
  pose proof (indexOf_spec (chars "eyJ") value search) as Hidx.
  destruct (indexOf (chars "eyJ") value search) as [start|].
  2:{ apply (drop_free _ _ (length value)); [done|done|]. intros p Hp.
      destruct (decide (p < search)%nat); [apply Hn; lia|]. unfold jwt_at. by rewrite Hidx by lia. }
  destruct Hidx as (Hge & Hstart & Hfirst). fold eyJ in Hstart, Hfirst.
  assert (Hbefore : forall p, (consumed <= p < start)%nat -> jwt_at value p = false).
  { intros p Hp. destruct (decide (p < search)%nat); [apply Hn; lia|]. unfold jwt_at. by rewrite Hfirst by lia. }
  pose proof (start_bound value start Hstart) as Hb.
  assert (Hskip : forall e, (start <= e)%nat -> (forall p, (start <= p < e)%nat -> jwt_at value p = false) ->
            forall p, (consumed <= p < e)%nat -> jwt_at value p = false).
  { intros e He Hp p ?. destruct (decide (p < start)%nat); [apply Hbefore|apply Hp]; lia. }
  assert (Hprefix : jwt_free (slice consumed start value)).
  { pose proof (rest_free value consumed start ltac:(lia) Hc Hbefore) as H.
    by replace (Nat.min start (length value)) with start in H by lia. }
  assert (Hnext : forall p, (start < p < start + 3)%nat -> jwt_at value p = false)
    by (by apply no_token_overlap).
  fold (key_run value (start + 3)). set (e1 := key_run value (start + 3)) in *.
  fold (key_run value (S e1)). set (e2 := key_run value (S e1)) in *. fold (dot_at value e1). fold (dot_at value e2).
  fold (key_run value (S e2)).
  assert (Hshort : forall e, (start + 3 <= e <= length value)%nat ->
    (forall p, (start <= p < Nat.max e (start + 3))%nat -> jwt_at value p = false) ->
    jwt_free (if truncated && (e =? length value)%nat
              then slice consumed start value ++ marker ++ jwt_loop fuel value truncated (length value) (Nat.max e (start + 3))
              else jwt_loop fuel value truncated consumed (Nat.max e (start + 3)))).
  { intros e He Hnt. destruct (truncated && (e =? length value)%nat) eqn:Et.
    - apply andb_true_iff in Et as [_ ->%Nat.eqb_eq]. apply jwt_free_marker; [done|].
      apply IH; [lia|lia| |intros p Hp; lia]. right. unfold at_char. by rewrite lookup_ge_None_2.
    - apply IH; [lia|lia|done|]. apply Hskip; [lia|done]. }
  destruct (_ && at_char isWordCharacter value (start - 1)) eqn:Ew.
  { apply IH; [lia|lia|done|]. apply Hskip; [lia|]. intros p Hp. destruct (decide (p = start)) as [-> |]; [|apply Hnext; lia].
    unfold jwt_at. rewrite Ew. cbn. by rewrite andb_false_r. }
  destruct ((e1 =? start + 3)%nat || negb (dot_at value e1)) eqn:E1.
  { apply Hshort; [lia|]. intros p. by apply (first_run_fails value start Hstart). }
  apply orb_false_iff in E1 as [N1 D1%negb_false_iff]. apply dot_lt in D1 as L1.
  destruct (skip_while_unfold isKeyCharacter value (S e1) ltac:(lia)) as (B1 & _ & _ & B2).
  fold (key_run value (S e1)) in B1, B2. fold e2 in B1, B2.
  destruct ((e2 =? S e1)%nat || negb (dot_at value e2)) eqn:E2.
  { apply Hshort; [lia|]. intros p. by apply (second_run_fails value start Hstart). }
  apply orb_false_iff in E2 as [N2 D2%negb_false_iff]. apply dot_lt in D2 as L2.
  destruct (skip_while_unfold isKeyCharacter value (S e2) ltac:(lia)) as (C1 & _ & C2 & C3).
  fold (key_run value (S e2)) in C1, C2, C3. destruct (Nat.eqb_spec (key_run value (S e2)) (S e2)) as [E3|E3].
  - apply IH; [lia|lia|done|]. apply Hskip; [lia|]. intros p Hp.
    destruct (decide (p = start)) as [-> |]; [|apply Hnext; lia].
    unfold jwt_at, three_runs. fold e1. fold e2. rewrite E3, Nat.ltb_irrefl, !andb_false_r. done.
  - apply jwt_free_marker; [done|]. apply IH; [lia|lia|by right|intros p Hp; lia].
Qed.

(** The output of the token pass holds no JSON web token: no occurrence
    of [eyJ] at a word boundary that starts three dot-separated runs of token
    characters. *)
Theorem redactJwt_complete value truncated : jwt_free (redactJwt value truncated).
Proof. apply jwt_loop_free; [lia|lia|by left|intros p Hp; lia]. Qed.

(** ** Records *)

(** How a sanitized value relates to the value it came from, [d] levels of
    nesting being allowed: a value becomes the marker where a budget is used up;
    a text is the redacted line, cut to the line limit; numbers are finite;
    arrays keep their first thousand items; the entries of an object are its
    first sixty-four, under redacted keys of at most 256 bytes, and under a key
    that names a secret only the marker or [null] remains. *)
Inductive sanitized : nat -> jsval -> jsval -> Prop :=
| san_marker d v : sanitized d v JMarker
| san_text d s limit :
    (byteLength (clean_text s limit) <= OBSERVABILITY_LINE_BYTES)%nat ->
    sanitized d (JStr s) (JStr (unchars (clean_text s limit)))
| san_null d v : v ∈ [JNull; JUndef; JNum NNaN; JNum (NInf true); JNum (NInf false)] -> sanitized d v JNull
| san_bool d b : sanitized d (JBool b) (JBool b)
| san_int d z : sanitized d (JNum (NInt z)) (JNum (NInt z))
| san_frac d t q : sanitized d (JNum (NFrac t q)) (JNum (NFrac t q))
| san_arr d l ys :
    Forall2 (sanitized d) (take (Z.to_nat 1000) l) ys -> sanitized (S d) (JArr l) (JArr ys)
| san_obj d fs gs :
    (Z.of_nat (length gs) <= 64)%Z -> NoDup gs.*1 -> (forall k, k ∈ (take 64 fs).*1 -> clean_key k ∈ gs.*1) ->
    Forall (fun ky => (byteLength (chars ky.1) <= 256)%nat
      /\ exists k x, (k, x) ∈ take 64 fs /\ ky.1 = clean_key k /\ sanitized d x ky.2
         /\ (is_record_secret (chars k) = true -> ky.2 = JMarker \/ ky.2 = JNull)) gs ->
    sanitized (S d) (JObj fs) (JObj gs).

Lemma clean_text_bound s limit :
  (limit <= OBSERVABILITY_LINE_BYTES)%nat -> (byteLength (clean_text s limit) <= OBSERVABILITY_LINE_BYTES)%nat.
Proof.
  intros H. unfold clean_text. etransitivity; [apply truncate_length|]. apply Nat.max_lub; [done|].
  apply Nat.leb_le. vm_compute. reflexivity.
Qed.

Lemma clean_key_bound k : (byteLength (chars (clean_key k)) <= 256)%nat.
Proof.
  unfold clean_key. rewrite chars_unchars. etransitivity; [apply truncate_length|].
  apply Nat.max_lub; apply Nat.leb_le; vm_compute; reflexivity.
Qed.

(** [Object.fromEntries]: distinct keys, each entry one of the given ones. *)
Lemma from_entries_spec {V} (ys acc : list (string * V)) :
  NoDup acc.*1 ->
  let gs := foldl (fun m kv => map_set kv.1 kv.2 m) acc ys in
  NoDup gs.*1 /\ (length gs <= length acc + length ys)%nat /\ (forall kv, kv ∈ gs -> kv ∈ acc \/ kv ∈ ys)
  /\ forall k, k ∈ acc.*1 \/ k ∈ ys.*1 -> k ∈ gs.*1.
Proof.
  revert acc. induction ys as [|[k y] ys IH]; intros acc Hnd; cbn.
  { split_and!; [done|lia|tauto|]. intros k [?|?%not_elem_of_nil]; done. }
  assert (Hset : (length (map_set k y acc) <= S (length acc))%nat
                 /\ forall kv, kv ∈ map_set k y acc -> kv ∈ acc \/ kv = (k, y)).
  { clear. induction acc as [|[k' v'] acc [IH1 IH2]]; cbn; [split; [lia|]; set_solver|].
    case_decide; cbn; split; try lia; intros kv; rewrite !elem_of_cons; naive_solver. }
  destruct Hset as [Hl Hin].
  assert (Hkeys : forall k', k' ∈ acc.*1 \/ k' = k -> k' ∈ (map_set k y acc).*1).
  { clear. intros k'. induction acc as [|[k1 v1] acc IH]; cbn; [intros [?%not_elem_of_nil| ->]; [done|by left]|].
    rewrite elem_of_cons. case_decide as Hd; cbn; rewrite elem_of_cons; [subst; naive_solver|naive_solver]. }
  destruct (IH (map_set k y acc)) as (H1 & H2 & H3 & H4); [by apply map_wf_set|]. split_and!; [done|lia| |].
  - intros kv Hkv. apply H3 in Hkv as [Hkv|Hkv]; [apply Hin in Hkv as [?| ->]; set_solver|set_solver].
  - intros k' Hk'. apply H4. rewrite elem_of_cons in Hk'. destruct Hk' as [?|[->|?]]; [left; apply Hkeys; by left|left; apply Hkeys; by right|by right].
Qed.

Section children.
Context (f : jsval -> Budget -> jsval * Budget) (R : jsval -> jsval -> Prop).
Hypothesis Hnull : forall x b, x = JNull \/ x = JUndef -> (f x b).1 = JMarker \/ (f x b).1 = JNull.
Hypothesis Hmarker : forall x, R x JMarker.

Lemma visit_items_spec n l b :
  Forall (fun x => forall b, R x (f x b).1) l ->
  Forall2 R (take (Z.to_nat n) l) (visit_items f n l b).1.
Proof using.
  intros Hl. revert n b. induction Hl as [|x l Hx _ IH]; intros n b; cbn [visit_items]; [rewrite take_nil; constructor|].
  destruct (Z.leb_spec n 0) as [Hn|Hn]; [rewrite Z2Nat.nonpos by done; constructor|].
  replace (Z.to_nat n) with (S (Z.to_nat (n - 1))) by lia. cbn [take firstn].
  specialize (Hx b). destruct (f x b) as [y b1]. specialize (IH (n - 1)%Z b1).
  destruct (visit_items f (n - 1) l b1) as [ys b2]. by constructor.
Qed.

Lemma visit_entries_spec n fs b :
  Forall (fun kv => forall b, R kv.2 (f kv.2 b).1) fs ->
  Forall2 (fun kx ky => ky.1 = clean_key kx.1 /\ R kx.2 ky.2
      /\ (is_record_secret (chars kx.1) = true -> ky.2 = JMarker \/ ky.2 = JNull))
    (take (Z.to_nat n) fs) (visit_entries f n fs b).1.
Proof using Hnull Hmarker.
  intros Hf. revert n b. induction Hf as [|[k x] fs Hx _ IH]; intros n b; cbn [visit_entries]; [rewrite take_nil; constructor|].
  destruct (Z.leb_spec n 0) as [Hn|Hn]; [rewrite Z2Nat.nonpos by done; constructor|].
  replace (Z.to_nat n) with (S (Z.to_nat (n - 1))) by lia. cbn [take firstn snd] in *.
  assert (Hy : forall y b1, (if is_record_secret (chars k) && match x with JNull | JUndef => false | _ => true end
                 then (JMarker, b) else f x b) = (y, b1) ->
               R x y /\ (is_record_secret (chars k) = true -> y = JMarker \/ y = JNull)).
  { intros y b1 Hy. destruct (is_record_secret (chars k)) eqn:Ek; cbn [andb] in Hy.
    - specialize (Hx b). specialize (Hnull x b). destruct x; simplify_eq; try (split; [apply Hmarker|by left]);
        rewrite Hy in *; cbn [fst] in *; split; auto.
    - specialize (Hx b). rewrite Hy in Hx. done. }
  destruct (if _ && _ then _ else _) as [y b1]. specialize (Hy y b1 eq_refl). specialize (IH (n - 1)%Z b1).
  destruct (visit_entries f (n - 1) fs b1) as [ys b2]. constructor; [cbn [fst snd]; tauto|done].
Qed.
End children.

Lemma visit_null x depth b : x = JNull \/ x = JUndef -> (visit x depth b).1 = JMarker \/ (visit x depth b).1 = JNull.
Proof. intros [-> | ->]; cbn [visit]; destruct (_ || (8 <? depth)%nat); auto. Qed.

Lemma visit_sanitized v : forall depth b, sanitized (9 - depth) v (visit v depth b).1.
Proof.
  induction v as [| |bb|n|s|l IHl|fs IHf] using jsval_nested_ind; intros depth b; cbn [visit];
    destruct (_ || (8 <? depth)%nat) eqn:Ed; try apply san_marker; cbn [fst];
    try (apply san_null; set_solver); try (constructor; done).
  - destruct n as [z|t q| |neg]; cbn; try constructor; [set_solver|]. destruct neg; set_solver.
  - apply san_text, clean_text_bound. lia.
  - apply orb_false_iff in Ed as [_ Ed%Nat.ltb_ge].
    replace (9 - depth)%nat with (S (9 - S depth)) by lia. set (b0 := mkBudget _ _).
    pose proof (visit_items_spec (fun x b => visit x (S depth) b) (sanitized (9 - S depth)) 1000 l b0) as H.
    destruct (visit_items _ 1000 l b0) as [ys b']. constructor. apply H. eapply Forall_impl; [exact IHl|auto].
  - apply orb_false_iff in Ed as [_ Ed%Nat.ltb_ge].
    replace (9 - depth)%nat with (S (9 - S depth)) by lia. set (b0 := mkBudget _ _).
    pose proof (visit_entries_spec (fun x b => visit x (S depth) b) (sanitized (9 - S depth))
      ltac:(intros; by apply visit_null) (san_marker _) 64 fs b0 ltac:(eapply Forall_impl; [exact IHf|auto])) as Hgo.
    destruct (visit_entries _ 64 fs b0) as [ys b']. cbn [fst] in *.
    destruct (from_entries_spec ys [] ltac:(constructor)) as (H1 & H2 & H3 & H4).
    pose proof (Forall2_length _ _ _ Hgo) as Hlen. rewrite length_take in Hlen. cbn in H2.
    constructor; [lia|done| |].
    { intros k Hk. apply H4. right. apply list_elem_of_fmap in Hk as ([k' x] & -> & Hk). apply list_elem_of_lookup in Hk as [i Hi].
      destruct (Forall2_lookup_l _ _ _ _ _ Hgo Hi) as (ky & Hky & Heq & _). cbn [fst] in *. rewrite <- Heq. apply (list_elem_of_fmap_2 fst). by eapply list_elem_of_lookup_2. }
    apply Forall_forall. intros ky Hky. apply H3 in Hky as [Hky|Hky]; [set_solver|].
    apply list_elem_of_lookup in Hky as [i Hi]. destruct (Forall2_lookup_r _ _ _ _ _ Hgo Hi) as ([k x] & Hx & Hk & Hs & Hm).
    split; [rewrite Hk; apply clean_key_bound|]. exists k, x. split_and!; try done. by eapply list_elem_of_lookup_2.
Qed.

(** *** Within the budgets *)

(** Whether an entry is hidden for its key *)
Definition hides (k : string) (x : jsval) : bool := is_record_secret (chars k) && match x with JNull | JUndef => false | _ => true end.

(** The redaction of a record, without budgets *)
Fixpoint redacted (v : jsval) : jsval :=
  match v with
  | JStr s => JStr (unchars (sanitizeObservationLine (chars s) initial_redaction).1)
  | JNull | JUndef | JNum NNaN | JNum (NInf _) => JNull
  | JNum _ | JBool _ => v
  | JArr l => JArr (take (Z.to_nat 1000) (map redacted l))
  | JObj fs => JObj (foldl (fun m kv => map_set kv.1 kv.2 m) []
                 (take (Z.to_nat 64) (map (fun kv => match kv with (k, x) => (clean_key k, if hides k x then JMarker else redacted x) end) fs)))
  end.

Definition sum_of (l : list Z) : Z := foldr Z.add 0%Z l.

(** The values visited, the bytes of text kept, and the levels below a value *)
Fixpoint nodes_of (v : jsval) : Z :=
  match v with
  | JArr l => 1 + sum_of (take (Z.to_nat 1000) (map nodes_of l))
  | JObj fs => 1 + sum_of (take (Z.to_nat 64) (map (fun kv => match kv with (k, x) => if hides k x then 0 else nodes_of x end) fs))
  | _ => 1
  end%Z.

Fixpoint bytes_of (v : jsval) : Z :=
  match v with
  | JStr s => Z.of_nat (byteLength (sanitizeObservationLine (chars s) initial_redaction).1)
  | JArr l => sum_of (take (Z.to_nat 1000) (map bytes_of l))
  | JObj fs => sum_of (take (Z.to_nat 64) (map (fun kv => match kv with (k, x) => if hides k x then 0 else bytes_of x end) fs))
  | _ => 0
  end%Z.

Fixpoint height (v : jsval) : nat :=
  match v with
  | JArr l => foldr (fun h => Nat.max (S h)) 0%nat (map height l)
  | JObj fs => foldr (fun h => Nat.max (S h)) 0%nat (map (fun kv => match kv with (k, x) => height x end) fs)
  | _ => 0%nat
  end.

Definition spend (b : Budget) (nodes bytes : Z) : Budget := mkBudget (remainingNodes b - nodes) (remainingBytes b - bytes).

Lemma spend_zero b : spend b 0 0 = b.
Proof. destruct b. unfold spend. cbn. f_equal; lia. Qed.

Lemma spend_spend b n t n' t' : spend (spend b n t) n' t' = spend b (n + n') (t + t').
Proof. unfold spend. cbn. f_equal; lia. Qed.

Lemma sum_of_nonneg l : Forall (fun x => 0 <= x)%Z l -> (0 <= sum_of l)%Z.
Proof. unfold sum_of. induction 1; cbn; lia. Qed.

Lemma sum_of_map_nonneg {A} (g : A -> Z) n l : (forall x, x ∈ l -> 0 <= g x)%Z -> (0 <= sum_of (take n (map g l)))%Z.
Proof. intros H. apply sum_of_nonneg, Forall_take, Forall_forall. intros z (x & -> & Hx)%list_elem_of_fmap. by apply H. Qed.

Lemma costs_nonneg v : (1 <= nodes_of v /\ 0 <= bytes_of v)%Z.
Proof.
  induction v as [| |bb|n|s|l IHl|fs IHf] using jsval_nested_ind; cbn [nodes_of bytes_of]; try lia; rewrite Forall_forall in *.
  - pose proof (sum_of_map_nonneg nodes_of (Z.to_nat 1000) l ltac:(intros x Hx; destruct (IHl x Hx); lia)).
    pose proof (sum_of_map_nonneg bytes_of (Z.to_nat 1000) l ltac:(intros x Hx; destruct (IHl x Hx); lia)). lia.
  - pose proof (sum_of_map_nonneg (fun kv : string * jsval => match kv with (k, x) => if hides k x then 0 else nodes_of x end)%Z (Z.to_nat 64) fs
      ltac:(intros [k x] Hx; specialize (IHf _ Hx); cbn in IHf; destruct (hides k x); lia)).
    pose proof (sum_of_map_nonneg (fun kv : string * jsval => match kv with (k, x) => if hides k x then 0 else bytes_of x end)%Z (Z.to_nat 64) fs
      ltac:(intros [k x] Hx; specialize (IHf _ Hx); cbn in IHf; destruct (hides k x); lia)). lia.
Qed.

(** A value that fits is visited without reaching a limit. *)
Definition visits_exactly (f : jsval -> Budget -> jsval * Budget) (x : jsval) : Prop :=
  forall b, (nodes_of x <= remainingNodes b -> bytes_of x < remainingBytes b -> f x b = (redacted x, spend b (nodes_of x) (bytes_of x)))%Z.

Lemma visit_items_exact f n l b :
  Forall (visits_exactly f) l ->
  (sum_of (take (Z.to_nat n) (map nodes_of l)) <= remainingNodes b -> sum_of (take (Z.to_nat n) (map bytes_of l)) < remainingBytes b ->
   visit_items f n l b = (take (Z.to_nat n) (map redacted l), spend b (sum_of (take (Z.to_nat n) (map nodes_of l))) (sum_of (take (Z.to_nat n) (map bytes_of l)))))%Z.
Proof.
  intros Hl. revert n b. induction Hl as [|x l Hx _ IH]; intros n b; cbn [visit_items map].
  { rewrite !take_nil. cbn. by rewrite spend_zero. }
  destruct (Z.leb_spec n 0) as [Hn|Hn]; [rewrite Z2Nat.nonpos by done; cbn; by rewrite spend_zero|].
  replace (Z.to_nat n) with (S (Z.to_nat (n - 1))) by lia. cbn [take firstn sum_of foldr]. fold (sum_of (take (Z.to_nat (n - 1)) (map nodes_of l))) (sum_of (take (Z.to_nat (n - 1)) (map bytes_of l))).
  intros H1 H2. pose proof (costs_nonneg x). pose proof (sum_of_map_nonneg nodes_of (Z.to_nat (n - 1)) l ltac:(intros y _; destruct (costs_nonneg y); lia)).
  pose proof (sum_of_map_nonneg bytes_of (Z.to_nat (n - 1)) l ltac:(intros y _; destruct (costs_nonneg y); lia)).
  rewrite Hx by lia. rewrite IH by (unfold spend; cbn; lia). by rewrite spend_spend.
Qed.

Notation entry_cost g := (fun kv : string * jsval => match kv with (k, x) => if hides k x then 0%Z else g x end).
Notation redacted_entry := (fun kv : string * jsval => match kv with (k, x) => (clean_key k, if hides k x then JMarker else redacted x) end).

Lemma visit_entries_exact f n fs b :
  Forall (fun kv => visits_exactly f kv.2) fs ->
  (sum_of (take (Z.to_nat n) (map (entry_cost nodes_of) fs)) <= remainingNodes b -> sum_of (take (Z.to_nat n) (map (entry_cost bytes_of) fs)) < remainingBytes b ->
   visit_entries f n fs b = (take (Z.to_nat n) (map redacted_entry fs),
     spend b (sum_of (take (Z.to_nat n) (map (entry_cost nodes_of) fs))) (sum_of (take (Z.to_nat n) (map (entry_cost bytes_of) fs)))))%Z.
Proof.
  intros Hl. revert n b. induction Hl as [|[k x] fs Hx _ IH]; intros n b; cbn [visit_entries map].
  { rewrite !take_nil. cbn. by rewrite spend_zero. }
  destruct (Z.leb_spec n 0) as [Hn|Hn]; [rewrite Z2Nat.nonpos by done; cbn; by rewrite spend_zero|].
  replace (Z.to_nat n) with (S (Z.to_nat (n - 1))) by lia. cbn [take firstn sum_of foldr].
  fold (sum_of (take (Z.to_nat (n - 1)) (map (entry_cost nodes_of) fs))) (sum_of (take (Z.to_nat (n - 1)) (map (entry_cost bytes_of) fs))).
  intros H1 H2. pose proof (costs_nonneg x). fold (hides k x).
  pose proof (sum_of_map_nonneg (entry_cost nodes_of) (Z.to_nat (n - 1)) fs ltac:(intros [k' y] _; destruct (costs_nonneg y), (hides k' y); lia)).
  pose proof (sum_of_map_nonneg (entry_cost bytes_of) (Z.to_nat (n - 1)) fs ltac:(intros [k' y] _; destruct (costs_nonneg y), (hides k' y); lia)).
  cbn [snd] in Hx. destruct (hides k x).
  - rewrite IH by lia. done.
  - rewrite Hx by lia. rewrite IH by (unfold spend; cbn; lia). by rewrite spend_spend.
Qed.

Lemma clean_text_whole s limit : (byteLength (sanitizeObservationLine (chars s) initial_redaction).1 <= limit)%nat ->
  clean_text s limit = (sanitizeObservationLine (chars s) initial_redaction).1.
Proof. intros H. unfold clean_text, truncateObservationText. by rewrite (proj2 (Nat.leb_le _ _) H). Qed.

Lemma height_child h hs : h ∈ hs -> (S h <= foldr (fun h => Nat.max (S h)) 0 hs)%nat.
Proof. induction hs as [|x hs IH]; [by intros ?%not_elem_of_nil|]. cbn. intros [->|Hh]%elem_of_cons; [lia|]. specialize (IH Hh). lia. Qed.

Lemma visit_guard depth b : (1 <= remainingNodes b)%Z -> (0 < remainingBytes b)%Z -> (depth <= 8)%nat ->
  (remainingNodes b - 1 <? 0)%Z || (remainingBytes b <=? 0)%Z || (8 <? depth)%nat = false.
Proof.
  intros H1 H2 H3. rewrite (proj2 (Z.ltb_ge _ _)) by lia. rewrite (proj2 (Z.leb_gt _ _)) by lia. by rewrite (proj2 (Nat.ltb_ge _ _)) by lia.
Qed.

(** A visit that no budget stops *)
Lemma visit_open v depth b : (1 <= remainingNodes b)%Z -> (0 < remainingBytes b)%Z -> (depth <= 8)%nat ->
  visit v depth b = match v with
  | JStr s =>
      let r := clean_text s (Nat.min OBSERVABILITY_LINE_BYTES (Z.to_nat (remainingBytes (spend b 1 0)))) in
      (JStr (unchars r), spend (spend b 1 0) 0 (Z.of_nat (byteLength r)))
  | JNull | JUndef => (JNull, spend b 1 0)
  | JNum (NNaN | NInf _) => (JNull, spend b 1 0)
  | JNum _ | JBool _ => (v, spend b 1 0)
  | JArr l => let '(ys, b') := visit_items (fun x b => visit x (S depth) b) 1000 l (spend b 1 0) in (JArr ys, b')
  | JObj fs =>
      let '(ys, b') := visit_entries (fun x b => visit x (S depth) b) 64 fs (spend b 1 0) in
      (JObj (foldl (fun m kv => map_set kv.1 kv.2 m) [] ys), b')
  end.
Proof.
  intros H1 H2 H3. assert (mkBudget (remainingNodes b - 1) (remainingBytes b) = spend b 1 0) as Eb by (unfold spend; f_equal; lia).
  destruct v; cbn [visit]; rewrite Eb; change (remainingNodes (spend b 1 0)) with (remainingNodes b - 1)%Z;
    replace (remainingBytes (spend b 1 0)) with (remainingBytes b) by (unfold spend; cbn [remainingBytes]; lia); rewrite visit_guard by done; try reflexivity.
  cbv zeta. f_equal. unfold spend. cbn [remainingNodes remainingBytes]. f_equal; lia.
Qed.

Lemma visit_text s depth b :
  let line := (sanitizeObservationLine (chars s) initial_redaction).1 in
  (depth <= 8)%nat -> (1 <= remainingNodes b)%Z -> (Z.of_nat (byteLength line) < remainingBytes b)%Z ->
  visit (JStr s) depth b = (JStr (unchars line), spend b 1 (Z.of_nat (byteLength line))).
Proof.
  intros line Hd Hn Hb. subst line. rewrite visit_open by lia. cbv zeta.
  pose proof (sanitized_line_bound (chars s) initial_redaction) as Hline.
  rewrite clean_text_whole by (unfold spend; cbn [remainingBytes]; lia). by rewrite spend_spend, Z.add_0_l.
Qed.

Lemma text_costs s :
  nodes_of (JStr s) = 1%Z /\ bytes_of (JStr s) = Z.of_nat (byteLength (sanitizeObservationLine (chars s) initial_redaction).1)
  /\ redacted (JStr s) = JStr (unchars (sanitizeObservationLine (chars s) initial_redaction).1).
Proof. split_and!; reflexivity. Qed.

Lemma visit_text_exact s depth : (depth <= 8)%nat -> visits_exactly (fun x b => visit x depth b) (JStr s).
Proof. intros Hd b. destruct (text_costs s) as (-> & -> & ->). exact (visit_text s depth b Hd). Qed.

Lemma visit_array_exact l depth : (depth <= 8)%nat -> Forall (visits_exactly (fun x b => visit x (S depth) b)) l ->
  visits_exactly (fun x b => visit x depth b) (JArr l).
Proof.
  intros Hd Hl b. pose proof (costs_nonneg (JArr l)) as Hc.
  change (nodes_of (JArr l)) with (1 + sum_of (take (Z.to_nat 1000) (map nodes_of l)))%Z in *.
  change (bytes_of (JArr l)) with (sum_of (take (Z.to_nat 1000) (map bytes_of l))) in *.
  change (redacted (JArr l)) with (JArr (take (Z.to_nat 1000) (map redacted l))). intros Hn Hb.
  rewrite visit_open by lia. rewrite visit_items_exact; [|done|unfold spend; cbn [remainingNodes]; lia|unfold spend; cbn [remainingBytes]; lia].
  by rewrite spend_spend, Z.add_0_l.
Qed.

Lemma visit_object_exact fs depth : (depth <= 8)%nat -> Forall (fun kv => visits_exactly (fun x b => visit x (S depth) b) kv.2) fs ->
  visits_exactly (fun x b => visit x depth b) (JObj fs).
Proof.
  intros Hd Hl b. pose proof (costs_nonneg (JObj fs)) as Hc.
  change (nodes_of (JObj fs)) with (1 + sum_of (take (Z.to_nat 64) (map (entry_cost nodes_of) fs)))%Z in *.
  change (bytes_of (JObj fs)) with (sum_of (take (Z.to_nat 64) (map (entry_cost bytes_of) fs))) in *.
  change (redacted (JObj fs)) with (JObj (foldl (fun m kv => map_set kv.1 kv.2 m) [] (take (Z.to_nat 64) (map redacted_entry fs)))). intros Hn Hb.
  rewrite visit_open by lia. rewrite visit_entries_exact; [|done|unfold spend; cbn [remainingNodes]; lia|unfold spend; cbn [remainingBytes]; lia].
  by rewrite spend_spend, Z.add_0_l.
Qed.

Lemma visit_exact v : forall depth, (depth + height v <= 8)%nat -> visits_exactly (fun x b => visit x depth b) v.
Proof.
  induction v as [| |bb|n|s|l IHl|fs IHf] using jsval_nested_ind; intros depth Hd; cbn [height] in Hd.
  1-4: intros b Hn Hb; cbn [nodes_of bytes_of redacted] in *; rewrite visit_open by lia; try reflexivity.
  - by destruct n.
  - apply visit_text_exact. lia.
  - apply visit_array_exact; [lia|]. rewrite Forall_forall in *. intros x Hx. apply IHl; [done|].
    pose proof (height_child (height x) (map height l) ltac:(by apply (list_elem_of_fmap_2 height))). lia.
  - apply visit_object_exact; [lia|]. rewrite Forall_forall in *. intros [k x] Hx. apply (IHf (k, x) Hx).
    set (heights := map _ fs) in Hd. assert (height x ∈ heights) as Hh by (subst heights; apply list_elem_of_fmap; by exists (k, x)).
    apply height_child in Hh. cbn [snd]. lia.
Qed.


(** However long the line and whatever the state, at most 16384 bytes of
    it are kept. *)
Theorem sanitized_line_bounded value state :
  (byteLength (sanitizeObservationLine value state).1 <= OBSERVABILITY_LINE_BYTES)%nat.
Proof. apply sanitized_line_bound. Qed.
