(* ===== verification/DatabaseGuard.v ===== *)
(** * The database console guard ([packages/core/src/security.ts])

    Which statements count as read-only and who may run what:
    [stripLeadingSqlComments], [isReadOnlySqlitePragma],
    [isReadOnlyDatabaseQuery] and [guardDatabaseQuery]. *)

From S2P Require Import Prelude JsString JsVal Rbac Secrets.

(** ** Leading comments *)

Definition trimStart (l : list ascii) : list ascii := drop_while is_space l.

(** The text after the first line feed, or nothing. *)
Fixpoint after_newline (l : list ascii) : list ascii :=
  match l with [] => [] | c :: l' => if (code c =? 10)%N then l' else after_newline l' end.

(** [.replace(/^\s*--[^\n]*(?:\n|$)/, '')] *)
Definition drop_line_comment (l : list ascii) : list ascii :=
  let t := trimStart l in
  if prefixb (chars "--") t then after_newline t else l.

(** The text after the first [*/]. *)
Fixpoint after_block_end (l : list ascii) : option (list ascii) :=
  if prefixb (chars "*/") l then Some (drop 2 l)
  else match l with [] => None | _ :: l' => after_block_end l' end.

(** [.replace(/^\s*\/\*[\s\S]*?\*\//, '')] *)
Definition drop_block_comment (l : list ascii) : list ascii :=
  let t := trimStart l in
  if prefixb (chars "/*") t then match after_block_end (drop 2 t) with Some r => r | None => l end else l.

(** A round that changes the text shortens it, so its length is enough fuel. *)
Fixpoint strip_comments (fuel : nat) (text : list ascii) : list ascii :=
  match fuel with
  | O => text
  | S n => let next := drop_block_comment (drop_line_comment text) in
           if bool_decide (next = text) then text else strip_comments n (trimStart next)
  end.

Definition stripLeadingSqlComments (value : list ascii) : list ascii := strip_comments (S (length value)) value.

(** ** Read-only statements *)

Definition word_at_front (w : string) (l : list ascii) : bool :=
  prefixb (chars w) l
  && match drop (length (chars w)) l with c :: _ => negb (is_word c) | [] => true end.

(** [.replace(/;+\s*$/, '').trim()] *)
Definition drop_final_semicolons (l : list ascii) : list ascii :=
  strip_chars is_space (rev (drop_while (fun c => (code c =? 59)%N) (drop_while is_space (rev l)))).

(** [FOR\s+UPDATE], [INTO\s+(?:OUTFILE|DUMPFILE)?], [COPY] or [DO], then a word
    boundary, at the start of the text.  After [INTO] and its spaces the
    boundary holds exactly when a word character follows. *)
Definition write_clause_here (l : list ascii) : bool :=
  (if prefixb (chars "FOR") l
   then let '(sp, rest) := span is_space (drop 3 l) in bool_decide (sp <> []) && word_at_front "UPDATE" rest
   else false)
  || (if prefixb (chars "INTO") l
      then let '(sp, rest) := span is_space (drop 4 l) in
           bool_decide (sp <> []) && match rest with c :: _ => is_word c | [] => false end
      else false)
  || word_at_front "COPY" l || word_at_front "DO" l.

(** [/\b(...)\b/.test(text)] *)
Fixpoint has_write_clause (after_word : bool) (l : list ascii) : bool :=
  (negb after_word && write_clause_here l)
  || match l with [] => false | c :: l' => has_write_clause (is_word c) l' end.

Definition SQLITE_INSPECTION_PRAGMAS : list string :=
  ["TABLE_INFO"; "TABLE_XINFO"; "TABLE_LIST"; "INDEX_INFO"; "INDEX_XINFO"; "INDEX_LIST";
   "FOREIGN_KEY_LIST"; "FOREIGN_KEY_CHECK"; "INTEGRITY_CHECK"; "QUICK_CHECK"].
Definition SQLITE_READ_ONLY_PRAGMA_VALUES : list string :=
  ["APPLICATION_ID"; "COLLATION_LIST"; "COMPILE_OPTIONS"; "DATA_VERSION"; "DATABASE_LIST";
   "ENCODING"; "FOREIGN_KEYS"; "FREELIST_COUNT"; "FUNCTION_LIST"; "MODULE_LIST";
   "PAGE_COUNT"; "PRAGMA_LIST"; "QUERY_ONLY"; "SCHEMA_VERSION"; "USER_VERSION"].

Definition is_ident_start (c : ascii) : bool := is_upper c || (code c =? 95)%N.
Definition is_ident_char (c : ascii) : bool := is_upper c || is_digit c || (code c =? 95)%N.

Definition ident_here (l : list ascii) : option (string * list ascii) :=
  match l with
  | c :: _ => if is_ident_start c then let '(a, b) := span is_ident_char l in Some (unchars a, b) else None
  | [] => None
  end.

(** What may follow the pragma name: nothing, or a parenthesized argument;
    [Some true] is the second. *)
Definition pragma_argument (l : list ascii) : option bool :=
  match trimStart l with
  | [] => Some false
  | "("%char :: r => match rev r with ")"%char :: _ => Some true | _ => None end
  | _ => None
  end.

(** [/^PRAGMA\s+(?:[A-Z_][A-Z0-9_]*\s*\.\s* )?([A-Z_][A-Z0-9_]* )\s*(\([\s\S]*\))?$/]:
    the name and whether an argument is present. *)
Definition pragma_match (query : list ascii) : option (string * bool) :=
  if negb (prefixb (chars "PRAGMA") query) then None else
  let '(sp, rest) := span is_space (drop 6 query) in
  if bool_decide (sp = []) then None else
  match ident_here rest with
  | None => None
  | Some (first, r1) =>
      match trimStart r1 with
      | "."%char :: r2 =>
          match ident_here (trimStart r2) with
          | None => None
          | Some (name, r3) => (fun arg => (name, arg)) <$> pragma_argument r3
          end
      | _ => (fun arg => (first, arg)) <$> pragma_argument r1
      end
  end.

Definition isReadOnlySqlitePragma (query : list ascii) : bool :=
  match pragma_match query with
  | None => false
  | Some (name, argument) =>
      bool_decide (name ∈ SQLITE_INSPECTION_PRAGMAS)
      || (negb argument && bool_decide (name ∈ SQLITE_READ_ONLY_PRAGMA_VALUES))
  end.

(** [.replace(/\s+/g, ' ').toUpperCase()] *)
Definition normalize_sql (text : list ascii) : list ascii :=
  upper_char <$> collapse_runs is_space " "%char false text.

Definition isReadOnlyDatabaseQuery (query : string) : bool :=
  let text := drop_final_semicolons (stripLeadingSqlComments (strip_chars is_space (chars query))) in
  if bool_decide (text = []) || infixb [";"%char] text then false else
  let normalized := normalize_sql text in
  if word_at_front "SELECT" normalized then negb (has_write_clause false normalized)
  else if word_at_front "SHOW" normalized || word_at_front "DESCRIBE" normalized then true
  else if prefixb (chars "EXPLAIN") normalized
          && (let '(sp, rest) := span is_space (drop 7 normalized) in
              bool_decide (sp <> []) && word_at_front "SELECT" rest) then true
  else if word_at_front "PRAGMA" normalized then isReadOnlySqlitePragma normalized
  else false.

(** ** The guard *)

Record GuardResult := mkGuard { g_allowed : bool; g_reason : string; g_destructive : bool; g_readOnly : option bool }.

Definition guardDatabaseQuery (query : string) (confirmed : bool) (role : jsval) : GuardResult :=
  let text := trim query in
  let readOnly := isReadOnlyDatabaseQuery text in
  let destructive := negb readOnly in
  if str_empty text then mkGuard false "query is required" false (Some false)
  else if readOnly && negb (can role "db:data:read") then
    mkGuard false ("role " +:+ js_String role +:+ " requires db:data:read permission for read-only queries")
      destructive (Some readOnly)
  else if destructive && negb (can role "db:query:write") then
    mkGuard false ("role " +:+ js_String role +:+ " requires db:query:write permission for destructive queries")
      destructive (Some readOnly)
  else if destructive && negb confirmed then
    mkGuard false "destructive query requires explicit confirmation" destructive None
  else mkGuard true "query accepted" destructive (Some readOnly).

Example read_only_examples :
  map isReadOnlyDatabaseQuery
    ["SELECT 1"; "  -- note
 /* x */ select * from t ;; "; "select 1; drop table t"; "SELECT * FROM t FOR   UPDATE"; "SELECT a INTO b FROM t";
     "explain select 1"; "EXPLAIN ANALYZE SELECT 1"; "PRAGMA main.table_info(t)"; "PRAGMA user_version";
     "PRAGMA user_version(3)"; "PRAGMA user_version = 3"; "DELETE FROM t"; "SELECTED"; "show tables"]
  = [true; true; false; false; false; true; false; true; true; false; false; false; false; true].
Proof. vm_compute. reflexivity. Qed.

(** ** Properties *)

(** The statement kinds that are accepted as read-only, after normalization. *)
Definition read_only_shape (l : list ascii) : Prop :=
  (word_at_front "SELECT" l = true /\ has_write_clause false l = false)
  \/ word_at_front "SHOW" l = true \/ word_at_front "DESCRIBE" l = true
  \/ (exists sp rest, l = chars "EXPLAIN" ++ sp ++ rest /\ sp <> [] /\ word_at_front "SELECT" rest = true)
  \/ (exists name arg, pragma_match l = Some (name, arg)
        /\ (name ∈ SQLITE_INSPECTION_PRAGMAS \/ (arg = false /\ name ∈ SQLITE_READ_ONLY_PRAGMA_VALUES))).

Lemma span_app {A} (p : A -> bool) l : l = (span p l).1 ++ (span p l).2.
Proof. induction l as [|x l IH]; cbn; [done|]. destruct (p x); [|done]. destruct (span p l). cbn in *. by rewrite <- IH. Qed.

Lemma read_only_sound query :
  isReadOnlyDatabaseQuery query = true ->
  exists text, text = drop_final_semicolons (stripLeadingSqlComments (strip_chars is_space (chars query)))
    /\ text <> [] /\ ";"%char ∉ text /\ read_only_shape (normalize_sql text).
Proof.
  unfold isReadOnlyDatabaseQuery. set (text := drop_final_semicolons _). cbv zeta.
  destruct (bool_decide_reflect (text = [])) as [|Hne]; [done|].
  destruct (infixb [";"%char] text) eqn:Es; [done|]. cbn [orb]. intros H. exists text. split_and!; [done|done| |].
  { intros Hin. apply not_true_iff_false in Es. apply Es, infixb_spec.
    apply list_elem_of_split in Hin as (a & b & Hab). exists a, b. by rewrite Hab. }
  unfold read_only_shape. destruct (word_at_front "SELECT" (normalize_sql text)) eqn:E1.
  { left. split; [done|]. by apply negb_true_iff. }
  destruct (word_at_front "SHOW" (normalize_sql text)) eqn:E2; [by right; left|].
  destruct (word_at_front "DESCRIBE" (normalize_sql text)) eqn:E3; [by right; right; left|]. cbn [orb] in H.
  destruct (prefixb (chars "EXPLAIN") (normalize_sql text)) eqn:E4; cbn [andb] in H.
  - pose proof (span_app is_space (drop 7 (normalize_sql text))) as Hs.
    destruct (span is_space (drop 7 (normalize_sql text))) as [sp rest]. cbn [fst snd] in Hs.
    destruct (bool_decide_reflect (sp <> [])) as [Hsp|]; cbn [andb] in H.
    + destruct (word_at_front "SELECT" rest) eqn:E5.
      * right; right; right; left. exists sp, rest. split_and!; [|done|done].
        apply prefixb_spec in E4 as [k Hk]. rewrite Hk in Hs |- *. rewrite <- Hs. reflexivity.
      * apply prefixb_spec in E4 as [k Hk]. rewrite Hk in H. done.
    + apply prefixb_spec in E4 as [k Hk]. rewrite Hk in H. done.
  - destruct (word_at_front "PRAGMA" (normalize_sql text)); [|done].
    right; right; right; right. unfold isReadOnlySqlitePragma in H.
    destruct (pragma_match (normalize_sql text)) as [[name arg]|]; [|done]. exists name, arg. split; [done|].
    apply orb_true_iff in H as [H|H]; [left; by apply bool_decide_eq_true in H|right].
    apply andb_true_iff in H as [Ha Hn]. split; [by apply negb_true_iff|by apply bool_decide_eq_true in Hn].
Qed.

(** The guard lets a query run only in two cases: it is a single
    statement of a read-only kind and the role may read data, or the role may
    write and the query was confirmed; a query it reports as read-only is
    always of the first kind. *)
Theorem guard_sound query confirmed role :
  let g := guardDatabaseQuery query confirmed role in
  (g_allowed g = true ->
   (g_readOnly g = Some true /\ can role "db:data:read" = true)
   \/ (g_readOnly g = Some false /\ g_destructive g = true /\ can role "db:query:write" = true /\ confirmed = true))
  /\ (g_readOnly g = Some true ->
      exists text, text = drop_final_semicolons (stripLeadingSqlComments (strip_chars is_space (chars (trim query))))
        /\ text <> [] /\ ";"%char ∉ text /\ read_only_shape (normalize_sql text)).
Proof.
  intros g. unfold g, guardDatabaseQuery. cbv zeta.
  destruct (str_empty (trim query)); [split; [done|by intros [=]]|].
  destruct (isReadOnlyDatabaseQuery (trim query)) eqn:Er; cbn [andb negb].
  - pose proof (read_only_sound _ Er). destruct (can role "db:data:read") eqn:Ec; cbn; auto.
  - destruct (can role "db:query:write") eqn:Ew; cbn; [|split; [done|by intros [=]]].
    destruct confirmed; cbn; [|split; [done|by intros [=]]]. split; [by auto 10|by intros [=]].
Qed.

(** The fuel of [stripLeadingSqlComments] is enough: what remains starts with
    no comment that could be dropped. *)
Lemma after_newline_length l : (length (after_newline l) <= length l)%nat.
Proof. induction l as [|c l IH]; cbn; [lia|]. destruct (_ =? _)%N; cbn; lia. Qed.

Lemma trimStart_length l : (length (trimStart l) <= length l)%nat.
Proof. unfold trimStart. induction l as [|c l IH]; cbn; [lia|]. destruct (is_space c); cbn; lia. Qed.

Lemma after_block_end_length l r : after_block_end l = Some r -> (length r <= length l)%nat.
Proof.
  revert r. induction l as [|c l IH]; intros r; cbn [after_block_end].
  - destruct (prefixb _ _) eqn:E; [|done]. intros [= <-]. cbn. lia.
  - destruct (prefixb _ _) eqn:E; [intros [= <-]; change (length (drop 2 (c :: l)) <= length (c :: l))%nat; rewrite length_drop; lia|]. intros H. specialize (IH _ H). cbn. lia.
Qed.

Lemma drop_line_comment_shorter l : drop_line_comment l <> l -> (length (drop_line_comment l) < length l)%nat.
Proof.
  unfold drop_line_comment. destruct (prefixb (chars "--") (trimStart l)) eqn:E; [intros _|done].
  apply prefixb_spec in E as [k Hk]. pose proof (trimStart_length l) as Hl. rewrite Hk in Hl. rewrite Hk.
  change (after_newline (chars "--" ++ k)) with (after_newline k). rewrite length_app in Hl. cbn [chars length] in Hl.
  pose proof (after_newline_length k). change (length (chars "--")) with 2%nat in Hl. lia.
Qed.

Lemma drop_block_comment_shorter l : drop_block_comment l <> l -> (length (drop_block_comment l) < length l)%nat.
Proof.
  unfold drop_block_comment. destruct (prefixb (chars "/*") (trimStart l)) eqn:E; [|done].
  destruct (after_block_end (drop 2 (trimStart l))) as [r|] eqn:Er; [intros _|done].
  apply prefixb_spec in E as [k Hk]. pose proof (trimStart_length l) as Hl. rewrite Hk in Hl, Er.
  change (drop 2 (chars "/*" ++ k)) with k in Er. rewrite length_app in Hl. change (length (chars "/*")) with 2%nat in Hl.
  apply after_block_end_length in Er. lia.
Qed.

Lemma comment_round_shorter l :
  let next := drop_block_comment (drop_line_comment l) in next <> l -> (length next < length l)%nat.
Proof.
  intros next Hne. unfold next in *. destruct (decide (drop_line_comment l = l)) as [E|E].
  - rewrite E in *. by apply drop_block_comment_shorter.
  - apply drop_line_comment_shorter in E as H1.
    destruct (decide (drop_block_comment (drop_line_comment l) = drop_line_comment l)) as [E2|E2]; [by rewrite E2|].
    apply drop_block_comment_shorter in E2. lia.
Qed.

Lemma strip_comments_fixed fuel : forall l, (length l < fuel)%nat ->
  let r := strip_comments fuel l in drop_block_comment (drop_line_comment r) = r.
Proof.
  induction fuel as [|n IH]; intros l Hl; [lia|]. cbn [strip_comments].
  destruct (bool_decide_reflect (drop_block_comment (drop_line_comment l) = l)) as [E|E]; [exact E|].
  apply IH. pose proof (comment_round_shorter l E). pose proof (trimStart_length (drop_block_comment (drop_line_comment l))). lia.
Qed.

(** Comment stripping reaches a fixed point: no leading line comment or
    closed block comment is left in front of the statement. *)
Theorem comments_stripped value :
  let r := stripLeadingSqlComments value in drop_block_comment (drop_line_comment r) = r.
Proof. apply strip_comments_fixed. lia. Qed.

(** The write clauses are recognized only before plain white space: a
    [SELECT ... INTO] or [FOR UPDATE] written with a comment between the words
    is classified as read-only, and the guard lets a role that may only read
    run it without confirmation. *)
Theorem commented_clause_passes_as_read :
  isReadOnlyDatabaseQuery "SELECT * INTO/**/copied FROM users" = true
  /\ isReadOnlyDatabaseQuery "SELECT * FROM users FOR/**/UPDATE" = true
  /\ can (JStr "maintainer") "db:query:write" = false
  /\ g_allowed (guardDatabaseQuery "SELECT * INTO/**/copied FROM users" false (JStr "maintainer")) = true.
Proof. vm_compute. done. Qed.
