(* ===== verification/Security.v ===== *)
(** * Tenant workload and input security ([packages/core/src/security.ts])

    What a tenant may ask of a container, which authentication mode the
    environment selects, which fields of an API input survive, which Git URLs
    are accepted and who may report deployment status. *)

From S2P Require Import Prelude JsString JsMap JsVal Secrets Redaction Accounts.

(** ** Container security *)

(** [v === true] and the like *)
Definition is_true (v : jsval) : bool := match v with JBool true => true | _ => false end.
Definition is_false (v : jsval) : bool := match v with JBool false => true | _ => false end.
Definition is_str (s : string) (v : jsval) : bool := match v with JStr t => bool_decide (t = s) | _ => false end.

Record Finding := mkFinding { f_level : string; f_code : string }.
#[export] Instance Finding_eq_dec : EqDecision Finding.
Proof. solve_decision. Defined.

Definition block (code_ : string) : Finding := mkFinding "block" code_.
Definition when (b : bool) (f : Finding) : list Finding := if b then [f] else [].

(** [value || []] of an array field *)
Definition items (v : jsval) : list jsval := match v with JArr l => l | _ => [] end.

(** [service.securityContext || {}] *)
Definition contextOf (service : jsval) : jsval := js_or (field "securityContext" service) (JObj []).

(** The findings without their messages; [volumes] and [volumeMounts] are
    arrays of objects. *)
Definition security_findings (service : jsval) : list Finding :=
  let context := contextOf service in
  when (is_true (field "privileged" service) || is_true (field "privileged" (field "securityContext" service)))
    (block "NO_PRIVILEGED")
  ++ when (is_true (field "hostNetwork" service)) (block "NO_HOST_NETWORK")
  ++ when (is_true (field "hostPID" service)) (block "NO_HOST_PID")
  ++ when (is_true (field "hostIPC" service)) (block "NO_HOST_IPC")
  ++ when (is_true (field "automountServiceAccountToken" service)) (block "NO_SERVICE_ACCOUNT_TOKEN")
  ++ concat (map (fun volume => when (truthy (field "hostPath" volume)) (block "NO_HOST_PATH"))
               (items (field "volumes" service)))
  ++ concat (map (fun mount => when (negb (is_true (field "readOnly" mount)) && negb (is_str "/tmp" (field "mountPath" mount)))
                                 (block "WRITABLE_PATH_NOT_ALLOWED"))
               (items (field "volumeMounts" service)))
  ++ (let limits := field "limits" (field "resources" service) in
      when (negb (truthy (field "cpu" limits)) || negb (truthy (field "memory" limits)))
        (mkFinding "warn" "RESOURCE_LIMITS_REQUIRED"))
  ++ when (is_true (field "runAsRoot" service)
           || match field "runAsUser" context with JNum (NInt 0) => true | _ => false end
           || is_false (field "runAsNonRoot" context)) (block "NO_ROOT")
  ++ when (is_true (field "allowPrivilegeEscalation" context)) (block "NO_PRIVILEGE_ESCALATION")
  ++ when (is_false (field "readOnlyRootFilesystem" context)) (block "READ_ONLY_ROOT_REQUIRED")
  ++ when (match field "add" (field "capabilities" context) with JArr (_ :: _) => true | _ => false end)
       (block "NO_CAPABILITY_ADD")
  ++ when (truthy (field "seccompProfile" context)
           && negb (is_str "RuntimeDefault" (field "type" (field "seccompProfile" context))))
       (block "RUNTIME_DEFAULT_SECCOMP_REQUIRED").

Record SecurityReport := { sr_ok : bool; sr_findings : list Finding }.

Definition validateServiceSecurity (service : jsval) : SecurityReport :=
  let findings := security_findings service in
  {| sr_ok := negb (existsb (fun f => bool_decide (f_level f = "block")) findings); sr_findings := findings |}.

Definition DEFAULT_RUN_AS_USER : Z := 10001.

Definition secureContainerDefaults (service : jsval) : jsval :=
  let requested := to_number (js_nullish (field "runAsUser" service) (field "runAsUser" (field "securityContext" service))) in
  let runAsUser := match requested with NInt z => if (0 <? z)%Z then z else DEFAULT_RUN_AS_USER | _ => DEFAULT_RUN_AS_USER end in
  JObj [("runAsNonRoot", JBool true); ("runAsUser", JNum (NInt runAsUser)); ("privileged", JBool false);
        ("allowPrivilegeEscalation", JBool false); ("readOnlyRootFilesystem", JBool true);
        ("capabilities", JObj [("drop", JArr [JStr "ALL"])]);
        ("seccompProfile", JObj [("type", JStr "RuntimeDefault")])].

(** ** Authentication mode *)

Definition CONFIRM_DISABLED_AUTH : string := "I_UNDERSTAND_THIS_GRANTS_GLOBAL_OWNER".

Definition unsafeDisabledAuthAllowed (env : jsval) : bool :=
  if negb (is_str "1" (field "RAIBITSERVER_AUTH_DISABLED" env)) then false
  else if is_str "production" (field "NODE_ENV" env) then false
  else is_str CONFIRM_DISABLED_AUTH (field "RAIBITSERVER_AUTH_DISABLED_CONFIRM" env).

Definition safeAuthModeFromEnv (env : jsval) : string :=
  if unsafeDisabledAuthAllowed env then "disabled" else "jwt".

(** ** Input fields *)

Definition SAFE_DEPLOYMENT_CREATE_KEYS : list string :=
  ["serviceId"; "projectId"; "commitHash"; "commitSha"; "imageUrl"; "image"; "imageDigest"; "deploymentType"; "type";
   "branch"; "previewUrl"; "triggerType"; "pullRequestNumber"].
Definition SAFE_DEPLOYMENT_STATUS_KEYS : list string :=
  ["status"; "imageUrl"; "image"; "imageDigest"; "buildStartedAt"; "buildFinishedAt"; "deployedAt"; "finishedAt";
   "errorCode"; "errorMessage"; "previewUrl"; "eventType"; "message"; "metadata"].
Definition GITHUB_BINDING_KEYS : list string :=
  ["githubIntegrationId"; "githubInstallationId"; "githubRepositoryId"; "githubRepository"; "githubRepositoryPrivate";
   "githubRepositoryVisibility"].

(** An input object, with the entries in order and no key twice. *)
Definition pickKnown (input : list (string * jsval)) (allowed : list string) : list (string * jsval) :=
  omap (fun kv => if bool_decide (kv.1 ∈ allowed) then Some (kv.1, sanitizeLogRecord kv.2) else None) input.

(** [if (output.deploymentType === undefined && output.type !== undefined) output.deploymentType = output.type] *)
Definition with_deployment_type (output : list (string * jsval)) : list (string * jsval) :=
  match obj_get "deploymentType" output, obj_get "type" output with
  | JUndef, JUndef => output
  | JUndef, t => map_set "deploymentType" t output
  | _, _ => output
  end.

Definition sanitizeTenantDeploymentCreate (input : list (string * jsval)) : list (string * jsval) :=
  foldl (fun o k => map_delete k o) (with_deployment_type (pickKnown input SAFE_DEPLOYMENT_CREATE_KEYS)) ["type"; "id"; "status"; "workflowJob"].

Definition sanitizeDeploymentStatusInput (input : list (string * jsval)) : list (string * jsval) :=
  map_delete "workflowJob" (pickKnown input SAFE_DEPLOYMENT_STATUS_KEYS).

Definition assertNoTenantGitHubBinding (input : jsval) : result unit :=
  let candidates := List.filter (fun v => match v with JObj _ => true | _ => false end) [input; field "desiredSpec" input] in
  throw_if (existsb (fun candidate => existsb (fun key => bool_decide (key ∈ obj_keys candidate)) GITHUB_BINDING_KEYS) candidates)
    (badRequest "GitHub repository bindings must be created through the verified attach or import flow").

Definition is_control (c : ascii) : bool := (code c <=? 31)%N || (code c =? 127)%N.

(** An entry of [command] or [args] that is refused. *)
Definition bad_argument (entry : jsval) : bool :=
  match entry with
  | JStr s => str_empty (trim s) || (4096 <? str_length s)%Z || existsb is_control (chars s)
  | _ => true
  end.

Definition sanitizeRuntimeCommandFields (output : list (string * jsval)) : list (string * jsval) :=
  foldl (fun o key =>
    if negb (map_has key o) then o else
    match obj_get key o with
    | JArr value =>
        if (length value =? 0)%nat || (64 <? length value)%nat || existsb bad_argument value
        then map_delete key o else map_set key (JArr value) o
    | _ => map_delete key o
    end) output ["command"; "args"].

Definition splitEnvForSecret (environment : list (string * jsval)) : list (string * string) * list (string * string) :=
  foldl (fun '(plain, secret) '(key, value) =>
    if isSecretKey key then (plain, map_set key (js_String value) secret)
    else (map_set key (js_String value) plain, secret)) ([], []) environment.

(** ** Deployment status reports *)

Definition assertSystemDeploymentActor (subject : jsval) : result bool :=
  if is_str "disabled" (field "authMode" subject) || is_true (field "system" (field "claims" subject))
     || is_str "system" (field "role" subject)
  then Ok true
  else Throw (forbidden "deployment status updates require a builder/system actor").

(** ** Git sources *)

Definition tenantLocalSourceAllowed (env : jsval) : bool :=
  is_str "1" (field "RAIBITSERVER_ALLOW_LOCAL_SOURCE" env) || negb (is_str "production" (field "NODE_ENV" env)).

Definition is_slash (c : ascii) : bool := (code c =? 47)%N.
Definition is_backslash (c : ascii) : bool := (code c =? 92)%N.

(** [/^[a-z]:[\\/]/i], [/^\\\\/], [/^file:\/\//i] and the path prefixes *)
Definition isLocalOrFileSource (value : string) : bool :=
  let text := chars (trim value) in
  prefixb (chars "/") text || prefixb (chars "./") text || prefixb (chars "../") text
  || (at_char is_letter text 0 && char_is ":"%char text 1 && at_char (fun c => is_slash c || is_backslash c) text 2)
  || (at_char is_backslash text 0 && at_char is_backslash text 1)
  || ci_prefix "file://" text.

Definition is_scheme_char (c : ascii) : bool := is_alnum c || (code c =? 43)%N || (code c =? 46)%N || is_hyphen c.

(** [/^[a-z][a-z0-9+.-]*:\/\/[^/?#\s]*@/i] *)
Definition authority_has_user (value : list ascii) : bool :=
  at_char is_letter value 0
  && let '(_, rest) := span is_scheme_char value in
     prefixb (chars "://") rest
     && existsb (fun c => (code c =? 64)%N)
          (span (fun c => negb (is_slash c || (code c =? 63)%N || (code c =? 35)%N || is_space c)) (drop 3 rest)).1.

(** [/(?:secret|password|passwd|token|private.?key|credential|database.?url|api.?key|access.?key|auth)/i]:
    two words with at most one character between them (not a line terminator). *)
Definition two_words (a b : string) (l : list ascii) : bool :=
  prefixb (chars a) l
  && let rest := drop (length (chars a)) l in
     prefixb (chars b) rest
     || match rest with c :: r => negb ((code c =? 10)%N || (code c =? 13)%N) && prefixb (chars b) r | [] => false end.

Definition isGitCredentialQueryKey (key : string) : bool :=
  search (fun t => existsb (fun w => prefixb (chars w) t) ["secret"; "password"; "passwd"; "token"; "credential"; "auth"]
                   || two_words "private" "key" t || two_words "database" "url" t || two_words "api" "key" t
                   || two_words "access" "key" t) (lower_char <$> chars key).

(** What the code reads of a parsed URL. *)
Record ParsedUrl := mkUrl {
  u_protocol : string; u_username : string; u_password : string; u_hostname : string; u_pathname : string;
  u_queryKeys : list string
}.

Section git_urls.
(** [new URL(value)] ([None] when it throws) and the keys of
    [new URLSearchParams(query)]. *)
Context (parseUrl : string -> option ParsedUrl) (queryKeys : string -> list string).

(** [value.split('#', 1)[0].split('?', 2)[1]] *)
Definition query_part (value : string) : option string :=
  match split_on "#"%char value with
  | before :: _ => match split_on "?"%char before with _ :: query :: _ => Some query | _ => None end
  | [] => None
  end.

Definition hasGitUrlCredentials (value : string) : bool :=
  if authority_has_user (chars value) then true else
  match parseUrl value with
  | Some u => negb (str_empty (u_username u)) || negb (str_empty (u_password u)) || existsb isGitCredentialQueryKey (u_queryKeys u)
  | None => match query_part value with
            | Some query => negb (str_empty query) && existsb isGitCredentialQueryKey (queryKeys query)
            | None => false
            end
  end.

Definition DEFAULT_ALLOWED_GIT_HOSTS : list string := ["github.com"; "gitlab.com"; "bitbucket.org"].

Definition allowed_hosts (env : jsval) : list string :=
  let configured := js_or (field "RAIBITSERVER_ALLOWED_GIT_HOSTS" env) (JStr "") in
  DEFAULT_ALLOWED_GIT_HOSTS
  ++ filter (fun h => h <> "") (map (fun h => toLowerCase (trim h)) (split_on ","%char (js_String configured))).

(** [/^git@([^:]+):[^/\s]+\/[^/\s]+(?:\.git)?$/i]: the host.  The optional
    suffix consists of characters of the class before it. *)
Definition ssh_host (value : list ascii) : option string :=
  if negb (ci_prefix "git@" value) then None else
  let '(host, rest) := span (fun c => negb (code c =? 58)%N) (drop 4 value) in
  if bool_decide (host = []) then None else
  match rest with
  | ":"%char :: path =>
      let segment := fun c => negb (is_slash c || is_space c) in
      let '(owner, r1) := span segment path in
      if bool_decide (owner = []) then None else
      match r1 with
      | c :: r2 => if is_slash c && negb (bool_decide (r2 = [])) && forallb segment r2 then Some (unchars host) else None
      | [] => None
      end
  | _ => None
  end.

(** [/\/[^/]+\/[^/]+/.test(pathname)] *)
Fixpoint two_segments (l : list ascii) : bool :=
  match l with
  | [] => false
  | c :: r =>
      (is_slash c && let '(a, b) := span (fun d => negb (is_slash d)) r in
                     negb (bool_decide (a = [])) && match b with
                                                    | _ :: d :: _ => negb (is_slash d)
                                                    | _ => false
                                                    end)
      || two_segments r
  end.

Definition normalizeTenantGitUrl (repoUrl : string) (env : jsval) : result string :=
  let value := trim repoUrl in
  if str_empty value then Ok value else
  _ ← throw_if (hasGitUrlCredentials value)
        (badRequest "credentialed git URLs are not allowed; pass tokens through integration secrets");
  if isLocalOrFileSource value then
    if tenantLocalSourceAllowed env then Ok value
    else Throw (badRequest "local/file git URLs are not allowed for tenant API requests")
  else
  let hosts := allowed_hosts env in
  match ssh_host (chars value) with
  | Some host =>
      if bool_decide (toLowerCase host ∈ hosts) then Ok value
      else Throw (badRequest ("git host is not allowed: " +:+ toLowerCase host))
  | None =>
      match parseUrl value with
      | None => Throw (badRequest "unsupported git URL")
      | Some parsed =>
          _ ← throw_if (negb (bool_decide (u_protocol parsed = "https:"))) (badRequest "git URLs must use https");
          let host := toLowerCase (u_hostname parsed) in
          _ ← throw_if (negb (bool_decide (host ∈ hosts))) (badRequest ("git host is not allowed: " +:+ host));
          _ ← throw_if (negb (two_segments (chars (u_pathname parsed)))) (badRequest "unsupported git URL");
          mret value
      end
  end.
End git_urls.

(** ** Properties *)

Definition pass_url (protocol host path : string) : option ParsedUrl := Some (mkUrl protocol "" "" host path []).

Example git_urls :
  let run := fun u => normalizeTenantGitUrl (fun _ => pass_url "https:" "github.com" "/org/app") (fun _ => []) u
                        (JObj [("NODE_ENV", JStr "production")]) in
  run " https://github.com/org/app " = Ok "https://github.com/org/app"
  /\ run "git@github.com:org/app.git" = Ok "git@github.com:org/app.git"
  /\ run "git@evil.example:org/app.git" = Throw (badRequest "git host is not allowed: evil.example")
  /\ run "https://user:pw@github.com/org/app" = Throw (badRequest "credentialed git URLs are not allowed; pass tokens through integration secrets")
  /\ run "../secrets" = Throw (badRequest "local/file git URLs are not allowed for tenant API requests").
Proof. vm_compute. done. Qed.

Lemma when_block b c : existsb (fun g => bool_decide (f_level g = "block")) (when b (block c)) = b.
Proof. by destruct b. Qed.

Lemma concat_when_block {A} (p : A -> bool) c l :
  existsb (fun g => bool_decide (f_level g = "block")) (concat (map (fun x => when (p x) (block c)) l)) = existsb p l.
Proof. induction l as [|x l IH]; cbn; [done|]. by rewrite existsb_app, when_block, IH. Qed.

(** A service asks for nothing that is forbidden. *)
Definition unsafe_service (service : jsval) : bool :=
  let context := contextOf service in
  is_true (field "privileged" service) || is_true (field "privileged" (field "securityContext" service))
  || is_true (field "hostNetwork" service) || is_true (field "hostPID" service) || is_true (field "hostIPC" service)
  || is_true (field "automountServiceAccountToken" service)
  || existsb (fun volume => truthy (field "hostPath" volume)) (items (field "volumes" service))
  || existsb (fun mount => negb (is_true (field "readOnly" mount)) && negb (is_str "/tmp" (field "mountPath" mount)))
       (items (field "volumeMounts" service))
  || is_true (field "runAsRoot" service)
  || match field "runAsUser" context with JNum (NInt 0) => true | _ => false end
  || is_false (field "runAsNonRoot" context)
  || is_true (field "allowPrivilegeEscalation" context) || is_false (field "readOnlyRootFilesystem" context)
  || match field "add" (field "capabilities" context) with JArr (_ :: _) => true | _ => false end
  || (truthy (field "seccompProfile" context)
      && negb (is_str "RuntimeDefault" (field "type" (field "seccompProfile" context)))).

(** Validation accepts a service exactly when it asks for no privileged
    container, host namespace, service account token, host path, writable
    mount outside [/tmp], root user, privilege escalation, writable root file
    system, added capability or foreign seccomp profile; missing resource
    limits alone never reject it. *)
Theorem security_validation_exact service :
  sr_ok (validateServiceSecurity service) = negb (unsafe_service service).
Proof.
  unfold validateServiceSecurity, security_findings, unsafe_service. cbn [sr_ok]. f_equal.
  rewrite !existsb_app, !when_block, !concat_when_block.
  set (w := existsb _ (when _ (mkFinding "warn" _))).
  assert (w = false) as -> by (unfold w, when; destruct (_ || _); reflexivity).
  cbn [orb]. rewrite !orb_assoc. reflexivity.
Qed.

(** The container defaults the compiler emits. *)
Lemma secure_defaults_user service :
  exists z, (0 < z)%Z /\ field "runAsUser" (secureContainerDefaults service) = JNum (NInt z).
Proof.
  unfold secureContainerDefaults. eexists. split; [|reflexivity].
  destruct (to_number _) as [z| | |]; try (unfold DEFAULT_RUN_AS_USER; lia).
  destruct (Z.ltb_spec 0 z); [done|unfold DEFAULT_RUN_AS_USER; lia].
Qed.

(** Whatever a service asks for, the container security context built for
    it passes validation, and runs as a user other than root. *)
Theorem secure_defaults_accepted service :
  sr_ok (validateServiceSecurity (JObj [("securityContext", secureContainerDefaults service)])) = true
  /\ exists z, (0 < z)%Z /\ field "runAsUser" (secureContainerDefaults service) = JNum (NInt z).
Proof.
  split; [|apply secure_defaults_user].
  unfold validateServiceSecurity, security_findings, contextOf, secureContainerDefaults. cbv zeta.
  destruct (to_number _) as [[|z|z]| | |]; reflexivity.
Qed.

(** Authentication is disabled exactly when the switch is set, the
    confirmation phrase is given and the environment is not production. *)
Theorem auth_disabled_only_confirmed env :
  safeAuthModeFromEnv env = "disabled" <->
  field "RAIBITSERVER_AUTH_DISABLED" env = JStr "1"
  /\ field "RAIBITSERVER_AUTH_DISABLED_CONFIRM" env = JStr CONFIRM_DISABLED_AUTH
  /\ field "NODE_ENV" env <> JStr "production".
Proof.
  assert (Hs : forall s v, is_str s v = true <-> v = JStr s).
  { intros s [| | | |t| |]; cbn; try (split; [done|congruence]). rewrite bool_decide_eq_true. split; congruence. }
  unfold safeAuthModeFromEnv, unsafeDisabledAuthAllowed. rewrite <- !Hs.
  destruct (is_str "1" (field "RAIBITSERVER_AUTH_DISABLED" env)), (is_str "production" (field "NODE_ENV" env)),
    (is_str CONFIRM_DISABLED_AUTH (field "RAIBITSERVER_AUTH_DISABLED_CONFIRM" env)); cbn; intuition congruence.
Qed.

(** A Git URL is accepted for a tenant only without embedded
    credentials, and, unless it is empty, as a local path where local sources
    are allowed, as an SSH URL of an allowed host, or as an HTTPS URL of an
    allowed host; the accepted text is the input without surrounding space. *)
Theorem git_url_sound parseUrl queryKeys repoUrl env value :
  normalizeTenantGitUrl parseUrl queryKeys repoUrl env = Ok value ->
  value = trim repoUrl
  /\ (value = "" \/ (hasGitUrlCredentials parseUrl queryKeys value = false
      /\ ((isLocalOrFileSource value = true /\ tenantLocalSourceAllowed env = true)
          \/ (exists host, ssh_host (chars value) = Some host /\ toLowerCase host ∈ allowed_hosts env)
          \/ (exists u, parseUrl value = Some u /\ u_protocol u = "https:" /\ toLowerCase (u_hostname u) ∈ allowed_hosts env)))).
Proof.
  unfold normalizeTenantGitUrl. cbv zeta. destruct (str_empty (trim repoUrl)) eqn:Ee.
  { intros [= <-]. split; [done|left]. rewrite str_empty_eq in Ee. by apply bool_decide_eq_true in Ee. }
  rewrite bind_Ok. intros (u & Hcred & H). apply throw_if_Ok in Hcred.
  enough (value = trim repoUrl /\ ((isLocalOrFileSource value = true /\ tenantLocalSourceAllowed env = true)
          \/ (exists host, ssh_host (chars value) = Some host /\ toLowerCase host ∈ allowed_hosts env)
          \/ (exists u, parseUrl value = Some u /\ u_protocol u = "https:" /\ toLowerCase (u_hostname u) ∈ allowed_hosts env)))
    as [-> Hcase] by (split; [done|right; split; [exact Hcred|exact Hcase]]).
  destruct (isLocalOrFileSource (trim repoUrl)) eqn:El.
  { destruct (tenantLocalSourceAllowed env); [|done]. injection H as <-. auto. }
  destruct (ssh_host (chars (trim repoUrl))) as [host|] eqn:Eh.
  { destruct (bool_decide_reflect (toLowerCase host ∈ allowed_hosts env)) as [Hin|]; [|done]. injection H as <-. eauto 10. }
  destruct (parseUrl (trim repoUrl)) as [p|] eqn:Ep; [|done].
  apply bind_Ok in H as (? & H1%throw_if_Ok & H). apply bind_Ok in H as (? & H2%throw_if_Ok & H).
  apply bind_Ok in H as (? & _ & H). injection H as <-.
  apply negb_false_iff, bool_decide_eq_true in H1. apply negb_false_iff, bool_decide_eq_true in H2. eauto 10.
Qed.

Lemma git_url_sound_witness :
  exists host, ssh_host (chars "git@github.com:org/app.git") = Some host /\ toLowerCase host ∈ allowed_hosts (JObj []).
Proof.
  destruct (git_url_sound (fun _ => None) (fun _ => []) "git@github.com:org/app.git" (JObj []) "git@github.com:org/app.git"
              ltac:(vm_compute; reflexivity)) as [_ [H|(_ & [(H & _)|[H|(u & H & _)]])]].
  - discriminate H.
  - vm_compute in H. discriminate H.
  - exact H.
  - discriminate H.
Defined.

(** Membership in the result of [pickKnown]. *)
Lemma pickKnown_keys input allowed k : k ∈ map_keys (pickKnown input allowed) -> k ∈ allowed /\ k ∈ map_keys input.
Proof.
  unfold pickKnown, map_keys. intros ([k' v] & -> & Hin)%list_elem_of_fmap. apply list_elem_of_omap in Hin as ([k0 v0] & Hin & E).
  cbn in *. destruct (bool_decide_reflect (k0 ∈ allowed)); [|done]. injection E as <- <-. split; [done|].
  apply list_elem_of_fmap. by exists (k0, v0).
Qed.

Lemma map_keys_delete_subset {V} k (m : list (string * V)) k' : k' ∈ map_keys (map_delete k m) -> k' ∈ map_keys m /\ k' <> k.
Proof. rewrite map_keys_delete. intros [? ?]%list_elem_of_filter. done. Qed.

(** A tenant can set neither the identifier, the status nor the workflow
    job of a deployment it creates: only listed fields pass, and these four
    never do. *)
Theorem deployment_create_fields input k :
  k ∈ map_keys (sanitizeTenantDeploymentCreate input) ->
  k ∈ SAFE_DEPLOYMENT_CREATE_KEYS /\ k ∉ ["type"; "id"; "status"; "workflowJob"].
Proof.
  unfold sanitizeTenantDeploymentCreate. cbn [foldl]. intros H.
  do 4 (apply map_keys_delete_subset in H as [H ?]). split; [|set_solver].
  assert (Hout : k = "deploymentType" \/ k ∈ map_keys (pickKnown input SAFE_DEPLOYMENT_CREATE_KEYS)).
  { revert H. generalize (pickKnown input SAFE_DEPLOYMENT_CREATE_KEYS). intros picked H. unfold with_deployment_type in H.
    destruct (obj_get "deploymentType" picked), (obj_get "type" picked); auto;
      by apply map_keys_set_subset in H. }
  destruct Hout as [-> |Hout]; [set_solver|]. by apply pickKnown_keys in Hout as [? _].
Qed.

Lemma deployment_create_fields_witness :
  "commitSha" ∈ SAFE_DEPLOYMENT_CREATE_KEYS /\ "commitSha" ∉ ["type"; "id"; "status"; "workflowJob"].
Proof.
  apply (deployment_create_fields [("id", JStr "dep-1"); ("status", JStr "READY"); ("commitSha", JStr "abc")]).
  vm_compute. constructor.
Defined.

(** ** Environment variables *)

Lemma split_env_step env : forall plain secret,
  let '(p, s) := foldl (fun '(plain, secret) '(key, value) =>
    if isSecretKey key then (plain, map_set key (js_String value) secret)
    else (map_set key (js_String value) plain, secret)) (plain, secret) env in
  forall k, (k ∈ map_keys p <-> k ∈ map_keys plain \/ (isSecretKey k = false /\ k ∈ map_keys env))
         /\ (k ∈ map_keys s <-> k ∈ map_keys secret \/ (isSecretKey k = true /\ k ∈ map_keys env)).
Proof.
  induction env as [|[key value] env IH]; intros plain secret; cbn [foldl].
  { intros k. assert (k ∉ map_keys ([] : list (string * jsval))) by apply not_elem_of_nil. tauto. }
  assert (Hset : forall (m : list (string * string)) k, k ∈ map_keys (map_set key (js_String value) m) <-> k = key \/ k ∈ map_keys m).
  { intros m k. destruct (decide (k ∈ map_keys (map_set key (js_String value) m))) as [Hin|Hin].
    - split; [intros; by apply map_keys_set_subset in Hin|done].
    - split; [done|]. intros Hk. destruct Hin. apply dec_stable. intros Hn. apply map_get_None in Hn.
      rewrite map_get_set in Hn. case_decide; [done|]. apply map_get_None in Hn. naive_solver. }
  destruct (isSecretKey key) eqn:Ek;
    [specialize (IH plain (map_set key (js_String value) secret))|specialize (IH (map_set key (js_String value) plain) secret)];
    destruct (foldl _ _ env) as [p s]; intros k; specialize (IH k); rewrite Hset in IH;
    change (map_keys ((key, value) :: env)) with (key :: map_keys env); rewrite elem_of_cons;
    destruct (decide (k = key)) as [-> |]; rewrite ?Ek in *; intuition congruence.
Qed.

(** Splitting an environment loses no variable and puts each on one side:
    the variables whose names look secret go to the secret, the others to the
    plain map. *)
Theorem env_split_partition env k :
  let '(plain, secret) := splitEnvForSecret env in
  (k ∈ map_keys plain <-> isSecretKey k = false /\ k ∈ map_keys env)
  /\ (k ∈ map_keys secret <-> isSecretKey k = true /\ k ∈ map_keys env).
Proof.
  pose proof (split_env_step env [] []) as H. unfold splitEnvForSecret.
  destruct (foldl _ _ env) as [p s]. specialize (H k). assert (k ∉ map_keys ([] : list (string * string))) by apply not_elem_of_nil. tauto.
Qed.
