(* ===== verification/Workflows.v ===== *)
(** * Workflow jobs ([packages/core/src/workflows.ts], [error-spec.ts], and the
    workflow part of [store.ts])

    Jobs wait in a queue, a worker claims the ready job with the earliest
    [runAfter], runs the handler registered for its type and reports success
    or failure; a failure is retried with exponential backoff until the
    attempts are used up.  The queue is an array, or the store whose methods
    wrap that array with an audit log: [JobQueue] is the interface the worker
    loop uses, with the array and the store as instances. *)

From S2P Require Import Prelude JsString JsMap JsVal Ids Lifecycle Secrets Accounts Redaction.
From stdpp Require Import pretty.

Open Scope Z_scope.

Definition BUILD_AND_DEPLOY : string := "build-and-deploy".
(** The types of [WORKFLOW_TYPES] that dedicated workers process. *)
Definition RESERVED_TYPES : list string :=
  ["public-health-observe"; "resource.backup"; "resource.restore"; "github.preview-resolve"; "github.preview-apply"].

Definition QUEUED : string := "queued".
Definition RUNNING : string := "running".
Definition SUCCEEDED : string := "succeeded".
Definition FAILED : string := "failed".
Definition CANCELLED : string := "cancelled".

Definition READY_STATUSES : list string := [QUEUED].

(** ** Infrastructure errors *)

Record ErrorSpec := mkSpec {
  es_code : string; es_area : string; es_severity : string; es_retryable : bool; es_userMessage : string
}.

Definition UNKNOWN_INFRA_ERROR : ErrorSpec :=
  mkSpec "UNKNOWN_INFRA_ERROR" "unknown" "error" false "An unexpected infrastructure error occurred.".

Definition ERROR_CODE_CATALOG : list (string * ErrorSpec) :=
  map (fun spec => (es_code spec, spec))
  [ mkSpec "BUILD_FAILED" "build" "error" true
      "The image build failed. Check build logs, Dockerfile, and configured build commands.";
    mkSpec "ROLLOUT_FAILED" "orchestrator" "error" true
      "The Kubernetes rollout failed. Check runtime logs, image pull status, probes, and resource limits.";
    mkSpec "KUBERNETES_RECONCILE_FAILED" "orchestrator" "error" true
      "The orchestrator could not reconcile the desired Kubernetes state.";
    mkSpec "IMAGE_PULL_BACKOFF" "orchestrator" "error" true
      "Kubernetes could not pull the container image. Verify registry credentials, image name, and tag/digest.";
    mkSpec "INSUFFICIENT_QUOTA" "quota" "error" false
      "The requested operation exceeds the current organization or user quota.";
    mkSpec "PROVIDER_CREDENTIAL_FAILED" "provisioner" "error" true
      "The resource provider could not create or store credentials for the managed resource.";
    mkSpec "DEPLOYMENT_CANCELLED" "deployment" "info" false "Deployment cancellation was requested.";
    mkSpec "WORKFLOW_HANDLER_MISSING" "workflow" "error" false
      "No worker handler is registered for this workflow type.";
    UNKNOWN_INFRA_ERROR ].

(** The comparisons that follow in the source return the code they compare with. *)
Definition normalizeErrorCode (code_ : string) : string :=
  let upper := toUpperCase (trim code_) in
  let normalized := if startsWith upper "ERR_" then unchars (drop 4 (chars upper)) else upper in
  if str_empty normalized then "UNKNOWN_INFRA_ERROR"
  else if includes normalized "IMAGE_PULL" || includes normalized "IMAGEPULLBACKOFF" then "IMAGE_PULL_BACKOFF"
  else normalized.

Definition errorSpecForCode (code_ : string) : ErrorSpec :=
  match map_get (normalizeErrorCode code_) ERROR_CODE_CATALOG with
  | Some spec => spec
  | None => UNKNOWN_INFRA_ERROR
  end.

(** What a handler throws: nothing usable, a string, or an object with a
    message.  [ev_string] is [String(error)], used when it has no message. *)
Record ErrorValue := mkErrorValue {
  ev_message : string; ev_errorMessage : string; ev_code : string; ev_errorCode : string;
  ev_metadata : list (string * jsval); ev_string : string
}.

Inductive thrown : Type :=
| TNothing
| TString (s : string)
| TError (e : ErrorValue).

(** An [Error] made with [new Error(message)]. *)
Definition plain_error (message : string) : thrown :=
  TError (mkErrorValue message "" "" "" [] ("Error: " +:+ message)).

Definition log_text (s : string) : string :=
  match sanitizeLogRecord (JStr s) with JStr t => t | _ => "" end.

Definition sanitizeErrorMetadata (input : list (string * jsval)) : list (string * jsval) :=
  omap (fun kv => match kv.2 with
                  | JUndef => None
                  | JStr s => Some (kv.1, sanitizeLogRecord (JStr s))
                  | v => Some (kv.1, v)
                  end) input.

Definition normalizeInfrastructureError (error : thrown) (fallbackCode : string) : jsval :=
  let code_of := match error with
                 | TError e => str_or (ev_code e) (str_or (ev_errorCode e) fallbackCode)
                 | _ => fallbackCode
                 end in
  let spec := errorSpecForCode (normalizeErrorCode code_of) in
  let rawMessage := match error with
                    | TError e => str_or (ev_message e) (str_or (ev_errorMessage e) (ev_string e))
                    | TString s => str_or s (es_userMessage spec)
                    | TNothing => es_userMessage spec
                    end in
  let metadata := match error with TError e => ev_metadata e | _ => [] end in
  JObj [("code", JStr (es_code spec)); ("area", JStr (es_area spec)); ("severity", JStr (es_severity spec));
        ("retryable", JBool (es_retryable spec)); ("userMessage", JStr (es_userMessage spec));
        ("message", sanitizeLogRecord (JStr rawMessage)); ("metadata", JObj (sanitizeErrorMetadata metadata))].

Definition workflowErrorMessage (error : thrown) : string :=
  match error with
  | TNothing => "workflow failed"
  | TString s => if str_empty s then "workflow failed" else log_text s
  | TError e => log_text (str_or (ev_message e) (ev_string e))
  end.

(** ** Values stored in a job *)

Fixpoint sanitizeWorkflowValue (input : jsval) : jsval :=
  match input with
  | JStr s => sanitizeLogRecord (JStr s)
  | JArr l => JArr (map sanitizeWorkflowValue l)
  | JObj fs =>
      JObj (map (fun kv => match kv with
                           | (key, value) =>
                               (key, if isSecretKey key && is_scalar value
                                     then maskSecretValue value else sanitizeWorkflowValue value)
                           end) fs)
  | _ => input
  end.

Definition sanitize_payload (payload : list (string * jsval)) : list (string * jsval) :=
  match sanitizeWorkflowValue (JObj payload) with JObj fs => fs | _ => [] end.

(** [{ ...object, key: value, ... }] *)
Definition spread (object changes : list (string * jsval)) : list (string * jsval) :=
  foldl (fun m kv => map_set kv.1 kv.2 m) object changes.

(** ** Jobs *)

Record WorkflowJob := mkJob {
  wj_id : string; wj_type : string; wj_status : string; wj_targetType : string; wj_targetId : string;
  wj_payload : list (string * jsval); wj_attempts : Z; wj_maxAttempts : Z; wj_runAfter : Z;
  wj_lockedBy : option string; wj_lockedAt : option Z; wj_createdAt : Z; wj_updatedAt : Z
}.

#[export] Instance WorkflowJob_rebuild : Rebuild WorkflowJob := fun j =>
  mkJob (wj_id j) (wj_type j) (wj_status j) (wj_targetType j) (wj_targetId j) (wj_payload j) (wj_attempts j)
    (wj_maxAttempts j) (wj_runAfter j) (wj_lockedBy j) (wj_lockedAt j) (wj_createdAt j) (wj_updatedAt j).

(** The input of [enqueueWorkflowJob]; [None] and the empty string are falsy. *)
Record WorkflowInput := mkInput {
  wi_id : string; wi_type : string; wi_status : string; wi_targetType : string; wi_targetId : string;
  wi_deploymentId : string; wi_serviceId : string; wi_payload : list (string * jsval);
  wi_attempts : option Z; wi_maxAttempts : option Z; wi_runAfter : option Z;
  wi_lockedBy : option string; wi_lockedAt : option Z; wi_createdAt : option Z; wi_updatedAt : option Z
}.

#[export] Instance WorkflowInput_rebuild : Rebuild WorkflowInput := fun i =>
  mkInput (wi_id i) (wi_type i) (wi_status i) (wi_targetType i) (wi_targetId i) (wi_deploymentId i) (wi_serviceId i)
    (wi_payload i) (wi_attempts i) (wi_maxAttempts i) (wi_runAfter i) (wi_lockedBy i) (wi_lockedAt i) (wi_createdAt i)
    (wi_updatedAt i).

(** [n || d] for an optional number *)
Definition num_or (n : option Z) (d : Z) : Z :=
  match n with Some z => if z =? 0 then d else z | None => d end.

Definition normalizeWorkflowStatus (status : string) : result string := parseWorkflowStatus (JStr status).

Definition createWorkflowJobRecord (input : WorkflowInput) (now : Z) : result WorkflowJob :=
  let type_ := str_or (wi_type input) BUILD_AND_DEPLOY in
  let targetType := str_or (wi_targetType input) "deployment" in
  let targetId := str_or (wi_targetId input) (str_or (wi_deploymentId input) (wi_serviceId input)) in
  _ ← throw_if (str_empty targetId) (JsError "Error" "workflow job targetId is required" None);
  let createdAt := default now (wi_createdAt input) in
  status ← normalizeWorkflowStatus (str_or (wi_status input) QUEUED);
  mret (mkJob (str_or (wi_id input)
                 (stableId "job" [JStr type_; JStr targetType; JStr targetId; JStr (toISOString createdAt)]))
          type_ status targetType targetId (sanitize_payload (wi_payload input))
          (Z.max 0 (num_or (wi_attempts input) 0)) (Z.max 1 (num_or (wi_maxAttempts input) 3))
          (default now (wi_runAfter input)) (wi_lockedBy input) (wi_lockedAt input) createdAt
          (default now (wi_updatedAt input))).

Definition isWorkflowTerminal (job : WorkflowJob) : result bool :=
  status ← normalizeWorkflowStatus (wj_status job); mret (status_terminal machine_workflow status).

(** The options of the worker functions; the clock is passed separately. *)
Record Options := mkOptions {
  o_leaseMs : option Z; o_leaseSeconds : option Z; o_workerId : string; o_worker : string;
  o_retryable : bool; o_retryDelayMs : option Z; o_maxRetryDelayMs : option Z; o_errorCode : string;
  o_maxJobs : jsval; o_concurrency : jsval
}.
Definition default_options : Options := mkOptions None None "" "" true None None "" JUndef JUndef.

#[export] Instance Options_rebuild : Rebuild Options := fun o =>
  mkOptions (o_leaseMs o) (o_leaseSeconds o) (o_workerId o) (o_worker o) (o_retryable o) (o_retryDelayMs o)
    (o_maxRetryDelayMs o) (o_errorCode o) (o_maxJobs o) (o_concurrency o).

Definition worker_name (o : Options) : string := str_or (o_workerId o) (str_or (o_worker o) "workflow-worker").

Definition isWorkflowLockExpired (job : WorkflowJob) (o : Options) (now : Z) : bool :=
  match wj_lockedAt job with
  | None => true
  | Some at_ => let leaseMs := default (num_or (o_leaseSeconds o) 300 * 1000) (o_leaseMs o) in at_ + leaseMs <=? now
  end.

Definition isWorkflowJobReady (job : WorkflowJob) (o : Options) (now : Z) : result bool :=
  if bool_decide (wj_type job ∈ RESERVED_TYPES) then Ok false else
  status ← normalizeWorkflowStatus (wj_status job);
  mret (if negb (bool_decide (status ∈ READY_STATUSES)) then false
        else if now <? wj_runAfter job then false
        else match wj_lockedAt job with None => true | Some _ => isWorkflowLockExpired job o now end).

Definition claimWorkflowJobRecord (job : WorkflowJob) (o : Options) (now : Z) : result (option WorkflowJob) :=
  ready ← isWorkflowJobReady job o now;
  mret (if ready : bool then
          Some (job <| wj_status := RUNNING |> <| wj_attempts := Z.max 0 (wj_attempts job) + 1 |>
                    <| wj_maxAttempts := Z.max 1 (num_or (Some (wj_maxAttempts job)) 3) |>
                    <| wj_lockedBy := Some (worker_name o) |> <| wj_lockedAt := Some now |> <| wj_updatedAt := now |>)
        else None).

Definition completeWorkflowJobRecord (job : WorkflowJob) (outcome : jsval) (now : Z) : WorkflowJob :=
  job <| wj_status := SUCCEEDED |>
      <| wj_payload := spread (wj_payload job)
           [("lastResult", sanitizeWorkflowValue outcome); ("completedAt", JStr (toISOString now))] |>
      <| wj_lockedBy := None |> <| wj_lockedAt := None |> <| wj_updatedAt := now |>.

Definition retryDelayMs (attempts : Z) (o : Options) : Z :=
  Z.min (default 60000 (o_maxRetryDelayMs o))
        (default 1000 (o_retryDelayMs o) * Z.max 1 (2 ^ Z.max 0 (attempts - 1))).

Definition failWorkflowJobRecord (job : WorkflowJob) (error : thrown) (o : Options) (now : Z) : WorkflowJob :=
  let attempts := Z.max 0 (wj_attempts job) in
  let maxAttempts := Z.max 1 (num_or (Some (wj_maxAttempts job)) 3) in
  let retryable := o_retryable o && (attempts <? maxAttempts) in
  let nextRunAt := if retryable then now + retryDelayMs attempts o else now in
  let safeError := workflowErrorMessage error in
  let errorSpec := normalizeInfrastructureError error
        (str_or (o_errorCode o) (if includes safeError "no workflow handler registered"
                                 then "WORKFLOW_HANDLER_MISSING" else "UNKNOWN_INFRA_ERROR")) in
  job <| wj_status := if retryable then QUEUED else FAILED |>
      <| wj_payload := spread (wj_payload job)
           [("lastError", JStr safeError); ("lastErrorSpec", errorSpec); ("failedAt", JStr (toISOString now))] |>
      <| wj_runAfter := nextRunAt |> <| wj_lockedBy := None |> <| wj_lockedAt := None |> <| wj_updatedAt := now |>.

(** ** The array of jobs *)

(** [jobs.map((job, index) => ...).filter(ready)]; the filter throws when a
    status does not parse. *)
Fixpoint ready_jobs (o : Options) (now : Z) (index : nat) (jobs : list WorkflowJob) : result (list (nat * WorkflowJob)) :=
  match jobs with
  | [] => Ok []
  | job :: rest =>
      ready ← isWorkflowJobReady job o now;
      others ← ready_jobs o now (S index) rest;
      mret (if ready : bool then (index, job) :: others else others)
  end.

Definition runs_before (a b : nat * WorkflowJob) : bool := wj_runAfter a.2 <=? wj_runAfter b.2.

Definition claimNextWorkflowJobFromList (o : Options) (now : Z) : M (list WorkflowJob) (option WorkflowJob) :=
  fun jobs =>
  match ready_jobs o now 0 jobs with
  | Throw e => (Throw e, jobs)
  | Ok ready =>
      match js_sort runs_before ready with
      | [] => (Ok None, jobs)
      | (index, job) :: _ =>
          match claimWorkflowJobRecord job o now with
          | Throw e => (Throw e, jobs)
          | Ok None => (Ok None, jobs)
          | Ok (Some claimed) => (Ok (Some claimed), <[index := claimed]> jobs)
          end
      end
  end.

Definition job_not_found (id : string) (status : option Z) : jserror :=
  JsError "Error" ("workflow job not found: " +:+ id) status.

Definition replaceWorkflowJob (next : WorkflowJob) : M (list WorkflowJob) WorkflowJob := fun jobs =>
  match js_findIndex (fun job => wj_id job = wj_id next) jobs with
  | None => (Throw (job_not_found (wj_id next) None), jobs)
  | Some index => (Ok next, <[index := next]> jobs)
  end.

(** ** The queue interface *)

Class JobQueue (S : Type) := {
  queue_jobs : S -> list WorkflowJob;
  claimFromQueue : Options -> Z -> M S (option WorkflowJob);
  completeInQueue : WorkflowJob -> WorkflowJob -> Options -> Z -> M S WorkflowJob;
  failInQueue : WorkflowJob -> WorkflowJob -> Options -> Z -> M S WorkflowJob
}.

(** [Array.isArray(queue)] *)
#[export] Instance array_queue : JobQueue (list WorkflowJob) := {|
  queue_jobs jobs := jobs;
  claimFromQueue := claimNextWorkflowJobFromList;
  completeInQueue := fun _ completed _ _ => replaceWorkflowJob completed;
  failInQueue := fun _ failed _ _ => replaceWorkflowJob failed
|}.

(** ** The store *)

Record WorkflowStore := mkWorkflowStore { accounts : AccountStore; workflowJobs : list WorkflowJob }.

(** Run an operation on one part of the store. *)
Definition on_jobs {A} (m : M (list WorkflowJob) A) : M WorkflowStore A := fun s =>
  let '(r, jobs) := m (workflowJobs s) in (r, mkWorkflowStore (accounts s) jobs).
Definition on_accounts {A} (m : M AccountStore A) : M WorkflowStore A := fun s =>
  let '(r, a) := m (accounts s) in (r, mkWorkflowStore a (workflowJobs s)).

Definition enqueueWorkflowJob (input : WorkflowInput) (now : Z) : M WorkflowStore WorkflowJob :=
  row ← lift (createWorkflowJobRecord input now);
  _ ← on_jobs (modify (fun jobs => jobs ++ [row]));
  _ ← on_accounts (audit "system" "workflow:enqueue" (wj_targetType row) (wj_targetId row)
        (JObj [("workflowJobId", JStr (wj_id row)); ("type", JStr (wj_type row)); ("status", JStr (wj_status row))]) now);
  mret row.

Definition claimNextWorkflowJob (o : Options) (now : Z) : M WorkflowStore (option WorkflowJob) :=
  claimed ← on_jobs (claimNextWorkflowJobFromList o now);
  _ ← match claimed with
      | Some job => on_accounts (audit (worker_name o) "workflow:claim" (wj_targetType job) (wj_targetId job)
          (JObj [("workflowJobId", JStr (wj_id job)); ("type", JStr (wj_type job));
                 ("attempt", JNum (NInt (wj_attempts job)))]) now)
      | None => mret tt
      end;
  mret claimed.

(** The private [replaceWorkflowJob] of the store throws a 404. *)
Definition store_replaceWorkflowJob (next : WorkflowJob) : M (list WorkflowJob) WorkflowJob := fun jobs =>
  match js_findIndex (fun job => wj_id job = wj_id next) jobs with
  | None => (Throw (job_not_found (wj_id next) (Some 404)), jobs)
  | Some index => (Ok next, <[index := next]> jobs)
  end.

(** [options.record], or the record made from the stored job. *)
Definition completeWorkflowJob (jobId : string) (outcome : jsval) (record : option WorkflowJob) (o : Options) (now : Z)
    : M WorkflowStore WorkflowJob :=
  s ← get;
  current ← lift (match js_find (fun job => wj_id job = jobId) (workflowJobs s) with
                  | Some job => Ok job
                  | None => Throw (job_not_found jobId (Some 404))
                  end);
  let next := default (completeWorkflowJobRecord current outcome now) record in
  _ ← on_jobs (store_replaceWorkflowJob next);
  _ ← on_accounts (audit (worker_name o) "workflow:complete" (wj_targetType next) (wj_targetId next)
        (JObj [("workflowJobId", JStr (wj_id next)); ("type", JStr (wj_type next)); ("status", JStr (wj_status next))]) now);
  mret next.

Definition failWorkflowJob (jobId : string) (error : thrown) (record : option WorkflowJob) (o : Options) (now : Z)
    : M WorkflowStore WorkflowJob :=
  s ← get;
  current ← lift (match js_find (fun job => wj_id job = jobId) (workflowJobs s) with
                  | Some job => Ok job
                  | None => Throw (job_not_found jobId (Some 404))
                  end);
  let next := default (failWorkflowJobRecord current error o now) record in
  _ ← on_jobs (store_replaceWorkflowJob next);
  _ ← on_accounts (audit (worker_name o) "workflow:fail" (wj_targetType next) (wj_targetId next)
        (JObj [("workflowJobId", JStr (wj_id next)); ("type", JStr (wj_type next)); ("status", JStr (wj_status next));
               ("retryAt", JStr (toISOString (wj_runAfter next)))]) now);
  mret next.

#[export] Instance store_queue : JobQueue WorkflowStore := {|
  queue_jobs := workflowJobs;
  claimFromQueue := claimNextWorkflowJob;
  completeInQueue := fun claimed completed o now =>
    completeWorkflowJob (wj_id claimed) (obj_get "lastResult" (wj_payload completed)) (Some completed) o now;
  failInQueue := fun claimed failed o now =>
    failWorkflowJob (wj_id claimed) (TString (js_String (obj_get "lastError" (wj_payload failed)))) (Some failed) o now
|}.

(** Cancellation of a deployment cancels its active build jobs in place. *)
Definition BUILD_TYPES : list string := ["build-and-deploy"; "preview-deploy"; "build"; "builder"].

Definition bound_deployment (job : WorkflowJob) : string :=
  let payloadDeploymentId := trim (let v := obj_get "deploymentId" (wj_payload job) in
                                   if truthy v then js_String v else "") in
  let targetDeploymentId := if bool_decide (toLowerCase (trim (wj_targetType job)) = "deployment")
                            then trim (wj_targetId job) else "" in
  if negb (str_empty payloadDeploymentId) && negb (str_empty targetDeploymentId)
     && negb (bool_decide (payloadDeploymentId = targetDeploymentId))
  then "" else str_or payloadDeploymentId targetDeploymentId.

Definition cancel_build_job (deploymentId reason : string) (now : Z) (job : WorkflowJob) : WorkflowJob :=
  if negb (bool_decide (trim (wj_type job) ∈ BUILD_TYPES)) || negb (bool_decide (bound_deployment job = deploymentId))
     || negb (bool_decide (toLowerCase (trim (wj_status job)) ∈ [QUEUED; RUNNING]))
  then job
  else job <| wj_status := CANCELLED |> <| wj_lockedBy := None |> <| wj_lockedAt := None |> <| wj_updatedAt := now |>
           <| wj_payload := match maskSecrets (JObj (spread (wj_payload job)
                [("lastError", sanitizeLogRecord (JStr reason)); ("cancelledAt", JStr (toISOString now))])) with
                            | JObj fs => fs | _ => [] end |>.

Definition cancelActiveBuildWorkflowJobs (deploymentId reason : string) (now : Z) (jobs : list WorkflowJob)
    : list WorkflowJob := map (cancel_build_job deploymentId reason now) jobs.

(** ** Running a job *)

Record ProcessResult := mkResult {
  pr_processed : bool; pr_ok : bool; pr_job : option WorkflowJob; pr_error : option string; pr_result : option jsval
}.

Section processing.
Context {S : Type} `{JobQueue S}.

(** A handler runs with the queue in reach; it returns a value or throws. *)
Definition Handler : Type := WorkflowJob -> S -> (jsval + thrown) * S.
Context (handlers : string -> option Handler).

Definition no_handler_message (job : WorkflowJob) : string := "no workflow handler registered for " +:+ wj_type job.

Definition failed_result (failed : WorkflowJob) : ProcessResult :=
  mkResult true false (Some failed) (Some (js_String (obj_get "lastError" (wj_payload failed)))) None.

(** [const failed = failWorkflowJobRecord(...); await failInQueue(...); return ...] *)
Definition fail_job (claim : WorkflowJob) (error : thrown) (o record_options : Options) (now : Z) : M S ProcessResult :=
  let failed := failWorkflowJobRecord claim error record_options now in
  _ ← failInQueue claim failed o now;
  mret (failed_result failed).

(** What happens to a claimed job; [now] is the clock when the handler is
    done.  A queue that refuses the completion sends the job to the failure
    path, as the surrounding [try] does. *)
Definition run_claim (claim : WorkflowJob) (o : Options) (now : Z) : M S ProcessResult :=
  match (match handlers (wj_type claim) with Some h => Some h | None => handlers "default" end) with
  | None => fail_job claim (plain_error (no_handler_message claim)) o (o <| o_retryable := false |>) now
  | Some handler => fun s =>
      match handler claim s with
      | (inr error, s1) => fail_job claim error o o now s1
      | (inl outcome, s1) =>
          let completed := completeWorkflowJobRecord claim outcome now in
          match completeInQueue claim completed o now s1 with
          | (Ok _, s2) => (Ok (mkResult true true (Some completed) None (Some (sanitizeWorkflowValue outcome))), s2)
          | (Throw e, s2) => fail_job claim (plain_error (err_code e)) o o now s2
          end
      end
  end.

Definition idle_result : ProcessResult := mkResult false true None None None.

Definition processNextWorkflowJob (o : Options) (claimedAt now : Z) : M S ProcessResult :=
  claim ← claimFromQueue o claimedAt;
  match claim with
  | None => mret idle_result
  | Some job => run_claim job o now
  end.

(** ** Draining the queue

    [min(concurrency, maxJobs)] workers loop; each iteration reserves a slot,
    claims a job, awaits its handler and records the result.  The awaits make
    the iterations of different workers interleave: a step of the relation is
    what one worker does between two awaits, or a change of the queue or of
    the abort signal by others. *)

Definition parseInt (s : string) : option Z :=
  let t := drop_while is_space (chars s) in
  let '(sign, rest) := match t with
                       | "-"%char :: r => (-1, r)
                       | "+"%char :: r => (1, r)
                       | _ => (1, t)
                       end in
  match (span is_digit rest).1 with
  | [] => None
  | digits => match digits_value 10 dec_digit 0 digits with Some z => Some (sign * z) | None => None end
  end.

Definition boundedInteger (value : jsval) (fallback minimum maximum : Z) : Z :=
  match parseInt (js_String (js_nullish value (JNum (NInt fallback)))) with
  | None => fallback
  | Some parsed => Z.max minimum (Z.min maximum parsed)
  end.

Definition maxJobs (o : Options) : Z := boundedInteger (o_maxJobs o) 25 1 100.
Definition concurrency (o : Options) : Z := boundedInteger (o_concurrency o) 4 1 16.

Inductive WorkerState : Type :=
| Looping
| InFlight (job : WorkflowJob)
| Returned.

Record Drain := mkDrain {
  d_queue : S; d_reservations : Z; d_exhausted : bool; d_aborted : bool;
  d_results : list ProcessResult; d_workers : list WorkerState
}.

Definition drain_start (o : Options) (queue : S) (aborted : bool) : Drain :=
  mkDrain queue 0 false aborted [] (replicate (Z.to_nat (Z.min (concurrency o) (maxJobs o))) Looping).

Inductive worker_step (o : Options) : Drain -> Drain -> Prop :=
| ws_return d i :
    d_workers d !! i = Some Looping ->
    d_exhausted d || d_aborted d || (maxJobs o <=? d_reservations d) = true ->
    worker_step o d (mkDrain (d_queue d) (d_reservations d) (d_exhausted d) (d_aborted d) (d_results d)
                       (<[i := Returned]> (d_workers d)))
| ws_claim d i now job queue :
    d_workers d !! i = Some Looping ->
    d_exhausted d || d_aborted d || (maxJobs o <=? d_reservations d) = false ->
    claimFromQueue o now (d_queue d) = (Ok (Some job), queue) ->
    worker_step o d (mkDrain queue (d_reservations d + 1) (d_exhausted d) (d_aborted d) (d_results d)
                       (<[i := InFlight job]> (d_workers d)))
| ws_claim_reject d i now e queue :
    d_workers d !! i = Some Looping ->
    d_exhausted d || d_aborted d || (maxJobs o <=? d_reservations d) = false ->
    claimFromQueue o now (d_queue d) = (Throw e, queue) ->
    worker_step o d (mkDrain queue (d_reservations d + 1) (d_exhausted d) (d_aborted d) (d_results d)
                       (<[i := Returned]> (d_workers d)))
| ws_empty d i now queue :
    d_workers d !! i = Some Looping ->
    d_exhausted d || d_aborted d || (maxJobs o <=? d_reservations d) = false ->
    claimFromQueue o now (d_queue d) = (Ok None, queue) ->
    worker_step o d (mkDrain queue (d_reservations d + 1) true (d_aborted d) (d_results d)
                       (<[i := Returned]> (d_workers d)))
| ws_finish d i now job r queue :
    d_workers d !! i = Some (InFlight job) ->
    run_claim job o now (d_queue d) = (Ok r, queue) ->
    worker_step o d (mkDrain queue (d_reservations d) (d_exhausted d) (d_aborted d) (d_results d ++ [r])
                       (<[i := Looping]> (d_workers d)))
| ws_reject d i now job e queue :
    d_workers d !! i = Some (InFlight job) ->
    run_claim job o now (d_queue d) = (Throw e, queue) ->
    worker_step o d (mkDrain queue (d_reservations d) (d_exhausted d) (d_aborted d) (d_results d)
                       (<[i := Returned]> (d_workers d))).

Inductive environment_step : Drain -> Drain -> Prop :=
| es_queue d queue :
    environment_step d (mkDrain queue (d_reservations d) (d_exhausted d) (d_aborted d) (d_results d) (d_workers d))
| es_abort d :
    environment_step d (mkDrain (d_queue d) (d_reservations d) (d_exhausted d) true (d_results d) (d_workers d)).

Definition succeeded_results (d : Drain) : Z := Z.of_nat (length (filter (fun r => pr_ok r = true) (d_results d))).
Definition failed_results (d : Drain) : Z := Z.of_nat (length (filter (fun r => pr_ok r = false) (d_results d))).
End processing.

Arguments Drain : clear implicits.
Arguments Handler : clear implicits.

Close Scope Z_scope.
