(* ===== verification/WorkflowSafety.v ===== *)
(** * Safety of the workflow queue

    What a claim picks, that the store refines the array, how often a job is
    run, how retries back off, and that draining a queue stops. *)

From S2P Require Import Prelude JsString JsMap JsVal Ids Lifecycle Accounts Redaction Workflows.

Open Scope Z_scope.

(** ** Claiming *)

Lemma ready_jobs_spec o now jobs : forall index ready,
  ready_jobs o now index jobs = Ok ready ->
  forall i job, (i, job) ∈ ready <->
    exists k, i = (index + k)%nat /\ jobs !! k = Some job /\ isWorkflowJobReady job o now = Ok true.
Proof.
  induction jobs as [|j jobs IH]; intros index ready; cbn [ready_jobs].
  { intros [= <-] i job. split; [set_solver|]. intros (k & _ & Hk & _). by rewrite lookup_nil in Hk. }
  rewrite bind_Ok. intros (r & Hr & Hrest). apply bind_Ok in Hrest as (others & Ho & [= <-]).
  intros i job. specialize (IH _ _ Ho i job).
  assert (Hsplit : (exists k, i = (index + k)%nat /\ (j :: jobs) !! k = Some job /\ isWorkflowJobReady job o now = Ok true)
    <-> (i = index /\ job = j /\ r = true) \/ (i, job) ∈ others).
  { rewrite IH. split.
    - intros ([|k] & -> & Hk & Hy); [left|right].
      + injection Hk as <-. split_and!; [lia|done|congruence].
      + exists k. split_and!; [lia|done|done].
    - intros [(-> & -> & ->)|(k & -> & Hk & Hy)]; [exists 0%nat|exists (S k)]; split_and!; try done; lia. }
  rewrite Hsplit. clear. destruct r; rewrite ?elem_of_cons; intuition congruence.
Qed.

Lemma runs_before_total a b : runs_before a b = false -> runs_before b a = true.
Proof. unfold runs_before. rewrite Z.leb_gt, Z.leb_le. lia. Qed.

Lemma runs_before_trans a b c : runs_before a b = true -> runs_before b c = true -> runs_before a c = true.
Proof. unfold runs_before. rewrite !Z.leb_le. lia. Qed.

(** The claimed form of a job. *)
Definition claimed_job (job : WorkflowJob) (o : Options) (now : Z) : WorkflowJob :=
  job <| wj_status := RUNNING |> <| wj_attempts := Z.max 0 (wj_attempts job) + 1 |>
      <| wj_maxAttempts := Z.max 1 (num_or (Some (wj_maxAttempts job)) 3) |>
      <| wj_lockedBy := Some (worker_name o) |> <| wj_lockedAt := Some now |> <| wj_updatedAt := now |>.

Lemma claim_list_spec o now jobs r jobs' :
  claimNextWorkflowJobFromList o now jobs = (Ok r, jobs') ->
  match r with
  | Some c => exists i job, jobs !! i = Some job /\ isWorkflowJobReady job o now = Ok true
      /\ c = claimed_job job o now /\ jobs' = <[i := c]> jobs
      /\ forall k job', jobs !! k = Some job' -> isWorkflowJobReady job' o now = Ok true -> wj_runAfter job <= wj_runAfter job'
  | None => jobs' = jobs /\ forall job, job ∈ jobs -> isWorkflowJobReady job o now <> Ok true
  end.
Proof.
  unfold claimNextWorkflowJobFromList. destruct (ready_jobs o now 0 jobs) as [ready|e] eqn:Er; [|done].
  pose proof (ready_jobs_spec o now jobs 0 ready Er) as Hready.
  destruct (js_sort runs_before ready) as [|[i job] rest] eqn:Es.
  - intros [= <- <-]. split; [done|]. intros job Hjob Hy.
    apply list_elem_of_lookup in Hjob as [k Hk].
    assert (Hin : (k, job) ∈ ready) by (apply Hready; eauto).
    rewrite <- (js_sort_perm runs_before), Es in Hin. set_solver.
  - destruct (js_sort_head runs_before ready (i, job) runs_before_total runs_before_trans) as [Hin Hmin]; [by rewrite Es|].
    apply Hready in Hin as (k & Hik & Hk & Hy). cbn in Hik. subst k. unfold claimWorkflowJobRecord. rewrite Hy. cbn.
    intros [= <- <-]. exists i, job. split_and!; try done. intros k job' Hk' Hy'.
    specialize (Hmin (k, job') ltac:(apply Hready; eauto)). unfold runs_before in Hmin. by apply Z.leb_le.
Qed.

(** A claim takes a ready job whose [runAfter] is the smallest of all
    ready jobs, marks it running under the worker's name with one more
    attempt, and changes no other job; it answers nothing only when no job is
    ready, and then changes nothing. *)
Theorem claim_takes_earliest o now jobs r jobs' :
  claimNextWorkflowJobFromList o now jobs = (Ok r, jobs') ->
  match r with
  | Some c => exists i job, jobs !! i = Some job /\ isWorkflowJobReady job o now = Ok true
      /\ c = claimed_job job o now /\ jobs' = <[i := c]> jobs
      /\ forall k job', jobs !! k = Some job' -> isWorkflowJobReady job' o now = Ok true -> wj_runAfter job <= wj_runAfter job'
  | None => jobs' = jobs /\ forall job, job ∈ jobs -> isWorkflowJobReady job o now <> Ok true
  end.
Proof. apply claim_list_spec. Qed.

(** ** The store implements the queue of the array *)

Definition same_outcome {A B} (r : result A) (r' : result B) : Prop :=
  match r, r' with Ok _, Ok _ => True | Throw e, Throw e' => err_code e = err_code e' | _, _ => False end.

Class JobQueueLaws (S : Type) `{JobQueue S} := {
  claim_refines o now s r s' :
    claimFromQueue o now s = (r, s') -> claimNextWorkflowJobFromList o now (queue_jobs s) = (r, queue_jobs s');
  complete_refines claimed next o now s r s' :
    wj_id next = wj_id claimed -> completeInQueue claimed next o now s = (r, s') ->
    exists r', replaceWorkflowJob next (queue_jobs s) = (r', queue_jobs s') /\ same_outcome r r';
  fail_refines claimed next o now s r s' :
    wj_id next = wj_id claimed -> failInQueue claimed next o now s = (r, s') ->
    exists r', replaceWorkflowJob next (queue_jobs s) = (r', queue_jobs s') /\ same_outcome r r'
}.

#[export] Instance array_queue_laws : JobQueueLaws (list WorkflowJob).
Proof.
  split; cbn.
  - done.
  - intros claimed next o now s r s' _ E. exists r. split; [done|by destruct r].
  - intros claimed next o now s r s' _ E. exists r. split; [done|by destruct r].
Qed.

Lemma find_findIndex {A} (P : A -> Prop) `{forall x, Decision (P x)} l :
  is_Some (js_find P l) <-> is_Some (js_findIndex P l).
Proof. unfold js_find, js_findIndex. by rewrite !fmap_is_Some. Qed.

Lemma store_finish (next : WorkflowJob) (s : WorkflowStore) (m : WorkflowJob -> M WorkflowStore WorkflowJob) r s' :
  (forall x s, workflowJobs (m x s).2 = workflowJobs s /\ (exists y, (m x s).1 = Ok y)) ->
  (s0 ← get;
   current ← lift (match js_find (fun job => wj_id job = wj_id next) (workflowJobs s0) with
                   | Some job => Ok job
                   | None => Throw (job_not_found (wj_id next) (Some 404))
                   end);
   _ ← on_jobs (store_replaceWorkflowJob next); m current) s = (r, s') ->
  exists r', replaceWorkflowJob next (workflowJobs s) = (r', workflowJobs s') /\ same_outcome r r'.
Proof.
  intros Hm. unfold mbind, M_bind, get, lift, on_jobs, replaceWorkflowJob, store_replaceWorkflowJob.
  pose proof (find_findIndex (fun job => wj_id job = wj_id next) (workflowJobs s)) as Hff.
  destruct (js_find _ (workflowJobs s)) as [current|]; destruct (js_findIndex _ (workflowJobs s)) as [i|].
  - intros E. set (s1 := mkWorkflowStore _ _) in E. destruct (Hm current s1) as [Hj [y Hy]].
    rewrite E in Hj, Hy. cbn in Hj, Hy. subst r. exists (Ok next). by rewrite Hj.
  - destruct Hff as [Hff _]. by destruct (Hff ltac:(eauto)).
  - destruct Hff as [_ Hff]. by destruct (Hff ltac:(eauto)).
  - intros [= <- <-]. eexists. by split.
Qed.

Lemma audit_keeps_jobs actor action tt ti meta now (s : WorkflowStore) (x : WorkflowJob) :
  let m := (_ ← on_accounts (audit actor action tt ti meta now); mret x) in
  workflowJobs (m s).2 = workflowJobs s /\ exists y, (m s).1 = Ok y.
Proof. cbn. unfold on_accounts, audit, modify, mbind, M_bind. cbn. split; [done|by eexists]. Qed.

#[export] Instance store_queue_laws : JobQueueLaws WorkflowStore.
Proof.
  split; cbn [claimFromQueue completeInQueue failInQueue queue_jobs store_queue].
  - intros o now s r s'. unfold claimNextWorkflowJob, mbind at 1, M_bind at 1, on_jobs.
    destruct (claimNextWorkflowJobFromList o now (workflowJobs s)) as [[c|e] jobs'].
    + destruct c as [job|]; cbn; intros [= <- <-]; done.
    + by intros [= <- <-].
  - intros claimed next o now s r s' Hid. unfold completeWorkflowJob. rewrite <- Hid. cbn [default].
    apply (store_finish next s (fun _ => _ ← on_accounts _; mret next)). intros x s0. apply audit_keeps_jobs.
  - intros claimed next o now s r s' Hid. unfold failWorkflowJob. rewrite <- Hid. cbn [default].
    apply (store_finish next s (fun _ => _ ← on_accounts _; mret next)). intros x s0. apply audit_keeps_jobs.
Qed.

(** ** How often a job runs

    Any number of workers share a queue.  The state of the system is the
    queue, the claims whose handlers are running, and the identifiers claimed
    so far. *)

Section system.
Context {S : Type} {Q : JobQueue S} {L : JobQueueLaws S}.

Record System := mkSystem { sys_queue : S; sys_running : list WorkflowJob; sys_claims : list string }.

Inductive system_step : System -> System -> Prop :=
| st_enqueue q q' running claims input now row :
    createWorkflowJobRecord input now = Ok row -> wi_attempts input = None ->
    wj_id row ∉ wj_id <$> queue_jobs q ->
    queue_jobs q' = queue_jobs q ++ [row] ->
    system_step (mkSystem q running claims) (mkSystem q' running claims)
| st_claim q q' running claims o now job :
    claimFromQueue o now q = (Ok (Some job), q') ->
    system_step (mkSystem q running claims) (mkSystem q' (job :: running) (wj_id job :: claims))
| st_complete q q' before job after claims outcome o now r :
    completeInQueue job (completeWorkflowJobRecord job outcome now) o now q = (Ok r, q') ->
    system_step (mkSystem q (before ++ job :: after) claims) (mkSystem q' (before ++ after) claims)
| st_fail q q' before job after claims error o o' now r :
    failInQueue job (failWorkflowJobRecord job error o' now) o now q = (Ok r, q') ->
    system_step (mkSystem q (before ++ job :: after) claims) (mkSystem q' (before ++ after) claims)
| st_cancel q q' running claims deploymentId reason now :
    queue_jobs q' = cancelActiveBuildWorkflowJobs deploymentId reason now (queue_jobs q) ->
    system_step (mkSystem q running claims) (mkSystem q' running claims).

Definition claims_of (id : string) (claims : list string) : Z :=
  Z.of_nat (length (filter (fun k => k = id) claims)).

Definition job_ok (running : list WorkflowJob) (claims : list string) (job : WorkflowJob) : Prop :=
  wj_status job ∈ SchemaLifecycle.WorkflowStatusSchema
  /\ 1 <= wj_maxAttempts job /\ 0 <= wj_attempts job <= wj_maxAttempts job
  /\ claims_of (wj_id job) claims = wj_attempts job
  /\ (wj_status job = QUEUED -> wj_attempts job < wj_maxAttempts job /\ wj_id job ∉ wj_id <$> running).

Record system_ok (s : System) : Prop := {
  ok_ids : NoDup (wj_id <$> queue_jobs (sys_queue s));
  ok_running : NoDup (wj_id <$> sys_running s);
  ok_jobs : forall job, job ∈ queue_jobs (sys_queue s) -> job_ok (sys_running s) (sys_claims s) job;
  ok_held : forall job, job ∈ sys_running s -> exists stored, stored ∈ queue_jobs (sys_queue s)
    /\ wj_id stored = wj_id job /\ wj_attempts stored = wj_attempts job /\ wj_maxAttempts stored = wj_maxAttempts job;
  ok_claims : forall id, id ∈ sys_claims s -> id ∈ wj_id <$> queue_jobs (sys_queue s)
}.

Lemma claims_of_cons id id' claims :
  claims_of id (id' :: claims) = claims_of id claims + (if decide (id' = id) then 1 else 0).
Proof. unfold claims_of. rewrite filter_cons. case_decide; cbn; lia. Qed.

Lemma claims_of_absent id claims : id ∉ claims -> claims_of id claims = 0.
Proof.
  intros Hid. unfold claims_of. replace (filter _ claims) with (@nil string); [done|].
  induction claims as [|x l IH]; [done|]. rewrite filter_cons. case_decide; [set_solver|]. apply IH. set_solver.
Qed.

(** A ready job of a well-formed queue is queued. *)
Lemma ready_is_queued job o now :
  wj_status job ∈ SchemaLifecycle.WorkflowStatusSchema -> isWorkflowJobReady job o now = Ok true -> wj_status job = QUEUED.
Proof.
  intros Hs. unfold isWorkflowJobReady, normalizeWorkflowStatus. destruct (bool_decide _); [done|].
  rewrite (parse_workflow_canonical _ Hs). unfold mbind, result_bind. intros [= Hr].
  destruct (bool_decide_reflect (wj_status job ∈ READY_STATUSES)) as [Hq|]; [|done]. cbn in Hq. set_solver.
Qed.

Lemma same_id_same_job (jobs : list WorkflowJob) a b :
  NoDup (wj_id <$> jobs) -> a ∈ jobs -> b ∈ jobs -> wj_id a = wj_id b -> a = b.
Proof.
  intros Hnd Ha Hb Hid. apply list_elem_of_lookup in Ha as [i Hi]. apply list_elem_of_lookup in Hb as [k Hk].
  assert (i = k) as <-; [|congruence].
  eapply NoDup_lookup; [done|rewrite list_lookup_fmap, Hi; done|rewrite list_lookup_fmap, Hk; cbn; congruence].
Qed.

Lemma fmap_insert_id (jobs : list WorkflowJob) i old new :
  jobs !! i = Some old -> wj_id new = wj_id old -> wj_id <$> <[i := new]> jobs = wj_id <$> jobs.
Proof. intros Hi Hid. rewrite list_fmap_insert, Hid. apply list_insert_id. by rewrite list_lookup_fmap, Hi. Qed.

Lemma elem_of_insert (jobs : list WorkflowJob) i old new job :
  jobs !! i = Some old -> job ∈ <[i := new]> jobs -> job = new \/ (job ∈ jobs /\ exists k, k <> i /\ jobs !! k = Some job).
Proof.
  intros Hi [k Hk]%list_elem_of_lookup. apply list_lookup_insert_Some in Hk as [(_ & -> & _)|(Hne & Hk)]; [by left|].
  right. split; [by eapply list_elem_of_lookup_2|by exists k].
Qed.

Lemma elem_of_insert_new (jobs : list WorkflowJob) i old new :
  jobs !! i = Some old -> new ∈ <[i := new]> jobs.
Proof. intros Hi. apply list_elem_of_lookup. exists i. apply list_lookup_insert_eq. by eapply lookup_lt_Some. Qed.

Lemma elem_of_insert_keep (jobs : list WorkflowJob) i old new job :
  jobs !! i = Some old -> job ∈ jobs -> job = old \/ job ∈ <[i := new]> jobs.
Proof.
  intros Hi [k Hk]%list_elem_of_lookup. destruct (decide (k = i)) as [-> |Hne]; [left; congruence|right].
  apply list_elem_of_lookup. exists k. by rewrite list_lookup_insert_ne.
Qed.

Lemma created_ok input now row :
  createWorkflowJobRecord input now = Ok row -> wi_attempts input = None ->
  wj_status row ∈ SchemaLifecycle.WorkflowStatusSchema /\ wj_attempts row = 0 /\ 1 <= wj_maxAttempts row.
Proof.
  intros E Ha. unfold createWorkflowJobRecord in E. cbv zeta in E. apply bind_Ok in E as (u & _ & E).
  apply bind_Ok in E as (status & Hs & E). injection E as <-. cbn -[Z.max]. rewrite Ha. cbn -[Z.max].
  split_and!; [by eapply parseWorkflowStatus_status|lia|lia].
Qed.

Lemma ok_after_enqueue q q' running claims input now row :
  system_ok (mkSystem q running claims) ->
  createWorkflowJobRecord input now = Ok row -> wi_attempts input = None ->
  wj_id row ∉ wj_id <$> queue_jobs q -> queue_jobs q' = queue_jobs q ++ [row] ->
  system_ok (mkSystem q' running claims).
Proof.
  intros [H1 H2 H3 H4 H5] Hrow Ha Hfresh Hq. cbn in *. destruct (created_ok _ _ _ Hrow Ha) as (Hs & H0 & Hm).
  constructor; cbn; rewrite ?Hq, ?fmap_app.
  - apply NoDup_app. split_and!; [done|set_solver|apply NoDup_singleton].
  - done.
  - intros job [Hj|Hj]%elem_of_app; [by apply H3|]. apply list_elem_of_singleton in Hj as ->.
    split_and!; [done|done|lia|lia| |].
    + rewrite H0. apply claims_of_absent. intros Hc. by apply Hfresh, H5.
    + intros _. split; [lia|]. intros (j & Hid & Hj)%list_elem_of_fmap.
      destruct (H4 j Hj) as (stored & Hst & Hsid & _). apply Hfresh. rewrite Hid, <- Hsid. by apply list_elem_of_fmap_2.
  - intros job Hj. destruct (H4 job Hj) as (stored & ? & ?). exists stored. split; [set_solver|done].
  - intros id Hid. apply elem_of_app. left. by apply H5.
Qed.

Lemma ok_after_claim q q' running claims o now job :
  system_ok (mkSystem q running claims) ->
  claimFromQueue o now q = (Ok (Some job), q') ->
  system_ok (mkSystem q' (job :: running) (wj_id job :: claims)).
Proof.
  intros [H1 H2 H3 H4 H5] Hc. cbn in *. apply claim_refines in Hc. apply claim_list_spec in Hc.
  destruct Hc as (i & old & Hi & Hready & -> & Hq & _).
  assert (Hold : old ∈ queue_jobs q) by (by eapply list_elem_of_lookup_2).
  destruct (H3 old Hold) as (Hs & Hm & Hatt & Hcount & Hqueued).
  specialize (Hqueued (ready_is_queued _ _ _ Hs Hready)) as [Hlt Hfree].
  set (c := claimed_job old o now) in *.
  assert (Hcid : wj_id c = wj_id old) by done.
  assert (Hcatt : wj_attempts c = wj_attempts old + 1) by (unfold c, claimed_job; cbn -[Z.max]; lia).
  assert (Hcmax : wj_maxAttempts c = wj_maxAttempts old).
  { unfold c, claimed_job. cbn -[Z.max]. destruct (Z.eqb_spec (wj_maxAttempts old) 0); lia. }
  constructor; cbn [sys_queue sys_running sys_claims]; rewrite ?Hq, ?fmap_cons, ?(fmap_insert_id _ _ _ _ Hi Hcid).
  - done.
  - rewrite Hcid. by constructor.
  - intros job Hj. destruct (elem_of_insert _ _ _ _ _ Hi Hj) as [-> |(Hin & k & Hne & Hk)].
    + split_and!; [unfold c, claimed_job; cbn; set_solver|lia|lia|lia| |by intros [=]].
      rewrite claims_of_cons, decide_True by done. rewrite Hcid, Hcount. lia.
    + destruct (H3 job Hin) as (? & ? & ? & Hcj & Hqj).
      assert (Hidne : wj_id job <> wj_id c).
      { intros Heq. apply Hne. eapply NoDup_lookup; [exact H1|rewrite list_lookup_fmap, Hk; done|].
        rewrite list_lookup_fmap, Hi. cbn. congruence. }
      split_and!; try done; try lia.
      * rewrite claims_of_cons, decide_False by done. lia.
      * intros Hst. destruct (Hqj Hst). split; [done|]. set_solver.
  - intros j [-> |Hj]%elem_of_cons; [exists c; split; [by eapply elem_of_insert_new|done]|].
    destruct (H4 j Hj) as (stored & Hst & Hid & ?). exists stored. split; [|done].
    destruct (elem_of_insert_keep _ _ _ c _ Hi Hst) as [-> |]; [|done].
    destruct Hfree. rewrite Hid. by apply list_elem_of_fmap_2.
  - intros id [-> |Hid]%elem_of_cons; [rewrite Hcid; by apply list_elem_of_fmap_2|by apply H5].
Qed.

(** A finished claim replaces the stored job by one with the same counters. *)
Lemma ok_after_finish q q' before job after claims next r :
  system_ok (mkSystem q (before ++ job :: after) claims) ->
  replaceWorkflowJob next (queue_jobs q) = (Ok r, queue_jobs q') ->
  wj_id next = wj_id job -> wj_attempts next = wj_attempts job -> wj_maxAttempts next = wj_maxAttempts job ->
  wj_status next ∈ SchemaLifecycle.WorkflowStatusSchema ->
  (wj_status next = QUEUED -> wj_attempts next < wj_maxAttempts next) ->
  system_ok (mkSystem q' (before ++ after) claims).
Proof.
  intros [H1 H2 H3 H4 H5] Hrep Hid Hatt Hmax Hst Hq. cbn in *. unfold replaceWorkflowJob in Hrep.
  destruct (js_findIndex _ _) as [i|] eqn:Ei; [|done]. injection Hrep as _ Hq'.
  apply js_findIndex_Some in Ei as (old & Hi & Hoid).
  assert (Hold : old ∈ queue_jobs q) by (by eapply list_elem_of_lookup_2).
  destruct (H4 job ltac:(set_solver)) as (stored & Hstored & Hsid & Hsatt & Hsmax).
  assert (stored = old) as -> by (apply (same_id_same_job (queue_jobs q)); [done|done|done|congruence]).
  destruct (H3 old Hold) as (_ & Hm & Ha & Hcount & _).
  rewrite fmap_app, fmap_cons in H2.
  assert (Hrest : NoDup (wj_id <$> before ++ after) /\ wj_id job ∉ wj_id <$> before ++ after).
  { rewrite fmap_app. rewrite <- Permutation_middle in H2. by apply NoDup_cons in H2 as [? ?]. }
  destruct Hrest as [Hnd Hnotin].
  assert (Hnid : wj_id next = wj_id old) by congruence.
  constructor; cbn [sys_queue sys_running sys_claims]; rewrite <- ?Hq', ?(fmap_insert_id _ _ _ _ Hi Hnid).
  - done.
  - done.
  - intros j Hj. destruct (elem_of_insert _ _ _ _ _ Hi Hj) as [-> |(Hin & k & Hne & Hk)].
    + split_and!; [done|lia|lia|lia|rewrite Hnid; lia|]. intros Hqs. split; [by apply Hq|congruence].
    + destruct (H3 j Hin) as (? & ? & ? & ? & Hqj). split_and!; try done; try lia.
      intros Hs. destruct (Hqj Hs) as [? Hn]. split; [done|]. rewrite fmap_app, fmap_cons in Hn. rewrite fmap_app. set_solver.
  - intros j Hj. destruct (H4 j ltac:(set_solver)) as (st & Hin & Hstid & ? & ?).
    destruct (elem_of_insert_keep _ _ _ next _ Hi Hin) as [-> |]; [|by exists st].
    exists next. split; [by eapply elem_of_insert_new|]. split_and!; congruence || lia.
  - done.
Qed.

Lemma cancel_build_job_keeps deploymentId reason now job :
  let job' := cancel_build_job deploymentId reason now job in
  wj_id job' = wj_id job /\ wj_attempts job' = wj_attempts job /\ wj_maxAttempts job' = wj_maxAttempts job
  /\ (wj_status job' = wj_status job \/ wj_status job' = CANCELLED).
Proof. unfold cancel_build_job. destruct (_ || _); cbn; auto 10. Qed.

Lemma ok_after_cancel q q' running claims deploymentId reason now :
  system_ok (mkSystem q running claims) ->
  queue_jobs q' = cancelActiveBuildWorkflowJobs deploymentId reason now (queue_jobs q) ->
  system_ok (mkSystem q' running claims).
Proof.
  intros [H1 H2 H3 H4 H5] Hq. cbn in *. set (f := cancel_build_job deploymentId reason now).
  assert (Hids : wj_id <$> queue_jobs q' = wj_id <$> queue_jobs q).
  { rewrite Hq. unfold cancelActiveBuildWorkflowJobs. rewrite <- list_fmap_compose. apply list_fmap_ext.
    intros i j _. apply cancel_build_job_keeps. }
  assert (Hin : forall j, j ∈ queue_jobs q' -> exists old, old ∈ queue_jobs q /\ j = f old).
  { rewrite Hq. intros j (old & -> & Hold)%list_elem_of_fmap. by exists old. }
  constructor; cbn; rewrite ?Hids; try done.
  - intros j Hj. destruct (Hin j Hj) as (old & Hold & ->).
    destruct (cancel_build_job_keeps deploymentId reason now old) as (Kid & Katt & Kmax & Kst). fold f in Kid, Katt, Kmax, Kst.
    destruct (H3 old Hold) as (? & ? & ? & ? & Hqueued). unfold job_ok. rewrite Kid, Katt, Kmax.
    split_and!; try done; try lia.
    + destruct Kst as [-> | ->]; [done|]. unfold CANCELLED. set_solver.
    + intros Hs. destruct Kst as [Kst|Kst]; rewrite Kst in Hs; [by apply Hqueued|by discriminate Hs].
  - intros j Hj. destruct (H4 j Hj) as (stored & Hst & ? & ? & ?). exists (f stored).
    destruct (cancel_build_job_keeps deploymentId reason now stored) as (Kid & Katt & Kmax & _). fold f in Kid, Katt, Kmax.
    split; [rewrite Hq; by apply list_elem_of_fmap_2|]. split_and!; congruence.
Qed.

Lemma system_step_ok s s' : system_step s s' -> system_ok s -> system_ok s'.
Proof.
  intros Hstep Hok. destruct Hstep as [q q' running claims input now row Hr Ha Hf Hq
    |q q' running claims o now job Hc|q q' before job after claims outcome o now r Hc
    |q q' before job after claims error o o' now r Hf|q q' running claims d reason now Hq].
  - by eapply ok_after_enqueue.
  - by eapply ok_after_claim.
  - apply complete_refines in Hc as (r' & Hrep & Hsame); [|done]. destruct r' as [r'|]; [|done].
    eapply ok_after_finish; try done. unfold completeWorkflowJobRecord. cbn. unfold SUCCEEDED. set_solver.
  - apply fail_refines in Hf as (r' & Hrep & Hsame); [|done]. destruct r' as [r'|]; [|done].
    destruct (ok_held _ Hok job ltac:(cbn; set_solver)) as (st & Hst & _ & Ha & Hm).
    destruct (ok_jobs _ Hok st Hst) as (_ & ? & ? & _). eapply ok_after_finish; try done.
    + unfold failWorkflowJobRecord. cbn -[Z.max]. destruct (_ && _); unfold QUEUED, FAILED; set_solver.
    + unfold failWorkflowJobRecord. cbn -[Z.max].
      destruct (o_retryable o'); cbn -[Z.max]; [|by intros [=]].
      destruct (Z.max 0 _ <? _) eqn:Hlt; [|by intros [=]].
      intros _. apply Z.ltb_lt in Hlt. destruct (Z.eqb_spec (wj_maxAttempts job) 0); lia.
  - by eapply ok_after_cancel.
Qed.

Lemma system_ok_empty q : queue_jobs q = [] -> system_ok (mkSystem q [] []).
Proof. intros Hq. constructor; cbn; rewrite ?Hq; cbn; try constructor; set_solver. Qed.

End system.

(** ** Draining stops *)

Section draining.
Context {S : Type} {Q : JobQueue S} (handlers : string -> option (Handler S)) (o : Options).

(** [n] worker steps, between any changes made by the environment. *)
Inductive drain_run : nat -> Drain S -> Drain S -> Prop :=
| dr_refl d : drain_run 0 d d
| dr_worker n d d1 d2 : worker_step handlers o d d1 -> drain_run n d1 d2 -> drain_run (Datatypes.S n) d d2
| dr_environment n d d1 d2 : environment_step d d1 -> drain_run n d1 d2 -> drain_run n d d2.

Definition worker_weight (w : WorkerState) : Z := match w with Looping => 1 | InFlight _ => 2 | Returned => 0 end.
Fixpoint weight (ws : list WorkerState) : Z :=
  match ws with [] => 0 | w :: ws' => worker_weight w + weight ws' end.
Fixpoint in_flight (ws : list WorkerState) : Z :=
  match ws with [] => 0 | w :: ws' => (match w with InFlight _ => 1 | _ => 0 end) + in_flight ws' end.

Lemma boundedInteger_range value fallback minimum maximum :
  minimum <= fallback <= maximum -> minimum <= boundedInteger value fallback minimum maximum <= maximum.
Proof. intros H. unfold boundedInteger. destruct (parseInt _); lia. Qed.

Lemma weight_insert ws i w w' :
  ws !! i = Some w -> weight (<[i := w']> ws) = weight ws - worker_weight w + worker_weight w'.
Proof.
  revert i. induction ws as [|x ws IH]; intros [|i] Hi; [done|done|cbn in *; simplify_eq; lia|].
  change (<[Datatypes.S i := w']> (x :: ws)) with (x :: <[i := w']> ws). cbn [weight]. rewrite (IH _ Hi). lia.
Qed.

Lemma in_flight_insert ws i w w' :
  ws !! i = Some w ->
  in_flight (<[i := w']> ws) = in_flight ws - in_flight [w] + in_flight [w'].
Proof.
  revert i. induction ws as [|x ws IH]; intros [|i] Hi; [done|done|cbn in *; simplify_eq; lia|].
  change (<[Datatypes.S i := w']> (x :: ws)) with (x :: <[i := w']> ws). cbn [in_flight]. rewrite (IH _ Hi).
  cbn [in_flight]. lia.
Qed.

Lemma weight_nonneg ws : 0 <= in_flight ws /\ 0 <= weight ws.
Proof. induction ws as [|[] ws IH]; cbn; lia. Qed.

Definition drain_measure (d : Drain S) : Z := 3 * (maxJobs o - d_reservations d) + weight (d_workers d).
Definition drain_ok (d : Drain S) : Prop :=
  0 <= d_reservations d <= maxJobs o
  /\ Z.of_nat (length (d_results d)) + in_flight (d_workers d) <= d_reservations d.

Lemma worker_step_measure d d' :
  worker_step handlers o d d' -> drain_ok d -> drain_ok d' /\ drain_measure d' < drain_measure d.
Proof.
  assert (Hcontinue : forall d : Drain S, d_exhausted d || d_aborted d || (maxJobs o <=? d_reservations d) = false ->
            d_reservations d < maxJobs o).
  { intros d0 Hc. apply orb_false_iff in Hc as [_ Hc]. by apply Z.leb_gt. }
  intros Hstep (H1 & H2). unfold drain_ok, drain_measure.
  destruct Hstep as [d i Hi Hb|d i now job queue Hi Hb Hc|d i now e queue Hi Hb Hc|d i now queue Hi Hb Hc
    |d i now job r queue Hi Hc|d i now job e queue Hi Hc]; cbn [d_reservations d_workers d_results];
    rewrite (weight_insert _ _ _ _ Hi), (in_flight_insert _ _ _ _ Hi), ?length_app; cbn [worker_weight in_flight length];
    try (apply Hcontinue in Hb); lia.
Qed.

Lemma environment_step_measure d d' :
  environment_step d d' -> drain_ok d -> drain_ok d' /\ drain_measure d' = drain_measure d.
Proof. by intros [] Hok. Qed.

Lemma drain_run_measure n d d' :
  drain_run n d d' -> drain_ok d -> drain_ok d' /\ Z.of_nat n + drain_measure d' <= drain_measure d.
Proof.
  induction 1 as [d|n d d1 d2 Hs _ IH|n d d1 d2 Hs _ IH]; intros Hok; [split; [done|lia]|..].
  - destruct (worker_step_measure _ _ Hs Hok) as [Hok1 ?]. destruct (IH Hok1). split; [done|lia].
  - destruct (environment_step_measure _ _ Hs Hok) as [Hok1 ?]. destruct (IH Hok1). split; [done|lia].
Qed.

Lemma start_ok q aborted : drain_ok (drain_start o q aborted) /\ drain_measure (drain_start o q aborted) <= 316.
Proof.
  pose proof (boundedInteger_range (o_maxJobs o) 25 1 100 ltac:(lia)) as Hm. fold (maxJobs o) in Hm.
  pose proof (boundedInteger_range (o_concurrency o) 4 1 16 ltac:(lia)) as Hc. fold (concurrency o) in Hc.
  assert (Hrep : forall k, weight (replicate k Looping) = Z.of_nat k /\ in_flight (replicate k Looping) = 0).
  { induction k; cbn in *; lia. }
  destruct (Hrep (Z.to_nat (Z.min (concurrency o) (maxJobs o)))) as [Hw Hf].
  unfold drain_ok, drain_measure, drain_start. cbn [d_reservations d_workers d_results length].
  rewrite Hw, Hf. lia.
Qed.

(** A worker that has not returned can move: claiming and finishing always have an outcome. *)
Lemma worker_can_move d i w :
  d_workers d !! i = Some w -> w <> Returned -> exists d', worker_step handlers o d d'.
Proof.
  intros Hi Hw. destruct w as [|job|]; [|..|done].
  - destruct (d_exhausted d || d_aborted d || (maxJobs o <=? d_reservations d)) eqn:Eb; [eexists; by eapply ws_return|].
    destruct (claimFromQueue o 0 (d_queue d)) as [[[job|]|e] q'] eqn:Ec;
      eexists; [by eapply ws_claim|by eapply ws_empty|by eapply ws_claim_reject].
  - destruct (run_claim handlers job o 0 (d_queue d)) as [[r|e] q'] eqn:Er; eexists; [by eapply ws_finish|by eapply ws_reject].
Qed.

(** C38. Draining a queue stops: whatever the schedule of the workers, the
    changes others make to the queue and the behaviour of the handlers, at
    most 316 worker steps happen, at most [maxJobs] (never more than 100) jobs
    are processed, and as long as a worker has not returned some worker can
    take a step. *)
Theorem drain_terminates n q aborted d :
  drain_run n (drain_start o q aborted) d ->
  (n <= 316)%nat /\ Z.of_nat (length (d_results d)) <= maxJobs o <= 100
  /\ (Forall (fun w => w = Returned) (d_workers d) \/ exists d', worker_step handlers o d d').
Proof.
  intros Hr. destruct (start_ok q aborted) as [Hok Hm]. destruct (drain_run_measure _ _ _ Hr Hok) as [[H1 H2] H3].
  pose proof (weight_nonneg (d_workers d)) as [Hf Hw]. unfold drain_measure in H3 at 1.
  pose proof (boundedInteger_range (o_maxJobs o) 25 1 100 ltac:(lia)) as Hmax. fold (maxJobs o) in Hmax.
  split_and!; [lia|lia|lia|].
  assert (Hdec : forall w : WorkerState, Decision (w = Returned)).
  { intros []; (by left) || (right; discriminate). }
  destruct (decide (Forall (fun w => w = Returned) (d_workers d))) as [|Hn]; [by left|right].
  apply not_Forall_Exists in Hn; [|done]. apply Exists_exists in Hn as (w & Hin & Hne).
  apply list_elem_of_lookup in Hin as [i Hi]. by eapply worker_can_move.
Qed.
End draining.

(** ** Retries *)

(** With delays [0 <= base <= max], a retry waits at least the base delay
    and never longer than the maximum, and from one failed attempt to the next
    the delay doubles until it reaches the maximum. *)
Theorem retry_backoff o attempts :
  let base := default 1000 (o_retryDelayMs o) in
  let most := default 60000 (o_maxRetryDelayMs o) in
  0 <= base <= most -> 1 <= attempts ->
  base <= retryDelayMs attempts o <= most
  /\ retryDelayMs (attempts + 1) o = Z.min most (2 * retryDelayMs attempts o).
Proof.
  intros base most Hb Ha. unfold retryDelayMs. fold base most.
  replace (attempts + 1 - 1) with (Z.succ (attempts - 1)) by lia.
  rewrite !(Z.max_r 0) by lia. rewrite Z.pow_succ_r by lia.
  assert (0 < 2 ^ (attempts - 1)) by (apply Z.pow_pos_nonneg; lia). rewrite !(Z.max_r 1) by lia. nia.
Qed.

Lemma retry_backoff_witness :
  retryDelayMs 3 default_options = 4000 /\ retryDelayMs (3 + 1) default_options = Z.min 60000 (2 * 4000).
Proof. split; [reflexivity|]. apply (retry_backoff default_options 3); cbn; lia. Defined.

Close Scope Z_scope.
