(* ===== verification/WorkflowExamples.v ===== *)
(** * The workflow queue on concrete jobs

    Runs of the queue that instantiate its theorems, and the behaviours found
    while modelling it: a cancelled job that its worker brings back, a running
    job whose lease means nothing, and identifiers that collide. *)

From S2P Require Import Prelude JsString JsMap JsVal Ids Lifecycle Accounts Redaction Workflows WorkflowSafety.

Open Scope Z_scope.

Definition build_input (target : string) : WorkflowInput :=
  mkInput "" "" "" "" target "" "" [("deploymentId", JStr target)] None None None None None None None.

Definition made (r : result WorkflowJob) : WorkflowJob :=
  match r with Ok j => j | Throw _ => mkJob "" "" "" "" "" [] 0 1 0 None None 0 0 end.

Definition job_a : WorkflowJob := made (createWorkflowJobRecord (build_input "dep-a") 2000).
Definition job_b : WorkflowJob := made (createWorkflowJobRecord (build_input "dep-b") 1000).

(** The later job is first in the array; the earlier one is claimed. *)
Lemma claim_takes_earliest_witness :
  let '(r, jobs') := claimNextWorkflowJobFromList default_options 5000 [job_a; job_b] in
  r = Ok (Some (claimed_job job_b default_options 5000))
  /\ exists i job, [job_a; job_b] !! i = Some job /\ claimed_job job_b default_options 5000 = claimed_job job default_options 5000.
Proof.
  destruct (claimNextWorkflowJobFromList default_options 5000 [job_a; job_b]) as [r jobs'] eqn:E.
  assert (Hr : r = Ok (Some (claimed_job job_b default_options 5000))).
  { change r with (r, jobs').1. rewrite <- E. vm_compute. reflexivity. }
  split; [exact Hr|]. subst r.
  destruct (claim_takes_earliest _ _ _ _ _ E) as (i & job & Hi & _ & Hc & _). exists i, job. split; [exact Hi|exact Hc].
Defined.

(** Enqueue, claim, fail and claim again. *)
Definition first_claim : WorkflowJob := claimed_job job_b default_options 1500.
Definition after_failure : WorkflowJob := failWorkflowJobRecord first_claim (plain_error "boom") default_options 1600.
Definition second_claim : WorkflowJob := claimed_job after_failure default_options 9000.


Definition no_handlers : string -> option (Handler (list WorkflowJob)) := fun _ => None.
Definition one_worker : Options := default_options <| o_concurrency := JNum (NInt 1) |>.

(** The only worker finds the queue empty. *)
Lemma drain_terminates_witness :
  Z.of_nat (length (d_results (mkDrain ([] : list WorkflowJob) 1 true false [] [Returned]))) <= maxJobs one_worker.
Proof.
  apply (drain_terminates no_handlers one_worker 1 [] false).
  eapply dr_worker; [|apply dr_refl].
  apply (ws_empty no_handlers one_worker (drain_start one_worker [] false) 0 7 []); vm_compute; reflexivity.
Defined.

(** A run without a handler fails the job for good, without a retry. *)
Example missing_handler :
  let '(r, jobs) := processNextWorkflowJob no_handlers default_options 1500 1600 [job_b] in
  (exists p, r = Ok p /\ pr_ok p = false /\ pr_error p = Some "no workflow handler registered for build-and-deploy")
  /\ map wj_status jobs = [FAILED].
Proof. vm_compute. split; [eexists; split_and!; reflexivity|reflexivity]. Qed.

(** ** Findings *)

(** A cancelled job does not stay cancelled: when the deployment of a
    running job is cancelled, the worker that still holds the claim overwrites
    the cancelled row, queueing the job again after a failure with attempts
    left and marking it succeeded after a success. *)
Theorem cancellation_lost jobs i claim deploymentId reason outcome error o cancelledAt now :
  jobs !! i = Some claim -> NoDup (wj_id <$> jobs) ->
  wj_status (cancel_build_job deploymentId reason cancelledAt claim) = CANCELLED ->
  o_retryable o = true -> 0 <= wj_attempts claim < wj_maxAttempts claim ->
  let cancelled := cancelActiveBuildWorkflowJobs deploymentId reason cancelledAt jobs in
  (wj_status <$> cancelled !! i) = Some CANCELLED
  /\ (wj_status <$> (replaceWorkflowJob (failWorkflowJobRecord claim error o now) cancelled).2 !! i) = Some QUEUED
  /\ (wj_status <$> (replaceWorkflowJob (completeWorkflowJobRecord claim outcome now) cancelled).2 !! i) = Some SUCCEEDED.
Proof.
  intros Hi Hnd Hst Hretry Hatt cancelled.
  assert (Hci : cancelled !! i = Some (cancel_build_job deploymentId reason cancelledAt claim)).
  { unfold cancelled, cancelActiveBuildWorkflowJobs. by rewrite list_lookup_fmap, Hi. }
  assert (Hids : wj_id <$> cancelled = wj_id <$> jobs).
  { unfold cancelled, cancelActiveBuildWorkflowJobs. rewrite <- list_fmap_compose. apply list_fmap_ext.
    intros k j _. apply cancel_build_job_keeps. }
  assert (Hrep : forall next, wj_id next = wj_id claim -> (replaceWorkflowJob next cancelled).2 !! i = Some next).
  { intros next Hid. unfold replaceWorkflowJob. destruct (js_findIndex _ cancelled) as [k|] eqn:Ek.
    - apply js_findIndex_Some in Ek as (j & Hk & Hjid). assert (k = i) as ->.
      { eapply (NoDup_lookup (wj_id <$> jobs)); [done|rewrite <- Hids, list_lookup_fmap, Hk; done|].
        rewrite list_lookup_fmap, Hi. cbn. congruence. }
      cbn [snd]. apply list_lookup_insert_eq. by eapply lookup_lt_Some.
    - exfalso. assert (Hn : js_find (fun job => wj_id job = wj_id next) cancelled = None).
      { unfold js_find, js_findIndex in *. by destruct (list_find _ cancelled). }
      apply js_find_None in Hn. rewrite Forall_forall in Hn. eapply Hn; [by eapply list_elem_of_lookup_2|].
      rewrite Hid. apply cancel_build_job_keeps. }
  rewrite Hci, !Hrep by done. split_and!; [cbn; by rewrite Hst| |done].
  unfold failWorkflowJobRecord. cbn -[Z.max]. rewrite Hretry. cbn -[Z.max].
  assert ((Z.max 0 (wj_attempts claim) <? Z.max 1 (if wj_maxAttempts claim =? 0 then 3 else wj_maxAttempts claim)) = true) as ->; [|done].
  apply Z.ltb_lt. destruct (Z.eqb_spec (wj_maxAttempts claim) 0); lia.
Qed.

Lemma cancellation_lost_witness :
  (wj_status <$> (replaceWorkflowJob (failWorkflowJobRecord first_claim TNothing default_options 1800)
    (cancelActiveBuildWorkflowJobs "dep-b" "stop" 1700 [first_claim])).2 !! 0%nat) = Some QUEUED.
Proof.
  apply (cancellation_lost [first_claim] 0 first_claim "dep-b" "stop" JNull TNothing default_options 1700 1800).
  - reflexivity.
  - vm_compute. apply NoDup_singleton.
  - vm_compute. reflexivity.
  - reflexivity.
  - vm_compute. split; [discriminate|reflexivity].
Defined.

(** The lease of a running job is never consulted: no clock and no lease
    make a running job ready again, so a job whose worker died stays running. *)
Theorem running_never_reclaimed job o now :
  wj_status job = RUNNING -> isWorkflowJobReady job o now = Ok false.
Proof.
  intros Hs. unfold isWorkflowJobReady. destruct (bool_decide _); [done|]. rewrite Hs. reflexivity.
Qed.

Lemma running_never_reclaimed_witness :
  isWorkflowLockExpired first_claim default_options 999999999 = true
  /\ isWorkflowJobReady first_claim default_options 999999999 = Ok false.
Proof. split; [reflexivity|]. apply running_never_reclaimed. reflexivity. Defined.

(** Job identifiers are cut to 63 characters, so the timestamp that is to
    tell apart two jobs for the same target is lost when the target has a long
    identifier: the two jobs share an identifier, and the worker that ran the
    second reports on the first. *)
Theorem long_target_jobs_collide :
  let target := "dep-svc-team-application-frontend-2026-07-13t00-00-00-000z" in
  let a := made (createWorkflowJobRecord (build_input target <| wi_runAfter := Some 90000 |>) 1000) in
  let b := made (createWorkflowJobRecord (build_input target) 50000) in
  let '(r, jobs) := processNextWorkflowJob (fun _ => Some (fun _ s => (inl JNull, s))) default_options 60000 60001 [a; b] in
  wj_id a = wj_id b /\ wj_createdAt a <> wj_createdAt b
  /\ (exists p, r = Ok p /\ pr_ok p = true) /\ map wj_status jobs = [SUCCEEDED; RUNNING].
Proof. vm_compute. split_and!; [reflexivity|discriminate|eexists; split; reflexivity|reflexivity]. Qed.

Close Scope Z_scope.
