(* ===== verification/WorkflowRefinement.v ===== *)
(** * The store's worker loop refines the loop over an array

    [processNextWorkflowJob] and [drainWorkflowJobs] run unchanged on an array
    of jobs (as the tests and the local worker use them) and on the store,
    which logs every change.  For any queue that keeps the promises of
    [JobQueueLaws], forgetting everything but the jobs turns each step of the
    loop into a step of the loop over the array, so what is shown for arrays
    holds for the store. *)

From S2P Require Import Prelude JsString JsMap JsVal Ids Lifecycle Accounts Redaction Workflows WorkflowSafety WorkflowExamples.

Open Scope Z_scope.

Section simulation.
Context {S : Type} {Q : JobQueue S} {L : JobQueueLaws S}.
Context (handlers : string -> option (Handler S)) (array_handlers : string -> option (Handler (list WorkflowJob))).

(** A handler and its counterpart on the array answer alike and leave the
    same jobs behind; whatever else the handler does is not seen. *)
Definition handler_refines (h : Handler S) (h' : Handler (list WorkflowJob)) : Prop :=
  forall job s, h' job (queue_jobs s) = ((h job s).1, queue_jobs (h job s).2).

Context (handlers_refine : forall type, option_relation handler_refines (fun _ => False) (fun _ => False)
                                          (handlers type) (array_handlers type)).

(** What a caller sees of a processed job: the result, or that it failed. *)
Definition same_answer {A} (r r' : result A) : Prop :=
  match r, r' with Ok x, Ok x' => x = x' | Throw e, Throw e' => err_code e = err_code e' | _, _ => False end.

Lemma fail_job_refines claim error o ro now s r s' :
  fail_job claim error o ro now s = (r, s') ->
  exists r', fail_job claim error o ro now (queue_jobs s) = (r', queue_jobs s') /\ same_answer r r'.
Proof.
  unfold fail_job, mbind, M_bind.
  destruct (failInQueue claim (failWorkflowJobRecord claim error ro now) o now s) as [fr s1] eqn:Ef.
  destruct (fail_refines claim (failWorkflowJobRecord claim error ro now) o now s fr s1 eq_refl Ef) as (fr' & Ha & Hsame).
  cbn [failInQueue array_queue]. rewrite Ha.
  destruct fr, fr'; try done; intros [= <- <-]; by eexists.
Qed.

Lemma run_claim_refines claim o now s r s' :
  run_claim handlers claim o now s = (r, s') ->
  exists r', run_claim array_handlers claim o now (queue_jobs s) = (r', queue_jobs s') /\ same_answer r r'.
Proof.
  unfold run_claim.
  set (pick := match handlers (wj_type claim) with Some h => Some h | None => handlers "default" end).
  set (pick' := match array_handlers (wj_type claim) with Some h => Some h | None => array_handlers "default" end).
  assert (Hpick : option_relation handler_refines (fun _ => False) (fun _ => False) pick pick').
  { subst pick pick'. pose proof (handlers_refine (wj_type claim)) as H. pose proof (handlers_refine "default") as Hd.
    by destruct (handlers (wj_type claim)), (array_handlers (wj_type claim)). }
  destruct pick as [h|], pick' as [h'|]; try done; [|apply fail_job_refines].
  cbn in Hpick. specialize (Hpick claim s). rewrite Hpick. destruct (h claim s) as [[outcome|error] s1]; cbn [fst snd].
  2: apply fail_job_refines.
  destruct (completeInQueue claim (completeWorkflowJobRecord claim outcome now) o now s1) as [cr s2] eqn:Ec.
  destruct (complete_refines claim (completeWorkflowJobRecord claim outcome now) o now s1 cr s2 eq_refl Ec) as (cr' & Ha & Hsame).
  cbn [completeInQueue array_queue]. rewrite Ha.
  destruct cr as [j|e], cr' as [j'|e']; try done.
  - intros [= <- <-]. by eexists.
  - cbn in Hsame. rewrite <- Hsame. apply fail_job_refines.
Qed.

Lemma process_refines o claimedAt now s r s' :
  processNextWorkflowJob handlers o claimedAt now s = (r, s') ->
  exists r', processNextWorkflowJob array_handlers o claimedAt now (queue_jobs s) = (r', queue_jobs s') /\ same_answer r r'.
Proof.
  unfold processNextWorkflowJob, mbind, M_bind.
  destruct (claimFromQueue o claimedAt s) as [c s1] eqn:Ec. apply claim_refines in Ec.
  cbn [claimFromQueue array_queue]. rewrite Ec. destruct c as [[job|]|e].
  - apply run_claim_refines.
  - intros [= <- <-]. by eexists.
  - intros [= <- <-]. by eexists.
Qed.

(** ** The loop *)

(** What the loop over the array would see. *)
Definition forget (d : Drain S) : Drain (list WorkflowJob) :=
  mkDrain (queue_jobs (d_queue d)) (d_reservations d) (d_exhausted d) (d_aborted d) (d_results d) (d_workers d).

Lemma worker_step_refines o d d' :
  worker_step handlers o d d' -> worker_step array_handlers o (forget d) (forget d').
Proof.
  intros [d0 i Hi Hb|d0 i now job queue Hi Hb Hc|d0 i now e queue Hi Hb Hc|d0 i now queue Hi Hb Hc
    |d0 i now job r queue Hi Hc|d0 i now job e queue Hi Hc];
    [by apply (ws_return _ _ (forget d0) i)| | | | |].
  - apply (ws_claim _ _ (forget d0) i now); [done|done|by apply claim_refines].
  - apply (ws_claim_reject _ _ (forget d0) i now e); [done|done|by apply claim_refines].
  - apply (ws_empty _ _ (forget d0) i now); [done|done|by apply claim_refines].
  - destruct (run_claim_refines _ _ _ _ _ _ Hc) as ([r'|e'] & Ha & Hr); [|done]. cbn in Hr. subst r'.
    by apply (ws_finish _ _ (forget d0) i now job).
  - destruct (run_claim_refines _ _ _ _ _ _ Hc) as ([r'|e'] & Ha & Hr); [done|].
    by apply (ws_reject _ _ (forget d0) i now job e').
Qed.

Lemma environment_step_refines d d' : environment_step d d' -> environment_step (forget d) (forget d').
Proof. intros [d0 q|d0]; [apply (es_queue (forget d0))|apply (es_abort (forget d0))]. Qed.

Lemma drain_run_refines o n d d' :
  drain_run handlers o n d d' -> drain_run array_handlers o n (forget d) (forget d').
Proof.
  induction 1 as [d|n d d1 d2 Hs _ IH|n d d1 d2 Hs _ IH]; [apply dr_refl|..].
  - eapply dr_worker; [by apply worker_step_refines|done].
  - eapply dr_environment; [by apply environment_step_refines|done].
Qed.
End simulation.

(** ** What the store adds *)

(** The accounts stay as they are but for rows appended to the audit log. *)
Definition audited (s s' : WorkflowStore) : Prop :=
  exists rows, accounts s' = accounts s <| auditLogs := auditLogs (accounts s) ++ rows |>.

#[export] Instance audited_preorder : PreOrder audited.
Proof.
  split.
  - intros [a jobs]. exists []. rewrite app_nil_r. by destruct a.
  - intros s1 s2 s3 [r1 H1] [r2 H2]. exists (r1 ++ r2). rewrite H2, H1. cbn. by rewrite app_assoc.
Qed.

Definition audits {A} (m : M WorkflowStore A) : Prop := forall s, audited s (m s).2.

Lemma audits_bind {A B} (m : M WorkflowStore A) (f : A -> M WorkflowStore B) : audits m -> (forall a, audits (f a)) -> audits (m ≫= f).
Proof.
  intros Hm Hf s. specialize (Hm s). unfold mbind, M_bind. destruct (m s) as [[a|e] s1]; [|done]. etrans; [exact Hm|apply Hf].
Qed.

Lemma audits_ret {A} (a : A) : audits (mret a).
Proof. intros s. reflexivity. Qed.

Lemma audits_lift {A} (r : result A) : audits (lift r).
Proof. intros s. reflexivity. Qed.

Lemma audits_get : audits get.
Proof. intros s. reflexivity. Qed.

Lemma audits_jobs {A} (m : M (list WorkflowJob) A) : audits (on_jobs m).
Proof. intros s. unfold on_jobs. destruct (m (workflowJobs s)) as [r jobs]. by change (audited s s). Qed.

Lemma audits_audit actor action type_ id metadata now : audits (on_accounts (audit actor action type_ id metadata now)).
Proof. intros s. eexists. reflexivity. Qed.

#[local] Hint Resolve audits_ret audits_lift audits_get audits_jobs audits_audit : core.
Ltac solve_audits := repeat (apply audits_bind; [auto|intros ?]); auto.

Lemma claim_audits o now : audits (claimNextWorkflowJob o now).
Proof. unfold claimNextWorkflowJob. apply audits_bind; [auto|]. intros [job|]; solve_audits. Qed.

Lemma complete_audits id outcome record o now : audits (completeWorkflowJob id outcome record o now).
Proof. unfold completeWorkflowJob. solve_audits. Qed.

Lemma fail_audits id error record o now : audits (failWorkflowJob id error record o now).
Proof. unfold failWorkflowJob. solve_audits. Qed.

Section audits.
Context (handlers : string -> option (Handler WorkflowStore)).
Context (handlers_audit : forall type h job s, handlers type = Some h -> audited s (h job s).2).

Lemma fail_job_audits claim error o ro now : audits (fail_job claim error o ro now).
Proof. unfold fail_job. apply audits_bind; [apply fail_audits|auto]. Qed.

Lemma run_claim_audits claim o now : audits (run_claim handlers claim o now).
Proof.
  unfold run_claim. destruct (match handlers (wj_type claim) with Some h => _ | None => _ end) as [h|] eqn:Eh; [|apply fail_job_audits].
  intros s. assert (audited s (h claim s).2) as Hh by (destruct (handlers (wj_type claim)) eqn:E; [simplify_eq|]; by eapply handlers_audit).
  destruct (h claim s) as [[outcome|error] s1]; cbn [snd] in Hh; [|etrans; [exact Hh|apply fail_job_audits]].
  cbv zeta. pose proof (complete_audits (wj_id claim) (obj_get "lastResult" (wj_payload (completeWorkflowJobRecord claim outcome now)))
    (Some (completeWorkflowJobRecord claim outcome now)) o now s1) as Hc.
  cbn [completeInQueue store_queue]. destruct (completeWorkflowJob _ _ _ o now s1) as [[j|e] s2]; cbn [snd] in Hc.
  - etrans; [exact Hh|exact Hc].
  - etrans; [exact Hh|]. etrans; [exact Hc|apply fail_job_audits].
Qed.

Lemma process_audits o claimedAt now : audits (processNextWorkflowJob handlers o claimedAt now).
Proof. unfold processNextWorkflowJob. apply audits_bind; [apply claim_audits|]. intros [job|]; [apply run_claim_audits|auto]. Qed.

Lemma worker_step_audits o d d' : worker_step handlers o d d' -> audited (d_queue d) (d_queue d').
Proof.
  intros [d0 i Hi Hb|d0 i now job queue Hi Hb Hc|d0 i now e queue Hi Hb Hc|d0 i now queue Hi Hb Hc
    |d0 i now job r queue Hi Hc|d0 i now job e queue Hi Hc]; cbn [d_queue]; [reflexivity| | | | |];
    [pose proof (claim_audits o now (d_queue d0)) as H..|pose proof (run_claim_audits job o now (d_queue d0)) as H
    |pose proof (run_claim_audits job o now (d_queue d0)) as H].
  all: cbn [claimFromQueue store_queue] in Hc; by rewrite Hc in H.
Qed.
End audits.

(** C9. The worker loop on the store refines the loop on an array: when each
    handler has a counterpart that answers alike and changes the jobs alike,
    every run of the loop on the store, however its workers and other clients
    of the store interleave, is step by step a run of the loop on the bare
    jobs, with the same jobs, results and worker states; processing one job
    gives the same answer and the same jobs. Besides, where the handlers leave
    the accounts alone but for the audit log, so does every step of a worker and
    the processing of a job: rows appended to the audit log are all that the
    store adds. *)
Theorem store_worker_refines_array handlers array_handlers o :
  (forall type, option_relation handler_refines (fun _ => False) (fun _ => False) (handlers type) (array_handlers type)) ->
  (forall n s aborted d, drain_run handlers o n (drain_start o s aborted) d ->
     drain_run array_handlers o n (drain_start o (workflowJobs s) aborted) (forget d))
  /\ (forall claimedAt now s r s', processNextWorkflowJob handlers o claimedAt now s = (r, s') ->
       exists r', processNextWorkflowJob array_handlers o claimedAt now (workflowJobs s) = (r', workflowJobs s')
                  /\ same_answer r r')
  /\ ((forall type h job s, handlers type = Some h -> audited s (h job s).2) ->
       (forall d d', worker_step handlers o d d' -> audited (d_queue d) (d_queue d'))
       /\ forall claimedAt now s, audited s (processNextWorkflowJob handlers o claimedAt now s).2).
Proof.
  intros H. split; [|split].
  - intros n s aborted d Hr. by apply (drain_run_refines handlers array_handlers H) in Hr.
  - intros claimedAt now s r s'. apply (process_refines handlers array_handlers H).
  - intros Ha. split; [by apply worker_step_audits|]. intros claimedAt now. by apply process_audits.
Qed.

(** A handler that looks at the job only runs on either queue. *)
Definition echo {S} : Handler S := fun job s => (inl (JStr (wj_id job)), s).

Lemma store_worker_refines_array_witness :
  let store := mkWorkflowStore empty_accounts [job_a; job_b] in
  let '(r, store') := processNextWorkflowJob (fun _ => Some echo) default_options 5000 6000 store in
  (exists job, r = Ok job /\ pr_ok job = true)
  /\ (auditLogs (accounts store') <> []) /\ audited store store'
  /\ exists r', processNextWorkflowJob (fun _ => Some echo) default_options 5000 6000 [job_a; job_b]
                = (r', workflowJobs store') /\ same_answer r r'.
Proof.
  intros store.
  assert (Hseen : let '(r, store') := processNextWorkflowJob (fun _ => Some echo) default_options 5000 6000 store in
    match r with Ok j => pr_ok j | Throw _ => false end = true /\ length (auditLogs (accounts store')) = 2%nat)
    by (vm_compute; split; reflexivity).
  destruct (store_worker_refines_array (fun _ => Some echo) (fun _ => Some echo) default_options (fun _ _ _ => eq_refl)) as (_ & Hp & Ha).
  destruct (Ha ltac:(intros type h job s [= <-]; reflexivity)) as [_ Hs]. specialize (Hs 5000 6000 store).
  destruct (processNextWorkflowJob _ default_options 5000 6000 store) as [r store'] eqn:E. destruct Hseen as [Hr Hl].
  split; [destruct r as [j|]; [exists j; exact (conj eq_refl Hr)|discriminate Hr]|]. split; [intros Hnil; rewrite Hnil in Hl; discriminate Hl|]. split; [exact Hs|].
  exact (Hp _ _ _ _ _ E).
Defined.

Close Scope Z_scope.
