(* ===== verification/ControlPlane.v ===== *)
(** * Rows of the control plane ([packages/core/src/store.ts])

    Projects, services, deployments and resources are kept as plain objects
    with whatever keys their inputs had: a row is the list of its properties
    in order, [{ ...a, ...b }] is [spread], and the tables of
    [ControlPlaneStore] the following components share are one record. *)

From S2P Require Import Prelude JsString JsMap JsVal Ids Accounts Redaction Workflows.
From stdpp Require Import pretty.

Open Scope Z_scope.

Notation jsobj := (list (string * jsval)).

(** The properties of an object value; other values have none. *)
Definition entries (v : jsval) : jsobj := match v with JObj fs => fs | _ => [] end.

(** [Object.hasOwn(o, k)] *)
Definition hasOwn (k : string) (o : jsobj) : bool := map_has k o.

(** [const { k1, k2, ...rest } = o] *)
Definition without (keys : list string) (o : jsobj) : jsobj := filter (fun kv => kv.1 ∉ keys) o.

(** A destructuring default applies to a missing or undefined property. *)
Definition param (k : string) (fallback : jsval) (o : jsobj) : jsval :=
  match obj_get k o with JUndef => fallback | v => v end.

(** [value && typeof value === 'object' && !Array.isArray(value) ? value : {}] *)
Definition object_or_empty (v : jsval) : jsobj := entries v.

Definition timestamp (now : Z) : jsval := JStr (toISOString now).

(** ** Properties of objects *)

Lemma obj_get_map_get k o : obj_get k o = default JUndef (map_get k o).
Proof. induction o as [|[k' v] o IH]; cbn; [done|]. by case_decide. Qed.

Lemma spread_cons o k v changes : spread o ((k, v) :: changes) = spread (map_set k v o) changes.
Proof. reflexivity. Qed.

Lemma spread_app o a b : spread o (a ++ b) = spread (spread o a) b.
Proof. unfold spread. by rewrite foldl_app. Qed.

Lemma map_get_spread_notin k o changes : k ∉ changes.*1 -> map_get k (spread o changes) = map_get k o.
Proof.
  revert o. induction changes as [|[k' v] changes IH]; intros o; [done|]. rewrite spread_cons. cbn.
  intros [Hne Hin]%not_elem_of_cons. rewrite IH by done. by rewrite map_get_set_ne.
Qed.

Lemma obj_get_spread_notin k o changes : k ∉ changes.*1 -> obj_get k (spread o changes) = obj_get k o.
Proof. intros H. by rewrite !obj_get_map_get, map_get_spread_notin. Qed.

Lemma obj_get_set_eq k v o : obj_get k (map_set k v o) = v.
Proof. by rewrite obj_get_map_get, map_get_set_eq. Qed.

Lemma obj_get_set_ne k k' v o : k <> k' -> obj_get k' (map_set k v o) = obj_get k' o.
Proof. intros H. by rewrite !obj_get_map_get, map_get_set_ne. Qed.

(** The last binding of a key wins. *)
Lemma obj_get_spread_in k o a v b : k ∉ b.*1 -> obj_get k (spread o (a ++ (k, v) :: b)) = v.
Proof.
  intros H. rewrite spread_app, spread_cons, obj_get_spread_notin by done. apply obj_get_set_eq.
Qed.

(** When the keys of the changes are distinct, their values are what is read. *)
Lemma map_get_spread k o changes :
  NoDup changes.*1 -> map_get k (spread o changes) = match map_get k changes with Some v => Some v | None => map_get k o end.
Proof.
  revert o. induction changes as [|[k' v] changes IH]; intros o; [done|]. rewrite spread_cons. cbn [fmap list_fmap fst map_get].
  intros [Hin Hnd]%NoDup_cons. rewrite IH by done. case_decide as Heq.
  - subst k'. apply map_get_None in Hin as ->. by rewrite map_get_set_eq.
  - by rewrite map_get_set_ne by congruence.
Qed.

Lemma without_notin k keys o : k ∈ keys -> k ∉ (without keys o).*1.
Proof. intros Hk Hin. apply list_elem_of_fmap in Hin as ([k' v] & -> & Hin). by apply list_elem_of_filter in Hin as [? _]. Qed.

Lemma stableId_nonempty prefix parts : prefix <> "" -> stableId prefix parts <> "".
Proof.
  intros Hp. unfold stableId, slugify, str_or. cbv zeta. destruct (str_empty (unchars _)) eqn:E; [done|].
  rewrite str_empty_eq in E. by apply bool_decide_eq_false in E.
Qed.

(** ** The tables *)

Record ControlPlane := mkControlPlane {
  cp_workflow : WorkflowStore;
  projects : jsmap jsobj;
  services : jsmap jsobj;
  resources : jsmap jsobj;
  deployments : jsmap jsobj;
  deploymentEvents : list jsobj
}.

#[export] Instance ControlPlane_rebuild : Rebuild ControlPlane := fun s =>
  mkControlPlane (cp_workflow s) (projects s) (services s) (resources s) (deployments s) (deploymentEvents s).

Definition empty_control_plane : ControlPlane := mkControlPlane (mkWorkflowStore empty_accounts []) [] [] [] [] [].

Definition on_workflow {A} (m : M WorkflowStore A) : M ControlPlane A := fun s =>
  let '(r, w) := m (cp_workflow s) in (r, s <| cp_workflow := w |>).

Definition cp_audit (actorUserId action targetType targetId : string) (metadata : jsval) (now : Z) : M ControlPlane unit :=
  on_workflow (on_accounts (audit actorUserId action targetType targetId metadata now)).

(** [map.get(key)] for a key of any type: only strings are keys. *)
Definition lookup_row {A} (key : jsval) (table : jsmap A) : option A :=
  match key with JStr k => map_get k table | _ => None end.

Lemma cp_audit_run actor action ttype tid meta now s :
  exists w, cp_audit actor action ttype tid meta now s = (Ok tt, s <| cp_workflow := w |>)
            /\ workflowJobs w = workflowJobs (cp_workflow s).
Proof. eexists. split; [reflexivity|done]. Qed.

Close Scope Z_scope.
