(* ===== verification/Deployments.v ===== *)
(** * Deployments in the store ([packages/core/src/store.ts],
    [deployment-health.ts], [deployment-operations.ts])

    Creating, updating, moving, cancelling and rolling back deployments, and
    the events each of them leaves behind.  A deployment is a row with the
    properties the code gives it; its snapshot of the service is taken when it
    is created.  [Date.parse] is a parameter. *)

From Stdlib Require Import QArith Qround.
From stdpp Require Import pretty.
From S2P Require Import Prelude JsString JsMap JsVal Ids Lifecycle Secrets Accounts Redaction Workflows ControlPlane.

Open Scope Z_scope.

Definition INITIAL_DEPLOYMENT_HEALTH : jsobj :=
  [("publicHealthStatus", JStr (initial machine_health)); ("healthCheckedAt", JNull);
   ("healthFailureCode", JNull); ("observedGeneration", JNull)].

Definition publicDeploymentHealth (row : jsobj) : jsobj :=
  spread (spread INITIAL_DEPLOYMENT_HEALTH row)
    [("publicHealthStatus", js_nullish (obj_get "publicHealthStatus" row) (JStr (initial machine_health)))].

Definition captureDeploymentSnapshot (service : jsobj) : jsval :=
  let spec := spread (spread service (object_or_empty (obj_get "desiredState" service)))
                     (object_or_empty (obj_get "desiredSpec" service)) in
  maskSecrets (JObj (map_delete "desiredSpec" (map_delete "desiredState" spec))).

(** ** Events *)

Definition appendDeploymentEvent (deploymentId : jsval) (type_ message : string) (metadata : jsval) (now : Z)
    : M ControlPlane unit :=
  modify (fun s => s <| deploymentEvents := deploymentEvents s ++
    [[("id", JStr (stableId "devevt" [deploymentId; JNum (NInt (Z.of_nat (length (deploymentEvents s))))]));
      ("deploymentId", deploymentId); ("type", JStr type_); ("message", sanitizeLogRecord (JStr message));
      ("metadata", sanitizeLogRecord metadata); ("timestamp", timestamp now)]] |>).

(** ** Creation *)

(** The properties [createDeployment] names; the others are [rest]. *)
Definition DEPLOYMENT_PARAMETERS : list string :=
  ["id"; "serviceId"; "commitHash"; "commitSha"; "imageUrl"; "image"; "imageDigest"; "status"; "deploymentType";
   "branch"; "previewUrl"; "triggerType"; "pullRequestNumber"; "errorCode"; "errorMessage"].

Definition deployment_id (input : jsobj) (sha resolvedImageUrl : jsval) (now : Z) : string :=
  let id := param "id" JNull input in
  if truthy id then js_String id
  else stableId "dep" [obj_get "serviceId" input; js_or sha (js_or resolvedImageUrl (JNum (NInt now)))].

Definition deployment_own (input : jsobj) (status : string) (service : option jsobj) (now : Z) : jsobj :=
  let rest := without DEPLOYMENT_PARAMETERS input in
  let sha := js_or (param "commitSha" JNull input) (js_or (param "commitHash" JNull input) JNull) in
  let resolvedImageUrl := js_or (obj_get "imageUrl" input) (js_or (param "image" JNull input) JNull) in
  let pullRequestNumber := param "pullRequestNumber" JNull input in
  let errorMessage := param "errorMessage" JNull input in
    [("id", JStr (deployment_id input sha resolvedImageUrl now)); ("serviceId", obj_get "serviceId" input);
     ("projectId", js_or (obj_get "projectId" rest)
                     (js_or (match service with Some row => obj_get "projectId" row | None => JUndef end) JNull));
     ("commitHash", js_or (param "commitHash" JNull input) sha); ("commitSha", sha);
     ("imageUrl", resolvedImageUrl); ("imageDigest", param "imageDigest" JNull input); ("status", JStr status);
     ("deploymentType", param "deploymentType" (JStr "production") input); ("branch", param "branch" (JStr "main") input);
     ("previewUrl", param "previewUrl" JNull input); ("triggerType", param "triggerType" (JStr "manual") input);
     ("pullRequestNumber", if truthy pullRequestNumber then JNum (to_number pullRequestNumber) else JNull);
     ("errorCode", param "errorCode" JNull input);
     ("errorMessage", if truthy errorMessage then sanitizeLogRecord errorMessage else JNull);
     ("buildStartedAt", JNull); ("buildFinishedAt", JNull); ("deployedAt", JNull); ("startedAt", timestamp now);
     ("createdAt", timestamp now); ("updatedAt", timestamp now); ("finishedAt", JNull)].

Definition deployment_row (input : jsobj) (status : string) (service : option jsobj) (now : Z) : jsobj :=
  let rest := without DEPLOYMENT_PARAMETERS input in
  let snapshot := obj_get "desiredSpecSnapshot" rest in
  spread (spread (spread (deployment_own input status service now) (entries (maskSecrets (JObj rest)))) INITIAL_DEPLOYMENT_HEALTH)
    [("desiredSpecSnapshot", if truthy snapshot then snapshot
                             else captureDeploymentSnapshot (default [] service));
     ("snapshotVersion", js_nullish (obj_get "snapshotVersion" rest) (JNum (NInt 1)))].

Definition createDeployment (input : jsobj) (now : Z) : M ControlPlane jsobj :=
  s ← get;
  let serviceId := obj_get "serviceId" input in
  let rawStatus := param "status" (JStr "queued") input in
  status ← lift (normalizeDeploymentStatus rawStatus);
  let deployment := deployment_row input status (lookup_row serviceId (services s)) now in
  let id := js_String (obj_get "id" deployment) in
  _ ← modify (fun s => s <| deployments := map_set id deployment (deployments s) |>);
  _ ← cp_audit "system" "deployment:create" "deployment" id (JObj [("serviceId", serviceId); ("status", rawStatus)]) now;
  _ ← appendDeploymentEvent (JStr id) "deployment.queued" ("Deployment queued for " +:+ js_String serviceId) (JObj []) now;
  mret deployment.

Definition getDeployment (deploymentId : string) (s : ControlPlane) : option jsobj :=
  publicDeploymentHealth <$> map_get deploymentId (deployments s).

(** ** Updates *)

(** Properties no update may mention. *)
Definition DEPLOYMENT_LINEAGE_KEYS : list string :=
  ["desiredSpecSnapshot"; "snapshotVersion"; "sourceDeploymentId"; "retryOfDeploymentId"; "requestIdempotencyKey";
   "requestedByUserId"] ++ INITIAL_DEPLOYMENT_HEALTH.*1.

(** [if (condition) object.key = value] *)
Definition set_when (condition : bool) (key : string) (value : jsval) (object : jsobj) : jsobj :=
  if condition then map_set key value object else object.

Definition falsy (key : string) (object : jsobj) : bool := negb (truthy (obj_get key object)).

Definition status_updates (status : string) (updates current : jsobj) (at_ : jsval) (o : jsobj) : jsobj :=
  let o := set_when (bool_decide (status = "BUILDING") && falsy "buildStartedAt" current && falsy "buildStartedAt" o)
             "buildStartedAt" at_ o in
  let o := set_when (bool_decide (status = "IMAGE_READY") && falsy "buildFinishedAt" o) "buildFinishedAt" at_ o in
  let o := set_when (bool_decide (status = "DEPLOYING") && falsy "deployedAt" current && falsy "deployedAt" o)
             "deployedAt" at_ o in
  let o := if bool_decide (status = "READY") then
             let o := set_when (falsy "deployedAt" o) "deployedAt" (js_or (obj_get "deployedAt" current) at_) o in
             let o := set_when (falsy "finishedAt" o) "finishedAt" at_ o in
             let o := set_when (negb (hasOwn "errorCode" updates)) "errorCode" JNull o in
             set_when (negb (hasOwn "errorMessage" updates)) "errorMessage" JNull o
           else o in
  set_when (bool_decide (status ∈ ["FAILED"; "BUILD_FAILED"; "CANCELLED"]) && falsy "finishedAt" o) "finishedAt" at_ o.

Definition empty_to_null (v : jsval) : jsval := match v with JStr s => if str_empty s then JNull else v | _ => v end.

Definition normalizeDeploymentUpdates (updates current : jsobj) (now : Z) : result jsobj :=
  let normalized := spread [] (map (fun kv => (kv.1, empty_to_null kv.2)) updates) in
  let normalized := set_when (truthy (obj_get "image" normalized) && falsy "imageUrl" normalized)
                      "imageUrl" (obj_get "image" normalized) normalized in
  if hasOwn "status" normalized then
    status ← normalizeDeploymentStatus (obj_get "status" normalized);
    mret (status_updates status updates current (timestamp now) (map_set "status" (JStr status) normalized))
  else mret normalized.

Record UpdateOptions := mkUpdateOptions {
  uo_validateTransition : bool; uo_actorUserId : string; uo_eventType : string; uo_appendEvent : bool;
  uo_message : string; uo_metadata : jsobj
}.
Definition default_update_options : UpdateOptions := mkUpdateOptions false "" "" true "" [].

Definition status_change_message (from to : string) : string := "Deployment status changed: " +:+ from +:+ " -> " +:+ to.

(** [conflict(message)] *)
Definition immutable_lineage : jserror := conflict "deployment lineage and observations are immutable".

(** What is written: the normalized updates with the parsed status and the
    sanitized error message. *)
Definition deployment_changes (updates current : jsobj) (validateTransition : bool) (now : Z) : result jsobj :=
  let safeUpdates := entries (maskSecrets (JObj updates)) in
  nextUpdates ← normalizeDeploymentUpdates safeUpdates current now;
  nextUpdates ← (if hasOwn "status" nextUpdates then
      nextStatus ← normalizeDeploymentStatus (obj_get "status" nextUpdates);
      _ ← (if validateTransition then assertDeploymentTransition (obj_get "status" current) (JStr nextStatus) else Ok true);
      mret (map_set "status" (JStr nextStatus) nextUpdates)
    else mret nextUpdates);
  mret (if hasOwn "errorMessage" nextUpdates
        then map_set "errorMessage" (sanitizeLogRecord (js_or (obj_get "errorMessage" nextUpdates) (JStr ""))) nextUpdates
        else nextUpdates).

Definition updateDeployment (deploymentId : string) (updates : jsobj) (o : UpdateOptions) (now : Z)
    : M ControlPlane (option jsobj) :=
  s ← get;
  match map_get deploymentId (deployments s) with
  | None => mret None
  | Some current =>
      _ ← lift (throw_if (existsb (fun k => hasOwn k updates) DEPLOYMENT_LINEAGE_KEYS) immutable_lineage);
      nextUpdates ← lift (deployment_changes updates current (uo_validateTransition o) now);
      let next := map_set "updatedAt" (timestamp now) (spread current nextUpdates) in
      _ ← modify (fun s => s <| deployments := map_set deploymentId next (deployments s) |>);
      _ ← cp_audit (str_or (uo_actorUserId o) "system") "deployment:update" "deployment" deploymentId
            (JObj [("updates", JObj nextUpdates)]) now;
      statusChanged ← lift (if hasOwn "status" nextUpdates then
          from ← normalizeDeploymentStatus (obj_get "status" current);
          to ← normalizeDeploymentStatus (obj_get "status" next);
          mret (negb (bool_decide (from = to)))
        else Ok false);
      _ ← (if (statusChanged || negb (str_empty (uo_eventType o))) && uo_appendEvent o then
             from ← lift (normalizeDeploymentStatus (obj_get "status" current));
             to ← lift (normalizeDeploymentStatus (obj_get "status" next));
             appendDeploymentEvent (JStr deploymentId) (str_or (uo_eventType o) "deployment.status.changed")
               (str_or (uo_message o) (status_change_message from to))
               (JObj (spread [("from", JStr from); ("to", JStr to); ("imageUrl", js_or (obj_get "imageUrl" next) JNull);
                              ("imageDigest", js_or (obj_get "imageDigest" next) JNull);
                              ("errorCode", js_or (obj_get "errorCode" next) JNull)] (uo_metadata o))) now
           else mret tt);
      mret (Some next)
  end.

Definition deployment_not_found (id : string) : jserror := notFound ("deployment not found: " +:+ id).

Definition transitionDeployment (deploymentId : string) (status : jsval) (updates : jsobj) (o : UpdateOptions) (now : Z)
    : M ControlPlane (option jsobj) :=
  s ← get;
  current ← lift (match map_get deploymentId (deployments s) with
                  | Some row => Ok row
                  | None => Throw (deployment_not_found deploymentId)
                  end);
  nextStatus ← lift (normalizeDeploymentStatus status);
  _ ← lift (assertDeploymentTransition (obj_get "status" current) (JStr nextStatus));
  deployment ← updateDeployment deploymentId (map_set "status" (JStr nextStatus) updates)
                 (mkUpdateOptions false (uo_actorUserId o) (uo_eventType o) false (uo_message o) (uo_metadata o)) now;
  from ← lift (normalizeDeploymentStatus (obj_get "status" current));
  _ ← appendDeploymentEvent (JStr deploymentId) (str_or (uo_eventType o) "deployment.status.changed")
        (str_or (uo_message o) (status_change_message from nextStatus))
        (JObj (spread [("from", JStr from); ("to", JStr nextStatus)] (uo_metadata o))) now;
  mret deployment.

(** ** Cancellation *)

Record CancelInput := mkCancel { ci_reason : string; ci_errorCode : string; ci_errorMessage : string; ci_actorUserId : string }.

Definition cancellation_conflict : jserror :=
  conflict ("deployment_cancellation_conflict: deployment cannot be cancelled after runtime reconciliation "
            +:+ "has started or reached a terminal state").

Definition cancelDeployment (deploymentId : string) (input : CancelInput) (now : Z) : M ControlPlane (option jsobj) :=
  s ← get;
  current ← lift (match map_get deploymentId (deployments s) with
                  | Some row => Ok row
                  | None => Throw (deployment_not_found deploymentId)
                  end);
  currentStatus ← lift (normalizeDeploymentStatus (obj_get "status" current));
  if bool_decide (currentStatus = "CANCELLED") then mret (Some current)
  else
    cancellable ← lift (canCancelDeployment (JStr currentStatus));
    _ ← lift (throw_if (negb cancellable) cancellation_conflict);
    _ ← on_workflow (on_jobs (modify (cancelActiveBuildWorkflowJobs deploymentId
          (str_or (ci_reason input) "Deployment cancelled") now)));
    transitionDeployment deploymentId (JStr "CANCELLED")
      [("errorCode", JStr (str_or (ci_errorCode input) "DEPLOYMENT_CANCELLED"));
       ("errorMessage", JStr (str_or (ci_reason input) (str_or (ci_errorMessage input) "Deployment cancelled")));
       ("reconcileAction", JNull); ("reconcileLockedBy", JNull); ("reconcileLockedAt", JNull)]
      (mkUpdateOptions false (str_or (ci_actorUserId input) "system") "deployment.cancelled" true
         (str_or (ci_reason input) "Deployment cancelled") []) now.

(** ** Rollback *)

Section rollback.
Context (dateParse : string -> option Z).

Definition dateMs (value : jsval) : Z :=
  if negb (truthy value) then 0 else
  match value with
  | JNum (NInt z) => if (Z.abs z <=? 8640000000000000) then z else 0
  | JNum (NFrac _ q) => if Qle_bool 0 q then Qfloor q else Qceiling q
  | JNum _ => 0
  | JBool _ => 1
  | _ => default 0 (dateParse (js_String value))
  end.

Definition rollback_time (row : jsobj) : Z :=
  dateMs (js_or (obj_get "deployedAt" row) (js_or (obj_get "finishedAt" row) (obj_get "createdAt" row))).

Definition has_image (row : jsobj) : bool := truthy (js_or (obj_get "imageUrl" row) (obj_get "image" row)).

(** The filter parses the status of every candidate of the service. *)
Fixpoint ready_deployments (rows : list jsobj) (current : jsobj) : result (list jsobj) :=
  match rows with
  | [] => Ok []
  | row :: rest =>
      keep ← (if negb (bool_decide (js_String (obj_get "id" row) = js_String (obj_get "id" current)))
                 && bool_decide (js_String (obj_get "serviceId" row) = js_String (obj_get "serviceId" current))
              then status ← normalizeDeploymentStatus (obj_get "status" row);
                   mret (bool_decide (status = "READY") && has_image row)
              else Ok false);
      others ← ready_deployments rest current;
      mret (if keep : bool then row :: others else others)
  end.

Definition later_first (left right : jsobj) : bool := rollback_time right <=? rollback_time left.

Definition latestReadyDeploymentForService (rows : list jsobj) (current : jsobj) : result (option jsobj) :=
  ready ← ready_deployments rows current;
  mret (head (js_sort later_first ready)).

Definition text_or_empty (v : jsval) : string := if truthy v then js_String v else "".

Definition validateRollbackSource (current : jsobj) (previous : option jsobj) (explicitPreviousDeploymentId : string)
    : result jsobj :=
  match previous with
  | None =>
      _ ← throw_if (negb (str_empty explicitPreviousDeploymentId))
            (notFound ("rollback source deployment not found: " +:+ explicitPreviousDeploymentId));
      Throw (conflict "no previous READY deployment image is available for rollback")
  | Some previous =>
      _ ← throw_if (negb (bool_decide (text_or_empty (obj_get "projectId" previous) = text_or_empty (obj_get "projectId" current)))
                    || negb (bool_decide (text_or_empty (obj_get "serviceId" previous) = text_or_empty (obj_get "serviceId" current))))
            (forbidden "rollback source deployment must belong to the same service and project");
      _ ← throw_if (negb (bool_decide (toUpperCase (text_or_empty (obj_get "status" previous)) = "READY")) || negb (has_image previous))
            (conflict "rollback source deployment must be READY and have an image");
      Ok previous
  end.

Definition rollback_id (current : jsobj) (now : Z) : string :=
  stableId "dep" [obj_get "serviceId" current; JStr "rollback"; obj_get "id" current; timestamp now].

Definition rollback_input (current previous : jsobj) (branch : string) (now : Z) : jsobj :=
  [("id", JStr (rollback_id current now));
   ("serviceId", obj_get "serviceId" current); ("projectId", obj_get "projectId" current);
   ("commitSha", js_or (obj_get "commitSha" previous) (js_or (obj_get "commitSha" current) JNull));
   ("imageUrl", js_or (obj_get "imageUrl" previous) (js_or (obj_get "image" previous) JNull));
   ("imageDigest", js_or (obj_get "imageDigest" previous) JNull); ("status", JStr "IMAGE_READY");
   ("deploymentType", js_or (obj_get "deploymentType" current) (JStr "production")); ("triggerType", JStr "rollback");
   ("branch", js_or (JStr branch) (js_or (obj_get "branch" current) (js_or (obj_get "branch" previous) (JStr "main"))));
   ("previousDeploymentId", js_or (obj_get "id" previous) JNull); ("rollbackOfDeploymentId", obj_get "id" current)].

Record RollbackResult := mkRollback { rb_deployment : jsobj; rb_previous : jsobj; rb_job : WorkflowJob }.

Definition rollbackDeployment (deploymentId previousDeploymentId branch : string) (now : Z) : M ControlPlane RollbackResult :=
  s ← get;
  current ← lift (match map_get deploymentId (deployments s) with
                  | Some row => Ok row
                  | None => Throw (deployment_not_found deploymentId)
                  end);
  candidate ← lift (if str_empty previousDeploymentId
                    then latestReadyDeploymentForService (map_values (deployments s)) current
                    else Ok (map_get previousDeploymentId (deployments s)));
  previous ← lift (validateRollbackSource current candidate previousDeploymentId);
  let imageUrl := js_or (obj_get "imageUrl" previous) (js_or (obj_get "image" previous) JNull) in
  _ ← lift (throw_if (negb (truthy imageUrl)) (conflict "no previous READY deployment image is available for rollback"));
  let imageDigest := js_or (obj_get "imageDigest" previous) JNull in
  let previousId := js_or (obj_get "id" previous) JNull in
  rollback ← createDeployment (rollback_input current previous branch now) now;
  let rollbackId := obj_get "id" rollback in
  _ ← appendDeploymentEvent (obj_get "id" current) "deployment.rollback.requested"
        ("Rollback requested to " +:+ js_String imageUrl)
        (JObj [("rollbackDeploymentId", rollbackId); ("previousDeploymentId", previousId); ("imageUrl", imageUrl);
               ("imageDigest", imageDigest)]) now;
  _ ← appendDeploymentEvent rollbackId "deployment.rollback.created"
        ("Rollback deployment created from " +:+ js_String (obj_get "id" current))
        (JObj [("rollbackOfDeploymentId", obj_get "id" current); ("previousDeploymentId", previousId);
               ("imageUrl", imageUrl); ("imageDigest", imageDigest)]) now;
  job ← on_workflow (enqueueWorkflowJob (mkInput "" "rollback-deploy" "" "deployment" (js_String rollbackId) "" ""
          [("deploymentId", rollbackId); ("rollbackOfDeploymentId", obj_get "id" current);
           ("previousDeploymentId", previousId); ("serviceId", obj_get "serviceId" rollback);
           ("projectId", obj_get "projectId" rollback); ("imageUrl", imageUrl); ("imageDigest", imageDigest)]
          None None None None None None None) now);
  mret (mkRollback rollback previous job).
End rollback.

Close Scope Z_scope.
