(* ===== verification/DeploymentSafety.v ===== *)
(** * Properties of deployments

    Statuses move along the lifecycle contract and lineage never changes,
    cancellation is exact, a rollback goes back to an image of the same
    service that was ready, and the identifiers of rollbacks collide. *)

From S2P Require Import Prelude JsString JsMap JsVal Ids Lifecycle Secrets Accounts Redaction Workflows ControlPlane Deployments.

Open Scope Z_scope.

#[local] Opaque sanitizeLogRecord.

(** ** What an update writes *)

Lemma keys_mask o : (entries (maskSecrets (JObj o))).*1 = o.*1.
Proof. cbn [maskSecrets entries]. rewrite <- list_fmap_compose. apply list_fmap_ext. by intros ? [k v]. Qed.

Lemma keys_spread_subset o changes k : k ∈ (spread o changes).*1 -> k ∈ o.*1 \/ k ∈ changes.*1.
Proof.
  revert o. induction changes as [|[k' v] changes IH]; intros o; [by left|]. rewrite spread_cons.
  intros [Hk|Hk]%IH; [|by right; right]. apply map_keys_set_subset in Hk as [->|Hk]; [by right; left|by left].
Qed.

Lemma nodup_spread o changes : NoDup o.*1 -> NoDup (spread o changes).*1.
Proof.
  revert o. induction changes as [|[k v] changes IH]; intros o Ho; [done|]. rewrite spread_cons.
  apply IH. by apply (map_wf_set k v o).
Qed.

Lemma set_when_keys c key v o k : k ∈ (set_when c key v o).*1 -> k = key \/ k ∈ o.*1.
Proof. destruct c; cbn; [apply map_keys_set_subset|by right]. Qed.

Lemma set_when_nodup c key v o : NoDup o.*1 -> NoDup (set_when c key v o).*1.
Proof. destruct c; cbn; [apply map_wf_set|done]. Qed.

Lemma set_when_get c key v o k : k <> key -> obj_get k (set_when c key v o) = obj_get k o.
Proof. intros H. destruct c; cbn; [by apply obj_get_set_ne|done]. Qed.

(** The properties an update may write besides those it was given. *)
Definition derived_keys : list string :=
  ["imageUrl"; "status"; "buildStartedAt"; "buildFinishedAt"; "deployedAt"; "finishedAt"; "errorCode"; "errorMessage"].

(** Statuses and the other properties are written once. *)
Record writes (updates nextUpdates : jsobj) : Prop := {
  w_keys : forall k, k ∈ nextUpdates.*1 -> k ∈ updates.*1 \/ k ∈ derived_keys;
  w_nodup : NoDup nextUpdates.*1
}.

Lemma writes_set updates o c key v : key ∈ derived_keys -> writes updates o -> writes updates (set_when c key v o).
Proof.
  intros Hk [H1 H2]. split; [|by apply set_when_nodup].
  intros k [->|Hin]%set_when_keys; [by right|by apply H1].
Qed.

Lemma writes_map_set updates o key v : key ∈ derived_keys -> writes updates o -> writes updates (map_set key v o).
Proof. apply (writes_set updates o true). Qed.

Ltac derived := apply (bool_decide_unpack _); vm_compute; exact I.

Lemma status_updates_writes status updates u current at_ o :
  writes updates o -> writes updates (status_updates status u current at_ o).
Proof.
  intros H. unfold status_updates. cbv zeta. apply writes_set; [derived|].
  case_bool_decide.
  - do 7 (apply writes_set; [derived|]). done.
  - do 3 (apply writes_set; [derived|]). done.
Qed.

Lemma status_updates_status status u current at_ o :
  obj_get "status" (status_updates status u current at_ o) = obj_get "status" o.
Proof.
  unfold status_updates. cbv zeta. rewrite set_when_get by done. case_bool_decide; by rewrite !set_when_get.
Qed.

Lemma normalizeDeploymentUpdates_writes updates current now next :
  normalizeDeploymentUpdates updates current now = Ok next -> writes updates next.
Proof.
  unfold normalizeDeploymentUpdates. cbv zeta.
  set (n0 := spread [] _). set (n1 := set_when _ "imageUrl" _ n0).
  assert (H0 : writes updates n0).
  { split; [|by apply nodup_spread, NoDup_nil_2].
    intros k [Hk|Hk]%keys_spread_subset; [by apply not_elem_of_nil in Hk|left].
    by rewrite <- list_fmap_compose in Hk. }
  assert (H1 : writes updates n1) by (apply writes_set; [derived|done]).
  destruct (hasOwn "status" n1); [|by intros [= <-]].
  intros (status & _ & [= <-])%bind_Ok. apply status_updates_writes.
  apply writes_map_set; [derived|done].
Qed.

Lemma deployment_changes_writes updates current v now next :
  deployment_changes updates current v now = Ok next -> writes updates next.
Proof.
  unfold deployment_changes. cbv zeta. intros (n0 & Hn0%normalizeDeploymentUpdates_writes & H)%bind_Ok.
  apply bind_Ok in H as (n1 & Hn1 & [= <-]).
  assert (H0 : writes updates n0).
  { destruct Hn0 as [Hk Hnd]. split; [|done]. intros k Hin. rewrite keys_mask in Hk. by apply Hk. }
  assert (H1 : writes updates n1).
  { destruct (hasOwn "status" n0); [|by injection Hn1 as <-].
    apply bind_Ok in Hn1 as (? & _ & Hn1). apply bind_Ok in Hn1 as (? & _ & [= <-]).
    apply writes_map_set; [derived|done]. }
  destruct (hasOwn "errorMessage" n1); [|done]. apply writes_map_set; [derived|exact H1].
Qed.

(** The row that results when the changes are applied. *)
Definition updated_row (current nextUpdates : jsobj) (now : Z) : jsobj :=
  map_set "updatedAt" (timestamp now) (spread current nextUpdates).

Lemma updated_row_lineage updates current v now next k :
  deployment_changes updates current v now = Ok next ->
  existsb (fun k => hasOwn k updates) DEPLOYMENT_LINEAGE_KEYS = false ->
  k ∈ DEPLOYMENT_LINEAGE_KEYS -> obj_get k (updated_row current next now) = obj_get k current.
Proof.
  intros Hc%deployment_changes_writes Hno Hk. unfold updated_row.
  assert (Hder : k <> "updatedAt" /\ k ∉ derived_keys).
  { clear -Hk. each_member Hk; (split; [done|]); derived. }
  rewrite obj_get_set_ne by (intros <-; by destruct Hder). apply obj_get_spread_notin. intros Hin.
  apply (w_keys _ _ Hc) in Hin as [Hin|Hin]; [|by apply Hder].
  apply not_true_iff_false in Hno. apply Hno, existsb_exists. exists k. split; [by apply list_elem_of_In|].
  unfold hasOwn, map_has. destruct (map_get k updates) eqn:E; [done|]. by apply map_get_None in E.
Qed.

(** A status that is written parses, and follows the contract when the
    transition is checked; without one the status stays. *)
Lemma hasOwn_get k o : hasOwn k o = true -> map_get k o = Some (obj_get k o).
Proof. unfold hasOwn, map_has. rewrite obj_get_map_get. by destruct (map_get k o). Qed.

Lemma hasOwn_false k o : hasOwn k o = false -> k ∉ o.*1.
Proof. unfold hasOwn, map_has. intros H. destruct (map_get k o) eqn:E; [done|]. by apply map_get_None. Qed.

Lemma assert_sound from t :
  assertDeploymentTransition from (JStr t) = Ok true -> t ∈ SchemaLifecycle.DeploymentStatusSchema ->
  exists s, parseDeploymentStatus from = Ok s /\ (s = t \/ lifecycle_step machine_deployment s t).
Proof.
  unfold assertDeploymentTransition, normalizeDeploymentStatus. intros H Ht.
  apply bind_Ok in H as (s & Hs & H). rewrite parse_canonical in H by done. cbn [mbind result_bind] in H.
  unfold canTransitionDeployment, normalizeDeploymentStatus in H.
  rewrite (parse_canonical s) in H by (by eapply parseDeploymentStatus_status). rewrite parse_canonical in H by done.
  cbn [mbind result_bind] in H. exists s. split; [done|]. unfold lifecycle_step. revert H.
  repeat case_bool_decide; cbn; naive_solver.
Qed.

Lemma assert_value from to b : assertDeploymentTransition from to = Ok b -> b = true.
Proof. unfold assertDeploymentTransition. intros. unbind. by destruct x1; simplify_eq. Qed.

Lemma deployment_changes_status updates current v now next :
  deployment_changes updates current v now = Ok next ->
  (hasOwn "status" next = false /\ obj_get "status" (updated_row current next now) = obj_get "status" current)
  \/ exists t, obj_get "status" next = JStr t /\ obj_get "status" (updated_row current next now) = JStr t
       /\ t ∈ SchemaLifecycle.DeploymentStatusSchema
       /\ (v = true -> exists s, parseDeploymentStatus (obj_get "status" current) = Ok s
                         /\ (s = t \/ lifecycle_step machine_deployment s t)).
Proof.
  intros Hc. pose proof (deployment_changes_writes _ _ _ _ _ Hc) as [_ Hnd].
  assert (Hrow : obj_get "status" (updated_row current next now)
                 = match map_get "status" next with Some x => x | None => obj_get "status" current end).
  { unfold updated_row. rewrite obj_get_set_ne, !obj_get_map_get, map_get_spread by done. by destruct (map_get "status" next). }
  rewrite Hrow. unfold deployment_changes in Hc. cbv zeta in Hc.
  apply bind_Ok in Hc as (n0 & _ & Hc). apply bind_Ok in Hc as (n1 & Hn1 & [= Hnext]).
  assert (Hsame : map_get "status" next = map_get "status" n1).
  { rewrite <- Hnext. destruct (hasOwn "errorMessage" n1); [|done]. by rewrite map_get_set_ne. }
  unfold hasOwn, map_has. rewrite !(obj_get_map_get _ next), Hsame. destruct (hasOwn "status" n0) eqn:Eh.
  - apply bind_Ok in Hn1 as (t & Ht & Hn1). apply bind_Ok in Hn1 as (b & Hb & [= <-]).
    rewrite map_get_set_eq. cbn [default]. right. exists t. split_and!; [done|done|by eapply parseDeploymentStatus_status|].
    intros ->. pose proof (assert_value _ _ _ Hb) as ->. eapply assert_sound; [done|]. by eapply parseDeploymentStatus_status.
  - injection Hn1 as <-. apply hasOwn_false, map_get_None in Eh. rewrite Eh. by left.
Qed.

(** ** Runs of the operations *)

Lemma updateDeployment_run id updates o now s r s' :
  updateDeployment id updates o now s = (r, s') ->
  (deployments s' = deployments s)
  \/ exists current next, map_get id (deployments s) = Some current
       /\ deployment_changes updates current (uo_validateTransition o) now = Ok next
       /\ existsb (fun k => hasOwn k updates) DEPLOYMENT_LINEAGE_KEYS = false
       /\ deployments s' = map_set id (updated_row current next now) (deployments s).
Proof.
  unfold updateDeployment, mbind, M_bind, get, lift, modify.
  destruct (map_get id (deployments s)) as [current|] eqn:El; [|intros [= _ <-]; by left].
  destruct (existsb (fun k => hasOwn k updates) DEPLOYMENT_LINEAGE_KEYS) eqn:Eg; [intros [= _ <-]; by left|].
  cbn [throw_if]. destruct (deployment_changes updates current (uo_validateTransition o) now) as [next|e] eqn:Ec;
    [|intros [= _ <-]; by left].
  fold (updated_row current next now). cbv beta zeta.
  set (s1 := s <| deployments := _ |>).
  destruct (cp_audit_run (str_or (uo_actorUserId o) "system") "deployment:update" "deployment" id
              (JObj [("updates", JObj next)]) now s1) as (w & -> & _).
  intros H. right. exists current, next. split_and!; try done.
  enough (Hd : deployments s' = deployments s1) by (rewrite Hd; done).
  destruct (if hasOwn "status" next then _ else _) as [b|e]; [|by injection H as _ <-].
  destruct ((b || _) && _); [|by injection H as _ <-].
  destruct (normalizeDeploymentStatus (obj_get "status" current)); [|by injection H as _ <-].
  destruct (normalizeDeploymentStatus (obj_get "status" (updated_row current next now))); by injection H as _ <-.
Qed.

Lemma map_get_values (f : string -> jsval -> jsval) k o :
  map_get k (map (fun kv => (kv.1, f kv.1 kv.2)) o) = f k <$> map_get k o.
Proof. induction o as [|[k' v] o IH]; cbn; [done|]. case_decide; subst; done. Qed.

Lemma masked_status t o :
  t ∈ SchemaLifecycle.DeploymentStatusSchema -> map_get "status" o = Some (JStr t) ->
  map_get "status" (map (fun kv => (kv.1, empty_to_null kv.2)) (entries (maskSecrets (JObj o)))) = Some (JStr t).
Proof.
  intros Ht Ho. pose proof (map_get_values (fun _ v => empty_to_null v) "status" (entries (maskSecrets (JObj o)))) as ->.
  cbn [maskSecrets entries].
  pose (mask := fun (k : string) (v : jsval) => if negb (isSafeSecretMetadataKey k) && isSecretKey k && is_scalar v
                                                then maskSecretValue v else maskSecrets v).
  rewrite (map_ext _ (fun kv => (kv.1, mask kv.1 kv.2))) by (by intros [k v]).
  rewrite (map_get_values mask), Ho. subst mask. clear Ho. each_member Ht; vm_compute; reflexivity.
Qed.

Lemma normalized_status t updates current now :
  t ∈ SchemaLifecycle.DeploymentStatusSchema -> NoDup updates.*1 ->
  exists n, normalizeDeploymentUpdates (entries (maskSecrets (JObj (map_set "status" (JStr t) updates)))) current now = Ok n
            /\ map_get "status" n = Some (JStr t).
Proof.
  intros Ht Hnd. unfold normalizeDeploymentUpdates. cbv zeta. set (b0 := spread [] _). set (b1 := set_when _ _ _ b0).
  assert (Hb0 : map_get "status" b0 = Some (JStr t)).
  { subst b0. rewrite map_get_spread.
    - rewrite (masked_status t); [done|done|apply map_get_set_eq].
    - rewrite <- list_fmap_compose. change (NoDup (entries (maskSecrets (JObj (map_set "status" (JStr t) updates)))).*1).
      rewrite keys_mask. by apply map_wf_set. }
  assert (Hb1 : map_get "status" b1 = Some (JStr t)).
  { subst b1. unfold set_when. destruct (_ && _); [by rewrite map_get_set_ne|done]. }
  assert (Hh : hasOwn "status" b1 = true) by (unfold hasOwn, map_has; by rewrite Hb1).
  assert (Hg : obj_get "status" b1 = JStr t) by (by rewrite obj_get_map_get, Hb1). rewrite Hh, Hg.
  unfold normalizeDeploymentStatus. rewrite parse_canonical by done. cbn [mbind result_bind].
  eexists. split; [reflexivity|].
  match goal with |- map_get "status" ?o = _ => assert (Hs : obj_get "status" o = JStr t) end.
  { rewrite status_updates_status. apply obj_get_set_eq. }
  rewrite obj_get_map_get in Hs. by destruct (map_get "status" (status_updates _ _ _ _ _)); cbn in Hs; simplify_eq.
Qed.

(** An update that sets a canonical status without a check succeeds and writes it. *)
Lemma forced_status t updates current now :
  t ∈ SchemaLifecycle.DeploymentStatusSchema -> NoDup updates.*1 ->
  exists next, deployment_changes (map_set "status" (JStr t) updates) current false now = Ok next
               /\ obj_get "status" next = JStr t.
Proof.
  intros Ht Hnd. destruct (normalized_status t updates current now Ht Hnd) as (n & Hn & Hs).
  unfold deployment_changes. cbv zeta. rewrite Hn. cbn [mbind result_bind].
  assert (Hh : hasOwn "status" n = true) by (unfold hasOwn, map_has; by rewrite Hs).
  assert (Hg : obj_get "status" n = JStr t) by (by rewrite obj_get_map_get, Hs). rewrite Hh, Hg.
  unfold normalizeDeploymentStatus. rewrite parse_canonical by done. cbn [mbind result_bind].
  eexists. split; [reflexivity|].
  destruct (hasOwn "errorMessage" _); [rewrite obj_get_set_ne by done|]; apply obj_get_set_eq.
Qed.

(** What an operation may do to the row of a deployment. *)
Definition row_step (row row' : jsobj) : Prop :=
  (forall k, k ∈ DEPLOYMENT_LINEAGE_KEYS -> obj_get k row' = obj_get k row)
  /\ (obj_get "status" row' = obj_get "status" row
      \/ exists s t, parseDeploymentStatus (obj_get "status" row) = Ok s /\ obj_get "status" row' = JStr t
           /\ t ∈ SchemaLifecycle.DeploymentStatusSchema /\ (s = t \/ lifecycle_step machine_deployment s t)).

Definition rows_step (s s' : ControlPlane) : Prop :=
  forall id row, map_get id (deployments s) = Some row ->
    exists row', map_get id (deployments s') = Some row' /\ row_step row row'.

Lemma row_step_refl row : row_step row row.
Proof. by split; [|left]. Qed.

Lemma rows_step_same s s' : deployments s' = deployments s -> rows_step s s'.
Proof. intros Hd id row H. exists row. rewrite Hd. split; [done|apply row_step_refl]. Qed.

Lemma rows_step_set id current row s s' :
  map_get id (deployments s) = Some current -> deployments s' = map_set id row (deployments s) -> row_step current row ->
  rows_step s s'.
Proof.
  intros Hc Hd Hrow id' row' Hr. rewrite Hd. destruct (decide (id' = id)) as [->|Hne].
  - exists row. rewrite map_get_set_eq. simplify_eq. done.
  - exists row'. rewrite map_get_set_ne by done. split; [done|apply row_step_refl].
Qed.

Lemma update_rows_step id updates o now s r s' :
  uo_validateTransition o = true -> updateDeployment id updates o now s = (r, s') -> rows_step s s'.
Proof.
  intros Hv [Hd|(current & next & Hl & Hc & Hg & Hd)]%updateDeployment_run; [by apply rows_step_same|].
  eapply rows_step_set; [done..|]. split; [intros k Hk; by eapply updated_row_lineage|].
  destruct (deployment_changes_status _ _ _ _ _ Hc) as [[_ Hs]|(t & _ & Hs & Ht & Hstep)]; [by left|right].
  destruct (Hstep Hv) as (s0 & Hs0 & Hst). by exists s0, t.
Qed.

Lemma transition_rows_step id status updates o now s r s' :
  NoDup updates.*1 -> transitionDeployment id status updates o now s = (r, s') -> rows_step s s'.
Proof.
  intros Hnd. unfold transitionDeployment, mbind, M_bind, get, lift.
  destruct (map_get id (deployments s)) as [current|] eqn:El; [|intros [= _ <-]; by apply rows_step_same].
  destruct (normalizeDeploymentStatus status) as [t|e] eqn:Et; [|intros [= _ <-]; by apply rows_step_same].
  destruct (assertDeploymentTransition (obj_get "status" current) (JStr t)) as [b|e] eqn:Ea;
    [|intros [= _ <-]; by apply rows_step_same].
  apply parseDeploymentStatus_status in Et. pose proof (assert_value _ _ _ Ea) as ->.
  destruct (assert_sound _ _ Ea Et) as (s0 & Hs0 & Hst).
  destruct (updateDeployment id _ _ now s) as [r1 s1] eqn:Eu. intros H.
  assert (Hd1 : deployments s' = deployments s1).
  { destruct r1; [|by injection H as _ <-]. destruct (normalizeDeploymentStatus _); by injection H as _ <-. }
  apply updateDeployment_run in Eu as [Hd|(current' & next & Hl & Hc & Hg & Hd)]; [apply rows_step_same; congruence|].
  rewrite El in Hl. injection Hl as <-. eapply rows_step_set; [done|by rewrite Hd1, Hd|].
  split; [intros k Hk; by eapply updated_row_lineage|right]. exists s0, t. split_and!; try done.
  destruct (forced_status t updates current now Et Hnd) as (next' & Hc' & Hnext).
  cbn [uo_validateTransition] in Hc. rewrite Hc' in Hc. injection Hc as ->.
  pose proof Hc' as Hc.
  destruct (deployment_changes_status _ _ _ _ _ Hc) as [[Hno _]|(t' & Hn & Hrow & _)].
  - apply hasOwn_false, map_get_None in Hno. rewrite obj_get_map_get, Hno in Hnext. done.
  - rewrite Hrow. congruence.
Qed.

Lemma cancel_rows_step id input now s r s' : cancelDeployment id input now s = (r, s') -> rows_step s s'.
Proof.
  unfold cancelDeployment, mbind at 1, M_bind at 1, get. cbv beta iota.
  unfold mbind at 1, M_bind at 1, lift at 1.
  destruct (map_get id (deployments s)) as [current|]; [|intros [= _ <-]; by apply rows_step_same].
  unfold mbind at 1, M_bind at 1, lift at 1.
  destruct (normalizeDeploymentStatus (obj_get "status" current)); [|intros [= _ <-]; by apply rows_step_same].
  case_bool_decide; [intros [= _ <-]; by apply rows_step_same|].
  unfold mbind at 1, M_bind at 1, lift at 1. destruct (canCancelDeployment _); [|intros [= _ <-]; by apply rows_step_same].
  unfold mbind at 1, M_bind at 1, lift at 1. destruct (throw_if _ _); [|intros [= _ <-]; by apply rows_step_same].
  unfold mbind at 1, M_bind at 1. cbn [on_workflow on_jobs modify].
  intros Ht%transition_rows_step; [exact Ht|]. apply (bool_decide_unpack _). vm_compute. exact I.
Qed.

(** A creation writes one row. *)
Lemma create_deployments input now s r s' :
  createDeployment input now s = (r, s') ->
  deployments s' = deployments s
  \/ exists row, r = Ok row /\ deployments s' = map_set (js_String (obj_get "id" row)) row (deployments s).
Proof.
  unfold createDeployment, mbind, M_bind, get, lift, modify.
  destruct (normalizeDeploymentStatus _) as [st|e]; [|intros [= _ <-]; by left].
  set (row := deployment_row _ _ _ _). intros [= <- <-]. right. by exists row.
Qed.

(** The rows under other identifiers than the created ones evolve; none is lost. *)
Definition rows_kept (created : list string) (s s' : ControlPlane) : Prop :=
  forall id row, map_get id (deployments s) = Some row ->
    exists row', map_get id (deployments s') = Some row' /\ (id ∉ created -> row_step row row').

Lemma rows_step_kept s s' : rows_step s s' -> rows_kept [] s s'.
Proof. intros H id row Hr. destruct (H id row Hr) as (row' & ? & ?). by exists row'. Qed.

Lemma rows_kept_set id row s s' : deployments s' = map_set id row (deployments s) -> rows_kept [id] s s'.
Proof.
  intros Hd id' row' Hr. rewrite Hd. destruct (decide (id' = id)) as [->|Hne].
  - exists row. rewrite map_get_set_eq. split; [done|]. intros []. by left.
  - exists row'. rewrite map_get_set_ne by done. split; [done|]. intros _. apply row_step_refl.
Qed.

(** The parameters of a creation are stored as they were resolved. *)
Lemma deployment_row_param k input status service now :
  k ∈ DEPLOYMENT_PARAMETERS ->
  obj_get k (deployment_row input status service now) = obj_get k (deployment_own input status service now).
Proof.
  intros Hk. unfold deployment_row. cbv zeta.
  assert (Hn : k ∉ ["desiredSpecSnapshot"; "snapshotVersion"] /\ k ∉ INITIAL_DEPLOYMENT_HEALTH.*1).
  { clear -Hk. each_member Hk; (split; apply (bool_decide_unpack _); vm_compute; exact I). }
  rewrite !obj_get_spread_notin; [done|rewrite keys_mask; by apply without_notin|apply Hn|apply Hn].
Qed.

Lemma deployment_id_given input id sha image now : obj_get "id" input = JStr id -> id <> "" -> deployment_id input sha image now = id.
Proof.
  intros H Hne. unfold deployment_id, param. rewrite H. cbn [truthy]. rewrite str_empty_eq. by case_bool_decide.
Qed.

(** The same fields after an event, an audit row or a new job. *)
Lemma create_run input now s status :
  normalizeDeploymentStatus (param "status" (JStr "queued") input) = Ok status ->
  let row := deployment_row input status (lookup_row (obj_get "serviceId" input) (services s)) now in
  exists s', createDeployment input now s = (Ok row, s')
    /\ deployments s' = map_set (js_String (obj_get "id" row)) row (deployments s)
    /\ workflowJobs (cp_workflow s') = workflowJobs (cp_workflow s).
Proof.
  intros Hst row. eexists. unfold createDeployment, mbind, M_bind, get, lift, modify. rewrite Hst.
  split; [reflexivity|]. split; reflexivity.
Qed.

Lemma event_run id type_ message metadata now s :
  exists s', appendDeploymentEvent id type_ message metadata now s = (Ok tt, s')
    /\ deployments s' = deployments s /\ cp_workflow s' = cp_workflow s.
Proof. eexists. split; [reflexivity|]. split; reflexivity. Qed.

Lemma enqueue_run input now s job :
  createWorkflowJobRecord input now = Ok job ->
  exists s', on_workflow (enqueueWorkflowJob input now) s = (Ok job, s')
    /\ deployments s' = deployments s /\ workflowJobs (cp_workflow s') = workflowJobs (cp_workflow s) ++ [job].
Proof.
  intros Hj. eexists. unfold on_workflow, enqueueWorkflowJob, mbind, M_bind, lift. rewrite Hj.
  split; [reflexivity|]. split; reflexivity.
Qed.

#[local] Opaque deployment_row.

Section rollbacks.
Context (dateParse : string -> option Z).

(** What a rollback does. *)
Lemma rollback_run id previousId branch now s r s' :
  rollbackDeployment dateParse id previousId branch now s = (r, s') ->
  (s' = s /\ exists e, r = Throw e)
  \/ exists current candidate previous row,
       map_get id (deployments s) = Some current
       /\ (if str_empty previousId then latestReadyDeploymentForService dateParse (map_values (deployments s)) current
            else Ok (map_get previousId (deployments s))) = Ok candidate
       /\ validateRollbackSource current candidate previousId = Ok previous
       /\ row = deployment_row (rollback_input current previous branch now) "IMAGE_READY"
                  (lookup_row (obj_get "serviceId" current) (services s)) now
       /\ deployments s' = map_set (rollback_id current now) row (deployments s)
       /\ exists job, r = Ok (mkRollback row previous job)
            /\ workflowJobs (cp_workflow s') = workflowJobs (cp_workflow s) ++ [job]
            /\ wj_type job = "rollback-deploy" /\ wj_status job = QUEUED /\ wj_targetId job = rollback_id current now
            /\ obj_get "id" row = JStr (rollback_id current now).
Proof.
  unfold rollbackDeployment. unfold mbind at 1, M_bind at 1, get. unfold mbind at 1, M_bind at 1, lift at 1.
  destruct (map_get id (deployments s)) as [current|]; [|intros [= <- <-]; left; eauto].
  unfold mbind at 1, M_bind at 1, lift at 1.
  destruct (if str_empty previousId then _ else _) as [candidate|e] eqn:Ec; [|intros [= <- <-]; left; eauto].
  unfold mbind at 1, M_bind at 1, lift at 1.
  destruct (validateRollbackSource current candidate previousId) as [previous|e] eqn:Ev; [|intros [= <- <-]; left; eauto].
  cbv zeta. unfold mbind at 1, M_bind at 1, lift at 1.
  destruct (throw_if _ _); [|intros [= <- <-]; left; eauto].
  assert (Hne : rollback_id current now <> "") by (by apply stableId_nonempty).
  destruct (create_run (rollback_input current previous branch now) now s "IMAGE_READY" ltac:(vm_compute; reflexivity))
    as (s1 & Hc1 & Hd1 & Hw1).
  set (row := deployment_row _ _ _ _) in Hc1, Hd1.
  assert (Hid : obj_get "id" row = JStr (rollback_id current now)).
  { subst row. rewrite deployment_row_param by derived. unfold deployment_own. cbv zeta.
    match goal with |- obj_get _ ((_, ?v) :: _) = _ => change (v = JStr (rollback_id current now)) end.
    by rewrite (deployment_id_given _ (rollback_id current now)). }
  rewrite Hid in Hd1. cbn [js_String] in Hd1.
  unfold mbind at 1, M_bind at 1. rewrite Hc1. rewrite Hid. cbn [js_String].
  unfold mbind at 1, M_bind at 1. edestruct event_run as (s2 & -> & Hd2 & Hw2).
  unfold mbind at 1, M_bind at 1. edestruct event_run as (s3 & -> & Hd3 & Hw3).
  unfold mbind at 1, M_bind at 1. set (input := mkInput _ _ _ _ _ _ _ _ _ _ _ _ _ _ _).
  assert (Hjob : exists job, createWorkflowJobRecord input now = Ok job /\ wj_type job = "rollback-deploy"
             /\ wj_status job = QUEUED /\ wj_targetId job = rollback_id current now).
  { unfold createWorkflowJobRecord. subst input. cbn [wi_targetId wi_type wi_targetType wi_status].
    replace (str_or (rollback_id current now) _) with (rollback_id current now)
      by (unfold str_or at 1; rewrite str_empty_eq, bool_decide_eq_false_2 by done; reflexivity).
    rewrite str_empty_eq, bool_decide_eq_false_2 by done. cbn [throw_if mbind result_bind].
    change (normalizeWorkflowStatus (str_or "" QUEUED)) with (@Ok string QUEUED). cbn [mbind result_bind].
    eexists. split; [reflexivity|]. repeat split. }
  destruct Hjob as (job & Hj & Ht & Hst & Htarget).
  destruct (enqueue_run input now s3 job Hj) as (s4 & -> & Hd4 & Hw4). intros [= <- <-]. right.
  exists current, candidate, previous, row. do 4 (split; [reflexivity || exact Ec || exact Ev|]). split.
  - by rewrite Hd4, Hd3, Hd2, Hd1.
  - exists job. split; [reflexivity|]. split; [by rewrite Hw4, Hw3, Hw2, Hw1|]. by repeat split.
Qed.

(** The operations on deployments, successful or not, with the identifiers
    under which they create a row. *)
Inductive deployment_step : list string -> ControlPlane -> ControlPlane -> Prop :=
| ds_create input now s r s' :
    createDeployment input now s = (r, s') ->
    deployment_step (match r with Ok row => [js_String (obj_get "id" row)] | Throw _ => [] end) s s'
| ds_update id updates o now s r s' :
    uo_validateTransition o = true -> updateDeployment id updates o now s = (r, s') -> deployment_step [] s s'
| ds_transition id status updates o now s r s' :
    NoDup updates.*1 -> transitionDeployment id status updates o now s = (r, s') -> deployment_step [] s s'
| ds_cancel id input now s r s' : cancelDeployment id input now s = (r, s') -> deployment_step [] s s'
| ds_rollback id previousId branch now s r s' :
    rollbackDeployment dateParse id previousId branch now s = (r, s') ->
    deployment_step (match r with Ok rb => [js_String (obj_get "id" (rb_deployment rb))] | Throw _ => [] end) s s'.

(** A run, with every identifier it creates *)
Inductive deployment_run : list string -> ControlPlane -> ControlPlane -> Prop :=
| dr_done s : deployment_run [] s s
| dr_step created created' s1 s2 s3 : deployment_step created s1 s2 -> deployment_run created' s2 s3 -> deployment_run (created ++ created') s1 s3.

Lemma deployment_step_rows created s s' : deployment_step created s s' -> rows_kept created s s'.
Proof.
  intros [input now s0 r s1 H|id updates o now s0 r s1 Hv H|id status updates o now s0 r s1 Hn H|id input now s0 r s1 H
    |id previousId branch now s0 r s1 H].
  - apply create_deployments in H as [Hd|(row & -> & Hd)]; [|by eapply rows_kept_set].
    intros id row Hr. exists row. rewrite Hd. split; [done|]. intros _. apply row_step_refl.
  - by eapply rows_step_kept, update_rows_step.
  - by eapply rows_step_kept, transition_rows_step.
  - by eapply rows_step_kept, cancel_rows_step.
  - apply rollback_run in H as [[-> [e ->]]|(current & candidate & previous & row & _ & _ & _ & _ & Hd & job & -> & _ & _ & _ & _ & Hid)].
    + by apply rows_step_kept, rows_step_same.
    + cbn [rb_deployment]. rewrite Hid. by eapply rows_kept_set.
Qed.

(** The status a row holds, as the lifecycle contract reads it. *)
Lemma row_step_status row row' s :
  row_step row row' -> parseDeploymentStatus (obj_get "status" row) = Ok s ->
  exists t, parseDeploymentStatus (obj_get "status" row') = Ok t /\ rtc (lifecycle_step machine_deployment) s t.
Proof.
  intros [_ [Hs|(s0 & t & Hs0 & Ht & Hin & Hst)]] Hp; [exists s; split; [congruence|apply rtc_refl]|].
  exists t. rewrite Ht. split; [by apply parse_canonical|]. rewrite Hp in Hs0. injection Hs0 as ->.
  destruct Hst as [->|Hst]; [apply rtc_refl|by apply rtc_once].
Qed.

(** C4. Through every sequence of creations, checked updates, transitions,
    cancellations and rollbacks, whether they succeed or not, a deployment that
    is stored stays stored; and unless one of the creations or rollbacks took
    its identifier, which the store does not check, its status only moves along
    the lifecycle contract and its lineage (the snapshot of the service it
    deploys, where it comes from and who asked for it) and its observed health
    never change. *)
Theorem deployment_lifecycle created s s' id row st :
  deployment_run created s s' -> map_get id (deployments s) = Some row ->
  parseDeploymentStatus (obj_get "status" row) = Ok st ->
  exists row', map_get id (deployments s') = Some row'
    /\ (id ∉ created ->
        (exists st', parseDeploymentStatus (obj_get "status" row') = Ok st' /\ rtc (lifecycle_step machine_deployment) st st')
        /\ forall k, k ∈ DEPLOYMENT_LINEAGE_KEYS -> obj_get k row' = obj_get k row).
Proof.
  intros Hr Hl Hp.
  enough (exists row', map_get id (deployments s') = Some row' /\ (id ∉ created -> rtc row_step row row')) as (row' & Hl' & Hs).
  { exists row'. split; [done|]. intros Hn. specialize (Hs Hn). clear -Hs Hp. split.
    - revert st Hp. induction Hs as [row|row row1 row' Hstep _ IH]; intros st Hp; [exists st; by split|].
      destruct (row_step_status _ _ _ Hstep Hp) as (st1 & Hp1 & H1). destruct (IH st1 Hp1) as (st' & ? & ?). exists st'. split; [done|by etrans].
    - intros k Hk. clear Hp. induction Hs as [row|row row1 row' [Hstep _] _ IH]; [done|]. by rewrite IH, Hstep. }
  clear Hp. revert row Hl. induction Hr as [s|created created' s1 s2 s3 Hstep _ IH]; intros row Hl; [by exists row|].
  destruct (deployment_step_rows _ _ _ Hstep id row Hl) as (row1 & Hl1 & H1). destruct (IH row1 Hl1) as (row' & Hl' & H').
  exists row'. split; [done|]. rewrite not_elem_of_app. intros [Hn Hn']. eapply rtc_l; [by apply H1|by apply H'].
Qed.
End rollbacks.

(** ** Cancellation *)

Definition cancel_updates (input : CancelInput) : jsobj :=
  [("errorCode", JStr (str_or (ci_errorCode input) "DEPLOYMENT_CANCELLED"));
   ("errorMessage", JStr (str_or (ci_reason input) (str_or (ci_errorMessage input) "Deployment cancelled")));
   ("reconcileAction", JNull); ("reconcileLockedBy", JNull); ("reconcileLockedAt", JNull)].

Lemma cancel_allowed st :
  st ∈ SchemaLifecycle.DeploymentStatusSchema ->
  canCancelDeployment (JStr st) = Ok (bool_decide (st ∈ ["queued"; "BUILDING"; "IMAGE_READY"]))
  /\ (st ∈ ["queued"; "BUILDING"; "IMAGE_READY"] -> assertDeploymentTransition (JStr st) (JStr "CANCELLED") = Ok true).
Proof. intros H. each_member H; (split; [vm_compute; reflexivity|]); intros Hin; vm_compute; first [reflexivity|exfalso; set_solver]. Qed.

(** A checked transition needs only the parsed status of the row. *)
Lemma assert_parsed from st to : parseDeploymentStatus from = Ok st ->
  assertDeploymentTransition from to = assertDeploymentTransition (JStr st) to.
Proof.
  intros H. unfold assertDeploymentTransition, normalizeDeploymentStatus. rewrite H.
  rewrite (parse_canonical st) by (by eapply parseDeploymentStatus_status). reflexivity.
Qed.

(** A checked transition along the contract goes through, and leaves the jobs alone. *)
Lemma transition_success id updates o now s current st t :
  map_get id (deployments s) = Some current -> parseDeploymentStatus (obj_get "status" current) = Ok st ->
  t ∈ SchemaLifecycle.DeploymentStatusSchema -> NoDup updates.*1 ->
  assertDeploymentTransition (JStr st) (JStr t) = Ok true ->
  existsb (fun k => hasOwn k (map_set "status" (JStr t) updates)) DEPLOYMENT_LINEAGE_KEYS = false ->
  exists next s', deployment_changes (map_set "status" (JStr t) updates) current false now = Ok next
    /\ transitionDeployment id (JStr t) updates o now s = (Ok (Some (updated_row current next now)), s')
    /\ deployments s' = map_set id (updated_row current next now) (deployments s)
    /\ workflowJobs (cp_workflow s') = workflowJobs (cp_workflow s)
    /\ obj_get "status" (updated_row current next now) = JStr t.
Proof.
  intros Hl Hst Ht Hnd Ha Hg. destruct (forced_status t updates current now Ht Hnd) as (next & Hc & Hnext).
  assert (Hrow : obj_get "status" (updated_row current next now) = JStr t).
  { destruct (deployment_changes_status _ _ _ _ _ Hc) as [[Hno _]|(t' & Hn & Hrow & _)]; [|congruence].
    apply hasOwn_false, map_get_None in Hno. by rewrite obj_get_map_get, Hno in Hnext. }
  exists next. eexists. split; [done|].
  unfold transitionDeployment, updateDeployment, mbind, M_bind, get, lift, modify, normalizeDeploymentStatus.
  rewrite Hl, (parse_canonical t Ht), (assert_parsed _ _ _ Hst), Ha. cbv beta iota. rewrite Hg. cbn [throw_if uo_validateTransition].
  rewrite Hc. fold (updated_row current next now). rewrite Hst, Hrow, (parse_canonical t Ht).
  destruct (hasOwn "status" next); cbn -[updated_row]; rewrite andb_false_r; (split; [reflexivity|]);
    (split; [reflexivity|]); split; done.
Qed.

(** Cancellation is exact: of a deployment that is queued, building or has
    an image that is not being rolled out, it makes a cancelled one with its
    lineage unchanged, and cancels exactly the active build jobs bound to it;
    a deployment that is cancelled already is answered as it is; every other
    one is refused, and so is an unknown one, with nothing changed. *)
Theorem cancelDeployment_exact id input now s :
  match map_get id (deployments s) with
  | None => cancelDeployment id input now s = (Throw (deployment_not_found id), s)
  | Some current =>
      match parseDeploymentStatus (obj_get "status" current) with
      | Throw e => cancelDeployment id input now s = (Throw e, s)
      | Ok st =>
          if decide (st = "CANCELLED") then cancelDeployment id input now s = (Ok (Some current), s)
          else if decide (st ∈ ["queued"; "BUILDING"; "IMAGE_READY"]) then
            exists row s', cancelDeployment id input now s = (Ok (Some row), s')
              /\ obj_get "status" row = JStr "CANCELLED"
              /\ (forall k, k ∈ DEPLOYMENT_LINEAGE_KEYS -> obj_get k row = obj_get k current)
              /\ deployments s' = map_set id row (deployments s)
              /\ workflowJobs (cp_workflow s')
                 = map (cancel_build_job id (str_or (ci_reason input) "Deployment cancelled") now)
                     (workflowJobs (cp_workflow s))
          else cancelDeployment id input now s = (Throw cancellation_conflict, s)
      end
  end.
Proof.
  destruct (map_get id (deployments s)) as [current|] eqn:El;
    [|by unfold cancelDeployment, mbind, M_bind, get, lift; rewrite El].
  destruct (parseDeploymentStatus (obj_get "status" current)) as [st|e] eqn:Est;
    [|by unfold cancelDeployment, mbind, M_bind, get, lift, normalizeDeploymentStatus; rewrite El, Est].
  pose proof (parseDeploymentStatus_status _ _ Est) as Hin. destruct (cancel_allowed st Hin) as [Hcan Hallow].
  assert (Hrun : cancelDeployment id input now s =
    if bool_decide (st = "CANCELLED") then (Ok (Some current), s)
    else if bool_decide (st ∈ ["queued"; "BUILDING"; "IMAGE_READY"]) then
      transitionDeployment id (JStr "CANCELLED") (cancel_updates input)
        (mkUpdateOptions false (str_or (ci_actorUserId input) "system") "deployment.cancelled" true
           (str_or (ci_reason input) "Deployment cancelled") []) now
        (s <| cp_workflow := mkWorkflowStore (accounts (cp_workflow s))
                (cancelActiveBuildWorkflowJobs id (str_or (ci_reason input) "Deployment cancelled") now
                   (workflowJobs (cp_workflow s))) |>)
    else (Throw cancellation_conflict, s)).
  { unfold cancelDeployment. unfold mbind at 1, M_bind at 1, get. unfold mbind at 1, M_bind at 1, lift at 1. rewrite El.
    unfold mbind at 1, M_bind at 1, lift at 1, normalizeDeploymentStatus. rewrite Est.
    destruct (bool_decide (st = "CANCELLED")); [done|]. unfold mbind at 1, M_bind at 1, lift at 1. rewrite Hcan.
    destruct (bool_decide (st ∈ _)); reflexivity. }
  rewrite Hrun. destruct (decide (st = "CANCELLED")) as [Hd|Hd]; [by rewrite bool_decide_eq_true_2|].
  rewrite bool_decide_eq_false_2 by done.
  destruct (decide (st ∈ ["queued"; "BUILDING"; "IMAGE_READY"])) as [Ho|Ho]; [|by rewrite bool_decide_eq_false_2].
  rewrite bool_decide_eq_true_2 by done.
  set (s1 := s <| cp_workflow := _ |>).
  destruct (transition_success id (cancel_updates input)
              (mkUpdateOptions false (str_or (ci_actorUserId input) "system") "deployment.cancelled" true
                 (str_or (ci_reason input) "Deployment cancelled") []) now s1 current st "CANCELLED")
    as (next & s' & Hc & -> & Hd' & Hw & Hs);
    [exact El|exact Est|apply (bool_decide_unpack _); vm_compute; exact I|apply (bool_decide_unpack _); vm_compute; exact I
    |by apply Hallow|vm_compute; reflexivity|].
  exists (updated_row current next now), s'. split; [reflexivity|]. split; [exact Hs|]. split; [|split; [exact Hd'|exact Hw]].
  intros k Hk. eapply updated_row_lineage; [exact Hc|vm_compute; reflexivity|exact Hk].
Qed.

(** ** Rollback *)

(** The ready deployments of a service, other than the one rolled back. *)
Definition rollback_candidate (current row : jsobj) : Prop :=
  js_String (obj_get "id" row) <> js_String (obj_get "id" current)
  /\ js_String (obj_get "serviceId" row) = js_String (obj_get "serviceId" current)
  /\ parseDeploymentStatus (obj_get "status" row) = Ok "READY" /\ has_image row = true.

Lemma ready_deployments_spec rows current ready :
  ready_deployments rows current = Ok ready -> forall row, row ∈ ready <-> row ∈ rows /\ rollback_candidate current row.
Proof.
  revert ready. induction rows as [|r rows IH]; intros ready; cbn [ready_deployments].
  { intros [= <-] row. split; [set_solver|]. by intros [?%not_elem_of_nil _]. }
  intros (keep & Hk & H)%bind_Ok. apply bind_Ok in H as (others & Ho & [= <-]). intros row.
  specialize (IH _ Ho row).
  assert (Hkeep : keep = true <-> rollback_candidate current r).
  { unfold rollback_candidate. revert Hk.
    case_bool_decide; cbn [negb andb]; [intros [= <-]; naive_solver|].
    case_bool_decide; [|intros [= <-]; naive_solver].
    intros (st & Hst & [= <-])%bind_Ok. unfold normalizeDeploymentStatus in Hst. rewrite Hst.
    case_bool_decide; cbn; naive_solver. }
  rewrite elem_of_cons. destruct keep; rewrite ?elem_of_cons, IH; clear IH Ho Hk.
  - split; [intros [->|[? ?]]; split; auto; by apply Hkeep|]. intros [[->|?] ?]; auto.
  - split; [intros [? ?]; auto|]. intros [[->|Hin] Hc]; [by apply Hkeep in Hc|done].
Qed.

Section rollback_soundness.
Context (dateParse : string -> option Z).

Lemma validate_sound current candidate explicit previous :
  validateRollbackSource current candidate explicit = Ok previous ->
  candidate = Some previous
  /\ text_or_empty (obj_get "projectId" previous) = text_or_empty (obj_get "projectId" current)
  /\ text_or_empty (obj_get "serviceId" previous) = text_or_empty (obj_get "serviceId" current)
  /\ toUpperCase (text_or_empty (obj_get "status" previous)) = "READY" /\ has_image previous = true.
Proof.
  unfold validateRollbackSource. destruct candidate as [p|]; [|by intros (? & _ & ?)%bind_Ok].
  intros (u1 & H1%throw_if_Ok & H)%bind_Ok. apply bind_Ok in H as (u2 & H2%throw_if_Ok & [= ->]).
  apply orb_false_iff in H1 as [H1a%negb_false_iff%bool_decide_eq_true H1b%negb_false_iff%bool_decide_eq_true].
  by apply orb_false_iff in H2 as [H2a%negb_false_iff%bool_decide_eq_true H2b%negb_false_iff].
Qed.

(** C17. A rollback either is refused with nothing changed, or creates one
    deployment that is ready to be rolled out with the image of a stored
    deployment that is [READY], of the same service and project; without an
    explicit source this is the latest one; the deployment it replaces and all
    others stay as they are unless one has the identifier of the rollback, and
    one job is queued for it. *)
Theorem rollback_sound id previousId branch now s r s' :
  rollbackDeployment dateParse id previousId branch now s = (r, s') ->
  (s' = s /\ exists e, r = Throw e)
  \/ exists current previous row job,
       r = Ok (mkRollback row previous job)
       /\ map_get id (deployments s) = Some current /\ previous ∈ map_values (deployments s)
       /\ text_or_empty (obj_get "projectId" previous) = text_or_empty (obj_get "projectId" current)
       /\ text_or_empty (obj_get "serviceId" previous) = text_or_empty (obj_get "serviceId" current)
       /\ toUpperCase (text_or_empty (obj_get "status" previous)) = "READY"
       /\ (previousId = "" -> rollback_candidate current previous
            /\ forall row, row ∈ map_values (deployments s) -> rollback_candidate current row ->
                 rollback_time dateParse row <= rollback_time dateParse previous)
       /\ obj_get "status" row = JStr "IMAGE_READY" /\ obj_get "serviceId" row = obj_get "serviceId" current
       /\ obj_get "imageUrl" row = js_or (obj_get "imageUrl" previous) (obj_get "image" previous)
       /\ truthy (obj_get "imageUrl" row) = true
       /\ deployments s' = map_set (rollback_id current now) row (deployments s)
       /\ workflowJobs (cp_workflow s') = workflowJobs (cp_workflow s) ++ [job]
       /\ wj_targetId job = rollback_id current now.
Proof.
  intros [H|(current & candidate & previous & row & Hl & Hc & Hv & Hrow & Hd & job & -> & Hw & _ & _ & Ht & _)]%rollback_run; [by left|right].
  apply validate_sound in Hv as (-> & Hp & Hsv & Hst & Him).
  assert (Hin : previous ∈ map_values (deployments s)
    /\ (previousId = "" -> rollback_candidate current previous /\ forall row, row ∈ map_values (deployments s) ->
          rollback_candidate current row -> rollback_time dateParse row <= rollback_time dateParse previous)).
  { rewrite str_empty_eq in Hc. case_bool_decide as He.
    - unfold latestReadyDeploymentForService in Hc. apply bind_Ok in Hc as (ready & Hready & Hh). injection Hh as Hh.
      pose proof (ready_deployments_spec _ _ _ Hready) as Hspec.
      destruct (js_sort_head (later_first dateParse) ready previous) as [Hpr Hmax]; [..|exact Hh|].
      + unfold later_first. intros a b. rewrite Z.leb_gt, Z.leb_le. lia.
      + unfold later_first. intros a b c. rewrite !Z.leb_le. lia.
      + apply Hspec in Hpr as [Hpi Hpc]. split; [done|]. intros _. split; [done|]. intros r Hr Hrc.
        assert (Hri : r ∈ ready) by (by apply Hspec). apply Hmax in Hri. unfold later_first in Hri. by apply Z.leb_le.
    - injection Hc as Hc. apply map_get_Some_elem in Hc. split; [|done]. by apply (list_elem_of_fmap_2 snd) in Hc. }
  destruct Hin as [Hin Hlatest].
  assert (Himage : obj_get "imageUrl" row = js_or (obj_get "imageUrl" previous) (obj_get "image" previous)).
  { rewrite Hrow, deployment_row_param by derived. unfold has_image in Him.
    change (js_or (js_or (obj_get "imageUrl" previous) (js_or (obj_get "image" previous) JNull)) (js_or JNull JNull)
            = js_or (obj_get "imageUrl" previous) (obj_get "image" previous)).
    revert Him. unfold js_or. destruct (truthy (obj_get "imageUrl" previous)) eqn:E1; [by rewrite E1|].
    intros Him. by rewrite Him, Him. }
  exists current, previous, row, job. split; [done|]. split; [done|]. split; [done|]. split; [done|]. split; [done|].
  split; [done|]. split; [done|]. split; [by rewrite Hrow, deployment_row_param by derived|].
  split; [by rewrite Hrow, deployment_row_param by derived|]. split; [done|]. split; [by rewrite Himage|]. done.
Qed.
End rollback_soundness.

Close Scope Z_scope.
