(* ===== verification/DeploymentOperations.v ===== *)
(** * Retrying and redeploying ([packages/core/src/deployment-operations.ts])

    A retry or a redeployment makes a new deployment from an old one: same
    service, same snapshot, and a source that cannot move, a full commit hash
    or an image pinned to its digest.  A request carries an idempotency key;
    the job of the deployment remembers what was asked. *)

From S2P Require Import Prelude JsString JsMap JsVal Ids Lifecycle Secrets Accounts Redaction Workflows ControlPlane Deployments.

Open Scope Z_scope.

Inductive Operation : Type := retry | redeploy.
#[export] Instance Operation_eq_dec : EqDecision Operation.
Proof. solve_decision. Defined.

Definition operation_text (o : Operation) : string := match o with retry => "retry" | redeploy => "redeploy" end.

Record DeploymentOperation := mkOperation {
  op_operation : Operation; op_serviceId : string; op_sourceDeploymentId : option string;
  op_requestedByUserId : string; op_requestIdempotencyKey : string; op_snapshotVersion : Z
}.

Definition DeploymentOperationError (code_ : string) (status : Z) : jserror :=
  JsError "DeploymentOperationError" code_ (Some status).

(** ** The request *)

(** [/^[A-Za-z0-9._:-]{1,128}$/] *)
Definition is_key_char (c : ascii) : bool :=
  is_alnum c || (code c =? 46)%N || (code c =? 95)%N || (code c =? 58)%N || is_hyphen c.

Definition parseDeploymentOperationBody (value : jsval) : result (string * Z) :=
  let invalid := DeploymentOperationError "INVALID_DEPLOYMENT_OPERATION" 400 in
  match value with
  | JObj input =>
      match obj_get "requestIdempotencyKey" input, obj_get "snapshotVersion" input with
      | JStr key, JNum (NInt version) =>
          _ ← throw_if (existsb (fun k => negb (bool_decide (k ∈ ["requestIdempotencyKey"; "snapshotVersion"]))) input.*1
                        || negb (class_pattern is_key_char 1 128 key) || negb (safe_integer version) || (version <? 1)) invalid;
          Ok (key, version)
      | _, _ => Throw invalid
      end
  | _ => Throw invalid
  end.

Definition json_source (source : option string) : jsval := match source with Some id => JStr id | None => JNull end.

Definition operationIdentity (input : DeploymentOperation) : jsobj :=
  [("operation", JStr (operation_text (op_operation input))); ("sourceDeploymentId", json_source (op_sourceDeploymentId input));
   ("snapshotVersion", JNum (NInt (op_snapshotVersion input)))].

(** [a === b] for a value and a string, [null] or a number *)
Definition same_source (v : jsval) (source : option string) : bool :=
  match v, source with
  | JStr s, Some id => bool_decide (s = id)
  | JNull, None => true
  | _, _ => false
  end.

Definition assertOperationReplay (input : DeploymentOperation) (payload : jsobj) : result unit :=
  let identity := entries (obj_get "operationRequest" payload) in
  throw_if (negb (bool_decide (as_string (obj_get "operation" identity) = Some (operation_text (op_operation input))))
            || negb (same_source (obj_get "sourceDeploymentId" identity) (op_sourceDeploymentId input))
            || negb (bool_decide (as_integer (obj_get "snapshotVersion" identity) = Some (op_snapshotVersion input))))
    (DeploymentOperationError "IDEMPOTENCY_CONFLICT" 409).

(** ** The source *)

Definition eligibleDeploymentSource (source : jsobj) : result bool :=
  status ← normalizeDeploymentStatus (obj_get "status" source);
  mret (bool_decide (status ∈ ["BUILD_FAILED"; "FAILED"; "READY"])).

Inductive SourceKind : Type := kind_local | kind_image | kind_git | kind_other.
#[export] Instance SourceKind_eq_dec : EqDecision SourceKind.
Proof. solve_decision. Defined.

(** [typeof value === 'string' ? value.trim() : ''] *)
Definition trimmed (v : jsval) : string := match v with JStr s => trim s | _ => "" end.

Definition dashes_for_underscores (s : string) : string :=
  unchars (map (fun c => if (code c =? 95)%N then "-"%char else c) (chars s)).

Definition sourceKind (source spec : jsobj) : SourceKind :=
  let repo := str_or (trimmed (obj_get "repoUrl" spec)) (trimmed (obj_get "repositoryUrl" spec)) in
  let sourceType := toLowerCase (trimmed (obj_get "sourceType" spec)) in
  let mode := dashes_for_underscores (toLowerCase (trimmed (obj_get "buildMode" spec))) in
  if negb (str_empty (trimmed (obj_get "localPath" spec))) then kind_local
  else if bool_decide (sourceType = "image") || bool_decide (mode ∈ ["image"; "prebuilt"; "prebuilt-image"])
          || (str_empty repo && negb (str_empty (trimmed (obj_get "imageUrl" source)))) then kind_image
  else if negb (str_empty repo) || bool_decide (sourceType ∈ ["git"; "github"]) then kind_git
  else kind_other.

Definition is_hex (c : ascii) : bool := is_digit c || in_range 97 102 c.
Definition is_zero (c : ascii) : bool := (code c =? 48)%N.

(** [/^(?:[0-9a-f]{40}|[0-9a-f]{64})$/] and not [/^0+$/] *)
Definition full_commit (s : string) : bool :=
  (class_pattern is_hex 40 40 s || class_pattern is_hex 64 64 s) && negb (forallb is_zero (chars s)).

Definition source_ineligible : jserror := DeploymentOperationError "SOURCE_INELIGIBLE" 409.

Definition immutableGitCommit (source : jsobj) : result string :=
  let sha := toLowerCase (trimmed (obj_get "commitSha" source)) in
  let hash := toLowerCase (trimmed (obj_get "commitHash" source)) in
  let commit := str_or sha hash in
  _ ← throw_if (negb (full_commit commit)
                || (negb (str_empty sha) && negb (str_empty hash) && negb (bool_decide (sha = hash)))) source_ineligible;
  Ok commit.

(** [/^sha256:[0-9a-f]{64}$/] and not all zeros *)
Definition validDigest (value : string) : bool :=
  startsWith value "sha256:"
  && (let hex := unchars (drop 7 (chars value)) in class_pattern is_hex 64 64 hex && negb (forallb is_zero (chars hex))).

(** Runs of [[a-z0-9]] with one separator between two of them; the separators
    are what the pattern allows and hold no letter or digit. *)
Fixpoint separated_runs (separator : list ascii -> bool) (pending : list ascii) (l : list ascii) : bool :=
  match l with
  | [] => match pending with [] => true | _ => false end
  | c :: l' =>
      if is_lower_alnum c then (match pending with [] => true | _ => separator pending end) && separated_runs separator [] l'
      else separated_runs separator (pending ++ [c]) l'
  end.

Definition alnum_runs (separator : list ascii -> bool) (s : string) : bool :=
  match chars s with
  | c :: l => is_lower_alnum c && separated_runs separator [] l
  | [] => false
  end.

(** [(?:[._]|__|-+)] and [[.-]] *)
Definition repository_separator (l : list ascii) : bool :=
  bool_decide (l ∈ [chars "."; chars "_"; chars "__"]) || forallb is_hyphen l.
Definition registry_separator (l : list ascii) : bool := bool_decide (l ∈ [chars "."; chars "-"]).

(** [[1-9][0-9]{0,4}], at most 65535 *)
Definition valid_port (s : string) : bool :=
  match chars s with
  | c :: l => is_digit c && negb (is_zero c) && forallb is_digit l && (length l <=? 4)%nat
              && match digits_value 10 dec_digit 0 (c :: l) with Some z => z <=? 65535 | None => false end
  | [] => false
  end.

Definition valid_registry (s : string) : bool :=
  match split_on ":"%char s with
  | [host] => alnum_runs registry_separator host
  | [host; port] => alnum_runs registry_separator host && valid_port port
  | _ => false
  end.

(** [/^[A-Za-z0-9_][A-Za-z0-9_.-]{0,127}$/] *)
Definition valid_tag (s : string) : bool :=
  match chars s with
  | c :: l => (is_alnum c || (code c =? 95)%N)
              && forallb (fun c => is_alnum c || (code c =? 95)%N || (code c =? 46)%N || is_hyphen c) l && (length l <=? 127)%nat
  | [] => false
  end.

(** The last of [:] and [/] decides whether the name has a tag. *)
Definition split_tag (named : string) : string * option string :=
  match break_at (fun c => (code c =? 58)%N || (code c =? 47)%N) (rev (chars named)) with
  | (tag, Some rest) =>
      if prefixb [":"%char] (drop (length tag) (rev (chars named)))
      then (unchars (rev rest), Some (unchars (rev tag))) else (named, None)
  | (_, None) => (named, None)
  end.

Definition has_registry (segments : list string) : bool :=
  match segments with
  | first :: _ :: _ => existsb (fun c => (code c =? 46)%N || (code c =? 58)%N) (chars first)
  | _ => false
  end.

Definition valid_repository (repository : string) : bool :=
  let segments := split_on "/"%char repository in
  if has_registry segments
  then valid_registry (hd "" segments) && forallb (alnum_runs repository_separator) (tl segments)
  else forallb (alnum_runs repository_separator) segments.

Definition immutableImage (source : jsobj) : result (string * string) :=
  let reference := trimmed (obj_get "imageUrl" source) in
  let parts := split_on "@"%char reference in
  let '(repository, tag) := split_tag (hd "" parts) in
  let embedded := match parts with [_; digest] => toLowerCase digest | _ => "" end in
  let separate := toLowerCase (trimmed (obj_get "imageDigest" source)) in
  let digest := str_or embedded separate in
  _ ← throw_if ((2 <? length parts)%nat || negb (valid_repository repository)
                || match tag with Some t => negb (valid_tag t) | None => false end
                || negb (validDigest digest) || ((length parts =? 2)%nat && negb (validDigest embedded))
                || (negb (str_empty separate) && negb (validDigest separate))
                || (negb (str_empty embedded) && negb (str_empty separate) && negb (bool_decide (embedded = separate))))
        source_ineligible;
  Ok (repository +:+ "@" +:+ digest, digest).

(** ** The successor *)

Definition nullish_null (v : jsval) : jsval := js_nullish v JNull.

(** Where the new deployment comes from: commit, image and digest. *)
Definition successor_source (source spec : jsobj) : result (option string * (jsval * jsval)) :=
  let kind := sourceKind source spec in
  commit ← (if bool_decide (kind = kind_git) then commit ← immutableGitCommit source; mret (Some commit) else Ok None);
  image ← (if bool_decide (kind = kind_image) then pinned ← immutableImage source; mret (JStr pinned.1, JStr pinned.2)
           else Ok (nullish_null (obj_get "imageUrl" source), nullish_null (obj_get "imageDigest" source)));
  Ok (commit, image).

Definition successor_row (source spec : jsobj) (input : DeploymentOperation) (uuid status : string)
    (from : option string * (jsval * jsval)) : jsobj :=
  let commit := match from.1 with Some c => JStr c | None => JUndef end in
  [("id", JStr ("dep_" +:+ uuid)); ("serviceId", obj_get "serviceId" source); ("projectId", obj_get "projectId" source);
      ("status", JStr status); ("sourceDeploymentId", obj_get "id" source);
      ("retryOfDeploymentId", match op_operation input with retry => obj_get "id" source | redeploy => JNull end);
      ("requestIdempotencyKey", JStr (op_requestIdempotencyKey input));
      ("requestedByUserId", JStr (op_requestedByUserId input));
      ("snapshotVersion", obj_get "snapshotVersion" source); ("desiredSpecSnapshot", JObj spec);
      ("commitSha", js_nullish commit (js_nullish (obj_get "commitSha" source) (nullish_null (obj_get "commitHash" source))));
      ("commitHash", js_nullish commit (js_nullish (obj_get "commitHash" source) (nullish_null (obj_get "commitSha" source))));
      ("imageUrl", from.2.1); ("imageDigest", from.2.2);
      ("branch", js_nullish (obj_get "branch" source) (JStr "main"));
      ("deploymentType", js_nullish (obj_get "deploymentType" source) (JStr "production"));
      ("triggerType", JStr (operation_text (op_operation input)));
      ("pullRequestNumber", nullish_null (obj_get "pullRequestNumber" source));
      ("previewUrl", nullish_null (obj_get "previewUrl" source));
      ("previewLineageId", nullish_null (obj_get "previewLineageId" source));
      ("previewGeneration", nullish_null (obj_get "previewGeneration" source));
      ("previewRuntime", nullish_null (obj_get "previewRuntime" source))].

Definition deploymentSuccessor (source : option jsobj) (input : DeploymentOperation) (uuid : string) : result jsobj :=
  match source with
  | None => Throw (DeploymentOperationError "DEPLOYMENT_SOURCE_NOT_FOUND" 404)
  | Some source =>
      _ ← throw_if (negb (bool_decide (as_string (obj_get "serviceId" source) = Some (op_serviceId input))))
            (DeploymentOperationError "DEPLOYMENT_SOURCE_NOT_FOUND" 404);
      eligible ← (match op_operation input with
                  | retry => status ← normalizeDeploymentStatus (obj_get "status" source);
                             mret (bool_decide (status ∈ ["BUILD_FAILED"; "FAILED"]))
                  | redeploy => eligibleDeploymentSource source
                  end);
      _ ← throw_if (negb eligible) source_ineligible;
      match obj_get "desiredSpecSnapshot" source with
      | JObj spec =>
          _ ← throw_if (negb (truthy (obj_get "snapshotVersion" source))) (DeploymentOperationError "SNAPSHOT_UNAVAILABLE" 409);
          _ ← throw_if (negb (bool_decide (as_integer (obj_get "snapshotVersion" source) = Some 1))
                        || negb (op_snapshotVersion input =? 1)) (DeploymentOperationError "STALE_SNAPSHOT" 409);
          from ← successor_source source spec;
          status ← normalizeDeploymentStatus (JStr "QUEUED");
          Ok (successor_row source spec input uuid status from)
      | _ => Throw (DeploymentOperationError "SNAPSHOT_UNAVAILABLE" 409)
      end
  end.

Definition previewLineageVersion (value : jsval) : jsval :=
  match value with JObj fs => match obj_get "lineageVersion" fs with JNum n => JNum n | _ => JUndef end | _ => JUndef end.

Definition successorWorkflow (deployment : jsobj) (input : DeploymentOperation) : WorkflowInput :=
  let f := fun k => obj_get k deployment in
  mkInput "" (if bool_decide (toLowerCase (js_String (f "deploymentType")) = "preview") then "preview-deploy" else "build-and-deploy")
    "" "deployment" (js_String (f "id")) "" ""
    ([("deploymentId", f "id"); ("serviceId", f "serviceId"); ("projectId", f "projectId");
      ("sourceDeploymentId", f "sourceDeploymentId"); ("commitSha", f "commitSha"); ("imageUrl", f "imageUrl");
      ("imageDigest", f "imageDigest"); ("branch", f "branch"); ("desiredSpecSnapshot", f "desiredSpecSnapshot");
      ("snapshotVersion", f "snapshotVersion")]
     ++ (if truthy (f "previewLineageId")
         then [("lineageId", f "previewLineageId"); ("lineageVersion", previewLineageVersion (f "previewRuntime"));
               ("generation", f "previewGeneration"); ("runtime", f "previewRuntime")] else [])
     ++ [("operationRequest", JObj (operationIdentity input))])
    None None None None None None None.

Close Scope Z_scope.
