(* ===== verification/DeploymentOperationSafety.v ===== *)
(** * Properties of retries and redeployments

    The successor of a deployment has its snapshot and a pinned source, and
    pinning is stable: redeploying a successor deploys the same thing. *)

From S2P Require Import Prelude JsString JsMap JsVal Ids Lifecycle Secrets Accounts Redaction Workflows ControlPlane Deployments DeploymentOperations.

Open Scope Z_scope.

(** ** Pinned text *)

(** Text of characters that trimming and lower-casing leave alone. *)
Definition plain_char (c : ascii) : bool := negb (is_space c) && (code (lower_char c) =? code c)%N.

Lemma plain_char_lower c : plain_char c = true -> lower_char c = c.
Proof.
  intros [_ H]%andb_true_iff. apply N.eqb_eq in H. rewrite <- (chr_code (lower_char c)), H. apply chr_code.
Qed.

Lemma toLowerCase_plain s : Forall (fun c => plain_char c = true) (chars s) -> toLowerCase s = s.
Proof.
  intros H. unfold toLowerCase. rewrite <- (unchars_chars s) at 2. f_equal.
  induction H as [|c l Hc _ IH]; cbn; [done|]. by rewrite (plain_char_lower c Hc), IH.
Qed.

Lemma trim_plain s : Forall (fun c => is_space c = false) (chars s) -> trim s = s.
Proof.
  intros H. unfold trim. rewrite strip_chars_id; [apply unchars_chars| |].
  - intros c k Hk. rewrite Hk in H. by apply Forall_cons in H as [? _].
  - intros c k Hk. rewrite Hk in H. apply Forall_app in H as [_ H]. by apply Forall_cons in H as [? _].
Qed.

Lemma is_hex_plain c : is_hex c = true -> plain_char c = true.
Proof. char_cases c; vm_compute; congruence. Qed.

Lemma plain_not_space c : plain_char c = true -> is_space c = false.
Proof. by intros [H%negb_true_iff _]%andb_true_iff. Qed.

(** Plain text other than [@]: what repositories and digests are made of. *)
Definition pinned_char (c : ascii) : bool := plain_char c && negb (Ascii.eqb c "@").

Definition pinned_text (s : string) : Prop := Forall (fun c => pinned_char c = true) (chars s).

Lemma pinned_text_facts s : pinned_text s -> toLowerCase s = s /\ trim s = s /\ "@"%char ∉ chars s.
Proof.
  intros H. split_and!.
  - apply toLowerCase_plain. eapply Forall_impl; [exact H|]. by intros c [? _]%andb_true_iff.
  - apply trim_plain. eapply Forall_impl; [exact H|]. intros c [? _]%andb_true_iff. by apply plain_not_space.
  - intros Hin. unfold pinned_text in H. rewrite Forall_forall in H. by specialize (H _ Hin).
Qed.

Lemma is_hex_pinned c : is_hex c = true -> pinned_char c = true.
Proof. char_cases c; vm_compute; congruence. Qed.

Lemma hex_class n s : class_pattern is_hex n n s = true -> pinned_text s /\ length (chars s) = n.
Proof.
  unfold class_pattern. rewrite !andb_true_iff, forallb_forall, !Nat.leb_le. intros [[H1 H2] H3].
  split; [|lia]. apply Forall_forall. intros c Hc. apply is_hex_pinned, H3, list_elem_of_In, Hc.
Qed.

Lemma full_commit_pinned s : full_commit s = true -> pinned_text s /\ str_empty s = false.
Proof.
  intros [[H|H]%orb_true_iff _]%andb_true_iff; apply hex_class in H as [? H]; (split; [done|]); by destruct s.
Qed.

Lemma validDigest_pinned s : validDigest s = true -> pinned_text s /\ str_empty s = false.
Proof.
  unfold validDigest. intros [[t ->]%startsWith_spec H]%andb_true_iff. split; [|done].
  unfold pinned_text. rewrite chars_app in *. apply andb_true_iff in H as [H _].
  apply hex_class in H as [H _]. unfold pinned_text in H. rewrite chars_unchars in H.
  apply Forall_app. split; [by apply (bool_decide_unpack _)|exact H].
Qed.

(** ** Repositories *)

Lemma separated_runs_all separator (Q : ascii -> Prop) pending l :
  (forall c, is_lower_alnum c = true -> Q c) -> (forall k, separator k = true -> Forall Q k) ->
  separated_runs separator pending l = true -> Forall Q (pending ++ l).
Proof.
  intros Ha Hs. revert pending. induction l as [|c l IH]; intros pending; cbn.
  - by destruct pending.
  - destruct (is_lower_alnum c) eqn:E.
    + intros [Hp Hl]%andb_true_iff. apply Forall_app. split; [|constructor; [by apply Ha|by apply (IH [])]].
      destruct pending; [constructor|by apply Hs].
    + intros H. apply IH in H. by rewrite <- app_assoc in H.
Qed.

Lemma alnum_runs_all separator (Q : ascii -> Prop) s :
  (forall c, is_lower_alnum c = true -> Q c) -> (forall k, separator k = true -> Forall Q k) ->
  alnum_runs separator s = true -> Forall Q (chars s).
Proof.
  intros Ha Hs. unfold alnum_runs. destruct (chars s) as [|c l]; [done|].
  intros [Hc Hl]%andb_true_iff. constructor; [by apply Ha|]. by apply (separated_runs_all separator Q []).
Qed.

(** The characters of a repository segment and of a registry host. *)
Definition segment_char (c : ascii) : bool := pinned_char c && negb (Ascii.eqb c ":") && negb (Ascii.eqb c "/").

Lemma lower_alnum_segment c : is_lower_alnum c = true -> segment_char c = true.
Proof. char_cases c; vm_compute; congruence. Qed.

Lemma hyphen_segment c : is_hyphen c = true -> segment_char c = true.
Proof. char_cases c; vm_compute; congruence. Qed.

Lemma repository_separator_segment k : repository_separator k = true -> Forall (fun c => segment_char c = true) k.
Proof.
  intros [H|H]%orb_true_iff.
  - apply bool_decide_eq_true in H. rewrite !elem_of_cons in H.
    destruct H as [->|[->|[->|[]%not_elem_of_nil]]]; by repeat constructor.
  - apply Forall_forall. intros c Hc. rewrite forallb_forall in H. by apply hyphen_segment, H, list_elem_of_In.
Qed.

Lemma registry_separator_segment k : registry_separator k = true -> Forall (fun c => segment_char c = true) k.
Proof.
  intros H. apply bool_decide_eq_true in H. rewrite !elem_of_cons in H.
  destruct H as [->|[->|[]%not_elem_of_nil]]; by repeat constructor.
Qed.

Lemma repository_segment s : alnum_runs repository_separator s = true -> Forall (fun c => segment_char c = true) (chars s).
Proof. apply alnum_runs_all; [apply lower_alnum_segment|apply repository_separator_segment]. Qed.

Lemma segment_pinned s : Forall (fun c => segment_char c = true) (chars s) -> pinned_text s.
Proof. intros H. eapply Forall_impl; [exact H|]. by intros c [[? _]%andb_true_iff _]%andb_true_iff. Qed.


Lemma valid_port_segment s : valid_port s = true -> Forall (fun c => segment_char c = true) (chars s).
Proof.
  unfold valid_port. destruct (chars s) as [|c l]; [done|].
  intros [[[[Hc _]%andb_true_iff Hl]%andb_true_iff _]%andb_true_iff _]%andb_true_iff.
  assert (forall d, is_digit d = true -> segment_char d = true) as Hd
    by (intros d; unfold is_lower_alnum; intros E; apply lower_alnum_segment; unfold is_lower_alnum; by rewrite E, orb_true_r).
  constructor; [by apply Hd|]. apply Forall_forall. intros d Hin. rewrite forallb_forall in Hl. by apply Hd, Hl, list_elem_of_In.
Qed.

Lemma split_on_pinned c s : pinned_char c = true -> Forall pinned_text (split_on c s) -> pinned_text s.
Proof.
  intros Hc H. apply Forall_forall. intros x Hx. destruct (split_chars_cover c (chars s) x Hx) as [-> |(p & Hp & Hxp)]; [done|].
  rewrite Forall_forall in H. specialize (H (unchars p)). unfold pinned_text in H. rewrite chars_unchars, Forall_forall in H.
  apply H; [|done]. unfold split_on. apply list_elem_of_fmap. by exists p.
Qed.

Lemma valid_registry_pinned s : valid_registry s = true -> pinned_text s.
Proof.
  unfold valid_registry. intros H. apply (split_on_pinned ":"); [done|].
  assert (forall h, alnum_runs registry_separator h = true -> pinned_text h) as Hh.
  { intros h Hh. apply segment_pinned. revert Hh. apply alnum_runs_all; [apply lower_alnum_segment|apply registry_separator_segment]. }
  destruct (split_on ":" s) as [|host [|port [|? ?]]]; [done|..|done].
  - constructor; [by apply Hh|constructor].
  - apply andb_true_iff in H as [H1 H2]. constructor; [by apply Hh|]. constructor; [|constructor].
    by apply segment_pinned, valid_port_segment.
Qed.

Lemma segments_pinned l : forallb (alnum_runs repository_separator) l = true ->
  Forall (fun s => Forall (fun c => segment_char c = true) (chars s)) l.
Proof. intros H. apply Forall_forall. intros s Hs. rewrite forallb_forall in H. by apply repository_segment, H, list_elem_of_In. Qed.

(** The last segment of a repository holds no colon: no tag is left on it. *)
Lemma valid_repository_facts s : valid_repository s = true ->
  pinned_text s /\ exists front seg, chars s = front ++ seg /\ (front = [] \/ last front = Some "/"%char) /\
                                     Forall (fun c => segment_char c = true) seg.
Proof.
  intros H. destruct (split_chars_tail "/" (chars s)) as (front & seg & Hs & _ & Ht). unfold valid_repository in H.
  assert (Forall pinned_text (split_on "/" s) /\ Forall (fun c => segment_char c = true) seg /\ (front = [] \/ last front = Some "/"%char)) as (H1 & H2 & H3).
  2: { split; [by apply (split_on_pinned "/")|]. by exists front, seg. }
  unfold split_on in *. destruct Ht as [[-> Ht]|(Hf & p & ps & Ht & Hl)]; rewrite Ht in *.
  - cbn in H. apply andb_true_iff in H as [H _]. apply repository_segment in H as H'. rewrite chars_unchars in H'.
    split_and!; [|done|by left]. cbn. constructor; [by apply segment_pinned, repository_segment|constructor].
  - assert (forallb (alnum_runs repository_separator) (unchars <$> ps) = true /\ pinned_text (unchars p)) as [Hps Hp].
    { destruct (has_registry _); cbn in H; apply andb_true_iff in H as [Hp Hps]; (split; [done|]);
        [by apply valid_registry_pinned|by apply segment_pinned, repository_segment]. }
    apply segments_pinned in Hps. split_and!; [..|by right].
    + cbn. constructor; [done|]. eapply Forall_impl; [exact Hps|]. apply segment_pinned.
    + rewrite Forall_fmap, Forall_forall in Hps. apply last_Some_elem_of in Hl. specialize (Hps _ Hl). cbn in Hps. by rewrite chars_unchars in Hps.
Qed.

Lemma break_at_none p l k : Forall (fun c => p c = false) l ->
  break_at p (l ++ k) = let '(a, b) := break_at p k in (l ++ a, b).
Proof.
  induction 1 as [|c l Hc _ IH]; cbn; [by destruct (break_at p k)|]. rewrite Hc, IH. by destruct (break_at p k).
Qed.

Lemma split_tag_repository s : valid_repository s = true -> split_tag s = (s, None).
Proof.
  intros (_ & front & seg & Hs & Hf & Hseg)%valid_repository_facts. unfold split_tag. rewrite Hs, rev_app_distr.
  rewrite break_at_none.
  2: { apply Forall_rev. eapply Forall_impl; [exact Hseg|]. intros c. char_cases c; vm_compute; congruence. }
  destruct Hf as [-> |[front' ->]%last_Some]; [done|]. rewrite rev_app_distr.
  change (break_at _ (rev ["/"%char] ++ rev front')) with (@nil ascii, Some (rev front')). cbn iota beta.
  by rewrite app_nil_r, drop_app_length.
Qed.


(** ** Pinning is stable *)

Lemma split_on_two c a b : c ∉ chars a -> c ∉ chars b -> split_on c (a +:+ unchars [c] +:+ b) = [a; b].
Proof. intros Ha Hb. by rewrite split_on_sep, split_on_none. Qed.

Lemma str_or_nonempty a b : str_empty a = false -> str_or a b = a.
Proof. unfold str_or. by intros ->. Qed.

Lemma immutableGitCommit_Ok source commit : immutableGitCommit source = Ok commit -> full_commit commit = true.
Proof. unfold immutableGitCommit. rewrite bind_Ok. intros ([] & H & [= <-]). apply throw_if_Ok in H. by destruct (full_commit _). Qed.

Lemma immutableGitCommit_stable source commit :
  full_commit commit = true -> obj_get "commitSha" source = JStr commit -> obj_get "commitHash" source = JStr commit ->
  immutableGitCommit source = Ok commit.
Proof.
  intros Hc H1 H2. unfold immutableGitCommit. rewrite H1, H2. cbn [trimmed].
  destruct (full_commit_pinned commit Hc) as [Hp He]. destruct (pinned_text_facts commit Hp) as (Hl & Ht & _).
  rewrite Ht, Hl, str_or_nonempty, Hc, He by done. by rewrite bool_decide_true.
Qed.

Lemma immutableImage_Ok source url digest : immutableImage source = Ok (url, digest) ->
  exists repository, url = repository +:+ "@" +:+ digest /\ valid_repository repository = true /\ validDigest digest = true.
Proof.
  unfold immutableImage. destruct (split_tag _) as [repository tag]. rewrite bind_Ok. intros ([] & H & [= <- <-]).
  apply throw_if_Ok in H. exists repository. split; [done|]. destruct (valid_repository repository).
  2: { cbn in H. by rewrite orb_true_r in H. }
  destruct (validDigest (str_or _ _)); [done|]. rewrite !orb_false_iff in H. cbn in H. naive_solver.
Qed.

Lemma pinned_app a b : pinned_text a -> pinned_text b -> pinned_text (a +:+ b).
Proof. intros. unfold pinned_text. rewrite chars_app. by apply Forall_app. Qed.

Lemma trim_image repository digest : pinned_text repository -> pinned_text digest ->
  trim (repository +:+ "@" +:+ digest) = repository +:+ "@" +:+ digest.
Proof.
  intros Hr Hd. apply trim_plain. rewrite !chars_app. apply Forall_app. split; [|apply Forall_cons; split; [done|]].
  - eapply Forall_impl; [exact Hr|]. intros c [? _]%andb_true_iff. by apply plain_not_space.
  - eapply Forall_impl; [exact Hd|]. intros c [? _]%andb_true_iff. by apply plain_not_space.
Qed.

Lemma immutableImage_stable source repository digest :
  valid_repository repository = true -> validDigest digest = true ->
  obj_get "imageUrl" source = JStr (repository +:+ "@" +:+ digest) -> obj_get "imageDigest" source = JStr digest ->
  immutableImage source = Ok (repository +:+ "@" +:+ digest, digest).
Proof.
  intros Hr Hd H1 H2. unfold immutableImage. rewrite H1, H2. cbn [trimmed].
  destruct (valid_repository_facts repository Hr) as [Hpr _]. destruct (validDigest_pinned digest Hd) as [Hpd He].
  destruct (pinned_text_facts digest Hpd) as (Hl & Ht & Hn). destruct (pinned_text_facts repository Hpr) as (_ & _ & Hn').
  rewrite trim_image by done.
  change (split_on "@" (repository +:+ "@" +:+ digest)) with (split_on "@" (repository +:+ unchars ["@"%char] +:+ digest)).
  rewrite split_on_two by done. cbn [hd].
  rewrite split_tag_repository, Ht, Hl, str_or_nonempty, Hr, Hd, He by done. by rewrite bool_decide_true.
Qed.


(** ** The successor *)

Definition retry_statuses : list string := ["BUILD_FAILED"; "FAILED"].
Definition source_statuses (o : Operation) : list string :=
  match o with retry => retry_statuses | redeploy => ["BUILD_FAILED"; "FAILED"; "READY"] end.

(** When a successor exists, and what it is. *)
Definition successor_of (src : jsobj) (input : DeploymentOperation) (uuid : string) (d : jsobj) : Prop :=
  exists spec status from,
    as_string (obj_get "serviceId" src) = Some (op_serviceId input) /\
    normalizeDeploymentStatus (obj_get "status" src) = Ok status /\ status ∈ source_statuses (op_operation input) /\
    obj_get "desiredSpecSnapshot" src = JObj spec /\
    as_integer (obj_get "snapshotVersion" src) = Some 1 /\ op_snapshotVersion input = 1 /\
    successor_source src spec = Ok from /\ d = successor_row src spec input uuid "queued" from.

Lemma eligible_source src o :
  (match o with
   | retry => status ← normalizeDeploymentStatus (obj_get "status" src); mret (bool_decide (status ∈ retry_statuses))
   | redeploy => eligibleDeploymentSource src
   end : result bool) =
  (status ← normalizeDeploymentStatus (obj_get "status" src); mret (bool_decide (status ∈ source_statuses o))).
Proof. by destruct o. Qed.

Lemma queued_status : normalizeDeploymentStatus (JStr "QUEUED") = Ok "queued".
Proof. reflexivity. Qed.

Lemma one_truthy v : as_integer v = Some 1 -> truthy v = true.
Proof. destruct v as [| | |n| | |]; try done. destruct n; try done. by intros [= ->]. Qed.

Lemma deploymentSuccessor_Ok source input uuid d :
  deploymentSuccessor source input uuid = Ok d <-> exists src, source = Some src /\ successor_of src input uuid d.
Proof.
  destruct source as [src|]; [|split; [done|by intros (? & [=] & _)]]. cbn [deploymentSuccessor].
  change ["BUILD_FAILED"; "FAILED"] with retry_statuses. rewrite eligible_source. split.
  - rewrite bind_Ok. intros ([] & H1%throw_if_Ok & H). apply negb_false_iff, bool_decide_eq_true in H1.
    rewrite bind_Ok in H. destruct H as (e & He & H). rewrite bind_Ok in He. destruct He as (st & Hst & [= <-]).
    rewrite bind_Ok in H. destruct H as ([] & H2%throw_if_Ok & H). apply negb_false_iff, bool_decide_eq_true in H2.
    destruct (obj_get "desiredSpecSnapshot" src) as [| | | | | |spec] eqn:Es; try done.
    rewrite bind_Ok in H. destruct H as ([] & _ & H). rewrite bind_Ok in H. destruct H as ([] & H3%throw_if_Ok & H).
    apply orb_false_iff in H3 as [H3%negb_false_iff%bool_decide_eq_true H4%negb_false_iff%Z.eqb_eq].
    rewrite bind_Ok in H. destruct H as (from & Hf & H). rewrite queued_status in H. injection H as <-.
    exists src. split; [done|]. by exists spec, st, from.
  - intros (? & [= <-] & spec & st & from & H1 & Hst & H2 & Hs & H3 & H4 & Hf & ->).
    rewrite bind_Ok. exists (). split; [by rewrite H1, bool_decide_true|]. rewrite Hst, bind_Ok. exists true. split; [cbn; by rewrite bool_decide_true|].
    rewrite bind_Ok. exists (). split; [done|]. rewrite Hs. rewrite H3, (one_truthy _ H3), H4, Hf, queued_status. by rewrite bool_decide_true.
Qed.


(** What a later operation reads of a deployment. *)
Definition source_keys : list string :=
  ["serviceId"; "snapshotVersion"; "desiredSpecSnapshot"; "commitSha"; "commitHash"; "imageUrl"; "imageDigest"].

(** What a deployment deploys. *)
Definition deployed (d : jsobj) : list jsval :=
  (fun k => obj_get k d) <$> ["serviceId"; "desiredSpecSnapshot"; "snapshotVersion"; "commitSha"; "commitHash"; "imageUrl"; "imageDigest"].

Lemma js_nullish_idem a b : js_nullish (js_nullish a b) b = js_nullish a b.
Proof. destruct a; try done; destruct b; done. Qed.

Lemma trimmed_nullish v : trimmed (nullish_null v) = trimmed v.
Proof. by destruct v. Qed.

Lemma sourceKind_ext src src' spec : str_empty (trimmed (obj_get "imageUrl" src')) = str_empty (trimmed (obj_get "imageUrl" src)) ->
  sourceKind src' spec = sourceKind src spec.
Proof. unfold sourceKind. by intros ->. Qed.

Lemma sourceKind_image src src' spec : sourceKind src spec = kind_image -> str_empty (trimmed (obj_get "imageUrl" src')) = false ->
  sourceKind src' spec = kind_image.
Proof.
  unfold sourceKind. intros H ->. revert H. destruct (negb (str_empty (trimmed (obj_get "localPath" spec)))); [done|].
  destruct (bool_decide (_ = "image") || bool_decide _); [done|]. cbn [orb negb].
  destruct (str_empty (str_or _ _)); [done|]. cbn [andb negb orb]. done.
Qed.

Lemma pinned_image_nonempty repository digest : str_empty (repository +:+ "@" +:+ digest) = false.
Proof. by destruct repository. Qed.

Lemma successor_source_Ok src spec from : successor_source src spec = Ok from ->
  match sourceKind src spec with
  | kind_git => (exists commit, full_commit commit = true /\ from.1 = Some commit) /\
                from.2 = (nullish_null (obj_get "imageUrl" src), nullish_null (obj_get "imageDigest" src))
  | kind_image => from.1 = None /\ exists repository digest,
      valid_repository repository = true /\ validDigest digest = true /\
      from.2 = (JStr (repository +:+ "@" +:+ digest), JStr digest)
  | _ => from = (None, (nullish_null (obj_get "imageUrl" src), nullish_null (obj_get "imageDigest" src)))
  end.
Proof.
  unfold successor_source. rewrite bind_Ok. intros (c & Hc & H). rewrite bind_Ok in H. destruct H as (i & Hi & [= <-]).
  destruct (sourceKind src spec); cbn [fst snd] in *;
    first [rewrite bool_decide_false in Hc by done; injection Hc as <-|rewrite bool_decide_true in Hc by done];
    first [rewrite bool_decide_false in Hi by done; injection Hi as <-|rewrite bool_decide_true in Hi by done].
  - done.
  - split; [done|]. rewrite bind_Ok in Hi. destruct Hi as ([url digest] & Hi & [= <-]).
    apply immutableImage_Ok in Hi as (repository & -> & Hr & Hd). by exists repository, digest.
  - split; [|done]. rewrite bind_Ok in Hc. destruct Hc as (commit & Hc & [= <-]).
    exists commit. by split; [apply (immutableGitCommit_Ok src)|].
  - done.
Qed.

Lemma successor_source_stable src spec input uuid status from src' :
  successor_source src spec = Ok from ->
  (forall k, k ∈ source_keys -> obj_get k src' = obj_get k (successor_row src spec input uuid status from)) ->
  successor_source src' spec = Ok from.
Proof.
  intros Hf Hk. apply successor_source_Ok in Hf.
  pose proof (Hk "imageUrl" ltac:(apply (bool_decide_unpack _); vm_compute; exact I)) as Hu.
  pose proof (Hk "imageDigest" ltac:(apply (bool_decide_unpack _); vm_compute; exact I)) as Hd.
  pose proof (Hk "commitSha" ltac:(apply (bool_decide_unpack _); vm_compute; exact I)) as Hs.
  pose proof (Hk "commitHash" ltac:(apply (bool_decide_unpack _); vm_compute; exact I)) as Hh.
  change (obj_get "imageUrl" src' = from.2.1) in Hu. change (obj_get "imageDigest" src' = from.2.2) in Hd.
  cbv [successor_row] in Hs, Hh. cbn -[js_nullish nullish_null] in Hs, Hh.
  unfold successor_source. destruct (sourceKind src spec) eqn:E.
  2: { destruct Hf as (Hc & repository & digest & Hr & Hdg & Hi). rewrite Hi in Hu, Hd. cbn [fst snd] in Hu, Hd.
    destruct (valid_repository_facts repository Hr) as [Hp _]. destruct (validDigest_pinned digest Hdg) as [Hpd _].
    rewrite (sourceKind_image src src') by (try done; rewrite Hu; cbn [trimmed]; by rewrite trim_image, pinned_image_nonempty).
    rewrite (immutableImage_stable src' repository digest) by done. destruct from. by cbn in Hc, Hi |- *; subst. }
  all: rewrite (sourceKind_ext src src' spec), E.
  - subst from. cbn in Hu, Hd |- *. rewrite Hu, Hd. unfold nullish_null. by rewrite !js_nullish_idem.
  - subst from. cbn [fst snd] in Hu. by rewrite Hu, trimmed_nullish.
  - destruct Hf as [(commit & Hc & Hfc) Hi]. rewrite Hi in Hu, Hd. rewrite Hfc in Hs, Hh. cbn in Hu, Hd, Hs, Hh |- *.
    rewrite (immutableGitCommit_stable src' commit), Hu, Hd by done. unfold nullish_null. rewrite !js_nullish_idem.
    destruct from. by cbn in Hfc, Hi |- *; subst.
  - destruct Hf as [_ Hi]. rewrite Hi in Hu. cbn [fst snd] in Hu. by rewrite Hu, trimmed_nullish.
  - subst from. cbn in Hu, Hd |- *. rewrite Hu, Hd. unfold nullish_null. by rewrite !js_nullish_idem.
  - subst from. cbn [fst snd] in Hu. by rewrite Hu, trimmed_nullish.
Qed.

(** A source that cannot move: a full commit hash, or an image and its digest. *)
Definition pinned_source (kind : SourceKind) (d : jsobj) : Prop :=
  match kind with
  | kind_git => exists commit, full_commit commit = true /\ obj_get "commitSha" d = JStr commit /\ obj_get "commitHash" d = JStr commit
  | kind_image => exists repository digest, valid_repository repository = true /\ validDigest digest = true /\
      obj_get "imageUrl" d = JStr (repository +:+ "@" +:+ digest) /\ obj_get "imageDigest" d = JStr digest
  | _ => True
  end.

Lemma successor_row_pinned src spec input uuid status from :
  successor_source src spec = Ok from -> pinned_source (sourceKind src spec) (successor_row src spec input uuid status from).
Proof.
  intros Hf%successor_source_Ok. destruct (sourceKind src spec); cbn [pinned_source]; [done|..|done].
  - destruct Hf as (_ & repository & digest & Hr & Hd & Hi). exists repository, digest. split_and!; [done..| |].
    + change (from.2.1 = JStr (repository +:+ "@" +:+ digest)). by rewrite Hi.
    + change (from.2.2 = JStr digest). by rewrite Hi.
  - destruct Hf as [(commit & Hc & Hfc) _]. exists commit. unfold successor_row. by rewrite Hfc.
Qed.

(** A retry or a redeployment that succeeds starts from a deployment of the
    same service that ended in a status the operation allows (a retry only
    from a failure); its successor is queued, points at the source, keeps its
    snapshot unchanged and has a pinned source: a full commit hash for a git
    service, a repository with a digest for an image. *)
Theorem successor_pinned source input uuid d :
  deploymentSuccessor source input uuid = Ok d ->
  exists src spec status,
    source = Some src /\ obj_get "serviceId" src = JStr (op_serviceId input) /\
    normalizeDeploymentStatus (obj_get "status" src) = Ok status /\ status ∈ source_statuses (op_operation input) /\
    obj_get "desiredSpecSnapshot" src = JObj spec /\ obj_get "desiredSpecSnapshot" d = JObj spec /\
    obj_get "serviceId" d = JStr (op_serviceId input) /\ obj_get "status" d = JStr "queued" /\
    obj_get "sourceDeploymentId" d = obj_get "id" src /\ pinned_source (sourceKind src spec) d.
Proof.
  rewrite deploymentSuccessor_Ok. intros (src & -> & spec & status & from & H1 & Hst & H2 & Hs & H3 & H4 & Hf & ->).
  exists src, spec, status. assert (obj_get "serviceId" src = JStr (op_serviceId input)) as Hsv.
  { destruct (obj_get "serviceId" src); try done. by injection H1 as ->. }
  split_and!; try done. by apply successor_row_pinned.
Qed.

Lemma deployed_row src spec input uuid status from :
  let sha := obj_get "commitSha" src in let hash := obj_get "commitHash" src in
  let commit := match from.1 with Some c => JStr c | None => JUndef end in
  deployed (successor_row src spec input uuid status from) =
    [obj_get "serviceId" src; JObj spec; obj_get "snapshotVersion" src;
     js_nullish commit (js_nullish sha (nullish_null hash)); js_nullish commit (js_nullish hash (nullish_null sha)); from.2.1; from.2.2].
Proof. reflexivity. Qed.

Lemma nullish_pair commit a b :
  let x := js_nullish commit (js_nullish a (nullish_null b)) in
  let y := js_nullish commit (js_nullish b (nullish_null a)) in
  js_nullish commit (js_nullish x (nullish_null y)) = x.
Proof. destruct commit; try done; destruct a; try done; by destruct b. Qed.

Lemma deployed_stable src spec input uuid status from src' input' uuid' status' :
  (forall k, k ∈ source_keys -> obj_get k src' = obj_get k (successor_row src spec input uuid status from)) ->
  deployed (successor_row src' spec input' uuid' status' from) = deployed (successor_row src spec input uuid status from).
Proof.
  intros Hk. pose proof (fun k H => Hk k (bool_decide_unpack (k ∈ source_keys) H)) as Hk'. clear Hk.
  pose proof (Hk' "serviceId" I : _ = obj_get "serviceId" src) as H1.
  pose proof (Hk' "snapshotVersion" I : _ = obj_get "snapshotVersion" src) as H2.
  set (commit := match from.1 with Some c => JStr c | None => JUndef end).
  pose proof (Hk' "commitSha" I : _ = js_nullish commit (js_nullish (obj_get "commitSha" src) (nullish_null (obj_get "commitHash" src)))) as H3.
  pose proof (Hk' "commitHash" I : _ = js_nullish commit (js_nullish (obj_get "commitHash" src) (nullish_null (obj_get "commitSha" src)))) as H4.
  rewrite !deployed_row. cbv zeta. fold commit. by rewrite H1, H2, H3, H4, !nullish_pair.
Qed.

(** C18. Pinning is stable: once a successor is READY, whatever else its row
    has gained, redeploying it succeeds and deploys the same service, snapshot,
    commit and image again. *)
Theorem redeploy_stable source input uuid d later input' uuid' :
  deploymentSuccessor source input uuid = Ok d ->
  (forall k, k ∈ source_keys -> obj_get k later = obj_get k d) -> obj_get "status" later = JStr "READY" ->
  op_operation input' = redeploy -> op_serviceId input' = op_serviceId input -> op_snapshotVersion input' = 1 ->
  exists d', deploymentSuccessor (Some later) input' uuid' = Ok d' /\ deployed d' = deployed d.
Proof.
  rewrite deploymentSuccessor_Ok. intros (src & -> & spec & status & from & H1 & Hst & H2 & Hs & H3 & H4 & Hf & ->) Hk Hr Ho Hsv Hv.
  exists (successor_row later spec input' uuid' "queued" from). split; [|by apply deployed_stable].
  rewrite deploymentSuccessor_Ok. exists later. split; [done|].
  pose proof (fun k H => Hk k (bool_decide_unpack (k ∈ source_keys) H)) as Hk'.
  exists spec, "READY", from. rewrite Hr, Ho, Hsv, (Hk' "serviceId" I), (Hk' "desiredSpecSnapshot" I), (Hk' "snapshotVersion" I).
  split_and!; [exact H1|done| |done|exact H3|done| |done].
  - apply (bool_decide_unpack _); vm_compute; exact I.
  - by eapply successor_source_stable.
Qed.

Close Scope Z_scope.
