(* ===== verification/DeploymentExamples.v ===== *)
(** * Deployments of a sample service

    Two deployments of one service, for running the operations on them, and
    what happens when a service is rolled back a second time. *)

From S2P Require Import Prelude JsString JsMap JsVal Ids Lifecycle Secrets Accounts Redaction Workflows ControlPlane Deployments DeploymentSafety DeploymentOperations DeploymentOperationSafety.

Open Scope Z_scope.

(** An instant of a text that is as good as [Date.parse] for comparing
    timestamps of the same format. *)
Definition digits_instant (s : string) : option Z :=
  digits_value 10 dec_digit 0 (filter (fun c => is_digit c = true) (chars s)).

Definition homepage : jsobj :=
  [("id", JStr "svc-prj-org-club-homepage-web"); ("projectId", JStr "prj-org-club-homepage"); ("name", JStr "web")].

Definition homepage_store : ControlPlane :=
  empty_control_plane <| services := [("svc-prj-org-club-homepage-web", homepage)] |>.

Definition deploy (sha image : string) : jsobj :=
  [("serviceId", JStr "svc-prj-org-club-homepage-web"); ("commitSha", JStr sha); ("imageUrl", JStr image);
   ("status", JStr "IMAGE_READY")].

(** The state after a run, whatever it answered. *)
Definition then_do {A} (m : M ControlPlane A) (s : ControlPlane) : ControlPlane := (m s).2.

Definition finish (id : string) (now : Z) : M ControlPlane (option jsobj) :=
  transitionDeployment id (JStr "READY") [] default_update_options now.

Definition dep_a : string := "dep-svc-prj-org-club-homepage-web-aaaa".
Definition dep_b : string := "dep-svc-prj-org-club-homepage-web-bbbb".
Definition dep_c : string := "dep-svc-prj-org-club-homepage-web-cccc".

Definition two_releases : ControlPlane :=
  then_do (finish dep_b 4000) (then_do (createDeployment (deploy "bbbb" "registry/web:b") 3000)
    (then_do (finish dep_a 2000) (then_do (createDeployment (deploy "aaaa" "registry/web:a") 1000) homepage_store))).

Definition released (id : string) (s : ControlPlane) : option (jsval * jsval) :=
  (fun row => (obj_get "status" row, obj_get "imageUrl" row)) <$> map_get id (deployments s).

Example two_releases_ready :
  released dep_a two_releases = Some (JStr "READY", JStr "registry/web:a")
  /\ released dep_b two_releases = Some (JStr "READY", JStr "registry/web:b").
Proof. vm_compute. done. Qed.

(** A deployment that is created, cancelled and then asked to become ready
    stays cancelled. *)
Definition one_queued : ControlPlane := then_do (createDeployment (deploy "aaaa" "registry/web:a") 1000) homepage_store.
Definition one_cancelled : ControlPlane :=
  then_do (finish dep_a 3000) (then_do (cancelDeployment dep_a (mkCancel "" "" "" "") 2000) one_queued).

Definition row_of (id : string) (s : ControlPlane) : jsobj := default [] (map_get id (deployments s)).

Lemma one_cancelled_run : deployment_run digits_instant [] one_queued one_cancelled.
Proof.
  change [] with ([] ++ ([] ++ [] : list string)). eapply dr_step.
  { eapply (ds_cancel _ dep_a (mkCancel "" "" "" "") 2000). rewrite (surjective_pairing (cancelDeployment _ _ _ _)). reflexivity. }
  eapply dr_step; [|apply dr_done]. eapply (ds_transition _ dep_a (JStr "READY") [] default_update_options 3000); [apply NoDup_nil_2|].
  fold (finish dep_a 3000). rewrite (surjective_pairing (finish dep_a 3000 _)). reflexivity.
Qed.

Lemma deployment_lifecycle_witness :
  exists row' st', map_get dep_a (deployments one_cancelled) = Some row'
    /\ parseDeploymentStatus (obj_get "status" row') = Ok st'
    /\ rtc (lifecycle_step machine_deployment) "IMAGE_READY" st'
    /\ forall k, k ∈ DEPLOYMENT_LINEAGE_KEYS -> obj_get k row' = obj_get k (row_of dep_a one_queued).
Proof.
  destruct (deployment_lifecycle digits_instant [] one_queued one_cancelled dep_a (row_of dep_a one_queued) "IMAGE_READY" one_cancelled_run)
    as (row' & Hl & Hrow); [vm_compute; reflexivity|vm_compute; reflexivity|].
  destruct (Hrow (not_elem_of_nil dep_a)) as [(st' & Hst & Hrtc) Hk]. exists row', st'. split; [exact Hl|]. split; [exact Hst|]. split; [exact Hrtc|exact Hk].
Defined.

Lemma rollback_sound_witness :
  let '(r, s') := rollbackDeployment digits_instant dep_b "" "" 5000 two_releases in
  exists row previous job, r = Ok (mkRollback row previous job) /\ obj_get "imageUrl" row = JStr "registry/web:a"
    /\ workflowJobs (cp_workflow s') = workflowJobs (cp_workflow two_releases) ++ [job].
Proof.
  assert (Himage : match (rollbackDeployment digits_instant dep_b "" "" 5000 two_releases).1 with
                   | Ok r => obj_get "imageUrl" (rb_deployment r) | Throw _ => JUndef end = JStr "registry/web:a")
    by (vm_compute; reflexivity).
  destruct (rollbackDeployment digits_instant dep_b "" "" 5000 two_releases) as [r s'] eqn:E. cbn [fst] in Himage.
  destruct (rollback_sound digits_instant _ _ _ _ _ _ _ E)
    as [[_ [e ->]]|(current & previous & row & job & -> & _ & _ & _ & _ & _ & _ & _ & _ & _ & _ & _ & Hw & _)];
    [cbv beta iota in Himage; discriminate Himage|].
  exists row, previous, job. split; [reflexivity|]. split; [exact Himage|exact Hw].
Defined.

(** ** The second rollback of a service *)

Definition rolled_back_once : ControlPlane :=
  let s := then_do (rollbackDeployment digits_instant dep_b "" "" 5000) two_releases in
  then_do (finish "dep-svc-prj-org-club-homepage-web-rollback-dep-svc-prj-org-club" 6000) s.

Definition third_release : ControlPlane :=
  then_do (finish dep_c 8000) (then_do (createDeployment (deploy "cccc" "registry/web:c") 7000) rolled_back_once).

(** The identifier of a rollback is cut at 63 characters, before the
    deployment and the time it names, for services as usual ones are: all
    rollbacks of the service share one identifier. The second rollback then
    replaces the row of the first, which is both its source and the release
    the service goes back to: the new row names itself as the previous
    deployment, and the release that was ready is gone. *)
Theorem second_rollback_overwrites :
  let first := "dep-svc-prj-org-club-homepage-web-rollback-dep-svc-prj-org-club" in
  let '(r, s') := rollbackDeployment digits_instant dep_c "" "" 9000 third_release in
  released first third_release = Some (JStr "READY", JStr "registry/web:a")
  /\ (exists row previous job, r = Ok (mkRollback row previous job)
        /\ obj_get "id" row = JStr first /\ obj_get "previousDeploymentId" row = JStr first)
  /\ released first s' = Some (JStr "IMAGE_READY", JStr "registry/web:a")
  /\ length (deployments s') = length (deployments third_release).
Proof.
  intros first. vm_compute. split; [done|]. split; [by do 3 eexists|done].
Qed.

Close Scope Z_scope.

(** ** Retries and redeployments *)

Open Scope Z_scope.

Definition example_digest : string := "sha256:0123456789abcdef0123456789abcdef0123456789abcdef0123456789abcdef".

Definition failed_image_deployment : jsobj :=
  [("id", JStr "dep_1"); ("serviceId", JStr "svc_1"); ("projectId", JStr "prj_1"); ("status", JStr "failed");
   ("snapshotVersion", JNum (NInt 1)); ("desiredSpecSnapshot", JObj [("sourceType", JStr "image"); ("port", JNum (NInt 80))]);
   ("imageUrl", JStr " registry.example.com:5000/team/my_app:v1.2 "); ("imageDigest", JStr example_digest)].

Definition failed_git_deployment : jsobj :=
  [("id", JStr "dep_2"); ("serviceId", JStr "svc_1"); ("projectId", JStr "prj_1"); ("status", JStr "BUILD_FAILED");
   ("snapshotVersion", JNum (NInt 1)); ("desiredSpecSnapshot", JObj [("repoUrl", JStr "https://github.com/team/app")]);
   ("commitHash", JStr "0123456789ABCDEF0123456789abcdef01234567")].

Definition retry_request : DeploymentOperation := mkOperation retry "svc_1" (Some "dep_1") "usr_1" "key-1" 1.
Definition redeploy_request : DeploymentOperation := mkOperation redeploy "svc_1" None "usr_1" "key-2" 1.

Definition retried_image : jsobj := match deploymentSuccessor (Some failed_image_deployment) retry_request "u1" with Ok d => d | Throw _ => [] end.

Example retried_image_url : obj_get "imageUrl" retried_image = JStr ("registry.example.com:5000/team/my_app@" +:+ example_digest).
Proof. reflexivity. Qed.

(** A commit that is a branch name cannot be redeployed. *)
Example moving_commit_refused :
  deploymentSuccessor (Some (map_set "commitHash" (JStr "main") failed_git_deployment)) redeploy_request "u1" = Throw source_ineligible.
Proof. reflexivity. Qed.

Lemma successor_pinned_witness : exists d, deploymentSuccessor (Some failed_git_deployment) redeploy_request "u2" = Ok d /\
  exists src spec status,
    Some failed_git_deployment = Some src /\ obj_get "serviceId" src = JStr "svc_1" /\
    normalizeDeploymentStatus (obj_get "status" src) = Ok status /\ status ∈ source_statuses redeploy /\
    obj_get "desiredSpecSnapshot" src = JObj spec /\ obj_get "desiredSpecSnapshot" d = JObj spec /\
    obj_get "serviceId" d = JStr "svc_1" /\ obj_get "status" d = JStr "queued" /\
    obj_get "sourceDeploymentId" d = obj_get "id" src /\ pinned_source (sourceKind src spec) d.
Proof.
  eexists. split; [vm_compute; reflexivity|]. apply (successor_pinned _ redeploy_request "u2"). vm_compute. reflexivity.
Defined.

Lemma redeploy_stable_witness : exists d',
  deploymentSuccessor (Some (map_set "status" (JStr "READY") retried_image)) redeploy_request "u3" = Ok d' /\
  deployed d' = deployed retried_image.
Proof.
  apply (redeploy_stable (Some failed_image_deployment) retry_request "u1"); try reflexivity.
  intros k Hk. apply obj_get_set_ne. intros <-.
  assert (bool_decide ("status" ∈ source_keys) = false) as E by reflexivity. by apply bool_decide_eq_false in E.
Defined.

Close Scope Z_scope.
