(* ===== verification/Paging.v ===== *)
(** * Keyset pagination

    Rows are listed in a total order, one page at a time; a page starts after
    the last row of the page before.  Walking the pages gives every row once. *)

From Stdlib Require Import Sorted.
From S2P Require Import Prelude.

(** ** Sorting with a total preorder *)

Section sorted.
Context {A : Type} (le : A -> A -> bool).
Hypothesis le_total : forall x y, le x y = false -> le y x = true.
Hypothesis le_trans : forall x y z, le x y = true -> le y z = true -> le x z = true.

Definition in_order (x y : A) : Prop := le x y = true.

Lemma sort_insert_sorted x l : StronglySorted in_order l -> StronglySorted in_order (sort_insert le x l).
Proof.
  induction 1 as [|y l Hl IH Hy]; cbn; [repeat constructor|]. destruct (le x y) eqn:E.
  - constructor; [by constructor|]. constructor; [done|]. eapply Forall_impl; [exact Hy|]. intros z Hz. by eapply le_trans.
  - constructor; [done|]. rewrite sort_insert_perm. constructor; [by apply le_total|done].
Qed.

Lemma js_sort_sorted l : StronglySorted in_order (js_sort le l).
Proof. induction l as [|x l IH]; cbn; [constructor|by apply sort_insert_sorted]. Qed.

Lemma sort_insert_front x l : Forall (fun y => le x y = true) l -> sort_insert le x l = x :: l.
Proof. destruct 1 as [|y l Hy]; cbn; [done|]. by rewrite Hy. Qed.

Lemma filter_sort_insert (P : A -> Prop) `{forall x, Decision (P x)} x l : StronglySorted in_order l ->
  filter P (sort_insert le x l) = if decide (P x) then sort_insert le x (filter P l) else filter P l.
Proof.
  induction 1 as [|y l Hl IH Hy]; cbn [sort_insert].
  - rewrite filter_cons, filter_nil. by case_decide.
  - destruct (le x y) eqn:E.
    + rewrite filter_cons. case_decide as Hx; [|done]. rewrite filter_cons. case_decide; cbn [sort_insert]; [by rewrite E|].
      symmetry. apply sort_insert_front, Forall_forall. intros z [_ Hz]%list_elem_of_filter. rewrite Forall_forall in Hy.
      eapply le_trans; [exact E|by apply Hy].
    + rewrite !filter_cons, IH. repeat case_decide; cbn [sort_insert]; rewrite ?E; done.
Qed.

(** Sorting and selecting commute. *)
Lemma js_sort_filter (P : A -> Prop) `{forall x, Decision (P x)} l : js_sort le (filter P l) = filter P (js_sort le l).
Proof.
  induction l as [|x l IH]; [done|]. change (js_sort le (x :: l)) with (sort_insert le x (js_sort le l)).
  rewrite filter_sort_insert by apply js_sort_sorted. rewrite filter_cons. case_decide; [|done].
  change (js_sort le (x :: filter P l)) with (sort_insert le x (js_sort le (filter P l))). by rewrite IH.
Qed.
End sorted.

Lemma js_sort_ext {A} (le le' : A -> A -> bool) l : (forall x y, x ∈ l -> y ∈ l -> le x y = le' x y) -> js_sort le l = js_sort le' l.
Proof.
  intros H. induction l as [|x l IH]; [done|].
  change (sort_insert le x (js_sort le l) = sort_insert le' x (js_sort le' l)). rewrite IH by (intros; apply H; set_solver).
  assert (forall k, (forall y, y ∈ k -> y ∈ l) -> sort_insert le x k = sort_insert le' x k) as Hi.
  { induction k as [|y k IHk]; intros Hk; [done|]. cbn. rewrite (H x y) by set_solver. rewrite IHk by set_solver. done. }
  apply Hi. intros y Hy. by rewrite js_sort_perm in Hy.
Qed.

Lemma filter_ext_in {A} (P Q : A -> Prop) `{forall x, Decision (P x)} `{forall x, Decision (Q x)} (l : list A) :
  (forall x, x ∈ l -> P x <-> Q x) -> filter P l = filter Q l.
Proof.
  intros Hl. induction l as [|x l IH]; [done|]. rewrite !filter_cons, IH by (intros; apply Hl; by right).
  specialize (Hl x (list_elem_of_here _ _)). repeat case_decide; tauto.
Qed.

Lemma filter_all {A} (P : A -> Prop) `{forall x, Decision (P x)} l : Forall P l -> filter P l = l.
Proof. induction 1 as [|x l Hx _ IH]; [done|]. by rewrite filter_cons, decide_True, IH. Qed.

(** ** The order of strings and of pairs of them *)

(** [a < b] on strings *)
Definition str_lt (a b : string) : bool := match String.compare a b with Lt => true | _ => false end.

Lemma str_lt_irrefl a : str_lt a a = false.
Proof.
  unfold str_lt. pose proof (String.compare_antisym a a) as H. by destruct (String.compare a a).
Qed.

Lemma str_lt_trichotomy a b : str_lt a b = true \/ a = b \/ str_lt b a = true.
Proof.
  unfold str_lt. rewrite (String.compare_antisym b a). destruct (String.compare a b) eqn:E; cbn; [|by left|by right; right].
  right; left. by apply String.compare_eq_iff.
Qed.

Lemma str_lt_cons c a d b : str_lt (String c a) (String d b) = true <->
  (Ascii.N_of_ascii c < Ascii.N_of_ascii d)%N \/ (c = d /\ str_lt a b = true).
Proof.
  unfold str_lt. cbn. unfold Ascii.compare. destruct (N.compare_spec (Ascii.N_of_ascii c) (Ascii.N_of_ascii d)) as [E|E|E].
  - assert (c = d) as -> by (rewrite <- (Ascii.ascii_N_embedding c), E; apply Ascii.ascii_N_embedding).
    split; [by right|]. intros [?|[_ ?]]; [lia|done].
  - split; [by left|done].
  - split; [done|]. intros [?|[-> _]]; lia.
Qed.

Lemma str_lt_trans a b c : str_lt a b = true -> str_lt b c = true -> str_lt a c = true.
Proof.
  revert b c. induction a as [|x a IH]; intros [|y b] [|z c]; try done. rewrite !str_lt_cons.
  intros [H1|[-> H1]] [H2|[-> H2]]; [left; lia|by left|by left|right; split; [done|by eapply IH]].
Qed.

(** Pairs, by the first component and then the second *)
Definition pair_lt (a b : string * string) : bool := str_lt a.1 b.1 || (bool_decide (a.1 = b.1) && str_lt a.2 b.2).

Lemma pair_lt_spec a b : pair_lt a b = true <-> str_lt a.1 b.1 = true \/ (a.1 = b.1 /\ str_lt a.2 b.2 = true).
Proof. unfold pair_lt. rewrite orb_true_iff, andb_true_iff, bool_decide_eq_true. done. Qed.

Lemma pair_lt_irrefl a : pair_lt a a = false.
Proof. unfold pair_lt. by rewrite !str_lt_irrefl, andb_false_r. Qed.

Lemma pair_lt_trans a b c : pair_lt a b = true -> pair_lt b c = true -> pair_lt a c = true.
Proof.
  rewrite !pair_lt_spec. intros [H1|[E1 H1]] [H2|[E2 H2]].
  - left. by eapply str_lt_trans.
  - left. by rewrite <- E2.
  - left. by rewrite E1.
  - right. split; [congruence|by eapply str_lt_trans].
Qed.

Lemma pair_lt_trichotomy a b : pair_lt a b = true \/ a = b \/ pair_lt b a = true.
Proof.
  rewrite !pair_lt_spec. destruct a as [a1 a2], b as [b1 b2]; cbn.
  destruct (str_lt_trichotomy a1 b1) as [?|[->|?]]; [by left; left| |by right; right; left].
  destruct (str_lt_trichotomy a2 b2) as [?|[->|?]]; [by left; right|by right; left|by right; right; right].
Qed.

Lemma pair_lt_weak a b c : pair_lt a b = false -> pair_lt b c = false -> pair_lt a c = false.
Proof.
  intros H1 H2. destruct (pair_lt a c) eqn:E; [|done]. destruct (pair_lt_trichotomy b c) as [?|[-> |H]]; [congruence|congruence|].
  by rewrite (pair_lt_trans a c b E H) in H1.
Qed.

(** ** Pages *)

Section pages.
Context {A : Type} (before : A -> A -> bool).
(** A strict total order. *)
Hypothesis before_irrefl : forall x, before x x = false.
Hypothesis before_trans : forall x y z, before x y = true -> before y z = true -> before x z = true.
Hypothesis before_weak : forall x y z, before y x = false -> before z y = false -> before z x = false.

Definition not_after (x y : A) : bool := negb (before y x).

Lemma not_after_total x y : not_after x y = false -> not_after y x = true.
Proof.
  unfold not_after. intros H%negb_false_iff. destruct (before x y) eqn:E; [|done].
  pose proof (before_irrefl y) as Hi. by rewrite (before_trans y x y H E) in Hi.
Qed.

Lemma not_after_trans x y z : not_after x y = true -> not_after y z = true -> not_after x z = true.
Proof. unfold not_after. rewrite !negb_true_iff. apply before_weak. Qed.

Lemma sorted_lookup (R : A -> A -> Prop) l (i j : nat) x y :
  StronglySorted R l -> l !! i = Some x -> l !! j = Some y -> (i < j)%nat -> R x y.
Proof.
  intros Hl. revert i j. induction Hl as [|z l Hl IH Hz]; intros i j; [done|]. destruct j as [|j]; [lia|]. destruct i as [|i]; cbn.
  - intros [= ->] Hj _. rewrite Forall_forall in Hz. apply Hz. by eapply list_elem_of_lookup_2.
  - intros Hi Hj Hlt. apply (IH i j Hi Hj). lia.
Qed.

(** Rows that differ are ordered: so are the sorted rows. *)
Lemma sorted_ordered (rows : list A) : NoDup rows ->
  (forall x y, x ∈ rows -> y ∈ rows -> x <> y -> before x y = true \/ before y x = true) ->
  forall (i j : nat) x y, js_sort not_after rows !! i = Some x -> js_sort not_after rows !! j = Some y -> (i < j)%nat -> before x y = true.
Proof.
  intros Hn Ht i j x y Hi Hj Hlt. pose proof (js_sort_perm not_after rows) as Hp.
  assert (before y x = false) as Hyx.
  { apply negb_true_iff. apply (sorted_lookup _ _ i j x y (js_sort_sorted not_after not_after_total not_after_trans rows) Hi Hj Hlt). }
  assert (x <> y) as Hne.
  { intros ->. rewrite <- Hp in Hn. pose proof (NoDup_lookup _ _ _ _ Hn Hi Hj). lia. }
  destruct (Ht x y) as [?|?]; try done; [..|congruence]; rewrite <- Hp; by eapply list_elem_of_lookup_2.
Qed.

Context (rows : list A) (limit : nat).
(** Different rows are ordered. *)
Hypothesis rows_ordered : forall i j x y, js_sort not_after rows !! i = Some x -> js_sort not_after rows !! j = Some y ->
  (i < j)%nat -> before x y = true.
Hypothesis limit_positive : (1 <= limit)%nat.

Definition page (cursor : option A) : list A * option A :=
  let below := match cursor with Some c => filter (fun row => before c row = true) rows | None => rows end in
  let found := take (limit + 1) (js_sort not_after below) in
  (take limit found, if (limit <? length found)%nat then last (take limit found) else None).

Fixpoint walk (fuel : nat) (cursor : option A) : list A :=
  match fuel with
  | O => []
  | S fuel' => (page cursor).1 ++ match (page cursor).2 with Some c => walk fuel' (Some c) | None => [] end
  end.

Lemma filter_after (l : list A) (i : nat) c :
  (forall i j x y, l !! i = Some x -> l !! j = Some y -> (i < j)%nat -> before x y = true) -> l !! i = Some c ->
  filter (fun row => before c row = true) l = drop (S i) l.
Proof.
  revert i. induction l as [|x l IH]; intros i Hord Hi; [done|].
  assert (forall i j x y, l !! i = Some x -> l !! j = Some y -> (i < j)%nat -> before x y = true) as Hord'
    by (intros a b u v Ha Hb Hab; apply (Hord (S a) (S b)); [done|done|lia]).
  destruct i as [|i]; cbn in Hi.
  - injection Hi as ->. rewrite filter_cons, decide_False by (by rewrite before_irrefl). cbn. rewrite drop_0.
    apply filter_all, Forall_forall. intros y Hy. apply list_elem_of_lookup in Hy as [k Hk].
    apply (Hord 0%nat (S k)); [done|done|lia].
  - rewrite filter_cons, decide_False; [by apply IH|]. intros Hb.
    assert (before x c = true) as Hxc by (apply (Hord 0%nat (S i)); [done|done|lia]).
    pose proof (before_irrefl x) as Hir. by rewrite (before_trans x c x Hxc Hb) in Hir.
Qed.

Lemma page_below (i : nat) c : js_sort not_after rows !! i = Some c ->
  js_sort not_after (filter (fun row => before c row = true) rows) = drop (S i) (js_sort not_after rows).
Proof.
  intros Hi. rewrite js_sort_filter; [|apply not_after_total|apply not_after_trans]. by apply filter_after.
Qed.

(** The page that follows the first [n] rows, and where it ends *)
Lemma page_from cursor n :
  match cursor with
  | Some c => exists i, n = S i /\ js_sort not_after rows !! i = Some c
  | None => n = 0%nat
  end ->
  (page cursor).1 = take limit (drop n (js_sort not_after rows))
  /\ match (page cursor).2 with
     | Some c => js_sort not_after rows !! (n + limit - 1)%nat = Some c /\ (n + limit < length rows)%nat
     | None => (length rows <= n + limit)%nat
     end.
Proof.
  intros Hc. set (L := js_sort not_after rows) in *. assert (length L = length rows) as HL by (apply Permutation_length, js_sort_perm).
  unfold page. assert (js_sort not_after match cursor with Some c => filter (fun row => before c row = true) rows | None => rows end = drop n L) as ->.
  { destruct cursor as [c|]; [destruct Hc as (i & -> & Hi); by apply page_below|by rewrite Hc, drop_0]. }
  cbn [fst snd]. rewrite take_take, Nat.min_l by lia. split; [done|]. rewrite length_take, length_drop.
  destruct (Nat.ltb_spec limit ((limit + 1) `min` (length L - n))) as [Hlt|Hge]; [|lia].
  rewrite last_lookup, length_take, length_drop, Nat.min_l by lia. rewrite lookup_take_lt by lia. rewrite lookup_drop.
  replace (n + Nat.pred limit)%nat with (n + limit - 1)%nat by lia.
  destruct (L !! (n + limit - 1)%nat) as [c|] eqn:E; [split; [done|lia]|]. apply lookup_ge_None in E. lia.
Qed.

Lemma walk_from fuel cursor n :
  match cursor with
  | Some c => exists i, n = S i /\ js_sort not_after rows !! i = Some c
  | None => n = 0%nat
  end -> (length rows < n + fuel)%nat -> walk fuel cursor = drop n (js_sort not_after rows).
Proof.
  assert (length (js_sort not_after rows) = length rows) as HL by (apply Permutation_length, js_sort_perm).
  revert cursor n. induction fuel as [|fuel IH]; intros cursor n Hc Hf.
  - cbn. rewrite drop_ge by lia. done.
  - cbn [walk]. destruct (page_from cursor n Hc) as [-> H2]. destruct ((page cursor).2) as [c|].
    + destruct H2 as [Hi Hl]. rewrite (IH (Some c) (n + limit)%nat); [|exists (n + limit - 1)%nat; split; [lia|done]|lia].
      rewrite <- drop_drop. apply take_drop.
    + rewrite app_nil_r. apply take_ge. rewrite length_drop. lia.
Qed.

Lemma walk_all fuel : (length rows < fuel)%nat -> walk fuel None = js_sort not_after rows.
Proof. intros Hf. rewrite (walk_from fuel None 0); [by rewrite drop_0|done|lia]. Qed.

End pages.
