(* ===== verification/RecoveryProvenance.v ===== *)
(** * Provenance of resources ([packages/core/src/resource-recovery-provenance.ts],
    [resource-recovery-types.ts])

    The identity of a managed resource that a backup is taken of: what the
    provider reported about its workload, and a hash that changes when the
    resource is another one.  Dates are instants in milliseconds; [Date.parse]
    and SHA-256 are parameters. *)

From S2P Require Import Prelude JsString JsMap JsVal Ids Lifecycle Secrets Accounts Redaction Workflows ControlPlane Deployments DeploymentOperations.

Open Scope Z_scope.

Definition RecoveryError (code_ : string) (status : Z) : jserror := JsError "RecoveryError" code_ (Some status).

(** ** Data *)

Record RecoveryImage := mkImage {
  img_schema : string; img_image : string; img_workloadUid : string; img_workloadGeneration : Z; img_observedAt : string
}.
#[export] Instance RecoveryImage_eq_dec : EqDecision RecoveryImage.
Proof. solve_decision. Defined.

Record RecoveryProvenance := mkProvenance {
  prov_providerImageProvenance : RecoveryImage; prov_namespace : string; prov_name : string;
  prov_credentialSecretUID : string; prov_credentialSecretGeneration : string
}.
#[export] Instance RecoveryProvenance_eq_dec : EqDecision RecoveryProvenance.
Proof. solve_decision. Defined.

Record RecoveryResource := mkResource {
  rr_id : string; rr_projectId : string; rr_name : string; rr_slug : string; rr_type : string; rr_engine : string;
  rr_provider : string; rr_plan : string; rr_region : string; rr_version : option string; rr_status : string;
  rr_deletionRequestedAt : option Z; rr_desiredSpec : jsobj; rr_desiredState : jsobj; rr_connectionSecretName : option string
}.
#[export] Instance RecoveryResource_rebuild : Rebuild RecoveryResource := fun r =>
  mkResource (rr_id r) (rr_projectId r) (rr_name r) (rr_slug r) (rr_type r) (rr_engine r) (rr_provider r) (rr_plan r)
    (rr_region r) (rr_version r) (rr_status r) (rr_deletionRequestedAt r) (rr_desiredSpec r) (rr_desiredState r)
    (rr_connectionSecretName r).

(** ** Request bodies *)

Definition recoveryRecord (value : jsval) : result jsobj :=
  match value with JObj fields => Ok fields | _ => Throw (RecoveryError "RECOVERY_INPUT_INVALID" 400) end.

(** [/^f[r]{0,n}$/] *)
Definition head_pattern (first rest : ascii -> bool) (n : nat) (s : string) : bool :=
  match chars s with
  | c :: l => first c && forallb rest l && (length l <=? n)%nat
  | [] => false
  end.

(** [/^[a-z][a-z0-9-]{0,47}$/] *)
Definition target_name (s : string) : bool := head_pattern is_lower (fun c => is_lower_alnum c || is_hyphen c) 47 s.

Record RecoveryBody := mkBody { body_requestIdempotencyKey : string; body_name : option string }.

Definition recoveryBody (input : jsval) (restore : bool) : result RecoveryBody :=
  body ← recoveryRecord input;
  let allowed := ["requestIdempotencyKey"; "formatVersion"] ++ (if restore then ["name"] else []) in
  let invalid := RecoveryError "RECOVERY_INPUT_INVALID" 400 in
  match obj_get "requestIdempotencyKey" body with
  | JStr key =>
      _ ← throw_if (existsb (fun k => negb (bool_decide (k ∈ allowed))) body.*1
                    || negb (class_pattern is_key_char 1 128 key)
                    || negb (bool_decide (as_integer (obj_get "formatVersion" body) = Some 1))
                    || (restore && match obj_get "name" body with JStr name => negb (target_name name) | _ => true end)) invalid;
      Ok (mkBody key (as_string (obj_get "name" body)))
  | _ => Throw invalid
  end.

(** ** Canonical JSON *)

Definition quote_mark : ascii := chr 34.

Definition hex_lower (n : N) : ascii := if (n <? 10)%N then chr (48 + n) else chr (87 + n).

(** [JSON.stringify] of one character of a string *)
Definition json_char (c : ascii) : list ascii :=
  let n := code c in
  if (n =? 34)%N then ["\"%char; quote_mark] else if (n =? 92)%N then ["\"%char; "\"%char]
  else if (n =? 8)%N then ["\"%char; "b"%char] else if (n =? 9)%N then ["\"%char; "t"%char]
  else if (n =? 10)%N then ["\"%char; "n"%char] else if (n =? 12)%N then ["\"%char; "f"%char]
  else if (n =? 13)%N then ["\"%char; "r"%char]
  else if (n <? 32)%N then ["\"%char; "u"%char; "0"%char; "0"%char; hex_lower (n / 16); hex_lower (n mod 16)]
  else [c].

Definition json_string (s : string) : string := unchars (quote_mark :: concat (map json_char (chars s)) ++ [quote_mark]).

(** [a < b ? -1 : a > b ? 1 : 0] on the keys *)
Definition key_le {A} (a b : string * A) : bool := match String.compare a.1 b.1 with Gt => false | _ => true end.

(** The entries are rendered before they are sorted by their keys: the order
    does not depend on the values. *)
Fixpoint canonicalRecoveryJson (value : jsval) : string :=
  match value with
  | JArr l => "[" +:+ join "," (map canonicalRecoveryJson l) +:+ "]"
  | JObj fields =>
      "{" +:+ join "," (map (fun kv => json_string kv.1 +:+ ":" +:+ kv.2)
                          (js_sort key_le (map (fun kv => (kv.1, canonicalRecoveryJson kv.2)) fields))) +:+ "}"
  | JStr s => json_string s
  | JNum (NNaN | NInf _) => "null"
  | v => js_String v
  end.

(** ** Object keys *)

Definition is_id_char (c : ascii) : bool := is_alnum c || (code c =? 95)%N || is_hyphen c.

(** [/^[A-Za-z0-9][A-Za-z0-9_-]{0,127}$/] *)
Definition recoverySegment (value : string) : result string :=
  _ ← throw_if (negb (head_pattern is_alnum is_id_char 127 value)) (RecoveryError "RECOVERY_ID_INVALID" 400);
  Ok value.

Definition recoveryObjectKey (organizationId resourceId id : string) (attempt : Z) : result string :=
  _ ← throw_if ((attempt <? 1) || (3 <? attempt)) (RecoveryError "RECOVERY_ATTEMPT_INVALID" 409);
  organization ← recoverySegment organizationId;
  resource ← recoverySegment resourceId;
  backup ← recoverySegment id;
  Ok ("organizations/" +:+ organization +:+ "/resources/" +:+ resource +:+ "/backups/" +:+ backup
      +:+ "/attempts/" +:+ num_text (NInt attempt) +:+ "/artifact.v1").

(** ** Provenance *)

Section provenance.
Context (dateParse : string -> option Z) (recoveryHash : string -> string).

Definition image_unavailable : jserror := RecoveryError "SOURCE_IMAGE_PROVENANCE_UNAVAILABLE" 409.
Definition provenance_unavailable : jserror := RecoveryError "SOURCE_PROVENANCE_UNAVAILABLE" 409.

Definition is_image_char (c : ascii) : bool :=
  is_lower_alnum c || (code c =? 46)%N || (code c =? 47)%N || (code c =? 95)%N || (code c =? 58)%N || is_hyphen c.

(** [/^[a-z0-9][a-z0-9./_:-]*@sha256:[0-9a-f]{64}$/], the digest not zero *)
Definition digest_image (s : string) : bool :=
  match split_on "@" s with
  | [name; digest] =>
      match chars name with c :: l => is_lower_alnum c && forallb is_image_char l | [] => false end && validDigest digest
  | _ => false
  end.

Definition is_uid_char (c : ascii) : bool := is_alnum c || (code c =? 46)%N || (code c =? 95)%N || (code c =? 58)%N || is_hyphen c.

(** [/^[A-Za-z0-9][A-Za-z0-9._:-]{0,127}$/] *)
Definition uid_pattern (s : string) : bool := head_pattern is_alnum is_uid_char 127 s.

(** A DNS label of at most [n] characters *)
Definition label_upto (n : nat) (s : string) : bool := label_pattern s && (length (chars s) <=? n)%nat.

Definition provider_image (state : jsobj) : result RecoveryImage :=
  match obj_get "providerImageProvenance" state with
  | JObj image =>
      match obj_get "schema" image, obj_get "image" image, obj_get "workloadUid" image, obj_get "workloadGeneration" image, obj_get "observedAt" image with
      | JStr schema, JStr name, JStr uid, JNum (NInt generation), JStr observedAt =>
          _ ← throw_if (negb (bool_decide (schema = "raibitserver.provider-image/v1")) || negb (digest_image name)
                        || negb (uid_pattern uid) || negb (safe_integer generation) || (generation <? 1)
                        || bool_decide (dateParse observedAt = None)) image_unavailable;
          Ok (mkImage schema name uid generation observedAt)
      | _, _, _, _, _ => Throw image_unavailable
      end
  | _ => Throw image_unavailable
  end.

Definition DESIRED_SPEC_KEYS : list string :=
  ["storageMb"; "storageGb"; "databaseName"; "database"; "username"; "bucket"; "collection"; "topic"].

Definition source_spec (resource : RecoveryResource) : jsobj :=
  [("type", JStr (rr_type resource)); ("plan", JStr (rr_plan resource)); ("region", JStr (rr_region resource));
   ("version", json_source (rr_version resource));
   ("desiredSpec", JObj (filter (fun kv => kv.1 ∈ DESIRED_SPEC_KEYS) (rr_desiredSpec resource)))].

(** The provenance without the time it was observed at *)
Definition immutable_provenance (p : RecoveryProvenance) : jsval :=
  let image := prov_providerImageProvenance p in
  JObj [("providerImageProvenance",
           JObj [("schema", JStr (img_schema image)); ("image", JStr (img_image image)); ("workloadUid", JStr (img_workloadUid image));
                 ("workloadGeneration", JNum (NInt (img_workloadGeneration image)))]);
        ("providerIdentity", JObj [("namespace", JStr (prov_namespace p)); ("name", JStr (prov_name p))]);
        ("credentialSecretUID", JStr (prov_credentialSecretUID p));
        ("credentialSecretGeneration", JStr (prov_credentialSecretGeneration p))].

Definition incarnation (resource : RecoveryResource) (p : RecoveryProvenance) : jsval :=
  JObj [("resourceId", JStr (rr_id resource)); ("projectId", JStr (rr_projectId resource)); ("engine", JStr (rr_engine resource));
        ("provider", JStr (rr_provider resource)); ("sourceSpec", JObj (source_spec resource));
        ("sourceProvenance", immutable_provenance p)].

Record Captured := mkCaptured { cap_sourceSpec : jsobj; cap_sourceProvenance : RecoveryProvenance; cap_sourceGeneration : string }.

Definition captureRecoveryProvenance (resource : RecoveryResource) : result Captured :=
  let state := rr_desiredState resource in
  _ ← throw_if (match obj_get "providerImageProvenance" state, obj_get "providerIdentity" state with
                | JObj _, JObj _ => false | _, _ => true end) image_unavailable;
  image ← provider_image state;
  let identity := entries (obj_get "providerIdentity" state) in
  match obj_get "namespace" identity, obj_get "name" identity, obj_get "credentialSecretUID" state, obj_get "credentialSecretGeneration" state with
  | JStr namespace, JStr name, JStr uid, JStr generation =>
      _ ← throw_if (negb (label_upto 63 namespace) || negb (label_upto 52 name) || negb (uid_pattern uid)
                    || negb (class_pattern is_id_char 43 43 generation)
                    || negb (bool_decide (rr_connectionSecretName resource = Some (name +:+ "-connection")))) provenance_unavailable;
      let p := mkProvenance image namespace name uid generation in
      Ok (mkCaptured (source_spec resource) p
            ("resource-incarnation/v1:sha256:" +:+ recoveryHash (canonicalRecoveryJson (incarnation resource p))))
  | _, _, _, _ => Throw provenance_unavailable
  end.

End provenance.

Close Scope Z_scope.
