(* ===== verification/Recovery.v ===== *)
(** * Backups and restores of resources ([packages/core/src/resource-recovery-state.ts],
    [resource-recovery-worker.ts], [resource-recovery-cleanup.ts], types of
    [resource-recovery-types.ts])

    A backup or restore is an operation with a status, a job that workers
    claim under a lease, attempts that name what was uploaded, and pins that
    keep resources and artifacts from being deleted.  The clock, random values,
    [Date.parse] and SHA-256 are parameters. *)

From S2P Require Import Prelude JsString JsMap JsVal Ids Rbac Lifecycle Secrets Accounts Redaction Workflows ControlPlane Deployments DeploymentOperations RecoveryProvenance.

Open Scope Z_scope.

(** ** Data *)

Inductive RecoveryKind : Type := kind_backup | kind_restore.
#[export] Instance RecoveryKind_eq_dec : EqDecision RecoveryKind.
Proof. solve_decision. Defined.

Definition kind_text (k : RecoveryKind) : string := match k with kind_backup => "backup" | kind_restore => "restore" end.

Record RecoveryBase := mkBase {
  rc_id : string; rc_formatVersion : Z; rc_organizationId : string; rc_projectId : string; rc_engine : string; rc_provider : string;
  rc_sourceGeneration : string; rc_requestedByUserId : string; rc_requestIdempotencyKey : string; rc_requestFingerprint : string;
  rc_createdAt : Z; rc_updatedAt : Z; rc_startedAt : option Z; rc_deadlineAt : option Z; rc_readyAt : option Z;
  rc_errorCode : option string; rc_cleanupToken : option string; rc_cleanupWorker : option string; rc_cleanupLeaseUntil : option Z
}.
#[export] Instance RecoveryBase_rebuild : Rebuild RecoveryBase := fun b =>
  mkBase (rc_id b) (rc_formatVersion b) (rc_organizationId b) (rc_projectId b) (rc_engine b) (rc_provider b) (rc_sourceGeneration b)
    (rc_requestedByUserId b) (rc_requestIdempotencyKey b) (rc_requestFingerprint b) (rc_createdAt b) (rc_updatedAt b) (rc_startedAt b)
    (rc_deadlineAt b) (rc_readyAt b) (rc_errorCode b) (rc_cleanupToken b) (rc_cleanupWorker b) (rc_cleanupLeaseUntil b).

Record RecoveryBackup := mkBackup {
  bk_base : RecoveryBase; bk_resourceId : string; bk_status : string; bk_sourceProvenance : option RecoveryProvenance;
  bk_sourceSpec : jsobj; bk_artifactKey : option string; bk_artifactChecksum : option string; bk_artifactSize : option string;
  bk_encryptionKeyVersion : option string; bk_winningAttempt : option Z; bk_expiresAt : option Z
}.
#[export] Instance RecoveryBackup_rebuild : Rebuild RecoveryBackup := fun b =>
  mkBackup (bk_base b) (bk_resourceId b) (bk_status b) (bk_sourceProvenance b) (bk_sourceSpec b) (bk_artifactKey b)
    (bk_artifactChecksum b) (bk_artifactSize b) (bk_encryptionKeyVersion b) (bk_winningAttempt b) (bk_expiresAt b).

Record RecoveryRestore := mkRestore {
  rs_base : RecoveryBase; rs_backupId : string; rs_sourceResourceId : string; rs_targetResourceId : string; rs_status : string;
  rs_targetCleanedAt : option Z
}.
#[export] Instance RecoveryRestore_rebuild : Rebuild RecoveryRestore := fun r =>
  mkRestore (rs_base r) (rs_backupId r) (rs_sourceResourceId r) (rs_targetResourceId r) (rs_status r) (rs_targetCleanedAt r).

(** [RecoveryBackup | RecoveryRestore] *)
Inductive RecoveryOperation : Type := OfBackup (b : RecoveryBackup) | OfRestore (r : RecoveryRestore).

Inductive PinKind : Type := ARTIFACT_SOURCE | RESTORE_TARGET.
#[export] Instance PinKind_eq_dec : EqDecision PinKind.
Proof. solve_decision. Defined.

Record RecoveryPin := mkPin {
  pin_id : string; pin_kind : PinKind; pin_resourceId : string; pin_backupId : string; pin_restoreId : option string; pin_createdAt : Z
}.

Inductive AttemptState : Type := INTENT | UPLOADING | PREPARED | COMPLETE | VERIFIED | CLEANED.
#[export] Instance AttemptState_eq_dec : EqDecision AttemptState.
Proof. solve_decision. Defined.

Record RecoveryAttempt := mkAttempt {
  at_backupId : string; at_attempt : Z; at_objectKey : string; at_uploadId : option string; at_keyVersion : string; at_firstClaimAt : Z;
  at_candidateStoredBytes : option string; at_candidatePlaintextBytes : option string; at_candidateChecksum : option string;
  at_state : AttemptState; at_cleanupPending : bool; at_createdAt : Z; at_updatedAt : Z
}.
#[export] Instance RecoveryAttempt_rebuild : Rebuild RecoveryAttempt := fun a =>
  mkAttempt (at_backupId a) (at_attempt a) (at_objectKey a) (at_uploadId a) (at_keyVersion a) (at_firstClaimAt a)
    (at_candidateStoredBytes a) (at_candidatePlaintextBytes a) (at_candidateChecksum a) (at_state a) (at_cleanupPending a)
    (at_createdAt a) (at_updatedAt a).

Record RecoveryJob := mkJob {
  rj_id : string; rj_type : string; rj_targetType : string; rj_targetId : string; rj_operationId : string; rj_status : string;
  rj_attempts : Z; rj_maxAttempts : Z; rj_lockedBy : option string; rj_lockedAt : option Z; rj_createdAt : Z; rj_updatedAt : Z; rj_runAfter : Z
}.
#[export] Instance RecoveryJob_rebuild : Rebuild RecoveryJob := fun j =>
  mkJob (rj_id j) (rj_type j) (rj_targetType j) (rj_targetId j) (rj_operationId j) (rj_status j) (rj_attempts j) (rj_maxAttempts j)
    (rj_lockedBy j) (rj_lockedAt j) (rj_createdAt j) (rj_updatedAt j) (rj_runAfter j).

Record RecoveryProject := mkRecoveryProject { rp_id : string; rp_organizationId : string; rp_status : string; rp_deletionRequestedAt : option Z }.
Record RecoveryMember := mkRecoveryMember { rm_organizationId : string; rm_userId : string; rm_role : string }.
Record RecoveryAuditEvent := mkAuditEvent {
  ae_actorUserId : string; ae_action : string; ae_targetType : string; ae_targetId : string; ae_engine : string; ae_status : string; ae_createdAt : Z
}.
Record LegacyBackup := mkLegacy { lb_id : string; lb_resourceId : string }.

Record RecoveryState := mkRecoveryState {
  organizations : list string; projects : list RecoveryProject; resources : list RecoveryResource; members : list RecoveryMember;
  backups : list RecoveryBackup; restores : list RecoveryRestore; pins : list RecoveryPin; attempts : list RecoveryAttempt;
  jobs : list RecoveryJob; auditEvents : list RecoveryAuditEvent; legacyBackups : list LegacyBackup
}.
#[export] Instance RecoveryState_rebuild : Rebuild RecoveryState := fun s =>
  mkRecoveryState (organizations s) (projects s) (resources s) (members s) (backups s) (restores s) (pins s) (attempts s) (jobs s)
    (auditEvents s) (legacyBackups s).

Record RecoveryScope := mkRecoveryScope { scope_organizationId : string; scope_actorUserId : string }.
Record RecoveryRequest := mkRequest { req_scope : RecoveryScope; req_sourceId : string; req_body : jsval; req_now : option string }.
Record RecoveryClaim := mkClaim { cl_organizationId : string; cl_kind : RecoveryKind; cl_operationId : string; cl_workerId : string; cl_now : option string }.
Record RecoveryFence := mkFence { fence_claim : RecoveryClaim; fence_attempt : Z }.
Record RecoveryArtifact := mkArtifact { art_checksum : string; art_size : string; art_keyVersion : string }.

Inductive RecoveryMutation : Type :=
| heartbeat
| verify
| ready (artifact : option RecoveryArtifact)
| fail_ (code_ : string)
| retry_
| intent (keyVersion : string)
| candidate (storedBytes plaintextBytes checksum : string)
| upload (uploadId : string)
| complete.

(** ** Fields common to both kinds of operation *)

Definition base_of (o : RecoveryOperation) : RecoveryBase := match o with OfBackup b => bk_base b | OfRestore r => rs_base r end.
Definition status_of (o : RecoveryOperation) : string := match o with OfBackup b => bk_status b | OfRestore r => rs_status r end.

(** [{ ...operation, ...changes, status }] *)
Definition with_base (f : RecoveryBase -> RecoveryBase) (status : string) (o : RecoveryOperation) : RecoveryOperation :=
  match o with
  | OfBackup b => OfBackup (b <| bk_base := f (bk_base b) |> <| bk_status := status |>)
  | OfRestore r => OfRestore (r <| rs_base := f (rs_base r) |> <| rs_status := status |>)
  end.

(** [!s] for a nullable string *)
Definition no_text (s : option string) : bool := match s with Some t => str_empty t | None => true end.

Section recovery.
Context (dateParse : string -> option Z) (recoveryHash : string -> string).

Definition recoveryNow (clock : Z) (value : option string) : result Z :=
  match value with
  | None => Ok clock
  | Some s => match dateParse s with Some t => Ok t | None => Throw (RecoveryError "RECOVERY_TIME_INVALID" 400) end
  end.

Definition recovery_not_found : jserror := RecoveryError "RECOVERY_NOT_FOUND" 404.
Definition recovery_conflict (code_ : string) : jserror := RecoveryError code_ 409.

Definition found {A} (o : option A) (e : jserror) : result A := match o with Some a => Ok a | None => Throw e end.

Definition recoveryAuthorized (state : RecoveryState) (scope : RecoveryScope) (permission : string) : result unit :=
  member ← found (js_find (fun row => rm_organizationId row = scope_organizationId scope /\ rm_userId row = scope_actorUserId scope)
                    (members state)) recovery_not_found;
  _ ← throw_if (negb (bool_decide (scope_organizationId scope ∈ organizations state))) recovery_not_found;
  throw_if (negb (can (JStr (rm_role member)) permission)) (RecoveryError "RECOVERY_FORBIDDEN" 403).

Definition activeRecoveryResource (state : RecoveryState) (id organizationId : string) : result RecoveryResource :=
  resource ← found (js_find (fun row => rr_id row = id) (resources state)) recovery_not_found;
  project ← found (js_find (fun row => rp_id row = rr_projectId resource /\ rp_organizationId row = organizationId) (projects state))
              recovery_not_found;
  _ ← throw_if (negb (bool_decide (rp_status project = "ACTIVE")) || bool_decide (rp_deletionRequestedAt project <> None)
                || bool_decide (rr_deletionRequestedAt resource <> None)
                || bool_decide (rr_status resource ∈ ["DELETE_REQUESTED"; "DELETING"; "DELETED"])) (recovery_conflict "RECOVERY_PARENT_DELETING");
  Ok resource.

Definition backup_in (state : RecoveryState) (id organizationId : string) : option RecoveryBackup :=
  js_find (fun row => rc_id (bk_base row) = id /\ rc_organizationId (bk_base row) = organizationId) (backups state).
Definition restore_in (state : RecoveryState) (id organizationId : string) : option RecoveryRestore :=
  js_find (fun row => rc_id (rs_base row) = id /\ rc_organizationId (rs_base row) = organizationId) (restores state).

Definition recoveryBackup (state : RecoveryState) (id organizationId : string) : result RecoveryBackup :=
  backup ← found (backup_in state id organizationId) recovery_not_found;
  _ ← throw_if (negb (rc_formatVersion (bk_base backup) =? 1) || bool_decide (bk_sourceProvenance backup = None))
        (recovery_conflict "LEGACY_BACKUP_UNVERIFIED");
  Ok backup.

Definition recoveryJob (state : RecoveryState) (operationId : string) : result RecoveryJob :=
  found (js_find (fun row => rj_targetId row = operationId) (jobs state)) (recovery_conflict "RECOVERY_JOB_MISSING").

Definition machine_of (kind : RecoveryKind) : lifecycle_machine :=
  match kind with kind_backup => machine_backup | kind_restore => machine_restore end.

Definition recoveryTransition (kind : RecoveryKind) (from to : string) : result unit :=
  throw_if (bool_decide (from = to) || negb (bool_decide (to ∈ status_next (machine_of kind) from))) (recovery_conflict "RECOVERY_TRANSITION_INVALID").

Definition set_backup (next : RecoveryBackup) (row : RecoveryBackup) : RecoveryBackup :=
  if decide (rc_id (bk_base row) = rc_id (bk_base next)) then next else row.
Definition set_restore (next : RecoveryRestore) (row : RecoveryRestore) : RecoveryRestore :=
  if decide (rc_id (rs_base row) = rc_id (rs_base next)) then next else row.
Definition set_job (next : RecoveryJob) (row : RecoveryJob) : RecoveryJob := if decide (rj_id row = rj_id next) then next else row.

Definition recoverySet (operation : RecoveryOperation) (job : option RecoveryJob) (state : RecoveryState) : RecoveryState :=
  let state := match operation with
               | OfBackup b => state <| backups := map (set_backup b) (backups state) |>
               | OfRestore r => state <| restores := map (set_restore r) (restores state) |>
               end in
  match job with Some j => state <| jobs := map (set_job j) (jobs state) |> | None => state end.

(** ** Creation *)

Record RecoveryResult := mkResult { res_operation : RecoveryOperation; res_job : RecoveryJob; res_replay : bool }.

Record Uuids := mkUuids { uuid_operation : string; uuid_target : string; uuid_pin : string }.

Definition requestFingerprint (request : RecoveryRequest) (body : RecoveryBody) (kind : RecoveryKind) : string :=
  recoveryHash (canonicalRecoveryJson
    (JObj [("formatVersion", JNum (NInt 1)); ("sourceId", JStr (req_sourceId request)); ("name", json_source (body_name body));
           ("kind", JStr (kind_text kind))])).

Definition permission_of (kind : RecoveryKind) : string := match kind with kind_restore => "backup:restore" | kind_backup => "backup:manage" end.

Definition existing_operation (state : RecoveryState) (request : RecoveryRequest) (key : string) (kind : RecoveryKind) : option RecoveryOperation :=
  let organizationId := scope_organizationId (req_scope request) in
  match kind with
  | kind_backup => OfBackup <$> js_find (fun row => bk_resourceId row = req_sourceId request
                     /\ (rc_organizationId (bk_base row) = organizationId /\ rc_requestIdempotencyKey (bk_base row) = key)) (backups state)
  | kind_restore => OfRestore <$> js_find (fun row => rs_backupId row = req_sourceId request
                     /\ (rc_organizationId (rs_base row) = organizationId /\ rc_requestIdempotencyKey (rs_base row) = key)) (restores state)
  end.

Definition owns_resource (state : RecoveryState) (resourceId organizationId : string) : bool :=
  match js_find (fun row => rr_id row = resourceId) (resources state) with
  | Some resource => existsb (fun p => bool_decide (rp_id p = rr_projectId resource) && bool_decide (rp_organizationId p = organizationId)) (projects state)
  | None => false
  end.

Definition RECOVERY_ENGINES : list string := ["postgresql"; "mysql"; "mariadb"; "mongodb"; "redis"; "valkey"].

Definition not_recoverable (backup : RecoveryBackup) (now : Z) : bool :=
  negb (bool_decide (bk_status backup = "READY"))
  || match bk_expiresAt backup with Some t => t <=? now | None => true end
  || no_text (bk_artifactKey backup) || no_text (bk_artifactChecksum backup) || no_text (bk_artifactSize backup)
  || no_text (bk_encryptionKeyVersion backup).

Definition recovery_base (kind : RecoveryKind) (request : RecoveryRequest) (body : RecoveryBody) (source : RecoveryResource)
    (generation uuid : string) (now : Z) : RecoveryBase :=
  mkBase (kind_text kind +:+ "_" +:+ uuid) 1 (scope_organizationId (req_scope request)) (rr_projectId source) (rr_engine source)
    (rr_provider source) generation (scope_actorUserId (req_scope request)) (body_requestIdempotencyKey body)
    (requestFingerprint request body kind) now now None None None None None None None.

Definition operation_type (kind : RecoveryKind) : string := match kind with kind_backup => "resource.backup" | kind_restore => "resource.restore" end.
Definition operation_target (kind : RecoveryKind) : string := match kind with kind_backup => "resource-backup" | kind_restore => "resource-restore" end.

Definition recovery_job (kind : RecoveryKind) (id : string) (now : Z) : RecoveryJob :=
  mkJob ("job_" +:+ recoveryHash (operation_type kind +:+ unchars [chr 0] +:+ id)) (operation_type kind) (operation_target kind) id id
    "queued" 0 3 None None now now now.

Definition restore_target (source : RecoveryResource) (name targetId restoreId : string) (desiredSpec : jsobj) : RecoveryResource :=
  mkResource targetId (rr_projectId source) name name (rr_type source) (rr_engine source) (rr_provider source) (rr_plan source)
    (rr_region source) (rr_version source) "PROVISIONING" None desiredSpec
    [("recoveryRestoreId", JStr restoreId); ("recoveryPublicationBlocked", JBool true)] None.

(** The new operation, with what it adds to the tables besides its job. *)
Definition add_restore (source : RecoveryResource) (backup : RecoveryBackup) (base : RecoveryBase) (name : string) (uuids : Uuids) (now : Z)
    : M RecoveryState RecoveryOperation :=
  state ← get;
  _ ← lift (throw_if (existsb (fun row => bool_decide (rr_projectId row = rr_projectId source)
                                 && (bool_decide (rr_name row = name) || bool_decide (rr_slug row = name))) (resources state))
              (recovery_conflict "RESTORE_TARGET_EXISTS"));
  match obj_get "desiredSpec" (bk_sourceSpec backup) with
  | JObj desiredSpec =>
      let targetId := "res_" +:+ uuid_target uuids in
      let operation := mkRestore base (rc_id (bk_base backup)) (rr_id source) targetId "QUEUED" None in
      let pin := mkPin ("pin_" +:+ uuid_pin uuids) RESTORE_TARGET targetId (rc_id (bk_base backup)) (Some (rc_id base)) now in
      _ ← modify (fun s => s <| resources := resources s ++ [restore_target source name targetId (rc_id base) desiredSpec] |>
                             <| restores := restores s ++ [operation] |> <| pins := pins s ++ [pin] |>);
      mret (OfRestore operation)
  | _ => raise (recovery_conflict "SOURCE_PROVENANCE_UNAVAILABLE")
  end.

Definition add_backup (source : RecoveryResource) (captured : Captured) (base : RecoveryBase) (uuids : Uuids) (now : Z)
    : M RecoveryState RecoveryOperation :=
  let operation := mkBackup base (rr_id source) "QUEUED" (Some (cap_sourceProvenance captured)) (cap_sourceSpec captured)
                     None None None None None None in
  let pin := mkPin ("pin_" +:+ uuid_pin uuids) ARTIFACT_SOURCE (rr_id source) (rc_id base) None now in
  _ ← modify (fun s => s <| backups := backups s ++ [operation] |> <| pins := pins s ++ [pin] |>);
  mret (OfBackup operation).

Definition createRecovery (request : RecoveryRequest) (kind : RecoveryKind) (uuids : Uuids) (clock : Z) : M RecoveryState RecoveryResult :=
  let scope := req_scope request in
  body ← lift (recoveryBody (req_body request) (bool_decide (kind = kind_restore)));
  now ← lift (recoveryNow clock (req_now request));
  let fingerprint := requestFingerprint request body kind in
  state ← get;
  match existing_operation state request (body_requestIdempotencyKey body) kind with
  | Some existing =>
      _ ← lift (recoveryAuthorized state scope (permission_of kind));
      _ ← lift (throw_if (negb (bool_decide (rc_requestFingerprint (base_of existing) = fingerprint))) (recovery_conflict "IDEMPOTENCY_CONFLICT"));
      job ← lift (recoveryJob state (rc_id (base_of existing)));
      mret (mkResult existing job true)
  | None =>
      _ ← lift (throw_if (negb (match kind with
                                | kind_backup => owns_resource state (req_sourceId request) (scope_organizationId scope)
                                | kind_restore => bool_decide (backup_in state (req_sourceId request) (scope_organizationId scope) <> None)
                                end)) recovery_not_found);
      _ ← lift (recoveryAuthorized state scope (permission_of kind));
      sourceBackup ← lift (match kind with
                           | kind_restore => backup ← recoveryBackup state (req_sourceId request) (scope_organizationId scope); mret (Some backup)
                           | kind_backup => Ok None
                           end);
      source ← lift (activeRecoveryResource state (match sourceBackup with Some b => bk_resourceId b | None => req_sourceId request end)
                       (scope_organizationId scope));
      _ ← lift (throw_if (negb (bool_decide (rr_status source = "READY"))) (recovery_conflict "SOURCE_NOT_READY"));
      _ ← lift (throw_if (negb (bool_decide (rr_engine source ∈ RECOVERY_ENGINES))) (recovery_conflict "RECOVERY_ENGINE_UNSUPPORTED"));
      captured ← lift (captureRecoveryProvenance dateParse recoveryHash source);
      _ ← lift (throw_if (match sourceBackup with Some b => not_recoverable b now | None => false end) (recovery_conflict "BACKUP_NOT_RECOVERABLE"));
      _ ← lift (throw_if (match sourceBackup with
                          | Some b => negb (bool_decide (rc_sourceGeneration (bk_base b) = cap_sourceGeneration captured))
                          | None => false
                          end) (recovery_conflict "SOURCE_CHANGED"));
      let base := recovery_base kind request body source (cap_sourceGeneration captured) (uuid_operation uuids) now in
      operation ← (match sourceBackup with
                   | Some backup => add_restore source backup base (default "" (body_name body)) uuids now
                   | None => add_backup source captured base uuids now
                   end);
      let job := recovery_job kind (rc_id base) now in
      let audit := mkAuditEvent (scope_actorUserId scope) (operation_type kind +:+ ":requested") (operation_target kind) (rc_id base)
                     (rc_engine base) (status_of operation) now in
      _ ← modify (fun s => s <| jobs := jobs s ++ [job] |> <| auditEvents := auditEvents s ++ [audit] |>);
      mret (mkResult operation job false)
  end.

(** ** Workers *)

Definition recoveryOperation (state : RecoveryState) (input : RecoveryClaim) : result RecoveryOperation :=
  match cl_kind input with
  | kind_backup => backup ← recoveryBackup state (cl_operationId input) (cl_organizationId input); mret (OfBackup backup)
  | kind_restore => restore ← found (restore_in state (cl_operationId input) (cl_organizationId input)) recovery_not_found; mret (OfRestore restore)
  end.

Definition currentRecoverySource (state : RecoveryState) (operation : RecoveryOperation) : result unit :=
  let base := base_of operation in
  let sourceId := match operation with OfBackup b => bk_resourceId b | OfRestore r => rs_sourceResourceId r end in
  resource ← activeRecoveryResource state sourceId (rc_organizationId base);
  _ ← throw_if (negb (bool_decide (rr_status resource = "READY"))) (recovery_conflict "SOURCE_CHANGED");
  captured ← captureRecoveryProvenance dateParse recoveryHash resource;
  _ ← throw_if (negb (bool_decide (cap_sourceGeneration captured = rc_sourceGeneration base))) (recovery_conflict "SOURCE_CHANGED");
  match operation with
  | OfBackup _ => Ok tt
  | OfRestore r =>
      backup ← recoveryBackup state (rs_backupId r) (rc_organizationId base);
      _ ← throw_if (negb (bool_decide (bk_status backup ∈ ["READY"; "EXPIRED"]))) (recovery_conflict "BACKUP_NOT_RECOVERABLE");
      target ← activeRecoveryResource state (rs_targetResourceId r) (rc_organizationId base);
      throw_if (negb (bool_decide (rr_projectId target = rc_projectId base)) || negb (bool_decide (rr_engine target = rc_engine base))
                || negb (bool_decide (as_string (obj_get "recoveryRestoreId" (rr_desiredState target)) = Some (rc_id base)))
                || match obj_get "recoveryPublicationBlocked" (rr_desiredState target) with JBool true => false | _ => true end)
        (recovery_conflict "RESTORE_TARGET_INVALID")
  end.

Definition lease_ms : Z := 60000.
Definition operation_ms : Z := 1800000.
Definition retention_ms : Z := 30 * 86400000.

Definition fenceRecovery (state : RecoveryState) (input : RecoveryFence) (clock : Z) : result (RecoveryOperation * RecoveryJob * Z) :=
  let claim := fence_claim input in
  operation ← recoveryOperation state claim;
  job ← recoveryJob state (rc_id (base_of operation));
  now ← recoveryNow clock (cl_now claim);
  _ ← throw_if (negb (bool_decide (rj_status job = "running")) || negb (bool_decide (rj_lockedBy job = Some (cl_workerId claim)))
                || negb (rj_attempts job =? fence_attempt input)
                || match rj_lockedAt job with Some t => t + lease_ms <=? now | None => true end
                || match rc_deadlineAt (base_of operation) with Some t => t <=? now | None => true end
                || negb (bool_decide (status_of operation ∈ ["RUNNING"; "VERIFYING"]))) (recovery_conflict "RECOVERY_LEASE_LOST");
  _ ← currentRecoverySource state operation;
  Ok (operation, job, now).

Definition bad_worker (workerId : string) : bool := str_empty workerId || (128 <? length (chars workerId))%nat.

Definition claimRecovery (input : RecoveryClaim) (clock : Z) : M RecoveryState (RecoveryOperation * RecoveryJob) :=
  state ← get;
  operation ← lift (recoveryOperation state input);
  job ← lift (recoveryJob state (rc_id (base_of operation)));
  now ← lift (recoveryNow clock (cl_now input));
  _ ← lift (throw_if (bad_worker (cl_workerId input)) (RecoveryError "RECOVERY_WORKER_INVALID" 400));
  _ ← lift (throw_if (negb (bool_decide (status_of operation ∈ ["QUEUED"; "RUNNING"; "VERIFYING"]))
                      || negb (bool_decide (rj_status job ∈ ["queued"; "running"]))) (recovery_conflict "RECOVERY_TERMINAL"));
  _ ← lift (throw_if ((now <? rj_runAfter job) || match rj_lockedAt job with Some t => now <? t + lease_ms | None => false end)
              (recovery_conflict "RECOVERY_LEASE_BUSY"));
  let sourceFailure := match currentRecoverySource state operation with Ok _ => false | Throw _ => true end in
  if sourceFailure || (3 <=? rj_attempts job) || match rc_deadlineAt (base_of operation) with Some t => t <=? now | None => false end
  then
    let failed := with_base (fun b => b <| rc_errorCode := Some (if sourceFailure then "SOURCE_CHANGED" else "DEADLINE_EXCEEDED") |>
                                        <| rc_updatedAt := now |>) "FAILED" operation in
    let failedJob := job <| rj_status := "failed" |> <| rj_lockedBy := None |> <| rj_lockedAt := None |> <| rj_updatedAt := now |> in
    _ ← modify (recoverySet failed (Some failedJob));
    mret (failed, failedJob)
  else
    let next := with_base (fun b => b <| rc_startedAt := Some (default now (rc_startedAt b)) |>
                                      <| rc_deadlineAt := Some (default (now + operation_ms) (rc_deadlineAt b)) |> <| rc_updatedAt := now |>)
                  (if decide (status_of operation = "QUEUED") then "RUNNING" else status_of operation) operation in
    let nextJob := job <| rj_status := "running" |> <| rj_attempts := rj_attempts job + 1 |> <| rj_lockedBy := Some (cl_workerId input) |>
                       <| rj_lockedAt := Some now |> <| rj_updatedAt := now |> in
    _ ← modify (recoverySet next (Some nextJob));
    mret (next, nextJob).

(** [/^[A-Za-z0-9][A-Za-z0-9_-]{0,63}$/], [/^[1-9][0-9]{0,10}$/], [/^(0|[1-9][0-9]{0,10})$/] *)
Definition key_version_pattern (s : string) : bool := head_pattern is_alnum is_id_char 63 s.
Definition positive_bytes (s : string) : bool := head_pattern (fun c => is_digit c && negb (is_zero c)) is_digit 10 s.
Definition natural_bytes (s : string) : bool := bool_decide (s = "0") || positive_bytes s.

(** [BigInt(s)] of a string of digits *)
Definition BigInt (s : string) : Z := default 0 (digits_value 10 dec_digit 0 (chars s)).
Definition max_artifact_bytes : Z := 10737418240.

Definition attempt_at (state : RecoveryState) (backupId : string) (attempt : Z) : option (nat * RecoveryAttempt) :=
  list_find (fun row => at_backupId row = backupId /\ at_attempt row = attempt) (attempts state).

Definition set_attempt (i : nat) (row : RecoveryAttempt) (state : RecoveryState) : RecoveryState :=
  state <| attempts := <[i := row]> (attempts state) |>.

Definition candidate_conflict (row : RecoveryAttempt) (storedBytes plaintextBytes checksum : string) : bool :=
  match at_candidateStoredBytes row with
  | None => false
  | Some stored => negb (bool_decide (stored = storedBytes)) || negb (bool_decide (at_candidatePlaintextBytes row = Some plaintextBytes))
                   || negb (bool_decide (at_candidateChecksum row = Some checksum))
  end.

(** The publication of a restored resource *)
Definition publish_target (targetResourceId : string) (row : RecoveryResource) : RecoveryResource :=
  if decide (rr_id row = targetResourceId)
  then row <| rr_status := "READY" |> <| rr_desiredState := map_set "recoveryPublicationBlocked" (JBool false) (rr_desiredState row) |>
  else row.

Definition set_status (status : string) (now : Z) (operation : RecoveryOperation) : RecoveryOperation :=
  with_base (fun b => b <| rc_updatedAt := now |>) status operation.

Definition mutateRecovery (input : RecoveryFence) (mutation : RecoveryMutation) (clock : Z) : M RecoveryState (RecoveryOperation * RecoveryJob) :=
  state ← get;
  fenced ← lift (fenceRecovery state input clock);
  let '(operation, job, now) := fenced in
  let kind := cl_kind (fence_claim input) in
  let released := job <| rj_lockedBy := None |> <| rj_lockedAt := None |> <| rj_updatedAt := now |> in
  let attempt := attempt_at state (rc_id (base_of operation)) (fence_attempt input) in
  let finish := fun next nextJob => _ ← modify (recoverySet next (Some nextJob)); mret (next, nextJob) in
  match mutation with
  | heartbeat => finish operation (job <| rj_lockedAt := Some now |> <| rj_updatedAt := now |>)
  | retry_ =>
      _ ← lift (throw_if (3 <=? rj_attempts job) (recovery_conflict "RECOVERY_ATTEMPTS_EXHAUSTED"));
      finish operation (released <| rj_status := "queued" |>)
  | fail_ code_ =>
      _ ← lift (recoveryTransition kind (status_of operation) "FAILED");
      finish (with_base (fun b => b <| rc_errorCode := Some code_ |> <| rc_updatedAt := now |>) "FAILED" operation)
        (released <| rj_status := "failed" |>)
  | intent keyVersion =>
      match operation with
      | OfRestore _ => raise (recovery_conflict "RECOVERY_KIND_INVALID")
      | OfBackup b =>
          match rc_startedAt (bk_base b) with
          | None => raise (recovery_conflict "RECOVERY_ATTEMPT_INVALID")
          | Some startedAt =>
              _ ← lift (throw_if (negb (key_version_pattern keyVersion)
                                  || match attempt with Some (_, row) => negb (bool_decide (at_keyVersion row = keyVersion)) | None => false end)
                          (recovery_conflict "RECOVERY_ATTEMPT_INVALID"));
              _ ← (match attempt with
                   | Some _ => mret tt
                   | None =>
                       key ← lift (recoveryObjectKey (rc_organizationId (bk_base b)) (bk_resourceId b) (rc_id (bk_base b)) (fence_attempt input));
                       modify (fun s => s <| attempts := attempts s ++
                         [mkAttempt (rc_id (bk_base b)) (fence_attempt input) key None keyVersion startedAt None None None INTENT true now now] |>)
                   end);
              finish operation job
          end
      end
  | upload uploadId =>
      match attempt with
      | None => raise (recovery_conflict "RECOVERY_UPLOAD_INVALID")
      | Some (i, row) =>
          _ ← lift (throw_if (match at_uploadId row with Some u => negb (bool_decide (u = uploadId)) | None => false end
                              || negb (bool_decide (at_state row ∈ [INTENT; UPLOADING])) || str_empty uploadId
                              || (2048 <? length (chars uploadId))%nat) (recovery_conflict "RECOVERY_UPLOAD_INVALID"));
          _ ← modify (set_attempt i (row <| at_uploadId := Some uploadId |> <| at_state := UPLOADING |> <| at_updatedAt := now |>));
          finish operation job
      end
  | candidate storedBytes plaintextBytes checksum =>
      match attempt with
      | None => raise (recovery_conflict "RECOVERY_CANDIDATE_INVALID")
      | Some (i, row) =>
          _ ← lift (throw_if (negb (bool_decide (at_state row ∈ [UPLOADING; PREPARED])) || negb (positive_bytes storedBytes)
                              || negb (natural_bytes plaintextBytes) || (max_artifact_bytes <? BigInt storedBytes)
                              || (max_artifact_bytes <? BigInt plaintextBytes) || negb (class_pattern is_hex 64 64 checksum)
                              || candidate_conflict row storedBytes plaintextBytes checksum) (recovery_conflict "RECOVERY_CANDIDATE_INVALID"));
          _ ← modify (set_attempt i (row <| at_state := PREPARED |> <| at_candidateStoredBytes := Some storedBytes |>
                                         <| at_candidatePlaintextBytes := Some plaintextBytes |> <| at_candidateChecksum := Some checksum |>
                                         <| at_updatedAt := now |>));
          finish operation job
      end
  | complete =>
      match attempt with
      | None => raise (recovery_conflict "RECOVERY_UPLOAD_INVALID")
      | Some (i, row) =>
          _ ← lift (throw_if (no_text (at_uploadId row) || negb (bool_decide (at_state row = PREPARED))) (recovery_conflict "RECOVERY_UPLOAD_INVALID"));
          _ ← modify (set_attempt i (row <| at_state := COMPLETE |> <| at_updatedAt := now |>));
          finish operation job
      end
  | verify =>
      _ ← lift (recoveryTransition kind (status_of operation) "VERIFYING");
      _ ← lift (throw_if (match operation, attempt with
                          | OfBackup _, Some (_, row) => negb (bool_decide (at_state row = COMPLETE))
                          | OfBackup _, None => true
                          | OfRestore _, _ => false
                          end) (recovery_conflict "RECOVERY_ARTIFACT_UNVERIFIED"));
      finish (set_status "VERIFYING" now operation) job
  | ready artifact =>
      _ ← lift (recoveryTransition kind (status_of operation) "READY");
      match operation with
      | OfBackup b =>
          match attempt, artifact with
          | Some (i, row), Some a =>
              _ ← lift (throw_if (negb (bool_decide (at_state row = COMPLETE)) || negb (bool_decide (at_candidateChecksum row = Some (art_checksum a)))
                                  || negb (bool_decide (at_candidateStoredBytes row = Some (art_size a)))
                                  || negb (bool_decide (at_keyVersion row = art_keyVersion a))) (recovery_conflict "RECOVERY_ARTIFACT_UNVERIFIED"));
              let next := b <| bk_base := bk_base b <| rc_readyAt := Some now |> <| rc_updatedAt := now |> |> <| bk_status := "READY" |>
                            <| bk_artifactKey := Some (at_objectKey row) |> <| bk_artifactChecksum := Some (art_checksum a) |>
                            <| bk_artifactSize := Some (art_size a) |> <| bk_encryptionKeyVersion := Some (art_keyVersion a) |>
                            <| bk_winningAttempt := Some (fence_attempt input) |> <| bk_expiresAt := Some (now + retention_ms) |> in
              _ ← modify (set_attempt i (row <| at_state := VERIFIED |> <| at_updatedAt := now |>));
              finish (OfBackup next) (released <| rj_status := "succeeded" |>)
          | _, _ => raise (recovery_conflict "RECOVERY_ARTIFACT_UNVERIFIED")
          end
      | OfRestore r =>
          let next := r <| rs_base := rs_base r <| rc_readyAt := Some now |> <| rc_updatedAt := now |> |> <| rs_status := "READY" |> in
          _ ← modify (fun s => s <| resources := map (publish_target (rs_targetResourceId r)) (resources s) |>
                                 <| pins := filter (fun row => pin_restoreId row <> Some (rc_id (rs_base r))) (pins s) |>);
          finish (OfRestore next) (released <| rj_status := "succeeded" |>)
      end
  end.

(** ** Cleanup *)

Definition cancelRecoveryRestore (scope : RecoveryScope) (operationId : string) (now_ : option string) (clock : Z) : M RecoveryState RecoveryRestore :=
  state ← get;
  operation ← lift (found (restore_in state operationId (scope_organizationId scope)) recovery_not_found);
  _ ← lift (recoveryAuthorized state scope "backup:restore");
  _ ← lift (recoveryTransition kind_restore (rs_status operation) "CANCELLED");
  now ← lift (recoveryNow clock now_);
  job ← lift (recoveryJob state (rc_id (rs_base operation)));
  let next := operation <| rs_base := rs_base operation <| rc_updatedAt := now |> |> <| rs_status := "CANCELLED" |> in
  _ ← modify (recoverySet (OfRestore next) (Some (job <| rj_status := "cancelled" |> <| rj_lockedAt := None |> <| rj_lockedBy := None |> <| rj_updatedAt := now |>)));
  mret next.

Definition expireRecoveryBackup (organizationId operationId : string) (now_ : option string) (clock : Z) : M RecoveryState RecoveryBackup :=
  state ← get;
  backup ← lift (recoveryBackup state operationId organizationId);
  now ← lift (recoveryNow clock now_);
  _ ← lift (throw_if (match bk_expiresAt backup with Some t => now <? t | None => true end) (recovery_conflict "RECOVERY_NOT_EXPIRED"));
  _ ← lift (recoveryTransition kind_backup (bk_status backup) "EXPIRED");
  let next := backup <| bk_base := bk_base backup <| rc_updatedAt := now |> |> <| bk_status := "EXPIRED" |> in
  _ ← modify (recoverySet (OfBackup next) None);
  mret next.

Definition restore_pinned (state : RecoveryState) (backupId : string) : bool :=
  existsb (fun pin => bool_decide (pin_backupId pin = backupId) && bool_decide (pin_kind pin = RESTORE_TARGET)) (pins state).

Definition job_finished (job : RecoveryJob) : bool := bool_decide (rj_status job ∈ ["succeeded"; "failed"; "cancelled"]).

Definition claimRecoveryCleanup (input : RecoveryClaim) (token : string) (clock : Z) : M RecoveryState (RecoveryOperation * list RecoveryAttempt) :=
  state ← get;
  operation ← lift (recoveryOperation state input);
  now ← lift (recoveryNow clock (cl_now input));
  job ← lift (recoveryJob state (rc_id (base_of operation)));
  _ ← lift (throw_if (negb (job_finished job)) (recovery_conflict "RECOVERY_PUBLICATION_UNFENCED"));
  _ ← lift (throw_if (match rc_cleanupLeaseUntil (base_of operation) with Some t => now <? t | None => false end) (recovery_conflict "RECOVERY_LEASE_BUSY"));
  _ ← lift (throw_if (bad_worker (cl_workerId input)) (recovery_conflict "RECOVERY_WORKER_INVALID"));
  let leased := with_base (fun b => b <| rc_cleanupToken := Some token |> <| rc_cleanupWorker := Some (cl_workerId input) |>
                                      <| rc_cleanupLeaseUntil := Some (now + lease_ms) |> <| rc_updatedAt := now |>) in
  next ← lift (match operation with
               | OfBackup b =>
                   _ ← throw_if (restore_pinned state (rc_id (bk_base b))) (recovery_conflict "RECOVERY_RESTORE_PINNED");
                   _ ← throw_if (negb (bool_decide (bk_status b ∈ ["FAILED"; "EXPIRED"; "DELETING"]))) (recovery_conflict "RECOVERY_CLEANUP_INELIGIBLE");
                   _ ← (if decide (bk_status b = "DELETING") then Ok tt else recoveryTransition kind_backup (bk_status b) "DELETING");
                   mret (leased "DELETING" operation)
               | OfRestore r =>
                   _ ← throw_if (negb (bool_decide (rs_status r ∈ ["FAILED"; "CANCELLED"]))) (recovery_conflict "RECOVERY_CLEANUP_INELIGIBLE");
                   mret (leased (rs_status r) operation)
               end);
  _ ← modify (recoverySet next None);
  mret (next, filter (fun row => at_backupId row = rc_id (base_of next)) (attempts state)).

Definition clean_attempt (backupId : string) (now : Z) (row : RecoveryAttempt) : RecoveryAttempt :=
  if decide (at_backupId row = backupId) then row <| at_state := CLEANED |> <| at_cleanupPending := false |> <| at_updatedAt := now |> else row.

Definition delete_target (targetResourceId : string) (now : Z) (row : RecoveryResource) : RecoveryResource :=
  if decide (rr_id row = targetResourceId) then row <| rr_status := "DELETED" |> <| rr_deletionRequestedAt := Some now |> else row.

Definition finishRecoveryCleanup (input : RecoveryClaim) (token : string) (clock : Z) : M RecoveryState RecoveryOperation :=
  state ← get;
  operation ← lift (recoveryOperation state input);
  now ← lift (recoveryNow clock (cl_now input));
  let base := base_of operation in
  _ ← lift (throw_if (negb (bool_decide (rc_cleanupToken base = Some token)) || negb (bool_decide (rc_cleanupWorker base = Some (cl_workerId input)))
                      || match rc_cleanupLeaseUntil base with Some t => t <=? now | None => true end) (recovery_conflict "RECOVERY_LEASE_LOST"));
  job ← lift (recoveryJob state (rc_id base));
  _ ← lift (throw_if (negb (job_finished job)) (recovery_conflict "RECOVERY_PUBLICATION_UNFENCED"));
  let clearLease := fun b => b <| rc_cleanupToken := None |> <| rc_cleanupWorker := None |> <| rc_cleanupLeaseUntil := None |> <| rc_updatedAt := now |> in
  match operation with
  | OfBackup b =>
      _ ← lift (throw_if (restore_pinned state (rc_id base)) (recovery_conflict "RECOVERY_RESTORE_PINNED"));
      _ ← lift (recoveryTransition kind_backup (bk_status b) "DELETED");
      let next := with_base clearLease "DELETED" operation in
      _ ← modify (fun s => recoverySet next None (s <| attempts := map (clean_attempt (rc_id base) now) (attempts s) |>));
      _ ← modify (fun s => s <| pins := filter (fun row => pin_backupId row <> rc_id base) (pins s) |>);
      mret next
  | OfRestore r =>
      _ ← lift (throw_if (negb (bool_decide (rs_status r ∈ ["FAILED"; "CANCELLED"]))) (recovery_conflict "RECOVERY_CLEANUP_INELIGIBLE"));
      let next := r <| rs_base := clearLease (rs_base r) |> <| rs_targetCleanedAt := Some now |> in
      _ ← modify (recoverySet (OfRestore next) None);
      _ ← modify (fun s => s <| resources := map (delete_target (rs_targetResourceId r) now) (resources s) |>
                             <| pins := filter (fun row => pin_restoreId row <> Some (rc_id base)) (pins s) |>);
      mret (OfRestore next)
  end.

End recovery.

Close Scope Z_scope.
