(* ===== verification/RecoveryService.v ===== *)
(** * The recovery service ([packages/core/src/resource-recovery.ts],
    [resource-recovery-memory.ts])

    The requests of tenants and workers as transactions over the recovery
    state, the public views of operations, and the in-memory transaction that
    shares its tables with the control plane store. *)

From S2P Require Import Prelude JsString JsMap JsVal Ids Rbac Lifecycle Secrets Accounts Redaction Workflows ControlPlane Deployments DeploymentOperations RecoveryProvenance Recovery Paging.

Open Scope Z_scope.

(** ** Views *)

Record ResourceBackupView := mkBackupView {
  bv_id : string; bv_organizationId : string; bv_projectId : string; bv_engine : string; bv_status : string; bv_createdAt : Z;
  bv_readyAt : option Z; bv_errorCode : option string; bv_resourceId : string; bv_size : option string; bv_expiresAt : option Z; bv_recoverable : bool
}.
Record ResourceRestoreView := mkRestoreView {
  rv_id : string; rv_organizationId : string; rv_projectId : string; rv_engine : string; rv_status : string; rv_createdAt : Z;
  rv_readyAt : option Z; rv_errorCode : option string; rv_backupId : string; rv_sourceResourceId : string; rv_targetResourceId : string
}.

Definition PUBLIC_RECOVERY_ERROR_CODES : list string := ["RECOVERY_EXECUTION_FAILED"; "SOURCE_CHANGED"; "DEADLINE_EXCEEDED"].

Definition publicRecoveryError (code_ : option string) : option string :=
  match code_ with Some c => if decide (c ∈ PUBLIC_RECOVERY_ERROR_CODES) then Some c else None | None => None end.

Definition publicRestore (operation : RecoveryRestore) : ResourceRestoreView :=
  let b := rs_base operation in
  mkRestoreView (rc_id b) (rc_organizationId b) (rc_projectId b) (rc_engine b) (rs_status operation) (rc_createdAt b) (rc_readyAt b)
    (publicRecoveryError (rc_errorCode b)) (rs_backupId operation) (rs_sourceResourceId operation) (rs_targetResourceId operation).

(** [publicBackup] with the instant it is called at *)
Definition publicBackup (operation : RecoveryBackup) (current : Z) : ResourceBackupView :=
  let b := bk_base operation in
  mkBackupView (rc_id b) (rc_organizationId b) (rc_projectId b) (rc_engine b) (bk_status operation) (rc_createdAt b) (rc_readyAt b)
    (publicRecoveryError (rc_errorCode b)) (bk_resourceId operation) (bk_artifactSize operation) (bk_expiresAt operation)
    (bool_decide (bk_status operation = "READY") && match bk_expiresAt operation with Some t => current <? t | None => false end).

(** What [getBackup] answers: a view, or the stub of a backup from before the format. *)
Inductive BackupAnswer : Type :=
| BackupAnswered (view : ResourceBackupView)
| LegacyAnswered (id resourceId : string).

Definition emptyRecoveryState : RecoveryState := mkRecoveryState [] [] [] [] [] [] [] [] [] [] [].

(** [assertRecoveryPins], [retireMemoryRecovery] and
    [assertRecoveryTargetPublished] guard the deletion and the use of resources. *)
Definition restore_settled (row : RecoveryRestore) : bool :=
  bool_decide (rs_status row = "READY") || (bool_decide (rs_status row ∈ ["FAILED"; "CANCELLED"]) && bool_decide (rs_targetCleanedAt row <> None)).

Definition backup_retirable (state : RecoveryState) (backup : RecoveryBackup) : bool :=
  let id := rc_id (bk_base backup) in
  bool_decide (bk_status backup = "DELETED")
  && negb (existsb (fun row => bool_decide (at_backupId row = id) && (at_cleanupPending row || negb (bool_decide (at_state row = CLEANED)))) (attempts state))
  && negb (existsb (fun row => bool_decide (rs_backupId row = id) && negb (restore_settled row)) (restores state)).

Definition assertRecoveryPins (state : RecoveryState) (resourceIds : list string) : result unit :=
  _ ← throw_if (existsb (fun pin => bool_decide (pin_resourceId pin ∈ resourceIds)) (pins state)) (recovery_conflict "RESOURCE_RECOVERY_PINNED");
  throw_if (existsb (fun backup => negb (backup_retirable state backup)) (filter (fun backup => bk_resourceId backup ∈ resourceIds) (backups state)))
    (recovery_conflict "RECOVERY_CLEANUP_PENDING").

Definition retiring_ids (resourceId : string) (state : RecoveryState) : list string :=
  map (fun row => rc_id (bk_base row)) (filter (fun row => bk_resourceId row = resourceId) (backups state)).

Definition retireMemoryRecovery (resourceId : string) (state : RecoveryState) : RecoveryState :=
  let retiring := retiring_ids resourceId state in
  state <| backups := filter (fun row => rc_id (bk_base row) ∉ retiring) (backups state) |>
        <| restores := filter (fun row => rs_backupId row ∉ retiring) (restores state) |>
        <| attempts := filter (fun row => at_backupId row ∉ retiring) (attempts state) |>
        <| legacyBackups := filter (fun row => lb_resourceId row <> resourceId) (legacyBackups state) |>.

Definition assertRecoveryTargetPublished (state : RecoveryState) (resourceId : string) : result unit :=
  throw_if (existsb (fun pin => bool_decide (pin_resourceId pin = resourceId) && bool_decide (pin_kind pin = RESTORE_TARGET)) (pins state))
    (recovery_conflict "RECOVERY_TARGET_UNPUBLISHED").

(** ** Transactions *)

(** The work runs on a copy of the state, which replaces it only when the
    work returns. *)
Definition transact {S A} (work : M S A) : M S A := fun state =>
  match work state with (Ok a, state') => (Ok a, state') | (Throw e, _) => (Throw e, state) end.

(** The tables of the control plane store a transaction reads and writes. *)
Record RecoveryHost := mkHost {
  host_organizations : list string; host_projects : list RecoveryProject; host_resources : jsmap RecoveryResource;
  host_members : list RecoveryMember; host_workflowJobs : list RecoveryJob; host_audits : list RecoveryAuditEvent
}.
#[export] Instance RecoveryHost_rebuild : Rebuild RecoveryHost := fun h =>
  mkHost (host_organizations h) (host_projects h) (host_resources h) (host_members h) (host_workflowJobs h) (host_audits h).

(** [candidate] before the work *)
Definition from_host (host : RecoveryHost) (state : RecoveryState) : RecoveryState :=
  state <| organizations := host_organizations host |> <| projects := host_projects host |>
        <| resources := map_values (host_resources host) |> <| members := host_members host |>.

Definition write_resources (beforeIds : list string) (rows : list RecoveryResource) (table : jsmap RecoveryResource) : jsmap RecoveryResource :=
  foldl (fun t row => if decide (rr_id row ∉ beforeIds \/ map_has (rr_id row) t = true) then map_set (rr_id row) row t else t) table rows.

(** [candidate] written back *)
Definition to_host (beforeIds : list string) (beforeAuditCount : nat) (after : RecoveryState) (host : RecoveryHost) : RecoveryHost :=
  let recoveryIds := map rj_id (jobs after) in
  host <| host_resources := write_resources beforeIds (resources after) (host_resources host) |>
       <| host_workflowJobs := filter (fun job => rj_id job ∉ recoveryIds) (host_workflowJobs host) ++ jobs after |>
       <| host_audits := host_audits host ++ drop beforeAuditCount (auditEvents after) |>.

(** [changed]: the store was changed by someone else while the work waited. *)
Definition run_with_store {A} (work : M RecoveryState A) (changed : bool) : M (RecoveryState * RecoveryHost) A := fun '(state, host) =>
  let start := from_host host state in
  match work start with
  | (Throw e, _) => (Throw e, (state, host))
  | (Ok a, after) =>
      if changed then (Throw (recovery_conflict "RECOVERY_TRANSACTION_CONFLICT"), (state, host))
      else (Ok a, (after, to_host (map rr_id (resources start)) (length (auditEvents start)) after host))
  end.

(** ** Requests *)

Section service.
Context (dateParse : string -> option Z) (recoveryHash : string -> string).
(** The quota policy, and the text of a cursor *)
Context (enforceQuota : RecoveryState -> RecoveryRequest -> RecoveryKind -> result unit).
Context (encodeSegment : jsval -> string) (decodeSegment : string -> option jsval).
Context (localeCompare : string -> string -> comparison).

Definition create_with_quota (request : RecoveryRequest) (kind : RecoveryKind) (uuids : Uuids) (clock : Z) : M RecoveryState RecoveryResult :=
  transact (before ← get;
            result_ ← createRecovery dateParse recoveryHash request kind uuids clock;
            _ ← (if res_replay result_ then mret tt else lift (enforceQuota before request kind));
            mret result_).

Definition createBackup (request : RecoveryRequest) := create_with_quota request kind_backup.
Definition createRestore (request : RecoveryRequest) := create_with_quota request kind_restore.
Definition claim (input : RecoveryClaim) (clock : Z) := transact (claimRecovery dateParse recoveryHash input clock).
Definition mutate (input : RecoveryFence) (mutation : RecoveryMutation) (clock : Z) := transact (mutateRecovery dateParse recoveryHash input mutation clock).
Definition cancelRestore (scope : RecoveryScope) (operationId : string) (now : option string) (clock : Z) :=
  transact (cancelRecoveryRestore dateParse scope operationId now clock).
Definition expireBackup (organizationId operationId : string) (now : option string) (clock : Z) :=
  transact (expireRecoveryBackup dateParse organizationId operationId now clock).
Definition claimCleanup (input : RecoveryClaim) (token : string) (clock : Z) := transact (claimRecoveryCleanup dateParse input token clock).
Definition finishCleanup (input : RecoveryClaim) (token : string) (clock : Z) := transact (finishRecoveryCleanup dateParse input token clock).

Definition public_backup_at (backup : RecoveryBackup) (now : option string) (clock : Z) : result ResourceBackupView :=
  current ← recoveryNow dateParse clock now; mret (publicBackup backup current).

Definition getBackup (scope : RecoveryScope) (id : string) (clock : Z) (state : RecoveryState) : result BackupAnswer :=
  match backup_in state id (scope_organizationId scope) with
  | Some backup => _ ← recoveryAuthorized state scope "backup:manage"; mret (BackupAnswered (publicBackup backup clock))
  | None =>
      match js_find (fun row => lb_id row = id /\ owns_resource state (lb_resourceId row) (scope_organizationId scope) = true) (legacyBackups state) with
      | Some legacy => _ ← recoveryAuthorized state scope "backup:manage"; mret (LegacyAnswered (lb_id legacy) (lb_resourceId legacy))
      | None => Throw recovery_not_found
      end
  end.

Definition getRestore (scope : RecoveryScope) (id : string) (state : RecoveryState) : result ResourceRestoreView :=
  restore ← found (restore_in state id (scope_organizationId scope)) recovery_not_found;
  _ ← recoveryAuthorized state scope "backup:restore";
  mret (publicRestore restore).

Definition requireResourceOwner (state : RecoveryState) (resourceId organizationId : string) : result unit :=
  throw_if (negb (owns_resource state resourceId organizationId)) recovery_not_found.

(** *** Deletion *)

Definition requireDeleteConfirmation (input : jsval) : result unit :=
  let invalid := RecoveryError "RECOVERY_INPUT_INVALID" 400 in
  let required := RecoveryError "RECOVERY_CONFIRMATION_REQUIRED" 400 in
  match input with
  | JObj [] => Throw required
  | JObj [(key, confirmed)] =>
      _ ← throw_if (negb (bool_decide (key = "confirmed"))) invalid;
      match confirmed with JBool true => Ok tt | JBool false => Throw required | _ => Throw invalid end
  | _ => Throw invalid
  end.

Definition requestBackupDeletion (scope : RecoveryScope) (id : string) (input : jsval) (now : option string) (clock : Z)
    : M RecoveryState ResourceBackupView :=
  _ ← lift (requireDeleteConfirmation input);
  transact (
    state ← get;
    backup ← lift (found (backup_in state id (scope_organizationId scope)) recovery_not_found);
    _ ← lift (recoveryAuthorized state scope "backup:manage");
    if decide (bk_status backup = "DELETING" \/ bk_status backup = "DELETED") then lift (public_backup_at backup now clock)
    else
      _ ← lift (throw_if (negb (bool_decide (bk_status backup ∈ ["READY"; "FAILED"; "EXPIRED"]))) (recovery_conflict "RECOVERY_CLEANUP_INELIGIBLE"));
      _ ← lift (throw_if (restore_pinned state (rc_id (bk_base backup))) (recovery_conflict "RECOVERY_RESTORE_PINNED"));
      _ ← lift (recoveryTransition kind_backup (bk_status backup) "DELETING");
      at_ ← lift (recoveryNow dateParse clock now);
      let next := backup <| bk_base := bk_base backup <| rc_updatedAt := at_ |> |> <| bk_status := "DELETING" |> in
      _ ← modify (fun s => recoverySet (OfBackup next) None s <| auditEvents := auditEvents s ++
            [mkAuditEvent (scope_actorUserId scope) "resource.backup:delete-requested" "resource-backup" (rc_id (bk_base next))
               (rc_engine (bk_base next)) (bk_status next) at_] |>);
      mret (publicBackup next at_)).

(** *** Listing, newest first, one page at a time *)

Record BackupCursor := mkCursor { cur_at : string; cur_id : string }.

Definition cursor_of (row : RecoveryBackup) : BackupCursor := mkCursor (toISOString (rc_createdAt (bk_base row))) (rc_id (bk_base row)).

Definition cursor_json (c : BackupCursor) : jsval := JObj [("v", JNum (NInt 1)); ("at", JStr (cur_at c)); ("id", JStr (cur_id c))].

Definition encodeBackupCursor (row : RecoveryBackup) : string := encodeSegment (cursor_json (cursor_of row)).

Definition cursor_invalid : jserror := RecoveryError "RECOVERY_CURSOR_INVALID" 400.

Definition decodeBackupCursor (value : string) : result BackupCursor :=
  _ ← throw_if (str_empty value || negb (forallb is_id_char (chars value))) cursor_invalid;
  decoded ← found (decodeSegment value) cursor_invalid;
  record ← recoveryRecord decoded;
  match obj_get "v" record, obj_get "at" record, obj_get "id" record with
  | JNum (NInt 1), JStr at_, JStr id =>
      _ ← throw_if (negb (length record =? 3)%nat || bool_decide (dateParse at_ = None) || str_empty id) cursor_invalid;
      Ok (mkCursor at_ id)
  | _, _, _ => Throw cursor_invalid
  end.

Definition below_cursor (cursor : BackupCursor) (row : RecoveryBackup) : bool :=
  let c := cursor_of row in str_lt (cur_at c) (cur_at cursor) || (bool_decide (cur_at c = cur_at cursor) && str_lt (cur_id c) (cur_id cursor)).

(** [right.createdAt.localeCompare(left.createdAt) || right.id.localeCompare(left.id)], not positive *)
Definition newest_first (left right : RecoveryBackup) : bool :=
  match localeCompare (cur_at (cursor_of right)) (cur_at (cursor_of left)) with
  | Lt => true
  | Gt => false
  | Eq => match localeCompare (cur_id (cursor_of right)) (cur_id (cursor_of left)) with Gt => false | _ => true end
  end.

Definition resource_backups (state : RecoveryState) (resourceId organizationId : string) : list RecoveryBackup :=
  filter (fun row => rc_formatVersion (bk_base row) = 1 /\ bk_resourceId row = resourceId /\ rc_organizationId (bk_base row) = organizationId) (backups state).

(** A page of the rows, and the row its cursor is made of when there are more. *)
Definition backup_page (rows : list RecoveryBackup) (cursor : option BackupCursor) (limit : nat) : list RecoveryBackup * option RecoveryBackup :=
  let below := match cursor with Some c => filter (fun row => below_cursor c row = true) rows | None => rows end in
  let found_ := take (limit + 1) (js_sort newest_first below) in
  let page := take limit found_ in
  (page, if (limit <? length found_)%nat then last page else None).

Definition listBackups (scope : RecoveryScope) (resourceId : string) (limit_ : option Z) (cursor_ : option string) (now : option string) (clock : Z)
    (state : RecoveryState) : result (list ResourceBackupView * option string) :=
  _ ← requireResourceOwner state resourceId (scope_organizationId scope);
  _ ← recoveryAuthorized state scope "backup:manage";
  let limit := default 200 limit_ in
  _ ← throw_if ((limit <? 1) || (1000 <? limit)) (RecoveryError "RECOVERY_LIMIT_INVALID" 400);
  cursor ← (match cursor_ with
            | Some text => if str_empty text then Ok None else c ← decodeBackupCursor text; mret (Some c)
            | None => Ok None
            end);
  let '(page, more) := backup_page (resource_backups state resourceId (scope_organizationId scope)) cursor (Z.to_nat limit) in
  views ← (match page with [] => Ok [] | _ => current ← recoveryNow dateParse clock now; mret (map (fun row => publicBackup row current) page) end);
  mret (views, encodeBackupCursor <$> more).

End service.

Close Scope Z_scope.
