(* ===== verification/RecoverySafety.v ===== *)
(** * Properties of backups and restores

    The invariant of the recovery tables under every sequence of requests,
    worker steps, cleanups and retirements: jobs and operations agree, an
    artifact that is offered was verified, and no artifact is deleted under a
    restore that needs it. *)

From S2P Require Import Prelude JsString JsMap JsVal Ids Rbac Lifecycle Secrets Accounts Redaction Workflows ControlPlane Deployments DeploymentOperations RecoveryProvenance Recovery RecoveryService.

Open Scope Z_scope.

(** ** Membership *)

Definition operation_id (o : RecoveryOperation) : string := rc_id (base_of o).

Definition operation_in (s : RecoveryState) (o : RecoveryOperation) : Prop :=
  match o with OfBackup b => b ∈ backups s | OfRestore r => r ∈ restores s end.

Definition operation_kind (o : RecoveryOperation) : RecoveryKind := match o with OfBackup _ => kind_backup | OfRestore _ => kind_restore end.

Definition backup_ids (s : RecoveryState) : list string := map (fun b => rc_id (bk_base b)) (backups s).
Definition restore_ids (s : RecoveryState) : list string := map (fun r => rc_id (rs_base r)) (restores s).

Definition attempt_key (a : RecoveryAttempt) : string * Z := (at_backupId a, at_attempt a).

Definition available : list string := ["READY"; "EXPIRED"].

(** ** The invariant *)

(** What the status of an operation says about its job. *)
Definition coherent (o : RecoveryOperation) (j : RecoveryJob) : Prop :=
  0 <= rj_attempts j <= 3
  /\ (status_of o = "QUEUED" -> rj_status j = "queued" /\ rj_attempts j = 0)
  /\ (status_of o ∈ ["RUNNING"; "VERIFYING"] -> rj_status j ∈ ["queued"; "running"])
  /\ (status_of o ∉ ["QUEUED"; "RUNNING"; "VERIFYING"] -> job_finished j = true).

(** A prepared upload has an identifier, sizes within bounds and a checksum. *)
Definition attempt_wf (a : RecoveryAttempt) : Prop :=
  1 <= at_attempt a <= 3
  /\ (at_state a ∈ [UPLOADING; PREPARED; COMPLETE; VERIFIED] -> no_text (at_uploadId a) = false)
  /\ (at_state a ∈ [PREPARED; COMPLETE; VERIFIED] -> exists stored plain checksum,
        at_candidateStoredBytes a = Some stored /\ at_candidatePlaintextBytes a = Some plain /\ at_candidateChecksum a = Some checksum
        /\ positive_bytes stored = true /\ BigInt stored <= max_artifact_bytes /\ BigInt plain <= max_artifact_bytes
        /\ class_pattern is_hex 64 64 checksum = true).

(** The artifact of a backup is what its winning attempt uploaded. *)
Definition artifact_of (b : RecoveryBackup) (a : RecoveryAttempt) : Prop :=
  at_backupId a = rc_id (bk_base b) /\ bk_winningAttempt b = Some (at_attempt a) /\ at_state a = VERIFIED
  /\ bk_artifactKey b = Some (at_objectKey a) /\ bk_artifactChecksum b = at_candidateChecksum a
  /\ bk_artifactSize b = at_candidateStoredBytes a /\ bk_encryptionKeyVersion b = Some (at_keyVersion a) /\ bk_expiresAt b <> None.

Record backup_ok (b : RecoveryBackup) (rows : list RecoveryAttempt) (ps : list RecoveryPin) : Prop := {
  bo_artifact : bk_status b ∈ available -> exists a, a ∈ rows /\ artifact_of b a;
  bo_pinned : bk_status b <> "DELETED" -> exists p, p ∈ ps /\ pin_kind p = ARTIFACT_SOURCE
                /\ pin_backupId p = rc_id (bk_base b) /\ pin_resourceId p = bk_resourceId b;
  bo_kept : bk_status b <> "DELETED" -> forall a, a ∈ rows -> at_backupId a = rc_id (bk_base b) -> at_state a <> CLEANED /\ at_cleanupPending a = true;
  bo_cleaned : bk_status b = "DELETED" -> forall a, a ∈ rows -> at_backupId a = rc_id (bk_base b) -> at_state a = CLEANED /\ at_cleanupPending a = false
}.

(** A restore that is not over has its backup and a pin on its target. *)
Definition restore_ok (r : RecoveryRestore) (bs : list RecoveryBackup) (ps : list RecoveryPin) : Prop :=
  restore_settled r = false ->
  (exists b, b ∈ bs /\ rc_id (bk_base b) = rs_backupId r /\ bk_status b ∈ available)
  /\ (exists p, p ∈ ps /\ pin_kind p = RESTORE_TARGET /\ pin_backupId p = rs_backupId r
        /\ pin_resourceId p = rs_targetResourceId r /\ pin_restoreId p = Some (rc_id (rs_base r))).

Record recovery_ok (s : RecoveryState) : Prop := {
  ok_ids : NoDup (backup_ids s ++ restore_ids s);
  ok_job_ids : NoDup (rj_id <$> jobs s);
  ok_job_targets : NoDup (rj_targetId <$> jobs s);
  ok_jobs : forall o, operation_in s o -> exists j, j ∈ jobs s /\ rj_targetId j = operation_id o /\ coherent o j;
  ok_attempts : NoDup (attempt_key <$> attempts s);
  ok_attempt_wf : forall a, a ∈ attempts s -> attempt_wf a;
  ok_attempt_owner : forall a, a ∈ attempts s -> at_backupId a ∈ backup_ids s;
  ok_source_pins : forall p, p ∈ pins s -> pin_kind p = ARTIFACT_SOURCE -> pin_restoreId p = None;
  ok_backups : forall b, b ∈ backups s -> backup_ok b (attempts s) (pins s);
  ok_restores : forall r, r ∈ restores s -> restore_ok r (backups s) (pins s)
}.

(** ** Unique rows *)

Lemma nodup_map_inj {A B} (f : A -> B) l x y : NoDup (f <$> l) -> x ∈ l -> y ∈ l -> f x = f y -> x = y.
Proof.
  induction l as [|z l IH]; [set_solver|]. cbn. rewrite NoDup_cons. intros [Hz Hl] [-> |Hx]%elem_of_cons [-> |Hy]%elem_of_cons Hf; [done|..].
  - destruct Hz. rewrite Hf. by apply list_elem_of_fmap_2.
  - destruct Hz. rewrite <- Hf. by apply list_elem_of_fmap_2.
  - by apply IH.
Qed.

Lemma elem_of_map_set {A} (key : A -> string) (next x : A) l :
  x ∈ map (fun row => if decide (key row = key next) then next else row) l ->
  (x = next /\ key next ∈ map key l) \/ (x ∈ l /\ key x <> key next).
Proof.
  intros (y & -> & Hy)%list_elem_of_fmap. case_decide as E; [left|by right].
  split; [done|]. apply list_elem_of_fmap. by exists y.
Qed.

Lemma map_set_keys {A B} (key : A -> string) (other : A -> B) (next : A) l :
  (forall x, x ∈ l -> key x = key next -> other x = other next) ->
  map other (map (fun row => if decide (key row = key next) then next else row) l) = map other l.
Proof.
  intros H. rewrite map_map. apply map_ext_in. intros x Hx. case_decide as E; [|done].
  symmetry. apply H; [by apply list_elem_of_In|done].
Qed.

Lemma map_set_member {A} (key : A -> string) (next x : A) l :
  x ∈ l -> key x = key next -> next ∈ map (fun row => if decide (key row = key next) then next else row) l.
Proof. intros Hx Hk. apply list_elem_of_fmap. exists x. split; [|done]. by rewrite decide_True. Qed.

Lemma map_set_other {A} (key : A -> string) (next x : A) l :
  x ∈ l -> key x <> key next -> x ∈ map (fun row => if decide (key row = key next) then next else row) l.
Proof. intros Hx Hk. apply list_elem_of_fmap. exists x. split; [|done]. by rewrite decide_False. Qed.

(** ** What a lookup found *)

Lemma found_Ok {A} (o : option A) e a : found o e = Ok a <-> o = Some a.
Proof. destruct o; cbn; split; congruence. Qed.

Lemma backup_in_Some s id org b : backup_in s id org = Some b -> b ∈ backups s /\ rc_id (bk_base b) = id.
Proof. unfold backup_in. intros (Hb & Hid & _)%js_find_elem. done. Qed.

Lemma restore_in_Some s id org r : restore_in s id org = Some r -> r ∈ restores s /\ rc_id (rs_base r) = id.
Proof. unfold restore_in. intros (Hb & Hid & _)%js_find_elem. done. Qed.

Lemma recoveryBackup_Ok s id org b : recoveryBackup s id org = Ok b -> b ∈ backups s /\ rc_id (bk_base b) = id.
Proof. unfold recoveryBackup. intros H. unbind. apply found_Ok in H. by apply backup_in_Some in H. Qed.

Lemma recoveryJob_Ok s id j : recoveryJob s id = Ok j -> j ∈ jobs s /\ rj_targetId j = id.
Proof. unfold recoveryJob. intros H%found_Ok. by apply js_find_elem in H. Qed.

Lemma recoveryOperation_Ok s input o : recoveryOperation s input = Ok o ->
  operation_in s o /\ operation_id o = cl_operationId input /\ operation_kind o = cl_kind input.
Proof.
  unfold recoveryOperation. destruct (cl_kind input); intros H; unbind.
  - by apply recoveryBackup_Ok in H as [? ?].
  - apply found_Ok, restore_in_Some in H as [? ?]. done.
Qed.

Lemma recoveryTransition_Ok kind from to u : recoveryTransition kind from to = Ok u ->
  from <> to /\ to ∈ status_next (machine_of kind) from.
Proof.
  unfold recoveryTransition. intros [H1%bool_decide_eq_false H2%negb_false_iff%bool_decide_eq_true]%throw_if_Ok%orb_false_iff. done.
Qed.

(** ** One operation and its job change

    Every step of a worker, a cleanup or a tenant on an existing operation
    replaces its row and the row of its job, and may change its attempts and
    drop its pins. *)

Definition same_operation (o next : RecoveryOperation) : Prop :=
  match o, next with
  | OfBackup b, OfBackup n => rc_id (bk_base n) = rc_id (bk_base b) /\ bk_resourceId n = bk_resourceId b
  | OfRestore r, OfRestore n => rc_id (rs_base n) = rc_id (rs_base r) /\ rs_backupId n = rs_backupId r
                                /\ rs_targetResourceId n = rs_targetResourceId r
  | _, _ => False
  end.

Record operation_update (s s' : RecoveryState) (o next : RecoveryOperation) (j next_j : RecoveryJob) : Prop := {
  up_in : operation_in s o;
  up_job : j ∈ jobs s /\ rj_targetId j = operation_id o;
  up_same : same_operation o next;
  up_job_same : rj_id next_j = rj_id j /\ rj_targetId next_j = rj_targetId j /\ rj_attempts j <= rj_attempts next_j;
  up_coherent : coherent o j -> coherent next next_j;
  up_status : status_of next = status_of o \/ status_of next ∈ status_next (machine_of (operation_kind o)) (status_of o);
  up_tables : backups s' = backups (recoverySet next (Some next_j) s) /\ restores s' = restores (recoverySet next (Some next_j) s)
              /\ jobs s' = jobs (recoverySet next (Some next_j) s);
  up_attempt_keys : NoDup (attempt_key <$> attempts s');
  up_attempt_wf : forall a, a ∈ attempts s' -> attempt_wf a;
  up_attempt_owner : forall a, a ∈ attempts s' -> a ∈ attempts s \/ at_backupId a ∈ backup_ids s;
  up_attempt_frame : forall a, at_backupId a <> operation_id o -> a ∈ attempts s' <-> a ∈ attempts s;
  up_pins : forall p, p ∈ pins s' -> p ∈ pins s;
  up_source_pins : forall p, p ∈ pins s -> pin_kind p = ARTIFACT_SOURCE -> pin_backupId p <> operation_id o -> p ∈ pins s';
  up_target_pins : forall p, p ∈ pins s -> pin_kind p = RESTORE_TARGET -> pin_restoreId p <> Some (operation_id o) -> p ∈ pins s';
  up_available : operation_kind o = kind_backup -> status_of o ∈ available ->
                 status_of next ∈ available \/ restore_pinned s (operation_id o) = false;
  up_settled : match o, next with OfRestore r, OfRestore n => restore_settled r = true -> restore_settled n = true | _, _ => True end;
  up_backup : match next with OfBackup b => backup_ok b (attempts s') (pins s') | OfRestore _ => True end;
  up_restore : match next with OfRestore r => restore_settled r = false -> pins s' = pins s | OfBackup _ => True end
}.

(** The tables of the control plane and the audit trail do not matter. *)
Lemma operation_update_ext s s1 s' o next j next_j : operation_update s s1 o next j next_j ->
  backups s' = backups s1 -> restores s' = restores s1 -> jobs s' = jobs s1 -> attempts s' = attempts s1 -> pins s' = pins s1 ->
  operation_update s s' o next j next_j.
Proof. intros [] E1 E2 E3 E4 E5. constructor; rewrite ?E1, ?E2, ?E3, ?E4, ?E5; assumption. Qed.

Lemma same_operation_id o next : same_operation o next -> operation_id next = operation_id o.
Proof. destruct o, next; cbn; naive_solver. Qed.

Lemma same_operation_kind o next : same_operation o next -> operation_kind next = operation_kind o.
Proof. by destruct o, next. Qed.

Lemma backup_ids_set b s j : backup_ids (recoverySet (OfBackup b) j s) = backup_ids s.
Proof.
  unfold backup_ids. destruct j; cbn; apply (map_set_keys (fun r => rc_id (bk_base r)) (fun r => rc_id (bk_base r))); done.
Qed.

Lemma restore_ids_set r s j : restore_ids (recoverySet (OfRestore r) j s) = restore_ids s.
Proof.
  unfold restore_ids. destruct j; cbn; apply (map_set_keys (fun x => rc_id (rs_base x)) (fun x => rc_id (rs_base x))); done.
Qed.

Lemma recoverySet_ids o j s :
  backup_ids (recoverySet o j s) = backup_ids s /\ restore_ids (recoverySet o j s) = restore_ids s.
Proof.
  destruct o as [b|r].
  - split; [apply backup_ids_set|by destruct j].
  - split; [by destruct j|apply restore_ids_set].
Qed.

Lemma recoverySet_jobs o j s : jobs (recoverySet o (Some j) s) = map (set_job j) (jobs s).
Proof. by destruct o. Qed.

Lemma recoverySet_in s o next j x : same_operation o next -> operation_in (recoverySet next j s) x ->
  x = next \/ (operation_in s x /\ (operation_kind x = operation_kind o -> operation_id x <> operation_id o)).
Proof.
  intros Hs Hx. pose proof (same_operation_id _ _ Hs) as Hid. pose proof (same_operation_kind _ _ Hs) as Hk.
  destruct next as [n|n], x as [x|x]; destruct o as [o|o]; try done; destruct j; cbn in Hx;
    try (right; split; [exact Hx|done]).
  1, 2: apply (elem_of_map_set (fun r => rc_id (bk_base r))) in Hx as [[-> _]|[Hx Hne]]; [by left|right];
        (split; [exact Hx|]); intros _; unfold operation_id in *; cbn in *; congruence.
  all: apply (elem_of_map_set (fun r => rc_id (rs_base r))) in Hx as [[-> _]|[Hx Hne]]; [by left|right];
        (split; [exact Hx|]); intros _; unfold operation_id in *; cbn in *; congruence.
Qed.

(** Backups and restores never share an identifier. *)
Lemma operation_id_unique s x o : NoDup (backup_ids s ++ restore_ids s) -> operation_in s x -> operation_in s o ->
  operation_id x = operation_id o -> x = o.
Proof.
  rewrite NoDup_app. intros (Hb & Hd & Hr) Hx Ho Hid. destruct x as [x|x], o as [o|o]; cbn in *; f_equal.
  - by apply (nodup_map_inj (fun r => rc_id (bk_base r)) (backups s)).
  - destruct (Hd (rc_id (bk_base x))); [by apply (list_elem_of_fmap_2 (fun r => rc_id (bk_base r)))|].
    unfold operation_id in Hid. cbn in Hid. rewrite Hid. by apply (list_elem_of_fmap_2 (fun r => rc_id (rs_base r))).
  - destruct (Hd (rc_id (bk_base o))); [by apply (list_elem_of_fmap_2 (fun r => rc_id (bk_base r)))|].
    unfold operation_id in Hid. cbn in Hid. rewrite <- Hid. by apply (list_elem_of_fmap_2 (fun r => rc_id (rs_base r))).
  - by apply (nodup_map_inj (fun r => rc_id (rs_base r)) (restores s)).
Qed.

Section update.
Context (s s' : RecoveryState) (o next : RecoveryOperation) (j next_j : RecoveryJob).
Hypothesis Hok : recovery_ok s.
Hypothesis Hup : operation_update s s' o next j next_j.

Lemma update_id : operation_id next = operation_id o.
Proof. apply same_operation_id, Hup. Qed.

Lemma update_ids : backup_ids s' = backup_ids s /\ restore_ids s' = restore_ids s.
Proof.
  destruct (up_tables _ _ _ _ _ _ Hup) as (Hb & Hr & _). destruct (recoverySet_ids next (Some next_j) s) as [Eb Er].
  unfold backup_ids, restore_ids in *. rewrite Hb, Hr. done.
Qed.

(** An operation of the new state is the new row, or another one of the old state. *)
Lemma update_in x : operation_in s' x -> x = next \/ (operation_in s x /\ operation_id x <> operation_id o).
Proof.
  destruct (up_tables _ _ _ _ _ _ Hup) as (Hb & Hr & _). intros Hx.
  assert (operation_in (recoverySet next (Some next_j) s) x) as Hx'.
  { destruct x; cbn in *; [by rewrite <- Hb|by rewrite <- Hr]. }
  destruct (recoverySet_in s o next (Some next_j) x (up_same _ _ _ _ _ _ Hup) Hx') as [?|[Hin Hne]]; [by left|right].
  split; [done|]. intros Hid. destruct Hne; [|done].
  by rewrite (operation_id_unique s x o (ok_ids s Hok) Hin (up_in _ _ _ _ _ _ Hup) Hid).
Qed.

Lemma update_next_in : operation_in s' next.
Proof.
  destruct (up_tables _ _ _ _ _ _ Hup) as (Hb & Hr & _). pose proof (up_in _ _ _ _ _ _ Hup) as Ho.
  pose proof update_id as Hid. pose proof (up_same _ _ _ _ _ _ Hup) as Hs.
  destruct next as [n|n], o as [b|r]; try done; cbn in *.
  - rewrite Hb. by apply (map_set_member (fun x => rc_id (bk_base x)) n b).
  - rewrite Hr. by apply (map_set_member (fun x => rc_id (rs_base x)) n r).
Qed.

Lemma update_job_unique x : x ∈ jobs s -> rj_targetId x = operation_id o -> x = j.
Proof.
  intros Hx Ht. destruct (up_job _ _ _ _ _ _ Hup) as [Hj Hjt].
  apply (nodup_map_inj rj_targetId (jobs s)); [apply Hok|done|done|congruence].
Qed.

Lemma update_jobs : jobs s' = map (set_job next_j) (jobs s).
Proof. destruct (up_tables _ _ _ _ _ _ Hup) as (_ & _ & ->). apply recoverySet_jobs. Qed.

Lemma update_job_keys : map rj_id (jobs s') = map rj_id (jobs s) /\ map rj_targetId (jobs s') = map rj_targetId (jobs s).
Proof.
  rewrite update_jobs. destruct (up_job _ _ _ _ _ _ Hup) as [Hj _]. destruct (up_job_same _ _ _ _ _ _ Hup) as (Hi & Ht & _).
  split; [by apply (map_set_keys rj_id rj_id)|]. apply (map_set_keys rj_id rj_targetId). intros x Hx Hid.
  rewrite Ht. f_equal. apply (nodup_map_inj rj_id (jobs s)); [apply Hok|done|done|congruence].
Qed.

Lemma update_jobs_ok x : operation_in s' x -> exists k, k ∈ jobs s' /\ rj_targetId k = operation_id x /\ coherent x k.
Proof.
  destruct (up_job _ _ _ _ _ _ Hup) as [Hj Hjt]. destruct (up_job_same _ _ _ _ _ _ Hup) as (Hi & Ht & _).
  rewrite update_jobs. intros [-> |[Hx Hne]]%update_in.
  - exists next_j. split_and!.
    + by apply (map_set_member rj_id next_j j).
    + rewrite Ht, update_id. exact Hjt.
    + apply (up_coherent _ _ _ _ _ _ Hup). destruct (ok_jobs s Hok o (up_in _ _ _ _ _ _ Hup)) as (k & Hk & Hkt & Hc).
      by rewrite <- (update_job_unique k Hk Hkt).
  - destruct (ok_jobs s Hok x Hx) as (k & Hk & Hkt & Hc). exists k. split_and!; [|done|done].
    apply (map_set_other rj_id next_j k); [done|]. intros E. apply Hne. rewrite <- Hkt, <- Hjt. f_equal.
    apply (nodup_map_inj rj_id (jobs s)); [apply Hok|done|done|congruence].
Qed.

Lemma update_backup_ok b : b ∈ backups s' -> backup_ok b (attempts s') (pins s').
Proof.
  intros Hb. destruct (update_in (OfBackup b) Hb) as [E|[Hin Hne]].
  { pose proof (up_backup _ _ _ _ _ _ Hup) as H. by rewrite <- E in H. }
  destruct (ok_backups s Hok b Hin) as [H1 H2 H3 H4].
  change (rc_id (bk_base b) <> operation_id o) in Hne. pose proof (up_attempt_frame _ _ _ _ _ _ Hup) as Hf. constructor.
  - intros Hs. destruct (H1 Hs) as (a & Ha & Hart). exists a. split; [|done]. apply Hf; [|done]. by destruct Hart as [-> _].
  - intros Hs. destruct (H2 Hs) as (p & Hp & Hk & Hpb & Hpr). exists p. split_and!; try done.
    apply (up_source_pins _ _ _ _ _ _ Hup); [done..|congruence].
  - intros Hs a Ha Hid. apply (H3 Hs); [apply Hf; [congruence|done]|done].
  - intros Hs a Ha Hid. apply (H4 Hs); [apply Hf; [congruence|done]|done].
Qed.

(** The backup of a restore that is not over stays available. *)
Lemma update_available r : r ∈ restores s -> restore_settled r = false ->
  exists b, b ∈ backups s' /\ rc_id (bk_base b) = rs_backupId r /\ bk_status b ∈ available.
Proof.
  intros Hr Hs. destruct (ok_restores s Hok r Hr Hs) as [(b & Hb & Hid & Hav) (p & Hp & Hk & Hpb & _)].
  destruct (up_tables _ _ _ _ _ _ Hup) as (Eb & _ & _). rewrite Eb.
  pose proof (up_same _ _ _ _ _ _ Hup) as Hsame. pose proof (up_in _ _ _ _ _ _ Hup) as Hin.
  destruct next as [n|n], o as [ob|orr] eqn:Eo; try done; [|by exists b].
  destruct Hsame as [Hnid _]. destruct (decide (rc_id (bk_base b) = rc_id (bk_base ob))) as [E|E].
  - assert (b = ob) as ->. { assert (OfBackup b = OfBackup ob) as [= ->]; [|done]. by apply (operation_id_unique s); [apply Hok|..]. }
    exists n. split_and!; [by apply (map_set_member (fun x => rc_id (bk_base x)) n ob)|congruence|].
    destruct (up_available _ _ _ _ _ _ Hup eq_refl Hav) as [?|Hpin]; [done|exfalso].
    unfold restore_pinned in Hpin. apply not_true_iff_false in Hpin. apply Hpin, existsb_exists. exists p.
    split; [by apply list_elem_of_In|]. rewrite Hk, bool_decide_true by (unfold operation_id; cbn; congruence). done.
  - exists b. split_and!; [|done|done]. apply (map_set_other (fun x => rc_id (bk_base x)) n b); [done|congruence].
Qed.

Lemma update_restore_ok r : r ∈ restores s' -> restore_ok r (backups s') (pins s').
Proof.
  intros Hr Hs. destruct (update_in (OfRestore r) Hr) as [E|[Hin Hne]].
  - pose proof update_available as Hav. pose proof (up_settled _ _ _ _ _ _ Hup) as Hset. pose proof (up_restore _ _ _ _ _ _ Hup) as Hpins.
    pose proof (up_same _ _ _ _ _ _ Hup) as Hsame. pose proof (up_in _ _ _ _ _ _ Hup) as Hin.
    destruct o as [ob|orr]; [by rewrite <- E in Hsame|]. rewrite <- E in Hset, Hpins, Hsame. destruct Hsame as (Hid & Hb & Ht).
    assert (restore_settled orr = false) as Hos by (destruct (restore_settled orr); [by rewrite Hset in Hs|done]).
    destruct (ok_restores s Hok orr Hin Hos) as [_ (p & Hp)]. rewrite (Hpins Hs). split.
    + destruct (Hav orr Hin Hos) as (b & ?). exists b. by rewrite Hb.
    + exists p. by rewrite Hb, Ht, Hid.
  - destruct (ok_restores s Hok r Hin Hs) as [_ (p & Hp & Hk & Hpb & Hpr & Hpi)]. split; [by apply update_available|].
    exists p. split_and!; try done. apply (up_target_pins _ _ _ _ _ _ Hup); [done..|].
    rewrite Hpi. intros [= E]. by apply Hne.
Qed.

Lemma update_preserves : recovery_ok s'.
Proof.
  destruct update_ids as [Eb Er]. destruct update_job_keys as [Ej Et]. constructor.
  - rewrite Eb, Er. apply Hok.
  - change (rj_id <$> jobs s') with (map rj_id (jobs s')). rewrite Ej. apply Hok.
  - change (rj_targetId <$> jobs s') with (map rj_targetId (jobs s')). rewrite Et. apply Hok.
  - apply update_jobs_ok.
  - apply Hup.
  - apply Hup.
  - intros a Ha. rewrite Eb. destruct (up_attempt_owner _ _ _ _ _ _ Hup a Ha); [by apply (ok_attempt_owner s Hok)|done].
  - intros p Hp. by apply (ok_source_pins s Hok), (up_pins _ _ _ _ _ _ Hup).
  - apply update_backup_ok.
  - apply update_restore_ok.
Qed.

End update.

(** ** Steps that only change an operation and its job *)

Ltac bool_facts :=
  repeat match goal with
  | H : orb _ _ = false |- _ => apply orb_false_iff in H as [? ?]
  | H : negb _ = false |- _ => apply negb_false_iff in H
  | H : bool_decide _ = true |- _ => apply bool_decide_eq_true in H
  | H : bool_decide _ = false |- _ => apply bool_decide_eq_false in H
  end.

Ltac closed_fact := apply (bool_decide_unpack _); vm_compute; exact I.

Lemma set_job_same s j : NoDup (rj_id <$> jobs s) -> j ∈ jobs s -> map (set_job j) (jobs s) = jobs s.
Proof.
  intros Hn Hj. rewrite <- (map_id (jobs s)) at 2. apply map_ext_in. intros x Hx%list_elem_of_In.
  unfold set_job. case_decide as E; [|done]. by apply (nodup_map_inj rj_id (jobs s)).
Qed.

Lemma backup_ok_change b n rows ps :
  backup_ok b rows ps -> rc_id (bk_base n) = rc_id (bk_base b) -> bk_resourceId n = bk_resourceId b ->
  (bk_status n ∈ available -> bk_status b ∈ available /\ forall a, artifact_of b a -> artifact_of n a) ->
  (bk_status n = "DELETED" <-> bk_status b = "DELETED") -> backup_ok n rows ps.
Proof.
  intros [H1 H2 H3 H4] Hid Hr Hav Hd. constructor.
  - intros Hn. destruct (Hav Hn) as [Hb Ha]. destruct (H1 Hb) as (a & Hin & Hart). exists a. auto.
  - intros Hn. rewrite Hid, Hr. apply H2. by rewrite <- Hd.
  - intros Hn. rewrite Hid. apply H3. by rewrite <- Hd.
  - intros Hn. rewrite Hid. apply H4. by apply Hd.
Qed.

(** A change that leaves attempts and pins alone. *)
Lemma plain_update s s' o next j next_j :
  recovery_ok s -> operation_in s o -> j ∈ jobs s -> rj_targetId j = operation_id o -> same_operation o next ->
  rj_id next_j = rj_id j -> rj_targetId next_j = rj_targetId j -> rj_attempts j <= rj_attempts next_j ->
  (coherent o j -> coherent next next_j) ->
  (status_of next = status_of o \/ status_of next ∈ status_next (machine_of (operation_kind o)) (status_of o)) ->
  (backups s' = backups (recoverySet next (Some next_j) s) /\ restores s' = restores (recoverySet next (Some next_j) s)
   /\ jobs s' = jobs (recoverySet next (Some next_j) s)) ->
  attempts s' = attempts s -> pins s' = pins s ->
  match o, next with
  | OfBackup b, OfBackup n => backup_ok n (attempts s) (pins s)
      /\ (bk_status b ∈ available -> bk_status n ∈ available \/ restore_pinned s (operation_id o) = false)
  | OfRestore r, OfRestore n => restore_settled r = true -> restore_settled n = true
  | _, _ => False
  end ->
  operation_update s s' o next j next_j.
Proof.
  intros Hok Ho Hj Hjt Hs Hji Hjt' Hja Hc Hst Htab Ha Hp Hm. constructor; try done.
  - rewrite Ha. apply Hok.
  - rewrite Ha. apply Hok.
  - rewrite Ha. by left.
  - by rewrite Ha.
  - by rewrite Hp.
  - by rewrite Hp.
  - by rewrite Hp.
  - intros Hk Hav. destruct o as [b|r], next as [n|n]; try done. by apply Hm.
  - by destruct o, next.
  - destruct o, next; try done. rewrite Ha, Hp. apply Hm.
  - by destruct next.
Qed.

(** [operation_update] of the operation itself, with some job *)
Definition updated (s s' : RecoveryState) (id : string) : Prop :=
  exists o next j next_j, operation_update s s' o next j next_j /\ operation_id o = id.

Lemma activeRecoveryResource_Ok s id org r : activeRecoveryResource s id org = Ok r -> r ∈ resources s /\ rr_id r = id.
Proof. unfold activeRecoveryResource. intros H. unbind. apply found_Ok in H. by apply js_find_elem in H. Qed.

Section safety.
Context (dateParse : string -> option Z) (recoveryHash : string -> string).

Lemma fenceRecovery_Ok s input clock o j now : fenceRecovery dateParse recoveryHash s input clock = Ok (o, j, now) ->
  operation_in s o /\ operation_id o = cl_operationId (fence_claim input) /\ operation_kind o = cl_kind (fence_claim input)
  /\ j ∈ jobs s /\ rj_targetId j = operation_id o /\ rj_status j = "running" /\ rj_lockedBy j = Some (cl_workerId (fence_claim input))
  /\ rj_attempts j = fence_attempt input /\ status_of o ∈ ["RUNNING"; "VERIFYING"] /\ currentRecoverySource dateParse recoveryHash s o = Ok tt.
Proof.
  unfold fenceRecovery. intros H. unbind.
  repeat match goal with H : bool_decide _ = true |- _ => apply bool_decide_eq_true in H end.
  match goal with H : recoveryOperation _ _ = _ |- _ => apply recoveryOperation_Ok in H as (? & ? & ?) end.
  match goal with H : recoveryJob _ _ = _ |- _ => apply recoveryJob_Ok in H as (? & ?) end.
  match goal with H : (_ =? _) = true |- _ => apply Z.eqb_eq in H end.
  match goal with H : currentRecoverySource _ _ _ _ = Ok ?u |- _ => destruct u end.
  by split_and!.
Qed.

Lemma coherent_active o j : coherent o j -> status_of o ∈ ["QUEUED"; "RUNNING"; "VERIFYING"] -> 0 <= rj_attempts j <= 3.
Proof. by intros [? _]. Qed.

Lemma coherent_failed o next j job now : coherent o j -> status_of next = "FAILED" -> rj_attempts job = rj_attempts j ->
  coherent next (job <| rj_status := "failed" |> <| rj_lockedBy := None |> <| rj_lockedAt := None |> <| rj_updatedAt := now |>).
Proof.
  intros [Hj _] Hs Ha. unfold coherent. rewrite Hs. cbn. rewrite Ha. split_and!; [lia..|done| |done].
  intros H. exfalso. revert H. closed_fact.
Qed.

Lemma with_base_same f status o : (forall b, rc_id (f b) = rc_id b) -> same_operation o (with_base f status o).
Proof. intros H. destruct o; cbn; rewrite H; done. Qed.

Lemma with_base_status f status o : status_of (with_base f status o) = status.
Proof. by destruct o. Qed.

(** No settled restore and no available backup is changed by a step on an active operation. *)
Lemma active_not_settled r : rs_status r ∈ ["QUEUED"; "RUNNING"; "VERIFYING"] -> restore_settled r = false.
Proof.
  destruct r as [base bid src tgt status cleaned]. cbn [rs_status]. intros H. unfold restore_settled. cbn [rs_status].
  each_member H; reflexivity.
Qed.

Definition active : list string := ["QUEUED"; "RUNNING"; "VERIFYING"].
Definition unfinished : list string := ["QUEUED"; "RUNNING"; "VERIFYING"; "FAILED"; "CANCELLED"].

Lemma unfinished_facts st : st ∈ unfinished -> st ∉ available /\ st <> "DELETED".
Proof. intros H. each_member H; split; closed_fact. Qed.

Lemma active_unfinished st : st ∈ active -> st ∈ unfinished.
Proof. intros H. each_member H; closed_fact. Qed.

(** A step of an active operation that does not publish anything. *)
Lemma active_update s o next j next_j :
  recovery_ok s -> operation_in s o -> j ∈ jobs s -> rj_targetId j = operation_id o -> same_operation o next ->
  status_of o ∈ active -> status_of next ∈ unfinished ->
  rj_id next_j = rj_id j -> rj_targetId next_j = rj_targetId j -> rj_attempts j <= rj_attempts next_j ->
  (coherent o j -> coherent next next_j) ->
  (status_of next = status_of o \/ status_of next ∈ status_next (machine_of (operation_kind o)) (status_of o)) ->
  operation_update s (recoverySet next (Some next_j) s) o next j next_j.
Proof.
  intros Hok Ho Hj Hjt Hs Ha Hu Hji Hjt' Hja Hc Hst.
  apply plain_update; try done; [by destruct next|by destruct next|].
  destruct (unfinished_facts _ Hu) as [Hu1 Hu2]. destruct (unfinished_facts _ (active_unfinished _ Ha)) as [Ha1 Ha2].
  destruct o as [b|r], next as [n|n]; try done; cbn in *.
  - split; [|by intros]. destruct Hs as [Hid Hr]. by apply (backup_ok_change b n); [apply Hok|..].
  - by rewrite active_not_settled.
Qed.

Lemma claim_status st : st ∈ active -> let st' := if decide (st = "QUEUED") then "RUNNING" else st in
  st' ∈ ["RUNNING"; "VERIFYING"] /\ forall k, st' = st \/ st' ∈ status_next (machine_of k) st.
Proof. intros H. each_member H; (split; [closed_fact|]); intros []; first [by left|right; closed_fact]. Qed.

Lemma failed_next k st : st ∈ active -> "FAILED" ∈ status_next (machine_of k) st.
Proof. intros H. each_member H; destruct k; closed_fact. Qed.

Lemma running_coherent next j : status_of next ∈ ["RUNNING"; "VERIFYING"] -> 0 <= rj_attempts j <= 3 ->
  rj_status j ∈ ["queued"; "running"] -> coherent next j.
Proof.
  intros Hs Ha Hj. unfold coherent. split_and!; [lia..| |done|].
  - intros E. rewrite E in Hs. exfalso. revert Hs. closed_fact.
  - intros Hn. destruct Hn. set_unfold. naive_solver.
Qed.

Lemma claimRecovery_update s input clock r s' :
  recovery_ok s -> claimRecovery dateParse recoveryHash input clock s = (Ok r, s') ->
  updated s s' (cl_operationId input).
Proof.
  intros Hok H. unfold claimRecovery in H. returns_in H. apply recoveryOperation_Ok in L as (Ho & Hid & Hk).
  apply recoveryJob_Ok in L0 as [Hj Hjt]. 
  assert (status_of x ∈ active) as Hact by (bool_facts; done).
  destruct (_ || _ || _) eqn:E; returns_in H; subst s'; eexists x, _, x0, _; (split; [|exact Hid]); apply active_update; try done.
  - by apply with_base_same.
  - rewrite with_base_status. closed_fact.
  - intros Hc. apply (coherent_failed x _ x0 x0 x1 Hc); [apply with_base_status|done].
  - right. rewrite with_base_status. by apply failed_next.
  - by apply with_base_same.
  - rewrite with_base_status. apply active_unfinished. destruct (claim_status _ Hact) as [Hs _]. set_unfold. naive_solver.
  - cbn. lia.
  - intros [Hc _]. apply orb_false_iff in E as [[_ E%Z.leb_gt]%orb_false_iff _]. apply running_coherent.
    + rewrite with_base_status. by apply claim_status.
    + cbn. lia.
    + cbn. closed_fact.
  - rewrite with_base_status. by apply claim_status.
Qed.

(** *** Attempts *)

Lemma insert_keys {A B} (key : A -> B) (l : list A) (i : nat) x y : l !! i = Some x -> key y = key x -> key <$> <[i := y]> l = key <$> l.
Proof.
  intros Hi Hk. rewrite list_fmap_insert. apply list_insert_id. rewrite list_lookup_fmap, Hi. cbn. by rewrite Hk.
Qed.

Lemma elem_of_insert_either {A} (l : list A) (i : nat) x y a : l !! i = Some x -> a ∈ <[i := y]> l -> a = y \/ a ∈ l.
Proof.
  intros Hi Ha. apply list_elem_of_lookup in Ha as [k Hk]. destruct (decide (i = k)) as [-> |Hne].
  - rewrite list_lookup_insert_eq in Hk by (by eapply lookup_lt_Some). injection Hk as ->. by left.
  - rewrite list_lookup_insert_ne in Hk by done. right. by eapply list_elem_of_lookup_2.
Qed.

Lemma elem_of_insert_other {A} (l : list A) (i : nat) x y a : l !! i = Some x -> a ∈ l -> a <> x -> a ∈ <[i := y]> l.
Proof.
  intros Hi Ha Hne. apply list_elem_of_lookup in Ha as [k Hk]. apply list_elem_of_lookup. exists k.
  rewrite list_lookup_insert_ne; [done|]. intros <-. congruence.
Qed.

Lemma attempt_at_Some s id n i row : attempt_at s id n = Some (i, row) ->
  attempts s !! i = Some row /\ at_backupId row = id /\ at_attempt row = n.
Proof. unfold attempt_at. intros (Hi & [Hb Hn] & _)%list_find_Some. done. Qed.

Lemma attempt_at_None s id n : attempt_at s id n = None -> (id, n) ∉ attempt_key <$> attempts s.
Proof.
  unfold attempt_at. rewrite list_find_None, Forall_forall. intros H (a & [= -> ->] & Ha)%list_elem_of_fmap. by destruct (H a Ha).
Qed.

(** An operation with attempts is a backup. *)
Lemma attempt_backup s o n i row : recovery_ok s -> operation_in s o -> attempt_at s (operation_id o) n = Some (i, row) ->
  exists b, o = OfBackup b.
Proof.
  intros Hok Ho (Hi & Hb & _)%attempt_at_Some. destruct o as [b|r]; [by exists b|exfalso].
  apply list_elem_of_lookup_2 in Hi. pose proof (ok_attempt_owner s Hok row Hi) as Hown. rewrite Hb in Hown.
  pose proof (ok_ids s Hok) as Hn. apply NoDup_app in Hn as (_ & Hd & _). apply (Hd _ Hown).
  by apply (list_elem_of_fmap_2 (fun x => rc_id (rs_base x))).
Qed.

(** A step that rewrites one attempt of a backup that is being taken. *)
Lemma row_update s s' b n next j next_j i row row' :
  recovery_ok s -> b ∈ backups s -> bk_status b ∈ active -> j ∈ jobs s -> rj_targetId j = rc_id (bk_base b) ->
  attempt_at s (rc_id (bk_base b)) n = Some (i, row) -> attempt_key row' = attempt_key row -> attempt_wf row' ->
  at_state row' <> CLEANED -> at_cleanupPending row' = at_cleanupPending row ->
  same_operation (OfBackup b) (OfBackup next) -> bk_status next <> "DELETED" -> (bk_status next ∈ available -> artifact_of next row') ->
  rj_id next_j = rj_id j -> rj_targetId next_j = rj_targetId j -> rj_attempts j <= rj_attempts next_j ->
  (coherent (OfBackup b) j -> coherent (OfBackup next) next_j) ->
  (bk_status next = bk_status b \/ bk_status next ∈ status_next machine_backup (bk_status b)) ->
  backups s' = map (set_backup next) (backups s) -> restores s' = restores s -> jobs s' = map (set_job next_j) (jobs s) ->
  attempts s' = <[i := row']> (attempts s) -> pins s' = pins s ->
  operation_update s s' (OfBackup b) (OfBackup next) j next_j.
Proof.
  intros Hok Hb Ha Hj Hjt Hat Hkey Hwf Hcl Hpend Hsame Hdel Hart Hji Hjt' Hja Hc Hst E1 E2 E3 E4 E5.
  apply attempt_at_Some in Hat as (Hi & Hrb & Hrn). pose proof (list_elem_of_lookup_2 _ _ _ Hi) as Hrow.
  destruct (unfinished_facts _ (active_unfinished _ Ha)) as [Ha1 Ha2].
  assert (at_backupId row' = at_backupId row) as Hbid by (by injection Hkey).
  constructor; try done.
  - rewrite E4, (insert_keys _ _ _ row); [apply Hok|done|done].
  - intros a. rewrite E4. intros [-> |?]%(elem_of_insert_either _ _ row); [done|by apply Hok|done].
  - intros a. rewrite E4. intros [-> |?]%(elem_of_insert_either _ _ row); [right|by left|done].
    rewrite Hbid. by apply (ok_attempt_owner s Hok).
  - intros a Hne. unfold operation_id in Hne. cbn in Hne. rewrite E4. split.
    + intros [-> |?]%(elem_of_insert_either _ _ row); [congruence|done|done].
    + intros Hin. apply (elem_of_insert_other _ _ row); [done|done|]. intros ->. congruence.
  - by rewrite E5.
  - by rewrite E5.
  - by rewrite E5.
  - destruct Hsame as [Hid Hr]. destruct (ok_backups s Hok b Hb) as [_ Hp Hk _]. rewrite E4, E5. constructor.
    + intros Hav. exists row'. split; [|by apply Hart]. apply list_elem_of_lookup. exists i.
      apply list_lookup_insert_eq. by eapply lookup_lt_Some.
    + intros _. rewrite Hid, Hr. by apply Hp.
    + intros _ a [-> |Hin]%(elem_of_insert_either _ _ row) Hab; [| |done].
      * split; [done|]. rewrite Hpend. apply (Hk Ha2 row Hrow). congruence.
      * apply (Hk Ha2 a Hin). congruence.
    + done.
Qed.

(** A step that opens an attempt of a backup that is being taken. *)
Lemma append_update s s' b n j new :
  recovery_ok s -> b ∈ backups s -> bk_status b ∈ active -> j ∈ jobs s -> rj_targetId j = rc_id (bk_base b) ->
  attempt_at s (rc_id (bk_base b)) n = None -> attempt_key new = (rc_id (bk_base b), n) -> attempt_wf new ->
  at_state new <> CLEANED -> at_cleanupPending new = true ->
  backups s' = map (set_backup b) (backups s) -> restores s' = restores s -> jobs s' = map (set_job j) (jobs s) ->
  attempts s' = attempts s ++ [new] -> pins s' = pins s ->
  operation_update s s' (OfBackup b) (OfBackup b) j j.
Proof.
  intros Hok Hb Ha Hj Hjt Hat%attempt_at_None Hkey Hwf Hcl Hpend E1 E2 E3 E4 E5.
  destruct (unfinished_facts _ (active_unfinished _ Ha)) as [Ha1 Ha2].
  assert (at_backupId new = rc_id (bk_base b)) as Hbid by (by injection Hkey).
  constructor; try done; try (by rewrite E5); try (by left).
  - rewrite E4, fmap_app. apply NoDup_app. split_and!; [apply Hok| |apply NoDup_singleton].
    intros k Hk. cbn. rewrite list_elem_of_singleton. intros E. by rewrite E, Hkey in Hk.
  - intros a. rewrite E4. intros [?|Hx%list_elem_of_singleton]%elem_of_app; [|subst a]; [by apply Hok|done].
  - intros a. rewrite E4. intros [?|Hx%list_elem_of_singleton]%elem_of_app; [|subst a]; [by left|right].
    rewrite Hbid. by apply (list_elem_of_fmap_2 (fun x => rc_id (bk_base x))).
  - intros a Hne. rewrite E4, elem_of_app, list_elem_of_singleton. split; [|by left]. intros [?|Hx]; [done|]. subst a. by destruct Hne.
  - destruct (ok_backups s Hok b Hb) as [_ Hp Hk _]. rewrite E4, E5. constructor; [done..|done| |done].
    intros _ a [Hin|Hx%list_elem_of_singleton]%elem_of_app Hab; [|subst a]; [by apply Hk|done].
Qed.

Lemma coherent_same o j j' : rj_attempts j' = rj_attempts j -> rj_status j' = rj_status j -> coherent o j -> coherent o j'.
Proof. intros Ha Hs. unfold coherent, job_finished. by rewrite Ha, Hs. Qed.

Lemma running_active st : st ∈ ["RUNNING"; "VERIFYING"] -> st ∈ active.
Proof. intros H. each_member H; closed_fact. Qed.

Lemma same_operation_refl o : same_operation o o.
Proof. by destruct o. Qed.

Lemma succeeded_coherent next j : status_of next = "READY" -> 0 <= rj_attempts j <= 3 -> rj_status j = "succeeded" -> coherent next j.
Proof.
  intros Hs Ha Hj. unfold coherent, job_finished. rewrite Hs, Hj. split_and!; [lia..|done| |].
  - intros H. exfalso. revert H. closed_fact.
  - intros _. reflexivity.
Qed.

Lemma recoveryObjectKey_attempt org res id n key : recoveryObjectKey org res id n = Ok key -> 1 <= n <= 3.
Proof. unfold recoveryObjectKey. intros H. unbind. lia. Qed.

(** The row of an attempt that a worker may still change *)
Lemma open_attempt s b n i row : recovery_ok s -> b ∈ backups s -> bk_status b ∈ active ->
  attempt_at s (rc_id (bk_base b)) n = Some (i, row) -> attempt_wf row /\ at_cleanupPending row = true.
Proof.
  intros Hok Hb Ha (Hi & Hid & _)%attempt_at_Some. apply list_elem_of_lookup_2 in Hi. split; [by apply Hok|].
  destruct (unfinished_facts _ (active_unfinished _ Ha)) as [_ Hd]. by apply (bo_kept _ _ _ (ok_backups s Hok b Hb) Hd row Hi Hid).
Qed.

(** A restore ends and releases its pins. *)
Lemma settle_update s s' r n j next_j :
  recovery_ok s -> r ∈ restores s -> j ∈ jobs s -> rj_targetId j = rc_id (rs_base r) -> same_operation (OfRestore r) (OfRestore n) ->
  restore_settled n = true -> rj_id next_j = rj_id j -> rj_targetId next_j = rj_targetId j -> rj_attempts j <= rj_attempts next_j ->
  (coherent (OfRestore r) j -> coherent (OfRestore n) next_j) ->
  (rs_status n = rs_status r \/ rs_status n ∈ status_next machine_restore (rs_status r)) ->
  backups s' = backups s -> restores s' = map (set_restore n) (restores s) -> jobs s' = map (set_job next_j) (jobs s) ->
  attempts s' = attempts s -> pins s' = filter (fun row => pin_restoreId row <> Some (rc_id (rs_base r))) (pins s) ->
  operation_update s s' (OfRestore r) (OfRestore n) j next_j.
Proof.
  intros Hok Hr Hj Hjt Hs Hset Hji Hjt' Hja Hc Hst E1 E2 E3 E4 E5. constructor; try done; try (rewrite E4; apply Hok).
  - rewrite E4. by left.
  - by rewrite E4.
  - intros p. rewrite E5. by intros [_ ?]%list_elem_of_filter.
  - intros p Hp Hk _. rewrite E5. apply list_elem_of_filter. split; [|done]. by rewrite (ok_source_pins s Hok p Hp Hk).
  - intros p Hp Hk Hne. rewrite E5. by apply list_elem_of_filter.
  - cbn. by rewrite Hset.
Qed.

Section worker.
Context (s s' : RecoveryState) (input : RecoveryFence) (clock : Z) (r : RecoveryOperation * RecoveryJob).
Hypothesis Hok : recovery_ok s.

Lemma mutate_job mutation :
  mutation = heartbeat \/ mutation = retry_ \/ (exists code_, mutation = fail_ code_) \/ mutation = verify ->
  mutateRecovery dateParse recoveryHash input mutation clock s = (Ok r, s') -> updated s s' (cl_operationId (fence_claim input)).
Proof.
  intros Hm H. unfold mutateRecovery in H. returns_in H. destruct x as [[o j] now].
  apply fenceRecovery_Ok in L as (Ho & Hid & Hk & Hj & Hjt & Hjs & Hjl & Hja & Hst & _). pose proof (running_active _ Hst) as Hact.
  destruct Hm as [Hm|[Hm|[[code_ Hm]|Hm]]]; subst mutation; returns_in H; subst s'; eexists o, _, j, _; (split; [|exact Hid]); apply active_update; try done.
  all: try apply same_operation_refl; try (by apply active_unfinished); try (by left); try (cbn; lia).
  - intros [Hc _]. apply running_coherent; [done|done|closed_fact].
  - by apply with_base_same.
  - rewrite with_base_status. closed_fact.
  - intros Hc. apply (coherent_failed o _ j j now Hc); [apply with_base_status|done].
  - right. rewrite with_base_status. by apply failed_next.
  - by apply with_base_same.
  - unfold set_status. rewrite with_base_status. closed_fact.
  - intros [Hc _]. apply running_coherent; [|done|rewrite Hjs; closed_fact]. unfold set_status. rewrite with_base_status. closed_fact.
  - right. unfold set_status. rewrite with_base_status, Hk. by apply recoveryTransition_Ok in L as [_ ?].
Qed.

Lemma mutate_intent keyVersion :
  mutateRecovery dateParse recoveryHash input (intent keyVersion) clock s = (Ok r, s') -> updated s s' (cl_operationId (fence_claim input)).
Proof.
  intros H. unfold mutateRecovery in H. returns_in H. destruct x as [[o j] now].
  apply fenceRecovery_Ok in L as (Ho & Hid & Hk & Hj & Hjt & Hjs & Hjl & Hja & Hst & _). pose proof (running_active _ Hst) as Hact.
  destruct o as [b|rs]; [|done]. destruct (rc_startedAt (bk_base b)) as [startedAt|]; [|done]. returns_in H.
  apply bind_returns in H as (u & s1 & H1 & H). returns_in H. subst s'. exists (OfBackup b), (OfBackup b), j, j. split; [|exact Hid].
  destruct (attempt_at s (rc_id (base_of (OfBackup b))) (fence_attempt input)) as [[i row]|] eqn:E.
  - apply ret_returns in H1 as [_ <-]. apply active_update; try done. by apply active_unfinished. by left.
  - returns_in H1. injection H1 as _ <-. eapply append_update; try done; try done.
    apply recoveryObjectKey_attempt in L. unfold attempt_wf. cbn. split_and!; [lia..| |]; intros Hin; exfalso; revert Hin; closed_fact.
Qed.

(** The mutations that rewrite the attempt of the worker. *)
Lemma mutate_row mutation :
  (exists u, mutation = upload u) \/ (exists a b c, mutation = candidate a b c) \/ mutation = complete ->
  mutateRecovery dateParse recoveryHash input mutation clock s = (Ok r, s') -> updated s s' (cl_operationId (fence_claim input)).
Proof.
  intros Hm H. unfold mutateRecovery in H. returns_in H. destruct x as [[o j] now].
  apply fenceRecovery_Ok in L as (Ho & Hid & Hk & Hj & Hjt & Hjs & Hjl & Hja & Hst & _). pose proof (running_active _ Hst) as Hact.
  destruct (attempt_at s (rc_id (base_of o)) (fence_attempt input)) as [[i row]|] eqn:E.
  2: { by destruct Hm as [(u & ->)|[(a & b & c & ->)|Hm]]; [..|subst]. }
  destruct (attempt_backup s o _ i row Hok Ho E) as [b ->]. destruct (open_attempt s b _ i row Hok Ho Hact E) as [(Hw1 & Hw2 & Hw3) Hpend].
  destruct (unfinished_facts _ (active_unfinished _ Hact)) as [Hav Hdel].
  exists (OfBackup b), (OfBackup b), j, j. split; [|exact Hid].
  destruct Hm as [(u & ->)|[(stored & plain & checksum & ->)|Hm]]; [..|subst mutation]; returns_in H; subst s';
    (eapply row_update; [..|reflexivity|reflexivity]); try done; try (by left); bool_facts.
  - unfold attempt_wf. cbn. split_and!; [lia..| |].
    + intros _. by destruct u.
    + intros Hin. exfalso. revert Hin. closed_fact.
  - unfold attempt_wf. cbn. split_and!; [lia..| |].
    + intros _. apply Hw2. set_unfold. naive_solver.
    + intros _. exists stored, plain, checksum. split_and!; try done; by apply Z.ltb_ge.
  - unfold attempt_wf. cbn. split_and!; [lia..| |]; intros _; [apply Hw2|apply Hw3];
    match goal with Hst : at_state row = PREPARED |- _ => rewrite Hst end; closed_fact.
Qed.

Lemma mutate_ready artifact :
  mutateRecovery dateParse recoveryHash input (ready artifact) clock s = (Ok r, s') -> updated s s' (cl_operationId (fence_claim input)).
Proof.
  intros H. unfold mutateRecovery in H. returns_in H. destruct x as [[o j] now].
  apply fenceRecovery_Ok in L as (Ho & Hid & Hk & Hj & Hjt & Hjs & Hjl & Hja & Hst & _). pose proof (running_active _ Hst) as Hact.
  returns_in H. apply recoveryTransition_Ok in L as [_ Hnext]. rewrite <- Hk in Hnext. destruct o as [b|rs].
  - destruct (attempt_at s (rc_id (base_of (OfBackup b))) (fence_attempt input)) as [[i row]|] eqn:E; [|done].
    destruct artifact as [a|]; [|done]. returns_in H. subst s'. bool_facts.
    destruct (open_attempt s b _ i row Hok Ho Hact E) as [(Hw1 & Hw2 & Hw3) Hpend]. apply attempt_at_Some in E as E'.
    eexists (OfBackup b), (OfBackup _), j, _. split; [|exact Hid].
    (eapply (row_update s _ b (fence_attempt input) _ j _ i row); [..|reflexivity|reflexivity|reflexivity|reflexivity|reflexivity]); try done.
    + unfold attempt_wf. cbn. split_and!; [lia..| |]; intros _; [apply Hw2|apply Hw3];
        match goal with Hc : at_state row = COMPLETE |- _ => rewrite Hc end; closed_fact.
    + intros _. unfold artifact_of. cbn. destruct E' as (_ & Hb & Hn). split_and!; try done; congruence.
    + intros [Hc _]. by apply succeeded_coherent.
    + by right.
  - returns_in H. subst s'. eexists (OfRestore rs), (OfRestore _), j, _. split; [|exact Hid].
    (eapply settle_update; [..|reflexivity|reflexivity|reflexivity|reflexivity|reflexivity]); try done.
    + intros [Hc _]. by apply succeeded_coherent.
    + by right.
Qed.

Lemma mutateRecovery_update mutation :
  mutateRecovery dateParse recoveryHash input mutation clock s = (Ok r, s') -> updated s s' (cl_operationId (fence_claim input)).
Proof.
  destruct mutation.
  - apply mutate_job. by left.
  - apply mutate_job. by right; right; right.
  - apply mutate_ready.
  - apply mutate_job. right; right; left. by eexists.
  - apply mutate_job. by right; left.
  - apply mutate_intent.
  - apply mutate_row. right; left. by do 3 eexists.
  - apply mutate_row. left. by eexists.
  - apply mutate_row. by right; right.
Qed.

End worker.

(** *** Cancellation, expiry and cleanup *)

Lemma status_next_known m from to : to ∈ status_next m from -> from ∈ map_keys (states m).
Proof.
  unfold status_next. destruct (map_get from (states m)) as [st|] eqn:E; [|by intros ?%not_elem_of_nil].
  intros _. destruct (decide (from ∈ map_keys (states m))) as [|Hn]; [done|]. apply map_get_None in Hn. congruence.
Qed.

Lemma cancelled_from st : "CANCELLED" ∈ status_next machine_restore st -> st ∈ active.
Proof. intros H. pose proof (status_next_known _ _ _ H) as Hk. each_member Hk; revert H; closed_fact. Qed.

Lemma finished_coherent next j : status_of next ∉ active -> 0 <= rj_attempts j <= 3 -> job_finished j = true -> coherent next j.
Proof.
  intros Hs Ha Hj. unfold coherent. split_and!; [lia..| | |done].
  - intros E. destruct Hs. rewrite E. closed_fact.
  - intros H. destruct Hs. set_unfold. naive_solver.
Qed.

Lemma cancelRecoveryRestore_update s scope id now clock r s' :
  recovery_ok s -> cancelRecoveryRestore dateParse scope id now clock s = (Ok r, s') -> updated s s' id.
Proof.
  intros Hok H. unfold cancelRecoveryRestore in H. returns_in H. subst s'.
  match goal with L : found _ _ = Ok ?x |- _ => apply found_Ok, restore_in_Some in L as [Hr Hid]; rename x into rs end.
  match goal with L : recoveryTransition _ _ _ = _ |- _ => apply recoveryTransition_Ok in L as [_ Hn] end.
  match goal with L : recoveryJob _ _ = _ |- _ => apply recoveryJob_Ok in L as [Hj Hjt] end.
  eexists (OfRestore rs), _, _, _. split; [|exact Hid]. apply active_update; try done.
  - by apply cancelled_from.
  - cbn. closed_fact.
  - intros [Hc _]. apply finished_coherent; [closed_fact|done|reflexivity].
  - by right.
Qed.

(** A step that changes only the row of an operation. *)
Lemma row_only s o next j :
  recovery_ok s -> operation_in s o -> recoveryJob s (operation_id o) = Ok j -> same_operation o next ->
  (coherent o j -> coherent next j) ->
  (status_of next = status_of o \/ status_of next ∈ status_next (machine_of (operation_kind o)) (status_of o)) ->
  match o, next with
  | OfBackup b, OfBackup n => backup_ok n (attempts s) (pins s)
      /\ (bk_status b ∈ available -> bk_status n ∈ available \/ restore_pinned s (operation_id o) = false)
  | OfRestore r, OfRestore n => restore_settled r = true -> restore_settled n = true
  | _, _ => False
  end -> operation_update s (recoverySet next None s) o next j j.
Proof.
  intros Hok Ho Hjob Hs Hc Hst Hm. apply recoveryJob_Ok in Hjob as [Hj Hjt]. apply plain_update; try done; try lia.
  - split_and!; [by destruct next..|]. rewrite recoverySet_jobs, set_job_same; [by destruct next|apply Hok|done].
  - by destruct next.
  - by destruct next.
Qed.

Lemma job_exists s o : recovery_ok s -> operation_in s o -> exists j, recoveryJob s (operation_id o) = Ok j /\ coherent o j.
Proof.
  intros Hok Ho. destruct (ok_jobs s Hok o Ho) as (j & Hj & Hjt & Hc). unfold recoveryJob.
  destruct (js_find _ (jobs s)) as [k|] eqn:E.
  - exists k. split; [done|]. apply js_find_elem in E as [Hk Hkt].
    assert (k = j) as -> by (apply (nodup_map_inj rj_targetId (jobs s)); [apply Hok|done|done|congruence]). done.
  - apply js_find_None in E. rewrite Forall_forall in E. by destruct (E j Hj).
Qed.

Lemma expired_next st : "EXPIRED" ∈ status_next machine_backup st -> st = "READY".
Proof. intros H. pose proof (status_next_known _ _ _ H) as Hk. each_member Hk; first [done|revert H; closed_fact]. Qed.

Lemma expireRecoveryBackup_update s org id now clock r s' :
  recovery_ok s -> expireRecoveryBackup dateParse org id now clock s = (Ok r, s') -> updated s s' id.
Proof.
  intros Hok H. unfold expireRecoveryBackup in H. returns_in H. subst s'.
  match goal with L : recoveryBackup _ _ _ = Ok ?x |- _ => apply recoveryBackup_Ok in L as [Hb Hid]; rename x into b end.
  match goal with L : recoveryTransition _ _ _ = _ |- _ => apply recoveryTransition_Ok in L as [_ Hn] end.
  apply expired_next in Hn as Hst. destruct (job_exists s (OfBackup b) Hok Hb) as (j & Hjob & Hc).
  eexists (OfBackup b), (OfBackup _), j, j. split; [|exact Hid]. apply row_only; try done.
  - intros (Ha & _ & _ & Hf). apply finished_coherent; [closed_fact|done|]. apply Hf. cbn. rewrite Hst. closed_fact.
  - by right.
  - split; [|intros _; left; cbn; closed_fact]. apply (backup_ok_change b); [by apply Hok|done|done|..]; cbn; rewrite Hst.
    + intros _. split; [closed_fact|]. intros a Ha. exact Ha.
    + done.
Qed.

Definition deletable : list string := ["FAILED"; "EXPIRED"; "DELETING"].

(** A backup is on its way out. *)
Lemma deleting_update s b f j :
  recovery_ok s -> b ∈ backups s -> recoveryJob s (rc_id (bk_base b)) = Ok j -> (forall x, rc_id (f x) = rc_id x) ->
  bk_status b ∈ ["READY"; "FAILED"; "EXPIRED"; "DELETING"] -> restore_pinned s (rc_id (bk_base b)) = false ->
  operation_update s (recoverySet (with_base f "DELETING" (OfBackup b)) None s) (OfBackup b) (with_base f "DELETING" (OfBackup b)) j j.
Proof.
  intros Hok Hb Hj Hf Hst Hp.
  assert (bk_status b ∉ active /\ bk_status b <> "DELETED" /\ (bk_status b = "DELETING" \/ "DELETING" ∈ status_next machine_backup (bk_status b)))
    as (Hs1 & Hs2 & Hs3).
  { clear -Hst. revert Hst. generalize (bk_status b). intros st Hst. each_member Hst; split_and!; try closed_fact;
      first [by left|right; closed_fact]. }
  apply row_only; try done.
  - by apply with_base_same.
  - intros (Ha & _ & _ & Hfin). apply finished_coherent; [closed_fact|done|by apply Hfin].
  - cbn. destruct Hs3; [by left|by right].
  - split; [|by right]. cbn [with_base]. apply (backup_ok_change b); [by apply Hok|cbn; by rewrite Hf|done|..]; cbn.
    + intros H. exfalso. revert H. closed_fact.
    + split; [intros H; exfalso; revert H; closed_fact|done].
Qed.

Lemma claimRecoveryCleanup_update s input token clock r s' :
  recovery_ok s -> claimRecoveryCleanup dateParse input token clock s = (Ok r, s') -> updated s s' (cl_operationId input).
Proof.
  intros Hok H. unfold claimRecoveryCleanup in H. returns_in H. subst s'.
  match goal with L : recoveryOperation _ _ = Ok ?x |- _ => apply recoveryOperation_Ok in L as (Ho & Hid & Hk); rename x into o end.
  match goal with L : recoveryJob _ _ = Ok ?x |- _ => rename x into j; rename L into Hj end.
  set (f := fun x => x <| rc_cleanupToken := Some token |> <| rc_cleanupWorker := Some (cl_workerId input) |>
                         <| rc_cleanupLeaseUntil := Some (x0 + lease_ms) |> <| rc_updatedAt := x0 |>).
  destruct o as [b|rs]; unbind; bool_facts.
  - exists (OfBackup b), (with_base f "DELETING" (OfBackup b)), j, j. split; [|exact Hid].
    apply (deleting_update s b f j); try done.
    match goal with Hs : bk_status b ∈ _ |- _ => clear -Hs; set_unfold; naive_solver end.
  - exists (OfRestore rs), (with_base f (rs_status rs) (OfRestore rs)), j, j. split; [|exact Hid].
    apply (row_only s (OfRestore rs) (with_base f (rs_status rs) (OfRestore rs)) j); try done; [by left|exact (fun H => H)].
Qed.

Lemma requestBackupDeletion_update s scope id input now clock r s' :
  recovery_ok s -> requestBackupDeletion dateParse scope id input now clock s = (Ok r, s') -> s' = s \/ updated s s' id.
Proof.
  intros Hok H. unfold requestBackupDeletion in H. returns_in H. unfold transact in H.
  match type of H with match ?m with _ => _ end = _ => destruct m as [[v|e] s1] eqn:E end; [|done]. injection H as _ <-.
  returns_in E. apply found_Ok, backup_in_Some in L0 as [Hb Hid].
  case_decide; [left; by injection E|right]. returns_in E. subst s1. bool_facts.
  destruct (job_exists s (OfBackup x0) Hok Hb) as (j & Hj & _).
  pose proof (deleting_update s x0 (fun b => b <| rc_updatedAt := x3 |>) j Hok Hb Hj ltac:(done)) as Hup.
  eexists (OfBackup x0), _, j, j. split; [|exact Hid]. eapply operation_update_ext; [apply Hup; [|done]|done..].
  clear -G. set_unfold. naive_solver.
Qed.

Lemma deleted_next st : "DELETED" ∈ status_next machine_backup st -> st = "DELETING".
Proof. intros H. pose proof (status_next_known _ _ _ H) as Hk. each_member Hk; first [done|revert H; closed_fact]. Qed.

Lemma clean_attempt_wf id now a : attempt_wf a -> attempt_wf (clean_attempt id now a).
Proof.
  intros (H1 & H2 & H3). unfold clean_attempt. case_decide; [|done]. unfold attempt_wf. cbn. split_and!; [lia..| |];
    intros Hin; exfalso; revert Hin; closed_fact.
Qed.

Lemma clean_attempt_key id now a : attempt_key (clean_attempt id now a) = attempt_key a.
Proof. unfold clean_attempt. by case_decide. Qed.

Lemma cleaned_update s s' b n j now :
  recovery_ok s -> b ∈ backups s -> recoveryJob s (rc_id (bk_base b)) = Ok j -> same_operation (OfBackup b) (OfBackup n) ->
  bk_status b = "DELETING" -> bk_status n = "DELETED" -> restore_pinned s (rc_id (bk_base b)) = false ->
  backups s' = map (set_backup n) (backups s) -> restores s' = restores s -> jobs s' = jobs s ->
  attempts s' = map (clean_attempt (rc_id (bk_base b)) now) (attempts s) ->
  pins s' = filter (fun row => pin_backupId row <> rc_id (bk_base b)) (pins s) ->
  operation_update s s' (OfBackup b) (OfBackup n) j j.
Proof.
  intros Hok Hb Hjob Hs Hst Hn Hpin E1 E2 E3 E4 E5. apply recoveryJob_Ok in Hjob as [Hj Hjt].
  constructor; try done; try lia.
  - intros (Ha & _ & _ & Hf). apply finished_coherent; cbn; [rewrite Hn; closed_fact|done|]. apply Hf. cbn. rewrite Hst. closed_fact.
  - right. cbn. rewrite Hst, Hn. closed_fact.
  - split_and!; [done..|]. rewrite recoverySet_jobs, set_job_same, E3; [done|apply Hok|done].
  - rewrite E4. change (attempt_key <$> map _ (attempts s)) with (map attempt_key (map (clean_attempt (rc_id (bk_base b)) now) (attempts s))).
    rewrite map_map, (map_ext _ attempt_key); [apply Hok|]. intros a. apply clean_attempt_key.
  - intros a. rewrite E4. intros (a' & -> & Ha)%list_elem_of_fmap. by apply clean_attempt_wf, Hok.
  - intros a. rewrite E4. intros (a' & -> & Ha)%list_elem_of_fmap. right.
    replace (at_backupId (clean_attempt _ _ a')) with (at_backupId a') by (unfold clean_attempt; by case_decide). by apply Hok.
  - intros a Hne. rewrite E4. unfold operation_id in Hne. cbn in Hne. split.
    + intros (a' & -> & Ha)%list_elem_of_fmap. unfold clean_attempt in *. by case_decide.
    + intros Ha. apply list_elem_of_fmap. exists a. split; [|done]. unfold clean_attempt. by rewrite decide_False.
  - intros p. rewrite E5. by intros [_ ?]%list_elem_of_filter.
  - intros p Hp Hk Hne. rewrite E5. by apply list_elem_of_filter.
  - intros p Hp Hk _. rewrite E5. apply list_elem_of_filter. split; [|done]. intros Hpb.
    apply not_true_iff_false in Hpin. apply Hpin, existsb_exists. exists p. split; [by apply list_elem_of_In|].
    by rewrite Hk, bool_decide_true.
  - intros _ Hav. exfalso. cbn in Hav. rewrite Hst in Hav. revert Hav. closed_fact.
  - destruct Hs as [Hid Hr]. rewrite E4. constructor; rewrite ?Hn; try done.
    + intros Hav. exfalso. revert Hav. closed_fact.
    + intros _ a (a' & -> & Ha)%list_elem_of_fmap Hab. rewrite Hid in Hab. unfold clean_attempt in *. by case_decide.
Qed.

Lemma finishRecoveryCleanup_update s input token clock r s' :
  recovery_ok s -> finishRecoveryCleanup dateParse input token clock s = (Ok r, s') -> updated s s' (cl_operationId input).
Proof.
  intros Hok H. unfold finishRecoveryCleanup in H. returns_in H.
  match goal with L : recoveryOperation _ _ = Ok ?x |- _ => apply recoveryOperation_Ok in L as (Ho & Hid & Hk); rename x into o end.
  match goal with L : recoveryJob _ _ = Ok ?x |- _ => rename x into j; rename L into Hj end.
  destruct o as [b|rs]; returns_in H; subst s'.
  - match goal with L : recoveryTransition _ _ _ = _ |- _ => apply recoveryTransition_Ok in L as [_ Hn] end. apply deleted_next in Hn.
    eexists (OfBackup b), (OfBackup _), j, j. split; [|exact Hid].
    (eapply cleaned_update; [..|reflexivity|reflexivity|reflexivity|reflexivity|reflexivity]); done.
  - apply recoveryJob_Ok in Hj as [Hj Hjt]. eexists (OfRestore rs), (OfRestore _), j, j. split; [|exact Hid].
    (eapply (settle_update s _ rs _ j j); [..|reflexivity|reflexivity| |reflexivity|reflexivity]); try done; try lia.
    + cbn. unfold restore_settled. bool_facts. cbn. rewrite (bool_decide_true (rs_status rs ∈ _)) by done. by rewrite orb_true_r.
    + by left.
    + symmetry. exact (set_job_same s j (ok_job_ids s Hok) Hj).
Qed.

(** *** Creation *)

Definition new_id (kind : RecoveryKind) (uuids : Uuids) : string := kind_text kind +:+ "_" +:+ uuid_operation uuids.

(** Random identifiers that are not in use. *)
Definition fresh (s : RecoveryState) (kind : RecoveryKind) (uuids : Uuids) : Prop :=
  new_id kind uuids ∉ backup_ids s ++ restore_ids s /\ new_id kind uuids ∉ rj_targetId <$> jobs s
  /\ rj_id (recovery_job recoveryHash kind (new_id kind uuids) 0) ∉ rj_id <$> jobs s.

Lemma backup_ok_pins b rows ps ps' : backup_ok b rows ps -> (forall p, p ∈ ps -> p ∈ ps') -> backup_ok b rows ps'.
Proof. intros [H1 H2 H3 H4] Hp. constructor; try done. intros Hn. destruct (H2 Hn) as (p & ? & ?). exists p. auto. Qed.

Lemma restore_ok_mono r bs bs' ps ps' : restore_ok r bs ps -> (forall b, b ∈ bs -> b ∈ bs') -> (forall p, p ∈ ps -> p ∈ ps') -> restore_ok r bs' ps'.
Proof.
  intros H Hb Hp Hs. destruct (H Hs) as [(b & ? & ?) (p & ? & ?)]. split; [exists b|exists p]; auto.
Qed.

Lemma nodup_snoc {A} (l : list A) x : NoDup l -> x ∉ l -> NoDup (l ++ [x]).
Proof. intros Hl Hx. apply NoDup_app. split_and!; [done| |apply NoDup_singleton]. intros y Hy ->%list_elem_of_singleton. done. Qed.

(** What is common to both kinds: a queued operation with its job. *)
Record operation_added (s s' : RecoveryState) (o : RecoveryOperation) (j : RecoveryJob) (p : RecoveryPin) : Prop := {
  ad_backups : backups s' = match o with OfBackup b => backups s ++ [b] | OfRestore _ => backups s end;
  ad_restores : restores s' = match o with OfBackup _ => restores s | OfRestore r => restores s ++ [r] end;
  ad_jobs : jobs s' = jobs s ++ [j];
  ad_attempts : attempts s' = attempts s;
  ad_pins : pins s' = pins s ++ [p];
  ad_fresh : operation_id o ∉ backup_ids s ++ restore_ids s;
  ad_job : rj_targetId j = operation_id o /\ rj_targetId j ∉ rj_targetId <$> jobs s /\ rj_id j ∉ rj_id <$> jobs s;
  ad_queued : status_of o = "QUEUED" /\ rj_status j = "queued" /\ rj_attempts j = 0;
  ad_pin : match o with
           | OfBackup b => p = mkPin (pin_id p) ARTIFACT_SOURCE (bk_resourceId b) (rc_id (bk_base b)) None (pin_createdAt p)
           | OfRestore r => p = mkPin (pin_id p) RESTORE_TARGET (rs_targetResourceId r) (rs_backupId r) (Some (rc_id (rs_base r))) (pin_createdAt p)
               /\ exists b, b ∈ backups s /\ rc_id (bk_base b) = rs_backupId r /\ bk_status b ∈ available
           end
}.

Lemma added_ids s s' o j p : operation_added s s' o j p -> NoDup (backup_ids s ++ restore_ids s) -> NoDup (backup_ids s' ++ restore_ids s').
Proof.
  intros [Eb Er _ _ _ Hf _ _ _] Hn. unfold backup_ids, restore_ids in *. rewrite Eb, Er. destruct o as [b|r]; rewrite map_app; cbn.
  - rewrite <- app_assoc. apply (NoDup_Permutation_proper (rc_id (bk_base b) :: backup_ids s ++ restore_ids s)).
    + apply (Permutation_middle (backup_ids s) (restore_ids s)).
    + by constructor.
  - rewrite app_assoc. by apply nodup_snoc.
Qed.

Lemma added_in s s' o j p x : operation_added s s' o j p -> operation_in s' x -> x = o \/ operation_in s x.
Proof.
  intros H Hx. pose proof (ad_backups _ _ _ _ _ H) as Eb. pose proof (ad_restores _ _ _ _ _ H) as Er.
  destruct x as [x|x], o as [b|r]; cbn in *; rewrite ?Eb, ?Er in Hx; try (by right);
    apply elem_of_app in Hx as [Hx|Hx%list_elem_of_singleton]; [by right|left; congruence|by right|left; congruence].
Qed.

Lemma queued_coherent o j : status_of o = "QUEUED" -> rj_status j = "queued" -> rj_attempts j = 0 -> coherent o j.
Proof.
  intros Hs Hj Ha. unfold coherent. rewrite Hs, Ha. split_and!; [lia..|done| |]; intros H; exfalso; revert H; closed_fact.
Qed.

Lemma added_preserves s s' o j p : recovery_ok s -> operation_added s s' o j p -> recovery_ok s'.
Proof.
  intros Hok H. pose proof H as [Eb Er Ej Ea Ep Hf (Hjt & Hjt' & Hji) (Hq1 & Hq2 & Hq3) Hpin].
  assert (forall q, q ∈ pins s -> q ∈ pins s') as Hpins by (intros q Hq; rewrite Ep; set_solver).
  assert (forall q, q ∈ backups s -> q ∈ backups s') as Hbs by (intros q Hq; rewrite Eb; destruct o; set_solver).
  constructor.
  - by apply (added_ids s s' o j p), Hok.
  - rewrite Ej, fmap_app. by apply nodup_snoc; [apply Hok|].
  - rewrite Ej, fmap_app. by apply nodup_snoc; [apply Hok|].
  - intros x [-> |Hx]%(added_in s s' o j p); [|..|done].
    + exists j. rewrite Ej. split_and!; [set_solver|done|by apply queued_coherent].
    + destruct (ok_jobs s Hok x Hx) as (k & Hk & ?). exists k. rewrite Ej. split; [set_solver|done].
  - rewrite Ea. apply Hok.
  - rewrite Ea. apply Hok.
  - intros a. rewrite Ea. intros Ha%(ok_attempt_owner s Hok). unfold backup_ids in *. rewrite Eb.
    destruct o; [rewrite map_app; set_solver|done].
  - intros q. rewrite Ep. intros [Hq|Hx%list_elem_of_singleton]%elem_of_app; [by apply Hok|]. subst q.
    destruct o; [by rewrite Hpin|]. destruct Hpin as [-> _]. done.
  - intros b Hb. rewrite Ea. destruct (added_in s s' o j p (OfBackup b) H Hb) as [E|Hin].
    + rewrite <- E in *. constructor; cbn in Hq1; rewrite ?Hq1.
      * intros Hav. exfalso. revert Hav. closed_fact.
      * intros _. exists p. rewrite Ep. split; [set_solver|]. by rewrite Hpin.
      * intros _ a Ha Hab. exfalso. apply Hf. apply elem_of_app. left. unfold operation_id. cbn. rewrite <- Hab. by apply Hok.
      * done.
    + apply (backup_ok_pins b _ (pins s)); [by apply Hok|done].
  - intros r Hr. destruct (added_in s s' o j p (OfRestore r) H Hr) as [E|Hin].
    + rewrite <- E in *. destruct Hpin as [Hp (b & Hb & ?)]. intros _. split; [exists b; auto|]. exists p. rewrite Ep.
      split; [set_solver|]. by rewrite Hp.
    + apply (restore_ok_mono r (backups s) _ (pins s)); [by apply Hok|done|done].
Qed.

Lemma recoverable_ready b now : not_recoverable b now = false -> bk_status b = "READY".
Proof. unfold not_recoverable. intros H. by bool_facts. Qed.

Lemma createRecovery_effect s request kind uuids clock r s' :
  createRecovery dateParse recoveryHash request kind uuids clock s = (Ok r, s') -> fresh s kind uuids ->
  (s' = s /\ res_replay r = true) \/ (res_replay r = false /\ exists p, operation_added s s' (res_operation r) (res_job r) p).
Proof.
  intros H (Hf1 & Hf2 & Hf3). unfold createRecovery in H. returns_in H.
  destruct (existing_operation s request (body_requestIdempotencyKey x) kind) as [existing|].
  { returns_in H. subst. by left. }
  right. returns_in H. apply bind_returns in H as (o & s1 & Hadd & H). returns_in H. subst r s'. split; [done|]. cbn [res_operation res_job].
  destruct kind.
  - match goal with L : Ok None = Ok _ |- _ => injection L as <- end. unfold add_backup in Hadd. returns_in Hadd. subst o s1. eexists. constructor; done.
  - match goal with L : (recoveryBackup _ _ _ ≫= _) = Ok _ |- _ => apply bind_Ok in L as (b & Hb & L); injection L as <- end.
    apply recoveryBackup_Ok in Hb as [Hb Hbid]. unfold add_restore in Hadd. returns_in Hadd.
    destruct (obj_get "desiredSpec" _); try done. returns_in Hadd. subst o s1. eexists. constructor; try done.
    split; [done|]. exists b. split_and!; [done|done|]. match goal with G : not_recoverable _ _ = false |- _ => rewrite (recoverable_ready _ _ G) end.
    closed_fact.
Qed.

(** *** Retirement *)

Lemma assertRecoveryPins_Ok s ids u : assertRecoveryPins s ids = Ok u ->
  (forall p, p ∈ pins s -> pin_resourceId p ∉ ids)
  /\ forall b, b ∈ backups s -> bk_resourceId b ∈ ids -> bk_status b = "DELETED".
Proof.
  unfold assertRecoveryPins. intros H. unbind. split.
  - intros p Hp Hin. apply not_true_iff_false in H. apply H, existsb_exists. exists p.
    split; [by apply list_elem_of_In|by apply bool_decide_eq_true].
  - intros b Hb Hin. apply not_true_iff_false in H0. destruct (decide (bk_status b = "DELETED")) as [|Hne]; [done|exfalso].
    apply H0, existsb_exists. exists b. split; [by apply list_elem_of_In, list_elem_of_filter|].
    unfold backup_retirable. by rewrite (bool_decide_false (bk_status b = _)).
Qed.

Lemma retiring_deleted s resourceId u b : recovery_ok s -> assertRecoveryPins s [resourceId] = Ok u ->
  b ∈ backups s -> rc_id (bk_base b) ∈ retiring_ids resourceId s -> bk_status b = "DELETED".
Proof.
  intros Hok [_ Hdel]%assertRecoveryPins_Ok Hb (c & Hid & [Hc Hcs]%list_elem_of_filter)%list_elem_of_fmap. apply (Hdel b Hb).
  assert (OfBackup b = OfBackup c) as [= ->]; [|set_solver]. by apply (operation_id_unique s); [apply Hok|..].
Qed.

Lemma retire_preserves s resourceId : recovery_ok s -> recovery_ok (retireMemoryRecovery resourceId s).
Proof.
  intros Hok. unfold retireMemoryRecovery. set (retiring := retiring_ids resourceId s).
  assert (sublist (map (fun b => rc_id (bk_base b)) (filter (fun row => rc_id (bk_base row) ∉ retiring) (backups s))) (backup_ids s)) as Hsub1
    by (apply (fmap_sublist _), sublist_filter).
  assert (sublist (map (fun r => rc_id (rs_base r)) (filter (fun row => rs_backupId row ∉ retiring) (restores s))) (restore_ids s)) as Hsub2
    by (apply (fmap_sublist _), sublist_filter).
  constructor; cbn.
  - eapply sublist_NoDup; [apply (ok_ids s Hok)|]. by apply sublist_app.
  - apply Hok.
  - apply Hok.
  - intros o Ho. apply (ok_jobs s Hok). destruct o; cbn in *; by apply list_elem_of_filter in Ho as [_ ?].
  - eapply sublist_NoDup; [apply (ok_attempts s Hok)|]. apply (fmap_sublist _), sublist_filter.
  - intros a [_ Ha]%list_elem_of_filter. by apply Hok.
  - intros a [Hna Ha]%list_elem_of_filter. pose proof (ok_attempt_owner s Hok a Ha) as (b & Hid & Hb)%list_elem_of_fmap.
    apply list_elem_of_fmap. exists b. split; [done|]. apply list_elem_of_filter. split; [congruence|done].
  - apply Hok.
  - intros b [Hnb Hb]%list_elem_of_filter. destruct (ok_backups s Hok b Hb) as [H1 H2 H3 H4]. constructor; try done.
    + intros Hav. destruct (H1 Hav) as (a & Ha & Hart). exists a. split; [|done]. apply list_elem_of_filter. split; [|done].
      destruct Hart as [-> _]. done.
    + intros Hs a [_ Ha]%list_elem_of_filter. by apply H3.
    + intros Hs a [_ Ha]%list_elem_of_filter. by apply H4.
  - intros r [Hnr Hr]%list_elem_of_filter Hs. destruct (ok_restores s Hok r Hr Hs) as [(b & Hb & Hid & Hav) Hp]. split; [|done].
    exists b. split_and!; [|done|done]. apply list_elem_of_filter. split; [congruence|done].
Qed.

End safety.

Close Scope Z_scope.
