(* ===== verification/RecoveryRuns.v ===== *)
(** * Runs of the recovery service

    Every sequence of requests, worker steps, cleanups and deletions keeps the
    invariant of [RecoverySafety]; superseded workers stay locked out, and the
    status of an operation follows the lifecycle contract. *)

From S2P Require Import Prelude JsString JsMap JsVal Ids Rbac Lifecycle Secrets Accounts Redaction Workflows ControlPlane Deployments DeploymentOperations RecoveryProvenance Recovery RecoveryService RecoverySafety.

Open Scope Z_scope.

Section runs.
Context (dateParse : string -> option Z) (recoveryHash : string -> string).
Context (enforceQuota : RecoveryState -> RecoveryRequest -> RecoveryKind -> result unit).

(** The recovery tables of two states agree. *)
Definition same_tables (s s' : RecoveryState) : Prop :=
  backups s' = backups s /\ restores s' = restores s /\ jobs s' = jobs s /\ attempts s' = attempts s /\ pins s' = pins s.

(** One request, worker step or cleanup, whether it succeeds or throws; the
    deletion of a resource that passes the check on its pins; and any change
    of the tables that recovery shares with the control plane. *)
Inductive recovery_step (s : RecoveryState) : RecoveryState -> Prop :=
| step_create request kind uuids clock : fresh recoveryHash s kind uuids ->
    recovery_step s (create_with_quota dateParse recoveryHash enforceQuota request kind uuids clock s).2
| step_claim input clock : recovery_step s (claim dateParse recoveryHash input clock s).2
| step_mutate input mutation clock : recovery_step s (mutate dateParse recoveryHash input mutation clock s).2
| step_cancel scope id now clock : recovery_step s (cancelRestore dateParse scope id now clock s).2
| step_expire org id now clock : recovery_step s (expireBackup dateParse org id now clock s).2
| step_delete scope id input now clock : recovery_step s (requestBackupDeletion dateParse scope id input now clock s).2
| step_claim_cleanup input token clock : recovery_step s (claimCleanup dateParse input token clock s).2
| step_finish_cleanup input token clock : recovery_step s (finishCleanup dateParse input token clock s).2
| step_retire resourceId : assertRecoveryPins s [resourceId] = Ok tt -> recovery_step s (retireMemoryRecovery resourceId s)
| step_tables s' : same_tables s s' -> recovery_step s s'.

(** What a step does to the recovery tables. *)
Inductive recovery_effect (s s' : RecoveryState) : Prop :=
| effect_none : same_tables s s' -> recovery_effect s s'
| effect_added o j p : operation_added s s' o j p -> recovery_effect s s'
| effect_updated id : updated s s' id -> recovery_effect s s'
| effect_retired resourceId : assertRecoveryPins s [resourceId] = Ok tt -> s' = retireMemoryRecovery resourceId s -> recovery_effect s s'.

Lemma same_tables_refl s : same_tables s s.
Proof. by split_and!. Qed.

Lemma transact_cases {S A} (m : M S A) s : (transact m s).2 = s \/ exists a, m s = (Ok a, (transact m s).2).
Proof. unfold transact. destruct (m s) as [[a|e] s1]; cbn; [right; by exists a|by left]. Qed.

Lemma transact_Throw {S A} (m : M S A) s e s' : transact m s = (Throw e, s') -> s' = s.
Proof. unfold transact. destruct (m s) as [[a|e'] s1]; [done|]. by intros [= _ <-]. Qed.

Lemma transact_effect {A} (m : M RecoveryState A) s id :
  (forall a s', m s = (Ok a, s') -> updated s s' id) -> recovery_effect s (transact m s).2.
Proof.
  intros H. destruct (transact_cases m s) as [-> |[a Ha]]; [apply effect_none, same_tables_refl|]. by eapply effect_updated, H.
Qed.

Lemma create_Ok request kind uuids clock s r s' :
  create_with_quota dateParse recoveryHash enforceQuota request kind uuids clock s = (Ok r, s') ->
  createRecovery dateParse recoveryHash request kind uuids clock s = (Ok r, s') /\ (res_replay r = false -> enforceQuota s request kind = Ok tt).
Proof.
  unfold create_with_quota, transact. match goal with |- match ?m with _ => _ end = _ -> _ => destruct m as [[a|e] s1] eqn:H end; [|done].
  intros [= <- <-].
  returns_in H. apply bind_returns in H as (r1 & s2 & Hc & H). apply bind_returns in H as (u & s3 & Hq & H). returns_in H. subst.
  destruct (res_replay a) eqn:E; [returns_in Hq; subst; done|]. unfold lift in Hq. injection Hq as Hq <-. destruct u. done.
Qed.

Lemma create_effect s request kind uuids clock : fresh recoveryHash s kind uuids ->
  recovery_effect s (create_with_quota dateParse recoveryHash enforceQuota request kind uuids clock s).2.
Proof.
  intros Hf. destruct (create_with_quota dateParse recoveryHash enforceQuota request kind uuids clock s) as [[r|e] s1] eqn:E; cbn.
  - apply create_Ok in E as [Hc _]. destruct (createRecovery_effect _ _ _ _ _ _ _ _ _ Hc Hf) as [[-> _]|(_ & p & Hadd)];
      [apply effect_none, same_tables_refl|by eapply effect_added].
  - apply transact_Throw in E as ->. apply effect_none, same_tables_refl.
Qed.

Lemma step_effect s s' : recovery_ok s -> recovery_step s s' -> recovery_effect s s'.
Proof.
  intros Hok [request kind uuids clock Hf|input clock|input mutation clock|scope id now clock|org id now clock
             |scope id input now clock|input token clock|input token clock|resourceId Hp|s1 Hs].
  - by apply create_effect.
  - eapply transact_effect. intros a s1 Ha. by eapply claimRecovery_update.
  - eapply transact_effect. intros a s1 Ha. by eapply mutateRecovery_update.
  - eapply transact_effect. intros a s1 Ha. by eapply cancelRecoveryRestore_update.
  - eapply transact_effect. intros a s1 Ha. by eapply expireRecoveryBackup_update.
  - destruct (requestBackupDeletion dateParse scope id input now clock s) as [[v|e] s1] eqn:E.
    + destruct (requestBackupDeletion_update _ _ _ _ _ _ _ _ _ Hok E) as [-> |?]; [apply effect_none, same_tables_refl|by eapply effect_updated].
    + apply effect_none. cbn. unfold requestBackupDeletion in E. rewrite run_lift in E.
      destruct (requireDeleteConfirmation input); [apply transact_Throw in E as ->|injection E as _ <-]; apply same_tables_refl.
  - eapply transact_effect. intros a s1 Ha. by eapply claimRecoveryCleanup_update.
  - eapply transact_effect. intros a s1 Ha. by eapply finishRecoveryCleanup_update.
  - by eapply effect_retired.
  - by apply effect_none.
Qed.


Lemma recovery_ok_same s s' : recovery_ok s -> same_tables s s' -> recovery_ok s'.
Proof.
  intros [] (E1 & E2 & E3 & E4 & E5).
  constructor; unfold backup_ids, restore_ids, operation_in in *; rewrite ?E1, ?E2, ?E3, ?E4, ?E5; assumption.
Qed.

Lemma effect_preserves s s' : recovery_ok s -> recovery_effect s s' -> recovery_ok s'.
Proof.
  intros Hok [Hs|o j p Hadd|id (o & next & j & next_j & Hup & _)|resourceId Hp ->].
  - by eapply recovery_ok_same.
  - by eapply added_preserves.
  - by eapply update_preserves.
  - by eapply retire_preserves.
Qed.

Lemma run_ok s s' : recovery_ok s -> rtc recovery_step s s' -> recovery_ok s'.
Proof. intros Hok. induction 1 as [|s s1 s2 Hs _ IH]; [done|]. by apply IH, (effect_preserves s), step_effect. Qed.

(** No recovery rows yet. *)
Definition pristine (s : RecoveryState) : Prop :=
  backups s = [] /\ restores s = [] /\ jobs s = [] /\ attempts s = [] /\ pins s = [].

Lemma pristine_ok s : pristine s -> recovery_ok s.
Proof.
  intros (E1 & E2 & E3 & E4 & E5). constructor; unfold backup_ids, restore_ids; rewrite ?E1, ?E2, ?E3, ?E4, ?E5; cbn;
    try (by constructor); try (intros ? H; by apply not_elem_of_nil in H).
  intros [b|r] H; cbn in H; rewrite ?E1, ?E2 in H; by apply not_elem_of_nil in H.
Qed.

(** *** Superseded workers *)

(** A job is never removed and its attempts only grow. *)
Lemma effect_job s s' j : recovery_ok s -> recovery_effect s s' -> j ∈ jobs s ->
  exists j', j' ∈ jobs s' /\ rj_targetId j' = rj_targetId j /\ rj_attempts j <= rj_attempts j'.
Proof.
  intros Hok [(_ & _ & E & _)|o k p Hadd|id (o & next & k & next_k & Hup & _)|resourceId _ ->] Hj.
  - exists j. rewrite E. split_and!; [done|done|lia].
  - exists j. rewrite (ad_jobs _ _ _ _ _ Hadd). split_and!; [set_solver|done|lia].
  - rewrite (update_jobs _ _ _ _ _ _ Hup). destruct (up_job_same _ _ _ _ _ _ Hup) as (Hi & Ht & Ha).
    destruct (decide (rj_id j = rj_id next_k)) as [E|E].
    + assert (j = k) as -> by (apply (nodup_map_inj rj_id (jobs s)); [apply Hok|done|apply (up_job _ _ _ _ _ _ Hup)|congruence]).
      exists next_k. split_and!; [by apply (map_set_member rj_id next_k k)|done|done].
    + exists j. split_and!; [by apply (map_set_other rj_id next_k j)|done|lia].
  - exists j. split_and!; [done|done|lia].
Qed.

Lemma run_job s s' j : recovery_ok s -> rtc recovery_step s s' -> j ∈ jobs s ->
  exists j', j' ∈ jobs s' /\ rj_targetId j' = rj_targetId j /\ rj_attempts j <= rj_attempts j'.
Proof.
  intros Hok Hrun. revert j. induction Hrun as [s|s s1 s2 Hs _ IH]; intros j Hj; [exists j; split_and!; [done|done|lia]|].
  pose proof (step_effect _ _ Hok Hs) as He. destruct (effect_job s s1 j Hok He Hj) as (j1 & Hj1 & Ht1 & Ha1).
  destruct (IH (effect_preserves _ _ Hok He) j1 Hj1) as (j2 & Hj2 & Ht2 & Ha2). exists j2. split_and!; [done|congruence|lia].
Qed.

Lemma fence_superseded s input mutation clock j : recovery_ok s -> j ∈ jobs s -> rj_targetId j = cl_operationId (fence_claim input) ->
  fence_attempt input < rj_attempts j -> exists e, mutate dateParse recoveryHash input mutation clock s = (Throw e, s).
Proof.
  intros Hok Hj Ht Hlt. unfold mutate, transact. destruct (mutateRecovery _ _ _ _ _ s) as [[r|e] s1] eqn:E; [exfalso|by exists e].
  unfold mutateRecovery in E. returns_step E. returns_step E. destruct x as [[o k] now].
  apply fenceRecovery_Ok in L as (Ho & Hid & _ & Hk & Hkt & _ & _ & Ha & _).
  assert (k = j) as -> by (apply (nodup_map_inj rj_targetId (jobs s)); [apply Hok|done|done|congruence]). lia.
Qed.

(** C20. Once a job has been claimed again, the workers of its earlier attempts
    are locked out for good: in every later state, every mutation they try
    (a heartbeat, an upload, a completion, a publication) throws and changes
    nothing. *)
Theorem superseded_worker_refused s0 s s' j input mutation clock :
  pristine s0 -> rtc recovery_step s0 s -> j ∈ jobs s -> rtc recovery_step s s' ->
  rj_targetId j = cl_operationId (fence_claim input) -> fence_attempt input < rj_attempts j ->
  exists e, mutate dateParse recoveryHash input mutation clock s' = (Throw e, s').
Proof.
  intros Hp Hrun0 Hj Hrun Ht Hlt. pose proof (run_ok s0 s (pristine_ok s0 Hp) Hrun0) as Hs.
  destruct (run_job s s' j Hs Hrun Hj) as (j' & Hj' & Ht' & Ha').
  apply (fence_superseded s' input mutation clock j'); [by apply (run_ok s)|done|congruence|lia].
Qed.

(** *** Artifacts under a restore *)

Lemma pinned_refuses_claim s input token clock : cl_kind input = kind_backup -> restore_pinned s (cl_operationId input) = true ->
  exists e, claimCleanup dateParse input token clock s = (Throw e, s).
Proof.
  intros Hk Hp. unfold claimCleanup, transact. destruct (claimRecoveryCleanup _ _ _ _ s) as [[r|e] s1] eqn:E; [exfalso|by exists e].
  unfold claimRecoveryCleanup in E. returns_in E.
  match goal with L : recoveryOperation _ _ = Ok ?x |- _ => apply recoveryOperation_Ok in L as (Ho & Hid & Hko); destruct x as [b|rs] end; [|by rewrite Hk in Hko].
  unfold operation_id in Hid. cbn in Hid. rewrite <- Hid in Hp. unbind. congruence.
Qed.

Lemma pinned_refuses_finish s input token clock : cl_kind input = kind_backup -> restore_pinned s (cl_operationId input) = true ->
  exists e, finishCleanup dateParse input token clock s = (Throw e, s).
Proof.
  intros Hk Hp. unfold finishCleanup, transact. destruct (finishRecoveryCleanup _ _ _ _ s) as [[r|e] s1] eqn:E; [exfalso|by exists e].
  unfold finishRecoveryCleanup in E. returns_in E.
  match goal with L : recoveryOperation _ _ = Ok ?x |- _ => apply recoveryOperation_Ok in L as (Ho & Hid & Hko); destruct x as [b|rs] end; [|by rewrite Hk in Hko].
  returns_in E. unfold operation_id in Hid. cbn in *. congruence.
Qed.

(** C19. Through every run, a restore that is not over has an available backup
    whose artifact was uploaded, completed and verified by the attempt that
    won (its key, size and checksum are those of that attempt, which is not
    cleaned), its target is pinned, and every attempt to clean the backup up
    is refused with nothing changed. *)
Theorem restore_keeps_artifact s s' r :
  pristine s -> rtc recovery_step s s' -> r ∈ restores s' -> restore_settled r = false ->
  exists b a, b ∈ backups s' /\ rc_id (bk_base b) = rs_backupId r /\ bk_status b ∈ available
    /\ a ∈ attempts s' /\ artifact_of b a /\ attempt_wf a
    /\ (exists e, assertRecoveryPins s' [rs_targetResourceId r] = Throw e)
    /\ forall input token clock, cl_kind input = kind_backup -> cl_operationId input = rs_backupId r ->
         (exists e, claimCleanup dateParse input token clock s' = (Throw e, s'))
         /\ (exists e, finishCleanup dateParse input token clock s' = (Throw e, s')).
Proof.
  intros Hp Hrun Hr Hs. pose proof (run_ok s s' (pristine_ok s Hp) Hrun) as Hok.
  destruct (ok_restores s' Hok r Hr Hs) as [(b & Hb & Hid & Hav) (p & Hpin & Hk & Hpb & Hpr & Hpi)].
  destruct (bo_artifact _ _ _ (ok_backups s' Hok b Hb) Hav) as (a & Ha & Hart). exists b, a. split_and!; try done.
  - by apply Hok.
  - unfold assertRecoveryPins. exists (recovery_conflict "RESOURCE_RECOVERY_PINNED").
    replace (existsb _ (pins s')) with true; [done|]. symmetry. apply existsb_exists. exists p.
    split; [by apply list_elem_of_In|]. apply bool_decide_eq_true. set_solver.
  - intros input token clock Hki Hin. assert (restore_pinned s' (cl_operationId input) = true) as Hpd.
    { apply existsb_exists. exists p. split; [by apply list_elem_of_In|]. by rewrite Hk, Hin, bool_decide_true. }
    split; [by apply pinned_refuses_claim|by apply pinned_refuses_finish].
Qed.

(** *** Statuses *)

Definition final : list string := ["READY"; "FAILED"; "CANCELLED"; "DELETED"].

Lemma settled_final r : restore_settled r = true -> rs_status r ∈ final.
Proof.
  unfold restore_settled. intros [Hs|[Hs _]%andb_true_iff]%orb_true_iff; apply bool_decide_eq_true in Hs; set_unfold; naive_solver.
Qed.

(** What is retired has ended. *)
Lemma retire_status s resourceId o : recovery_ok s -> assertRecoveryPins s [resourceId] = Ok tt -> operation_in s o ->
  (exists o', operation_in (retireMemoryRecovery resourceId s) o' /\ operation_id o' = operation_id o /\ operation_kind o' = operation_kind o
     /\ (status_of o' = status_of o \/ lifecycle_step (machine_of (operation_kind o)) (status_of o) (status_of o')))
  \/ (status_of o ∈ final).
Proof.
  intros Hok Hpins Ho.
  assert (operation_in (retireMemoryRecovery resourceId s) o \/ status_of o ∈ final) as [Hin|Hin]; [|left|by right].
  2: { exists o. split_and!; try done. by left. }
  destruct o as [b|r]; cbn in Ho |- *.
  - destruct (decide (rc_id (bk_base b) ∈ retiring_ids resourceId s)) as [Hin|Hin]; [right|left; by apply list_elem_of_filter].
    rewrite (retiring_deleted s resourceId tt b Hok Hpins Ho Hin). closed_fact.
  - destruct (decide (rs_backupId r ∈ retiring_ids resourceId s)) as [Hin|Hin]; [right|left; by apply list_elem_of_filter].
    destruct (restore_settled r) eqn:Hs; [by apply settled_final|exfalso].
    destruct (ok_restores s Hok r Ho Hs) as [(b & Hb & Hid & Hav) _]. rewrite <- Hid in Hin.
    rewrite (retiring_deleted s resourceId tt b Hok Hpins Hb Hin) in Hav. revert Hav. closed_fact.
Qed.

(** An operation stays, one lifecycle step further at most, or is retired at its end. *)
Lemma effect_status s s' o : recovery_ok s -> recovery_effect s s' -> operation_in s o ->
  (exists o', operation_in s' o' /\ operation_id o' = operation_id o /\ operation_kind o' = operation_kind o
     /\ (status_of o' = status_of o \/ lifecycle_step (machine_of (operation_kind o)) (status_of o) (status_of o')))
  \/ (status_of o ∈ final).
Proof.
  intros Hok He Ho. destruct He as [(E1 & E2 & _)|x k p Hadd|id (x & next & k & next_k & Hup & _)|resourceId Hret ->].
  - left. exists o. split_and!; try done; [|by left]. destruct o; cbn; [by rewrite E1|by rewrite E2].
  - left. exists o. split_and!; try done; [|by left].
    destruct o, x; cbn in *; rewrite ?(ad_backups _ _ _ _ _ Hadd), ?(ad_restores _ _ _ _ _ Hadd); set_solver.
  - left. destruct (decide (operation_id o = operation_id x)) as [E|E].
    + assert (o = x) as -> by (apply (operation_id_unique s); [apply Hok|done|apply Hup|done]).
      exists next. split_and!; [by apply (update_next_in s s' x next k next_k)|apply (update_id s s' x next k next_k Hup)|
        apply same_operation_kind, Hup|apply (up_status _ _ _ _ _ _ Hup)].
    + exists o. split_and!; try done; [|by left]. destruct (up_tables _ _ _ _ _ _ Hup) as (E1 & E2 & _).
      pose proof (update_id s s' x next k next_k Hup) as Hid.
      destruct o as [b|r], next as [n|n]; cbn in *; rewrite ?E1, ?E2; try done.
      * apply (map_set_other (fun y => rc_id (bk_base y)) n b); [done|]. unfold operation_id in *. cbn in *. congruence.
      * apply (map_set_other (fun y => rc_id (rs_base y)) n r); [done|]. unfold operation_id in *. cbn in *. congruence.
  - by apply (retire_status s resourceId).
Qed.

(** The status of an operation only moves along the lifecycle contract of its
    kind, through every run; an operation disappears only after it has ended,
    when its resource is deleted. *)
Theorem recovery_lifecycle s0 s s' o :
  pristine s0 -> rtc recovery_step s0 s -> operation_in s o -> rtc recovery_step s s' ->
  exists st, rtc (lifecycle_step (machine_of (operation_kind o))) (status_of o) st
    /\ ((exists o', operation_in s' o' /\ operation_id o' = operation_id o /\ operation_kind o' = operation_kind o /\ status_of o' = st)
        \/ st ∈ final).
Proof.
  intros Hp Hrun0 Ho Hrun. pose proof (run_ok s0 s (pristine_ok s0 Hp) Hrun0) as Hok. clear s0 Hp Hrun0. revert o Ho.
  induction Hrun as [s|s s1 s2 Hs _ IH]; intros o Ho.
  { exists (status_of o). split; [done|]. left. by exists o. }
  pose proof (step_effect _ _ Hok Hs) as He.
  destruct (effect_status s s1 o Hok He Ho) as [(o1 & Ho1 & Hid & Hk & Hst)|Hend]; [|exists (status_of o); split; [done|by right]].
  destruct (IH (effect_preserves _ _ Hok He) o1 Ho1) as (st & Hr & Hend). exists st. rewrite Hk in Hr. split.
  - destruct Hst as [<- |Hst]; [done|]. by eapply rtc_l.
  - destruct Hend as [(o2 & Ho2 & Hid2 & Hk2 & Hst2)|?]; [left|by right]. exists o2. split_and!; [done|congruence|congruence|done].
Qed.

(** *** Repeated requests *)

Lemma recoveryAuthorized_same s s' scope permission :
  members s' = members s -> organizations s' = organizations s -> recoveryAuthorized s' scope permission = recoveryAuthorized s scope permission.
Proof. unfold recoveryAuthorized. by intros -> ->. Qed.

Lemma job_fresh_find s o j p s' : operation_added s s' o j p -> recoveryJob s' (operation_id o) = Ok j.
Proof.
  intros H. destruct (ad_job _ _ _ _ _ H) as (Ht & Hn & _). unfold recoveryJob. rewrite (ad_jobs _ _ _ _ _ H), (js_find_snoc _ _ j); [done| |done].
  apply js_find_None, Forall_forall. intros k Hk E. apply Hn. rewrite Ht, <- E. by apply list_elem_of_fmap_2.
Qed.

Lemma existing_backup_added s s' request key b : existing_operation s request key kind_backup = None -> backups s' = backups s ++ [b] ->
  bk_resourceId b = req_sourceId request -> rc_organizationId (bk_base b) = scope_organizationId (req_scope request) ->
  rc_requestIdempotencyKey (bk_base b) = key -> existing_operation s' request key kind_backup = Some (OfBackup b).
Proof. unfold existing_operation. intros Ex%fmap_None E H1 H2 H3. rewrite E, (js_find_snoc _ _ _ Ex); done. Qed.

Lemma existing_restore_added s s' request key r : existing_operation s request key kind_restore = None -> restores s' = restores s ++ [r] ->
  rs_backupId r = req_sourceId request -> rc_organizationId (rs_base r) = scope_organizationId (req_scope request) ->
  rc_requestIdempotencyKey (rs_base r) = key -> existing_operation s' request key kind_restore = Some (OfRestore r).
Proof. unfold existing_operation. intros Ex%fmap_None E H1 H2 H3. rewrite E, (js_find_snoc _ _ _ Ex); done. Qed.

(** The operation a request made is the one it finds again. *)
Lemma createRecovery_found request kind uuids clock s r s' :
  createRecovery dateParse recoveryHash request kind uuids clock s = (Ok r, s') ->
  exists body, recoveryBody (req_body request) (bool_decide (kind = kind_restore)) = Ok body
    /\ (exists now, recoveryNow dateParse clock (req_now request) = Ok now)
    /\ existing_operation s' request (body_requestIdempotencyKey body) kind = Some (res_operation r)
    /\ recoveryAuthorized s' (req_scope request) (permission_of kind) = Ok tt
    /\ rc_requestFingerprint (base_of (res_operation r)) = requestFingerprint recoveryHash request body kind
    /\ (res_replay r = true -> recoveryJob s' (operation_id (res_operation r)) = Ok (res_job r)).
Proof.
  intros H. unfold createRecovery in H. returns_in H. exists x. split; [done|]. split; [by exists x0|].
  destruct (existing_operation s request (body_requestIdempotencyKey x) kind) as [existing|] eqn:Ex.
  { returns_in H. subst. bool_facts. cbn [res_operation]. split_and!; try done. by destruct x1. }
  returns_in H. apply bind_returns in H as (o & s1 & Hadd & H). returns_in H. subst r s'. cbn [res_operation].
  match goal with L : activeRecoveryResource _ _ _ = Ok _ |- _ => apply activeRecoveryResource_Ok in L as [_ Hsource] end.
  match goal with L : recoveryAuthorized _ _ _ = Ok ?u |- _ => rename L into Hauth; destruct u end.
  destruct kind.
  - match goal with L : Ok None = Ok _ |- _ => injection L as <- end. unfold add_backup in Hadd. returns_in Hadd. subst o s1.
    split_and!; [|done..]. by eapply existing_backup_added.
  - match goal with L : (recoveryBackup _ _ _ ≫= _) = Ok _ |- _ => apply bind_Ok in L as (b & Hb & L); injection L as <- end.
    apply recoveryBackup_Ok in Hb as [Hb Hbid]. unfold add_restore in Hadd. returns_in Hadd.
    destruct (obj_get "desiredSpec" _); try done. returns_in Hadd. subst o s1.
    split_and!; [|done..]. by eapply existing_restore_added.
Qed.

Lemma createRecovery_replay request kind uuids clock s body now o j :
  recoveryBody (req_body request) (bool_decide (kind = kind_restore)) = Ok body -> recoveryNow dateParse clock (req_now request) = Ok now ->
  existing_operation s request (body_requestIdempotencyKey body) kind = Some o ->
  recoveryAuthorized s (req_scope request) (permission_of kind) = Ok tt ->
  rc_requestFingerprint (base_of o) = requestFingerprint recoveryHash request body kind -> recoveryJob s (operation_id o) = Ok j ->
  createRecovery dateParse recoveryHash request kind uuids clock s = (Ok (mkResult o j true), s).
Proof.
  intros Hb Hn Hex Ha Hf Hj. unfold createRecovery. rewrite run_lift, Hb, run_lift, Hn, run_get, Hex, run_lift, Ha, run_lift.
  rewrite Hf, bool_decide_true by done. cbn [negb throw_if]. rewrite run_lift. unfold operation_id in Hj. by rewrite Hj.
Qed.

(** Requests are idempotent: repeating a request that succeeded, later and with
    other random values, answers with the same operation and job, asks no
    quota and changes nothing. *)
Theorem create_idempotent request kind uuids clock s r s' uuids' clock' :
  create_with_quota dateParse recoveryHash enforceQuota request kind uuids clock s = (Ok r, s') -> fresh recoveryHash s kind uuids ->
  create_with_quota dateParse recoveryHash enforceQuota request kind uuids' clock' s' = (Ok (mkResult (res_operation r) (res_job r) true), s').
Proof.
  intros [Hc _]%create_Ok Hf. destruct (createRecovery_found _ _ _ _ _ _ _ Hc) as (body & Hb & [now Hnow] & Hex & Hauth & Hfp & Hrep).
  assert (recoveryJob s' (operation_id (res_operation r)) = Ok (res_job r)) as Hjob.
  { destruct (createRecovery_effect _ _ _ _ _ _ _ _ _ Hc Hf) as [[_ Hr]|(_ & p & Hadd)]; [by apply Hrep|by eapply job_fresh_find]. }
  assert (exists now', recoveryNow dateParse clock' (req_now request) = Ok now') as [now' Hnow'].
  { unfold recoveryNow in *. destruct (req_now request); [by exists now|by eexists]. }
  unfold create_with_quota, transact. rewrite run_get. unfold mbind, M_bind.
  by rewrite (createRecovery_replay request kind uuids' clock' s' body now' _ _ Hb Hnow' Hex Hauth Hfp Hjob).
Qed.

End runs.

Close Scope Z_scope.
