(* ===== verification/RecoveryPages.v ===== *)
(** * Listing backups page by page

    Following the cursors that [listBackups] gives out lists every backup of a
    resource exactly once, newest first. *)

From S2P Require Import Prelude JsString JsMap JsVal Ids Rbac Lifecycle Secrets Accounts Redaction Workflows ControlPlane Deployments DeploymentOperations Paging RecoveryProvenance Recovery RecoveryService.

Open Scope Z_scope.

Definition backup_key (b : RecoveryBackup) : string * string := (cur_at (cursor_of b), cur_id (cursor_of b)).

(** [b] comes on a later page than [a]. *)
Definition below (a b : RecoveryBackup) : bool := pair_lt (backup_key b) (backup_key a).

Section pages.
Context (dateParse : string -> option Z) (localeCompare : string -> string -> comparison).
Context (encodeSegment : jsval -> string) (decodeSegment : string -> option jsval).
(** [Date.parse] reads what [toISOString] writes. *)
Hypothesis iso_dates : forall t, dateParse (toISOString t) <> None.

Context (state : RecoveryState) (scope : RecoveryScope) (resourceId : string) (limit : Z) (clock : Z).
Notation rows := (resource_backups state resourceId (scope_organizationId scope)).
(** A cursor is the base64url text of its JSON, which decodes to it. *)
Hypothesis cursor_text : forall b, b ∈ rows ->
  let text := encodeBackupCursor encodeSegment b in str_empty text = false /\ forallb is_id_char (chars text) = true
    /\ decodeSegment text = Some (cursor_json (cursor_of b)).
Hypothesis owned : owns_resource state resourceId (scope_organizationId scope) = true.
Hypothesis authorized : recoveryAuthorized state scope "backup:manage" = Ok tt.
Hypothesis ids_unique : NoDup (map (fun b => rc_id (bk_base b)) (backups state)).
Hypothesis ids_present : forall b, b ∈ backups state -> rc_id (bk_base b) <> "".
(** On timestamps and identifiers, which are ASCII, the collation order is the order of code units. *)
Hypothesis collation : forall a b, a ∈ rows -> b ∈ rows ->
  localeCompare (cur_at (cursor_of a)) (cur_at (cursor_of b)) = String.compare (cur_at (cursor_of a)) (cur_at (cursor_of b))
  /\ localeCompare (cur_id (cursor_of a)) (cur_id (cursor_of b)) = String.compare (cur_id (cursor_of a)) (cur_id (cursor_of b)).
Hypothesis limit_ok : 1 <= limit <= 1000.

Lemma newest_first_below a b : a ∈ rows -> b ∈ rows -> newest_first localeCompare a b = not_after below a b.
Proof.
  intros Ha Hb. destruct (collation b a Hb Ha) as [E1 E2]. unfold newest_first, not_after, below, pair_lt, backup_key. cbn [fst snd].
  rewrite E1, E2. generalize (cur_at (cursor_of a)), (cur_at (cursor_of b)), (cur_id (cursor_of a)), (cur_id (cursor_of b)).
  intros ta tb ia ib. unfold str_lt. rewrite (String.compare_antisym ta tb), (String.compare_antisym ia ib).
  destruct (String.compare tb ta) eqn:E; cbn [CompOpp orb negb andb].
  - apply String.compare_eq_iff in E as ->. rewrite bool_decide_true by done. by destruct (String.compare ib ia).
  - rewrite bool_decide_false; [done|]. intros ->. pose proof (str_lt_irrefl tb) as Hi. unfold str_lt in Hi. by rewrite E in Hi.
  - done.
Qed.

Lemma below_laws : (forall x, below x x = false) /\ (forall x y z, below x y = true -> below y z = true -> below x z = true)
  /\ (forall x y z, below y x = false -> below z y = false -> below z x = false).
Proof.
  unfold below. split_and!; [intros; apply pair_lt_irrefl| |].
  - intros x y z H1 H2. by eapply pair_lt_trans.
  - intros x y z H1 H2. by eapply pair_lt_weak.
Qed.

Lemma rows_nodup : NoDup (map (fun b => rc_id (bk_base b)) rows).
Proof. eapply sublist_NoDup; [exact ids_unique|]. apply (fmap_sublist _), sublist_filter. Qed.

Lemma rows_total x y : x ∈ rows -> y ∈ rows -> x <> y -> below x y = true \/ below y x = true.
Proof.
  intros Hx Hy Hne. destruct (pair_lt_trichotomy (backup_key y) (backup_key x)) as [?|[E|?]]; [by left|exfalso|by right].
  apply Hne. injection E as _ E. clear -E Hx Hy ids_unique.
  pose proof rows_nodup as Hn. revert Hx Hy Hn. generalize rows. intros l. induction l as [|z l IH]; [set_solver|].
  cbn. rewrite NoDup_cons. intros [-> |Hx]%elem_of_cons [-> |Hy]%elem_of_cons [Hz Hl]; [done|..|by apply IH].
  - destruct Hz. change (rc_id (bk_base y) = rc_id (bk_base z)) in E. rewrite <- E. by apply (list_elem_of_fmap_2 (fun b => rc_id (bk_base b))).
  - destruct Hz. change (rc_id (bk_base z) = rc_id (bk_base x)) in E. rewrite E. by apply (list_elem_of_fmap_2 (fun b => rc_id (bk_base b))).
Qed.

Lemma rows_themselves : NoDup rows.
Proof. apply (NoDup_fmap_1 (fun b => rc_id (bk_base b))), rows_nodup. Qed.

(** The pages of the service are those of the order. *)
Lemma backup_page_below c : match c with Some x => x ∈ rows | None => True end ->
  backup_page localeCompare rows (cursor_of <$> c) (Z.to_nat limit) = page below rows (Z.to_nat limit) c.
Proof.
  intros Hc. unfold backup_page, page. rewrite (js_sort_ext _ (not_after below)); [by destruct c|].
  intros x y Hx Hy. apply newest_first_below; destruct c; cbn in Hx, Hy; rewrite ?list_elem_of_filter in Hx, Hy; naive_solver.
Qed.

Fixpoint list_walk (fuel : nat) (cursor : option string) : result (list ResourceBackupView) :=
  match fuel with
  | O => Ok []
  | S fuel' =>
      listed ← listBackups dateParse encodeSegment decodeSegment localeCompare scope resourceId (Some limit) cursor None clock state;
      rest ← (match listed.2 with Some next => list_walk fuel' (Some next) | None => Ok [] end);
      Ok (listed.1 ++ rest)
  end.

Lemma cursor_decodes b : b ∈ rows -> decodeBackupCursor dateParse decodeSegment (encodeBackupCursor encodeSegment b) = Ok (cursor_of b).
Proof.
  intros Hrow. pose proof Hrow as [_ Hb]%list_elem_of_filter. destruct (cursor_text b Hrow) as (H1 & H2 & H3).
  unfold decodeBackupCursor. rewrite H1, H2, H3. cbn [negb orb throw_if mbind result_bind]. unfold cursor_json, cursor_of. cbn [cur_at cur_id].
  pose proof (ids_present b Hb) as Hid. pose proof (iso_dates (rc_createdAt (bk_base b))) as Hd.
  generalize dependent (toISOString (rc_createdAt (bk_base b))). intros at_ Hd.
  cbn [found mbind result_bind recoveryRecord]. set (record := [("v", _); _; _]).
  change (obj_get "v" record) with (JNum (NInt 1)). change (obj_get "at" record) with (JStr at_).
  change (obj_get "id" record) with (JStr (rc_id (bk_base b))). cbn [negb length Nat.eqb orb record].
  rewrite (bool_decide_false (dateParse at_ = None)) by congruence. by destruct (rc_id (bk_base b)).
Qed.

Lemma listBackups_page c text : match c with Some x => x ∈ rows /\ text = Some (encodeBackupCursor encodeSegment x) | None => text = None end ->
  listBackups dateParse encodeSegment decodeSegment localeCompare scope resourceId (Some limit) text None clock state
  = Ok (map (fun row => publicBackup row clock) (page below rows (Z.to_nat limit) c).1, encodeBackupCursor encodeSegment <$> (page below rows (Z.to_nat limit) c).2).
Proof.
  intros Hc. unfold listBackups, requireResourceOwner. rewrite owned, authorized. cbn [negb throw_if mbind result_bind default].
  assert ((limit <? 1) || (1000 <? limit) = false) as Hlimit by (apply orb_false_iff; split; apply Z.ltb_ge; lia).
  assert ((match text with Some t => if str_empty t then Ok None else c ← decodeBackupCursor dateParse decodeSegment t; mret (Some c) | None => Ok None end
            : result (option BackupCursor)) = Ok (cursor_of <$> c)) as ->.
  { destruct c as [x|]; [destruct Hc as [Hx ->]|by rewrite Hc]. rewrite (proj1 (cursor_text x Hx)).
    by rewrite cursor_decodes. }
  cbn [mbind result_bind]. rewrite backup_page_below by (destruct c; naive_solver).
  destruct (page below rows (Z.to_nat limit) c) as [p more]. cbn [fst snd]. destruct p; cbn; by rewrite Hlimit.
Qed.

Lemma page_last_in c x : (page below rows (Z.to_nat limit) c).2 = Some x -> x ∈ rows.
Proof.
  unfold page. cbn [snd]. destruct (_ <? _)%nat; [|done]. intros Hx%last_Some_elem_of.
  apply elem_of_take in Hx as (i & Hx & _). apply list_elem_of_lookup_2, elem_of_take in Hx as (j & Hx & _).
  apply list_elem_of_lookup_2 in Hx. rewrite js_sort_perm in Hx. destruct c; [by apply list_elem_of_filter in Hx as [_ ?]|done].
Qed.

Lemma list_walk_pages fuel c text : match c with Some x => x ∈ rows /\ text = Some (encodeBackupCursor encodeSegment x) | None => text = None end ->
  list_walk fuel text = Ok (map (fun row => publicBackup row clock) (walk below rows (Z.to_nat limit) fuel c)).
Proof.
  revert c text. induction fuel as [|fuel IH]; intros c text Hc; [done|]. cbn [list_walk walk]. rewrite (listBackups_page c text Hc).
  cbn [mbind result_bind fst snd]. destruct ((page below rows (Z.to_nat limit) c).2) as [x|] eqn:E; cbn [fmap option_fmap option_map].
  - rewrite (IH (Some x)) by (split; [by eapply page_last_in|done]). cbn [mbind result_bind]. by rewrite map_app.
  - cbn [mbind result_bind]. by rewrite !app_nil_r.
Qed.

Lemma list_walk_all fuel : (length rows < fuel)%nat ->
  list_walk fuel None = Ok (map (fun row => publicBackup row clock) (js_sort (newest_first localeCompare) rows)).
Proof.
  intros Hf. destruct below_laws as (H1 & H2 & H3). rewrite (list_walk_pages fuel None None) by done.
  rewrite (walk_all below H1 H2 H3 rows (Z.to_nat limit)); [|by apply sorted_ordered; [..|apply rows_themselves|apply rows_total]|lia|done].
  do 2 f_equal. apply js_sort_ext. intros x y Hx Hy. by rewrite newest_first_below.
Qed.

End pages.

(** Following the cursors of [listBackups] from the first page, with any page
    size, ends and lists every backup of the resource exactly once, newest
    first. *)
Theorem list_backups_complete dateParse localeCompare encodeSegment decodeSegment state scope resourceId limit clock :
  (forall t, dateParse (toISOString t) <> None) ->
  (forall b, b ∈ resource_backups state resourceId (scope_organizationId scope) ->
     let text := encodeBackupCursor encodeSegment b in str_empty text = false /\ forallb is_id_char (chars text) = true
       /\ decodeSegment text = Some (cursor_json (cursor_of b))) ->
  owns_resource state resourceId (scope_organizationId scope) = true -> recoveryAuthorized state scope "backup:manage" = Ok tt ->
  NoDup (map (fun b => rc_id (bk_base b)) (backups state)) -> (forall b, b ∈ backups state -> rc_id (bk_base b) <> "") ->
  (forall a b, a ∈ resource_backups state resourceId (scope_organizationId scope) -> b ∈ resource_backups state resourceId (scope_organizationId scope) ->
     localeCompare (cur_at (cursor_of a)) (cur_at (cursor_of b)) = String.compare (cur_at (cursor_of a)) (cur_at (cursor_of b))
     /\ localeCompare (cur_id (cursor_of a)) (cur_id (cursor_of b)) = String.compare (cur_id (cursor_of a)) (cur_id (cursor_of b))) ->
  1 <= limit <= 1000 ->
  exists listed, listed ≡ₚ resource_backups state resourceId (scope_organizationId scope)
    /\ listed = js_sort (newest_first localeCompare) (resource_backups state resourceId (scope_organizationId scope))
    /\ list_walk dateParse localeCompare encodeSegment decodeSegment state scope resourceId limit clock (S (length (backups state))) None
       = Ok (map (fun row => publicBackup row clock) listed).
Proof.
  intros. eexists. split; [apply (js_sort_perm (newest_first localeCompare))|]. split; [done|].
  apply list_walk_all; try done. unfold resource_backups. pose proof (length_filter (fun row => rc_formatVersion (bk_base row) = 1 /\ bk_resourceId row = resourceId /\ rc_organizationId (bk_base row) = scope_organizationId scope) (backups state)). lia.
Qed.

Close Scope Z_scope.
