(* ===== verification/RecoveryExamples.v ===== *)
(** * A backup, its restore and its deletion on concrete data *)

From S2P Require Import Prelude JsString JsMap JsVal Ids Rbac Lifecycle Secrets Accounts Redaction Workflows ControlPlane Deployments DeploymentOperations Paging RecoveryProvenance Recovery RecoveryService RecoverySafety RecoveryRuns RecoveryPages.

Open Scope Z_scope.

Definition any_date (s : string) : option Z := Some 0.
Definition plain_hash (s : string) : string := s.
Definition no_quota (s : RecoveryState) (r : RecoveryRequest) (k : RecoveryKind) : result unit := Ok tt.

Definition hex64 : string := "0123456789abcdef0123456789abcdef0123456789abcdef0123456789abcdef".

Definition club_database : RecoveryResource :=
  mkResource "res_1" "prj_1" "main-db" "main-db" "database" "postgresql" "shared-provider" "shared-small" "local" None "READY" None
    [("storageMb", JNum (NInt 512))]
    [("providerImageProvenance", JObj [("schema", JStr "raibitserver.provider-image/v1"); ("image", JStr ("postgres@sha256:" +:+ hex64));
        ("workloadUid", JStr "uid-1"); ("workloadGeneration", JNum (NInt 1)); ("observedAt", JStr "2026-01-01T00:00:00.000Z")]);
     ("providerIdentity", JObj [("namespace", JStr "club"); ("name", JStr "main-db")]);
     ("credentialSecretUID", JStr "secret-1");
     ("credentialSecretGeneration", JStr "0123456789abcdef0123456789abcdef0123456789a")]
    (Some "main-db-connection").

Definition club_recovery : RecoveryState :=
  emptyRecoveryState <| organizations := ["org_1"] |> <| projects := [mkRecoveryProject "prj_1" "org_1" "ACTIVE" None] |>
    <| resources := [club_database] |> <| members := [mkRecoveryMember "org_1" "ann" "owner"] |>.

Definition ann : RecoveryScope := mkRecoveryScope "org_1" "ann".
Definition backup_request : RecoveryRequest :=
  mkRequest ann "res_1" (JObj [("requestIdempotencyKey", JStr "backup-1"); ("formatVersion", JNum (NInt 1))]) None.
Definition restore_request : RecoveryRequest :=
  mkRequest ann "backup_b1" (JObj [("requestIdempotencyKey", JStr "restore-1"); ("formatVersion", JNum (NInt 1)); ("name", JStr "copy-db")]) None.

Definition backup_uuids : Uuids := mkUuids "b1" "" "p1".
Definition restore_uuids : Uuids := mkUuids "r1" "t1" "p2".

Definition after_backup_request : RecoveryState :=
  (create_with_quota any_date plain_hash no_quota backup_request kind_backup backup_uuids 1000 club_recovery).2.

Definition backup_claim (worker : string) : RecoveryClaim := mkClaim "org_1" kind_backup "backup_b1" worker None.
Definition mutate_with (fence : RecoveryFence) (clock : Z) (s : RecoveryState) (m : RecoveryMutation) : RecoveryState :=
  (mutate any_date plain_hash fence m clock s).2.

(** The first worker claims the backup and dies; the second takes over. *)
Definition first_claimed : RecoveryState := (claim any_date plain_hash (backup_claim "w1") 2000 after_backup_request).2.
Definition second_claimed : RecoveryState := (claim any_date plain_hash (backup_claim "w2") 70000 first_claimed).2.
Definition first_fence : RecoveryFence := mkFence (backup_claim "w1") 1.
Definition second_fence : RecoveryFence := mkFence (backup_claim "w2") 2.

Definition artifact : RecoveryArtifact := mkArtifact hex64 "2048" "k1".

Definition backed_up : RecoveryState :=
  foldl (mutate_with second_fence 71000) second_claimed
    [intent "k1"; upload "u1"; candidate "2048" "1024" hex64; complete; verify; ready (Some artifact)].

Definition restoring : RecoveryState :=
  (create_with_quota any_date plain_hash no_quota restore_request kind_restore restore_uuids 80000 backed_up).2.

Definition restore_claim : RecoveryClaim := mkClaim "org_1" kind_restore "restore_r1" "w3" None.
Definition restored : RecoveryState :=
  foldl (mutate_with (mkFence restore_claim 1) 82000) (claim any_date plain_hash restore_claim 81000 restoring).2 [heartbeat; verify; ready None].

(** The restored resource is published and its pin released. *)
Example restore_published :
  map (fun r => (rr_id r, rr_status r)) (resources restored) = [("res_1", "READY"); ("res_t1", "READY")]
  /\ map rs_status (restores restored) = ["READY"] /\ map pin_kind (pins restored) = [ARTIFACT_SOURCE].
Proof. by vm_compute. Qed.

(** While the restore runs, the backup may expire but is not cleaned up. *)
Definition cleanup_claim : RecoveryClaim := mkClaim "org_1" kind_backup "backup_b1" "w4" None.

Example cleanup_waits : (claimCleanup any_date cleanup_claim "token" 90000 restoring).1 = Throw (recovery_conflict "RECOVERY_RESTORE_PINNED").
Proof. by vm_compute. Qed.

Definition steps := recovery_step any_date plain_hash no_quota.

Lemma mutations_run fence clock ms s : rtc steps s (foldl (mutate_with fence clock) s ms).
Proof. revert s. induction ms as [|m ms IH]; intros s; cbn; [done|]. eapply rtc_l; [apply step_mutate|]. apply IH. Qed.

Lemma claimed_run s input clock : rtc steps s (claim any_date plain_hash input clock s).2.
Proof. eapply rtc_l; [apply step_claim|apply rtc_refl]. Qed.

Lemma created_run s request kind uuids clock : fresh plain_hash s kind uuids -> rtc steps s (create_with_quota any_date plain_hash no_quota request kind uuids clock s).2.
Proof. intros H. eapply rtc_l; [by apply step_create|apply rtc_refl]. Qed.

Definition fresh_check (s : RecoveryState) (kind : RecoveryKind) (uuids : Uuids) : bool :=
  bool_decide (new_id kind uuids ∉ backup_ids s ++ restore_ids s) && bool_decide (new_id kind uuids ∉ rj_targetId <$> jobs s)
  && bool_decide (rj_id (recovery_job plain_hash kind (new_id kind uuids) 0) ∉ rj_id <$> jobs s).

Lemma fresh_by_check s kind uuids : fresh_check s kind uuids = true -> fresh plain_hash s kind uuids.
Proof.
  unfold fresh_check. intros [[H1 H2]%andb_true_iff H3]%andb_true_iff.
  apply bool_decide_eq_true in H1, H2, H3. refine (conj H1 (conj H2 H3)).
Qed.

Lemma backup_fresh : fresh plain_hash club_recovery kind_backup backup_uuids.
Proof. apply fresh_by_check. vm_compute. reflexivity. Qed.

Lemma restore_fresh : fresh plain_hash backed_up kind_restore restore_uuids.
Proof. apply fresh_by_check. vm_compute. reflexivity. Qed.

Lemma first_claimed_run : rtc steps club_recovery first_claimed.
Proof. unfold first_claimed, after_backup_request. etrans; [apply created_run, backup_fresh|apply claimed_run]. Qed.

Lemma second_claimed_run : rtc steps club_recovery second_claimed.
Proof. unfold second_claimed. etrans; [apply first_claimed_run|apply claimed_run]. Qed.

Lemma backed_up_run : rtc steps second_claimed backed_up.
Proof. unfold backed_up. apply mutations_run. Qed.

Lemma restoring_run : rtc steps club_recovery restoring.
Proof.
  unfold restoring. etrans; [etrans; [apply second_claimed_run|apply backed_up_run]|].
  apply created_run, restore_fresh.
Qed.

Lemma club_pristine : pristine club_recovery.
Proof. by vm_compute. Qed.

(** ** Witnesses *)

Definition second_job : RecoveryJob := nth 0 (jobs second_claimed) (recovery_job plain_hash kind_backup "" 0).
Definition running_restore : RecoveryRestore :=
  nth 0 (restores restoring) (mkRestore (recovery_base plain_hash kind_restore restore_request (mkBody "" None) club_database "" "" 0) "" "" "" "" None).

Lemma nth_0_elem {A} (l : list A) d : (0 < length l)%nat -> nth 0 l d ∈ l.
Proof. destruct l; cbn; [lia|]. intros _. by left. Qed.

Lemma second_job_in : second_job ∈ jobs second_claimed.
Proof. apply nth_0_elem. vm_compute. lia. Qed.

Lemma running_restore_in : running_restore ∈ restores restoring.
Proof. apply nth_0_elem. vm_compute. lia. Qed.

(** The first worker tries to publish after the second has finished the backup. *)
Lemma superseded_worker_refused_witness :
  exists e, mutate any_date plain_hash first_fence (ready (Some artifact)) 72000 backed_up = (Throw e, backed_up).
Proof.
  apply (superseded_worker_refused any_date plain_hash no_quota club_recovery second_claimed backed_up second_job).
  - exact club_pristine.
  - exact second_claimed_run.
  - exact second_job_in.
  - exact backed_up_run.
  - vm_compute. reflexivity.
  - vm_compute. reflexivity.
Defined.

Lemma restore_keeps_artifact_witness :
  exists b a, b ∈ backups restoring /\ rc_id (bk_base b) = rs_backupId running_restore /\ bk_status b ∈ available
    /\ a ∈ attempts restoring /\ artifact_of b a /\ attempt_wf a
    /\ (exists e, assertRecoveryPins restoring [rs_targetResourceId running_restore] = Throw e)
    /\ forall input token clock, cl_kind input = kind_backup -> cl_operationId input = rs_backupId running_restore ->
         (exists e, claimCleanup any_date input token clock restoring = (Throw e, restoring))
         /\ (exists e, finishCleanup any_date input token clock restoring = (Throw e, restoring)).
Proof.
  apply (restore_keeps_artifact any_date plain_hash no_quota club_recovery restoring running_restore).
  - exact club_pristine.
  - exact restoring_run.
  - exact running_restore_in.
  - vm_compute. reflexivity.
Defined.

Definition first_backup : RecoveryBackup :=
  nth 0 (backups second_claimed) (mkBackup (recovery_base plain_hash kind_backup backup_request (mkBody "" None) club_database "" "" 0) "" "" None [] None None None None None None).

Lemma first_backup_in : operation_in second_claimed (OfBackup first_backup).
Proof. unfold operation_in. apply nth_0_elem. vm_compute. lia. Qed.

Lemma recovery_lifecycle_witness :
  exists st, rtc (lifecycle_step (machine_of (operation_kind (OfBackup first_backup)))) (status_of (OfBackup first_backup)) st
    /\ ((exists o', operation_in backed_up o' /\ operation_id o' = operation_id (OfBackup first_backup)
           /\ operation_kind o' = operation_kind (OfBackup first_backup) /\ status_of o' = st)
        \/ st ∈ final).
Proof.
  apply (recovery_lifecycle any_date plain_hash no_quota club_recovery second_claimed backed_up (OfBackup first_backup)).
  - exact club_pristine.
  - exact second_claimed_run.
  - exact first_backup_in.
  - exact backed_up_run.
Defined.

Definition backup_result : RecoveryResult :=
  match (create_with_quota any_date plain_hash no_quota backup_request kind_backup backup_uuids 1000 club_recovery).1 with
  | Ok r => r
  | Throw _ => mkResult (OfBackup first_backup) second_job true
  end.

Lemma create_idempotent_witness :
  create_with_quota any_date plain_hash no_quota backup_request kind_backup restore_uuids 5000 after_backup_request
  = (Ok (mkResult (res_operation backup_result) (res_job backup_result) true), after_backup_request).
Proof.
  apply (create_idempotent any_date plain_hash no_quota backup_request kind_backup backup_uuids 1000 club_recovery).
  - vm_compute. reflexivity.
  - exact backup_fresh.
Defined.

(** Two backups, listed one per page *)
Definition second_request : RecoveryRequest :=
  mkRequest ann "res_1" (JObj [("requestIdempotencyKey", JStr "backup-2"); ("formatVersion", JNum (NInt 1))]) None.
Definition two_backups : RecoveryState :=
  (create_with_quota any_date plain_hash no_quota second_request kind_backup (mkUuids "b2" "" "p3") 90000 backed_up).2.

Definition id_segment (v : jsval) : string := match field "id" v with JStr s => s | _ => "" end.
Definition id_cursor (text : string) : option jsval :=
  (fun b => cursor_json (cursor_of b)) <$> js_find (fun b => rc_id (bk_base b) = text) (backups two_backups).

Definition cursor_check (b : RecoveryBackup) : bool :=
  let text := encodeBackupCursor id_segment b in
  negb (str_empty text) && forallb is_id_char (chars text)
  && match id_cursor text with
     | Some (JObj [(v, JNum (NInt one)); (at_, JStr a); (id, JStr i)]) =>
         bool_decide ((v, one, at_, id) = ("v", 1, "at", "id")) && bool_decide (a = cur_at (cursor_of b)) && bool_decide (i = cur_id (cursor_of b))
     | _ => false
     end.

Lemma cursor_check_text b : cursor_check b = true ->
  let text := encodeBackupCursor id_segment b in str_empty text = false /\ forallb is_id_char (chars text) = true
    /\ id_cursor text = Some (cursor_json (cursor_of b)).
Proof.
  unfold cursor_check. cbn zeta. intros [[H1%negb_true_iff H2]%andb_true_iff H3]%andb_true_iff. split_and!; [done|done|].
  destruct (id_cursor (encodeBackupCursor id_segment b)) as [v|]; [|done].
  destruct v as [| | | | | |[|[k1 [| | |[one| | |]| | |]] [|[k2 [| | | |a| |]] [|[k3 [| | | |i| |]] [|]]]]]; try done.
  repeat apply andb_true_iff in H3 as [H3 ?]. repeat match goal with H : bool_decide _ = true |- _ => apply bool_decide_eq_true in H end.
  unfold cursor_json. congruence.
Qed.

Lemma cursors_checked s resourceId organizationId : forallb cursor_check (backups s) = true ->
  forall b, b ∈ resource_backups s resourceId organizationId ->
  let text := encodeBackupCursor id_segment b in str_empty text = false /\ forallb is_id_char (chars text) = true
    /\ id_cursor text = Some (cursor_json (cursor_of b)).
Proof.
  intros H b [_ Hb]%list_elem_of_filter. apply cursor_check_text. rewrite forallb_forall in H. by apply H, list_elem_of_In.
Qed.

Lemma two_backups_checked : forallb cursor_check (backups two_backups) = true.
Proof. vm_compute. reflexivity. Qed.

Lemma two_backups_ids : map (fun b => rc_id (bk_base b)) (backups two_backups) = ["backup_b1"; "backup_b2"].
Proof. vm_compute. reflexivity. Qed.

Lemma ids_distinct s : map (fun b => rc_id (bk_base b)) (backups s) = ["backup_b1"; "backup_b2"] -> NoDup (map (fun b => rc_id (bk_base b)) (backups s)).
Proof. intros ->. apply (bool_decide_unpack _). vm_compute. exact I. Qed.

Lemma ids_named s : map (fun b => rc_id (bk_base b)) (backups s) = ["backup_b1"; "backup_b2"] -> forall b, b ∈ backups s -> rc_id (bk_base b) <> "".
Proof.
  intros E b Hb Hid. assert ("" ∈ map (fun b => rc_id (bk_base b)) (backups s)) as H by (apply list_elem_of_fmap; by exists b).
  rewrite E in H. apply elem_of_cons in H as [H|H]; [done|]. apply elem_of_cons in H as [H|H]; [done|by apply not_elem_of_nil in H].
Qed.

Lemma list_backups_complete_witness :
  exists listed, listed ≡ₚ resource_backups two_backups "res_1" "org_1"
    /\ listed = js_sort (newest_first String.compare) (resource_backups two_backups "res_1" "org_1")
    /\ list_walk any_date String.compare id_segment id_cursor two_backups ann "res_1" 1 95000 (S (length (backups two_backups))) None
       = Ok (map (fun row => publicBackup row 95000) listed).
Proof.
  apply (list_backups_complete any_date String.compare id_segment id_cursor two_backups ann "res_1" 1 95000).
  - intros t. discriminate.
  - exact (cursors_checked two_backups "res_1" "org_1" two_backups_checked).
  - vm_compute. reflexivity.
  - vm_compute. reflexivity.
  - exact (ids_distinct two_backups two_backups_ids).
  - exact (ids_named two_backups two_backups_ids).
  - intros a b _ _. split; reflexivity.
  - lia.
Defined.

Example two_pages : (map bv_id <$> (match list_walk any_date String.compare id_segment id_cursor two_backups ann "res_1" 1 95000 3 None with Ok l => Some l | Throw _ => None end))
  = Some ["backup_b2"; "backup_b1"].
Proof. vm_compute. reflexivity. Qed.

Close Scope Z_scope.
