(* ===== verification/Domains.v ===== *)
(** * Custom domains ([packages/core/src/domain.ts], the domain part of [store.ts])

    A tenant claims a hostname for a public web service, proves control of it
    with a DNS challenge and may rotate the challenge, ask for a check or
    delete the domain; versions guard each change.  Verification, routing and
    certificates are observed by controllers outside this code. *)

From S2P Require Import Prelude JsString JsMap JsVal Ids Accounts.

Open Scope Z_scope.

Definition DOMAIN_CHALLENGE_TTL_MS : Z := 24 * 60 * 60 * 1000.

Inductive DomainStatus : Type :=
| PENDING_VERIFICATION | VERIFIED | ROUTING | READY | FAILED | DELETING.
Inductive DomainTlsStatus : Type := TLS_PENDING | TLS_ISSUING | TLS_READY | TLS_FAILED.
#[export] Instance DomainStatus_eq_dec : EqDecision DomainStatus.
Proof. solve_decision. Defined.
#[export] Instance DomainTlsStatus_eq_dec : EqDecision DomainTlsStatus.
Proof. solve_decision. Defined.

Definition domain_status_text (s : DomainStatus) : string :=
  match s with
  | PENDING_VERIFICATION => "PENDING_VERIFICATION" | VERIFIED => "VERIFIED" | ROUTING => "ROUTING"
  | READY => "READY" | FAILED => "FAILED" | DELETING => "DELETING"
  end.
Definition tls_status_text (s : DomainTlsStatus) : string :=
  match s with TLS_PENDING => "PENDING" | TLS_ISSUING => "ISSUING" | TLS_READY => "READY" | TLS_FAILED => "FAILED" end.

Record CustomDomainRecord := mkDomain {
  cd_id : string; cd_organizationId : string; cd_projectId : string; cd_serviceId : string; cd_hostname : string;
  cd_status : DomainStatus; cd_verificationTokenHash : option string; cd_verificationVersion : Z;
  cd_issuedAt : option Z; cd_expiresAt : option Z; cd_verifiedAt : option Z; cd_verificationRequestedAt : option Z;
  cd_lastCheckedAt : option Z; cd_nextCheckAt : option Z; cd_consecutiveFailures : Z; cd_tlsStatus : DomainTlsStatus;
  cd_desiredGeneration : Z; cd_controllerLeaseGeneration : Z; cd_certificateObservedGeneration : Z;
  cd_routeObservedGeneration : Z; cd_cleanupRequiredForVersion : option Z;
  cd_certificateAbsentObservedVersion : option Z; cd_routeAbsentObservedVersion : option Z;
  cd_deletionRequestedAt : option Z; cd_actorUserId : string; cd_lastErrorCode : option string;
  cd_lastErrorMessage : option string; cd_createdAt : Z; cd_updatedAt : Z
}.

#[export] Instance CustomDomainRecord_rebuild : Rebuild CustomDomainRecord := fun r =>
  mkDomain (cd_id r) (cd_organizationId r) (cd_projectId r) (cd_serviceId r) (cd_hostname r) (cd_status r)
    (cd_verificationTokenHash r) (cd_verificationVersion r) (cd_issuedAt r) (cd_expiresAt r) (cd_verifiedAt r)
    (cd_verificationRequestedAt r) (cd_lastCheckedAt r) (cd_nextCheckAt r) (cd_consecutiveFailures r) (cd_tlsStatus r)
    (cd_desiredGeneration r) (cd_controllerLeaseGeneration r) (cd_certificateObservedGeneration r)
    (cd_routeObservedGeneration r) (cd_cleanupRequiredForVersion r) (cd_certificateAbsentObservedVersion r)
    (cd_routeAbsentObservedVersion r) (cd_deletionRequestedAt r) (cd_actorUserId r) (cd_lastErrorCode r)
    (cd_lastErrorMessage r) (cd_createdAt r) (cd_updatedAt r).

Definition DomainLifecycleError (code_ : string) (status : Z) : jserror :=
  JsError "DomainLifecycleError" code_ (Some status).

(** ** Hostnames *)

(** [text.replace(/\.$/, '')] *)
Definition drop_final_dot (s : string) : string :=
  match rev (chars s) with
  | "."%char :: r => unchars (rev r)
  | _ => s
  end.

Section hostnames.
(** Node's [isIP] and [domainToASCII]. *)
Context (isIP : string -> bool) (domainToASCII : string -> string).

Definition valid_labels (labels : list string) : bool :=
  forallb (fun label => (length (chars label) <=? 63)%nat && label_pattern label) labels.

Definition platform_zones (zones : list string) : list string :=
  filter (fun z => z <> "") (map (fun zone => domainToASCII (drop_final_dot (toLowerCase (trim zone)))) zones).

Definition in_zone (hostname zone : string) : bool :=
  bool_decide (hostname = zone) || endsWith hostname ("." +:+ zone).

Definition normalizeCustomHostname (value : jsval) (platformZones : list string) : result string :=
  match value with
  | JStr s =>
      let candidate := drop_final_dot (toLowerCase (trim s)) in
      _ ← throw_if (str_empty candidate || includes candidate "*" || isIP candidate)
            (DomainLifecycleError "DOMAIN_HOSTNAME_INVALID" 400);
      let hostname := toLowerCase (domainToASCII candidate) in
      let labels := split_on "."%char hostname in
      _ ← throw_if (str_empty hostname || (253 <? str_length hostname) || (length labels <? 2)%nat || negb (valid_labels labels))
            (DomainLifecycleError "DOMAIN_HOSTNAME_INVALID" 400);
      _ ← throw_if (existsb (in_zone hostname) (platform_zones platformZones))
            (DomainLifecycleError "DOMAIN_PLATFORM_ZONE_FORBIDDEN" 400);
      mret hostname
  | _ => Throw (DomainLifecycleError "DOMAIN_HOSTNAME_INVALID" 400)
  end.
End hostnames.

(** ** Challenges and the life of a record *)

Section challenges.
(** The hexadecimal SHA-256 digest of a text. *)
Context (sha256_hex : string -> string).

Definition hashDomainChallenge (token : string) : string := sha256_hex token.

Definition is_lower_hex (c : ascii) : bool := is_digit c || in_range 97 102 c.

Definition matchesDomainChallenge (token : string) (expectedHash : option string) : bool :=
  match expectedHash with
  | None => false
  | Some h => class_pattern is_lower_hex 64 64 h && bool_decide (hashDomainChallenge token = h)
  end.

Record IssueInput := mkIssue {
  ii_id : string; ii_organizationId : string; ii_projectId : string; ii_serviceId : string; ii_hostname : string;
  ii_actorUserId : string
}.

(** [challengeToken] is the random token drawn by the call. *)
Definition issueCustomDomain (input : IssueInput) (challengeToken : string) (now : Z) : CustomDomainRecord :=
  mkDomain (ii_id input) (ii_organizationId input) (ii_projectId input) (ii_serviceId input) (ii_hostname input)
    PENDING_VERIFICATION (Some (hashDomainChallenge challengeToken)) 1
    (Some now) (Some (now + DOMAIN_CHALLENGE_TTL_MS)) None None None None 0 TLS_PENDING
    1 0 0 0 None None None None (ii_actorUserId input) None None now now.

Definition assertMutableVersion (record : CustomDomainRecord) (expectedVersion : jsval) : result unit :=
  _ ← throw_if (bool_decide (cd_status record = DELETING)) (DomainLifecycleError "DOMAIN_DELETING" 409);
  throw_if (negb (bool_decide (as_integer expectedVersion = Some (cd_verificationVersion record))))
    (DomainLifecycleError "DOMAIN_VERSION_CONFLICT" 409).

Definition rotateCustomDomain (record : CustomDomainRecord) (expectedVersion : jsval) (actorUserId challengeToken : string)
    (now : Z) : result CustomDomainRecord :=
  _ ← assertMutableVersion record expectedVersion;
  mret (record <| cd_status := PENDING_VERIFICATION |>
    <| cd_verificationTokenHash := Some (hashDomainChallenge challengeToken) |>
    <| cd_verificationVersion := cd_verificationVersion record + 1 |>
    <| cd_issuedAt := Some now |> <| cd_expiresAt := Some (now + DOMAIN_CHALLENGE_TTL_MS) |> <| cd_verifiedAt := None |>
    <| cd_verificationRequestedAt := None |> <| cd_lastCheckedAt := None |> <| cd_nextCheckAt := None |>
    <| cd_consecutiveFailures := 0 |> <| cd_tlsStatus := TLS_PENDING |>
    <| cd_desiredGeneration := cd_desiredGeneration record + 1 |>
    <| cd_certificateObservedGeneration := 0 |> <| cd_routeObservedGeneration := 0 |>
    <| cd_cleanupRequiredForVersion := Some (cd_verificationVersion record) |>
    <| cd_certificateAbsentObservedVersion := None |> <| cd_routeAbsentObservedVersion := None |>
    <| cd_actorUserId := actorUserId |> <| cd_lastErrorCode := None |> <| cd_lastErrorMessage := None |>
    <| cd_updatedAt := now |>).
End challenges.

Definition requestCustomDomainCheck (record : CustomDomainRecord) (expectedVersion : jsval) (actorUserId : string) (now : Z)
    : result CustomDomainRecord :=
  _ ← assertMutableVersion record expectedVersion;
  mret (record <| cd_verificationRequestedAt := Some now |> <| cd_nextCheckAt := Some now |>
    <| cd_actorUserId := actorUserId |> <| cd_updatedAt := now |>).

(** [a ?? b] *)
Definition or_else {A} (a : option A) (b : A) : option A := match a with Some _ => a | None => Some b end.

Definition requestCustomDomainDelete (record : CustomDomainRecord) (expectedVersion : jsval) (actorUserId : string) (now : Z)
    : result CustomDomainRecord :=
  _ ← assertMutableVersion record expectedVersion;
  mret (record <| cd_status := DELETING |> <| cd_desiredGeneration := cd_desiredGeneration record + 1 |>
    <| cd_cleanupRequiredForVersion := or_else (cd_cleanupRequiredForVersion record) (cd_verificationVersion record) |>
    <| cd_certificateAbsentObservedVersion := None |> <| cd_routeAbsentObservedVersion := None |>
    <| cd_deletionRequestedAt := or_else (cd_deletionRequestedAt record) now |>
    <| cd_actorUserId := actorUserId |> <| cd_updatedAt := now |>).

(** ** Views *)

Record DomainCleanupBarrier := mkBarrier {
  cb_version : Z; cb_certificateAbsent : option Z; cb_routeAbsent : option Z; cb_complete : bool
}.

Definition cleanupBarrier (record : CustomDomainRecord) : option DomainCleanupBarrier :=
  match cd_cleanupRequiredForVersion record with
  | None => None
  | Some v => Some (mkBarrier v (cd_certificateAbsentObservedVersion record) (cd_routeAbsentObservedVersion record)
                      (bool_decide (cd_certificateAbsentObservedVersion record = Some v)
                       && bool_decide (cd_routeAbsentObservedVersion record = Some v)))
  end.

Definition json_instant (t : option Z) : jsval := match t with Some ms => JStr (toISOString ms) | None => JNull end.
Definition json_int (z : Z) : jsval := JNum (NInt z).
Definition json_opt_int (z : option Z) : jsval := match z with Some z => json_int z | None => JNull end.
Definition json_opt_str (s : option string) : jsval := match s with Some s => JStr s | None => JNull end.

(** The view is the record without the token hash, with the barrier in place
    of its three fields. *)
Definition publicCustomDomain (r : CustomDomainRecord) : jsval :=
  JObj [("id", JStr (cd_id r)); ("organizationId", JStr (cd_organizationId r)); ("projectId", JStr (cd_projectId r));
        ("serviceId", JStr (cd_serviceId r)); ("hostname", JStr (cd_hostname r));
        ("status", JStr (domain_status_text (cd_status r))); ("verificationVersion", json_int (cd_verificationVersion r));
        ("issuedAt", json_instant (cd_issuedAt r)); ("expiresAt", json_instant (cd_expiresAt r));
        ("verifiedAt", json_instant (cd_verifiedAt r));
        ("verificationRequestedAt", json_instant (cd_verificationRequestedAt r));
        ("lastCheckedAt", json_instant (cd_lastCheckedAt r)); ("nextCheckAt", json_instant (cd_nextCheckAt r));
        ("consecutiveFailures", json_int (cd_consecutiveFailures r)); ("tlsStatus", JStr (tls_status_text (cd_tlsStatus r)));
        ("desiredGeneration", json_int (cd_desiredGeneration r));
        ("controllerLeaseGeneration", json_int (cd_controllerLeaseGeneration r));
        ("certificateObservedGeneration", json_int (cd_certificateObservedGeneration r));
        ("routeObservedGeneration", json_int (cd_routeObservedGeneration r));
        ("deletionRequestedAt", json_instant (cd_deletionRequestedAt r)); ("actorUserId", JStr (cd_actorUserId r));
        ("lastErrorCode", json_opt_str (cd_lastErrorCode r)); ("lastErrorMessage", json_opt_str (cd_lastErrorMessage r));
        ("createdAt", JStr (toISOString (cd_createdAt r))); ("updatedAt", JStr (toISOString (cd_updatedAt r)));
        ("cleanupBarrier", match cleanupBarrier r with
                           | None => JNull
                           | Some b => JObj [("version", json_int (cb_version b));
                               ("certificateAbsentObservedVersion", json_opt_int (cb_certificateAbsent b));
                               ("routeAbsentObservedVersion", json_opt_int (cb_routeAbsent b));
                               ("complete", JBool (cb_complete b))]
                           end)].

(** ** The store *)

Record ProjectRef := mkProjectRef { pj_id : string; pj_organizationId : string }.
Record ServiceRef := mkServiceRef { sv_id : string; sv_projectId : string; sv_type : string }.

Record AttachedDomain := mkAttached {
  ad_id : string; ad_projectId : string; ad_serviceId : string; ad_domain : string; ad_verified : bool;
  ad_tlsStatus : string; ad_createdAt : Z
}.

(** The map holds managed domains and rows of the older [attachDomain]. *)
Inductive DomainRow : Type :=
| Managed (r : CustomDomainRecord)
| Attached (r : AttachedDomain).

(** [String(domain.hostname || domain.domain).toLowerCase()] *)
Definition row_hostname (row : DomainRow) : string :=
  toLowerCase (match row with Managed r => cd_hostname r | Attached r => ad_domain r end).

Record DomainStore := mkDomainStore {
  ds_accounts : AccountStore; ds_projects : jsmap ProjectRef; ds_services : jsmap ServiceRef; ds_domains : jsmap DomainRow
}.
#[export] Instance DomainStore_rebuild : Rebuild DomainStore := fun s =>
  mkDomainStore (ds_accounts s) (ds_projects s) (ds_services s) (ds_domains s).

Definition domain_audit (actorUserId action targetId : string) (metadata : jsval) (now : Z) : M DomainStore unit := fun s =>
  let '(r, a) := audit actorUserId action "domain" targetId metadata now (ds_accounts s) in
  (r, s <| ds_accounts := a |>).

Definition attachDomain (projectId serviceId domain : string) (verified : bool) (tlsStatus : string) (now : Z)
    : M DomainStore AttachedDomain :=
  let row := mkAttached (stableId "dom" [JStr domain]) projectId serviceId domain verified tlsStatus now in
  _ ← modify (fun s => s <| ds_domains := map_set (ad_id row) (Attached row) (ds_domains s) |>);
  mret row.

Record CreateDomainInput := mkCreateDomain {
  ci_organizationId : string; ci_projectId : string; ci_serviceId : string; ci_hostname : jsval;
  ci_platformZones : list string; ci_actorUserId : string
}.

Section domain_store.
Context (isIP : string -> bool) (domainToASCII sha256_hex : string -> string).

Definition createCustomDomain (input : CreateDomainInput) (challengeToken : string) (now : Z) : M DomainStore CustomDomainRecord :=
  s ← get;
  scope ← lift (match map_get (ci_projectId input) (ds_projects s), map_get (ci_serviceId input) (ds_services s) with
                | Some project, Some service =>
                    if bool_decide (pj_organizationId project = ci_organizationId input)
                       && bool_decide (sv_projectId service = pj_id project)
                    then Ok (project, service) else Throw (DomainLifecycleError "DOMAIN_SCOPE_NOT_FOUND" 404)
                | _, _ => Throw (DomainLifecycleError "DOMAIN_SCOPE_NOT_FOUND" 404)
                end);
  let '(project, service) := scope in
  _ ← lift (throw_if (negb (bool_decide (toLowerCase (sv_type service) = "web")))
              (DomainLifecycleError "DOMAIN_SERVICE_NOT_PUBLIC_WEB" 400));
  hostname ← lift (normalizeCustomHostname isIP domainToASCII (ci_hostname input) (ci_platformZones input));
  _ ← lift (throw_if (existsb (fun row => bool_decide (row_hostname row = hostname)) (map_values (ds_domains s)))
              (DomainLifecycleError "DOMAIN_HOSTNAME_CONFLICT" 409));
  let record := issueCustomDomain sha256_hex
    (mkIssue (stableId "dom" [JStr hostname]) (pj_organizationId project) (pj_id project) (sv_id service) hostname
       (ci_actorUserId input)) challengeToken now in
  _ ← modify (fun s => s <| ds_domains := map_set (cd_id record) (Managed record) (ds_domains s) |>);
  _ ← domain_audit (ci_actorUserId input) "domain:create" (cd_id record) (publicCustomDomain record) now;
  mret record.

Definition requireCustomDomain (domainId : string) (s : DomainStore) : result CustomDomainRecord :=
  match map_get domainId (ds_domains s) with
  | Some (Managed r) => if str_empty (cd_hostname r) then Throw (DomainLifecycleError "DOMAIN_NOT_FOUND" 404) else Ok r
  | _ => Throw (DomainLifecycleError "DOMAIN_NOT_FOUND" 404)
  end.

Definition store_domain (domainId action actorUserId : string) (record : CustomDomainRecord) (now : Z)
    : M DomainStore CustomDomainRecord :=
  _ ← modify (fun s => s <| ds_domains := map_set domainId (Managed record) (ds_domains s) |>);
  _ ← domain_audit actorUserId action domainId (publicCustomDomain record) now;
  mret record.

Definition rotateCustomDomainChallenge (domainId : string) (expectedVersion : jsval) (actorUserId challengeToken : string) (now : Z)
    : M DomainStore CustomDomainRecord :=
  s ← get;
  current ← lift (requireCustomDomain domainId s);
  rotated ← lift (rotateCustomDomain sha256_hex current expectedVersion actorUserId challengeToken now);
  store_domain domainId "domain:rotate" actorUserId rotated now.

Definition requestCustomDomainVerification (domainId : string) (expectedVersion : jsval) (actorUserId : string) (now : Z)
    : M DomainStore CustomDomainRecord :=
  s ← get;
  current ← lift (requireCustomDomain domainId s);
  domain ← lift (requestCustomDomainCheck current expectedVersion actorUserId now);
  store_domain domainId "domain:verify-requested" actorUserId domain now.

Definition requestCustomDomainDeletion (domainId : string) (expectedVersion : jsval) (actorUserId : string) (now : Z)
    : M DomainStore CustomDomainRecord :=
  s ← get;
  current ← lift (requireCustomDomain domainId s);
  domain ← lift (requestCustomDomainDelete current expectedVersion actorUserId now);
  store_domain domainId "domain:delete-requested" actorUserId domain now.

Definition listCustomDomainsForProject (projectId : string) (s : DomainStore) : list jsval :=
  omap (fun row => match row with
                   | Managed r => if negb (str_empty (cd_hostname r)) && bool_decide (cd_projectId r = projectId)
                                  then Some (publicCustomDomain r) else None
                   | Attached _ => None
                   end) (map_values (ds_domains s)).

Definition getCustomDomain (domainId : string) (s : DomainStore) : jsval :=
  match requireCustomDomain domainId s with Ok r => publicCustomDomain r | Throw _ => JNull end.
End domain_store.

Close Scope Z_scope.
