(* ===== verification/DomainSafety.v ===== *)
(** * Properties of custom domains

    Which hostnames are accepted, what the versions guarantee, what a rotation
    invalidates, and how identifiers of different hostnames collide. *)

From S2P Require Import Prelude JsString JsMap JsVal Ids Accounts Domains.

Open Scope Z_scope.

(** ** Hostnames *)

Section hostname_properties.
Context (isIP : string -> bool) (domainToASCII : string -> string).

(** A lower-case DNS name of at least two labels. *)
Definition dns_name (h : string) : Prop :=
  1 <= str_length h <= 253 /\ (2 <= length (split_on "."%char h))%nat
  /\ Forall (fun l => (length (chars l) <= 63)%nat /\ label_pattern l = true) (split_on "."%char h).

Lemma valid_labels_spec labels :
  valid_labels labels = true <-> Forall (fun l => (length (chars l) <= 63)%nat /\ label_pattern l = true) labels.
Proof.
  unfold valid_labels. rewrite forallb_forall, Forall_forall.
  split; intros H l Hl; [apply list_elem_of_In in Hl; apply H in Hl; apply andb_true_iff in Hl as [?%Nat.leb_le ?]; done|].
  apply list_elem_of_In in Hl. apply H in Hl as [? ?]. apply andb_true_iff. split; [by apply Nat.leb_le|done].
Qed.

Lemma normalize_hostname_Ok value zones h :
  normalizeCustomHostname isIP domainToASCII value zones = Ok h ->
  dns_name h /\ toLowerCase h = h /\ (forall z, z ∈ platform_zones domainToASCII zones -> in_zone h z = false).
Proof.
  unfold normalizeCustomHostname. destruct value as [| | | |s| |]; try done. cbv zeta.
  set (candidate := drop_final_dot _). rewrite bind_Ok. intros (? & _ & H). apply bind_Ok in H as (? & H1%throw_if_Ok & H).
  apply bind_Ok in H as (? & H2%throw_if_Ok & H). injection H as <-.
  set (h := toLowerCase (domainToASCII candidate)) in *.
  apply orb_false_iff in H1 as [H1 Hl%negb_false_iff]. apply orb_false_iff in H1 as [H1 Hn%Nat.ltb_ge].
  apply orb_false_iff in H1 as [He Hlen%Z.ltb_ge]. split_and!.
  - unfold dns_name. split_and!; [|lia|lia|by apply valid_labels_spec].
    unfold str_length. unfold str_empty in He. destruct (chars h) eqn:E; [|cbn; lia].
    assert (h = "") as Hh by (rewrite <- (unchars_chars h), E; done). rewrite Hh in He. done.
  - unfold h. apply toLowerCase_idem.
  - intros z Hz. destruct (in_zone h z) eqn:Ez; [|done]. apply not_true_iff_false in H2. destruct H2.
    apply existsb_exists. exists z. split; [by apply list_elem_of_In|done].
Qed.

(** An accepted hostname is a lower-case DNS name of at least two labels,
    253 characters at most, and is neither a platform zone nor below one,
    whatever the conversion to ASCII does. *)
Theorem hostname_accepted value zones h :
  normalizeCustomHostname isIP domainToASCII value zones = Ok h ->
  dns_name h /\ toLowerCase h = h /\ (forall z, z ∈ platform_zones domainToASCII zones -> in_zone h z = false).
Proof. apply normalize_hostname_Ok. Qed.
End hostname_properties.

Lemma hostname_accepted_witness :
  dns_name "shop.example.com" /\ in_zone "shop.example.com" "raibitserver.app" = false.
Proof.
  destruct (hostname_accepted (fun _ => false) (fun s => s) (JStr " Shop.Example.com. ") ["raibitserver.app"] "shop.example.com"
              ltac:(vm_compute; reflexivity)) as (H & _ & Hz).
  split; [exact H|]. apply Hz. vm_compute. constructor.
Defined.

(** ** Versions *)

Section version_properties.
Context (sha256_hex : string -> string).

Lemma assertMutableVersion_Ok r v u :
  assertMutableVersion r v = Ok u -> cd_status r <> DELETING /\ as_integer v = Some (cd_verificationVersion r).
Proof.
  unfold assertMutableVersion. rewrite bind_Ok. intros (? & H1%throw_if_Ok & H2%throw_if_Ok).
  apply bool_decide_eq_false in H1. apply negb_false_iff, bool_decide_eq_true in H2. done.
Qed.

(** One successful change of a record through the interface. *)
Inductive domain_change : CustomDomainRecord -> CustomDomainRecord -> Prop :=
| dc_rotate r v actor token now r' :
    rotateCustomDomain sha256_hex r v actor token now = Ok r' -> domain_change r r'
| dc_check r v actor now r' : requestCustomDomainCheck r v actor now = Ok r' -> domain_change r r'
| dc_delete r v actor now r' : requestCustomDomainDelete r v actor now = Ok r' -> domain_change r r'.

Lemma domain_change_facts r r' :
  domain_change r r' ->
  cd_status r <> DELETING
  /\ cd_id r' = cd_id r /\ cd_hostname r' = cd_hostname r /\ cd_serviceId r' = cd_serviceId r
  /\ cd_projectId r' = cd_projectId r /\ cd_organizationId r' = cd_organizationId r /\ cd_createdAt r' = cd_createdAt r
  /\ cd_verificationVersion r <= cd_verificationVersion r' /\ cd_desiredGeneration r <= cd_desiredGeneration r'
  /\ (cd_verificationTokenHash r' <> cd_verificationTokenHash r -> cd_verificationVersion r' = cd_verificationVersion r + 1)
  /\ (cd_verifiedAt r' <> cd_verifiedAt r -> cd_verifiedAt r' = None).
Proof.
  intros [r0 v actor token now r1 H|r0 v actor now r1 H|r0 v actor now r1 H];
    unfold rotateCustomDomain, requestCustomDomainCheck, requestCustomDomainDelete in H;
    apply bind_Ok in H as (? & [Hd _]%assertMutableVersion_Ok & [= <-]); cbn; (split_and!; [done..|lia|lia| |]); done.
Qed.

(** Along any sequence of changes a domain keeps its identifier,
    hostname, service, project and organization, its versions never decrease,
    no change makes it verified, and nothing changes it once its deletion was
    requested. *)
Theorem domain_history r r' :
  rtc domain_change r r' ->
  cd_id r' = cd_id r /\ cd_hostname r' = cd_hostname r /\ cd_serviceId r' = cd_serviceId r
  /\ cd_projectId r' = cd_projectId r /\ cd_organizationId r' = cd_organizationId r
  /\ cd_verificationVersion r <= cd_verificationVersion r' /\ cd_desiredGeneration r <= cd_desiredGeneration r'
  /\ (cd_verifiedAt r' = cd_verifiedAt r \/ cd_verifiedAt r' = None)
  /\ (cd_status r = DELETING -> r' = r).
Proof.
  induction 1 as [r|r r1 r' Hc _ IH]; [split_and!; auto; lia|].
  destruct (domain_change_facts _ _ Hc) as (Hd & ? & ? & ? & ? & ? & ? & ? & ? & ? & Hv).
  destruct IH as (? & ? & ? & ? & ? & ? & ? & Hv' & _). split_and!; try congruence; try lia.
  destruct (decide (cd_verifiedAt r1 = cd_verifiedAt r)) as [E|E]; [rewrite <- E; done|].
  right. specialize (Hv E). destruct Hv' as [-> |]; done.
Qed.

Lemma rotate_facts r v actor token now r' :
  rotateCustomDomain sha256_hex r v actor token now = Ok r' ->
  as_integer v = Some (cd_verificationVersion r) /\ cd_verificationVersion r' = cd_verificationVersion r + 1
  /\ cd_status r' = PENDING_VERIFICATION /\ cd_verifiedAt r' = None
  /\ cd_verificationTokenHash r' = Some (sha256_hex token)
  /\ cleanupBarrier r' = Some (mkBarrier (cd_verificationVersion r) None None false).
Proof.
  intros H. unfold rotateCustomDomain in H. apply bind_Ok in H as (? & [_ Hv]%assertMutableVersion_Ok & [= <-]). done.
Qed.

(** A rotation replaces the challenge for good: a token that still
    matches has the digest of the new token, the domain is unverified again
    with an open cleanup barrier for the version it left, and every later
    change that names the old version is refused. *)
Theorem rotation_supersedes r v actor token now r' :
  rotateCustomDomain sha256_hex r v actor token now = Ok r' ->
  (forall t, matchesDomainChallenge sha256_hex t (cd_verificationTokenHash r') = true -> sha256_hex t = sha256_hex token)
  /\ cd_status r' = PENDING_VERIFICATION /\ cd_verifiedAt r' = None
  /\ cleanupBarrier r' = Some (mkBarrier (cd_verificationVersion r) None None false)
  /\ (forall actor' token' now', rotateCustomDomain sha256_hex r' v actor' token' now' = Throw (DomainLifecycleError "DOMAIN_VERSION_CONFLICT" 409))
  /\ (forall actor' now', requestCustomDomainCheck r' v actor' now' = Throw (DomainLifecycleError "DOMAIN_VERSION_CONFLICT" 409))
  /\ (forall actor' now', requestCustomDomainDelete r' v actor' now' = Throw (DomainLifecycleError "DOMAIN_VERSION_CONFLICT" 409)).
Proof.
  intros (Hv & Hv' & Hs & Hver & Hh & Hb)%rotate_facts.
  assert (Hstale : assertMutableVersion r' v = Throw (DomainLifecycleError "DOMAIN_VERSION_CONFLICT" 409)).
  { unfold assertMutableVersion. rewrite Hs, Hv, Hv'. cbn. rewrite bool_decide_eq_false_2; [done|]. intros [=]. lia. }
  split_and!; try done.
  - intros t. rewrite Hh. unfold matchesDomainChallenge, hashDomainChallenge. intros [_ Ht%bool_decide_eq_true]%andb_true_iff. done.
  - intros. unfold rotateCustomDomain. by rewrite Hstale.
  - intros. unfold requestCustomDomainCheck. by rewrite Hstale.
  - intros. unfold requestCustomDomainDelete. by rewrite Hstale.
Qed.
End version_properties.

(** ** Witnesses *)

Definition plain_digest : string -> string := fun t => t.
Definition sample_domain : CustomDomainRecord :=
  issueCustomDomain plain_digest (mkIssue "dom-shop" "org-1" "prj-1" "svc-1" "shop.example.com" "u-1") "token-1" 1000.
Definition rotated_domain : CustomDomainRecord :=
  match rotateCustomDomain plain_digest sample_domain (json_int 1) "u-2" "token-2" 2000 with Ok r => r | Throw _ => sample_domain end.

Lemma rotation_supersedes_witness :
  requestCustomDomainCheck rotated_domain (json_int 1) "u-1" 3000 = Throw (DomainLifecycleError "DOMAIN_VERSION_CONFLICT" 409).
Proof.
  apply (rotation_supersedes plain_digest sample_domain (json_int 1) "u-2" "token-2" 2000 rotated_domain).
  vm_compute. reflexivity.
Defined.

Lemma domain_history_witness :
  cd_hostname rotated_domain = "shop.example.com" /\ cd_verificationVersion sample_domain <= cd_verificationVersion rotated_domain.
Proof.
  destruct (domain_history plain_digest sample_domain rotated_domain) as (_ & H & _ & _ & _ & Hv & _).
  - eapply rtc_l; [|apply rtc_refl]. eapply (dc_rotate _ _ (json_int 1) "u-2" "token-2" 2000). vm_compute. reflexivity.
  - split; [exact H|exact Hv].
Defined.

(** ** The store *)

Section store_properties.
Context (isIP : string -> bool) (domainToASCII sha256_hex : string -> string).

(** A row that is still the same claim: a domain attached the older way is not
    touched; a managed one keeps its identity, scope and hostname, its versions
    do not decrease, a new challenge comes with a new version, and a requested
    deletion is final. *)
Definition same_claim (row row' : DomainRow) : Prop :=
  match row, row' with
  | Attached r, Attached r' => r' = r
  | Managed r, Managed r' =>
      cd_id r' = cd_id r /\ cd_hostname r' = cd_hostname r /\ cd_serviceId r' = cd_serviceId r
      /\ cd_projectId r' = cd_projectId r /\ cd_organizationId r' = cd_organizationId r
      /\ cd_verificationVersion r <= cd_verificationVersion r'
      /\ (cd_verificationTokenHash r' <> cd_verificationTokenHash r -> cd_verificationVersion r < cd_verificationVersion r')
      /\ (cd_status r = DELETING -> r' = r)
  | _, _ => False
  end.

Lemma same_claim_refl row : same_claim row row.
Proof. destruct row; cbn; [split_and!; done || lia|done]. Qed.

Lemma same_claim_trans row1 row2 row3 : same_claim row1 row2 -> same_claim row2 row3 -> same_claim row1 row3.
Proof.
  destruct row1 as [r1|r1], row2 as [r2|r2], row3 as [r3|r3]; cbn; try done; [|congruence].
  intros (? & ? & ? & ? & ? & ? & Ht & Hd) (? & ? & ? & ? & ? & ? & Ht' & Hd'). split_and!; try congruence; [lia| |].
  - intros Hn. destruct (decide (cd_verificationTokenHash r2 = cd_verificationTokenHash r1)) as [E|E]; [|specialize (Ht E); lia].
    rewrite <- E in Hn. specialize (Ht' Hn). lia.
  - intros Hs. rewrite (Hd Hs) in *. auto.
Qed.

Lemma same_claim_hostname row row' : same_claim row row' -> row_hostname row' = row_hostname row.
Proof. destruct row, row'; cbn; try done; [|by intros ->]. unfold row_hostname. by intros (_ & -> & _). Qed.

Lemma change_same_claim r r' : domain_change sha256_hex r r' -> same_claim (Managed r) (Managed r').
Proof.
  intros (Hd & ? & ? & ? & ? & ? & ? & ? & ? & Ht & ?)%domain_change_facts. cbn. split_and!; try done.
  intros Hn. specialize (Ht Hn). lia.
Qed.

Lemma requireCustomDomain_Ok id s r : requireCustomDomain id s = Ok r -> map_get id (ds_domains s) = Some (Managed r).
Proof. unfold requireCustomDomain. destruct (map_get id (ds_domains s)) as [[]|]; [|done|done]. by destruct (str_empty _); intros [= <-]. Qed.

Lemma store_domain_state id action actor r now s :
  ds_domains (store_domain id action actor r now s).2 = map_set id (Managed r) (ds_domains s).
Proof. reflexivity. Qed.

(** The shared shape of the three changes of a stored domain. *)
Definition change_domain (id action actor : string) (now : Z) (change : CustomDomainRecord -> result CustomDomainRecord)
    : M DomainStore CustomDomainRecord :=
  s ← get; current ← lift (requireCustomDomain id s); r ← lift (change current); store_domain id action actor r now.

Lemma change_keeps_claim id action actor now change s k row :
  (forall r r', change r = Ok r' -> domain_change sha256_hex r r') ->
  map_get k (ds_domains s) = Some row ->
  exists row', map_get k (ds_domains (change_domain id action actor now change s).2) = Some row' /\ same_claim row row'.
Proof.
  intros Hc Hk. unfold change_domain, get, mbind, M_bind, lift.
  destruct (requireCustomDomain id s) as [r|e] eqn:Er; [|eauto using same_claim_refl].
  destruct (change r) as [r'|e] eqn:Ec; [|eauto using same_claim_refl].
  rewrite store_domain_state, map_get_set. case_decide as Hid; [subst id|eauto using same_claim_refl].
  apply requireCustomDomain_Ok in Er. rewrite Er in Hk. injection Hk as <-. eauto using change_same_claim.
Qed.

(** Everything the store does with the table of domains *)
Inductive domain_operation : Type :=
| op_create (input : CreateDomainInput) (challengeToken : string) (now : Z)
| op_rotate (id : string) (expectedVersion : jsval) (actor challengeToken : string) (now : Z)
| op_verify (id : string) (expectedVersion : jsval) (actor : string) (now : Z)
| op_delete (id : string) (expectedVersion : jsval) (actor : string) (now : Z)
| op_attach (projectId serviceId domain : string) (verified : bool) (tlsStatus : string) (now : Z).

(** The store after an operation, whether it succeeded or not *)
Definition operate (s : DomainStore) (op : domain_operation) : DomainStore :=
  match op with
  | op_create input token now => (createCustomDomain isIP domainToASCII sha256_hex input token now s).2
  | op_rotate id v actor token now => (rotateCustomDomainChallenge sha256_hex id v actor token now s).2
  | op_verify id v actor now => (requestCustomDomainVerification id v actor now s).2
  | op_delete id v actor now => (requestCustomDomainDeletion id v actor now s).2
  | op_attach projectId serviceId domain verified tls now => (attachDomain projectId serviceId domain verified tls now s).2
  end.

(** An operation that writes the row of another name under the identifier: the
    unchecked [attachDomain], or the creation of a hostname whose identifier
    collides with it *)
Definition collides (k hostname : string) (op : domain_operation) : Prop :=
  match op with
  | op_attach _ _ domain _ _ _ => stableId "dom" [JStr domain] = k
  | op_create input _ _ =>
      exists other, normalizeCustomHostname isIP domainToASCII (ci_hostname input) (ci_platformZones input) = Ok other
        /\ other <> hostname /\ stableId "dom" [JStr other] = k
  | _ => False
  end.

Lemma create_result input token now s r s' :
  createCustomDomain isIP domainToASCII sha256_hex input token now s = (r, s') ->
  s' = s
  \/ exists hostname record, cd_hostname record = hostname /\ toLowerCase hostname = hostname
     /\ cd_id record = stableId "dom" [JStr hostname]
     /\ normalizeCustomHostname isIP domainToASCII (ci_hostname input) (ci_platformZones input) = Ok hostname
     /\ (forall k row, map_get k (ds_domains s) = Some row -> row_hostname row <> hostname)
     /\ ds_domains s' = map_set (cd_id record) (Managed record) (ds_domains s).
Proof.
  unfold createCustomDomain, mbind, M_bind, get, lift, modify.
  destruct (map_get (ci_projectId input) (ds_projects s)) as [project|]; [|intros [= <- <-]; by left].
  destruct (map_get (ci_serviceId input) (ds_services s)) as [service|]; [|intros [= <- <-]; by left].
  destruct (bool_decide (pj_organizationId project = _) && _); [|intros [= <- <-]; by left].
  destruct (throw_if (negb _) _) as [u|e]; [|intros [= <- <-]; by left].
  destruct (normalizeCustomHostname isIP domainToASCII (ci_hostname input) (ci_platformZones input)) as [hostname|e] eqn:Eh;
    [|intros [= <- <-]; by left].
  destruct (throw_if (existsb _ _) _) as [u2|e] eqn:Ec; [|intros [= <- <-]; by left]. intros [= <- <-]. right.
  pose proof (normalize_hostname_Ok _ _ _ _ _ Eh) as (_ & Hlow & _). apply throw_if_Ok in Ec.
  eexists hostname, (issueCustomDomain sha256_hex (mkIssue (stableId "dom" [JStr hostname]) (pj_organizationId project)
    (pj_id project) (sv_id service) hostname (ci_actorUserId input)) token now).
  split_and!; [done|done|done|done| |reflexivity].
  intros k row Hk Hrow. apply not_true_iff_false in Ec. apply Ec. apply existsb_exists. exists row.
  split; [|by apply bool_decide_eq_true].
  apply map_get_Some_elem in Hk. apply list_elem_of_In. unfold map_values. apply list_elem_of_fmap. by exists (k, row).
Qed.

Lemma create_claimed input token now s k row :
  map_get k (ds_domains s) = Some row ->
  normalizeCustomHostname isIP domainToASCII (ci_hostname input) (ci_platformZones input) = Ok (row_hostname row) ->
  exists e, createCustomDomain isIP domainToASCII sha256_hex input token now s = (Throw e, s).
Proof.
  intros Hk Hh. unfold createCustomDomain, mbind, M_bind, get, lift, modify.
  destruct (map_get (ci_projectId input) (ds_projects s)) as [project|]; [|by eexists].
  destruct (map_get (ci_serviceId input) (ds_services s)) as [service|]; [|by eexists].
  destruct (bool_decide (pj_organizationId project = _) && _); [|by eexists].
  destruct (throw_if (negb _) _) as [u|e]; [|by eexists]. rewrite Hh.
  assert (existsb (fun r => bool_decide (row_hostname r = row_hostname row)) (map_values (ds_domains s)) = true) as ->; [|by eexists].
  apply existsb_exists. exists row. split; [|by apply bool_decide_eq_true].
  apply map_get_Some_elem in Hk. apply list_elem_of_In. unfold map_values. apply list_elem_of_fmap. by exists (k, row).
Qed.

Lemma operate_keeps_claim s op k row :
  map_get k (ds_domains s) = Some row -> ~ collides k (row_hostname row) op ->
  exists row', map_get k (ds_domains (operate s op)) = Some row' /\ same_claim row row'.
Proof.
  intros Hk Hc. destruct op as [input token now|id v actor token now|id v actor now|id v actor now|pid sid domain verified tls now]; cbn [operate collides] in *.
  - destruct (createCustomDomain isIP domainToASCII sha256_hex input token now s) as [res s2] eqn:Ec. cbn [snd].
    destruct (create_result _ _ _ _ _ _ Ec) as [-> |(h & r & Hh & _ & Hid & Hn & Hfresh & Hset)]; [eauto using same_claim_refl|].
    rewrite Hset, map_get_set. case_decide as Hki; [|eauto using same_claim_refl].
    destruct Hc. exists h. split_and!; [done| |congruence]. intros ->. by apply (Hfresh _ _ Hk).
  - apply (change_keeps_claim id "domain:rotate" actor now (fun r => rotateCustomDomain sha256_hex r v actor token now)); [|done].
    intros r r' H. by eapply dc_rotate.
  - apply (change_keeps_claim id "domain:verify-requested" actor now (fun r => requestCustomDomainCheck r v actor now)); [|done].
    intros r r' H. by eapply dc_check.
  - apply (change_keeps_claim id "domain:delete-requested" actor now (fun r => requestCustomDomainDelete r v actor now)); [|done].
    intros r r' H. by eapply dc_delete.
  - unfold attachDomain, modify, mbind, M_bind, mret, M_ret. cbn. rewrite map_get_set. case_decide; [congruence|eauto using same_claim_refl].
Qed.

(** C40. A claimed hostname stays with who claimed it.  Through any sequence of
    creations, rotations, checks, deletions and attachments of any tenants,
    successful or not, of which none attaches a name or creates another hostname
    whose identifier is that of the claim, its row stays: it keeps its hostname,
    service, project and organization, its challenge changes only with a higher
    version, a requested deletion is final.  And whoever then asks for that
    hostname is refused, with nothing changed. *)
Theorem hostname_claim_kept s ops k row :
  map_get k (ds_domains s) = Some row ->
  Forall (fun op => ~ collides k (row_hostname row) op) ops ->
  let s' := foldl operate s ops in
  (exists row', map_get k (ds_domains s') = Some row' /\ same_claim row row')
  /\ forall input token now,
       normalizeCustomHostname isIP domainToASCII (ci_hostname input) (ci_platformZones input) = Ok (row_hostname row) ->
       exists e, createCustomDomain isIP domainToASCII sha256_hex input token now s' = (Throw e, s').
Proof.
  intros Hk Hops s'.
  assert (exists row', map_get k (ds_domains s') = Some row' /\ same_claim row row') as (row' & Hk' & Hs).
  { subst s'. revert s row Hk Hops. induction ops as [|op ops IH]; intros s row Hk Hops; cbn [foldl]; [eauto using same_claim_refl|].
    apply Forall_cons in Hops as [Hop Hops]. destruct (operate_keeps_claim s op k row Hk Hop) as (row1 & Hk1 & Hs1).
    rewrite <- (same_claim_hostname _ _ Hs1) in Hops.
    destruct (IH _ _ Hk1 Hops) as (row' & Hk' & Hs'). eauto using same_claim_trans. }
  split; [by exists row'|]. intros input token now Hh. apply (create_claimed _ _ _ _ k row' Hk'). by rewrite (same_claim_hostname _ _ Hs).
Qed.
End store_properties.

Definition two_tenants : DomainStore :=
  mkDomainStore empty_accounts
    [("prj-1", mkProjectRef "prj-1" "org-1"); ("prj-2", mkProjectRef "prj-2" "org-2")]
    [("svc-1", mkServiceRef "svc-1" "prj-1" "web"); ("svc-2", mkServiceRef "svc-2" "prj-2" "web")] [].

(** A tenant claims a hostname; another asks for it in other letters, claims a
    second one and attaches a third; the first rotates its challenge. *)
Definition shop_claim : domain_operation := op_create (mkCreateDomain "org-1" "prj-1" "svc-1" (JStr "shop.example.com") [] "u-1") "t" 5.
Definition rival_operations : list domain_operation :=
  [op_create (mkCreateDomain "org-2" "prj-2" "svc-2" (JStr "Shop.Example.com.") [] "u-2") "t2" 6;
   op_create (mkCreateDomain "org-2" "prj-2" "svc-2" (JStr "news.example.com") [] "u-2") "t3" 7;
   op_attach "prj-2" "svc-2" "old.example.com" true "active" 8;
   op_rotate (stableId "dom" [JStr "shop.example.com"]) (json_int 1) "u-1" "t4" 9].
Definition claimed_store : DomainStore := operate (fun _ => false) (fun s => s) plain_digest two_tenants shop_claim.
Definition claim_row : DomainRow :=
  Managed (issueCustomDomain plain_digest (mkIssue (stableId "dom" [JStr "shop.example.com"]) "org-1" "prj-1" "svc-1" "shop.example.com" "u-1") "t" 5).

Lemma hostname_claim_kept_witness :
  exists row', map_get (stableId "dom" [JStr "shop.example.com"])
      (ds_domains (foldl (operate (fun _ => false) (fun s => s) plain_digest) claimed_store rival_operations)) = Some row'
    /\ same_claim claim_row row'.
Proof.
  apply (hostname_claim_kept (fun _ => false) (fun s => s) plain_digest claimed_store rival_operations (stableId "dom" [JStr "shop.example.com"]) claim_row).
  - vm_compute. reflexivity.
  - repeat apply Forall_cons_2; [..|constructor].
    + intros (other & Hn & Hne & _). vm_compute in Hn. injection Hn as <-. apply Hne. vm_compute. reflexivity.
    + intros (other & Hn & _ & Hid). vm_compute in Hn. injection Hn as <-. vm_compute in Hid. discriminate Hid.
    + intros Hid. vm_compute in Hid. discriminate Hid.
    + intros [].
Defined.

(** The identifier of a domain does not determine its hostname: dots and
    hyphens become the same character, so a second tenant that claims a
    different hostname overwrites the row of the first, which then has no
    domain. *)
Theorem domain_identifier_takeover :
  let create := fun org prj svc host => createCustomDomain (fun _ => false) (fun s => s) plain_digest
                  (mkCreateDomain org prj svc (JStr host) ["raibitserver.app"] "u") "t" 5 in
  let '(r1, s1) := create "org-1" "prj-1" "svc-1" "my-shop.example.com" two_tenants in
  let '(r2, s2) := create "org-2" "prj-2" "svc-2" "my.shop.example.com" s1 in
  (exists d1 d2, r1 = Ok d1 /\ r2 = Ok d2 /\ cd_hostname d1 <> cd_hostname d2 /\ cd_id d1 = cd_id d2)
  /\ length (listCustomDomainsForProject "prj-1" s1) = 1%nat
  /\ listCustomDomainsForProject "prj-1" s2 = [] /\ length (listCustomDomainsForProject "prj-2" s2) = 1%nat.
Proof. vm_compute. split; [do 2 eexists; split_and!; [reflexivity|reflexivity|discriminate|reflexivity]|done]. Qed.

Close Scope Z_scope.
