(* ===== verification/DomainRouter.v ===== *)
(** * Hostnames of tenants ([packages/core/src/domain-router.ts])

    Every service, preview and console of a tenant gets one DNS label under
    the platform's base domain.  Labels are built from slugs joined by double
    hyphens, and a label that is too long is cut and made distinct by a part
    of a SHA-256 digest, which is a parameter. *)

From S2P Require Import Prelude JsString JsVal Ids ControlPlane.
From stdpp Require Import pretty.

(** ** Operations *)

Definition DEFAULT_DOMAIN : string := "raibitserver.app".
Definition MAX_PREVIEW_ROUTE_IDENTITY_LENGTH : nat := 39.
Definition MAX_GENERATED_ROUTE_LABEL_LENGTH : nat := 63.

Module SUBDOMAIN_ZONES.
Definition DASHBOARD : string := "app".
Definition API : string := "api".
Definition ADMIN : string := "admin".
Definition APPS : string := "apps".
Definition PREVIEW : string := "preview".
Definition CONSOLE : string := "console".
Definition RESOURCES : string := "resources".
Definition LOGS : string := "logs".
Definition METRICS : string := "metrics".
End SUBDOMAIN_ZONES.

Definition route_char (c : ascii) : bool := is_lower_alnum c || is_hyphen c.

(** [/[^a-z0-9-]+/g] becomes one hyphen, hyphens at both ends are removed. *)
Definition route_chars (s : string) : list ascii :=
  strip_chars is_hyphen (collapse_runs (fun c => negb (route_char c)) "-"%char false (chars (toLowerCase (trim s)))).

Definition normalizeRoutePart (value : jsval) : string :=
  str_or (unchars (route_chars (js_String (js_nullish value (JStr ""))))) "item".

Definition organizationRouteTenantSegment (organizationSlug : jsval) : string := normalizeRoutePart organizationSlug.

Definition tenantRouteIdentity (organizationSlug projectSlug : jsval) : string :=
  organizationRouteTenantSegment organizationSlug +:+ "--" +:+ normalizeRoutePart projectSlug.

Definition serviceRouteIdentity (organizationSlug projectSlug serviceName : jsval) : string :=
  let tenant := tenantRouteIdentity organizationSlug projectSlug in
  let service := normalizeRoutePart serviceName in
  if decide (service = "web") then tenant else tenant +:+ "--" +:+ service.

(** [.replace(/-+$/g, '')] *)
Definition strip_end (p : ascii -> bool) (l : list ascii) : list ascii := rev (drop_while p (rev l)).

Section Labels.
(** The hexadecimal SHA-256 digest of a text. *)
Context (sha256_hex : string -> string).

(** [String(stableIdentity ?? '').trim() || normalized] *)
Definition label_identity (stableIdentity : jsval) (normalized : string) : string :=
  str_or (trim (js_String (js_nullish stableIdentity (JStr "")))) normalized.

Definition label_suffix (identity : string) : string := slice0 12 (sha256_hex identity).

Definition boundedDnsLabel (value : jsval) (limit : nat) (stableIdentity : jsval) : string :=
  let normalized := normalizeRoutePart value in
  if (length (chars normalized) <=? limit)%nat then normalized
  else
    let suffix := label_suffix (label_identity stableIdentity normalized) in
    let base := unchars (strip_end is_hyphen (take (limit - length (chars suffix) - 1) (chars normalized))) in
    if str_empty base then slice0 limit suffix else base +:+ "-" +:+ suffix.

Definition identityDnsLabel (value stableIdentity : jsval) (limit : nat) : string :=
  if (limit <=? 0)%nat then "item"
  else
    let normalized := normalizeRoutePart value in
    let suffix := label_suffix (label_identity stableIdentity normalized) in
    if (limit <=? length (chars suffix))%nat then slice0 limit suffix
    else
      let cut := unchars (strip_end is_hyphen (take (limit - length (chars suffix) - 1) (chars normalized))) in
      if str_empty cut then slice0 limit suffix else cut +:+ "-" +:+ suffix.

Definition tenantProjectLabel (organizationSlug projectSlug stableIdentity : jsval) : string :=
  boundedDnsLabel (JStr (tenantRouteIdentity organizationSlug projectSlug)) MAX_GENERATED_ROUTE_LABEL_LENGTH stableIdentity.

Definition zonedRouteLabel (zone routeIdentity : string) : string :=
  boundedDnsLabel (JStr (zone +:+ "--" +:+ routeIdentity)) 63 JUndef.

Definition previewRouteLabel (preview routeIdentity : string) : string :=
  let routeLabel := boundedDnsLabel (JStr routeIdentity) MAX_PREVIEW_ROUTE_IDENTITY_LENGTH JUndef in
  SUBDOMAIN_ZONES.PREVIEW +:+ "--" +:+ preview +:+ "--" +:+ routeLabel.

(** The parameter objects of the hostname functions, with their defaults. *)
Definition org_param (input : jsobj) : jsval := param "organizationSlug" (JStr "org") input.
Definition project_param (input : jsobj) : jsval := param "projectSlug" (JStr "project") input.
Definition base_param (input : jsobj) : string := js_String (param "baseDomain" (JStr DEFAULT_DOMAIN) input).

Definition serviceHostname (input : jsobj) : jsval :=
  let customDomain := param "customDomain" JNull input in
  let preview := param "preview" JNull input in
  if truthy customDomain then customDomain
  else
    let routeIdentity := serviceRouteIdentity (org_param input) (project_param input) (param "serviceName" (JStr "web") input) in
    let label := if truthy preview then previewRouteLabel (normalizeRoutePart preview) routeIdentity
                 else zonedRouteLabel SUBDOMAIN_ZONES.APPS routeIdentity in
    JStr (label +:+ "." +:+ base_param input).

Definition serviceConsoleHostname (input : jsobj) : string :=
  let identity := tenantRouteIdentity (org_param input) (project_param input) +:+ "-"
                  +:+ normalizeRoutePart (param "serviceName" (JStr "service") input) in
  zonedRouteLabel SUBDOMAIN_ZONES.CONSOLE identity +:+ "." +:+ base_param input.

Definition resourceConsoleHostname (input : jsobj) : string :=
  let identity := tenantRouteIdentity (org_param input) (project_param input) +:+ "-"
                  +:+ normalizeRoutePart (param "resourceName" (JStr "resource") input) in
  zonedRouteLabel SUBDOMAIN_ZONES.RESOURCES identity +:+ "." +:+ base_param input.

Definition projectConsoleHostname (input : jsobj) : string :=
  zonedRouteLabel SUBDOMAIN_ZONES.CONSOLE (tenantRouteIdentity (org_param input) (project_param input)) +:+ "." +:+ base_param input.

Definition workspaceConsoleHostname (input : jsobj) : string :=
  zonedRouteLabel SUBDOMAIN_ZONES.CONSOLE (normalizeRoutePart (org_param input)) +:+ "." +:+ base_param input.

Definition internalServiceHostname (input : jsobj) : string :=
  slugify_default (param "serviceName" (JStr "service") input) +:+ "." +:+ slugify_default (project_param input) +:+ ".svc.cluster.local".

Definition isPublicWebService (service : jsobj) : bool :=
  negb (truthy (obj_get "type" service)) || bool_decide (toLowerCase (js_String (obj_get "type" service)) = "web").

Definition previewHostnamePattern (organizationSlug projectSlug serviceName : jsval) (publicService : bool) (baseDomain : string) : string :=
  let identity := if publicService then serviceRouteIdentity organizationSlug projectSlug serviceName
                  else tenantRouteIdentity organizationSlug projectSlug in
  let routeLabel := boundedDnsLabel (JStr identity) MAX_PREVIEW_ROUTE_IDENTITY_LENGTH JUndef in
  SUBDOMAIN_ZONES.PREVIEW +:+ "--pr-{number}--" +:+ routeLabel +:+ "." +:+ baseDomain.

(** *** The plan of a project *)

Definition service_entry (organizationRouteSlug projectRouteSlug : jsval) (projectSlug : string) (baseDomain : jsval) (service : jsval) : jsval :=
  let name := field "name" service in
  let type_ := field "type" service in
  let route := [("organizationSlug", organizationRouteSlug); ("projectSlug", projectRouteSlug); ("serviceName", name); ("baseDomain", baseDomain)] in
  JObj [("name", JStr (slugify_default name));
        ("type", js_or type_ (JStr "web"));
        ("publicHostname",
          if bool_decide (as_string type_ = Some "web") || negb (truthy type_)
          then serviceHostname (route ++ [("customDomain", js_or (field "domain" service) JNull)]) else JNull);
        ("previewPattern", JStr (previewHostnamePattern organizationRouteSlug projectRouteSlug name (isPublicWebService (entries service)) (js_String baseDomain)));
        ("consoleHostname", JStr (serviceConsoleHostname route));
        ("internalHostname", JStr (internalServiceHostname [("projectSlug", JStr projectSlug); ("serviceName", name)]))].

Definition resource_entry (organizationRouteSlug projectRouteSlug : jsval) (projectSlug : string) (baseDomain : jsval) (resource : jsval) : jsval :=
  let name := field "name" resource in
  JObj [("name", JStr (slugify_default name));
        ("engine", field "engine" resource);
        ("consoleHostname", JStr (resourceConsoleHostname [("organizationSlug", organizationRouteSlug); ("projectSlug", projectRouteSlug);
                                                           ("resourceName", name); ("baseDomain", baseDomain)]));
        ("internalHostname", JStr (slugify_default name +:+ "." +:+ projectSlug +:+ ".svc.cluster.local"))].

Record DomainPlan := mkDomainPlan {
  plan_baseDomain : jsval;
  plan_platform : list (string * string);
  plan_workspace : string;
  plan_project : string;
  plan_services : list jsval;
  plan_resources : list jsval;
  plan_wildcardTls : list string
}.

Definition array_or_empty (v : jsval) : list jsval := match v with JArr l => l | _ => [] end.

Definition domainPlanForProject (spec : jsobj) : DomainPlan :=
  let organization := js_or (obj_get "organization" spec) (JObj [("slug", js_or (obj_get "organizationSlug" spec) (JStr "default"))]) in
  let project := js_or (obj_get "project" spec)
                   (JObj [("name", js_or (obj_get "name" spec) (JStr "project"));
                          ("slug", js_or (obj_get "slug" spec) (js_or (obj_get "name" spec) (JStr "project")))]) in
  let organizationRouteSlug := js_or (field "slug" organization) (js_or (field "name" organization) (JStr "org")) in
  let projectRouteSlug := js_or (field "slug" project) (js_or (field "name" project) (JStr "project")) in
  let projectSlug := slugify_default projectRouteSlug in
  let baseDomain := js_or (obj_get "baseDomain" spec) (JStr DEFAULT_DOMAIN) in
  let under := fun zone => zone +:+ "." +:+ js_String baseDomain in
  mkDomainPlan baseDomain
    [("dashboard", under SUBDOMAIN_ZONES.DASHBOARD); ("api", under SUBDOMAIN_ZONES.API); ("admin", under SUBDOMAIN_ZONES.ADMIN);
     ("logs", under SUBDOMAIN_ZONES.LOGS); ("metrics", under SUBDOMAIN_ZONES.METRICS)]
    (workspaceConsoleHostname [("organizationSlug", organizationRouteSlug); ("baseDomain", baseDomain)])
    (projectConsoleHostname [("organizationSlug", organizationRouteSlug); ("projectSlug", projectRouteSlug); ("baseDomain", baseDomain)])
    (map (service_entry organizationRouteSlug projectRouteSlug projectSlug baseDomain) (array_or_empty (obj_get "services" spec)))
    (map (resource_entry organizationRouteSlug projectRouteSlug projectSlug baseDomain) (array_or_empty (obj_get "resources" spec)))
    ["*." +:+ js_String baseDomain].

End Labels.
