(* ===== verification/DomainRouterSafety.v ===== *)
(** * Properties of tenant hostnames

    Every generated hostname is one DNS label below the base domain, so that
    the wildcard certificate covers it; hostnames of different services differ
    as long as their labels are not cut; the advertised preview pattern is the
    hostname a preview gets. *)

From S2P Require Import Prelude JsString JsVal Ids ControlPlane Domains DomainRouter.
From stdpp Require Import pretty.

(** ** DNS labels *)

Lemma label_chars_spec l :
  label_chars l = true <-> Forall (fun c => route_char c = true) l
    /\ (exists x k, l = x :: k /\ is_lower_alnum x = true) /\ (exists k y, l = k ++ [y] /\ is_lower_alnum y = true).
Proof.
  unfold label_chars. destruct l as [|x l]; [split; [done|intros (_ & (? & ? & ? & _) & _); done]|].
  rewrite !andb_true_iff, forallb_forall, Forall_forall.
  setoid_rewrite list_elem_of_In. split.
  - intros [[Hx Hf] Hl]. split_and!; [done|by eexists _, _|].
    destruct (last (x :: l)) as [y|] eqn:E; [|done]. apply last_Some in E as [k E]. by exists k, y.
  - intros (Hf & (? & ? & [= <- <-] & Hx) & (k & y & E & Hy)). split; [done|]. by rewrite E, last_snoc.
Qed.

Lemma label_app a m b : label_chars a = true -> label_chars b = true -> Forall (fun c => route_char c = true) m ->
  label_chars (a ++ m ++ b) = true.
Proof.
  rewrite !label_chars_spec. intros (Fa & (x & k & -> & Hx) & _) (Fb & _ & (k' & y & -> & Hy)) Fm. split_and!.
  - apply Forall_app; split; [done|]. by apply Forall_app.
  - by exists x, (k ++ m ++ k' ++ [y]).
  - exists ((x :: k) ++ m ++ k'), y. split; [|done]. by rewrite !app_assoc.
Qed.

Lemma label_lower l : Forall (fun c => is_lower_alnum c = true) l -> l <> [] -> label_chars l = true.
Proof.
  intros Hf Hne. rewrite label_chars_spec. split_and!.
  - eapply Forall_impl; [exact Hf|]. cbn. unfold route_char. by intros c ->.
  - destruct l as [|x k]; [done|]. exists x, k. by apply Forall_cons in Hf as [? _].
  - destruct l as [|y k _] using rev_ind; [done|]. exists k, y. split; [done|]. apply Forall_app in Hf as [_ Hf].
    by apply Forall_cons in Hf as [? _].
Qed.

(** Characters of a class with hyphens only inside form a label. *)
Lemma label_inside l : Forall (fun c => route_char c = true) l -> l <> [] ->
  (forall c k, l = c :: k -> is_hyphen c = false) -> (forall c k, l = k ++ [c] -> is_hyphen c = false) -> label_chars l = true.
Proof.
  intros Hf Hne Hh Hl. rewrite label_chars_spec.
  assert (forall c, c ∈ l -> is_hyphen c = false -> is_lower_alnum c = true) as Hc.
  { intros c Hc Hn. rewrite Forall_forall in Hf. specialize (Hf c Hc). unfold route_char in Hf. by rewrite Hn, orb_false_r in Hf. }
  split_and!; [done| |].
  - destruct l as [|x k]; [done|]. exists x, k. split; [done|]. apply Hc; [by left|by apply (Hh x k)].
  - destruct l as [|y k _] using rev_ind; [done|]. exists k, y. split; [done|]. apply Hc; [|by apply (Hl y k)].
    apply elem_of_app. right. by left.
Qed.

(** A prefix of a label without its trailing hyphens is a label or empty. *)
Lemma label_cut n l : label_chars l = true -> let cut := strip_end is_hyphen (take n l) in cut = [] \/ label_chars cut = true.
Proof.
  rewrite label_chars_spec. intros (Hf & (x & k & -> & Hx) & _). cbv zeta. unfold strip_end.
  destruct (drop_while_suffix is_hyphen (rev (take n (x :: k)))) as (m & Hm & _).
  apply (f_equal (@rev ascii)) in Hm. rewrite rev_involutive, rev_app_distr in Hm.
  set (cut := rev (drop_while is_hyphen (rev (take n (x :: k))))) in *.
  destruct (decide (cut = [])) as [|Hne]; [by left|right]. apply label_inside; [|done| |].
  - apply (Forall_take _ n) in Hf. rewrite Hm in Hf. by apply Forall_app in Hf as [? _].
  - intros c k' E. rewrite E in Hm. destruct n; [done|]. cbn in Hm. injection Hm as -> _. by apply lower_alnum_not_hyphen.
  - intros c k' E. apply (drop_while_head is_hyphen (rev (take n (x :: k))) c (rev k')).
    apply (f_equal (@rev ascii)) in E. unfold cut in E. by rewrite rev_involutive, rev_app_distr in E.
Qed.

Lemma route_label s : route_chars s = [] \/ label_chars (route_chars s) = true.
Proof.
  unfold route_chars. set (l := collapse_runs _ _ _ _).
  destruct (decide (strip_chars is_hyphen l = [])) as [|Hne]; [by left|right]. apply label_inside; [|done| |].
  - apply strip_chars_Forall. unfold l. eapply Forall_impl; [apply collapse_runs_Forall|].
    intros c [H%negb_false_iff| ->]; done.
  - intros c k E. by eapply strip_chars_head.
  - intros c k E. by eapply strip_chars_last.
Qed.

(** ** Normalized parts *)

Lemma normalizeRoutePart_label v : label_pattern (normalizeRoutePart v) = true.
Proof.
  unfold normalizeRoutePart, str_or. destruct (route_label (js_String (js_nullish v (JStr "")))) as [-> |H]; [done|].
  destruct (str_empty _); [done|]. unfold label_pattern. by rewrite chars_unchars.
Qed.

Lemma route_char_not_space c : route_char c = true -> is_space c = false.
Proof. apply lower_alnum_not_space. Qed.

(** A label is its own normal form. *)
Lemma normalizeRoutePart_fixed s : label_pattern s = true -> normalizeRoutePart (JStr s) = s.
Proof.
  unfold label_pattern. intros H. pose proof H as (Hf & (x & k & Ek & Hx) & (k' & y & Ek' & Hy))%label_chars_spec.
  unfold normalizeRoutePart, route_chars, trim, toLowerCase. cbn [js_nullish js_String].
  assert (Forall (fun c => is_space c = false) (chars s)) as Hs by (eapply Forall_impl; [exact Hf|]; apply route_char_not_space).
  rewrite (strip_chars_id is_space), unchars_chars.
  2: { intros c m E. rewrite E in Hs. by apply Forall_cons in Hs as [? _]. }
  2: { intros c m E. rewrite E in Hs. apply Forall_app in Hs as [_ Hs]. by apply Forall_cons in Hs as [? _]. }
  rewrite chars_unchars.
  assert (lower_char <$> chars s = chars s) as ->.
  { clear -Hf. induction Hf as [|c l Hc _ IH]; [done|]. cbn. rewrite IH. f_equal. by apply lower_char_lower_alnum. }
  rewrite collapse_runs_id by (eapply Forall_impl; [exact Hf|]; intros c ->; done).
  rewrite (strip_chars_id is_hyphen), unchars_chars.
  - unfold str_or. rewrite str_empty_eq. case_bool_decide as E; [|done]. by rewrite E in Ek.
  - intros c m E. rewrite Ek in E. injection E as -> _. by apply lower_alnum_not_hyphen.
  - intros c m E. rewrite Ek' in E. apply app_inj_tail in E as [_ ->]. by apply lower_alnum_not_hyphen.
Qed.

Lemma joined_label a b : label_pattern a = true -> label_pattern b = true -> label_pattern (a +:+ "--" +:+ b) = true.
Proof. unfold label_pattern. intros Ha Hb. rewrite !chars_app. by apply label_app; [| |repeat constructor]. Qed.

Lemma joined_label1 a b : label_pattern a = true -> label_pattern b = true -> label_pattern (a +:+ "-" +:+ b) = true.
Proof. unfold label_pattern. intros Ha Hb. rewrite !chars_app. by apply label_app; [| |repeat constructor]. Qed.

Lemma tenantRouteIdentity_label o p : label_pattern (tenantRouteIdentity o p) = true.
Proof. apply joined_label; apply normalizeRoutePart_label. Qed.

Lemma serviceRouteIdentity_label o p s : label_pattern (serviceRouteIdentity o p s) = true.
Proof.
  unfold serviceRouteIdentity. case_decide; [apply tenantRouteIdentity_label|].
  apply joined_label; [apply tenantRouteIdentity_label|apply normalizeRoutePart_label].
Qed.

#[export] Hint Resolve normalizeRoutePart_label joined_label joined_label1 tenantRouteIdentity_label serviceRouteIdentity_label : labels.

Section Hash.
Context (sha256_hex : string -> string).
Hypothesis sha256_hex_shape : forall s, class_pattern is_lower_hex 64 64 (sha256_hex s) = true.

Lemma label_suffix_shape identity :
  length (chars (label_suffix sha256_hex identity)) = 12%nat
  /\ Forall (fun c => is_lower_alnum c = true) (chars (label_suffix sha256_hex identity)).
Proof.
  pose proof (sha256_hex_shape identity) as H. unfold class_pattern in H. cbv zeta in H.
  rewrite !andb_true_iff, !Nat.leb_le, forallb_forall in H. destruct H as [[H1 H2] H3].
  unfold label_suffix, slice0. rewrite chars_unchars. split; [rewrite length_take; lia|].
  apply Forall_take, Forall_forall. intros c Hc%list_elem_of_In%H3. unfold is_lower_hex in Hc. unfold is_lower_alnum.
  apply orb_true_iff in Hc as [Hc|Hc]; apply orb_true_iff; [by right|left].
  revert Hc. unfold is_lower, in_range. rewrite !andb_true_iff, !N.leb_le. lia.
Qed.

Lemma suffixed_label limit normalized suffix :
  label_chars (chars normalized) = true -> length (chars suffix) = 12%nat -> Forall (fun c => is_lower_alnum c = true) (chars suffix) ->
  (1 <= limit)%nat ->
  let base := unchars (strip_end is_hyphen (take (limit - length (chars suffix) - 1) (chars normalized))) in
  let label := if str_empty base then slice0 limit suffix else base +:+ "-" +:+ suffix in
  label_pattern label = true /\ (length (chars label) <= limit)%nat.
Proof.
  intros Hn Hs Hf Hl. cbv zeta. destruct (label_cut (limit - length (chars suffix) - 1) _ Hn) as [-> |Hc].
  - cbn [str_empty unchars String.string_of_list_ascii]. unfold slice0, label_pattern. rewrite !chars_unchars. split; [|rewrite length_take; lia].
    apply label_lower; [by apply Forall_take|]. destruct limit; [lia|]. by destruct (chars suffix).
  - set (cut := strip_end _ _) in *. assert (length cut <= limit - 13)%nat as Hlen.
    { unfold cut, strip_end. rewrite length_rev. destruct (drop_while_suffix is_hyphen (rev (take (limit - length (chars suffix) - 1) (chars normalized)))) as (m & Hm & _).
      apply (f_equal length) in Hm. rewrite length_app, length_rev, length_take in Hm. lia. }
    assert (str_empty (unchars cut) = false) as -> by (destruct cut; [discriminate Hc|done]).
    assert (1 <= length cut)%nat by (destruct cut; [discriminate Hc|cbn; lia]). unfold label_pattern. rewrite !chars_app, chars_unchars. split.
    + apply label_app; [done| |by repeat constructor]. apply label_lower; [done|]. by destruct (chars suffix).
    + rewrite !length_app, Hs. cbn [length chars String.list_ascii_of_string]. lia.
Qed.

(** Labels fit their limit and are DNS labels. *)
Lemma boundedDnsLabel_ok v limit identity : (1 <= limit)%nat ->
  let label := boundedDnsLabel sha256_hex v limit identity in
  label_pattern label = true /\ (length (chars label) <= limit)%nat.
Proof.
  intros Hl. cbv zeta. unfold boundedDnsLabel. cbv zeta. destruct (_ <=? limit)%nat eqn:E.
  - apply Nat.leb_le in E. auto with labels.
  - destruct (label_suffix_shape (label_identity identity (normalizeRoutePart v))) as [H1 H2].
    apply suffixed_label; [apply normalizeRoutePart_label|done..].
Qed.

Lemma identityDnsLabel_ok v identity limit : (1 <= limit)%nat ->
  let label := identityDnsLabel sha256_hex v identity limit in
  label_pattern label = true /\ (length (chars label) <= limit)%nat.
Proof.
  intros Hl. cbv zeta. unfold identityDnsLabel. destruct (limit <=? 0)%nat eqn:E0; [apply Nat.leb_le in E0; lia|]. cbv zeta.
  destruct (label_suffix_shape (label_identity identity (normalizeRoutePart v))) as [H1 H2].
  clear E0. destruct (limit <=? length _)%nat eqn:E; [|apply suffixed_label; [apply normalizeRoutePart_label|done..]].
  apply Nat.leb_le in E. unfold slice0, label_pattern. rewrite chars_unchars. split; [|rewrite length_take; lia].
  apply label_lower; [by apply Forall_take|]. destruct limit; [lia|]. by destruct (chars (label_suffix _ _)).
Qed.

(** ** The shape of every hostname *)

(** A hostname that is one DNS label below a domain. *)
Definition single_label (base host : string) : Prop :=
  exists label, host = label +:+ "." +:+ base /\ label_pattern label = true /\ (length (chars label) <= 63)%nat.

Lemma zoned_single zone identity base : single_label base (zonedRouteLabel sha256_hex zone identity +:+ "." +:+ base).
Proof. eexists. split; [reflexivity|]. apply boundedDnsLabel_ok. lia. Qed.

(** The part of a preview label that names the pull request. *)
Definition preview_name (n : Z) : string := "pr-" +:+ pretty n.

Lemma preview_name_label n : (0 <= n < 10 ^ 10)%Z -> label_pattern (preview_name n) = true /\ (length (chars (preview_name n)) <= 13)%nat.
Proof.
  intros Hn. destruct (pretty_Z_digits n 10 Hn) as (H1 & H2 & H3); [lia|]. unfold preview_name, label_pattern.
  rewrite chars_app. split; [|rewrite length_app; cbn [length chars String.list_ascii_of_string]; lia].
  change (chars "pr-") with (chars "pr" ++ ["-"%char]). rewrite <- app_assoc. apply label_app; [done| |by repeat constructor].
  apply label_lower; [|intros E; rewrite E in H1; cbn in H1; lia].
  apply Forall_forall. intros c Hc%list_elem_of_In. rewrite forallb_forall in H3. unfold is_lower_alnum. rewrite (H3 c Hc). apply orb_true_r.
Qed.

Lemma preview_single n identity base : (0 <= n < 10 ^ 10)%Z ->
  single_label base (previewRouteLabel sha256_hex (preview_name n) identity +:+ "." +:+ base).
Proof.
  intros [H1 H2]%preview_name_label. eexists. split; [reflexivity|]. unfold previewRouteLabel. cbv zeta.
  destruct (boundedDnsLabel_ok (JStr identity) MAX_PREVIEW_ROUTE_IDENTITY_LENGTH JUndef) as [H3 H4]; [by vm_compute; lia|].
  split; [by repeat apply joined_label|]. rewrite !chars_app, !length_app. cbn [length chars String.list_ascii_of_string SUBDOMAIN_ZONES.PREVIEW].
  unfold MAX_PREVIEW_ROUTE_IDENTITY_LENGTH in *. lia.
Qed.

(** [pattern.replace('{number}', text)]: the first occurrence. *)
Fixpoint replace_first (pat by_ l : list ascii) : list ascii :=
  if prefixb pat l then by_ ++ drop (length pat) l else match l with [] => [] | c :: l' => c :: replace_first pat by_ l' end.

Lemma replace_first_at x pat by_ before after : x ∉ before ->
  replace_first (x :: pat) by_ (before ++ (x :: pat) ++ after) = before ++ by_ ++ after.
Proof.
  induction before as [|c before IH]; intros Hx.
  - cbn [app]. assert (prefixb (x :: pat) (x :: pat ++ after) = true) as E by (apply prefixb_spec; by exists after).
    cbn [replace_first]. rewrite E. cbn [length drop app]. by rewrite drop_app_length.
  - apply not_elem_of_cons in Hx as [Hne Hx]. cbn [app replace_first prefixb].
    destruct (Ascii.eqb_spec x c); [by subst|]. cbn [andb]. f_equal. by apply IH.
Qed.

(** The hostname an advertised pattern stands for. *)
Definition pattern_host (pattern : string) (n : Z) : string := unchars (replace_first (chars "{number}") (chars (pretty n)) (chars pattern)).

Lemma pattern_host_eq o p s public base n :
  pattern_host (previewHostnamePattern sha256_hex o p s public base) n =
    previewRouteLabel sha256_hex (preview_name n) (if public then serviceRouteIdentity o p s else tenantRouteIdentity o p) +:+ "." +:+ base.
Proof.
  unfold pattern_host, previewHostnamePattern, previewRouteLabel, preview_name. cbv zeta. set (label := boundedDnsLabel _ _ _ _).
  assert (forall t, chars (SUBDOMAIN_ZONES.PREVIEW +:+ "--pr-{number}--" +:+ t) = chars "preview--pr-" ++ chars "{number}" ++ chars ("--" +:+ t)) as ->.
  { reflexivity. }
  change (chars "{number}") with ("{"%char :: chars "number}"). rewrite replace_first_at by (apply (bool_decide_unpack _); vm_compute; exact I).
  change (chars "preview--pr-") with (chars SUBDOMAIN_ZONES.PREVIEW ++ chars "--" ++ chars "pr-"). symmetry.
  etransitivity; [symmetry; apply unchars_chars|]. f_equal. by rewrite !chars_app, <- !app_assoc.
Qed.

(** The preview pattern advertised for a web service is the hostname of its
    previews: replacing [{number}] by a pull request number gives the hostname
    [serviceHostname] makes for it. *)
Theorem preview_pattern_exact o p s base n :
  (0 <= n < 10 ^ 10)%Z ->
  serviceHostname sha256_hex [("organizationSlug", JStr o); ("projectSlug", JStr p); ("serviceName", JStr s); ("baseDomain", JStr base); ("preview", JStr (preview_name n))]
    = JStr (pattern_host (previewHostnamePattern sha256_hex (JStr o) (JStr p) (JStr s) true base) n)
  /\ single_label base (pattern_host (previewHostnamePattern sha256_hex (JStr o) (JStr p) (JStr s) true base) n).
Proof.
  intros Hn. rewrite pattern_host_eq. split; [|by apply preview_single].
  destruct (preview_name_label n Hn) as [H _]. 
  transitivity (JStr (previewRouteLabel sha256_hex (normalizeRoutePart (JStr (preview_name n))) (serviceRouteIdentity (JStr o) (JStr p) (JStr s)) +:+ "." +:+ base));
    [reflexivity|]. by rewrite normalizeRoutePart_fixed.
Qed.

(** What the plan says of one service: its console is one label below the base
    domain, and so is its public hostname unless it has none or a domain of
    its own, and so is every preview. *)
Definition service_covered (base : string) (service entry : jsval) : Prop :=
  single_label base (js_String (field "consoleHostname" entry))
  /\ (field "publicHostname" entry = JNull \/ (truthy (field "domain" service) = true /\ field "publicHostname" entry = field "domain" service)
      \/ exists host, field "publicHostname" entry = JStr host /\ single_label base host)
  /\ forall n, (0 <= n < 10 ^ 10)%Z -> single_label base (pattern_host (js_String (field "previewPattern" entry)) n).

Lemma base_param_eq base l : obj_get "baseDomain" l = base -> base <> JUndef -> base_param l = js_String base.
Proof. intros E Hne. unfold base_param, param. rewrite E. by destruct base. Qed.

(** Every hostname function answers with one label below the domain it is given. *)
Lemma consoles_single base l : obj_get "baseDomain" l = base -> base <> JUndef ->
  single_label (js_String base) (serviceConsoleHostname sha256_hex l) /\ single_label (js_String base) (resourceConsoleHostname sha256_hex l)
  /\ single_label (js_String base) (projectConsoleHostname sha256_hex l) /\ single_label (js_String base) (workspaceConsoleHostname sha256_hex l).
Proof.
  intros E Hne. unfold serviceConsoleHostname, resourceConsoleHostname, projectConsoleHostname, workspaceConsoleHostname. cbv zeta.
  rewrite (base_param_eq base) by done. split_and!; apply zoned_single.
Qed.

Lemma serviceHostname_single base l : obj_get "baseDomain" l = base -> base <> JUndef -> param "preview" JNull l = JNull ->
  truthy (param "customDomain" JNull l) = false -> exists host, serviceHostname sha256_hex l = JStr host /\ single_label (js_String base) host.
Proof.
  intros E Hne Hp Hc. eexists. unfold serviceHostname. cbv zeta. rewrite Hp, Hc. cbn [truthy].
  rewrite (base_param_eq base) by done. split; [reflexivity|apply zoned_single].
Qed.

Lemma service_entry_covered o p slug base service : base <> JUndef ->
  service_covered (js_String base) service (service_entry sha256_hex o p slug base service).
Proof.
  intros Hd. split_and!.
  - set (route := [("organizationSlug", o); ("projectSlug", p); ("serviceName", field "name" service); ("baseDomain", base)]).
    change (single_label (js_String base) (serviceConsoleHostname sha256_hex route)). apply (consoles_single base route eq_refl Hd).
  - unfold service_entry. cbv zeta.
    match goal with |- context [("publicHostname", if ?b then ?h else _)] => change (field "publicHostname" _) with (if b then h else JNull); destruct b; [|by left] end.
    right. match goal with |- context [serviceHostname _ ?l] => set (input := l) end.
    destruct (truthy (field "domain" service)) eqn:Et.
    + left. split; [done|]. unfold serviceHostname. change (param "customDomain" JNull input) with (match js_or (field "domain" service) JNull with JUndef => JNull | v => v end).
      unfold js_or. rewrite Et. destruct (field "domain" service); cbn [truthy] in Et |- *; try done; by rewrite Et.
    + right. apply serviceHostname_single; [done|done|done|].
      change (param "customDomain" JNull input) with (match js_or (field "domain" service) JNull with JUndef => JNull | v => v end).
      unfold js_or. by rewrite Et.
  - intros n Hn. change (js_String (field "previewPattern" _)) with
      (previewHostnamePattern sha256_hex o p (field "name" service) (isPublicWebService (entries service)) (js_String base)).
    rewrite pattern_host_eq. by apply preview_single.
Qed.

(** One wildcard certificate covers a project: in the domain plan of every
    specification the platform, workspace, project, service, preview and
    resource hostnames are a single DNS label of at most 63 characters below
    the base domain, but for services with a domain of their own. *)
Theorem domain_plan_covered spec :
  let plan := domainPlanForProject sha256_hex spec in
  let base := js_String (plan_baseDomain plan) in
  plan_wildcardTls plan = ["*." +:+ base]
  /\ Forall (fun entry => single_label base entry.2) (plan_platform plan)
  /\ single_label base (plan_workspace plan) /\ single_label base (plan_project plan)
  /\ Forall2 (service_covered base) (array_or_empty (obj_get "services" spec)) (plan_services plan)
  /\ Forall (fun entry => single_label base (js_String (field "consoleHostname" entry))) (plan_resources plan).
Proof.
  intros plan base. set (dom := js_or (obj_get "baseDomain" spec) (JStr DEFAULT_DOMAIN)).
  assert (dom <> JUndef) as Hd by (unfold dom, js_or; destruct (truthy (obj_get "baseDomain" spec)) eqn:E; [intros E'; by rewrite E' in E|done]).
  change base with (js_String dom). split_and!; [done| | | | |].
  - repeat constructor; (eexists; split; [reflexivity|]; split; [done|cbn; lia]).
  - subst plan. unfold domainPlanForProject. cbv zeta. cbn [plan_workspace]. fold dom.
    match goal with |- context [workspaceConsoleHostname _ ?l] => apply (consoles_single dom l eq_refl Hd) end.
  - subst plan. unfold domainPlanForProject. cbv zeta. cbn [plan_project]. fold dom.
    match goal with |- context [projectConsoleHostname _ ?l] => apply (consoles_single dom l eq_refl Hd) end.
  - subst plan. unfold domainPlanForProject. cbv zeta. cbn [plan_services]. fold dom. apply Forall2_fmap_r.
    apply Forall_Forall2_diag, Forall_forall. intros service _. by apply service_entry_covered.
  - subst plan. unfold domainPlanForProject. cbv zeta. cbn [plan_resources]. fold dom. apply Forall_fmap, Forall_forall.
    intros resource _. unfold compose, resource_entry. cbv zeta.
    match goal with |- context [resourceConsoleHostname _ ?l] => change (single_label (js_String dom) (resourceConsoleHostname sha256_hex l)); apply (consoles_single dom l eq_refl Hd) end.
Qed.

End Hash.

(** ** Hostnames tell services apart *)

(** Hyphens neither doubled nor at the end. *)
Definition separable (l : list ascii) : Prop := no_adjacent is_hyphen l = true /\ forall c k, l = k ++ [c] -> is_hyphen c = false.

Lemma separable_tail x l : separable (x :: l) -> separable l.
Proof.
  intros [H1 H2]. split; [by apply (no_adjacent_app_r _ [x])|]. intros c k ->. by apply (H2 c (x :: k)).
Qed.

Lemma separable_hyphens l : separable ("-"%char :: l) -> forall k, l <> "-"%char :: k.
Proof. intros [H _] k ->. by rewrite no_adjacent_cons in H. Qed.

Lemma separable_single : ~ separable ["-"%char].
Proof. intros [_ H]. by specialize (H "-"%char [] eq_refl). Qed.

(** A double hyphen after a separable text is found again. *)
Lemma separator_inj a b x y : separable a -> separable b ->
  a ++ ["-"; "-"]%char ++ x = b ++ ["-"; "-"]%char ++ y -> a = b /\ x = y.
Proof.
  revert b. induction a as [|c a IH]; intros [|d b] Ha Hb E; cbn [app] in E.
  - by injection E.
  - exfalso. injection E as <- E. destruct b as [|d b]; [by apply separable_single|]. injection E as <- _.
    by eapply separable_hyphens.
  - exfalso. injection E as -> E. destruct a as [|d a]; [by apply separable_single|]. injection E as -> _.
    by eapply separable_hyphens.
  - injection E as -> E. destruct (IH b) as [-> ->]; [by eapply separable_tail..|done|done].
Qed.

Lemma separable_no_separator a b x : separable a -> a <> b ++ ["-"; "-"]%char ++ x.
Proof. intros [H _] ->. by apply no_adjacent_app_r, no_adjacent_app_l in H as ?. Qed.

(** A slug: a DNS label without a double hyphen, as organizations and projects have. *)
Definition slug_label (s : string) : bool := label_pattern s && no_adjacent is_hyphen (chars s).

Lemma slug_label_spec s : slug_label s = true -> label_pattern s = true /\ separable (chars s).
Proof.
  unfold slug_label. intros [Hl Hn]%andb_true_iff. split; [done|]. split; [done|]. intros c k E.
  unfold label_pattern in Hl. apply label_chars_spec in Hl as (_ & _ & k' & y & E' & Hy). rewrite E' in E.
  apply app_inj_tail in E as [_ <-]. by apply lower_alnum_not_hyphen.
Qed.

Lemma chars_inj a b : chars a = chars b -> a = b.
Proof. intros E. rewrite <- (unchars_chars a), <- (unchars_chars b). by f_equal. Qed.

(** The identities of two services are the same only for the same service. *)
Lemma serviceRouteIdentity_inj o p s o' p' s' :
  slug_label o = true -> slug_label p = true -> slug_label o' = true -> slug_label p' = true ->
  label_pattern s = true -> label_pattern s' = true ->
  serviceRouteIdentity (JStr o) (JStr p) (JStr s) = serviceRouteIdentity (JStr o') (JStr p') (JStr s') -> o = o' /\ p = p' /\ s = s'.
Proof.
  intros [Lo So]%slug_label_spec [Lp Sp]%slug_label_spec [Lo' So']%slug_label_spec [Lp' Sp']%slug_label_spec Ls Ls'.
  unfold serviceRouteIdentity, tenantRouteIdentity, organizationRouteTenantSegment. cbv zeta.
  rewrite !normalizeRoutePart_fixed by done. intros E%(f_equal chars). revert E.
  repeat case_decide; subst; rewrite ?chars_app, <- ?app_assoc; intros E;
    apply separator_inj in E as [E1%chars_inj E2]; try done; subst o'.
  - by apply chars_inj in E2 as ->.
  - exfalso. by eapply separable_no_separator in E2.
  - exfalso. symmetry in E2. by eapply separable_no_separator in E2.
  - apply separator_inj in E2 as [->%chars_inj ->%chars_inj]; done.
Qed.

Definition service_route (o p s base : string) : jsobj :=
  [("organizationSlug", JStr o); ("projectSlug", JStr p); ("serviceName", JStr s); ("baseDomain", JStr base)].

(** The label of a service is not cut. *)
Definition uncut (o p s : string) : bool :=
  (length (chars (SUBDOMAIN_ZONES.APPS +:+ "--" +:+ serviceRouteIdentity (JStr o) (JStr p) (JStr s))) <=? 63)%nat.

Lemma app_string_inj_l a b c : a +:+ c = b +:+ c -> a = b.
Proof. intros E%(f_equal chars). rewrite !chars_app in E. apply app_inv_tail in E. by apply chars_inj. Qed.

Lemma uncut_hostname sha256_hex o p s base : uncut o p s = true ->
  serviceHostname sha256_hex (service_route o p s base) = JStr ((SUBDOMAIN_ZONES.APPS +:+ "--" +:+ serviceRouteIdentity (JStr o) (JStr p) (JStr s)) +:+ "." +:+ base).
Proof.
  intros H. set (identity := serviceRouteIdentity (JStr o) (JStr p) (JStr s)).
  transitivity (JStr (zonedRouteLabel sha256_hex SUBDOMAIN_ZONES.APPS identity +:+ "." +:+ base)); [reflexivity|]. do 2 f_equal.
  unfold zonedRouteLabel, boundedDnsLabel. cbv zeta. rewrite normalizeRoutePart_fixed by (apply joined_label; [done|apply serviceRouteIdentity_label]). unfold uncut in H. fold identity in H. by rewrite H.
Qed.

(** Different services have different hostnames: for slugs of organizations
    and projects and labels of services, two services whose labels are not cut
    share a hostname under a base domain only if they are the same service of
    the same project and organization. *)
Theorem service_hostnames_distinct sha256_hex o p s o' p' s' base :
  slug_label o = true -> slug_label p = true -> slug_label o' = true -> slug_label p' = true ->
  label_pattern s = true -> label_pattern s' = true -> uncut o p s = true -> uncut o' p' s' = true ->
  serviceHostname sha256_hex (service_route o p s base) = serviceHostname sha256_hex (service_route o' p' s' base) ->
  o = o' /\ p = p' /\ s = s'.
Proof.
  intros Ho Hp Ho' Hp' Hs Hs' Hu Hu'. rewrite !uncut_hostname by done. intros [= E%app_string_inj_l].
  by apply serviceRouteIdentity_inj in E.
Qed.

(** The console of a service is named with a single hyphen after the project,
    which slugs contain themselves: the services [api-web] of [shop] and [web]
    of [shop-api] share their console hostname, and the console of [api] of
    [shop] is the console of the project [shop-api]. *)
Theorem console_hostnames_collide sha256_hex o base :
  serviceConsoleHostname sha256_hex (service_route o "shop" "api-web" base) = serviceConsoleHostname sha256_hex (service_route o "shop-api" "web" base)
  /\ serviceConsoleHostname sha256_hex (service_route o "shop" "api" base) = projectConsoleHostname sha256_hex (service_route o "shop-api" "web" base).
Proof.
  unfold serviceConsoleHostname, projectConsoleHostname. cbv zeta.
  change (base_param _) with base. split; do 2 f_equal; apply chars_inj;
    unfold tenantRouteIdentity; rewrite !chars_app, <- !app_assoc; reflexivity.
Qed.

(** ** Applications *)

Definition toy_sha256 (s : string) : string := unchars (repeat (if str_empty s then "0" else "a")%char 64).

Lemma toy_sha256_shape s : class_pattern is_lower_hex 64 64 (toy_sha256 s) = true.
Proof. unfold toy_sha256. destruct (str_empty s); reflexivity. Qed.

Lemma preview_pattern_exact_witness :
  serviceHostname toy_sha256 [("organizationSlug", JStr "club"); ("projectSlug", JStr "shop"); ("serviceName", JStr "api"); ("baseDomain", JStr "raibit.dev"); ("preview", JStr "pr-17")]
    = JStr "preview--pr-17--club--shop--api.raibit.dev"
  /\ single_label "raibit.dev" "preview--pr-17--club--shop--api.raibit.dev".
Proof. apply (preview_pattern_exact toy_sha256 toy_sha256_shape "club" "shop" "api" "raibit.dev" 17). lia. Defined.

Lemma domain_plan_covered_witness :
  single_label "raibitserver.app" "console--default--shop.raibitserver.app"
  /\ Forall2 (service_covered "raibitserver.app") [JObj [("name", JStr "api")]; JObj [("name", JStr "web"); ("domain", JStr "shop.example")]]
       (plan_services (domainPlanForProject toy_sha256 [("name", JStr "shop"); ("services", JArr [JObj [("name", JStr "api")]; JObj [("name", JStr "web"); ("domain", JStr "shop.example")]])])).
Proof.
  destruct (domain_plan_covered toy_sha256 toy_sha256_shape
    [("name", JStr "shop"); ("services", JArr [JObj [("name", JStr "api")]; JObj [("name", JStr "web"); ("domain", JStr "shop.example")]])])
    as (_ & _ & _ & Hp & Hs & _).
  split; [exact Hp|exact Hs].
Defined.

Lemma service_hostnames_distinct_witness :
  ("club" = "club" /\ "shop" = "shop" /\ "api" = "api")
  /\ serviceHostname toy_sha256 (service_route "club" "shop" "api-web" "raibit.dev") <> serviceHostname toy_sha256 (service_route "club" "shop-api" "web" "raibit.dev").
Proof.
  split; [exact (service_hostnames_distinct toy_sha256 "club" "shop" "api" "club" "shop" "api" "raibit.dev" eq_refl eq_refl eq_refl eq_refl eq_refl eq_refl eq_refl eq_refl eq_refl)|].
  intros E. by destruct (service_hostnames_distinct toy_sha256 "club" "shop" "api-web" "club" "shop-api" "web" "raibit.dev" eq_refl eq_refl eq_refl eq_refl eq_refl eq_refl eq_refl eq_refl E) as (_ & H & _).
Defined.
