(* ===== verification/DomainRentals.v ===== *)
(** * Rented subdomains ([packages/core/src/domain-rentals.ts])

    An approved account rents names below a base domain and points them at a
    URL; the number of names is a personal quota, names are unique, and a name
    resolves only while its owner may use it.  [MemoryDomainRentalRepository]
    runs one transaction at a time and restores its rows when one throws. *)

From S2P Require Import Prelude JsString JsMap JsVal Secrets Domains Redaction.

Open Scope Z_scope.

Definition DOMAIN_RENTAL_TARGET_MAX_LENGTH : Z := 4096.

(** [/^[a-z0-9](?:[a-z0-9-]{0,61}[a-z0-9])?$/] *)
Definition LABEL (s : string) : bool := label_pattern s && (length (chars s) <=? 63)%nat.

Definition RESERVED : list string :=
  ["www"; "app"; "api"; "admin"; "dashboard"; "auth"; "login"; "logout"; "sso";
   "apps"; "preview"; "console"; "resources"; "registry"; "registry-auth";
   "logs"; "metrics"; "status"; "health"; "traefik"; "grafana"; "prometheus";
   "mail"; "smtp"; "imap"; "pop"; "pop3"; "ftp"; "ssh"; "ns"; "ns1"; "ns2";
   "autoconfig"; "autodiscover"; "webmail"; "webhook"; "webhooks"; "git";
   "cdn"; "static"; "assets"; "docs"; "help"; "support"; "localhost"].
Definition RESERVED_PREFIXES : list string := ["apps--"; "preview--"; "console--"; "resources--"; "xn--"].

Record DomainRentalUser := mkRentalUser {
  ru_id : string; ru_accountType : string; ru_approvalStatus : string; ru_bannedAt : option jsdate; ru_banExpiresAt : option jsdate
}.

Record DomainRental := mkRental {
  dr_id : string; dr_ownerUserId : string; dr_hostname : string; dr_targetUrl : string; dr_enabled : bool;
  dr_version : Z; dr_createdAt : Z; dr_updatedAt : Z
}.
#[export] Instance DomainRental_rebuild : Rebuild DomainRental := fun r =>
  mkRental (dr_id r) (dr_ownerUserId r) (dr_hostname r) (dr_targetUrl r) (dr_enabled r) (dr_version r) (dr_createdAt r)
    (dr_updatedAt r).

Record DomainRentalConfig := mkRentalConfig { baseDomain : string; reservedNames : list string }.
Record DomainRentalAudit := mkRentalAudit { ra_actorUserId : string; ra_action : string; ra_rental : DomainRental }.

Definition DomainRentalError (code_ : string) (status : Z) : jserror := JsError "DomainRentalError" code_ (Some status).

(** What the code reads of [new URL(value)]. *)
Record TargetUrl := mkTarget { t_protocol : string; t_username : string; t_password : string; t_hostname : string; t_href : string }.

Section rentals.
(** Node's [isIP] (0, 4 or 6) and [new URL]. *)
Context (isIP : string -> Z) (parseUrl : string -> option TargetUrl).

(** ** Names *)

Definition domainRentalConfig (env : jsval) : result DomainRentalConfig :=
  let base := drop_final_dot (toLowerCase (trim (js_String (js_or (field "RAIBITSERVER_DOMAIN_RENTAL_BASE_DOMAIN" env) (JStr "raibit.kr"))))) in
  let labels := split_on "."%char base in
  _ ← throw_if ((189 <? str_length base) || (length labels <? 2)%nat || negb (forallb LABEL labels) || negb (isIP base =? 0))
        (DomainRentalError "DOMAIN_RENTAL_BASE_DOMAIN_INVALID" 500);
  let configured := filter (fun n => n <> "") (map (fun n => toLowerCase (trim n))
        (split_on ","%char (js_String (js_or (field "RAIBITSERVER_DOMAIN_RENTAL_RESERVED_NAMES" env) (JStr ""))))) in
  let own_names := omap (fun key =>
        let value := field key env in
        if negb (truthy value) then None else
        match parseUrl (js_String value) with
        | None => None
        | Some u => if endsWith (t_hostname u) ("." +:+ base)
                    then Some (unchars (take (length (chars (t_hostname u)) - length (chars base) - 1) (chars (t_hostname u))))
                    else None
        end) ["RAIBITSERVER_API_URL"; "RAIBITSERVER_PUBLIC_URL"; "RAIBITSERVER_DASHBOARD_URL"] in
  mret (mkRentalConfig base (configured ++ own_names)).

Definition reservedName (name : string) (config : DomainRentalConfig) : bool :=
  bool_decide (name ∈ RESERVED) || bool_decide (name ∈ reservedNames config)
  || existsb (startsWith name) RESERVED_PREFIXES.

Definition normalizeDomainRentalName (value : jsval) (config : DomainRentalConfig) : result string :=
  match value with
  | JStr s =>
      let name := toLowerCase (trim s) in
      _ ← throw_if (negb (LABEL name)) (DomainRentalError "DOMAIN_RENTAL_NAME_INVALID" 400);
      _ ← throw_if (reservedName name config) (DomainRentalError "DOMAIN_RENTAL_NAME_RESERVED" 409);
      mret name
  | _ => Throw (DomainRentalError "DOMAIN_RENTAL_NAME_INVALID" 400)
  end.

Definition is_host_char (c : ascii) : bool := is_alnum c || (code c =? 46)%N || is_hyphen c.

(** [/^[a-z0-9.-]+(?::[0-9]{1,5})?$/i]: the part before the port. *)
Definition host_without_port (host : list ascii) : option (list ascii) :=
  let '(name, rest) := span is_host_char host in
  if bool_decide (name = []) then None else
  match rest with
  | [] => Some name
  | ":"%char :: port => if class_pattern is_digit 1 5 (unchars port) then Some name else None
  | _ => None
  end.

Definition domainRentalHostname (host : jsval) (config : DomainRentalConfig) : option string :=
  match host with
  | JStr h =>
      match host_without_port (chars h) with
      | None => None
      | Some name =>
          let hostname := drop_final_dot (toLowerCase (unchars name)) in
          let suffix := "." +:+ baseDomain config in
          if negb (endsWith hostname suffix) then None else
          let label := unchars (take (length (chars hostname) - length (chars suffix)) (chars hostname)) in
          if LABEL label && negb (reservedName label config) then Some hostname else None
      end
  | _ => None
  end.

(** ** Targets *)

(** [text.replace(/^\[|\]$/g, '')] *)
Definition strip_brackets (s : string) : string :=
  let l := match chars s with "["%char :: r => r | l => l end in
  unchars (match rev l with "]"%char :: r => rev r | _ => l end).

Definition octet (s : string) : Z := match js_Number s with NInt z => z | _ => -1 end.

Definition localDestination (hostname : string) : bool :=
  let host := toLowerCase (drop_final_dot (strip_brackets hostname)) in
  if negb (includes host ".") && negb (includes host ":") then true else
  if existsb (fun suffix => bool_decide (host = suffix) || endsWith host ("." +:+ suffix))
       ["localhost"; "local"; "internal"; "lan"; "test"; "invalid"] then true else
  if isIP host =? 4 then
    match split_on "."%char host with
    | sa :: sb :: _ =>
        let a := octet sa in let b := octet sb in
        (a =? 0) || (a =? 10) || (a =? 127) || (224 <=? a) || ((a =? 169) && (b =? 254))
        || ((a =? 172) && (16 <=? b) && (b <=? 31)) || ((a =? 192) && (b =? 168)) || ((a =? 100) && (64 <=? b) && (b <=? 127))
    | _ => false
    end
  else if isIP host =? 6 then
    bool_decide (host = "::") || bool_decide (host = "::1")
    || existsb (startsWith host) ["fc"; "fd"; "fe8"; "fe9"; "fea"; "feb"; "ff"] || startsWith host "::ffff:"
  else false.

(** [/[\u0000-\u0020\u007f\\]/] *)
Definition forbidden_target_char (c : ascii) : bool := (code c <=? 32)%N || (code c =? 127)%N || (code c =? 92)%N.

Definition normalizeDomainRentalTarget (value : jsval) (config : DomainRentalConfig) : result string :=
  let invalid := DomainRentalError "DOMAIN_RENTAL_TARGET_INVALID" 400 in
  match value with
  | JStr s =>
      _ ← throw_if (str_empty (trim s) || (DOMAIN_RENTAL_TARGET_MAX_LENGTH <? str_length s)
                    || existsb forbidden_target_char (chars (trim s))
                    || includes (toLowerCase s) "%0a" || includes (toLowerCase s) "%0d") invalid;
      match parseUrl (trim s) with
      | None => Throw invalid
      | Some target =>
          _ ← throw_if (negb (bool_decide (t_protocol target ∈ ["http:"; "https:"])) || negb (str_empty (t_username target))
                        || negb (str_empty (t_password target)) || str_empty (t_hostname target)
                        || localDestination (t_hostname target)) invalid;
          _ ← throw_if (match domainRentalHostname (JStr (t_hostname target)) config with Some _ => true | None => false end)
                (DomainRentalError "DOMAIN_RENTAL_REDIRECT_LOOP" 400);
          _ ← throw_if (DOMAIN_RENTAL_TARGET_MAX_LENGTH <? str_length (t_href target)) invalid;
          mret (t_href target)
      end
  | _ => Throw invalid
  end.

(** ** Accounts *)

Definition domainRentalLimit (user : DomainRentalUser) : Z :=
  if bool_decide (ru_accountType user = "CLUB_MEMBER") then 5 else 2.

Definition domainRentalUserAllowed (user : option DomainRentalUser) (now : Z) : bool :=
  match user with
  | None => false
  | Some u =>
      bool_decide (ru_approvalStatus u = "APPROVED")
      && match ru_bannedAt u with
         | None => true
         | Some _ => match ru_banExpiresAt u with Some d => num_le (getTime d) now | None => false end
         end
  end.

Definition requireUser (user : option DomainRentalUser) (now : Z) : result DomainRentalUser :=
  match user with
  | Some u => if domainRentalUserAllowed user now then Ok u
              else Throw (DomainRentalError "DOMAIN_RENTAL_ACCOUNT_UNAVAILABLE" 403)
  | None => Throw (DomainRentalError "DOMAIN_RENTAL_ACCOUNT_UNAVAILABLE" 403)
  end.

(** ** Inputs *)

Definition inputObject (value : jsval) (allowed : list string) : result (list (string * jsval)) :=
  match value with
  | JObj input => _ ← throw_if (existsb (fun k => negb (bool_decide (k ∈ allowed))) (map_keys input))
                        (DomainRentalError "DOMAIN_RENTAL_INPUT_INVALID" 400);
                  mret input
  | _ => Throw (DomainRentalError "DOMAIN_RENTAL_INPUT_INVALID" 400)
  end.

Definition expectedVersion (input : list (string * jsval)) : result Z :=
  match as_integer (obj_get "expectedVersion" input) with
  | Some z => if safe_integer z && (1 <=? z) then Ok z else Throw (DomainRentalError "DOMAIN_RENTAL_VERSION_REQUIRED" 400)
  | None => Throw (DomainRentalError "DOMAIN_RENTAL_VERSION_REQUIRED" 400)
  end.

(** [input.enabled !== undefined && typeof input.enabled !== 'boolean'] *)
Definition bad_enabled (v : jsval) : bool := match v with JUndef | JBool _ => false | _ => true end.

(** ** The repository in memory *)

Record RentalStore := mkRentals { rows : jsmap DomainRental; events : list DomainRentalAudit }.
#[export] Instance RentalStore_rebuild : Rebuild RentalStore := fun s => mkRentals (rows s) (events s).

Context (lookupUser : string -> option DomainRentalUser) (lookupOccupied : string -> bool).
(** The order of [localeCompare] on row identifiers. *)
Context (id_le : string -> string -> bool).

Definition list_rows (ownerUserId : string) (s : RentalStore) : list DomainRental :=
  filter (fun row => dr_ownerUserId row = ownerUserId) (map_values (rows s)).
Definition find_row (id : string) (s : RentalStore) : option DomainRental := map_get id (rows s).
Definition findHostname (hostname : string) (s : RentalStore) : option DomainRental :=
  js_find (fun row => dr_hostname row = hostname) (map_values (rows s)).

Definition insert_row (rental : DomainRental) : M RentalStore unit :=
  s ← get;
  _ ← lift (throw_if (match findHostname (dr_hostname rental) s with Some _ => true | None => false end)
              (DomainRentalError "DOMAIN_RENTAL_NAME_TAKEN" 409));
  modify (fun s => s <| rows := map_set (dr_id rental) rental (rows s) |>).
Definition update_row (rental : DomainRental) : M RentalStore unit :=
  modify (fun s => s <| rows := map_set (dr_id rental) rental (rows s) |>).
Definition remove_row (id : string) : M RentalStore unit :=
  modify (fun s => s <| rows := map_delete id (rows s) |>).
Definition audit_event (event : DomainRentalAudit) : M RentalStore unit :=
  modify (fun s => s <| events := events s ++ [event] |>).

(** The rows and the length of the log are restored when the work throws. *)
Definition withOwner {A} (work : M RentalStore A) : M RentalStore A := fun s =>
  match work s with
  | (Ok a, s') => (Ok a, s')
  | (Throw e, s') => (Throw e, mkRentals (rows s) (take (length (events s)) (events s')))
  end.

(** ** Operations *)

Context (config : DomainRentalConfig).

(** [a.createdAt.localeCompare(b.createdAt) || a.id.localeCompare(b.id)] *)
Definition rental_le (a b : DomainRental) : bool :=
  if dr_createdAt a =? dr_createdAt b then id_le (dr_id a) (dr_id b) else dr_createdAt a <? dr_createdAt b.
Definition sorted (rentals : list DomainRental) : list DomainRental := js_sort rental_le rentals.

Definition name_taken (hostname : string) (s : RentalStore) : bool :=
  match findHostname hostname s with Some _ => true | None => lookupOccupied hostname end.

(** [create]; [id] is the random identifier drawn by the call. *)
Definition create (ownerUserId : string) (value : jsval) (id : string) (now : Z) : M RentalStore DomainRental :=
  input ← lift (inputObject value ["name"; "targetUrl"; "enabled"]);
  name ← lift (normalizeDomainRentalName (obj_get "name" input) config);
  targetUrl ← lift (normalizeDomainRentalTarget (obj_get "targetUrl" input) config);
  _ ← lift (throw_if (bad_enabled (obj_get "enabled" input)) (DomainRentalError "DOMAIN_RENTAL_INPUT_INVALID" 400));
  withOwner (
    user ← lift (requireUser (lookupUser ownerUserId) now);
    s ← get;
    _ ← lift (throw_if (domainRentalLimit user <=? Z.of_nat (length (list_rows ownerUserId s)))
                (DomainRentalError "DOMAIN_RENTAL_QUOTA_EXCEEDED" 409));
    let hostname := name +:+ "." +:+ baseDomain config in
    _ ← lift (throw_if (name_taken hostname s) (DomainRentalError "DOMAIN_RENTAL_NAME_TAKEN" 409));
    let rental := mkRental id ownerUserId hostname targetUrl
          (match obj_get "enabled" input with JBool b => b | _ => true end) 1 now now in
    _ ← insert_row rental;
    _ ← audit_event (mkRentalAudit ownerUserId "domain-rental.create" rental);
    mret rental).

Definition own_row (ownerUserId id : string) (version : Z) (s : RentalStore) : result DomainRental :=
  match find_row id s with
  | None => Throw (DomainRentalError "DOMAIN_RENTAL_NOT_FOUND" 404)
  | Some current =>
      _ ← throw_if (negb (bool_decide (dr_ownerUserId current = ownerUserId))) (DomainRentalError "DOMAIN_RENTAL_NOT_FOUND" 404);
      _ ← throw_if (negb (dr_version current =? version)) (DomainRentalError "DOMAIN_RENTAL_VERSION_CONFLICT" 409);
      mret current
  end.

(** [key === undefined ? undefined : f(value)] *)
Definition if_defined {A} (v : jsval) (f : jsval -> result A) : result (option A) :=
  match v with JUndef => Ok None | _ => a ← f v; mret (Some a) end.

Definition update (ownerUserId id : string) (value : jsval) (now : Z) : M RentalStore DomainRental :=
  input ← lift (inputObject value ["name"; "targetUrl"; "enabled"; "expectedVersion"]);
  version ← lift (expectedVersion input);
  _ ← lift (throw_if (negb (existsb (fun k => map_has k input) ["name"; "targetUrl"; "enabled"]))
              (DomainRentalError "DOMAIN_RENTAL_INPUT_INVALID" 400));
  hostname ← lift (if_defined (obj_get "name" input)
                     (fun v => name ← normalizeDomainRentalName v config; mret (name +:+ "." +:+ baseDomain config)));
  targetUrl ← lift (if_defined (obj_get "targetUrl" input) (fun v => normalizeDomainRentalTarget v config));
  _ ← lift (throw_if (bad_enabled (obj_get "enabled" input)) (DomainRentalError "DOMAIN_RENTAL_INPUT_INVALID" 400));
  withOwner (
    _ ← lift (requireUser (lookupUser ownerUserId) now);
    s ← get;
    current ← lift (own_row ownerUserId id version s);
    _ ← lift (throw_if (match hostname with
                        | Some h => negb (bool_decide (h = dr_hostname current)) && name_taken h s
                        | None => false
                        end) (DomainRentalError "DOMAIN_RENTAL_NAME_TAKEN" 409));
    let rental := current <| dr_hostname := default (dr_hostname current) hostname |>
          <| dr_targetUrl := default (dr_targetUrl current) targetUrl |>
          <| dr_enabled := match obj_get "enabled" input with JBool b => b | _ => dr_enabled current end |>
          <| dr_version := dr_version current + 1 |> <| dr_updatedAt := now |> in
    _ ← update_row rental;
    _ ← audit_event (mkRentalAudit ownerUserId "domain-rental.update" rental);
    mret rental).

Definition remove (ownerUserId id : string) (value : jsval) (now : Z) : M RentalStore unit :=
  input ← lift (inputObject value ["expectedVersion"]);
  version ← lift (expectedVersion input);
  withOwner (
    _ ← lift (requireUser (lookupUser ownerUserId) now);
    s ← get;
    rental ← lift (own_row ownerUserId id version s);
    _ ← remove_row id;
    audit_event (mkRentalAudit ownerUserId "domain-rental.delete" rental)).

Definition resolve (host : jsval) (now : Z) (s : RentalStore) : result (option string) :=
  match domainRentalHostname host config with
  | None => Ok None
  | Some hostname =>
      match findHostname hostname s with
      | None => Ok None
      | Some rental =>
          if negb (dr_enabled rental) then Ok None else
          match lookupUser (dr_ownerUserId rental) with
          | None => Ok None
          | Some user =>
              if negb (domainRentalUserAllowed (Some user) now) then Ok None else
              let eligible := take (Z.to_nat (domainRentalLimit user)) (sorted (list_rows (ru_id user) s)) in
              if negb (existsb (fun candidate => bool_decide (dr_id candidate = dr_id rental)) eligible) then Ok None else
              target ← normalizeDomainRentalTarget (JStr (dr_targetUrl rental)) config;
              mret (Some target)
          end
      end
  end.

Record RentalSummary := mkSummary { su_limit : Z; su_used : Z; su_remaining : Z; su_rentals : list (DomainRental * bool) }.

(** [list]: the quota and the rentals, oldest first, each with whether it is
    suspended. *)
Definition list_summary (ownerUserId : string) (now : Z) (s : RentalStore) : result RentalSummary :=
  user ← requireUser (lookupUser ownerUserId) now;
  let rentals := sorted (list_rows ownerUserId s) in
  let limit := domainRentalLimit user in
  mret (mkSummary limit (Z.of_nat (length rentals)) (Z.max 0 (limit - Z.of_nat (length rentals)))
          (imap (fun index rental => (rental, limit <=? Z.of_nat index)) rentals)).
End rentals.

Close Scope Z_scope.
