(* ===== verification/DomainRentalSafety.v ===== *)
(** * Properties of rented subdomains

    The invariant of the repository (unique, well-formed names, and no request
    lifts an owner above the quota), what resolving a host guarantees, that a name that was
    just rented resolves, and how many names an owner can have in use. *)

From S2P Require Import Prelude JsString JsMap JsVal Secrets Domains Redaction DomainRentals.

Open Scope Z_scope.

(** ** Rows of a map *)

Section owner_count.
Context {V : Type} (P : V -> Prop) `{forall x, Decision (P x)}.

Definition count_rows (m : list (string * V)) : nat := length (filter P (map_values m)).

Lemma count_rows_set k old new m :
  map_get k m = Some old -> (P new <-> P old) -> count_rows (map_set k new m) = count_rows m.
Proof.
  intros Hk Hp. unfold count_rows, map_values. induction m as [|[k' v'] m IH]; [done|]. cbn [map_get map_set] in *.
  case_decide as Hd; rewrite !fmap_cons, !filter_cons; cbn [snd].
  - injection Hk as ->. destruct (decide (P new)), (decide (P old)); cbn; tauto || lia.
  - specialize (IH Hk). destruct (decide (P v')); cbn [length]; congruence.
Qed.

Lemma count_rows_fresh k new m :
  map_get k m = None -> count_rows (map_set k new m) = (count_rows m + if decide (P new) then 1 else 0)%nat.
Proof. intros Hk. unfold count_rows, map_values. rewrite map_set_fresh, fmap_app by done. apply length_filter_snoc. Qed.

Lemma count_rows_delete k m : (count_rows (map_delete k m) <= count_rows m)%nat.
Proof.
  unfold count_rows, map_values. induction m as [|[k' v'] m IH]; [done|]. cbn [map_delete].
  destruct (decide (k' = k)); rewrite ?fmap_cons, !filter_cons; cbn [snd]; destruct (decide (P v')); cbn [length]; lia.
Qed.
End owner_count.

Section rental_properties.
Context (isIP : string -> Z) (parseUrl : string -> option TargetUrl).
Context (lookupUser : string -> option DomainRentalUser) (lookupOccupied : string -> bool).
Context (id_le : string -> string -> bool) (config : DomainRentalConfig).

Notation create := (create isIP parseUrl lookupUser lookupOccupied config).
Notation update := (update isIP parseUrl lookupUser lookupOccupied config).
Notation remove := (remove lookupUser).
Notation resolve := (resolve isIP parseUrl lookupUser id_le config).
Notation target_of := (normalizeDomainRentalTarget isIP parseUrl).

(** A name below the base domain that may be rented. *)
Definition rentable (hostname : string) : Prop :=
  exists name, hostname = name +:+ "." +:+ baseDomain config /\ LABEL name = true /\ reservedName name config = false.

Lemma normalize_name_Ok v name : normalizeDomainRentalName v config = Ok name -> rentable (name +:+ "." +:+ baseDomain config).
Proof.
  unfold normalizeDomainRentalName. destruct v as [| | | |s| |]; try done. cbv zeta.
  rewrite bind_Ok. intros (? & H1%throw_if_Ok & H). apply bind_Ok in H as (? & H2%throw_if_Ok & [= <-]).
  exists (toLowerCase (trim s)). apply negb_false_iff in H1. done.
Qed.

Lemma findHostname_None h s : findHostname h s = None -> forall k r, map_get k (rows s) = Some r -> dr_hostname r <> h.
Proof.
  intros Hn k r Hk. unfold findHostname in Hn. rewrite js_find_None, Forall_forall in Hn. apply Hn.
  apply map_get_Some_elem in Hk. apply list_elem_of_fmap. by exists (k, r).
Qed.

Lemma name_free h s : name_taken lookupOccupied h s = false ->
  findHostname h s = None /\ forall k r, map_get k (rows s) = Some r -> dr_hostname r <> h.
Proof. unfold name_taken. destruct (findHostname h s) eqn:E; [done|]. intros _. split; [done|by apply findHostname_None]. Qed.

(** ** What each operation does *)

Lemma take_all {A} (l : list A) : take (length l) l = l.
Proof. by rewrite take_ge. Qed.

Lemma create_cases owner v id now s r s' :
  create owner v id now s = (r, s') ->
  match r with
  | Throw _ => s' = s
  | Ok rental => exists user target,
      lookupUser owner = Some user /\ domainRentalUserAllowed (Some user) now = true
      /\ Z.of_nat (length (list_rows owner s)) < domainRentalLimit user
      /\ rentable (dr_hostname rental) /\ (forall k row, map_get k (rows s) = Some row -> dr_hostname row <> dr_hostname rental)
      /\ dr_id rental = id /\ dr_ownerUserId rental = owner
      /\ target_of target config = Ok (dr_targetUrl rental)
      /\ rows s' = map_set id rental (rows s)
  end.
Proof.
  unfold DomainRentals.create, mbind, M_bind, lift, withOwner.
  destruct (inputObject v _) as [input|e]; [|intros [= <- <-]; done].
  destruct (normalizeDomainRentalName _ config) as [name|e] eqn:En; [|intros [= <- <-]; done].
  destruct (normalizeDomainRentalTarget _ _ _ config) as [target|e] eqn:Et; [|intros [= <- <-]; done].
  destruct (throw_if (bad_enabled _) _) as [u|e]; [|intros [= <- <-]; done].
  unfold requireUser. destruct (lookupUser owner) as [user|]; [|intros [= <- <-]; rewrite take_all; by destruct s].
  destruct (domainRentalUserAllowed (Some user) now) eqn:Ea; [|intros [= <- <-]; rewrite take_all; by destruct s].
  cbn [get]. destruct (throw_if (domainRentalLimit user <=? _) _) as [u1|e] eqn:Eq;
    [|intros [= <- <-]; rewrite take_all; by destruct s].
  destruct (throw_if (name_taken _ _ s) _) as [u2|e] eqn:Ef; [|intros [= <- <-]; rewrite take_all; by destruct s].
  apply throw_if_Ok in Ef. apply name_free in Ef as [Ef Ef']. unfold insert_row, mbind, M_bind, lift. cbn [get dr_hostname].
  rewrite Ef. cbn. intros [= <- <-]. apply throw_if_Ok, Z.leb_gt in Eq.
  exists user, (obj_get "targetUrl" input). split_and!; try done. by apply normalize_name_Ok in En.
Qed.

Lemma own_row_Ok owner id v s row : own_row owner id v s = Ok row ->
  map_get id (rows s) = Some row /\ dr_ownerUserId row = owner /\ dr_version row = v.
Proof.
  unfold own_row, find_row. destruct (map_get id (rows s)) as [r|]; [|done]. rewrite bind_Ok.
  intros (? & H1%throw_if_Ok & H). apply bind_Ok in H as (? & H2%throw_if_Ok & [= <-]).
  apply negb_false_iff, bool_decide_eq_true in H1. apply negb_false_iff, Z.eqb_eq in H2. done.
Qed.

Lemma update_cases owner id v now s r s' :
  (forall row, map_get id (rows s) = Some row -> dr_id row = id) ->
  update owner id v now s = (r, s') ->
  match r with
  | Throw _ => s' = s
  | Ok rental => exists current,
      map_get id (rows s) = Some current /\ dr_ownerUserId current = owner /\ dr_ownerUserId rental = owner
      /\ dr_id rental = id /\ dr_version rental = dr_version current + 1
      /\ (dr_hostname rental = dr_hostname current
          \/ (rentable (dr_hostname rental) /\ forall k row, map_get k (rows s) = Some row -> dr_hostname row <> dr_hostname rental))
      /\ (dr_targetUrl rental = dr_targetUrl current \/ exists target, target_of target config = Ok (dr_targetUrl rental))
      /\ rows s' = map_set id rental (rows s)
  end.
Proof.
  intros Hids. unfold DomainRentals.update, mbind, M_bind, lift, withOwner.
  destruct (inputObject v _) as [input|e]; [|intros [= <- <-]; done].
  destruct (expectedVersion input) as [version|e]; [|intros [= <- <-]; done].
  destruct (throw_if (negb (existsb _ _)) _) as [u|e]; [|intros [= <- <-]; done].
  destruct (if_defined (obj_get "name" input) _) as [hostname|e] eqn:Eh; [|intros [= <- <-]; done].
  destruct (if_defined (obj_get "targetUrl" input) _) as [target|e] eqn:Et; [|intros [= <- <-]; done].
  destruct (throw_if (bad_enabled _) _) as [u1|e]; [|intros [= <- <-]; done].
  destruct (requireUser _ now) as [user|e]; [|intros [= <- <-]; rewrite take_all; by destruct s]. cbn [get].
  destruct (own_row owner id version s) as [current|e] eqn:Eo; [|intros [= <- <-]; rewrite take_all; by destruct s].
  destruct (throw_if _ (DomainRentalError "DOMAIN_RENTAL_NAME_TAKEN" 409)) as [u2|e] eqn:Ef;
    [|intros [= <- <-]; rewrite take_all; by destruct s].
  apply own_row_Ok in Eo as (Hrow & Hown & Hver). pose proof (Hids _ Hrow) as Hid. cbn. intros [= <- <-].
  exists current. cbn. rewrite Hid. split_and!; try done.
  - destruct hostname as [h|]; cbn; [|by left]. apply throw_if_Ok in Ef.
    destruct (bool_decide_reflect (h = dr_hostname current)) as [->|Hne]; [by left|right]. cbn in Ef.
    apply name_free in Ef as [_ Hfree]. split; [|done]. unfold if_defined in Eh.
    destruct (obj_get "name" input); try done; apply bind_Ok in Eh as (h' & Eh & [= ->]);
      apply bind_Ok in Eh as (name & Hn & [= <-]); by apply normalize_name_Ok in Hn.
  - destruct target as [t|]; cbn; [right|by left]. unfold if_defined in Et. exists (obj_get "targetUrl" input).
    destruct (obj_get "targetUrl" input); try done; apply bind_Ok in Et as (t' & Et & [= ->]); exact Et.
Qed.

Lemma remove_cases owner id v now s r s' :
  remove owner id v now s = (r, s') ->
  match r with
  | Throw _ => s' = s
  | Ok _ => exists current, map_get id (rows s) = Some current /\ dr_ownerUserId current = owner
      /\ rows s' = map_delete id (rows s)
  end.
Proof.
  unfold DomainRentals.remove, mbind, M_bind, lift, withOwner.
  destruct (inputObject v _) as [input|e]; [|intros [= <- <-]; done].
  destruct (expectedVersion input) as [version|e]; [|intros [= <- <-]; done].
  destruct (requireUser _ now) as [user|e]; [|intros [= <- <-]; rewrite take_all; by destruct s]. cbn [get].
  destruct (own_row owner id version s) as [current|e] eqn:Eo; [|intros [= <- <-]; rewrite take_all; by destruct s].
  apply own_row_Ok in Eo as (Hrow & Hown & _). cbn. intros [= <- <-]. by exists current.
Qed.

(** ** The invariant *)

Record rentals_ok (s : RentalStore) : Prop := {
  rk_wf : map_wf (rows s);
  rk_ids : forall k row, map_get k (rows s) = Some row -> dr_id row = k;
  rk_names : forall k row, map_get k (rows s) = Some row -> rentable (dr_hostname row);
  rk_distinct : forall k1 k2 r1 r2, map_get k1 (rows s) = Some r1 -> map_get k2 (rows s) = Some r2 ->
    dr_hostname r1 = dr_hostname r2 -> k1 = k2;
  rk_largest : forall owner, Z.of_nat (length (list_rows owner s)) <= 5
}.

Lemma limit_largest user : 0 <= domainRentalLimit user <= 5.
Proof. unfold domainRentalLimit. case_bool_decide; lia. Qed.

(** The number of names an account may have now *)
Definition allowance (owner : string) : Z := match lookupUser owner with Some user => domainRentalLimit user | None => 0 end.

(** A request leaves nobody with more names than before, or than may be had now. *)
Definition within_allowance (s s' : RentalStore) : Prop :=
  forall owner, Z.of_nat (length (list_rows owner s')) <= Z.max (Z.of_nat (length (list_rows owner s))) (allowance owner).

(** A request, served or refused, with the accounts and the names taken
    elsewhere as they are at that time *)
Inductive rental_step : RentalStore -> RentalStore -> Prop :=
| rs_create owner v id now s : map_get id (rows s) = None -> rental_step s (create owner v id now s).2
| rs_update owner id v now s : rental_step s (update owner id v now s).2
| rs_remove owner id v now s : rental_step s (remove owner id v now s).2.

Lemma list_rows_count owner s :
  length (list_rows owner s) = count_rows (fun row => dr_ownerUserId row = owner) (rows s).
Proof. done. Qed.

Lemma ok_after_create owner v id now s :
  map_get id (rows s) = None -> rentals_ok s -> rentals_ok (create owner v id now s).2.
Proof.
  intros Hfresh [H1 H2 H3 H4 H5]. destruct (create owner v id now s) as [[rental|e] s'] eqn:E; apply create_cases in E; cbn [snd];
    [|by subst s'].
  destruct E as (user & target & Hu & _ & Hq & Hname & Hnew & Hid & Hown & _ & Hrows).
  constructor; rewrite ?Hrows.
  - by apply map_wf_set.
  - intros k row. rewrite map_get_set. case_decide; [intros [= <-]; congruence|apply H2].
  - intros k row. rewrite map_get_set. case_decide; [by intros [= <-]|apply H3].
  - intros k1 k2 r1 r2. rewrite !map_get_set. repeat case_decide; intros; simplify_eq; try done.
    + exfalso. eapply Hnew; [done|congruence].
    + exfalso. eapply Hnew; [done|congruence].
    + by eapply H4.
  - intros owner'. rewrite list_rows_count, Hrows, count_rows_fresh by done. rewrite <- list_rows_count.
    specialize (H5 owner'). pose proof (limit_largest user). case_decide as Ho; [|lia]. assert (owner' = owner) as -> by congruence. lia.
Qed.

Lemma within_after_create owner v id now s : map_get id (rows s) = None -> within_allowance s (create owner v id now s).2.
Proof.
  intros Hfresh owner'. destruct (create owner v id now s) as [[rental|e] s'] eqn:E; apply create_cases in E; cbn [snd]; [|subst s'; lia].
  destruct E as (user & target & Hu & _ & Hq & _ & _ & _ & Hown & _ & Hrows). rewrite (list_rows_count owner' s'), Hrows, count_rows_fresh by done.
  rewrite <- list_rows_count. case_decide as Ho; [|lia]. assert (owner' = owner) as -> by congruence. unfold allowance. rewrite Hu. lia.
Qed.

Lemma ok_after_update owner id v now s : rentals_ok s -> rentals_ok (update owner id v now s).2.
Proof.
  intros [H1 H2 H3 H4 H5]. destruct (update owner id v now s) as [[rental|e] s'] eqn:E;
    (apply update_cases in E; [|intros row; apply H2]); cbn [snd]; [|by subst s'].
  destruct E as (current & Hcur & Hco & Hown & Hid & _ & Hname & _ & Hrows).
  constructor; rewrite ?Hrows.
  - by apply map_wf_set.
  - intros k row. rewrite map_get_set. case_decide; [intros [= <-]; congruence|apply H2].
  - intros k row. rewrite map_get_set. case_decide; [|apply H3]. intros [= <-].
    destruct Hname as [-> |[? _]]; [by eapply H3|done].
  - intros k1 k2 r1 r2. rewrite !map_get_set. destruct Hname as [Hsame|[_ Hnew]];
      repeat case_decide; intros; simplify_eq; try done.
    + eapply H4; [done|done|congruence].
    + eapply H4; [done|done|congruence].
    + by eapply H4.
    + exfalso. eapply Hnew; [done|congruence].
    + exfalso. eapply Hnew; [done|congruence].
    + by eapply H4.
  - intros owner'. rewrite list_rows_count, Hrows.
    rewrite (count_rows_set _ _ current) by (done || (rewrite Hown, Hco; done)). by apply H5.
Qed.

Lemma within_after_update owner id v now s : rentals_ok s -> within_allowance s (update owner id v now s).2.
Proof.
  intros Hok owner'. destruct (update owner id v now s) as [[rental|e] s'] eqn:E;
    (apply update_cases in E; [|intros row; apply (rk_ids _ Hok)]); cbn [snd]; [|subst s'; lia].
  destruct E as (current & Hcur & Hco & Hown & _ & _ & _ & _ & Hrows). rewrite (list_rows_count owner' s'), Hrows.
  rewrite (count_rows_set _ _ current) by (done || (rewrite Hown, Hco; done)). rewrite <- list_rows_count. lia.
Qed.

Lemma ok_after_remove owner id v now s : rentals_ok s -> rentals_ok (remove owner id v now s).2.
Proof.
  intros [H1 H2 H3 H4 H5]. destruct (remove owner id v now s) as [[u|e] s'] eqn:E; apply remove_cases in E; cbn [snd];
    [|by subst s'].
  destruct E as (current & Hcur & _ & Hrows).
  assert (Hsub : forall k row, map_get k (rows s') = Some row -> map_get k (rows s) = Some row).
  { intros k row. rewrite Hrows. destruct (decide (k = id)) as [-> |]; [by rewrite map_get_delete_eq|].
    by rewrite map_get_delete_ne. }
  constructor.
  - rewrite Hrows. by apply map_wf_delete.
  - intros k row Hk. by apply H2, Hsub.
  - intros k row Hk. eapply H3, Hsub, Hk.
  - intros k1 k2 r1 r2 Ha Hb. eapply H4; by apply Hsub.
  - intros owner'. rewrite list_rows_count, Hrows.
    pose proof (count_rows_delete (fun row => dr_ownerUserId row = owner') id (rows s)).
    specialize (H5 owner'). rewrite list_rows_count in H5. lia.
Qed.

Lemma within_after_remove owner id v now s : within_allowance s (remove owner id v now s).2.
Proof.
  intros owner'. destruct (remove owner id v now s) as [[u|e] s'] eqn:E; apply remove_cases in E; cbn [snd]; [|subst s'; lia].
  destruct E as (current & _ & _ & Hrows). rewrite !list_rows_count, Hrows.
  pose proof (count_rows_delete (fun row => dr_ownerUserId row = owner') id (rows s)). lia.
Qed.

Lemma rental_step_ok s s' : rental_step s s' -> rentals_ok s -> rentals_ok s' /\ within_allowance s s'.
Proof.
  intros [] Hok; split; first [by apply ok_after_create|by apply ok_after_update|by apply ok_after_remove
    |by apply within_after_create|by apply within_after_update|by apply within_after_remove].
Qed.

(** ** Resolving *)

(** A target that may be redirected to. *)
Definition safe_target (target : string) : Prop :=
  exists u, t_href u = target /\ t_protocol u ∈ ["http:"; "https:"] /\ t_username u = "" /\ t_password u = ""
    /\ localDestination isIP (t_hostname u) = false /\ domainRentalHostname (JStr (t_hostname u)) config = None
    /\ str_length target <= DOMAIN_RENTAL_TARGET_MAX_LENGTH.

Lemma target_Ok v t : target_of v config = Ok t -> safe_target t.
Proof.
  unfold normalizeDomainRentalTarget. destruct v as [| | | |s| |]; try done. cbv zeta.
  rewrite bind_Ok. intros (? & _ & H). destruct (parseUrl (trim s)) as [u|]; [|done].
  apply bind_Ok in H as (? & H1%throw_if_Ok & H). apply bind_Ok in H as (? & H2%throw_if_Ok & H).
  apply bind_Ok in H as (? & H3%throw_if_Ok & [= <-]).
  apply orb_false_iff in H1 as [H1 Hl]. apply orb_false_iff in H1 as [H1 _]. apply orb_false_iff in H1 as [H1 Hpw%negb_false_iff].
  apply orb_false_iff in H1 as [Hp%negb_false_iff Hu%negb_false_iff]. rewrite str_empty_eq in Hu, Hpw.
  apply bool_decide_eq_true in Hp. apply bool_decide_eq_true in Hu. apply bool_decide_eq_true in Hpw.
  exists u. split_and!; try done; [|by apply Z.ltb_ge in H3]. by destruct (domainRentalHostname _ config).
Qed.

Lemma resolve_cases host now s t :
  resolve host now s = Ok (Some t) ->
  exists hostname rental user,
    domainRentalHostname host config = Some hostname /\ rental ∈ map_values (rows s) /\ dr_hostname rental = hostname
    /\ dr_enabled rental = true /\ lookupUser (dr_ownerUserId rental) = Some user
    /\ domainRentalUserAllowed (Some user) now = true
    /\ dr_id rental ∈ dr_id <$> take (Z.to_nat (domainRentalLimit user)) (sorted id_le (list_rows (ru_id user) s))
    /\ target_of (JStr (dr_targetUrl rental)) config = Ok t.
Proof.
  unfold DomainRentals.resolve. destruct (domainRentalHostname host config) as [h|]; [|done].
  destruct (findHostname h s) as [rental|] eqn:Ef; [|done]. destruct (dr_enabled rental) eqn:Ee; [|done]. cbn [negb].
  destruct (lookupUser (dr_ownerUserId rental)) as [user|] eqn:Eu; [|done].
  destruct (domainRentalUserAllowed (Some user) now) eqn:Ea; [|done]. cbn [negb]. cbv zeta.
  destruct (existsb _ _) eqn:Ex; [|done]. cbn [negb]. rewrite bind_Ok. intros (t' & Ht & [= <-]).
  apply js_find_elem in Ef as [Hin Hh]. exists h, rental, user. split_and!; try done.
  apply existsb_exists in Ex as (c & Hc & Hid%bool_decide_eq_true). apply list_elem_of_In in Hc.
  rewrite <- Hid. by apply list_elem_of_fmap_2.
Qed.

(** A host resolves only to a safe target, through an enabled rental of
    exactly that name whose owner is approved and not banned, and only while
    the rental is among the owner's oldest ones within the quota. *)
Theorem resolve_sound host now s t :
  resolve host now s = Ok (Some t) ->
  safe_target t
  /\ exists rental user, rental ∈ map_values (rows s) /\ domainRentalHostname host config = Some (dr_hostname rental)
     /\ dr_enabled rental = true /\ lookupUser (dr_ownerUserId rental) = Some user
     /\ domainRentalUserAllowed (Some user) now = true
     /\ dr_id rental ∈ dr_id <$> take (Z.to_nat (domainRentalLimit user)) (sorted id_le (list_rows (ru_id user) s)).
Proof.
  intros (h & rental & user & Hh & Hin & Hr & ? & ? & ? & ? & Ht)%resolve_cases.
  split; [by eapply target_Ok|]. exists rental, user. split_and!; try done. congruence.
Qed.

(** ** The number of names in use *)

Definition resolves (now : Z) (s : RentalStore) (rental : DomainRental) : Prop :=
  exists t, resolve (JStr (dr_hostname rental)) now s = Ok (Some t).

#[export] Instance resolves_dec now s rental : Decision (resolves now s rental).
Proof.
  destruct (resolve (JStr (dr_hostname rental)) now s) as [[t|]|e] eqn:E; [left; by exists t|right; intros [t Ht]; congruence..].
Defined.

Lemma nodup_incl_length {A} `{EqDecision A} (l k : list A) : NoDup l -> (forall x, x ∈ l -> x ∈ k) -> (length l <= length k)%nat.
Proof.
  intros Hl Hin. apply submseteq_length, NoDup_submseteq; done.
Qed.

(** ** A rented name resolves *)

Lemma label_chars_facts s :
  LABEL s = true -> chars s <> [] /\ Forall (fun c => is_lower_alnum c || is_hyphen c = true) (chars s).
Proof.
  unfold LABEL, label_pattern, label_chars. intros [H _]%andb_true_iff. destruct (chars s) as [|x l]; [done|].
  split; [done|]. apply andb_true_iff in H as [[_ H]%andb_true_iff _]. rewrite forallb_forall in H.
  apply Forall_forall. intros c Hc. by apply H, list_elem_of_In.
Qed.

(** The characters of a name below the base domain. *)
Definition name_char (c : ascii) : bool := is_lower_alnum c || is_hyphen c || (code c =? 46)%N.

Definition base_ok : Prop :=
  Forall (fun c => name_char c = true) (chars (baseDomain config)) /\ chars (baseDomain config) <> []
  /\ last (chars (baseDomain config)) <> Some "."%char.

Lemma config_base_ok env : domainRentalConfig isIP parseUrl env = Ok config -> base_ok.
Proof.
  unfold domainRentalConfig. cbv zeta. set (base := drop_final_dot _). rewrite bind_Ok.
  intros (? & H%throw_if_Ok & Hconfig).
  apply (f_equal (fun r => match r with Ok c => baseDomain c | Throw _ => baseDomain config end)) in Hconfig.
  cbn [baseDomain mret result_ret] in Hconfig. unfold base_ok. rewrite <- Hconfig. clear Hconfig.
  apply orb_false_iff in H as [H _]. apply orb_false_iff in H as [_ Hl%negb_false_iff].
  rewrite forallb_forall in Hl.
  assert (Hp : forall p, p ∈ split_chars "."%char (chars base) -> p <> [] /\ Forall (fun c => is_lower_alnum c || is_hyphen c = true) p).
  { intros p Hp. destruct (label_chars_facts (unchars p)) as [Hne Hf].
    - apply Hl, list_elem_of_In. unfold split_on. by apply list_elem_of_fmap_2.
    - by rewrite chars_unchars in Hne, Hf. }
  split_and!.
  - apply Forall_forall. intros c Hc. unfold name_char. destruct (split_chars_cover "."%char _ c Hc) as [-> |(p & Hin & Hcp)]; [done|].
    destruct (Hp p Hin) as [_ Hf]. rewrite Forall_forall in Hf. by rewrite (Hf c Hcp).
  - intros Hnil. rewrite Hnil in Hp. destruct (Hp []) as [? _]; [by left|done].
  - intros (p & ps & Hs & Hlast)%split_chars_last. destruct (Hp []) as [? _]; [|done].
    rewrite Hs. apply elem_of_cons. right. by apply last_Some_elem_of in Hlast.
Qed.

Lemma name_char_facts c : name_char c = true -> is_host_char c = true /\ lower_char c = c.
Proof. char_cases c; vm_compute; intros; split; congruence. Qed.

Lemma span_all {A} (p : A -> bool) l : Forall (fun x => p x = true) l -> span p l = (l, []).
Proof. induction 1 as [|x l Hx _ IH]; cbn; [done|]. by rewrite Hx, IH. Qed.

Lemma rentable_hostname hostname : base_ok -> rentable hostname -> domainRentalHostname (JStr hostname) config = Some hostname.
Proof.
  intros (Hb & Hnil & Hlast) (name & -> & Hlabel & Hres). destruct (label_chars_facts _ Hlabel) as [Hne Hf].
  set (h := name +:+ "." +:+ baseDomain config). set (base := chars (baseDomain config)) in *.
  assert (Hh : chars h = chars name ++ "."%char :: base).
  { unfold h. rewrite !chars_app. done. }
  assert (Hall : Forall (fun c => name_char c = true) (chars h)).
  { rewrite Hh. apply Forall_app. split; [|by constructor].
    eapply Forall_impl; [exact Hf|]. intros c Hc. unfold name_char. by rewrite Hc. }
  unfold domainRentalHostname, host_without_port.
  rewrite (span_all is_host_char) by (eapply Forall_impl; [exact Hall|]; intros c Hc; by apply name_char_facts in Hc as [? _]).
  rewrite bool_decide_eq_false_2 by (rewrite Hh; destruct (chars name); done).
  assert (Hlow : toLowerCase (unchars (chars h)) = h).
  { rewrite unchars_chars. unfold toLowerCase. rewrite <- (unchars_chars h) at 2. f_equal.
    rewrite <- (list_fmap_id (chars h)) at 2. apply list_fmap_ext. intros i c Hi.
    eapply Forall_lookup_1 in Hall; [|exact Hi]. by apply name_char_facts in Hall as [_ ?]. }
  assert (Hdot : drop_final_dot h = h).
  { unfold drop_final_dot. rewrite Hh, rev_app_distr. cbn [rev]. destruct (rev base) as [|x r] eqn:Er.
    - apply (f_equal (@rev ascii)) in Er. rewrite rev_involutive in Er. done.
    - assert (Hx : x <> "."%char).
      { intros ->. apply Hlast. apply (f_equal (@rev ascii)) in Er. rewrite rev_involutive in Er. cbn in Er. rewrite Er. apply last_snoc. }
      cbn. destruct x as [[] [] [] [] [] [] [] []]; try reflexivity. by destruct Hx. }
  rewrite Hlow, Hdot.
  assert (Hend : endsWith h ("." +:+ baseDomain config) = true).
  { unfold endsWith. rewrite Hh. change (chars ("." +:+ baseDomain config)) with ("."%char :: base).
    rewrite rev_app_distr. apply prefixb_spec. by exists (rev (chars name)). }
  rewrite Hend. cbn [negb].
  assert (Hlab : unchars (take (length (chars h) - length (chars ("." +:+ baseDomain config))) (chars h)) = name).
  { change (chars ("." +:+ baseDomain config)) with ("."%char :: base).
    rewrite Hh, length_app, take_app_length'; [apply unchars_chars|lia]. }
  rewrite Hlab, Hlabel, Hres. done.
Qed.
(** However many names an owner keeps after a downgrade, no more of them
    resolve than the quota of the account allows. *)
Theorem names_in_use_bounded owner user now s :
  base_ok -> rentals_ok s -> lookupUser owner = Some user -> ru_id user = owner ->
  Z.of_nat (length (filter (resolves now s) (list_rows owner s))) <= domainRentalLimit user.
Proof.
  intros Hbase Hok Hu Hid. assert (Hlim : 0 <= domainRentalLimit user) by (unfold domainRentalLimit; case_bool_decide; lia).
  set (first := take (Z.to_nat (domainRentalLimit user)) (sorted id_le (list_rows owner s))).
  assert (Hids : forall r, r ∈ map_values (rows s) -> map_get (dr_id r) (rows s) = Some r).
  { intros r Hr. apply map_values_elem in Hr as [k Hk]; [|apply Hok]. by rewrite (rk_ids _ Hok _ _ Hk). }
  assert (Hself : forall r, r ∈ list_rows owner s -> domainRentalHostname (JStr (dr_hostname r)) config = Some (dr_hostname r)).
  { intros r [_ Hr]%list_elem_of_filter. apply rentable_hostname; [done|]. eapply (rk_names _ Hok), Hids, Hr. }
  assert (Hin : forall r, r ∈ filter (resolves now s) (list_rows owner s) -> dr_id r ∈ dr_id <$> first).
  { intros r [[t Ht] Hr]%list_elem_of_filter. apply resolve_cases in Ht as (h & rental & user' & Hh & Hrv & Hname & _ & Hu' & _ & Htake & _).
    rewrite (Hself _ Hr) in Hh. injection Hh as <-. apply list_elem_of_filter in Hr as [Hown Hr].
    assert (Heq : dr_id rental = dr_id r) by (eapply (rk_distinct _ Hok); [by apply Hids|by apply Hids|done]).
    assert (rental = r) as -> by (apply Hids in Hrv, Hr; rewrite Heq in Hrv; congruence). rewrite Hown in Hu'. simplify_eq. exact Htake. }
  assert (Hnd : NoDup (dr_id <$> filter (resolves now s) (list_rows owner s))).
  { apply NoDup_fmap_2_strong.
    - intros x y [_ Hx]%list_elem_of_filter [_ Hy]%list_elem_of_filter Heq.
      apply list_elem_of_filter in Hx as [_ Hx]. apply list_elem_of_filter in Hy as [_ Hy].
      apply Hids in Hx, Hy. rewrite Heq in Hx. congruence.
    - do 2 apply NoDup_filter. unfold map_values. apply (NoDup_fmap_1 dr_id).
      replace (dr_id <$> (rows s).*2) with (map_keys (rows s)); [apply Hok|].
      unfold map_keys. rewrite <- list_fmap_compose. apply list_fmap_ext. intros i [k r] Hi. cbn.
      symmetry. apply (rk_ids _ Hok). apply map_get_elem; [apply Hok|]. by eapply list_elem_of_lookup_2. }
  pose proof (nodup_incl_length (dr_id <$> filter (resolves now s) (list_rows owner s)) (dr_id <$> first) Hnd) as Hle.
  rewrite !length_fmap in Hle. specialize (Hle ltac:(intros x (r & -> & Hr)%list_elem_of_fmap; by apply Hin)).
  unfold first in Hle. rewrite length_take in Hle. lia.
Qed.


Lemma find_stored_hostname s row :
  rentals_ok s -> row ∈ map_values (rows s) -> findHostname (dr_hostname row) s = Some row.
Proof.
  intros Hok Hrow. apply map_values_elem in Hrow as [k Hk]; [|apply Hok]. unfold findHostname.
  destruct (js_find _ (map_values (rows s))) as [row'|] eqn:Ef.
  - apply js_find_elem in Ef as [Hin Hh]. apply map_values_elem in Hin as [k' Hk']; [|apply Hok].
    assert (k' = k) as -> by (by eapply (rk_distinct _ Hok)). congruence.
  - exfalso. rewrite js_find_None, Forall_forall in Ef. eapply (Ef row); [|done]. apply map_values_elem; [apply Hok|by exists k].
Qed.

(** A name that was just rented and enabled resolves to its target as
    long as its owner stays approved, given that serializing a URL twice
    gives the same text. *)
Theorem rented_name_resolves owner v id now later s s' rental user :
  base_ok -> rentals_ok s -> map_get id (rows s) = None ->
  create owner v id now s = (Ok rental, s') -> dr_enabled rental = true ->
  lookupUser owner = Some user -> ru_id user = owner -> domainRentalUserAllowed (Some user) later = true ->
  target_of (JStr (dr_targetUrl rental)) config = Ok (dr_targetUrl rental) ->
  resolve (JStr (dr_hostname rental)) later s' = Ok (Some (dr_targetUrl rental)).
Proof.
  intros Hbase Hok Hfresh Hc Hen Hu Hid Hallowed Htarget.
  assert (Hok' : rentals_ok s') by (pose proof (ok_after_create owner v id now s Hfresh Hok) as H; by rewrite Hc in H).
  apply create_cases in Hc as (user0 & target & Hu0 & _ & Hq & Hname & _ & Hrid & Hown & _ & Hrows).
  rewrite Hu in Hu0. injection Hu0 as <-.
  assert (Hin : rental ∈ map_values (rows s')).
  { apply map_values_elem; [apply Hok'|]. exists id. by rewrite Hrows, map_get_set_eq. }
  unfold DomainRentals.resolve. rewrite (rentable_hostname _ Hbase Hname), (find_stored_hostname _ _ Hok' Hin), Hen.
  rewrite Hown, Hu. cbn [negb]. rewrite Hallowed. cbn [negb]. cbv zeta.
  assert (He : existsb (fun candidate => bool_decide (dr_id candidate = dr_id rental))
                 (take (Z.to_nat (domainRentalLimit user)) (sorted id_le (list_rows (ru_id user) s'))) = true).
  { assert (Z.of_nat (length (list_rows owner s')) <= domainRentalLimit user) as Hquota.
    { rewrite list_rows_count, Hrows, count_rows_fresh by done. rewrite <- list_rows_count. case_decide; lia. }
    rewrite take_ge by (unfold sorted; rewrite js_sort_perm, Hid; lia).
    apply existsb_exists. exists rental. split; [|by apply bool_decide_eq_true].
    apply list_elem_of_In. unfold sorted. rewrite js_sort_perm. apply list_elem_of_filter. by rewrite Hid. }
  rewrite He. cbn [negb]. rewrite Htarget. done.
Qed.

(** An operation that is refused changes nothing, neither a row nor the
    log; one that succeeds on an existing rental was made by its owner, who
    named the current version. *)
Theorem refused_changes_nothing owner id v now s :
  (forall row, map_get id (rows s) = Some row -> dr_id row = id) ->
  (forall e, (create owner v id now s).1 = Throw e -> (create owner v id now s).2 = s)
  /\ (forall e, (update owner id v now s).1 = Throw e -> (update owner id v now s).2 = s)
  /\ (forall e, (remove owner id v now s).1 = Throw e -> (remove owner id v now s).2 = s)
  /\ (forall r, (update owner id v now s).1 = Ok r ->
        exists row, map_get id (rows s) = Some row /\ dr_ownerUserId row = owner /\ dr_version r = dr_version row + 1)
  /\ (forall u, (remove owner id v now s).1 = Ok u ->
        exists row, map_get id (rows s) = Some row /\ dr_ownerUserId row = owner).
Proof.
  intros Hids. destruct (create owner v id now s) as [rc sc] eqn:Ec. apply create_cases in Ec.
  destruct (update owner id v now s) as [ru su] eqn:Eu. apply update_cases in Eu; [|done].
  destruct (remove owner id v now s) as [rr sr] eqn:Er. apply remove_cases in Er. cbn [fst snd].
  split_and!; intros x ->; try done.
  - destruct Eu as (row & ? & ? & _ & _ & ? & _). by exists row.
  - destruct Er as (row & ? & ? & _). by exists row.
Qed.
End rental_properties.

(** ** Every run *)

Section rental_runs.
Context (isIP : string -> Z) (parseUrl : string -> option TargetUrl) (config : DomainRentalConfig).

(** Between two requests accounts change their type, approval and bans, and
    names become taken or free elsewhere. *)
Definition rental_request (s s' : RentalStore) : Prop :=
  exists lookupUser lookupOccupied, rental_step isIP parseUrl lookupUser lookupOccupied config s s'.

(** C11. Whatever accounts create, change and remove, and however the accounts
    themselves change in between, rented names stay unique, well-formed and
    unreserved and no account ever holds more than five; and no request leaves
    an account with more names than both it had before and its type allows at
    that time (names kept after a downgrade stay). *)
Theorem rentals_invariant s :
  rtc rental_request (mkRentals [] []) s ->
  rentals_ok config s
  /\ forall lookupUser lookupOccupied s', rental_step isIP parseUrl lookupUser lookupOccupied config s s' -> within_allowance lookupUser s s'.
Proof.
  intros Hr. enough (rentals_ok config s) as Hok by (split; [done|]; intros l o s' Hs; by eapply rental_step_ok).
  assert (rentals_ok config (mkRentals [] [])) as H0 by (constructor; cbn; try done; constructor).
  revert H0. induction Hr as [|s s1 s' (l & o & Hstep) _ IH]; [done|]. intros H0. apply IH. by eapply rental_step_ok.
Qed.
End rental_runs.

(** ** A small deployment *)

Definition demo_config : DomainRentalConfig := mkRentalConfig "raibit.kr" [].
Definition demo_isIP : string -> Z := fun _ => 0.
Definition demo_url : string -> option TargetUrl := fun s => Some (mkTarget "https:" "" "" "example.org" s).
Definition demo_user (id : string) : option DomainRentalUser := Some (mkRentalUser id "NON_CLUB" "APPROVED" None None).
Definition demo_le : string -> string -> bool := fun _ _ => true.
Definition demo_input : jsval := JObj [("name", JStr " Shop "); ("targetUrl", JStr "https://example.org/")].

Definition demo_create := create demo_isIP demo_url demo_user (fun _ => false) demo_config.
Definition demo_rental : DomainRental := mkRental "r-1" "u-1" "shop.raibit.kr" "https://example.org/" true 1 7 7.
Definition demo_store : RentalStore := (demo_create "u-1" demo_input "r-1" 7 (mkRentals [] [])).2.

Lemma demo_base_ok : base_ok demo_config.
Proof. apply (config_base_ok demo_isIP demo_url demo_config (JObj [])). vm_compute. reflexivity. Qed.

Lemma demo_empty_ok : rentals_ok demo_config (mkRentals [] []).
Proof. constructor; cbn; try done; constructor. Qed.

Lemma rentals_invariant_witness : rentals_ok demo_config demo_store
  /\ within_allowance demo_user demo_store (demo_create "u-1" demo_input "r-2" 8 demo_store).2.
Proof.
  destruct (rentals_invariant demo_isIP demo_url demo_config demo_store) as [Hok Hnext].
  - eapply rtc_l; [|apply rtc_refl]. exists demo_user, (fun _ => false). apply (rs_create demo_isIP demo_url demo_user (fun _ => false) demo_config). reflexivity.
  - split; [exact Hok|]. apply (Hnext demo_user (fun _ => false)). apply (rs_create demo_isIP demo_url demo_user (fun _ => false) demo_config). reflexivity.
Defined.

Lemma rented_name_resolves_witness :
  resolve demo_isIP demo_url demo_user demo_le demo_config (JStr "shop.raibit.kr") 9 demo_store = Ok (Some "https://example.org/").
Proof.
  apply (rented_name_resolves demo_isIP demo_url demo_user (fun _ => false) demo_le demo_config "u-1" demo_input "r-1" 7 9
           (mkRentals [] []) demo_store demo_rental (mkRentalUser "u-1" "NON_CLUB" "APPROVED" None None)).
  - apply demo_base_ok.
  - apply demo_empty_ok.
  - reflexivity.
  - vm_compute. reflexivity.
  - reflexivity.
  - reflexivity.
  - reflexivity.
  - reflexivity.
  - vm_compute. reflexivity.
Defined.

Lemma resolve_sound_witness : safe_target demo_isIP demo_config "https://example.org/".
Proof.
  apply (resolve_sound demo_isIP demo_url demo_user demo_le demo_config (JStr "SHOP.raibit.kr:443") 9 demo_store).
  vm_compute. reflexivity.
Defined.

Lemma names_in_use_bounded_witness :
  Z.of_nat (length (filter (resolves demo_isIP demo_url demo_user demo_le demo_config 9 (mkRentals [] []))
                      (list_rows "u-1" (mkRentals [] [])))) <= 2.
Proof.
  apply (names_in_use_bounded demo_isIP demo_url demo_user demo_le demo_config "u-1"
           (mkRentalUser "u-1" "NON_CLUB" "APPROVED" None None) 9 (mkRentals [] [])).
  - apply demo_base_ok.
  - apply demo_empty_ok.
  - reflexivity.
  - reflexivity.
Defined.

Lemma refused_changes_nothing_witness :
  (demo_create "u-1" (JObj [("name", JStr "www"); ("targetUrl", JStr "x")]) "r-1" 7 (mkRentals [] [])).2 = mkRentals [] [].
Proof.
  destruct (refused_changes_nothing demo_isIP demo_url demo_user (fun _ => false) demo_config "u-1" "r-1"
              (JObj [("name", JStr "www"); ("targetUrl", JStr "x")]) 7 (mkRentals [] [])) as (H & _).
  - intros row Hrow. discriminate Hrow.
  - apply (H (DomainRentalError "DOMAIN_RENTAL_NAME_RESERVED" 409)). vm_compute. reflexivity.
Defined.

Close Scope Z_scope.
