(* ===== verification/Quotas.v ===== *)
(** * Quotas ([packages/core/src/quota.ts], the quota part of [store.ts] and
    the usage helpers of [store-helpers.ts])

    Plans and their limits, the usage of an account over its organizations,
    and the check that precedes every operation that consumes a quota.
    Numbers are exact rationals with the non-finite values of JavaScript;
    the text of a non-integral number and [Date.parse] are parameters. *)

From Stdlib Require Import QArith Qround.
From S2P Require Import Prelude JsString JsMap JsVal Ids Identity Accounts Workflows ControlPlane Deployments.
From stdpp Require Import pretty.

Open Scope Z_scope.

(** ** Numbers *)

Inductive amount := Fin (q : Q) | Infinite (negative : bool) | NotANumber.

Definition amount_of (n : jsnum) : amount :=
  match n with NInt z => Fin (inject_Z z) | NFrac _ q => Fin q | NNaN => NotANumber | NInf neg => Infinite neg end.

(** [Number(value || 0)] *)
Definition number_or_zero (v : jsval) : amount := if truthy v then amount_of (to_number v) else Fin 0.

Definition add_amount (a b : amount) : amount :=
  match a, b with
  | Fin p, Fin q => Fin (p + q)
  | NotANumber, _ | _, NotANumber => NotANumber
  | Infinite x, Infinite y => if Bool.eqb x y then Infinite x else NotANumber
  | Infinite x, _ | _, Infinite x => Infinite x
  end.

(** A product with a positive constant. *)
Definition scale (k : Q) (a : amount) : amount :=
  match a with Fin q => Fin (k * q) | _ => a end.

(** [a > b] *)
Definition exceeds (a b : amount) : bool :=
  match a, b with
  | Fin p, Fin q => negb (Qle_bool p q)
  | NotANumber, _ | _, NotANumber => false
  | Infinite false, Infinite false => false
  | Infinite false, _ => true
  | Infinite true, _ => false
  | Fin _, Infinite neg => neg
  end.

Definition total (l : list amount) : amount := foldl add_amount (Fin 0) l.
Definition count {A} (l : list A) : amount := Fin (inject_Z (Z.of_nat (length l))).

(** ** Plans ([quota.ts]) *)

Inductive PlanValue := Limit (n : Z) | Unlimited | Flag (b : bool).

Definition plan_row (apps projects teamMembers replicas storage minutes domains : PlanValue) (autoSleep : bool) : jsmap PlanValue :=
  [("apps", apps); ("projects", projects); ("teamMembers", teamMembers); ("alwaysOnReplicas", replicas); ("dbStorageGb", storage);
   ("buildMinutesMonthly", minutes); ("customDomains", domains); ("autoSleep", Flag autoSleep)].

Definition PLANS : jsmap (jsmap PlanValue) :=
  [("free", plan_row (Limit 3) (Limit 3) (Limit 5) (Limit 0) (Limit 1) (Limit 200) (Limit 0) true);
   ("club", plan_row (Limit 50) (Limit 20) (Limit 30) (Limit 3) (Limit 50) (Limit 2000) (Limit 5) true);
   ("pro", plan_row (Limit 100) (Limit 50) (Limit 50) (Limit 20) (Limit 200) (Limit 10000) (Limit 50) false);
   ("school", plan_row Unlimited Unlimited Unlimited Unlimited Unlimited Unlimited Unlimited false)].

Definition quotaForPlan (plan : string) : jsmap PlanValue :=
  match map_get plan PLANS with Some row => row | None => plan_row (Limit 3) (Limit 3) (Limit 5) (Limit 0) (Limit 1) (Limit 200) (Limit 0) true end.

Record Violation := mkViolation { vi_metric : string; vi_limit : Z; vi_requested : amount }.

Definition violation_of (current requested : jsobj) (entry : string * PlanValue) : list Violation :=
  match entry.2 with
  | Limit limit =>
      let used := add_amount (number_or_zero (obj_get entry.1 current)) (number_or_zero (obj_get entry.1 requested)) in
      if exceeds used (Fin (inject_Z limit)) then [mkViolation entry.1 limit used] else []
  | _ => []
  end.

Record QuotaCheck := mkCheck { ck_ok : bool; ck_quota : jsmap PlanValue; ck_violations : list Violation }.

Definition checkQuota (plan : string) (current requested : jsobj) : QuotaCheck :=
  let quota := quotaForPlan plan in
  let violations := concat (map (violation_of current requested) quota) in
  mkCheck (bool_decide (length violations = 0%nat)) quota violations.

Inductive GaugeLevel := ok_level | warning | blocked.

#[export] Instance GaugeLevel_eq_dec : EqDecision GaugeLevel.
Proof. solve_decision. Defined.

Record Gauge := mkGauge { ga_metric : string; ga_used : amount; ga_limit : Z; ga_remaining : amount; ga_percent : amount; ga_level : GaugeLevel }.

(** [Math.max(0, a)] *)
Definition at_least_zero (a : amount) : amount :=
  match a with Fin q => if Qle_bool 0 q then a else Fin 0 | Infinite true => Fin 0 | _ => a end.

Definition sub_amount (limit : Z) (a : amount) : amount :=
  match a with Fin q => Fin (inject_Z limit - q) | Infinite neg => Infinite (negb neg) | NotANumber => NotANumber end.

(** [a >= b] *)
Definition reaches (a b : amount) : bool :=
  match a, b with NotANumber, _ | _, NotANumber => false | _, _ => negb (exceeds b a) end.

Definition gauge (usage : jsobj) (threshold : Q) (metric : string) (limit : Z) : Gauge :=
  let used := at_least_zero (number_or_zero (obj_get metric usage)) in
  let ratio := scale (/ inject_Z limit) used in
  mkGauge metric used limit (at_least_zero (sub_amount limit used))
    (match ratio with Fin r => Fin (inject_Z (Qfloor (r * 100 + (1 # 2)))) | a => a end)
    (if reaches ratio (Fin 1) then blocked else if reaches ratio (Fin threshold) then warning else ok_level).

(** Of a stored quota the numeric limits whose names start with [max]. *)
Definition quotaUsageGauges (usage : jsobj) (quota : option (jsmap Z)) (threshold : Q) : list Gauge :=
  match quota with
  | None => []
  | Some limits =>
      map (fun entry => gauge usage threshold entry.1 entry.2)
        (filter (fun entry => startsWith entry.1 "max" = true /\ (0 < entry.2)) limits)
  end.

(** The number a quantity is, with the text a non-integral one prints as. *)
Definition amount_num (fraction_text : Q -> string) (a : amount) : jsnum :=
  match a with
  | Fin q => let r := Qred q in if (QDen r =? 1) then NInt (Qnum r) else NFrac (fraction_text r) r
  | Infinite neg => NInf neg
  | NotANumber => NNaN
  end.

Record QuotaWarning := mkWarning { qw_code : string; qw_metric : string; qw_message : string; qw_level : GaugeLevel }.

Definition warning_of (fraction_text : Q -> string) (g : Gauge) : QuotaWarning :=
  let shown := fun a => num_text (amount_num fraction_text a) in
  mkWarning (match ga_level g with blocked => "QUOTA_EXHAUSTED" | _ => "QUOTA_NEAR_LIMIT" end) (ga_metric g)
    (ga_metric g +:+ " is " +:+ shown (ga_percent g) +:+ "% used (" +:+ shown (ga_used g) +:+ "/" +:+ pretty (ga_limit g) +:+ ")") (ga_level g).

Definition quotaWarnings (fraction_text : Q -> string) (usage : jsobj) (quota : option (jsmap Z)) (threshold : Q) : list QuotaWarning :=
  map (warning_of fraction_text) (filter (fun g => ga_level g <> ok_level) (quotaUsageGauges usage quota threshold)).

(** ** Usage of services and resources ([store-helpers.ts]) *)

Definition effectiveServiceSpec (service : jsobj) : jsobj :=
  spread (spread (entries (obj_get "desiredSpec" service)) (entries (obj_get "desiredState" service))) service.

Definition nullish_or_empty (v : jsval) : bool :=
  match v with JUndef | JNull => true | JStr s => str_empty s | _ => false end.

Definition drop_last (n : nat) (s : string) : string := let l := chars s in unchars (take (length l - n) l).

Definition parseCpuMillicores (value : jsval) : amount :=
  if nullish_or_empty value then Fin 0
  else
    let text := trim (js_String value) in
    if endsWith text "m" then match js_Number (drop_last 1 text) with NNaN => Fin 0 | n => amount_of n end
    else match amount_of (js_Number text) with Fin q => Fin (1000 * q) | _ => Fin 0 end.

Definition parseMemoryMb (value : jsval) : amount :=
  if nullish_or_empty value then Fin 0
  else
    let text := toLowerCase (trim (js_String value)) in
    match amount_of (js_Number (unchars (rev (drop_while is_lower (rev (chars text)))))) with
    | Fin number =>
        if endsWith text "gi" || endsWith text "gib" then Fin (1024 * number)
        else if endsWith text "gb" then Fin (1000 * number)
        else if endsWith text "ki" || endsWith text "kib" then Fin (number / 1024)
        else if endsWith text "kb" then Fin (number / 1000)
        else Fin number
    | _ => Fin 0
    end.

Definition resource_figure (group figure : string) (spec : jsobj) : jsval := field figure (field group (obj_get "resources" spec)).

Definition serviceCpuMillicores (service : jsobj) : amount :=
  let spec := effectiveServiceSpec service in
  parseCpuMillicores (js_or (obj_get "cpu" spec) (js_or (obj_get "cpuRequest" spec)
    (js_or (resource_figure "requests" "cpu" spec) (resource_figure "limits" "cpu" spec)))).

Definition serviceMemoryMb (service : jsobj) : amount :=
  let spec := effectiveServiceSpec service in
  parseMemoryMb (js_or (obj_get "memory" spec) (js_or (obj_get "memoryMb" spec) (js_or (obj_get "memoryRequest" spec)
    (js_or (resource_figure "requests" "memory" spec) (resource_figure "limits" "memory" spec))))).

Definition serviceStorageMb (service : jsobj) : amount :=
  match as_integer (field "sizeGi" (obj_get "persistence" (effectiveServiceSpec service))) with
  | Some z => Fin (inject_Z (z * 1024))
  | None => Fin 0
  end.

Definition resourceQuotaMetric (resource : jsobj) : string :=
  if bool_decide (toLowerCase (text_or_empty (obj_get "type" resource)) = "storage")
     || includes (toLowerCase (text_or_empty (obj_get "engine" resource))) "object"
  then "maxObjectStorageMb" else "maxDbStorageMb".

Definition resourceStorageMb (resource : jsobj) (includeDesiredState : bool) : amount :=
  let spec := if includeDesiredState
              then spread (spread (entries (obj_get "desiredSpec" resource)) (entries (obj_get "desiredState" resource))) resource
              else resource in
  match obj_get "storageMb" spec with
  | JUndef => match obj_get "storageGb" spec with
              | JUndef => Fin 1
              | v => scale 1024 (number_or_zero v)
              end
  | v => number_or_zero v
  end.

Definition usageMetricSum (records : list jsobj) (aliases : list string) : amount :=
  total (map (fun record => number_or_zero (obj_get "value" record))
         (filter (fun record => toLowerCase (text_or_empty (obj_get "metric" record)) ∈ map toLowerCase aliases) records)).

(** ** Time *)

(** [Date.UTC(year, month0)] of the first day of a month *)
Definition month_start (y month0 : Z) : Z := days_from_civil (y + month0 / 12) (month0 mod 12 + 1) 1 * ms_per_day.

Definition utcMonthBounds (now : Z) : Z * Z :=
  let '(y, m, _) := civil_from_days (now / ms_per_day) in (month_start y (m - 1), month_start y m).

Section Usage.
Context (dateParse : string -> option Z) (fraction_text : Q -> string).

(** [new Date(value).getTime()], [None] for an invalid date *)
Definition date_of (value : jsval) : option Z :=
  match value with
  | JUndef => None
  | JNull => Some 0
  | JBool b => Some (if b then 1 else 0)
  | JNum (NInt z) => if Z.abs z <=? 8640000000000000 then Some z else None
  | JNum (NFrac _ q) => Some (if Qle_bool 0 q then Qfloor q else Qceiling q)
  | JNum _ => None
  | _ => dateParse (js_String value)
  end.

Definition isSameUtcDay (left : jsval) (now : Z) : bool :=
  match date_of left with Some a => bool_decide (civil_from_days (a / ms_per_day) = civil_from_days (now / ms_per_day)) | None => false end.

Definition deploymentBuildMinutes (deployment : jsobj) : amount :=
  let start := dateMs dateParse (js_or (obj_get "buildStartedAt" deployment) (obj_get "startedAt" deployment)) in
  let finish := dateMs dateParse (js_or (obj_get "buildFinishedAt" deployment) (obj_get "finishedAt" deployment)) in
  if negb (start =? 0) && negb (finish =? 0) && (start <? finish) then Fin (inject_Z (finish - start) / 60000) else Fin 0.

Definition deploymentRuntimeHours (deployment : jsobj) (now : Z) : amount :=
  let start := dateMs dateParse (obj_get "deployedAt" deployment) in
  let finished := dateMs dateParse (obj_get "finishedAt" deployment) in
  let finish := if finished =? 0 then now else finished in
  if negb (start =? 0) && (start <? finish) then Fin (inject_Z (finish - start) / 3600000) else Fin 0.

Definition deploymentBuildMinutesWithin (deployment : jsobj) (start finish : Z) : amount :=
  let rawStart := dateMs dateParse (js_or (obj_get "buildStartedAt" deployment) (obj_get "startedAt" deployment)) in
  let rawEnd := dateMs dateParse (js_or (obj_get "buildFinishedAt" deployment) (obj_get "finishedAt" deployment)) in
  let clippedStart := Z.max rawStart start in
  let clippedEnd := Z.min rawEnd finish in
  if negb (rawStart =? 0) && negb (rawEnd =? 0) && (clippedStart <? clippedEnd) then Fin (inject_Z (clippedEnd - clippedStart) / 60000) else Fin 0.

Definition deploymentRuntimeHoursWithin (deployment : jsobj) (start finish now : Z) : amount :=
  let rawStart := dateMs dateParse (obj_get "deployedAt" deployment) in
  let finished := dateMs dateParse (obj_get "finishedAt" deployment) in
  let rawEnd := if finished =? 0 then Z.min now finish else finished in
  let clippedStart := Z.max rawStart start in
  let clippedEnd := Z.min rawEnd finish in
  if negb (rawStart =? 0) && (clippedStart <? clippedEnd) then Fin (inject_Z (clippedEnd - clippedStart) / 3600000) else Fin 0.

(** ** Usage of an account *)

Record Scope := mkScope {
  sc_organizationIds : list string; sc_projects : list jsobj; sc_services : list jsobj; sc_resources : list jsobj; sc_deployments : list jsobj
}.

Definition key_of (k : string) (row : jsobj) : string := js_String (obj_get k row).

(** The rows of the organizations the user is a member of. *)
Definition user_scope (userId : string) (s : ControlPlane) : Scope :=
  let organizationIds := map m_organizationId (filter (fun m => m_userId m = userId) (members (accounts (cp_workflow s)))) in
  let own_projects := filter (fun p => key_of "organizationId" p ∈ organizationIds) (map_values (projects s)) in
  let projectIds := map (key_of "id") own_projects in
  let own_services := filter (fun row => key_of "projectId" row ∈ projectIds) (map_values (services s)) in
  let serviceIds := map (key_of "id") own_services in
  mkScope organizationIds own_projects own_services
    (filter (fun row => key_of "projectId" row ∈ projectIds) (map_values (resources s)))
    (filter (fun row => key_of "serviceId" row ∈ serviceIds) (map_values (deployments s))).

Definition todays (scope : Scope) (now : Z) : list jsobj :=
  filter (fun row => isSameUtcDay (js_or (obj_get "createdAt" row) (obj_get "startedAt" row)) now = true) (sc_deployments scope).

Definition usage_in_scope (userId : string) (scope : Scope) (month : Z * Z) (record : jsobj) : Prop :=
  (month.1 <= dateMs dateParse (obj_get "recordedAt" record) < month.2)
  /\ (text_or_empty (obj_get "userId" record) = userId
      \/ key_of "organizationId" record ∈ sc_organizationIds scope
      \/ key_of "projectId" record ∈ map (key_of "id") (sc_projects scope)
      \/ key_of "serviceId" record ∈ map (key_of "id") (sc_services scope)
      \/ key_of "resourceId" record ∈ map (key_of "id") (sc_resources scope)).

#[export] Instance usage_in_scope_dec userId scope month record : Decision (usage_in_scope userId scope month record).
Proof. unfold usage_in_scope. apply _. Defined.

Definition quotaUsageForUser (userId : string) (usageRecords : list jsobj) (now : Z) (s : ControlPlane) : jsmap amount :=
  let month := utcMonthBounds now in
  let scope := user_scope userId s in
  let today := todays scope now in
  let scopedUsage := filter (usage_in_scope userId scope month) usageRecords in
  let stored := fun metric => total (map (fun r => resourceStorageMb r false) (filter (fun r => resourceQuotaMetric r = metric) (sc_resources scope))) in
  [("maxProjects", count (sc_projects scope));
   ("maxServices", count (sc_services scope));
   ("maxDeploymentsPerDay", count today);
   ("maxPreviewDeployments", count (filter (fun row => as_string (obj_get "deploymentType" row) = Some "preview") today));
   ("maxDbStorageMb", stored "maxDbStorageMb");
   ("maxObjectStorageMb", add_amount (stored "maxObjectStorageMb") (total (map serviceStorageMb (sc_services scope))));
   ("maxBuildMinutesPerMonth",
     add_amount (usageMetricSum scopedUsage ["build-minutes"; "build_minutes"; "buildMinutes"; "maxBuildMinutesPerMonth"])
          (total (map (fun row => deploymentBuildMinutesWithin row month.1 month.2) (sc_deployments scope))));
   ("maxRuntimeHoursPerMonth",
     add_amount (usageMetricSum scopedUsage ["runtime-hours"; "runtime_hours"; "runtimeHours"; "app-runtime-hours"; "maxRuntimeHoursPerMonth"])
          (total (map (fun row => deploymentRuntimeHoursWithin row month.1 month.2 now) (sc_deployments scope))));
   ("maxCpuMillicores", total (map serviceCpuMillicores (sc_services scope)));
   ("maxMemoryMb", total (map serviceMemoryMb (sc_services scope)))].

(** ** The check *)

Definition amount_json (a : amount) : jsval := JNum (amount_num fraction_text a).

(** [usage[metric] || 0] *)
Definition usage_of (metric : string) (usage : jsmap amount) : amount :=
  match map_get metric usage with Some NotANumber | None => Fin 0 | Some a => a end.

Definition audit_block (userId action metric : string) (metadata : jsval) (type_ : string) (now : Z) : M ControlPlane unit :=
  cp_audit userId type_ (str_or action "action") (str_or metric (str_or action "unknown")) metadata now.

Definition enforceUserCan (userId action metric : string) (increment : amount) (usageRecords : list jsobj) (now : Z) : M ControlPlane unit :=
  s ← get;
  match map_get userId (users (accounts (cp_workflow s))) with
  | None => mret tt
  | Some user =>
      if isActiveBan user now then
        _ ← audit_block userId action metric (JObj [("reason", JStr (str_or (option_text (u_banReason user)) "banned")); ("expiresAt", json_date (u_banExpiresAt user))]) "user:ban-block" now;
        raise (forbidden ("user " +:+ userId +:+ " is banned and cannot " +:+ action))
      else if bool_decide (u_role user = "ADMIN") || bool_decide (u_accountType user = "CLUB_MEMBER") then mret tt
      else if negb (bool_decide (u_approvalStatus user = "APPROVED")) then
        let status := str_or (u_approvalStatus user) "PENDING" in
        _ ← audit_block userId action metric (JObj [("reason", JStr status)]) "quota:block" now;
        raise (forbidden ("user " +:+ userId +:+ " is " +:+ status +:+ " and cannot " +:+ action))
      else
        quota ← (match js_find (fun row => q_userId row = userId) (map_values (quotas (accounts (cp_workflow s)))) with
                 | Some row => mret row
                 | None => on_workflow (on_accounts (setQuota userId (JStr (str_or (u_accountType user) "NON_CLUB")) [] now))
                 end);
        match (if str_empty metric then None else map_get metric (q_limits quota)) with
        | None => mret tt
        | Some limit =>
            s ← get;
            let current := usage_of metric (quotaUsageForUser userId usageRecords now s) in
            let increment := match increment with NotANumber => Fin 0 | a => a end in
            let requested := add_amount current increment in
            if exceeds requested (Fin (inject_Z limit)) then
              _ ← audit_block userId action metric (JObj [("current", amount_json current); ("increment", amount_json increment); ("limit", JNum (NInt limit))]) "quota:block" now;
              raise (forbidden ("quota exceeded: " +:+ metric +:+ " (" +:+ num_text (amount_num fraction_text requested) +:+ "/" +:+ pretty limit +:+ ")"))
            else mret tt
        end
  end.
End Usage.

Close Scope Z_scope.
