(* ===== verification/QuotaSafety.v ===== *)
(** * Properties of quotas

    The check lets an operation through only while the usage it would lead to
    is within the limit of the account; it only appends to the audit log and
    gives an account that has no quota the default one. *)

From Stdlib Require Import QArith Qround.
From S2P Require Import Prelude JsString JsMap JsVal Ids Identity Accounts Workflows ControlPlane Deployments DeploymentSafety Quotas.
From stdpp Require Import pretty.

Open Scope Z_scope.

(** ** Numbers *)

Lemma exceeds_int a b : exceeds (Fin (inject_Z a)) (Fin (inject_Z b)) = (b <? a).
Proof.
  unfold exceeds. destruct (Qle_bool _ _) eqn:E; cbn [negb].
  - apply Qle_bool_iff in E. rewrite <- Zle_Qle in E. symmetry. by apply Z.ltb_ge.
  - symmetry. apply Z.ltb_lt. destruct (Z.lt_ge_cases b a) as [|Hle]; [done|]. rewrite Zle_Qle in Hle. apply Qle_bool_iff in Hle. congruence.
Qed.

Lemma exceeds_sum_int a b c : exceeds (add_amount (Fin (inject_Z a)) (Fin (inject_Z b))) (Fin (inject_Z c)) = (c <? a + b).
Proof.
  rewrite <- exceeds_int. cbn [add_amount]. by rewrite inject_Z_plus.
Qed.

(** ** Plans *)

(** What a metric of a plan check adds up to. *)
Definition asked (current requested : jsobj) (metric : string) : amount :=
  add_amount (number_or_zero (obj_get metric current)) (number_or_zero (obj_get metric requested)).

Lemma checkQuota_exact plan current requested :
  ck_ok (checkQuota plan current requested) = true
  <-> forall metric limit, (metric, Limit limit) ∈ quotaForPlan plan -> exceeds (asked current requested metric) (Fin (inject_Z limit)) = false.
Proof.
  unfold checkQuota. cbn [ck_ok]. rewrite bool_decide_eq_true, length_zero_iff_nil. split.
  - intros Hnil metric limit Hin. destruct (exceeds _ _) eqn:E; [|done]. exfalso.
    assert (mkViolation metric limit (asked current requested metric) ∈ concat (map (violation_of current requested) (quotaForPlan plan))) as Hv.
    { apply list_elem_of_In, in_concat. eexists. split; [apply in_map, list_elem_of_In, Hin|]. unfold violation_of. cbn [fst snd].
      fold (asked current requested metric). rewrite E. by left. }
    rewrite Hnil in Hv. by apply not_elem_of_nil in Hv.
  - intros H. apply concat_nil_Forall. apply Forall_forall. intros l Hl. apply list_elem_of_fmap in Hl as ([metric v] & -> & Hin).
    unfold violation_of. cbn [fst snd]. destruct v as [limit| |]; [|done|done]. fold (asked current requested metric). by rewrite (H metric limit Hin).
Qed.

(** ** The check *)

Section Check.
Context (dateParse : string -> option Z) (fraction_text : Q -> string).

(** The store with other quotas and audit logs. *)
Definition logged (q : jsmap QuotaRow) (logs : list AuditRow) (s : ControlPlane) : ControlPlane :=
  s <| cp_workflow := mkWorkflowStore (accounts (cp_workflow s) <| quotas := q |> <| auditLogs := logs |>) (workflowJobs (cp_workflow s)) |>.

(** The quota table gains the default row of an account that has none. *)
Definition adds_default (q q' : jsmap QuotaRow) : Prop :=
  exists row, js_find (fun r => q_userId r = q_userId row) (map_values q) = None /\ q_limits row = DEFAULT_QUOTA_LIMITS
    /\ q' = map_set (stableId "quota" [JStr (q_userId row); JStr (q_accountType row)]) row q.

(** Nothing happens but that rows are appended to the audit log, and accounts
    without a quota get the default one. *)
Definition only_logged (s s' : ControlPlane) : Prop :=
  exists q logs, rtc adds_default (quotas (accounts (cp_workflow s))) q /\ s' = logged q (auditLogs (accounts (cp_workflow s)) ++ logs) s.

Lemma only_logged_refl s : only_logged s s.
Proof. exists (quotas (accounts (cp_workflow s))), []. split; [done|]. rewrite app_nil_r. by destruct s as [[[] ?] ? ? ? ? ?]. Qed.

Lemma only_logged_trans s1 s2 s3 : only_logged s1 s2 -> only_logged s2 s3 -> only_logged s1 s3.
Proof.
  intros (q & logs & Hq & ->) (q' & logs' & Hq' & ->). exists q', (logs ++ logs'). split; [by etrans|]. unfold logged. cbn. by rewrite app_assoc.
Qed.

Lemma audit_block_run userId action metric metadata type_ now s : exists s', audit_block userId action metric metadata type_ now s = (Ok tt, s') /\ only_logged s s'
  /\ quotas (accounts (cp_workflow s')) = quotas (accounts (cp_workflow s)).
Proof. destruct s as [[[] ?] ? ? ? ? ?]. eexists. split; [reflexivity|]. split; [by eexists _, [_]|done]. Qed.

Lemma set_quota_run userId accountType now s r s' :
  js_find (fun row => q_userId row = userId) (map_values (quotas (accounts (cp_workflow s)))) = None ->
  on_workflow (on_accounts (setQuota userId accountType [] now)) s = (r, s') -> only_logged s s'
  /\ forall row, r = Ok row -> q_limits row = DEFAULT_QUOTA_LIMITS.
Proof.
  destruct s as [[[] ?] ? ? ? ? ?]. intros Hn. unfold on_workflow, on_accounts, setQuota. rewrite run_lift. destruct (normalizeAccountType accountType "NON_CLUB") as [t|e].
  2: { intros [= <- <-]. split; [apply only_logged_refl|done]. }
  rewrite run_get, run_modify. cbv zeta. remember (stableId "quota" [JStr userId; JStr t]) as key eqn:Hkey. cbn. intros [= <- <-]. split.
  - eexists _, [_]. split; [|reflexivity]. apply rtc_once. match goal with |- adds_default _ (_ key ?row _) => exists row end. split; [exact Hn|]. split; [reflexivity|by rewrite Hkey].
  - by intros row [= <-].
Qed.

(** Accounts the quotas do not apply to. *)
Definition exempt (u : User) : Prop := u_role u = "ADMIN" \/ u_accountType u = "CLUB_MEMBER".

(** The limits of an account before the check *)
Definition limits_for (userId : string) (s : ControlPlane) : list (string * Z) :=
  match js_find (fun row => q_userId row = userId) (map_values (quotas (accounts (cp_workflow s)))) with Some row => q_limits row | None => DEFAULT_QUOTA_LIMITS end.

(** What the account would use of the metric *)
Definition grown (userId metric : string) (increment : amount) (usageRecords : list jsobj) (now : Z) (s : ControlPlane) : amount :=
  add_amount (usage_of metric (quotaUsageForUser dateParse userId usageRecords now s)) (match increment with NotANumber => Fin 0 | a => a end).

(** The limits let the usage grow by the increment. *)
Definition within (limits : list (string * Z)) (userId metric : string) (increment : amount) (usageRecords : list jsobj) (now : Z) (s : ControlPlane) : Prop :=
  forall limit, metric <> "" -> map_get metric limits = Some limit -> exceeds (grown userId metric increment usageRecords now s) (Fin (inject_Z limit)) = false.

Lemma enforce_tail userId action metric increment usageRecords now s quota r s' :
  (match (if str_empty metric then None else map_get metric (q_limits quota)) with
   | None => mret tt
   | Some limit =>
       s ← get;
       let current := usage_of metric (quotaUsageForUser dateParse userId usageRecords now s) in
       let increment := match increment with NotANumber => Fin 0 | a => a end in
       let requested := add_amount current increment in
       if exceeds requested (Fin (inject_Z limit)) then
         _ ← audit_block userId action metric (JObj [("current", amount_json fraction_text current); ("increment", amount_json fraction_text increment); ("limit", JNum (NInt limit))]) "quota:block" now;
         raise (forbidden ("quota exceeded: " +:+ metric +:+ " (" +:+ num_text (amount_num fraction_text requested) +:+ "/" +:+ pretty limit +:+ ")"))
       else mret tt
   end) s = (r, s') ->
  only_logged s s' /\ match r with Ok _ => within (q_limits quota) userId metric increment usageRecords now s | Throw e => err_status e = Some 403 end.
Proof.
  destruct (if str_empty metric then None else map_get metric (q_limits quota)) as [limit|] eqn:El.
  - rewrite run_get. cbv zeta. destruct (exceeds _ _) eqn:E.
    + destruct (audit_block_run userId action metric (JObj [("current", amount_json fraction_text (usage_of metric (quotaUsageForUser dateParse userId usageRecords now s)));
        ("increment", amount_json fraction_text match increment with NotANumber => Fin 0 | a => a end); ("limit", JNum (NInt limit))]) "quota:block" now s) as (s1 & Hb & Hl & _).
      unfold mbind, M_bind. rewrite Hb. intros [= <- <-]. done.
    + intros [= <- <-]. split; [apply only_logged_refl|]. intros limit' Hm Hl.
      rewrite str_empty_eq, bool_decide_eq_false_2 in El by done. assert (limit' = limit) as -> by congruence. done.
  - intros [= <- <-]. split; [apply only_logged_refl|]. intros limit Hm Hl.
    rewrite str_empty_eq, bool_decide_eq_false_2 in El by done. congruence.
Qed.

Lemma within_logged limits userId metric increment usageRecords now s s1 :
  only_logged s s1 -> within limits userId metric increment usageRecords now s1 -> within limits userId metric increment usageRecords now s.
Proof. by intros (q & logs & _ & ->). Qed.

(** What a check does: it only appends to the audit log and adds the default
    quota of the account, lets a known user through only when the user is not
    banned and is exempt or approved and within the quota, and refuses with
    status 403. *)
Lemma enforce_effect userId action metric increment usageRecords now s r s' :
  enforceUserCan dateParse fraction_text userId action metric increment usageRecords now s = (r, s') ->
  only_logged s s'
  /\ match r with
     | Throw e => err_status e = Some 403 \/ exists user, map_get userId (users (accounts (cp_workflow s))) = Some user
                                                /\ normalizeAccountType (JStr (str_or (u_accountType user) "NON_CLUB")) "NON_CLUB" = Throw e
     | Ok _ => forall user, map_get userId (users (accounts (cp_workflow s))) = Some user ->
         isActiveBan user now = false
         /\ (exempt user \/ (u_approvalStatus user = "APPROVED" /\ within (limits_for userId s) userId metric increment usageRecords now s))
     end.
Proof.
  unfold enforceUserCan. rewrite run_get. destruct (map_get userId _) as [user|] eqn:Hu.
  2: { intros [= <- <-]. split; [apply only_logged_refl|done]. }
  destruct (isActiveBan user now) eqn:Hban.
  { destruct (audit_block_run userId action metric (JObj [("reason", JStr (str_or (option_text (u_banReason user)) "banned")); ("expiresAt", json_date (u_banExpiresAt user))]) "user:ban-block" now s)
      as (s1 & Hb & Hl & _). unfold mbind, M_bind. rewrite Hb. intros [= <- <-]. split; [done|by left]. }
  destruct (bool_decide (u_role user = "ADMIN") || bool_decide (u_accountType user = "CLUB_MEMBER")) eqn:Hex.
  { intros [= <- <-]. split; [apply only_logged_refl|]. intros u [= <-]. split; [done|left].
    apply orb_true_iff in Hex as [?%bool_decide_eq_true|?%bool_decide_eq_true]; [by left|by right]. }
  clear Hex. case_bool_decide as Hap; cbv beta iota zeta delta [negb].
  2: { destruct (audit_block_run userId action metric (JObj [("reason", JStr (str_or (u_approvalStatus user) "PENDING"))]) "quota:block" now s) as (s1 & Hb & Hl & _).
       unfold mbind, M_bind. rewrite Hb. intros [= <- <-]. split; [done|by left]. }
  unfold limits_for. destruct (js_find _ _) as [row|] eqn:Hf.
  - intros H. apply enforce_tail in H as [Hl Hr]. split; [done|]. destruct r; [|by left]. intros u [= <-]. by split; [|right].
  - unfold mbind at 1, M_bind at 1. destruct (on_workflow _ s) as [[row|e] s1] eqn:Hq.
    + intros H. destruct (set_quota_run _ _ _ _ _ _ Hf Hq) as [Hl Hr]. apply enforce_tail in H as [Hl' Hr']. rewrite (Hr row eq_refl) in Hr'.
      split; [by eapply only_logged_trans|]. destruct r; [|by left]. intros u [= <-]. split; [done|right]. split; [done|by eapply within_logged].
    + intros [= <- <-]. destruct (set_quota_run _ _ _ _ _ _ Hf Hq) as [Hl _]. split; [done|]. right. exists user. split; [done|].
      revert Hq. unfold on_workflow, on_accounts, setQuota. rewrite run_lift. destruct (normalizeAccountType _ _); [done|]. by intros [= <- _].
Qed.

Lemma enforce_only_logged userId action metric increment usageRecords now s r s' :
  enforceUserCan dateParse fraction_text userId action metric increment usageRecords now s = (r, s') -> only_logged s s'.
Proof. intros H. by apply enforce_effect in H as [? _]. Qed.

(** Metrics that count rows: the projects and services of the organizations of
    the user, and the deployments and previews started there today. *)
Definition counted (metric : string) (scope : Scope) (now : Z) : option Z :=
  map_get metric
    [("maxProjects", Z.of_nat (length (sc_projects scope))); ("maxServices", Z.of_nat (length (sc_services scope)));
     ("maxDeploymentsPerDay", Z.of_nat (length (todays dateParse scope now)));
     ("maxPreviewDeployments", Z.of_nat (length (filter (fun row => as_string (obj_get "deploymentType" row) = Some "preview") (todays dateParse scope now))))].

Lemma counted_usage metric userId records now s n :
  counted metric (user_scope userId s) now = Some n -> usage_of metric (quotaUsageForUser dateParse userId records now s) = Fin (inject_Z n).
Proof.
  unfold counted, usage_of, quotaUsageForUser. cbn [map_get]. repeat (case_decide; [intros [= <-]; subst; reflexivity|]). done.
Qed.

(** C35. Quotas are enforced: when the check lets a known user through for a
    metric, the user is not banned and is an administrator or club member, whom
    quotas do not bind, or is approved and what the account would then use of the
    metric does not exceed the limit of its quota, the default one if it had none;
    for projects, services, deployments and previews that is the number of rows
    and the new ones.  All else the check does is to append to the audit log and
    to store the default quota of an account without one, under the identifier
    made from the account.  The refusals of known accounts carry status 403. *)
Theorem quota_respected userId action metric increment records now s r s' user :
  enforceUserCan dateParse fraction_text userId action metric increment records now s = (r, s') ->
  map_get userId (users (accounts (cp_workflow s))) = Some user ->
  u_accountType user ∈ ["CLUB_MEMBER"; "NON_CLUB"] ->
  only_logged s s'
  /\ match r with
     | Throw e => err_status e = Some 403
     | Ok _ => isActiveBan user now = false
         /\ (exempt user \/ (u_approvalStatus user = "APPROVED" /\
              forall limit, metric <> "" -> map_get metric (limits_for userId s) = Some limit ->
                exceeds (grown userId metric increment records now s) (Fin (inject_Z limit)) = false
                /\ forall n k, counted metric (user_scope userId s) now = Some n -> increment = Fin (inject_Z k) -> n + k <= limit))
     end.
Proof.
  intros H Hu Ht. apply enforce_effect in H as [Hl Hr]. split; [done|]. destruct r as [b|e].
  - destruct (Hr user Hu) as [Hban [Hex|(Hap & Hw)]]; (split; [done|]); [by left|right]. split; [done|].
    intros limit Hm Hlim. specialize (Hw limit Hm Hlim). split; [done|]. intros n k Hn ->.
    unfold grown in Hw. rewrite (counted_usage _ _ _ _ _ _ Hn), exceeds_sum_int in Hw. by apply Z.ltb_ge in Hw.
  - destruct Hr as [Hr|(u & Hu' & Hr)]; [done|]. assert (u = user) as -> by congruence. exfalso.
    apply elem_of_cons in Ht as [Ht|Ht%list_elem_of_singleton]; rewrite Ht in Hr; discriminate Hr.
Qed.
End Check.

(** ** Application *)

Definition dan : User :=
  mkUser "dan" "Dan" "" false "dan@school.ac.kr" None None None "USER" "NON_CLUB" "APPROVED" 0 None None None None None 0 0.

(** Dan owns the organization [org] with one project and two services. *)
Definition dans_plane : ControlPlane :=
  mkControlPlane
    (mkWorkflowStore (empty_accounts <| users := [("dan", dan)] |> <| members := [mkMember "org" "dan" "owner" None None None] |>) [])
    [("p", [("id", JStr "p"); ("organizationId", JStr "org")])]
    [("web", [("id", JStr "web"); ("projectId", JStr "p")]); ("api", [("id", JStr "api"); ("projectId", JStr "p")])] [] [] [].

Definition any_date (s : string) : option Z := Some 0.
Definition no_text (q : Q) : string := "".

Lemma quota_respected_witness :
  (exists s' e, enforceUserCan any_date no_text "dan" "service:create" "maxServices" (Fin 1) [] 1000 dans_plane = (Throw e, s') /\ err_status e = Some 403)
  /\ exists s', enforceUserCan any_date no_text "dan" "deployment:create" "maxDeploymentsPerDay" (Fin 3) [] 1000 dans_plane = (Ok tt, s')
       /\ only_logged dans_plane s' /\ exceeds (grown any_date "dan" "maxDeploymentsPerDay" (Fin 3) [] 1000 dans_plane) (Fin 3) = false.
Proof.
  split.
  - destruct (enforceUserCan any_date no_text "dan" "service:create" "maxServices" (Fin 1) [] 1000 dans_plane) as [r s'] eqn:E.
    assert (exists e, r = Throw e) as [e ->] by (apply (f_equal fst) in E; vm_compute in E; subst r; eexists; reflexivity).
    exists s', e. split; [done|]. apply (quota_respected any_date no_text "dan" "service:create" "maxServices" (Fin 1) [] 1000 dans_plane (Throw e) s' dan E eq_refl). by right; left.
  - destruct (enforceUserCan any_date no_text "dan" "deployment:create" "maxDeploymentsPerDay" (Fin 3) [] 1000 dans_plane) as [r s'] eqn:E.
    assert (r = Ok tt) as -> by (apply (f_equal fst) in E; vm_compute in E; by subst r). exists s'. split; [done|].
    destruct (quota_respected any_date no_text "dan" "deployment:create" "maxDeploymentsPerDay" (Fin 3) [] 1000 dans_plane (Ok tt) s' dan E eq_refl) as (Hl & _ & [[Hx|Hx]|[_ Hw]]);
      [by right; left|discriminate Hx|discriminate Hx|]. split; [exact Hl|]. apply (Hw 3); [discriminate|reflexivity].
Defined.

Close Scope Z_scope.
