(* ===== verification/PreviewContract.v ===== *)
(** * Contracts of preview deployments ([packages/core/src/preview-contract.ts])

    What the platform accepts of a pull request webhook, of an observation of
    a pull request, of a preview runtime and of an inventory of cluster
    objects.  HMAC-SHA-256, SHA-256, [JSON.parse] and [Date.parse] are
    parameters. *)

From S2P Require Import Prelude JsString JsMap JsVal Ids ControlPlane Domains DomainRouter.
From stdpp Require Import pretty.

Open Scope Z_scope.

(** ** Errors and atoms *)

Definition PreviewError (code : string) (statusCode : Z) : jserror := JsError "PreviewError" code (Some statusCode).
Definition invalid : jserror := PreviewError "preview_invalid_input" 400.

Inductive PreviewAction := opened | synchronize | reopened | closed.

#[export] Instance PreviewAction_eq_dec : EqDecision PreviewAction.
Proof. solve_decision. Defined.

Definition action_text (a : PreviewAction) : string :=
  match a with opened => "opened" | synchronize => "synchronize" | reopened => "reopened" | closed => "closed" end.

Definition parse_action (v : jsval) : result PreviewAction :=
  match v with
  | JStr "opened" => Ok opened
  | JStr "synchronize" => Ok synchronize
  | JStr "reopened" => Ok reopened
  | JStr "closed" => Ok closed
  | _ => Throw invalid
  end.

Definition object (value : jsval) : result jsobj :=
  match value with JObj fields => Ok fields | _ => Throw invalid end.

Definition exact_keys (value : jsval) (keys : list string) : result jsobj :=
  parsed ← object value;
  _ ← throw_if (existsb (fun key => bool_decide (key ∉ keys)) parsed.*1) invalid;
  Ok parsed.

Definition text (value : jsval) (pattern : string -> bool) (limit : nat) : result string :=
  match value with
  | JStr s => if (limit <? length (chars s))%nat || negb (pattern s) then Throw invalid else Ok s
  | _ => Throw invalid
  end.

Definition positive_integer (value : jsval) : result Z :=
  match as_integer value with
  | Some z => if safe_integer z && (0 <? z) then Ok z else Throw invalid
  | None => Throw invalid
  end.

(** [/^[A-Za-z0-9][A-Za-z0-9._:-]{0,127}$/] *)
Definition id_char (c : ascii) : bool := is_alnum c || bool_decide (c ∈ ["."; "_"; ":"; "-"]%char).
Definition idPattern (s : string) : bool :=
  match chars s with c :: l => is_alnum c && forallb id_char l && (length l <=? 127)%nat | [] => false end.

(** [/^[a-z0-9](?:[a-z0-9-]{0,61}[a-z0-9])?$/] *)
Definition dnsLabelPattern (s : string) : bool := label_pattern s && (length (chars s) <=? 63)%nat.

(** [/^[a-f0-9]{40}(?:[a-f0-9]{24})?$/] *)
Definition shaPattern (s : string) : bool := class_pattern is_lower_hex 40 40 s || class_pattern is_lower_hex 64 64 s.

(** [/^[a-f0-9]{8}-[a-f0-9]{4}-[1-8][a-f0-9]{3}-[89ab][a-f0-9]{3}-[a-f0-9]{12}$/i] *)
Definition any_hex (c : ascii) : bool := is_lower_hex (lower_char c).
Definition all_hex (n : nat) (l : list ascii) : bool := (length l =? n)%nat && forallb any_hex l.
Definition uuid_groups (l : list ascii) : bool :=
  match split_chars "-"%char l with
  | [a; b; v :: c; r :: d; e] =>
      all_hex 8 a && all_hex 4 b && in_range 49 56 v && all_hex 3 c
      && bool_decide (lower_char r ∈ ["8"; "9"; "a"; "b"]%char) && all_hex 3 d && all_hex 12 e
  | _ => false
  end.
Definition uuidPattern (s : string) : bool := uuid_groups (chars s).

(** [/^[1-9][0-9]{0,15}$/], and a safe integer *)
Definition numeric_pattern (s : string) : bool :=
  match chars s with c :: l => in_range 49 57 c && forallb is_digit l && (length l <=? 15)%nat | [] => false end.
Definition numericId (value : jsval) : result string :=
  parsed ← text value numeric_pattern 128;
  _ ← positive_integer (JNum (js_Number parsed));
  Ok parsed.

(** [/^[^\s\x00-\x1f\x7f~^:?*\[\\]+$/] *)
Definition ref_char (c : ascii) : bool :=
  negb (is_space c) && negb ((code c <? 32)%N || (code c =? 127)%N) && negb (bool_decide (code c ∈ [126; 94; 58; 63; 42; 91; 92]%N)).
Definition ref (value : jsval) : result string :=
  parsed ← text value (fun s => negb (str_empty s) && forallb ref_char (chars s)) 255;
  _ ← throw_if (bool_decide (parsed = "@") || includes parsed ".." || includes parsed "@{" || endsWith parsed "."
                || existsb (fun part => str_empty part || startsWith part "." || endsWith part ".lock") (split_on "/"%char parsed)) invalid;
  Ok parsed.

(** [/^[a-z0-9.-]+$/], every part a DNS label, at least two parts *)
Definition host_class (s : string) : bool :=
  negb (str_empty s) && forallb (fun c => is_lower_alnum c || is_hyphen c || (code c =? 46)%N) (chars s).
Definition host (value : jsval) : result string :=
  parsed ← text value host_class 253;
  _ ← throw_if (negb (includes parsed ".") || existsb (fun part => negb (dnsLabelPattern part)) (split_on "."%char parsed)) invalid;
  Ok parsed.

(** [/^[A-Za-z0-9](?:[A-Za-z0-9-]{0,38})\/[A-Za-z0-9_.-]{1,100}$/] *)
Definition repo_char (c : ascii) : bool := is_alnum c || bool_decide (c ∈ ["_"; "."; "-"]%char).
Definition repositoryPattern (s : string) : bool :=
  match split_chars "/"%char (chars s) with
  | [c :: owner; name] =>
      is_alnum c && forallb (fun x => is_alnum x || is_hyphen x) owner && (length owner <=? 38)%nat
      && forallb repo_char name && (1 <=? length name)%nat && (length name <=? 100)%nat
  | _ => false
  end.

(** [/^\d{4}-\d{2}-\d{2}T\d{2}:\d{2}:\d{2}(?:\.\d{3})?Z$/] *)
Definition iso_shape (s : string) : string :=
  unchars ((fun c => if is_digit c then "0"%char else c) <$> chars s).
Definition iso_pattern (s : string) : bool :=
  bool_decide (iso_shape s ∈ ["0000-00-00T00:00:00Z"; "0000-00-00T00:00:00.000Z"]).

(** ** Records *)

Record PreviewWebhook := mkWebhook {
  wh_deliveryId : string; wh_installationId : string; wh_repositoryId : string; wh_repository : string;
  wh_pullRequestNumber : Z; wh_action : PreviewAction; wh_headSha : string; wh_headRef : string;
  wh_baseRef : string; wh_beforeSha : option string; wh_updatedAt : string
}.

#[export] Instance PreviewWebhook_eq_dec : EqDecision PreviewWebhook.
Proof. solve_decision. Defined.

Record PreviewRuntime := mkRuntime {
  rt_lineageId : string; rt_deploymentId : string; rt_generation : Z; rt_lineageVersion : Z;
  rt_stableHost : string; rt_probeHost : string; rt_namespace : string; rt_workloadName : string;
  rt_serviceName : string; rt_probeIngressName : string; rt_routeName : string
}.

Record PreviewObservation := mkObservation {
  ob_lineageId : string; ob_lineageVersion : Z; ob_installationId : string; ob_repositoryId : string;
  ob_pullRequestNumber : Z; ob_closed : bool; ob_headSha : string; ob_headRef : string;
  ob_baseRef : string; ob_updatedAt : string; ob_observedAt : string
}.

Record PreviewOwnedObject := mkOwned {
  ow_group : string; ow_kind : string; ow_namespace : string; ow_name : string; ow_uid : string; ow_resourceVersion : option string
}.

Definition webhookKeys : list string :=
  ["deliveryId"; "installationId"; "repositoryId"; "repository"; "pullRequestNumber"; "action"; "headSha"; "headRef"; "baseRef"; "beforeSha"; "updatedAt"].
Definition runtimeKeys : list string :=
  ["version"; "lineageId"; "deploymentId"; "generation"; "lineageVersion"; "stableHost"; "probeHost"; "namespace"; "workloadName"; "serviceName"; "probeIngressName"; "routeName"].
Definition observationKeys : list string :=
  ["version"; "lineageId"; "lineageVersion"; "installationId"; "repositoryId"; "pullRequestNumber"; "state"; "headSha"; "headRef"; "baseRef"; "updatedAt"; "observedAt"].

(** [canonicalPreviewWebhook] as the JSON value it stores. *)
Definition canonicalPreviewWebhook (event : PreviewWebhook) : jsobj :=
  [("deliveryId", JStr (wh_deliveryId event)); ("installationId", JStr (wh_installationId event)); ("repositoryId", JStr (wh_repositoryId event));
   ("repository", JStr (wh_repository event)); ("pullRequestNumber", JNum (NInt (wh_pullRequestNumber event)));
   ("action", JStr (action_text (wh_action event))); ("headSha", JStr (wh_headSha event)); ("headRef", JStr (wh_headRef event));
   ("baseRef", JStr (wh_baseRef event)); ("beforeSha", match wh_beforeSha event with Some s => JStr s | None => JNull end);
   ("updatedAt", JStr (wh_updatedAt event))].

(** ** Parsers *)

Section Parsers.
Context (dateParse : string -> option Z).

(** [parsed.length === 20 ? parsed.replace('Z', '.000Z') : parsed] *)
Definition with_millis (parsed : string) : string :=
  if (length (chars parsed) =? 20)%nat then unchars (take 19 (chars parsed)) +:+ ".000Z" else parsed.

Definition parse_timestamp (value : jsval) : result string :=
  parsed ← text value iso_pattern 24;
  match dateParse parsed with
  | Some millis => if bool_decide (toISOString millis = with_millis parsed) then Ok parsed else Throw invalid
  | None => Throw invalid
  end.

(** [value === null ? null : text(value, shaPattern)] *)
Definition before_sha (v : jsval) : result (option string) :=
  match v with JNull => Ok None | _ => s ← text v shaPattern 128; Ok (Some s) end.

Definition parsePreviewWebhookPayload (input : jsval) : result PreviewWebhook :=
  value ← exact_keys input webhookKeys;
  action ← parse_action (obj_get "action" value);
  beforeSha ← before_sha (obj_get "beforeSha" value);
  _ ← throw_if (bool_decide (action = synchronize) && bool_decide (beforeSha = None)) invalid;
  deliveryId ← text (obj_get "deliveryId" value) uuidPattern 128;
  installationId ← numericId (obj_get "installationId" value);
  repositoryId ← numericId (obj_get "repositoryId" value);
  repository ← text (obj_get "repository" value) repositoryPattern 140;
  pullRequestNumber ← positive_integer (obj_get "pullRequestNumber" value);
  headSha ← text (obj_get "headSha" value) shaPattern 128;
  headRef ← ref (obj_get "headRef" value);
  baseRef ← ref (obj_get "baseRef" value);
  updatedAt ← parse_timestamp (obj_get "updatedAt" value);
  Ok (mkWebhook (toLowerCase deliveryId) installationId repositoryId repository pullRequestNumber action headSha headRef baseRef beforeSha updatedAt).

(** Two records of the same keys print the same JSON exactly when they are equal. *)
Definition previewWebhookPayloadMatches (payload : jsval) (event : PreviewWebhook) : bool :=
  match parsePreviewWebhookPayload payload with
  | Ok parsed => bool_decide (parsed = event)
  | Throw _ => false
  end.

Definition previewWebhookLineage (webhookEventId lineageId : string) (event : PreviewWebhook) : result jsobj :=
  webhookEventId ← text (JStr webhookEventId) idPattern 128;
  lineageId ← text (JStr lineageId) idPattern 128;
  Ok ([("source", JStr "github-webhook"); ("webhookEventId", JStr webhookEventId); ("lineageId", JStr lineageId)] ++ canonicalPreviewWebhook event).

Record PreviewWebhookInput := mkWebhookInput { in_body : string; in_signature : string; in_secret : string; in_deliveryId : string }.

Section Signature.
(** The HMAC-SHA-256 of a body under a secret in lower-case hexadecimal, and
    [JSON.parse], [None] for a syntax error. *)
Context (hmac_hex : string -> string -> string) (jsonParse : string -> option jsval).

Definition invalid_signature : jserror := PreviewError "preview_invalid_signature" 401.

Definition parsePreviewWebhook (input : PreviewWebhookInput) : result PreviewWebhook :=
  _ ← throw_if (str_empty (in_secret input)) invalid_signature;
  _ ← throw_if (1048576 <? utf8_length (in_body input)) (PreviewError "preview_payload_too_large" 413);
  let signed := unchars (drop 7 (chars (in_signature input))) in
  _ ← throw_if (negb (startsWith (in_signature input) "sha256=" && class_pattern is_lower_hex 64 64 signed)) invalid_signature;
  _ ← throw_if (negb (bool_decide (hmac_hex (in_secret input) (in_body input) = signed))) invalid_signature;
  deliveryId ← text (JStr (in_deliveryId input)) uuidPattern 128;
  decoded ← (match jsonParse (in_body input) with Some v => Ok v | None => Throw invalid end);
  payload ← object decoded;
  pr ← object (obj_get "pull_request" payload);
  head ← object (obj_get "head" pr);
  base ← object (obj_get "base" pr);
  repository ← object (obj_get "repository" payload);
  action ← parse_action (obj_get "action" payload);
  _ ← throw_if (negb (bool_decide (as_string (obj_get "state" pr) = Some (if decide (action = closed) then "closed" else "open")))) invalid;
  pullRequestNumber ← positive_integer (obj_get "number" pr);
  number ← positive_integer (obj_get "number" payload);
  _ ← throw_if (negb (number =? pullRequestNumber)) invalid;
  beforeSha ← before_sha (match obj_get "before" payload with JUndef => JNull | v => v end);
  _ ← throw_if (bool_decide (action = synchronize) && bool_decide (beforeSha = None)) invalid;
  installation ← object (obj_get "installation" payload);
  installationId ← positive_integer (obj_get "id" installation);
  repositoryId ← positive_integer (obj_get "id" repository);
  full_name ← text (obj_get "full_name" repository) repositoryPattern 140;
  headSha ← text (obj_get "sha" head) shaPattern 128;
  headRef ← ref (obj_get "ref" head);
  baseRef ← ref (obj_get "ref" base);
  updatedAt ← parse_timestamp (obj_get "updated_at" pr);
  parsePreviewWebhookPayload (JObj (canonicalPreviewWebhook
    (mkWebhook (toLowerCase deliveryId) (pretty installationId) (pretty repositoryId) full_name pullRequestNumber action headSha headRef baseRef beforeSha updatedAt))).
End Signature.

Definition is_one (v : jsval) : bool := bool_decide (as_integer v = Some 1).

Definition parsePreviewRuntime (input : jsval) : result PreviewRuntime :=
  value ← exact_keys input runtimeKeys;
  _ ← throw_if (negb (is_one (obj_get "version" value))) invalid;
  lineageId ← text (obj_get "lineageId" value) idPattern 128;
  deploymentId ← text (obj_get "deploymentId" value) idPattern 128;
  generation ← positive_integer (obj_get "generation" value);
  lineageVersion ← positive_integer (obj_get "lineageVersion" value);
  stableHost ← host (obj_get "stableHost" value);
  probeHost ← host (obj_get "probeHost" value);
  namespace ← text (obj_get "namespace" value) dnsLabelPattern 63;
  workloadName ← text (obj_get "workloadName" value) dnsLabelPattern 63;
  serviceName ← text (obj_get "serviceName" value) dnsLabelPattern 63;
  probeIngressName ← text (obj_get "probeIngressName" value) dnsLabelPattern 63;
  routeName ← text (obj_get "routeName" value) dnsLabelPattern 63;
  Ok (mkRuntime lineageId deploymentId generation lineageVersion stableHost probeHost namespace workloadName serviceName probeIngressName routeName).

Definition parsePreviewObservation (input : jsval) : result PreviewObservation :=
  value ← exact_keys input observationKeys;
  let state := as_string (obj_get "state" value) in
  _ ← throw_if (negb (is_one (obj_get "version" value)) || negb (bool_decide (state = Some "open") || bool_decide (state = Some "closed"))) invalid;
  lineageId ← text (obj_get "lineageId" value) idPattern 128;
  lineageVersion ← positive_integer (obj_get "lineageVersion" value);
  installationId ← numericId (obj_get "installationId" value);
  repositoryId ← numericId (obj_get "repositoryId" value);
  pullRequestNumber ← positive_integer (obj_get "pullRequestNumber" value);
  headSha ← text (obj_get "headSha" value) shaPattern 128;
  headRef ← ref (obj_get "headRef" value);
  baseRef ← ref (obj_get "baseRef" value);
  updatedAt ← parse_timestamp (obj_get "updatedAt" value);
  observedAt ← parse_timestamp (obj_get "observedAt" value);
  Ok (mkObservation lineageId lineageVersion installationId repositoryId pullRequestNumber (bool_decide (state = Some "closed"))
        headSha headRef baseRef updatedAt observedAt).

Definition group_of_kind (kind : string) : option string :=
  map_get kind [("Deployment", "apps"); ("Service", ""); ("Ingress", "networking.k8s.io"); ("NetworkPolicy", "networking.k8s.io")].

(** [/^[1-9][0-9]*$/] *)
Definition version_pattern (s : string) : bool := match chars s with c :: l => in_range 49 57 c && forallb is_digit l | [] => false end.

Definition parse_owned (entry : jsval) : result PreviewOwnedObject :=
  value ← exact_keys entry ["group"; "version"; "kind"; "namespace"; "name"; "uid"; "resourceVersion"];
  kind ← (match obj_get "kind" value with JStr k => Ok k | _ => Throw invalid end);
  group ← (match group_of_kind kind with Some g => Ok g | None => Throw invalid end);
  _ ← throw_if (negb (bool_decide (as_string (obj_get "group" value) = Some group)) || negb (bool_decide (as_string (obj_get "version" value) = Some "v1"))) invalid;
  namespace ← text (obj_get "namespace" value) dnsLabelPattern 63;
  name ← text (obj_get "name" value) dnsLabelPattern 63;
  uid ← text (obj_get "uid" value) idPattern 128;
  resourceVersion ← (match obj_get "resourceVersion" value with JUndef => Ok None | v => s ← text v version_pattern 128; Ok (Some s) end);
  Ok (mkOwned group kind namespace name uid resourceVersion).

Definition owned_identity (o : PreviewOwnedObject) : string :=
  ow_group o +:+ "/" +:+ ow_kind o +:+ "/" +:+ ow_namespace o +:+ "/" +:+ ow_name o.

(** The entries in order, with the identities seen so far. *)
Fixpoint parse_inventory (entries_ : list jsval) (identities : list string) : result (list PreviewOwnedObject) :=
  match entries_ with
  | [] => Ok []
  | entry :: rest =>
      parsed ← parse_owned entry;
      _ ← throw_if (bool_decide (owned_identity parsed ∈ identities)) invalid;
      others ← parse_inventory rest (owned_identity parsed :: identities);
      Ok (parsed :: others)
  end.

Definition parsePreviewInventory (input : jsval) : result (list PreviewOwnedObject) :=
  match input with
  | JArr l => if (32 <? length l)%nat then Throw invalid else parse_inventory l []
  | _ => Throw invalid
  end.
End Parsers.

Section Probe.
Context (sha256_hex : string -> string).

Definition nul : string := unchars [chr 0].

Definition previewProbeHost (lineageId deploymentId baseDomain : string) : result string :=
  lineageId ← text (JStr lineageId) idPattern 128;
  deploymentId ← text (JStr deploymentId) idPattern 128;
  let digest := slice0 32 (sha256_hex ("raibitserver.preview-probe/v1" +:+ nul +:+ lineageId +:+ nul +:+ deploymentId)) in
  base ← host (JStr baseDomain);
  host (JStr ("preview--probe-" +:+ digest +:+ "." +:+ base)).
End Probe.

Close Scope Z_scope.
