(* ===== verification/PreviewLineage.v ===== *)
(** * Preview lineages ([packages/core/src/preview-lineage.ts],
    [preview-deployments.ts])

    A lineage is the history of one pull request of one service: the latest
    event that counts, whether the preview is open, closed or ambiguous, and
    the generation of its deployments.  Webhooks arrive in any order and more
    than once; the transition function orders them by their timestamps. *)

From Stdlib Require Import QArith.
From S2P Require Import Prelude JsString JsMap JsVal Ids Workflows ControlPlane DomainRouter PreviewContract.
From stdpp Require Import pretty.

Open Scope Z_scope.

(** ** Runtime plans *)

Section Plans.
Context (sha256_hex : string -> string).

Definition num_positive (n : jsnum) : bool :=
  match n with NInt z => 0 <? z | NFrac _ q => negb (Qle_bool q 0) | _ => false end.
Definition num_finite (n : jsnum) : bool := match n with NInt _ | NFrac _ _ => true | _ => false end.

Definition previewKey (pullRequestNumber : jsval) : string :=
  let number := to_number (js_or pullRequestNumber (JNum (NInt 0))) in
  "pr-" +:+ (if num_positive number then num_text number else "0").

Record PreviewIdentityParts := mkParts {
  pp_number : jsnum; pp_preview : string; pp_serviceName : string; pp_projectSlug : string; pp_namespace : string;
  pp_workloadName : string; pp_organizationRouteSlug : jsval; pp_projectRouteSlug : jsval; pp_serviceRouteName : jsval
}.

Definition first_truthy (values : list jsval) (fallback : jsval) : jsval := foldr js_or fallback values.

Definition deployment_identity (input : jsobj) : jsval :=
  first_truthy [obj_get "deploymentId" input; field "id" (obj_get "deployment" input)] JNull.

Definition previewIdentity (input : jsobj) : PreviewIdentityParts :=
  let service := entries (obj_get "service" input) in
  let project := entries (obj_get "project" input) in
  let organization := entries (obj_get "organization" input) in
  let number := to_number (first_truthy [obj_get "pullRequestNumber" input; obj_get "prNumber" input] (JNum (NInt 0))) in
  let preview := previewKey (JNum number) in
  let serviceRouteName := first_truthy [obj_get "slug" service; obj_get "name" service; obj_get "id" service] (JStr "service") in
  let projectRouteSlug := first_truthy [obj_get "slug" project; obj_get "name" project; obj_get "id" project] (JStr "project") in
  let organizationRouteSlug := first_truthy [obj_get "slug" organization; obj_get "name" organization;
                                             obj_get "organizationSlug" project; obj_get "organizationId" project] (JStr "org") in
  let organizationNamespaceIdentity := first_truthy [obj_get "id" organization; obj_get "organizationId" project] organizationRouteSlug in
  let projectNamespaceIdentity := js_or (obj_get "id" project) JNull in
  let serviceName := boundedDnsLabel sha256_hex serviceRouteName 63 (js_or (obj_get "id" service) serviceRouteName) in
  let projectSlug := boundedDnsLabel sha256_hex projectRouteSlug 63 (js_or (obj_get "id" project) projectRouteSlug) in
  let namespace := tenantProjectLabel sha256_hex organizationNamespaceIdentity projectRouteSlug
                     (if truthy projectNamespaceIdentity
                      then JStr (js_String organizationNamespaceIdentity +:+ nul +:+ js_String projectNamespaceIdentity) else JUndef) in
  let identity := deployment_identity input in
  let workloadName := if truthy identity then identityDnsLabel sha256_hex (JStr (preview +:+ "-" +:+ serviceName)) identity 63
                      else boundedDnsLabel sha256_hex (JStr (preview +:+ "-" +:+ serviceName)) 63 JUndef in
  mkParts number preview serviceName projectSlug namespace workloadName organizationRouteSlug projectRouteSlug serviceRouteName.

Definition previewWorkloadName (service pullRequestNumber : jsval) : string :=
  pp_workloadName (previewIdentity [("service", service); ("pullRequestNumber", pullRequestNumber)]).

Record PreviewPlan := mkPlan {
  pl_action : jsval; pl_pullRequestNumber : jsnum; pl_deploymentId : jsval; pl_url : string; pl_host : string;
  pl_namespace : string; pl_workloadName : string; pl_serviceName : string; pl_ingressName : string;
  pl_labels : list (string * string); pl_cleanupSelector : string
}.

Definition previewRuntimePlan (input : jsobj) : result PreviewPlan :=
  let service := entries (obj_get "service" input) in
  let project := entries (obj_get "project" input) in
  let runtime := spread (spread (entries (field "desiredSpec" (obj_get "service" input))) (entries (field "desiredState" (obj_get "service" input)))) service in
  _ ← throw_if (truthy (obj_get "persistence" runtime) && negb (bool_decide (as_string (obj_get "action" input) = Some "delete")))
        (JsError "Error" "Persistent services do not support preview deployments; create a separately quota-managed service" (Some 400));
  let parts := previewIdentity input in
  let baseDomain := first_truthy [obj_get "baseDomain" input; obj_get "baseDomain" service; obj_get "baseDomain" project] (JStr DEFAULT_DOMAIN) in
  let hostname := js_String (serviceHostname sha256_hex
                    [("organizationSlug", pp_organizationRouteSlug parts); ("projectSlug", pp_projectRouteSlug parts);
                     ("serviceName", pp_serviceRouteName parts); ("baseDomain", baseDomain); ("preview", JStr (pp_preview parts))]) in
  let deploymentId := deployment_identity input in
  let number := if num_finite (pp_number parts) then pp_number parts else NInt 0 in
  let workloadName := pp_workloadName parts in
  let labels := [("app.kubernetes.io/name", workloadName); ("app.kubernetes.io/managed-by", "raibitserver");
                 ("raibitserver.io/project", pp_projectSlug parts); ("raibitserver.io/service", pp_serviceName parts);
                 ("raibitserver.io/preview", "true"); ("raibitserver.io/pull-request", num_text number)]
                ++ (if truthy deploymentId then [("raibitserver.io/deployment", js_String deploymentId)] else []) in
  Ok (mkPlan (js_or (obj_get "action" input) (JStr "apply")) number deploymentId ("https://" +:+ hostname) hostname
        (pp_namespace parts) workloadName workloadName workloadName labels
        (JsVal.join "," (map (fun kv => kv.1 +:+ "=" +:+ kv.2) labels))).

(** ** Lineages *)

Definition PREVIEW_RESOLVER_JOB : string := "github.preview-resolve".
Definition PREVIEW_APPLY_JOB : string := "github.preview-apply".
Definition RESERVED_PREVIEW_JOBS : list string := [PREVIEW_RESOLVER_JOB; PREVIEW_APPLY_JOB].

Inductive LineageState := OPEN | CLOSED | AMBIGUOUS.

#[export] Instance LineageState_eq_dec : EqDecision LineageState.
Proof. solve_decision. Defined.

(** What the router has to do when a preview closes. *)
Record RouteIntent := mkIntent {
  ri_lineageVersion : Z; ri_operation : string; ri_token : string; ri_namespace : string; ri_name : string
}.

Record PreviewLineageRecord := mkLineage {
  ln_id : string; ln_organizationId : string; ln_projectId : string; ln_serviceId : string; ln_integrationId : string;
  ln_installationId : string; ln_repositoryId : string; ln_repository : string; ln_pullRequestNumber : Z;
  ln_stableHost : string; ln_namespace : string; ln_routeName : string; ln_state : LineageState;
  ln_version : Z; ln_generation : Z; ln_eventUpdatedAt : string; ln_eventAction : string; ln_headSha : string;
  ln_headRef : string; ln_baseRef : string; ln_beforeSha : option string; ln_candidateDeploymentId : option string;
  ln_candidateGeneration : option Z; ln_currentDeploymentId : option string; ln_currentGeneration : option Z;
  ln_routeIntent : option RouteIntent
}.

#[export] Instance PreviewLineageRecord_rebuild : Rebuild PreviewLineageRecord := fun l =>
  mkLineage (ln_id l) (ln_organizationId l) (ln_projectId l) (ln_serviceId l) (ln_integrationId l)
    (ln_installationId l) (ln_repositoryId l) (ln_repository l) (ln_pullRequestNumber l)
    (ln_stableHost l) (ln_namespace l) (ln_routeName l) (ln_state l)
    (ln_version l) (ln_generation l) (ln_eventUpdatedAt l) (ln_eventAction l) (ln_headSha l)
    (ln_headRef l) (ln_baseRef l) (ln_beforeSha l) (ln_candidateDeploymentId l)
    (ln_candidateGeneration l) (ln_currentDeploymentId l) (ln_currentGeneration l) (ln_routeIntent l).

Record PreviewIdentity := mkIdentity {
  pi_organizationId : string; pi_projectId : string; pi_serviceId : string; pi_integrationId : string; pi_baseDomain : option string
}.

Inductive PreviewDecision := stale | duplicate | ambiguous | open_ | close.

#[export] Instance PreviewDecision_eq_dec : EqDecision PreviewDecision.
Proof. solve_decision. Defined.

Definition decision_text (d : PreviewDecision) : string :=
  match d with stale => "stale" | duplicate => "duplicate" | ambiguous => "ambiguous" | open_ => "open" | close => "close" end.

Record PreviewTransition := mkTransition { tr_decision : PreviewDecision; tr_lineage : PreviewLineageRecord; tr_enqueueResolver : bool }.

Definition PreviewLifecycleError (code : string) : jserror := JsError "PreviewLifecycleError" code (Some 409).

Definition key_text (action headSha : string) (beforeSha : option string) (headRef baseRef : string) : string :=
  JsVal.join nul [action; headSha; default "" beforeSha; headRef; baseRef].

Definition semanticKey (event : PreviewWebhook) : string :=
  key_text (action_text (wh_action event)) (wh_headSha event) (wh_beforeSha event) (wh_headRef event) (wh_baseRef event).

(** The same key of the event a lineage was last moved by. *)
Definition lineage_key (l : PreviewLineageRecord) : string :=
  key_text (ln_eventAction l) (ln_headSha l) (ln_beforeSha l) (ln_headRef l) (ln_baseRef l).

Section Times.
Context (dateParse : string -> option Z).

(** Comparisons of [Date.parse] results; [NaN] compares false. *)
Definition before (a b : string) : bool :=
  match dateParse a, dateParse b with Some x, Some y => x <? y | _, _ => false end.
Definition same_instant (a b : string) : bool :=
  match dateParse a, dateParse b with Some x, Some y => x =? y | _, _ => false end.

Definition plan_input (serviceId projectId organizationId : string) (number : Z) (deploymentId : jsval) (baseDomain : option string) : jsobj :=
  [("service", JObj [("id", JStr serviceId)]);
   ("project", JObj [("id", JStr projectId); ("organizationId", JStr organizationId)]);
   ("organization", JObj [("id", JStr organizationId)]);
   ("pullRequestNumber", JNum (NInt number)); ("deploymentId", deploymentId);
   ("baseDomain", match baseDomain with Some s => JStr s | None => JUndef end)].

(** The record of an event that moves the lineage. *)
Definition next_lineage (current : option PreviewLineageRecord) (event : PreviewWebhook) (identity : PreviewIdentity) (id : string) (plan : PreviewPlan)
    : PreviewLineageRecord :=
  let closes := bool_decide (wh_action event = closed) in
  let generation := match current with Some l => ln_generation l | None => 0 end in
  mkLineage id (pi_organizationId identity) (pi_projectId identity) (pi_serviceId identity) (pi_integrationId identity)
    (wh_installationId event) (wh_repositoryId event) (wh_repository event) (wh_pullRequestNumber event)
    (match current with Some l => ln_stableHost l | None => pl_host plan end)
    (match current with Some l => ln_namespace l | None => pl_namespace plan end)
    (match current with Some l => ln_routeName l | None => identityDnsLabel sha256_hex (JStr "preview-route") (JStr id) 63 end)
    (if closes then CLOSED else OPEN)
    (match current with Some l => ln_version l | None => 0 end + 1)
    (if closes then generation else generation + 1)
    (wh_updatedAt event) (action_text (wh_action event)) (wh_headSha event) (wh_headRef event) (wh_baseRef event) (wh_beforeSha event)
    None None
    (if closes then None else current ≫= ln_currentDeploymentId)
    (if closes then None else current ≫= ln_currentGeneration) None.

Definition transitionPreviewLineage (current : option PreviewLineageRecord) (event : PreviewWebhook) (identity : PreviewIdentity) (id : string)
    : result PreviewTransition :=
  let advance :=
    plan ← previewRuntimePlan (plan_input (pi_serviceId identity) (pi_projectId identity) (pi_organizationId identity)
                                 (wh_pullRequestNumber event) JUndef (pi_baseDomain identity));
    Ok (mkTransition (if decide (wh_action event = closed) then close else open_) (next_lineage current event identity id plan) false) in
  match current with
  | None => advance
  | Some l =>
      if before (wh_updatedAt event) (ln_eventUpdatedAt l) then Ok (mkTransition stale l false)
      else if same_instant (wh_updatedAt event) (ln_eventUpdatedAt l) then
        if decide (lineage_key l = semanticKey event) then Ok (mkTransition duplicate l false)
        else if decide (ln_state l = AMBIGUOUS) then Ok (mkTransition duplicate l false)
        else Ok (mkTransition ambiguous
                   (l <| ln_state := AMBIGUOUS |> <| ln_version := ln_version l + 1 |>
                      <| ln_candidateDeploymentId := None |> <| ln_candidateGeneration := None |>) true)
      else advance
  end.

Definition applyPreviewObservation (current : PreviewLineageRecord) (observation : PreviewObservation) : result PreviewTransition :=
  _ ← throw_if (negb (bool_decide (ob_lineageId observation = ln_id current)) || negb (ob_lineageVersion observation =? ln_version current)
                || negb (bool_decide (ob_installationId observation = ln_installationId current))
                || negb (bool_decide (ob_repositoryId observation = ln_repositoryId current))
                || negb (ob_pullRequestNumber observation =? ln_pullRequestNumber current)) (PreviewLifecycleError "PREVIEW_FOREIGN");
  if before (ob_updatedAt observation) (ln_eventUpdatedAt current) then Ok (mkTransition stale current false)
  else
    let closes := ob_closed observation in
    Ok (mkTransition (if closes then close else open_)
      (current <| ln_state := if closes then CLOSED else OPEN |> <| ln_version := ln_version current + 1 |>
               <| ln_generation := if closes then ln_generation current else ln_generation current + 1 |>
               <| ln_eventUpdatedAt := ob_updatedAt observation |> <| ln_eventAction := "resolved" |> <| ln_headSha := ob_headSha observation |>
               <| ln_headRef := ob_headRef observation |> <| ln_baseRef := ob_baseRef observation |> <| ln_beforeSha := Some (ln_headSha current) |>
               <| ln_candidateDeploymentId := None |> <| ln_candidateGeneration := None |>
               <| ln_currentDeploymentId := if closes then None else ln_currentDeploymentId current |>
               <| ln_currentGeneration := if closes then None else ln_currentGeneration current |>) false).
End Times.

(** [lineage.stableHost.split('.').slice(1).join('.')] *)
Definition domain_of (stableHost : string) : string := JsVal.join "." (tail (split_on "."%char stableHost)).

Definition createPreviewRuntime (lineage : PreviewLineageRecord) (deploymentId : string) (baseDomain : option string) : result PreviewRuntime :=
  plan ← previewRuntimePlan (plan_input (ln_serviceId lineage) (ln_projectId lineage) (ln_organizationId lineage)
                               (ln_pullRequestNumber lineage) (JStr deploymentId) baseDomain);
  probeHost ← previewProbeHost sha256_hex (ln_id lineage) deploymentId (default (domain_of (ln_stableHost lineage)) baseDomain);
  Ok (mkRuntime (ln_id lineage) deploymentId (ln_generation lineage) (ln_version lineage) (ln_stableHost lineage) probeHost
        (ln_namespace lineage) (pl_workloadName plan) (pl_serviceName plan) (pl_ingressName plan) (ln_routeName lineage)).
End Plans.

Definition assertPreviewRetry (lineage : option PreviewLineageRecord) (source : jsobj) : result PreviewLineageRecord :=
  match lineage with
  | None => Throw (PreviewLifecycleError "PREVIEW_LEGACY")
  | Some l =>
      _ ← throw_if (negb (truthy (obj_get "previewLineageId" source)) || negb (truthy (obj_get "previewRuntime" source))) (PreviewLifecycleError "PREVIEW_LEGACY");
      _ ← throw_if (negb (bool_decide (as_string (obj_get "previewLineageId" source) = Some (ln_id l)))
                    || negb (bool_decide (as_string (obj_get "serviceId" source) = Some (ln_serviceId l)))
                    || negb (bool_decide (as_string (obj_get "projectId" source) = Some (ln_projectId l)))) (PreviewLifecycleError "PREVIEW_FOREIGN");
      _ ← throw_if (bool_decide (ln_state l = CLOSED)) (PreviewLifecycleError "PREVIEW_CLOSED");
      _ ← throw_if (bool_decide (ln_state l = AMBIGUOUS)) (PreviewLifecycleError "PREVIEW_AMBIGUOUS");
      _ ← throw_if (negb (bool_decide (as_string (obj_get "commitSha" source) = Some (ln_headSha l)))) (PreviewLifecycleError "PREVIEW_STALE");
      Ok l
  end.

Definition resolverPayload (lineage : PreviewLineageRecord) : jsobj :=
  [("version", JNum (NInt 1)); ("lineageId", JStr (ln_id lineage)); ("lineageVersion", JNum (NInt (ln_version lineage)))].
Definition resolverJobId (lineage : PreviewLineageRecord) : string := "preview-resolve:" +:+ ln_id lineage +:+ ":" +:+ pretty (ln_version lineage).
Definition applyJobId (observation : PreviewObservation) : string := "preview-apply:" +:+ ob_lineageId observation +:+ ":" +:+ pretty (ob_lineageVersion observation).
Definition previewCloseIntent (lineage : PreviewLineageRecord) (randomUUID : string) : RouteIntent :=
  mkIntent (ln_version lineage) "clear" randomUUID (ln_namespace lineage) (ln_routeName lineage).

Close Scope Z_scope.
