(* ===== verification/PreviewSafety.v ===== *)
(** * Properties of preview lineages

    Webhooks of a pull request may be delivered in any order and more than
    once: the lineage ends up the same.  Versions fence observations, and a
    closed preview has no deployment. *)

From Stdlib Require Import QArith.
From S2P Require Import Prelude JsString JsMap JsVal Ids Workflows ControlPlane Domains DomainRouter PreviewContract PreviewLineage.
From stdpp Require Import pretty.

Open Scope Z_scope.

(** ** What an accepted event looks like *)

Lemma text_Ok v pattern limit s : text v pattern limit = Ok s <-> v = JStr s /\ pattern s = true /\ (length (chars s) <= limit)%nat.
Proof.
  destruct v as [| | | |t| |]; cbn [text]; try (split; [done|intros (? & _); done]).
  destruct (limit <? length (chars t))%nat eqn:E1; cbn [orb].
  - apply Nat.ltb_lt in E1. split; [done|]. intros ([= ->] & _ & ?). lia.
  - apply Nat.ltb_ge in E1. destruct (pattern t) eqn:E2; cbn [negb]; split; try done; intros H; [by injection H as -> | by destruct H as ([= ->] & _)
      | by destruct H as ([= ->] & ? & _); congruence].
Qed.

Definition no_nul (s : string) : Prop := chr 0 ∉ chars s.

Lemma class_no_nul (p : ascii -> bool) s : p (chr 0) = false -> forallb p (chars s) = true -> no_nul s.
Proof. intros H0 Hf Hin. rewrite forallb_forall in Hf. apply list_elem_of_In, Hf in Hin. congruence. Qed.

Lemma sha_no_nul s : shaPattern s = true -> no_nul s.
Proof.
  unfold shaPattern, class_pattern. cbv zeta. intros [H|H]%orb_true_iff; apply andb_true_iff in H as [_ H]; by apply (class_no_nul is_lower_hex).
Qed.

Lemma ref_no_nul v s : ref v = Ok s -> no_nul s.
Proof.
  unfold ref. intros (t & Ht & H)%bind_Ok. apply bind_Ok in H as (_ & _ & [= <-]). apply text_Ok in Ht as (_ & Hp & _).
  apply andb_true_iff in Hp as [_ Hp]. by apply (class_no_nul ref_char).
Qed.

Lemma empty_no_nul : no_nul "".
Proof. apply not_elem_of_nil. Qed.

Lemma action_no_nul a : no_nul (action_text a).
Proof. unfold no_nul. destruct a; (apply (bool_decide_unpack _); vm_compute; exact I). Qed.

Section Lineages.
Context (sha256_hex : string -> string) (dateParse : string -> option Z).

Lemma timestamp_instant v s : parse_timestamp dateParse v = Ok s -> exists t, dateParse s = Some t /\ toISOString t = with_millis s.
Proof.
  unfold parse_timestamp. intros (u & _ & H)%bind_Ok. destruct (dateParse u) as [t|] eqn:E; [|done].
  case_bool_decide as Ht; [|done]. injection H as <-. by exists t.
Qed.

(** An event the parser let through. *)
Definition accepted (event : PreviewWebhook) : Prop := exists input, parsePreviewWebhookPayload dateParse input = Ok event.

Record event_facts (e : PreviewWebhook) : Prop := {
  ef_instant : exists t, dateParse (wh_updatedAt e) = Some t;
  ef_before : forall s, wh_beforeSha e = Some s -> no_nul s /\ s <> "";
  ef_headSha : no_nul (wh_headSha e);
  ef_headRef : no_nul (wh_headRef e);
  ef_baseRef : no_nul (wh_baseRef e)
}.

Lemma accepted_facts e : accepted e -> event_facts e.
Proof.
  intros (input & H). unfold parsePreviewWebhookPayload in H. repeat (apply bind_Ok in H as (? & ? & H)). injection H as <-.
  repeat match goal with
    | H : text _ _ _ = Ok _ |- _ => apply text_Ok in H as (_ & ? & _)
    | H : ref _ = Ok _ |- _ => apply ref_no_nul in H
    | H : parse_timestamp _ _ = Ok _ |- _ => apply timestamp_instant in H as (? & ? & _)
    end.
  split; cbn [wh_updatedAt wh_beforeSha wh_headSha wh_headRef wh_baseRef]; eauto using sha_no_nul.
  intros s ->. match goal with H : before_sha _ = Ok (Some s) |- _ => rename H into Hb end.
  assert (shaPattern s = true) as Hs.
  { unfold before_sha in Hb. destruct (obj_get "beforeSha" _); try discriminate; apply bind_Ok in Hb as (? & Hb%text_Ok & [= ->]); by destruct Hb as (_ & ? & _). }
  split; [by apply sha_no_nul|]. by intros ->.
Qed.

(** ** Keys of events *)

Lemma join_nul_inj a l b k : no_nul a -> no_nul b -> l <> [] -> k <> [] ->
  JsVal.join nul (a :: l) = JsVal.join nul (b :: k) -> a = b /\ JsVal.join nul l = JsVal.join nul k.
Proof.
  intros Ha Hb Hl Hk E%(f_equal chars). destruct l as [|x l]; [done|]. destruct k as [|y k]; [done|].
  change (JsVal.join nul (a :: x :: l)) with (a +:+ nul +:+ JsVal.join nul (x :: l)) in E.
  change (JsVal.join nul (b :: y :: k)) with (b +:+ nul +:+ JsVal.join nul (y :: k)) in E.
  rewrite !chars_app in E. cbn [app chars nul unchars String.string_of_list_ascii String.list_ascii_of_string] in E.
  apply (f_equal (split_chars (chr 0))) in E as E'. rewrite !split_chars_sep in E' by done. injection E' as E1 _.
  assert (a = b) as -> by (rewrite <- (unchars_chars a), <- (unchars_chars b); by rewrite E1). split; [done|].
  apply app_inv_head in E. injection E as E. rewrite <- (unchars_chars (JsVal.join nul (x :: l))), <- (unchars_chars (JsVal.join nul (y :: k))).
  by f_equal.
Qed.

(** Equal keys mean the same action, commits and branches. *)
Lemma semanticKey_inj e f : event_facts e -> event_facts f -> semanticKey e = semanticKey f ->
  wh_action e = wh_action f /\ wh_headSha e = wh_headSha f /\ wh_beforeSha e = wh_beforeSha f
  /\ wh_headRef e = wh_headRef f /\ wh_baseRef e = wh_baseRef f.
Proof.
  intros [_ Be He1 He2 He3] [_ Bf Hf1 Hf2 Hf3] E. unfold semanticKey, key_text in E.
  apply join_nul_inj in E as [Ea E]; [|apply action_no_nul|apply action_no_nul|done|done].
  apply join_nul_inj in E as [Es E]; [|done..].
  apply join_nul_inj in E as [Eb E]; [| | |done|done].
  2: { destruct (wh_beforeSha e) as [s|] eqn:Es'; [by apply (Be s)|apply empty_no_nul]. }
  2: { destruct (wh_beforeSha f) as [s|] eqn:Es'; [by apply (Bf s)|apply empty_no_nul]. }
  apply join_nul_inj in E as [Er E]; [|done..]. split_and!; [|done| |done|exact E].
  - by destruct (wh_action e), (wh_action f).
  - destruct (wh_beforeSha e) as [s|] eqn:E1, (wh_beforeSha f) as [t|] eqn:E2; cbn in Eb; [by subst| | |done].
    + subst s. by destruct (Be "" eq_refl).
    + subst t. by destruct (Bf "" eq_refl).
Qed.

(** ** Totality *)

Lemma plan_total service project organization number deployment base :
  exists plan, previewRuntimePlan sha256_hex (plan_input service project organization number deployment base) = Ok plan.
Proof. eexists. reflexivity. Qed.

(** The two ways an event is handled: it leaves the lineage alone, or moves it. *)
Lemma transition_cases current e identity id : exists t, transitionPreviewLineage sha256_hex dateParse current e identity id = Ok t
  /\ match current with
     | None => exists plan, tr_lineage t = next_lineage sha256_hex None e identity id plan
     | Some l =>
         if before dateParse (wh_updatedAt e) (ln_eventUpdatedAt l) then t = mkTransition stale l false
         else if same_instant dateParse (wh_updatedAt e) (ln_eventUpdatedAt l) then
           if decide (lineage_key l = semanticKey e \/ ln_state l = AMBIGUOUS) then t = mkTransition duplicate l false
           else t = mkTransition ambiguous (l <| ln_state := AMBIGUOUS |> <| ln_version := ln_version l + 1 |>
                                             <| ln_candidateDeploymentId := None |> <| ln_candidateGeneration := None |>) true
         else exists plan, t = mkTransition (if decide (wh_action e = closed) then close else open_) (next_lineage sha256_hex (Some l) e identity id plan) false
     end.
Proof.
  destruct (plan_total (pi_serviceId identity) (pi_projectId identity) (pi_organizationId identity) (wh_pullRequestNumber e) JUndef (pi_baseDomain identity)) as [plan Hp].
  unfold transitionPreviewLineage. cbv zeta. rewrite Hp. destruct current as [l|]; [|eexists; split; [reflexivity|by exists plan]].
  destruct (before _ _ _); [by eexists|]. destruct (same_instant _ _ _).
  - destruct (decide (lineage_key l = semanticKey e)) as [E|E]; [eexists; split; [reflexivity|]; rewrite decide_True by (by left); done|].
    destruct (decide (ln_state l = AMBIGUOUS)) as [E'|E']; [eexists; split; [reflexivity|]; rewrite decide_True by (by right); done|].
    eexists. split; [reflexivity|]. rewrite decide_False by (by intros [?|?]). done.
  - eexists. split; [reflexivity|]. by exists plan.
Qed.

(** ** Convergence *)

Context (identity : PreviewIdentity) (id : string).

Definition deliver (current : option PreviewLineageRecord) (e : PreviewWebhook) : option PreviewLineageRecord :=
  match transitionPreviewLineage sha256_hex dateParse current e identity id with Ok t => Some (tr_lineage t) | Throw _ => current end.

Definition deliveries (events : list PreviewWebhook) : option PreviewLineageRecord := foldl deliver None events.

(** The lineage shows a latest event, and is ambiguous exactly when two latest events differ. *)
Definition shows (events : list PreviewWebhook) (l : PreviewLineageRecord) : Prop :=
  exists e t, e ∈ events /\ dateParse (wh_updatedAt e) = Some t /\ dateParse (ln_eventUpdatedAt l) = Some t
    /\ lineage_key l = semanticKey e /\ ln_headSha l = wh_headSha e
    /\ (forall f u, f ∈ events -> dateParse (wh_updatedAt f) = Some u -> u <= t)
    /\ (ln_state l = AMBIGUOUS <-> exists f, f ∈ events /\ dateParse (wh_updatedAt f) = Some t /\ semanticKey f <> semanticKey e)
    /\ (ln_state l <> AMBIGUOUS -> ln_state l = if decide (wh_action e = closed) then CLOSED else OPEN).

Lemma next_lineage_shows current events e plan t :
  dateParse (wh_updatedAt e) = Some t -> (forall f u, f ∈ events -> dateParse (wh_updatedAt f) = Some u -> u < t) ->
  shows (events ++ [e]) (next_lineage sha256_hex current e identity id plan).
Proof.
  intros Ht Hlt. exists e, t. split_and!; try done.
  - apply elem_of_app. right. by left.
  - intros f u [Hf|Hf]%elem_of_app Hu; [specialize (Hlt f u Hf Hu); lia|]. apply list_elem_of_singleton in Hf as ->. assert (u = t) by congruence. lia.
  - cbn [ln_state next_lineage]. split; [by case_bool_decide|]. intros (f & [Hf|Hf]%elem_of_app & Hu & Hne).
    + specialize (Hlt f t Hf Hu). lia.
    + by apply list_elem_of_singleton in Hf as ->.
  - intros _. cbn [ln_state next_lineage]. by case_bool_decide; case_decide.
Qed.

(** An event that leaves the lineage alone is shown by it too, when it is older
    or says the same, or the lineage is ambiguous at its instant. *)
Lemma shows_ignored events l e t u :
  shows events l -> dateParse (ln_eventUpdatedAt l) = Some t -> dateParse (wh_updatedAt e) = Some u -> u <= t ->
  (u = t -> lineage_key l = semanticKey e \/ ln_state l = AMBIGUOUS) -> shows (events ++ [e]) l.
Proof.
  intros (e0 & t0 & Hin & He0 & Hl & Hk & Hs & Hmax & Hamb & Hst) Ht Hu Hle Hc. assert (t0 = t) as -> by congruence.
  exists e0, t. split_and!; try done.
  - apply elem_of_app. by left.
  - intros f v [Hf|Hf]%elem_of_app Hv; [by eapply Hmax|]. apply list_elem_of_singleton in Hf as ->. assert (v = u) by congruence. lia.
  - rewrite Hamb. split; intros (f & Hf & Hv & Hne); [exists f; split; [apply elem_of_app; by left|done]|].
    apply elem_of_app in Hf as [Hf|Hf]; [by exists f|]. apply list_elem_of_singleton in Hf as ->. assert (u = t) as -> by congruence.
    destruct (Hc eq_refl) as [Hc'|Hc']; [congruence|by apply Hamb].
Qed.

Lemma deliver_shows events l e : shows events l -> event_facts e -> exists l', deliver (Some l) e = Some l' /\ shows (events ++ [e]) l'.
Proof.
  intros Hsh [(u & Hu) _ _ _ _]. unfold deliver. destruct (transition_cases (Some l) e identity id) as (t & -> & Ht). eexists. split; [reflexivity|].
  pose proof Hsh as (e0 & t0 & Hin & He0 & Hl & Hk & Hs & Hmax & Hamb & Hst). revert Ht. unfold before, same_instant. rewrite Hu, Hl.
  destruct (u <? t0) eqn:Elt; [|destruct (u =? t0) eqn:Eeq].
  - apply Z.ltb_lt in Elt. intros ->. eapply shows_ignored; [done|done|done|lia|lia].
  - apply Z.eqb_eq in Eeq as ->. destruct (decide (lineage_key l = semanticKey e \/ ln_state l = AMBIGUOUS)) as [Hd|Hd]; intros ->; [by eapply shows_ignored; [..|intros _]|].
    exists e0, t0. split_and!; try done.
    + apply elem_of_app. by left.
    + intros f v [Hf|Hf]%elem_of_app Hv; [by eapply Hmax|]. apply list_elem_of_singleton in Hf as ->. assert (v = t0) by congruence. lia.
    + cbn [ln_state]. split; [intros _|done]. exists e. split; [apply elem_of_app; right; by left|]. split; [done|].
      intros E. apply Hd. left. congruence.
  - apply Z.ltb_ge in Elt. apply Z.eqb_neq in Eeq. intros (plan & ->). apply (next_lineage_shows _ _ _ _ u); [done|].
    intros f v Hf Hv. specialize (Hmax f v Hf Hv). lia.
Qed.

Lemma deliver_first e : event_facts e -> exists l, deliver None e = Some l /\ shows [e] l.
Proof.
  intros [(u & Hu) _ _ _ _]. unfold deliver. destruct (transition_cases None e identity id) as (t & -> & plan & Ht). exists (tr_lineage t). split; [done|].
  rewrite Ht. apply (next_lineage_shows None [] e plan u); [done|]. intros f v Hf. by apply not_elem_of_nil in Hf.
Qed.

Lemma deliveries_shows events : Forall event_facts events -> events <> [] -> exists l, deliveries events = Some l /\ shows events l.
Proof.
  induction events as [|e events IH] using rev_ind; [done|]. intros [Hf He]%Forall_app _. apply Forall_cons in He as [He _].
  unfold deliveries. rewrite foldl_app. cbn [foldl]. fold (deliveries events).
  destruct (decide (events = [])) as [-> |Hne]; [by apply deliver_first|]. destruct (IH Hf Hne) as (l & -> & Hsh). by apply deliver_shows.
Qed.

Lemma shows_ambiguous events events' l l' : events ≡ₚ events' -> shows events l -> shows events' l' ->
  dateParse (ln_eventUpdatedAt l) = dateParse (ln_eventUpdatedAt l') /\ (ln_state l = AMBIGUOUS -> ln_state l' = AMBIGUOUS).
Proof.
  intros Hperm (e & t & Hin & He & Ht & Hk & Hs & Hmax & Hamb & Hst) (f & u & Hin' & Hf & Hu & Hk' & Hs' & Hmax' & Hamb' & Hst').
  assert (t = u) as ->.
  { assert (t <= u) by (apply (Hmax' e t); [by rewrite <- Hperm|done]). assert (u <= t) by (apply (Hmax f u); [by rewrite Hperm|done]). lia. }
  split; [congruence|]. intros (g & Hg & Hgu & Hne)%Hamb. apply Hamb'.
  destruct (decide (semanticKey g = semanticKey f)) as [Heq|Hd].
  - exists e. split; [by rewrite <- Hperm|]. split; [done|]. congruence.
  - exists g. split; [by rewrite <- Hperm|done].
Qed.

(** C34. Delivering the same accepted events of a pull request in any two orders
    ends in lineages with the same instant and the same state.  That state is
    ambiguous exactly when two different events share the latest instant, and
    then the commit may be that of either; otherwise state and commit are those
    of the latest event, in every order. *)
Theorem deliveries_converge events events' :
  Forall accepted events -> events <> [] -> events ≡ₚ events' ->
  exists l l', deliveries events = Some l /\ deliveries events' = Some l'
    /\ dateParse (ln_eventUpdatedAt l) = dateParse (ln_eventUpdatedAt l') /\ ln_state l = ln_state l'
    /\ (ln_state l <> AMBIGUOUS -> ln_headSha l = ln_headSha l')
    /\ shows events l.
Proof.
  intros Hacc Hne Hperm.
  assert (Forall event_facts events) as Hf by (eapply Forall_impl; [exact Hacc|apply accepted_facts]).
  assert (Forall event_facts events') as Hf' by by rewrite <- Hperm.
  assert (events' <> []) as Hne' by (intros ->; by apply Permutation_nil_r in Hperm).
  destruct (deliveries_shows events Hf Hne) as (l & Hl & Hsh). destruct (deliveries_shows events' Hf' Hne') as (l' & Hl' & Hsh').
  exists l, l'. destruct (shows_ambiguous _ _ _ _ Hperm Hsh Hsh') as [Htime Ha].
  destruct (shows_ambiguous _ _ _ _ (Permutation_sym Hperm) Hsh' Hsh) as [_ Ha'].
  split_and!; [done|done|done| | |done]; destruct (decide (ln_state l = AMBIGUOUS)) as [E|E]; [by rewrite E, Ha| |done|intros _].
  all: destruct Hsh as (e & t & Hin & He & Ht & _ & Hs & _ & Hamb & Hst), Hsh' as (f & u & Hin' & Hfu & Hu & _ & Hs' & _ & Hamb' & Hst').
  all: assert (semanticKey f = semanticKey e) as Hkeys
    by (destruct (decide (semanticKey f = semanticKey e)); [done|]; exfalso; apply E, Hamb; exists f; split_and!; [by rewrite Hperm|congruence|done]).
  all: rewrite Forall_forall in Hf, Hf'; apply semanticKey_inj in Hkeys as (Hac & Hhead & _); [|by apply Hf'|by apply Hf].
  - rewrite Hst, Hst' by naive_solver. by rewrite Hac.
  - congruence.
Qed.

(** ** Runs of a lineage *)

(** What moves a lineage: an event, an observation of the pull request, a new
    candidate deployment of an open lineage, the route to clear of a closed
    one, a requested cleanup. *)
Inductive lineage_step (l : PreviewLineageRecord) : PreviewLineageRecord -> Prop :=
| step_event e who t : transitionPreviewLineage sha256_hex dateParse (Some l) e who (ln_id l) = Ok t -> lineage_step l (tr_lineage t)
| step_observation o t : applyPreviewObservation dateParse l o = Ok t -> lineage_step l (tr_lineage t)
| step_candidate deploymentId : ln_state l = OPEN ->
    lineage_step l (l <| ln_candidateDeploymentId := Some deploymentId |> <| ln_candidateGeneration := Some (ln_generation l) |>)
| step_intent intent : ln_state l = CLOSED -> lineage_step l (l <| ln_routeIntent := intent |>)
| step_cleanup intent : ln_state l <> CLOSED ->
    lineage_step l (l <| ln_state := CLOSED |> <| ln_version := ln_version l + 1 |> <| ln_candidateDeploymentId := None |>
                      <| ln_candidateGeneration := None |> <| ln_currentDeploymentId := None |> <| ln_currentGeneration := None |>
                      <| ln_routeIntent := intent |>).

(** No deployment serves or waits while the preview is closed, and none waits
    while it is ambiguous; a candidate belongs to the current generation. *)
Definition lineage_ok (l : PreviewLineageRecord) : Prop :=
  (ln_state l <> OPEN -> ln_candidateDeploymentId l = None /\ ln_candidateGeneration l = None)
  /\ (ln_state l = CLOSED -> ln_currentDeploymentId l = None /\ ln_currentGeneration l = None)
  /\ (ln_candidateGeneration l = None \/ ln_candidateGeneration l = Some (ln_generation l)).

(** Where the preview is reachable. *)
Definition addresses (l : PreviewLineageRecord) : list string := [ln_id l; ln_stableHost l; ln_namespace l; ln_routeName l].

Lemma lineage_step_effect l l' : lineage_step l l' -> lineage_ok l ->
  lineage_ok l' /\ addresses l' = addresses l /\ ln_generation l <= ln_generation l' /\ ln_version l <= ln_version l'.
Proof.
  clear identity id. intros [e who t Ht|o t Ht|dep Hs|intent Hs|intent Hs] (H1 & H2 & H3).
  - destruct (transition_cases (Some l) e who (ln_id l)) as (t' & Ht' & Hc). rewrite Ht in Ht'. injection Ht' as <-. revert Hc.
    destruct (before _ _ _); [intros ->; cbn; split_and!; [done|done|lia|lia]|].
    destruct (same_instant _ _ _); [destruct (decide (lineage_key l = semanticKey e \/ ln_state l = AMBIGUOUS)); intros ->|intros (plan & ->)]; cbn [tr_lineage].
    + split_and!; [done|done|lia|lia].
    + split_and!; [split_and!; cbn; naive_solver|done|cbn; lia|cbn; lia].
    + split_and!; [|done|cbn; case_bool_decide; lia|cbn; lia].
      split_and!; cbn; [done| |by left]. case_bool_decide; naive_solver.
  - apply bind_Ok in Ht as (_ & _ & Ht). destruct (before _ _ _); injection Ht as <-; cbn [tr_lineage].
    + split_and!; [done|done|lia|lia].
    + split_and!; [|done|cbn; destruct (ob_closed o); lia|cbn; lia]. split_and!; cbn; [done| |by left]. by destruct (ob_closed o).
  - split_and!; [|done|cbn; lia|cbn; lia]. split_and!; cbn; [intros ?; congruence|intros ?; congruence|by right].
  - split_and!; [split_and!; cbn; naive_solver|done|cbn; lia|cbn; lia].
  - split_and!; [|done|cbn; lia|cbn; lia]. split_and!; cbn; [done|done|by left].
Qed.

Lemma run_effect l l' : rtc lineage_step l l' -> lineage_ok l ->
  lineage_ok l' /\ addresses l' = addresses l /\ ln_generation l <= ln_generation l' /\ ln_version l <= ln_version l'.
Proof.
  induction 1 as [l|l m l' Hs _ IH]; intros Hok; [split_and!; done || lia|].
  destruct (lineage_step_effect _ _ Hs Hok) as (Hok' & Ha & Hg & Hv). destruct (IH Hok') as (IH1 & IH2 & IH3 & IH4).
  split_and!; [done|congruence|lia|lia].
Qed.

Lemma first_lineage_ok e t : transitionPreviewLineage sha256_hex dateParse None e identity id = Ok t -> lineage_ok (tr_lineage t).
Proof.
  intros Ht. destruct (transition_cases None e identity id) as (t' & Ht' & plan & E). rewrite Ht in Ht'. injection Ht' as <-. rewrite E.
  split_and!; cbn; [done| |by left]. by case_bool_decide.
Qed.

(** A preview keeps its address, and its deployments follow its state: from
    the first event on, through every run of events, observations, candidate
    deployments and cleanups, the identifier, hostname, namespace and route
    stay the same, no deployment serves or waits in a closed preview, and a
    waiting one belongs to the latest generation; and once the lineage has
    moved to a newer version, every observation made for the older version is
    refused. *)
Theorem lineage_fenced e t l l' o :
  transitionPreviewLineage sha256_hex dateParse None e identity id = Ok t ->
  rtc lineage_step (tr_lineage t) l -> rtc lineage_step l l' ->
  lineage_ok l' /\ addresses l' = addresses (tr_lineage t)
  /\ (ln_version l < ln_version l' -> ob_lineageVersion o <= ln_version l ->
      applyPreviewObservation dateParse l' o = Throw (PreviewLifecycleError "PREVIEW_FOREIGN")).
Proof.
  intros Ht H1 H2. destruct (run_effect _ _ H1 (first_lineage_ok _ _ Ht)) as (Hok & Ha & _).
  destruct (run_effect _ _ H2 Hok) as (Hok' & Ha' & _). split_and!; [done|congruence|]. intros Hlt Ho.
  unfold applyPreviewObservation. assert ((ob_lineageVersion o =? ln_version l') = false) as -> by (apply Z.eqb_neq; lia).
  cbn [negb]. by rewrite orb_true_r.
Qed.

(** The state a decision leaves. *)
Lemma transition_state current e who key t : transitionPreviewLineage sha256_hex dateParse current e who key = Ok t ->
  (forall l, current = Some l -> ln_id l = key) ->
  ln_id (tr_lineage t) = key
  /\ (tr_decision t = open_ -> ln_state (tr_lineage t) = OPEN) /\ (tr_decision t = close -> ln_state (tr_lineage t) = CLOSED).
Proof.
  intros Ht Hk. unfold transitionPreviewLineage in Ht. cbv zeta in Ht.
  assert (forall plan, let l' := next_lineage sha256_hex current e who key plan in
     ln_state l' = (if decide (wh_action e = closed) then CLOSED else OPEN)) as Hn by (intros plan; clear Ht; cbv zeta; cbn [ln_state next_lineage]; by case_bool_decide; case_decide).
  destruct (plan_total (pi_serviceId who) (pi_projectId who) (pi_organizationId who) (wh_pullRequestNumber e) JUndef (pi_baseDomain who)) as [plan Hp].
  rewrite Hp in Ht. cbn [mbind result_bind] in Ht. destruct current as [l|].
  - specialize (Hk l eq_refl). destruct (before _ _ _); [injection Ht as <-; by cbn|].
    destruct (same_instant _ _ _); [destruct (decide _); [|destruct (decide _)]; injection Ht as <-; by cbn|].
    injection Ht as <-. cbn [tr_lineage tr_decision]. rewrite Hn. split; [done|]. by destruct (decide _).
  - injection Ht as <-. cbn [tr_lineage tr_decision]. rewrite Hn. split; [done|]. by destruct (decide _).
Qed.
End Lineages.

(** ** Stored events are read back *)

Section Stored.
Context (dateParse : string -> option Z).

Lemma text_again v pattern limit s : text v pattern limit = Ok s -> text (JStr s) pattern limit = Ok s.
Proof. rewrite !text_Ok. naive_solver. Qed.

Lemma positive_again v z : positive_integer v = Ok z -> positive_integer (JNum (NInt z)) = Ok z.
Proof.
  unfold positive_integer. destruct (as_integer v) as [y|]; [|done]. destruct (safe_integer y && (0 <? y)) eqn:E; [|done].
  intros [= ->]. cbn [as_integer]. by rewrite E.
Qed.

Lemma numericId_again v s : numericId v = Ok s -> numericId (JStr s) = Ok s.
Proof.
  unfold numericId. intros (t & Ht & H)%bind_Ok. apply bind_Ok in H as (u & Hu & [= ->]).
  rewrite (text_again _ _ _ _ Ht). cbn [mbind result_bind]. by rewrite Hu.
Qed.

Lemma ref_again v s : ref v = Ok s -> ref (JStr s) = Ok s.
Proof.
  unfold ref. intros (t & Ht & H)%bind_Ok. apply bind_Ok in H as (u & Hu & [= ->]).
  rewrite (text_again _ _ _ _ Ht). cbn [mbind result_bind]. by rewrite Hu.
Qed.

Lemma timestamp_again v s : parse_timestamp dateParse v = Ok s -> parse_timestamp dateParse (JStr s) = Ok s.
Proof.
  unfold parse_timestamp. intros (t & Ht & H)%bind_Ok. assert (t = s) as -> by (destruct (dateParse t); [case_bool_decide|]; congruence).
  rewrite (text_again _ _ _ _ Ht). exact H.
Qed.

Lemma split_chars_fmap (f : ascii -> ascii) c (l : list ascii) : (forall x, Ascii.eqb (f x) c = Ascii.eqb x c) ->
  split_chars c (f <$> l) = (fmap f : list ascii -> list ascii) <$> split_chars c l.
Proof.
  intros Hf. induction l as [|x l IH]; [done|]. cbn [fmap list_fmap split_chars]. rewrite Hf, IH.
  destruct (Ascii.eqb x c); [done|]. by destruct (split_chars c l).
Qed.

Lemma all_hex_lower n (l : list ascii) : all_hex n (lower_char <$> l) = all_hex n l.
Proof.
  unfold all_hex. rewrite length_fmap. f_equal. induction l as [|c l IH]; [done|]. cbn [fmap list_fmap forallb].
  unfold any_hex at 1. by rewrite lower_char_idem, IH.
Qed.

Lemma uuid_lower s : uuidPattern (toLowerCase s) = uuidPattern s.
Proof.
  unfold uuidPattern, uuid_groups, toLowerCase. rewrite chars_unchars, split_chars_fmap by (intros x; by char_cases x).
  assert (forall v, in_range 49 56 (lower_char v) = in_range 49 56 v) as Hv by (intros v; by char_cases v).
  destruct (split_chars "-"%char (chars s)) as [|a [|b [|[|v c] [|[|r dd] [|e [|? ?]]]]]]; try done.
  cbn [fmap list_fmap]. by rewrite !all_hex_lower, Hv, lower_char_idem.
Qed.

Lemma delivery_again v s : text v uuidPattern 128 = Ok s -> text (JStr (toLowerCase s)) uuidPattern 128 = Ok (toLowerCase s).
Proof.
  rewrite !text_Ok, uuid_lower. intros (-> & Hp & Hl). split_and!; [done|done|]. unfold toLowerCase. by rewrite chars_unchars, length_fmap.
Qed.

Lemma before_again v b : before_sha v = Ok b -> before_sha (match b with Some s => JStr s | None => JNull end) = Ok b.
Proof.
  unfold before_sha. destruct v; intros H; try (injection H as <-; done); apply bind_Ok in H as (x & Hs & [= <-]); by rewrite (text_again _ _ _ _ Hs).
Qed.

Lemma action_again a : parse_action (JStr (action_text a)) = Ok a.
Proof. by destruct a. Qed.

(** Reading the canonical form looks at every field once. *)
Lemma parse_stored_form e :
  parsePreviewWebhookPayload dateParse (JObj (canonicalPreviewWebhook e)) =
    (action ← parse_action (JStr (action_text (wh_action e)));
     beforeSha ← before_sha (match wh_beforeSha e with Some s => JStr s | None => JNull end);
     _ ← throw_if (bool_decide (action = synchronize) && bool_decide (beforeSha = None)) invalid;
     deliveryId ← text (JStr (wh_deliveryId e)) uuidPattern 128;
     installationId ← numericId (JStr (wh_installationId e));
     repositoryId ← numericId (JStr (wh_repositoryId e));
     repository ← text (JStr (wh_repository e)) repositoryPattern 140;
     pullRequestNumber ← positive_integer (JNum (NInt (wh_pullRequestNumber e)));
     headSha ← text (JStr (wh_headSha e)) shaPattern 128;
     headRef ← ref (JStr (wh_headRef e));
     baseRef ← ref (JStr (wh_baseRef e));
     updatedAt ← parse_timestamp dateParse (JStr (wh_updatedAt e));
     Ok (mkWebhook (toLowerCase deliveryId) installationId repositoryId repository pullRequestNumber action headSha headRef baseRef beforeSha updatedAt)).
Proof. reflexivity. Qed.

(** The canonical form of an accepted webhook parses to it. *)
Lemma parse_again e : accepted dateParse e -> parsePreviewWebhookPayload dateParse (JObj (canonicalPreviewWebhook e)) = Ok e.
Proof.
  intros (input & H). unfold parsePreviewWebhookPayload in H.
  apply bind_Ok in H as (value & _ & H). apply bind_Ok in H as (action & _ & H). apply bind_Ok in H as (bs & Hb%before_again & H).
  apply bind_Ok in H as (g & Hg & H). apply bind_Ok in H as (delivery & Hd%delivery_again & H). apply bind_Ok in H as (inst & Hi%numericId_again & H).
  apply bind_Ok in H as (repo & Hr%numericId_again & H). apply bind_Ok in H as (name & Hn%text_again & H). apply bind_Ok in H as (num & Hnum%positive_again & H).
  apply bind_Ok in H as (sha & Hs%text_again & H). apply bind_Ok in H as (hr & Hhr%ref_again & H). apply bind_Ok in H as (br & Hbr%ref_again & H).
  apply bind_Ok in H as (upd & Hu%timestamp_again & H). injection H as <-.
  rewrite parse_stored_form. cbn [wh_action wh_beforeSha wh_deliveryId wh_installationId wh_repositoryId wh_repository wh_pullRequestNumber wh_headSha wh_headRef wh_baseRef wh_updatedAt].
  apply bind_Ok. exists action. split; [apply action_again|]. repeat (apply bind_Ok; eexists; split; [eassumption|]).
  by rewrite toLowerCase_idem.
Qed.

Lemma matches_again e f : accepted dateParse e -> previewWebhookPayloadMatches dateParse (JObj (canonicalPreviewWebhook e)) f = true <-> f = e.
Proof. intros H. unfold previewWebhookPayloadMatches. rewrite (parse_again e H), bool_decide_eq_true. split; by intros ->. Qed.

(** A stored event is read back as it was: the canonical form of every
    accepted webhook parses to the same webhook, so that a repeated delivery
    is recognized, and any other webhook under its identifier is not. *)
Theorem webhook_round_trip e f :
  accepted dateParse e -> parsePreviewWebhookPayload dateParse (JObj (canonicalPreviewWebhook e)) = Ok e
  /\ (previewWebhookPayloadMatches dateParse (JObj (canonicalPreviewWebhook e)) f = true <-> f = e).
Proof. intros H. split; [by apply parse_again|by apply matches_again]. Qed.

(** What the webhook parser returns is accepted. *)
Lemma webhook_accepted hmac_hex jsonParse input e : parsePreviewWebhook dateParse hmac_hex jsonParse input = Ok e -> accepted dateParse e.
Proof.
  unfold parsePreviewWebhook. cbv zeta. intros H.
  repeat match type of H with parsePreviewWebhookPayload _ _ = _ => fail 1 | _ => apply bind_Ok in H as (? & _ & H) end. by eexists.
Qed.
End Stored.

Close Scope Z_scope.
