(* ===== verification/PreviewWebhooks.v ===== *)
(** * Preview webhooks in the store ([packages/core/src/store.ts], with
    [parseGitHubRepository] of [github-integration.ts])

    The handler of pull request webhooks: which services a repository belongs
    to, whose quota counts, the lineage of every service, its deployments and
    jobs, and the rollback of everything when a step throws; and the cleanup
    of a preview on request. *)

From Stdlib Require Import QArith.
From S2P Require Import Prelude JsString JsMap JsVal Ids Accounts Membership Lifecycle Workflows ControlPlane Deployments Quotas DomainRouter PreviewContract PreviewLineage.
From stdpp Require Import pretty.

Open Scope Z_scope.

(** ** The store *)

Record WebhookRow := mkWebhookRow {
  we_id : string; we_eventType : string; we_deliveryId : string; we_payload : jsval; we_handled : bool; we_createdAt : Z
}.

#[export] Instance WebhookRow_rebuild : Rebuild WebhookRow := fun r =>
  mkWebhookRow (we_id r) (we_eventType r) (we_deliveryId r) (we_payload r) (we_handled r) (we_createdAt r).

Record PreviewStore := mkPreviewStore {
  pv_plane : ControlPlane;
  usageRecords : list jsobj;
  githubIntegrations : jsmap jsobj;
  githubRepositories : jsmap jsobj;
  previewLineages : jsmap PreviewLineageRecord;
  webhookEvents : jsmap WebhookRow
}.

#[export] Instance PreviewStore_rebuild : Rebuild PreviewStore := fun s =>
  mkPreviewStore (pv_plane s) (usageRecords s) (githubIntegrations s) (githubRepositories s) (previewLineages s) (webhookEvents s).

Definition on_plane {A} (m : M ControlPlane A) : M PreviewStore A := fun s =>
  let '(r, plane) := m (pv_plane s) in (r, s <| pv_plane := plane |>).

(** What [githubWebhookTransactionSnapshot] copies is put back. *)
Definition restoreGitHubWebhookTransaction (before s : PreviewStore) : PreviewStore :=
  let old := pv_plane before in
  let old_accounts := accounts (cp_workflow old) in
  s <| pv_plane := pv_plane s
         <| deployments := deployments old |> <| deploymentEvents := deploymentEvents old |>
         <| cp_workflow := mkWorkflowStore (accounts (cp_workflow (pv_plane s)) <| quotas := quotas old_accounts |> <| auditLogs := auditLogs old_accounts |>)
                             (workflowJobs (cp_workflow old)) |> |>
    <| githubIntegrations := githubIntegrations before |> <| githubRepositories := githubRepositories before |>
    <| previewLineages := previewLineages before |> <| webhookEvents := webhookEvents before |>.

(** ** Repositories *)

Definition lower_prefix (prefix : string) (l : list ascii) : option (list ascii) :=
  if prefixb (chars prefix) (lower_char <$> l) then Some (drop (length (chars prefix)) l) else None.

(** [\.git] at the end, whatever its case, after at least one character *)
Definition strip_git (l : list ascii) : list ascii :=
  if prefixb (rev (chars ".git")) (rev (lower_char <$> l)) && (4 <? length l)%nat then take (length l - 4) l else l.

Definition plain_segment (stop : list ascii) (l : list ascii) : bool :=
  negb (bool_decide (l = [])) && forallb (fun c => negb (is_space c) && negb (bool_decide (c ∈ stop))) l.

(** [owner/repo] with an optional [.git], and for URLs an optional query or
    fragment *)
Definition owner_and_repo (url : bool) (l : list ascii) : option (list ascii * list ascii) :=
  let '(owner, rest) := break_at (fun c => (code c =? 47)%N) l in
  match rest with
  | None => None
  | Some rest =>
      let '(name, query) := if url then break_at (fun c => (code c =? 63)%N || (code c =? 35)%N) rest else (rest, None) in
      if plain_segment [] owner && plain_segment ["/"; "#"; "?"]%char name
         && match query with Some q => forallb (fun c => negb ((code c =? 10)%N || (code c =? 13)%N)) q | None => true end
      then Some (owner, strip_git name) else None
  end.

(** [/^([^/\s]+)\/([^/\s]+)$/] *)
Definition slug_repository (l : list ascii) : option (list ascii * list ascii) :=
  let '(owner, rest) := break_at (fun c => (code c =? 47)%N) l in
  match rest with
  | Some name => if plain_segment [] owner && plain_segment ["/"%char] name then Some (owner, name) else None
  | None => None
  end.

(** [match[2].replace(/\.git$/i, '')], which may leave nothing *)
Definition drop_git (l : list ascii) : list ascii :=
  if prefixb (rev (chars ".git")) (rev (lower_char <$> l)) then take (length l - 4) l else l.

(** The owner and repository of a text; the full name and URL are made of them. *)
Definition parseGitHubRepository (value : jsval) : result (string * string) :=
  let text := trim (text_or_empty value) in
  let l := chars text in
  let https := match lower_prefix "https://github.com/" l with Some rest => owner_and_repo true rest | None => None end in
  let ssh := match lower_prefix "git@github.com:" l with Some rest => owner_and_repo false rest | None => None end in
  let match_ := match https with Some m => Some m | None => match ssh with Some m => Some m | None => slug_repository l end end in
  match match_ with
  | None => Throw (JsError "Error" ("unsupported GitHub repository: " +:+ text) (Some 400))
  | Some (owner, repo) => Ok (unchars owner, unchars (drop_git repo))
  end.

Definition repository_fullName (parsed : string * string) : string := parsed.1 +:+ "/" +:+ parsed.2.

Definition normalizeRepositoryId (value : jsval) : string :=
  let text := trim (text_or_empty value) in
  if str_empty text then ""
  else match parseGitHubRepository (JStr text) with
       | Ok parsed => toLowerCase (repository_fullName parsed)
       | Throw _ => let low := toLowerCase text in
                    if startsWith low "github:" then unchars (drop 7 (chars low)) else low
       end.

(** ** Services of a webhook *)

Record ActionPlan := mkActionPlan { ap_kind : string; ap_repositoryId : string; ap_installationId : string; ap_repository : string; ap_baseBranch : string }.

Definition object_of (v : jsval) : jsobj := entries v.
Definition desired_of (service : jsobj) : jsobj := object_of (obj_get "desiredState" service).
Definition github_of (service : jsobj) : jsobj := object_of (obj_get "github" (desired_of service)).

(** [String(service[a] || desired[a] || github[b] || '')] *)
Definition bound_to (a b : string) (service : jsobj) : jsval :=
  js_or (obj_get a service) (js_or (obj_get a (desired_of service)) (obj_get b (github_of service))).

Definition same_catalog_entry (plan : ActionPlan) (repository : jsobj) : Prop :=
  js_String (obj_get "githubRepoId" repository) = ap_repositoryId plan
  /\ js_String (obj_get "installationId" repository) = ap_installationId plan
  /\ normalizeRepositoryId (obj_get "fullName" repository) = normalizeRepositoryId (JStr (ap_repository plan)).

#[export] Instance same_catalog_entry_dec plan repository : Decision (same_catalog_entry plan repository).
Proof. unfold same_catalog_entry. apply _. Defined.

(** The plans of pull requests compare the base branch. *)
Definition serviceMatchesGitHubWebhook (service : jsobj) (plan : ActionPlan) (repositories : jsmap jsobj) : bool :=
  match js_find (same_catalog_entry plan) (map_values repositories) with
  | None => false
  | Some _ =>
      bool_decide (text_or_empty (bound_to "githubRepositoryId" "repositoryId" service) = ap_repositoryId plan)
      && bool_decide (text_or_empty (bound_to "githubInstallationId" "installationId" service) = ap_installationId plan)
      && bool_decide (normalizeRepositoryId (js_or (bound_to "githubRepository" "repository" service) (obj_get "repoUrl" service))
                      = normalizeRepositoryId (JStr (ap_repository plan)))
      && bool_decide (ap_baseBranch plan = js_String (js_or (obj_get "branch" service) (js_or (obj_get "branch" (desired_of service)) (JStr "main"))))
  end.

Definition inactive (v : jsval) : bool := bool_decide (toUpperCase (js_String v) ∈ ["DELETE_REQUESTED"; "DELETING"; "DELETED"]).

Definition project_of (service : jsobj) (s : PreviewStore) : option jsobj := map_get (js_String (obj_get "projectId" service)) (projects (pv_plane s)).

Definition servicesForGitHubWebhook (plan : ActionPlan) (s : PreviewStore) : list jsobj :=
  if bool_decide (ap_kind plan = "ignored") || str_empty (ap_repositoryId plan) || str_empty (ap_installationId plan) || str_empty (ap_repository plan) then []
  else filter (fun service =>
         negb (inactive (obj_get "status" service))
         && negb (inactive (match project_of service s with Some p => obj_get "status" p | None => JUndef end))
         && serviceMatchesGitHubWebhook service plan (githubRepositories s) = true) (map_values (services (pv_plane s))).

(** ** Quotas of a webhook *)

Section Hooks.
Context (sha256_hex : string -> string) (dateParse : string -> option Z) (fraction_text : Q -> string).
Context (hmac_hex : string -> string -> string) (jsonParse : string -> option jsval).

Definition integration_id (service : jsobj) : string := text_or_empty (bound_to "githubIntegrationId" "integrationId" service).

(** The account whose quota a deployment of the service counts against. *)
Definition quota_owner (service : jsobj) (plan : ActionPlan) (s : PreviewStore) : option string :=
  match project_of service s, (if str_empty (integration_id service) then None else map_get (integration_id service) (githubIntegrations s)) with
  | Some project, Some integration =>
      let owner := js_find (fun m => m_organizationId m = js_String (obj_get "organizationId" project) /\ toLowerCase (m_role m) = "owner")
                     (members (accounts (cp_workflow (pv_plane s)))) in
      let userId := if truthy (obj_get "userId" integration) then js_String (obj_get "userId" integration)
                    else match owner with Some m => m_userId m | None => "" end in
      if truthy (obj_get "verifiedAt" integration)
         && bool_decide (text_or_empty (obj_get "installationId" integration) = ap_installationId plan)
         && bool_decide (text_or_empty (obj_get "organizationId" integration) = text_or_empty (obj_get "organizationId" project))
         && negb (str_empty userId)
      then Some userId else None
  | _, _ => None
  end.

Definition service_id (service : jsobj) : string := js_String (obj_get "id" service).

Definition blocked_action (service : jsobj) : jsobj :=
  [("type", JStr "github-webhook-quota-blocked"); ("serviceId", obj_get "id" service); ("reason", JStr "verified_quota_owner_required")].

(** The services grouped by account, those without one, in order. *)
Definition group_by_owner (services_ : list jsobj) (plan : ActionPlan) (s : PreviewStore) : jsmap (list jsobj) * list jsobj :=
  foldl (fun '(groups, orphans) service =>
    match quota_owner service plan s with
    | Some userId => (map_set userId (default [] (map_get userId groups) ++ [service]) groups, orphans)
    | None => (groups, orphans ++ [service])
    end) ([], []) services_.

(** One account: both metrics are checked for all its services at once; an
    error blocks them all, and what the check wrote stays. *)
Definition owner_blocked (plan : ActionPlan) (userId : string) (owned : list jsobj) (now : Z) : M PreviewStore bool := fun s =>
  let increment := Fin (inject_Z (Z.of_nat (length owned))) in
  let check := fun metric => enforceUserCan dateParse fraction_text userId "deployment:create:github-webhook" metric increment (usageRecords s) now in
  let '(r, s') := on_plane (_ ← check "maxDeploymentsPerDay";
                            if bool_decide (ap_kind plan = "preview-deploy") then check "maxPreviewDeployments" else mret tt) s in
  (Ok (match r with Ok _ => false | Throw _ => true end), s').

Fixpoint check_owners (plan : ActionPlan) (groups : jsmap (list jsobj)) (now : Z) : M PreviewStore (list string * list jsobj) :=
  match groups with
  | [] => mret ([], [])
  | (userId, owned) :: rest =>
      refused ← owner_blocked plan userId owned now;
      others ← check_owners plan rest now;
      mret (if refused : bool
            then (map service_id owned ++ others.1,
                  [("type", JStr "github-webhook-quota-blocked"); ("serviceIds", JArr (map (obj_get "id") owned)); ("reason", JStr "quota_or_approval_policy")] :: others.2)
            else others)
  end.

Definition githubWebhookQuotaBlocks (services_ : list jsobj) (plan : ActionPlan) (now : Z) : M PreviewStore (list string * list jsobj) :=
  if negb (bool_decide (ap_kind plan ∈ ["production-deploy"; "preview-deploy"])) then mret ([], [])
  else
    s ← get;
    let '(groups, orphans) := group_by_owner services_ plan s in
    checked ← check_owners plan groups now;
    mret (map service_id orphans ++ checked.1, map blocked_action orphans ++ checked.2).

(** ** One service *)

Definition cancel_preview_job (lineageId : string) (deploymentIds : list string) (job : WorkflowJob) : WorkflowJob :=
  if (bool_decide (wj_targetId job = lineageId) || bool_decide (wj_targetId job ∈ deploymentIds)) && bool_decide (wj_status job ∈ ["queued"; "running"])
  then job <| wj_status := "cancelled" |> <| wj_lockedBy := None |> <| wj_lockedAt := None |> else job.

Definition cancel_preview_jobs (lineageId : string) (deploymentIds : list string) : M PreviewStore unit :=
  on_plane (on_workflow (on_jobs (modify (map (cancel_preview_job lineageId deploymentIds))))).

Definition attempts_of (lineageId : string) (s : PreviewStore) : list jsobj :=
  filter (fun row => as_string (obj_get "previewLineageId" row) = Some lineageId) (map_values (deployments (pv_plane s))).

Definition cleanup_row (attempt : jsobj) (now : Z) : jsobj :=
  spread attempt [("status", JStr "PREVIEW_CLEANUP_REQUESTED"); ("updatedAt", timestamp now)].

Definition set_deployment (id : string) (row : jsobj) : M PreviewStore unit :=
  on_plane (modify (fun p => p <| deployments := map_set id row (deployments p) |>)).

Definition set_lineage (l : PreviewLineageRecord) : M PreviewStore unit :=
  modify (fun s => s <| previewLineages := map_set (ln_id l) l (previewLineages s) |>).

(** The attempts that are not cleaned up yet are asked to be; their identifiers. *)
Fixpoint request_cleanups (attempts : list jsobj) (now : Z) : M PreviewStore (list string) :=
  match attempts with
  | [] => mret []
  | attempt :: rest =>
      let id := js_String (obj_get "id" attempt) in
      if bool_decide (toUpperCase (js_String (obj_get "status" attempt)) = "CLEANED_UP") then request_cleanups rest now
      else
        _ ← set_deployment id (cleanup_row attempt now);
        ids ← request_cleanups rest now;
        mret (id :: ids)
  end.

Definition runtime_json (r : PreviewRuntime) : jsval :=
  JObj [("version", JNum (NInt 1)); ("lineageId", JStr (rt_lineageId r)); ("deploymentId", JStr (rt_deploymentId r));
        ("generation", JNum (NInt (rt_generation r))); ("lineageVersion", JNum (NInt (rt_lineageVersion r)));
        ("stableHost", JStr (rt_stableHost r)); ("probeHost", JStr (rt_probeHost r)); ("namespace", JStr (rt_namespace r));
        ("workloadName", JStr (rt_workloadName r)); ("serviceName", JStr (rt_serviceName r));
        ("probeIngressName", JStr (rt_probeIngressName r)); ("routeName", JStr (rt_routeName r))].

Definition job_input (id type_ targetType targetId : string) (payload : jsobj) (maxAttempts : option Z) : WorkflowInput :=
  mkInput id type_ "" targetType targetId "" "" payload None maxAttempts None None None None None.

Definition preview_deployment_id (event : PreviewWebhook) (service : jsobj) (lineage : PreviewLineageRecord) : string :=
  stableId "dep" [JStr "github-preview"; JStr (wh_deliveryId event); obj_get "id" service; JNum (NInt (ln_generation lineage))].

Definition preview_deployment (event : PreviewWebhook) (service : jsobj) (lineage : PreviewLineageRecord) (deploymentId : string) (runtime : PreviewRuntime) : jsobj :=
  [("id", JStr deploymentId); ("serviceId", obj_get "id" service); ("commitSha", JStr (wh_headSha event)); ("commitHash", JStr (wh_headSha event));
   ("status", JStr "queued"); ("deploymentType", JStr "preview"); ("triggerType", JStr "github_pull_request"); ("branch", JStr (wh_headRef event));
   ("pullRequestNumber", JNum (NInt (wh_pullRequestNumber event))); ("previewUrl", JStr ("https://" +:+ ln_stableHost lineage));
   ("previewLineageId", JStr (ln_id lineage)); ("previewGeneration", JNum (NInt (ln_generation lineage))); ("previewRuntime", runtime_json runtime)].

Definition open_preview (event : PreviewWebhook) (delivery : WebhookRow) (service : jsobj) (lineage : PreviewLineageRecord) (now : Z) : M PreviewStore jsobj :=
  let deploymentId := preview_deployment_id event service lineage in
  runtime ← lift (createPreviewRuntime sha256_hex lineage deploymentId None);
  deployment ← on_plane (createDeployment (preview_deployment event service lineage deploymentId runtime) now);
  let id := js_String (obj_get "id" deployment) in
  job ← on_plane (on_workflow (enqueueWorkflowJob (job_input (stableId "job" [JStr "github-preview"; JStr (wh_deliveryId event); obj_get "id" service])
          "preview-deploy" "deployment" id
          [("version", JNum (NInt 1)); ("lineageId", JStr (ln_id lineage)); ("lineageVersion", JNum (NInt (ln_version lineage)));
           ("generation", JNum (NInt (ln_generation lineage))); ("deploymentId", obj_get "id" deployment); ("runtime", runtime_json runtime)] None) now));
  metadata ← lift (previewWebhookLineage (we_id delivery) (ln_id lineage) event);
  _ ← on_plane (appendDeploymentEvent (obj_get "id" deployment) "preview.workload.queued"
        ("Preview Kubernetes workload queued for PR #" +:+ pretty (wh_pullRequestNumber event)) (JObj metadata) now);
  _ ← set_lineage (lineage <| ln_candidateDeploymentId := Some id |> <| ln_candidateGeneration := Some (ln_generation lineage) |>);
  mret [("type", JStr "preview-deployment-enqueued"); ("serviceId", obj_get "id" service); ("lineageId", JStr (ln_id lineage));
        ("deploymentId", obj_get "id" deployment); ("workflowJobId", JStr (wj_id job))].

Definition close_preview (service : jsobj) (lineage : PreviewLineageRecord) (randomUUID : string) (attempts : list jsobj) (now : Z) : M PreviewStore jsobj :=
  _ ← set_lineage (lineage <| ln_routeIntent := Some (previewCloseIntent lineage randomUUID) |>);
  deploymentIds ← request_cleanups attempts now;
  _ ← cancel_preview_jobs (ln_id lineage) deploymentIds;
  mret [("type", JStr "preview-cleanup-requested"); ("serviceId", obj_get "id" service); ("lineageId", JStr (ln_id lineage));
        ("deploymentIds", JArr (map JStr deploymentIds))].

Definition type_error : jserror := JsError "TypeError" "cannot read properties of undefined" None.

Definition lineage_id (project service : jsobj) (event : PreviewWebhook) : string :=
  stableId "preview-lineage" [obj_get "organizationId" project; obj_get "id" project; obj_get "id" service;
                              JStr (wh_installationId event); JStr (wh_repositoryId event); JNum (NInt (wh_pullRequestNumber event))].

(** [uuid_of] gives the random value drawn for a lineage. *)
Definition preview_service (event : PreviewWebhook) (delivery : WebhookRow) (uuid_of : string -> string) (now : Z) (service : jsobj) : M PreviewStore jsobj :=
  s ← get;
  match project_of service s with
  | None => raise type_error
  | Some project =>
      let lineageId := lineage_id project service event in
      let identity := mkIdentity (js_String (obj_get "organizationId" project)) (js_String (obj_get "id" project)) (service_id service) (integration_id service) None in
      transition ← lift (transitionPreviewLineage sha256_hex dateParse (map_get lineageId (previewLineages s)) event identity lineageId);
      let lineage := tr_lineage transition in
      let report := fun type_ extra => [("type", JStr type_); ("serviceId", obj_get "id" service); ("lineageId", JStr lineageId)] ++ extra in
      match tr_decision transition with
      | stale => mret (report "preview-stale" [])
      | duplicate => mret (report "preview-duplicate" [])
      | ambiguous =>
          _ ← set_lineage lineage;
          job ← on_plane (on_workflow (enqueueWorkflowJob (job_input (resolverJobId lineage) PREVIEW_RESOLVER_JOB "preview-lineage" lineageId (resolverPayload lineage) (Some 3)) now));
          mret (report "preview-resolution-enqueued" [("workflowJobId", JStr (wj_id job))])
      | close => _ ← set_lineage lineage; close_preview service lineage (uuid_of lineageId) (attempts_of lineageId s) now
      | open_ => _ ← set_lineage lineage; open_preview event delivery service lineage now
      end
  end.

Fixpoint preview_services (event : PreviewWebhook) (delivery : WebhookRow) (uuid_of : string -> string) (now : Z) (services_ : list jsobj) : M PreviewStore (list jsobj) :=
  match services_ with
  | [] => mret []
  | service :: rest =>
      action ← preview_service event delivery uuid_of now service;
      actions ← preview_services event delivery uuid_of now rest;
      mret (action :: actions)
  end.

(** ** The handler *)

Record WebhookAnswer := mkAnswer { an_duplicate : bool; an_deliveryId : string; an_matchedServiceCount : nat; an_actions : list jsobj }.

Definition preview_plan (event : PreviewWebhook) : ActionPlan :=
  mkActionPlan (if decide (wh_action event = closed) then "preview-cleanup" else "preview-deploy")
    (wh_repositoryId event) (wh_installationId event) (wh_repository event) (wh_baseRef event).

Definition set_delivery (deliveryId : string) (row : WebhookRow) : M PreviewStore unit :=
  modify (fun s => s <| webhookEvents := map_set deliveryId row (webhookEvents s) |>).

Definition handle_delivery (event : PreviewWebhook) (delivery : WebhookRow) (uuid_of : string -> string) (now : Z) : M PreviewStore WebhookAnswer :=
  _ ← set_delivery (wh_deliveryId event) delivery;
  let plan := preview_plan event in
  s ← get;
  let services_ := servicesForGitHubWebhook plan s in
  blocks ← (if decide (wh_action event = closed) then mret ([], []) else githubWebhookQuotaBlocks services_ plan now);
  done ← preview_services event delivery uuid_of now (filter (fun service => service_id service ∉ blocks.1) services_);
  let actions := blocks.2 ++ done in
  _ ← on_plane (cp_audit "github-webhook" "github:preview-webhook" "github-delivery" (wh_deliveryId event)
        (JObj [("action", JStr (action_text (wh_action event))); ("actions", JArr (map (obj_get "type") actions))]) now);
  _ ← set_delivery (wh_deliveryId event) (delivery <| we_handled := true |>);
  mret (mkAnswer false (wh_deliveryId event) (length services_) actions).

(** [try { ... } catch (error) { this.restoreGitHubWebhookTransaction(before); throw error; }] *)
Definition github_transaction {A} (body : M PreviewStore A) : M PreviewStore A := fun s =>
  match body s with
  | (Throw e, s') => (Throw e, restoreGitHubWebhookTransaction s s')
  | done => done
  end.

Definition handlePreviewWebhook (input : PreviewWebhookInput) (uuid_of : string -> string) (now : Z) : M PreviewStore WebhookAnswer :=
  event ← lift (parsePreviewWebhook dateParse hmac_hex jsonParse input);
  s ← get;
  let existing := map_get (wh_deliveryId event) (webhookEvents s) in
  _ ← lift (throw_if (match existing with Some row => negb (previewWebhookPayloadMatches dateParse (we_payload row) event) | None => false end)
              (PreviewError "preview_delivery_conflict" 409));
  if match existing with Some row => we_handled row | None => false end then mret (mkAnswer true (wh_deliveryId event) 0 [])
  else
    let delivery := match existing with
                    | Some row => row
                    | None => mkWebhookRow (stableId "whe" [JStr "github"; JStr (wh_deliveryId event)]) "pull_request" (wh_deliveryId event)
                                (JObj (canonicalPreviewWebhook event)) false now
                    end in
    github_transaction (handle_delivery event delivery uuid_of now).

(** ** Cleanup on request *)

Fixpoint all_cleaned (attempts : list jsobj) : result bool :=
  match attempts with
  | [] => Ok true
  | attempt :: rest =>
      status ← normalizeDeploymentStatus (obj_get "status" attempt);
      if bool_decide (status = "CLEANED_UP") then all_cleaned rest else Ok false
  end.

Fixpoint cleanup_attempts (operationId lineageId : string) (attempts : list jsobj) (now : Z) : M PreviewStore unit :=
  match attempts with
  | [] => mret tt
  | attempt :: rest =>
      status ← lift (normalizeDeploymentStatus (obj_get "status" attempt));
      _ ← (if bool_decide (status = "CLEANED_UP") then mret tt
           else _ ← set_deployment (js_String (obj_get "id" attempt)) (cleanup_row attempt now);
                on_plane (appendDeploymentEvent (obj_get "id" attempt) "preview.cleanup.requested" "Preview cleanup requested"
                            (JObj [("operationId", JStr operationId); ("lineageId", JStr lineageId)]) now));
      cleanup_attempts operationId lineageId rest now
  end.

Record CleanupAnswer := mkCleanup { cu_operationId : string; cu_status : string; cu_lineageId : string; cu_deploymentIds : list string }.

Definition cleanup_unavailable : jserror := conflict "PREVIEW_CLEANUP_UNAVAILABLE".

Definition closed_lineage (lineage : PreviewLineageRecord) (randomUUID : string) : PreviewLineageRecord :=
  let next := lineage <| ln_state := CLOSED |> <| ln_version := ln_version lineage + 1 |> <| ln_candidateDeploymentId := None |>
                      <| ln_candidateGeneration := None |> <| ln_currentDeploymentId := None |> <| ln_currentGeneration := None |> in
  next <| ln_routeIntent := Some (previewCloseIntent next randomUUID) |>.

Definition requestPreviewCleanup (deploymentId actorUserId randomUUID : string) (now : Z) : M PreviewStore CleanupAnswer :=
  s ← get;
  match map_get deploymentId (deployments (pv_plane s)) with
  | None => raise (notFound ("deployment not found: " +:+ deploymentId))
  | Some deployment =>
      _ ← lift (throw_if (negb (bool_decide (toLowerCase (js_String (obj_get "deploymentType" deployment)) = "preview"))
                          || negb (truthy (obj_get "previewLineageId" deployment))) cleanup_unavailable);
      match lookup_row (obj_get "previewLineageId" deployment) (previewLineages s) with
      | None => raise cleanup_unavailable
      | Some lineage =>
          _ ← lift (throw_if (negb (bool_decide (as_string (obj_get "projectId" deployment) = Some (ln_projectId lineage)))
                              || negb (bool_decide (as_string (obj_get "serviceId" deployment) = Some (ln_serviceId lineage)))) cleanup_unavailable);
          let operationId := "preview-cleanup:" +:+ ln_id lineage in
          let attempts := attempts_of (ln_id lineage) s in
          let deploymentIds := map (fun row => js_String (obj_get "id" row)) attempts in
          cleaned ← lift (all_cleaned attempts);
          _ ← (if decide (ln_state lineage = CLOSED) then mret tt
               else
                 _ ← set_lineage (closed_lineage lineage randomUUID);
                 _ ← cleanup_attempts operationId (ln_id lineage) attempts now;
                 _ ← cancel_preview_jobs (ln_id lineage) deploymentIds;
                 on_plane (cp_audit (str_or actorUserId "system") "preview:cleanup-requested" "preview-lineage" (ln_id lineage)
                             (JObj [("operationId", JStr operationId); ("deploymentIds", JArr (map JStr deploymentIds))]) now));
          mret (mkCleanup operationId (if cleaned : bool then "CLEANED_UP" else "PREVIEW_CLEANUP_REQUESTED") (ln_id lineage) deploymentIds)
      end
  end.
End Hooks.

Close Scope Z_scope.
