(* ===== verification/PreviewWebhookSafety.v ===== *)
(** * Properties of preview webhooks

    A webhook is handled as a whole or not at all and at most once, and what
    it does to the lineages of the store are steps of the lineage machine. *)

From Stdlib Require Import QArith.
From S2P Require Import Prelude JsString JsMap JsVal Ids Accounts Lifecycle Workflows ControlPlane Deployments Quotas QuotaSafety DomainRouter PreviewContract PreviewLineage PreviewSafety PreviewWebhooks.
From stdpp Require Import pretty.

Open Scope Z_scope.

(** ** What a webhook leaves alone *)

(** The tables a webhook neither writes nor restores. *)
Definition kept_plane (p : ControlPlane) :=
  let a := accounts (cp_workflow p) in
  (projects p, services p, resources p, organizations a, users a, members a, organizationInvites a, emailVerificationCodes a).
Definition kept (s : PreviewStore) := (kept_plane (pv_plane s), usageRecords s).

Lemma on_plane_kept {A} (m : M ControlPlane A) : frame kept_plane m -> frame kept (on_plane m).
Proof. intros H s. unfold on_plane, kept. specialize (H (pv_plane s)). destruct (m (pv_plane s)) as [r p]. cbn in *. by rewrite H. Qed.

Lemma on_plane_lineages {A} (m : M ControlPlane A) : frame previewLineages (on_plane m).
Proof. intros s. unfold on_plane. by destruct (m (pv_plane s)). Qed.

Lemma on_plane_events {A} (m : M ControlPlane A) : frame webhookEvents (on_plane m).
Proof. intros s. unfold on_plane. by destruct (m (pv_plane s)). Qed.

Lemma audit_kept actor action ttype tid meta now : frame kept_plane (cp_audit actor action ttype tid meta now).
Proof. intros s. reflexivity. Qed.

Lemma event_kept id type_ message metadata now : frame kept_plane (appendDeploymentEvent id type_ message metadata now).
Proof. intros s. reflexivity. Qed.

Lemma create_kept input now : frame kept_plane (createDeployment input now).
Proof. unfold createDeployment. solve_frame; (intros s; reflexivity). Qed.

Lemma enqueue_kept input now : frame kept_plane (on_workflow (enqueueWorkflowJob input now)).
Proof. intros s. unfold on_workflow, enqueueWorkflowJob. rewrite run_lift. by destruct (createWorkflowJobRecord input now). Qed.

Lemma enforce_kept dateParse fraction_text userId action metric increment records now :
  frame kept_plane (enforceUserCan dateParse fraction_text userId action metric increment records now).
Proof.
  intros s. destruct (enforceUserCan _ _ _ _ _ _ _ _ s) as [r s'] eqn:E.
  apply enforce_only_logged in E as (q & logs & _ & ->). reflexivity.
Qed.

#[export] Hint Resolve on_plane_kept on_plane_lineages on_plane_events audit_kept event_kept create_kept enqueue_kept enforce_kept : raibit.

Section Hooks.
Context (sha256_hex : string -> string) (dateParse : string -> option Z) (fraction_text : Q -> string).
Context (hmac_hex : string -> string -> string) (jsonParse : string -> option jsval).

Lemma set_lineage_kept l : frame kept (set_lineage l).
Proof. intros s. reflexivity. Qed.
Lemma set_deployment_kept id row : frame kept (set_deployment id row).
Proof. intros s. reflexivity. Qed.
Lemma set_delivery_kept id row : frame kept (set_delivery id row).
Proof. intros s. reflexivity. Qed.
Lemma cancel_kept lineageId ids : frame kept (cancel_preview_jobs lineageId ids).
Proof. intros s. reflexivity. Qed.

#[local] Hint Resolve set_lineage_kept set_deployment_kept set_delivery_kept cancel_kept : raibit.

Lemma cleanups_kept attempts now : frame kept (request_cleanups attempts now).
Proof. induction attempts as [|attempt rest IH]; cbn [request_cleanups]; cbv zeta; solve_frame. Qed.
#[local] Hint Resolve cleanups_kept : raibit.

Lemma service_kept event delivery uuid_of now service : frame kept (preview_service sha256_hex dateParse event delivery uuid_of now service).
Proof.
  unfold preview_service, open_preview, close_preview. solve_frame. all: try (intros s; reflexivity).
Qed.
#[local] Hint Resolve service_kept : raibit.

Lemma services_kept event delivery uuid_of now l : frame kept (preview_services sha256_hex dateParse event delivery uuid_of now l).
Proof. induction l as [|service rest IH]; cbn [preview_services]; solve_frame. Qed.

Lemma owner_kept plan userId owned now : frame kept (owner_blocked dateParse fraction_text plan userId owned now).
Proof.
  intros s. unfold owner_blocked. match goal with |- context [on_plane ?m s] => assert (frame kept (on_plane m)) as H end.
  { apply on_plane_kept, frame_bind; [apply enforce_kept|intros _]. destruct (bool_decide _); [apply enforce_kept|apply frame_ret]. }
  specialize (H s). destruct (on_plane _ s) as [r s']. done.
Qed.
#[local] Hint Resolve owner_kept services_kept : raibit.

Lemma owners_kept plan groups now : frame kept (check_owners dateParse fraction_text plan groups now).
Proof. induction groups as [|[userId owned] rest IH]; cbn [check_owners]; solve_frame. Qed.
#[local] Hint Resolve owners_kept : raibit.

Lemma blocks_kept services_ plan now : frame kept (githubWebhookQuotaBlocks dateParse fraction_text services_ plan now).
Proof. unfold githubWebhookQuotaBlocks. solve_frame. Qed.
#[local] Hint Resolve blocks_kept : raibit.

Lemma handle_kept event delivery uuid_of now : frame kept (handle_delivery sha256_hex dateParse fraction_text event delivery uuid_of now).
Proof. unfold handle_delivery. solve_frame. Qed.

(** Putting back the tables of the snapshot undoes everything that leaves the
    other tables alone. *)
Lemma restore_kept s s' : kept s' = kept s -> restoreGitHubWebhookTransaction s s' = s.
Proof.
  destruct s as [[[[] ?] ? ? ? ? ?] ? ? ? ? ?], s' as [[[[] ?] ? ? ? ? ?] ? ? ? ? ?]. unfold kept, kept_plane. cbn.
  intros [= -> -> -> -> -> -> -> -> ->]. reflexivity.
Qed.

Notation handler := (handlePreviewWebhook sha256_hex dateParse fraction_text hmac_hex jsonParse).
Notation deliver_event := (handle_delivery sha256_hex dateParse fraction_text).

(** The three ways the handler ends. *)
Lemma handler_cases input uuid_of now s r s' : handler input uuid_of now s = (r, s') ->
  (exists e, r = Throw e /\ s' = s)
  \/ exists event, parsePreviewWebhook dateParse hmac_hex jsonParse input = Ok event
     /\ ((exists row, map_get (wh_deliveryId event) (webhookEvents s) = Some row /\ we_handled row = true
            /\ previewWebhookPayloadMatches dateParse (we_payload row) event = true
            /\ r = Ok (mkAnswer true (wh_deliveryId event) 0 []) /\ s' = s)
         \/ exists delivery a, previewWebhookPayloadMatches dateParse (we_payload delivery) event = true
            /\ deliver_event event delivery uuid_of now s = (Ok a, s') /\ r = Ok a).
Proof.
  unfold handlePreviewWebhook. rewrite run_lift. destruct (parsePreviewWebhook _ _ _ _) as [event|e] eqn:Hp; [|intros [= <- <-]; left; by eexists].
  pose proof (webhook_accepted _ _ _ _ _ Hp) as Hacc. rewrite run_get. cbv zeta. rewrite run_lift.
  assert (forall delivery, previewWebhookPayloadMatches dateParse (we_payload delivery) event = true ->
    github_transaction (deliver_event event delivery uuid_of now) s = (r, s') ->
    (exists e, r = Throw e /\ s' = s) \/ exists a, deliver_event event delivery uuid_of now s = (Ok a, s') /\ r = Ok a) as Hgo.
  { intros delivery _ H. unfold github_transaction in H. pose proof (handle_kept event delivery uuid_of now s) as Hk. destruct (deliver_event _ _ _ _ s) as [[a|e] t].
    - injection H as <- <-. right. by eexists.
    - injection H as <- <-. left. eexists. split; [done|by apply restore_kept]. }
  destruct (map_get (wh_deliveryId event) (webhookEvents s)) as [row|] eqn:He; cbn [throw_if].
  - destruct (previewWebhookPayloadMatches _ _ _) eqn:Hm; cbn [negb throw_if]; [|intros [= <- <-]; left; by eexists].
    destruct (we_handled row) eqn:Hh; intros H; [injection H as <- <-; right; exists event; split; [done|]; left; by exists row|].
    destruct (Hgo row Hm H) as [?|(a & ? & ?)]; [by left|]. right. exists event. split; [done|]. right. by exists row, a.
  - intros H. match type of H with context [deliver_event event ?d _ _] => assert (previewWebhookPayloadMatches dateParse (we_payload d) event = true) as Hm by (cbn [we_payload]; by apply matches_again);
      destruct (Hgo d Hm H) as [?|(a & ? & ?)]; [by left|]; right; exists event; split; [done|]; right; by exists d, a end.
Qed.

(** C32. A webhook is handled as a whole or not at all: when it is refused, at
    whatever step, the store is exactly what it was, whatever deployments,
    jobs, lineages, quota rows and audit entries had been written. *)
Theorem webhook_atomic input uuid_of now s e s' :
  handlePreviewWebhook sha256_hex dateParse fraction_text hmac_hex jsonParse input uuid_of now s = (Throw e, s') -> s' = s.
Proof. intros [(? & _ & H)|(event & _ & [(row & _ & _ & _ & H & _)|(delivery & a & _ & _ & H)])]%handler_cases; done. Qed.

(** A delivery that is handled is on record as handled, with what was delivered. *)
Lemma delivered_row event delivery uuid_of now s a s' : deliver_event event delivery uuid_of now s = (Ok a, s') ->
  map_get (wh_deliveryId event) (webhookEvents s') = Some (delivery <| we_handled := true |>) /\ an_deliveryId a = wh_deliveryId event.
Proof.
  unfold handle_delivery, set_delivery. intros H. returns_in H. apply bind_returns in H as (blocks & s1 & _ & H).
  apply bind_returns in H as (actions & s2 & _ & H). cbn beta zeta in H. apply bind_returns in H as ([] & s3 & _ & H). returns_in H. subst.
  split; [apply map_get_set_eq|done].
Qed.

(** A delivery is handled at most once: after a webhook has been answered,
    the same webhook delivered again, at any time, is answered as a duplicate
    and changes nothing. *)
Theorem webhook_idempotent input uuid_of now s a s' uuid_of' now' :
  handlePreviewWebhook sha256_hex dateParse fraction_text hmac_hex jsonParse input uuid_of now s = (Ok a, s') ->
  handlePreviewWebhook sha256_hex dateParse fraction_text hmac_hex jsonParse input uuid_of' now' s' = (Ok (mkAnswer true (an_deliveryId a) 0 []), s').
Proof.
  intros [(? & ? & _)|(event & Hp & Hrow)]%handler_cases; [done|].
  assert (exists row, map_get (wh_deliveryId event) (webhookEvents s') = Some row /\ we_handled row = true
            /\ previewWebhookPayloadMatches dateParse (we_payload row) event = true /\ an_deliveryId a = wh_deliveryId event) as (row & Hr & Hh & Hm & ->).
  { destruct Hrow as [(row & Hr & Hh & Hm & [= ->] & ->)|(delivery & a' & Hm & Hd & [= <-])]; [by exists row|].
    apply delivered_row in Hd as [Hd ?]. eexists. by split_and!. }
  unfold handlePreviewWebhook. rewrite Hp, run_lift, run_get. cbv zeta. by rewrite Hr, run_lift, Hm, Hh.
Qed.
End Hooks.

(** ** The lineages of the store refine the machine *)


Section Refinement.
Context (sha256_hex : string -> string) (dateParse : string -> option Z) (fraction_text : Q -> string).
Context (hmac_hex : string -> string -> string) (jsonParse : string -> option jsval).

Notation step := (lineage_step sha256_hex dateParse).
Notation transition := (transitionPreviewLineage sha256_hex dateParse).

(** Lineages are stored under their own identifiers. *)
Definition keyed (s : PreviewStore) : Prop := forall key l, map_get key (previewLineages s) = Some l -> ln_id l = key.

(** A lineage starts with its first event and then moves by steps. *)
Inductive evolves (key : string) : option PreviewLineageRecord -> option PreviewLineageRecord -> Prop :=
| evolves_absent : evolves key None None
| evolves_born e who t l : transition None e who key = Ok t -> rtc step (tr_lineage t) l -> evolves key None (Some l)
| evolves_run l l' : rtc step l l' -> evolves key (Some l) (Some l').

Definition lineages_follow (s s' : PreviewStore) : Prop :=
  keyed s -> keyed s' /\ forall key, evolves key (map_get key (previewLineages s)) (map_get key (previewLineages s')).

Lemma evolves_refl key o : evolves key o o.
Proof. destruct o; constructor. apply rtc_refl. Qed.

Lemma evolves_trans key a b c : evolves key a b -> evolves key b c -> evolves key a c.
Proof.
  intros [|e who t l Ht Hl|l l' Hl] H; inversion H; subst; [constructor|by econstructor| |].
  - econstructor; [done|]. by etrans.
  - constructor. by etrans.
Qed.

#[global] Instance lineages_follow_preorder : PreOrder lineages_follow.
Proof.
  split.
  - intros s Hk. split; [done|]. intros key. apply evolves_refl.
  - intros s t u H1 H2 Hk. destruct (H1 Hk) as [Ht E1]. destruct (H2 Ht) as [Hu E2]. split; [done|]. intros key. by eapply evolves_trans.
Qed.

(** A computation that moves lineages only by steps. *)
Definition tracked {A} (m : M PreviewStore A) : Prop := forall s, lineages_follow s (m s).2.

Lemma same_lineages s s' : previewLineages s' = previewLineages s -> lineages_follow s s'.
Proof. intros E Hk. unfold keyed. rewrite E. split; [done|]. intros key. apply evolves_refl. Qed.

Lemma frame_tracked {A} (m : M PreviewStore A) : frame previewLineages m -> tracked m.
Proof. intros H s. by apply same_lineages. Qed.

Lemma tracked_bind {A B} (m : M PreviewStore A) (f : A -> M PreviewStore B) : tracked m -> (forall a, tracked (f a)) -> tracked (m ≫= f).
Proof.
  intros Hm Hf s. unfold mbind, M_bind. specialize (Hm s). destruct (m s) as [[a|e] s']; cbn in *; [|done]. etrans; [done|]. apply Hf.
Qed.

(** Writing a lineage that its predecessor under the identifier evolves to. *)
Lemma follow_write s l : evolves (ln_id l) (map_get (ln_id l) (previewLineages s)) (Some l) -> lineages_follow s (set_lineage l s).2.
Proof.
  intros He Hk. unfold set_lineage, modify, keyed. cbn. split.
  - intros key l'. destruct (decide (ln_id l = key)) as [<-|Hne]; [rewrite map_get_set_eq; by intros [= <-]|rewrite map_get_set_ne by done; apply Hk].
  - intros key. destruct (decide (ln_id l = key)) as [<-|Hne]; [by rewrite map_get_set_eq|rewrite map_get_set_ne by done; apply evolves_refl].
Qed.

Lemma follow_keyed s s' : (keyed s -> lineages_follow s s') -> lineages_follow s s'.
Proof. intros H Hk. by apply H. Qed.

(** The same of a computation that starts with the lineage [l] stored. *)
Definition tracked_from (l : PreviewLineageRecord) {A} (m : M PreviewStore A) : Prop :=
  forall s, map_get (ln_id l) (previewLineages s) = Some l -> lineages_follow s (m s).2.

Lemma from_frame l {A B} (m : M PreviewStore A) (f : A -> M PreviewStore B) :
  frame previewLineages m -> (forall a, tracked_from l (f a)) -> tracked_from l (m ≫= f).
Proof.
  intros Hm Hf s Hs. unfold mbind, M_bind. specialize (Hm s). destruct (m s) as [[a|e] s']; cbn in *; [|by apply same_lineages].
  etrans; [by apply same_lineages|]. apply Hf. congruence.
Qed.

Lemma from_write l l' {A} (f : unit -> M PreviewStore A) :
  step l l' -> ln_id l' = ln_id l -> (forall a, frame previewLineages (f a)) -> tracked_from l (set_lineage l' ≫= f).
Proof.
  intros Hs Hid Hf s Hl. etrans; [apply (follow_write s l')|].
  - rewrite Hid, Hl. constructor. by apply rtc_once.
  - apply same_lineages. exact (Hf tt _).
Qed.

Lemma from_then l {A B} (m : M PreviewStore A) (f : A -> M PreviewStore B) :
  tracked_from l m -> (forall a, frame previewLineages (f a)) -> tracked_from l (m ≫= f).
Proof.
  intros Hm Hf s Hs. unfold mbind, M_bind. specialize (Hm s Hs). destruct (m s) as [[a|e] s']; cbn in *; [|done].
  etrans; [done|]. apply same_lineages, Hf.
Qed.

(** ** The operations *)

Lemma cleanups_lineages attempts now : frame previewLineages (request_cleanups attempts now).
Proof. induction attempts as [|attempt rest IH]; cbn [request_cleanups]; cbv zeta; unfold set_deployment; solve_frame. Qed.

Lemma cancel_lineages lineageId ids : frame previewLineages (cancel_preview_jobs lineageId ids).
Proof. apply on_plane_lineages. Qed.

Lemma cleanup_attempts_lineages op key attempts now : frame previewLineages (cleanup_attempts op key attempts now).
Proof. induction attempts as [|attempt rest IH]; cbn [cleanup_attempts]; unfold set_deployment; solve_frame. Qed.

#[local] Hint Resolve cleanups_lineages cancel_lineages cleanup_attempts_lineages : raibit.

Lemma open_tracked event delivery service l now : ln_state l = OPEN -> tracked_from l (open_preview sha256_hex event delivery service l now).
Proof.
  intros Ho. unfold open_preview. cbv zeta. do 5 (apply from_frame; [solve_frame|intros ?]).
  apply from_write; [by constructor|done|]. intros ?. solve_frame.
Qed.

Lemma close_tracked service l uuid attempts now : ln_state l = CLOSED -> tracked_from l (close_preview service l uuid attempts now).
Proof. intros Hc. unfold close_preview. apply from_write; [by constructor|done|]. intros ?. solve_frame. Qed.

Lemma write_then {A} s l (m : M PreviewStore A) :
  evolves (ln_id l) (map_get (ln_id l) (previewLineages s)) (Some l) -> tracked_from l m -> lineages_follow s ((set_lineage l ≫= fun _ => m) s).2.
Proof. intros He Hm. etrans; [by apply follow_write|]. apply Hm. cbn. by rewrite map_get_set_eq. Qed.

Lemma service_tracked event delivery uuid_of now service : tracked (preview_service sha256_hex dateParse event delivery uuid_of now service).
Proof.
  intros s. unfold preview_service. rewrite run_get. destruct (project_of service s) as [project|]; [|done]. cbv zeta. rewrite run_lift.
  match goal with |- context [transition ?c ?e ?w ?k] => set (key := k); set (who := w) end. set (current := map_get key (previewLineages s)).
  destruct (transition current event who key) as [t|] eqn:Ht; [|done]. apply follow_keyed. intros Hk.
  destruct (transition_state _ _ _ _ _ _ _ Ht (Hk key)) as (Hid & Hopen & Hclose).
  assert (evolves key current (Some (tr_lineage t))) as He.
  { destruct current as [l|] eqn:Hc; [|by econstructor]. constructor. apply rtc_once. specialize (Hk key l Hc). subst key. rewrite <- Hk in Ht. by econstructor. }
  unfold current in He. rewrite <- Hid in He.
  destruct (tr_decision t); [done|done| | |].
  - apply write_then; [done|]. apply from_frame; [solve_frame|]. intros ? ? ?. done.
  - apply write_then; [done|]. by apply open_tracked, Hopen.
  - apply write_then; [done|]. by apply close_tracked, Hclose.
Qed.

Lemma services_tracked event delivery uuid_of now l : tracked (preview_services sha256_hex dateParse event delivery uuid_of now l).
Proof.
  induction l as [|service rest IH]; cbn [preview_services]; [by apply frame_tracked, frame_ret|].
  apply tracked_bind; [apply service_tracked|intros action]. apply tracked_bind; [done|intros actions]. apply frame_tracked, frame_ret.
Qed.

Lemma owner_lineages plan userId owned now : frame previewLineages (owner_blocked dateParse fraction_text plan userId owned now).
Proof.
  intros s. unfold owner_blocked. match goal with |- context [on_plane ?m s] => pose proof (on_plane_lineages m s) as H end. cbv beta in H.
  destruct (on_plane _ s) as [r s']. done.
Qed.
#[local] Hint Resolve owner_lineages : raibit.

Lemma owners_lineages plan groups now : frame previewLineages (check_owners dateParse fraction_text plan groups now).
Proof. induction groups as [|[userId owned] rest IH]; cbn [check_owners]; solve_frame. Qed.
#[local] Hint Resolve owners_lineages : raibit.

Lemma blocks_lineages services_ plan now : frame previewLineages (githubWebhookQuotaBlocks dateParse fraction_text services_ plan now).
Proof. unfold githubWebhookQuotaBlocks. solve_frame. Qed.
#[local] Hint Resolve blocks_lineages : raibit.

Lemma delivery_tracked event delivery uuid_of now : tracked (handle_delivery sha256_hex dateParse fraction_text event delivery uuid_of now).
Proof.
  unfold handle_delivery, set_delivery. cbv zeta.
  apply tracked_bind; [by apply frame_tracked, frame_modify|intros _]. apply tracked_bind; [apply frame_tracked, frame_get|intros s].
  apply tracked_bind; [apply frame_tracked; solve_frame|intros blocks]. apply tracked_bind; [apply services_tracked|intros actions].
  apply frame_tracked. solve_frame.
Qed.

Lemma handler_tracked input uuid_of now : tracked (handlePreviewWebhook sha256_hex dateParse fraction_text hmac_hex jsonParse input uuid_of now).
Proof.
  intros s. destruct (handlePreviewWebhook _ _ _ _ _ _ _ _ s) as [r s'] eqn:H. cbn [snd].
  apply handler_cases in H as [(? & _ & ->)|(event & _ & [(row & _ & _ & _ & _ & ->)|(delivery & a & _ & H & _)])]; [done|done|].
  pose proof (delivery_tracked event delivery uuid_of now s) as Ht. by rewrite H in Ht.
Qed.

Lemma cleanup_tracked deploymentId actor uuid now : tracked (requestPreviewCleanup deploymentId actor uuid now).
Proof.
  intros s. apply follow_keyed. intros Hk. unfold requestPreviewCleanup. rewrite run_get. destruct (map_get deploymentId _) as [row|]; [|done].
  rewrite run_lift. destruct (throw_if _ _); [|done]. destruct (lookup_row _ _) as [l|] eqn:Hl; [|done]. rewrite run_lift. destruct (throw_if _ _); [|done].
  cbv zeta. rewrite run_lift. destruct (all_cleaned _); [|done].
  assert (map_get (ln_id l) (previewLineages s) = Some l) as Hs.
  { unfold lookup_row in Hl. destruct (obj_get _ row) eqn:Ho; try done. by rewrite (Hk _ _ Hl). }
  destruct (decide (ln_state l = CLOSED)) as [Hc|Hc]; [by apply same_lineages|].
  apply from_then with (l := l); [|intros ?; solve_frame|done]. apply from_write; [by apply step_cleanup|done|]. intros ?. solve_frame.
Qed.

(** What reaches the previews of a store. *)
Inductive preview_op :=
| op_webhook (input : PreviewWebhookInput) (uuid_of : string -> string) (now : Z)
| op_cleanup (deploymentId actorUserId randomUUID : string) (now : Z).

Definition run_op (s : PreviewStore) (op : preview_op) : PreviewStore :=
  match op with
  | op_webhook input uuid_of now => (handlePreviewWebhook sha256_hex dateParse fraction_text hmac_hex jsonParse input uuid_of now s).2
  | op_cleanup deploymentId actor uuid now => (requestPreviewCleanup deploymentId actor uuid now s).2
  end.

Lemma ops_follow ops s : lineages_follow s (foldl run_op s ops).
Proof.
  revert s. induction ops as [|op ops IH]; intros s; [done|]. cbn [foldl]. etrans; [|apply IH].
  destruct op; [apply handler_tracked|apply cleanup_tracked].
Qed.

(** C33. The store implements the lineage machine: whatever webhooks are
    delivered and cleanups requested, accepted or refused, the lineage under
    every identifier only ever starts with an event and then moves by steps of
    the machine; so in a store that started without lineages, each is stored
    under its identifier and a closed one has no deployment. *)
Theorem lineages_refined ops s :
  keyed s -> let s' := foldl run_op s ops in
  keyed s' /\ (forall key, evolves key (map_get key (previewLineages s)) (map_get key (previewLineages s')))
  /\ (previewLineages s = [] -> forall key l, map_get key (previewLineages s') = Some l -> ln_id l = key /\ lineage_ok l).
Proof.
  intros Hk s'. destruct (ops_follow ops s Hk) as [Hk' He]. split_and!; [done|done|]. intros Hnil key l Hl. split; [by apply Hk'|].
  specialize (He key). subst s'. rewrite Hnil, Hl in He. inversion He as [|e who t l0 Ht Hr|]; subst.
  apply run_effect in Hr as [? _]; [done|]. by eapply first_lineage_ok.
Qed.
End Refinement.

Close Scope Z_scope.
