(* ===== verification/PreviewExamples.v ===== *)
(** * Previews: concrete runs

    A store with one service bound to a repository, three webhooks of it, and
    the properties of previews applied to them.  The last theorems show that
    the identifiers of lineages and of deployments are too short: pull
    requests of one project share a lineage, and closing one cleans up the
    preview of another. *)

From Stdlib Require Import QArith.
From S2P Require Import Prelude JsString JsMap JsVal Ids Accounts Lifecycle Workflows ControlPlane Deployments Quotas QuotaSafety DomainRouter PreviewContract PreviewLineage PreviewSafety PreviewWebhooks PreviewWebhookSafety.

Open Scope Z_scope.

(** ** The world *)

Definition first_instant : Z := 1767225600000.
Definition instants : list Z := [first_instant; first_instant + 60000; first_instant + 120000].
Definition demo_date (s : string) : option Z := head (filter (fun t => toISOString t = s) instants).
Definition at_minute (n : nat) : string := toISOString (nth n instants 0).

Definition hex64 : string := "0123456789abcdef0123456789abcdef0123456789abcdef0123456789abcdef".
Definition demo_sha (s : string) : string := hex64.
Definition demo_hmac (secret body : string) : string := hex64.
Definition commit_a : string := "aaaaaaaaaaaaaaaaaaaaaaaaaaaaaaaaaaaaaaaa".
Definition commit_b : string := "bbbbbbbbbbbbbbbbbbbbbbbbbbbbbbbbbbbbbbbb".

Definition demo_payload (action state : string) (number : Z) (commit : string) (minute : nat) : jsval :=
  JObj [("action", JStr action); ("number", JNum (NInt number)); ("installation", JObj [("id", JNum (NInt 11))]);
        ("repository", JObj [("id", JNum (NInt 22)); ("full_name", JStr "school/site")]);
        ("pull_request", JObj [("number", JNum (NInt number)); ("state", JStr state); ("updated_at", JStr (at_minute minute));
           ("head", JObj [("sha", JStr commit); ("ref", JStr "feature")]); ("base", JObj [("ref", JStr "main")])])].

(** The bodies stand for their payloads. *)
Definition demo_json (body : string) : option jsval :=
  map_get body [("open-7", demo_payload "opened" "open" 7 commit_a 0); ("open-8", demo_payload "opened" "open" 8 commit_b 1);
                ("close-7", demo_payload "closed" "closed" 7 commit_a 2)].

Definition demo_input (body delivery : string) : PreviewWebhookInput := mkWebhookInput body ("sha256=" +:+ hex64) "secret" delivery.
Definition open_7 : PreviewWebhookInput := demo_input "open-7" "00000000-0000-4000-8000-000000000007".
Definition open_8 : PreviewWebhookInput := demo_input "open-8" "00000000-0000-4000-8000-000000000008".
Definition close_7 : PreviewWebhookInput := demo_input "close-7" "00000000-0000-4000-8000-000000000009".

Definition robotics_org : string := stableId "org" [JStr "school-robotics"].
Definition site : string := stableId "prj" [JStr robotics_org; JStr "site"].
Definition web : string := stableId "svc" [JStr site; JStr "web"].

Definition web_row : jsobj :=
  [("id", JStr web); ("projectId", JStr site); ("name", JStr "web"); ("branch", JStr "main"); ("githubRepositoryId", JStr "22");
   ("githubInstallationId", JStr "11"); ("githubRepository", JStr "school/site"); ("githubIntegrationId", JStr "ghi")].

Definition api : string := stableId "svc" [JStr site; JStr "api"].
Definition api_row : jsobj := map_set "name" (JStr "api") (map_set "id" (JStr api) web_row).

Definition member_dan : User :=
  mkUser "dan" "Dan" "" false "dan@school.ac.kr" None None None "USER" "CLUB_MEMBER" "APPROVED" 0 None None None None None 0 0.

Definition store_with (services_ : jsmap jsobj) : PreviewStore :=
  mkPreviewStore
    (mkControlPlane (mkWorkflowStore (empty_accounts <| users := [("dan", member_dan)] |> <| members := [mkMember robotics_org "dan" "owner" None None None] |>) [])
       [(site, [("id", JStr site); ("organizationId", JStr robotics_org)])] services_ [] [] [])
    []
    [("ghi", [("id", JStr "ghi"); ("organizationId", JStr robotics_org); ("installationId", JStr "11"); ("userId", JStr "dan"); ("verifiedAt", JStr "now")])]
    [("22", [("githubRepoId", JStr "22"); ("installationId", JStr "11"); ("fullName", JStr "school/site")])] [] [].

Definition demo_store : PreviewStore := store_with [(web, web_row)].

Definition demo_uuid (lineageId : string) : string := "token".
Definition demo_handle (input : PreviewWebhookInput) : M PreviewStore WebhookAnswer :=
  handlePreviewWebhook demo_sha demo_date no_text demo_hmac demo_json input demo_uuid first_instant.
Definition store_7 : PreviewStore := (demo_handle open_7 demo_store).2.
Definition store_8 : PreviewStore := (demo_handle open_8 store_7).2.
Definition store_closed : PreviewStore := (demo_handle close_7 store_8).2.

Definition answered (r : result WebhookAnswer) : list jsval :=
  match r with Ok a => map (obj_get "type") (an_actions a) | Throw _ => [] end.

(** The number and status of every deployment. *)
Definition previews (s : PreviewStore) : list (jsval * jsval) :=
  map (fun row => (obj_get "pullRequestNumber" row, obj_get "status" row)) (map_values (deployments (pv_plane s))).

(** ** Identifiers that are too short *)

(** Closing pull request 7 cleans up the preview of pull request 8, which is
    still open: the identifier of a lineage is cut after 63 characters, before
    the service and the number, so both pull requests have the same lineage. *)
Theorem closing_cleans_other_preview :
  answered (demo_handle open_7 demo_store).1 = [JStr "preview-deployment-enqueued"]
  /\ answered (demo_handle open_8 store_7).1 = [JStr "preview-deployment-enqueued"]
  /\ answered (demo_handle close_7 store_8).1 = [JStr "preview-cleanup-requested"]
  /\ previews store_8 = [(JNum (NInt 7), JStr "queued"); (JNum (NInt 8), JStr "queued")]
  /\ previews store_closed = [(JNum (NInt 7), JStr "PREVIEW_CLEANUP_REQUESTED"); (JNum (NInt 8), JStr "PREVIEW_CLEANUP_REQUESTED")].
Proof. split_and!; vm_compute; reflexivity. Qed.

(** Of two services of a project on the same repository, only the first gets a
    preview: the second finds the lineage of the first, moved by the same
    event, and is answered as a duplicate. *)
Theorem second_service_gets_no_preview :
  answered (demo_handle open_7 (store_with [(web, web_row); (api, api_row)])).1 = [JStr "preview-deployment-enqueued"; JStr "preview-duplicate"].
Proof. vm_compute. reflexivity. Qed.

(** ** The properties applied *)

Definition event_7 : PreviewWebhook :=
  mkWebhook "00000000-0000-4000-8000-000000000007" "11" "22" "school/site" 7 opened commit_a "feature" "main" None (at_minute 0).
Definition event_close : PreviewWebhook :=
  mkWebhook "00000000-0000-4000-8000-000000000009" "11" "22" "school/site" 7 closed commit_a "feature" "main" None (at_minute 2).

Lemma event_7_accepted : accepted demo_date event_7.
Proof. exists (JObj (canonicalPreviewWebhook event_7)). vm_compute. reflexivity. Qed.
Lemma event_close_accepted : accepted demo_date event_close.
Proof. exists (JObj (canonicalPreviewWebhook event_close)). vm_compute. reflexivity. Qed.

Definition demo_identity : PreviewIdentity := mkIdentity robotics_org site web "ghi" None.

Lemma webhook_round_trip_witness :
  parsePreviewWebhookPayload demo_date (JObj (canonicalPreviewWebhook event_7)) = Ok event_7
  /\ (previewWebhookPayloadMatches demo_date (JObj (canonicalPreviewWebhook event_7)) event_close = true <-> event_close = event_7).
Proof. apply (webhook_round_trip demo_date event_7 event_close event_7_accepted). Defined.

(** Opened and closed, in either order: closed. *)
Lemma deliveries_converge_witness :
  exists l l', deliveries demo_sha demo_date demo_identity "lineage" [event_7; event_close] = Some l
    /\ deliveries demo_sha demo_date demo_identity "lineage" [event_close; event_7] = Some l'
    /\ ln_state l = CLOSED /\ ln_state l' = CLOSED /\ shows demo_date [event_7; event_close] l.
Proof.
  destruct (deliveries_converge demo_sha demo_date demo_identity "lineage" [event_7; event_close] [event_close; event_7]) as (l & l' & H1 & H2 & _ & Hs & _ & H5).
  - repeat constructor; [apply event_7_accepted|apply event_close_accepted].
  - discriminate.
  - apply Permutation_swap.
  - assert (ln_state l = CLOSED) as Hc by (apply (f_equal (fmap ln_state)) in H1; vm_compute in H1; by injection H1).
    exists l, l'. split_and!; [exact H1|exact H2|exact Hc|rewrite <- Hs; exact Hc|exact H5].
Defined.

Definition first_transition : PreviewTransition :=
  match transitionPreviewLineage demo_sha demo_date None event_7 demo_identity "lineage" with
  | Ok t => t
  | Throw _ => mkTransition stale (mkLineage "" "" "" "" "" "" "" "" 0 "" "" "" OPEN 0 0 "" "" "" "" "" None None None None None None) false
  end.

(** The lineage is closed by a cleanup; an observation of its first version
    comes too late. *)
Definition late : PreviewObservation := mkObservation "lineage" 1 "11" "22" 7 false commit_a "feature" "main" (at_minute 1) (at_minute 1).
Definition cleaned_lineage : PreviewLineageRecord := closed_lineage (tr_lineage first_transition) "token".

Lemma lineage_fenced_witness :
  lineage_ok cleaned_lineage /\ addresses cleaned_lineage = addresses (tr_lineage first_transition)
  /\ applyPreviewObservation demo_date cleaned_lineage late = Throw (PreviewLifecycleError "PREVIEW_FOREIGN").
Proof.
  destruct (lineage_fenced demo_sha demo_date demo_identity "lineage" event_7 first_transition (tr_lineage first_transition) cleaned_lineage late) as (H1 & H2 & H3).
  - vm_compute. reflexivity.
  - apply rtc_refl.
  - apply rtc_once. apply step_cleanup. vm_compute. discriminate.
  - split_and!; [exact H1|exact H2|]. apply H3; vm_compute; [reflexivity|discriminate].
Defined.

(** A service whose project is gone: its quota owner is unknown, so that it is
    passed over when the pull request opens; when it closes, the preview of the
    other service is cleaned up before the handler fails, and is put back. *)
Definition ghost_row : jsobj := map_set "projectId" (JStr "gone") (map_set "id" (JStr "ghost") web_row).
Definition haunted : PreviewStore := (demo_handle open_7 (store_with [(web, web_row); ("ghost", ghost_row)])).2.

Lemma webhook_atomic_witness : previews haunted = [(JNum (NInt 7), JStr "queued")]
  /\ exists s', demo_handle close_7 haunted = (Throw type_error, s') /\ s' = haunted.
Proof.
  split; [vm_compute; reflexivity|]. destruct (demo_handle close_7 haunted) as [r s'] eqn:E.
  assert (r = Throw type_error) as -> by (apply (f_equal fst) in E; vm_compute in E; rewrite <- E; reflexivity).
  exists s'. split; [reflexivity|].
  apply (webhook_atomic demo_sha demo_date no_text demo_hmac demo_json close_7 demo_uuid first_instant haunted _ s' E).
Defined.

Lemma webhook_idempotent_witness : exists a, demo_handle open_7 demo_store = (Ok a, store_7) /\ an_actions a <> []
  /\ demo_handle open_7 store_7 = (Ok (mkAnswer true (an_deliveryId a) 0 []), store_7).
Proof.
  unfold store_7. destruct (demo_handle open_7 demo_store) as [r s'] eqn:E. cbn [snd].
  assert (exists a, r = Ok a /\ an_actions a <> []) as (a & -> & Ha) by (apply (f_equal fst) in E; vm_compute in E; subst r; eexists; split; [reflexivity|discriminate]).
  exists a. split_and!; [reflexivity|exact Ha|].
  exact (webhook_idempotent demo_sha demo_date no_text demo_hmac demo_json open_7 demo_uuid first_instant demo_store a s' demo_uuid first_instant E).
Defined.

(** After the three webhooks the lineage is closed and has no deployment. *)
Lemma lineages_refined_witness :
  let s' := foldl (run_op demo_sha demo_date no_text demo_hmac demo_json) demo_store
              [op_webhook open_7 demo_uuid first_instant; op_webhook open_8 demo_uuid first_instant; op_webhook close_7 demo_uuid first_instant] in
  map_values (previewLineages s') <> [] /\ keyed s' /\ forall key l, map_get key (previewLineages s') = Some l -> ln_id l = key /\ lineage_ok l.
Proof.
  cbv zeta. split; [vm_compute; discriminate|].
  destruct (lineages_refined demo_sha demo_date no_text demo_hmac demo_json
    [op_webhook open_7 demo_uuid first_instant; op_webhook open_8 demo_uuid first_instant; op_webhook close_7 demo_uuid first_instant] demo_store) as (Hk & _ & Hok).
  - intros key l. discriminate.
  - split; [exact Hk|exact (Hok eq_refl)].
Defined.

Close Scope Z_scope.
