(* ===== verification/EnvFiles.v ===== *)
(** * Environment files ([packages/core/src/env-file.ts], [env-policy.ts])

    Reading [.env] text and lists of variables, which of them are secret, how
    they are shown, and who may write them.  Quoted variables are read back as
    they were written; a [#] after white space cuts a value even inside quotes. *)

From S2P Require Import Prelude JsString JsMap JsVal Rbac Secrets ControlPlane.
From stdpp Require Import pretty.

Open Scope Z_scope.

(** ** Entries *)

Record EnvEntry := mkEntry { en_key : string; en_value : string; en_isSecret : bool; en_valueMasked : string; en_source : jsval }.

(** [/^[A-Za-z_][A-Za-z0-9_]*$/] *)
Definition key_start (c : ascii) : bool := is_lower c || is_upper c || (code c =? 95)%N.
Definition key_char (c : ascii) : bool := is_alnum c || (code c =? 95)%N.
Definition ENV_KEY_RE (key : string) : bool :=
  match chars key with c :: l => key_start c && forallb key_char l | [] => false end.

Definition mask_string (value : string) : string := unchars (mask_text (chars value)).

Definition env_entry (key value : string) (isSecret : bool) (source : jsval) : EnvEntry :=
  mkEntry key value isSecret (if isSecret then mask_string value else value) source.

(** ** Values of lines *)

Definition line_feed : ascii := chr 10.
Definition carriage_return : ascii := chr 13.
Definition backslash : ascii := chr 92.

(** [\s+#.*$] from here on *)
Definition comment_here (l : list ascii) : bool :=
  match l with
  | c :: _ =>
      is_space c &&
      match drop_while is_space l with
      | h :: rest => (code h =? 35)%N && forallb (fun x => negb ((code x =? 10)%N || (code x =? 13)%N)) rest
      | [] => false
      end
  | [] => false
  end.

Fixpoint strip_comment (l : list ascii) : list ascii :=
  match l with
  | [] => []
  | c :: rest => if comment_here l then [] else c :: strip_comment rest
  end.

(** [text.replace(/\\x/g, y)] for one letter after the backslash *)
Fixpoint unescape (letter : ascii) (by_ : ascii) (l : list ascii) : list ascii :=
  match l with
  | b :: ((c :: rest) as tail) =>
      if (code b =? 92)%N && (code c =? code letter)%N then by_ :: unescape letter by_ rest else b :: unescape letter by_ tail
  | _ => l
  end.

Definition quoted_by (q : N) (l : list ascii) : bool :=
  match l, rev l with a :: _, z :: _ => (code a =? q)%N && (code z =? q)%N | _, _ => false end.

(** [text.slice(1, -1)] *)
Definition inner (l : list ascii) : list ascii := take (length l - 2) (drop 1 l).

Definition unquoteEnvValue (value : string) : string :=
  let trimmed := strip_comment (chars value) in
  if quoted_by 34 trimmed then unchars (unescape "t"%char (chr 9) (unescape "r"%char carriage_return (unescape "n"%char line_feed (inner trimmed))))
  else if quoted_by 39 trimmed then unchars (inner trimmed)
  else unchars trimmed.

(** ** Lines *)

(** [text.split(/\r?\n/)]: a line loses one carriage return before its end. *)
Definition drop_return (l : list ascii) : list ascii :=
  match rev l with c :: r => if (code c =? 13)%N then rev r else l | [] => [] end.
Fixpoint drop_returns (ls : list (list ascii)) : list (list ascii) :=
  match ls with l :: ((_ :: _) as rest) => drop_return l :: drop_returns rest | _ => ls end.
Definition env_lines (text : string) : list string := map unchars (drop_returns (split_chars line_feed (chars text))).

Record EnvError := mkEnvError { ee_line : Z; ee_key : option string; ee_code : string }.

Inductive LineResult := NoEntry | Entry (e : EnvEntry) | BadLine (e : EnvError).

Definition without_export (trimmed : string) : string :=
  if startsWith trimmed "export " then trim (unchars (drop 7 (chars trimmed))) else trimmed.

Definition parse_line (source : jsval) (number : Z) (rawLine : string) : LineResult :=
  let trimmed := trim rawLine in
  if str_empty trimmed || startsWith trimmed "#" then NoEntry
  else
    match break_at (fun c => (code c =? 61)%N) (chars (without_export trimmed)) with
    | ((_ :: _) as before, Some after) =>
        let key := trim (unchars before) in
        let value := unquoteEnvValue (trim (unchars after)) in
        if ENV_KEY_RE key then Entry (env_entry key value (isSecretKey key) source)
        else BadLine (mkEnvError number (Some key) "INVALID_ENV_KEY")
    | _ => BadLine (mkEnvError number None "INVALID_ENV_LINE")
    end.

Fixpoint parse_lines (source : jsval) (number : Z) (lines : list string) : list EnvEntry * list EnvError :=
  match lines with
  | [] => ([], [])
  | line :: rest =>
      let '(entries_, errors) := parse_lines source (number + 1) rest in
      match parse_line source number line with
      | NoEntry => (entries_, errors)
      | Entry e => (e :: entries_, errors)
      | BadLine e => (entries_, e :: errors)
      end
  end.

Record ParsedEnv := mkParsed { pe_entries : list EnvEntry; pe_errors : list EnvError; pe_plainCount : nat; pe_secretCount : nat }.

Definition error_text (e : EnvError) : string := "line " +:+ pretty (ee_line e) +:+ " " +:+ ee_code e.
Definition invalid_env (errors : list EnvError) : jserror :=
  JsError "Error" ("invalid .env content: " +:+ JsVal.join ", " (map error_text errors)) (Some 400).

Definition parseDotEnv (text : string) (source : string) (throwOnError : bool) : result ParsedEnv :=
  let '(entries_, errors) := parse_lines (JStr (str_or source ".env")) 1 (env_lines text) in
  _ ← throw_if (negb (bool_decide (length errors = 0%nat)) && throwOnError) (invalid_env errors);
  Ok (mkParsed entries_ errors (length (filter (fun e => en_isSecret e = false) entries_)) (length (filter (fun e => en_isSecret e = true) entries_))).

(** ** Lists of variables *)

Definition is_true (v : jsval) : bool := match v with JBool true => true | _ => false end.

Definition invalid_env_key (key : string) : jserror := JsError "Error" ("invalid environment key: " +:+ key) (Some 400).

(** Reading a property of [null] or [undefined] throws. *)
Definition property (k : string) (v : jsval) : result jsval :=
  match v with JNull | JUndef => Throw (JsError "TypeError" "cannot read properties of null" None) | _ => Ok (field k v) end.

Definition normalize_entry (source : string) (entry : jsval) : result EnvEntry :=
  rawKey ← property "key" entry;
  let key := trim (js_String (js_or rawKey (JStr ""))) in
  _ ← throw_if (negb (ENV_KEY_RE key)) (invalid_env_key key);
  let value := js_String (js_nullish (field "value" entry) (JStr "")) in
  let isSecret := is_true (field "isSecret" entry) || isSecretKey key in
  Ok (env_entry key value isSecret (js_or (field "source" entry) (JStr source))).

Fixpoint normalize_entries (source : string) (raw : list jsval) : result (list EnvEntry) :=
  match raw with
  | [] => Ok []
  | entry :: rest => e ← normalize_entry source entry; es ← normalize_entries source rest; Ok (e :: es)
  end.

(** [source] is the option; it defaults to [.env] for text and [json] for values. *)
Definition normalizeEnvEntries (input : jsval) (source : string) : result (list EnvEntry) :=
  match input with
  | JStr text => parsed ← parseDotEnv text source true; Ok (pe_entries parsed)
  | JArr l => normalize_entries (str_or source "json") l
  | _ => normalize_entries (str_or source "json") (map (fun kv => JObj [("key", JStr kv.1); ("value", kv.2)]) (entries input))
  end.

(** ** What is shown *)

Definition maskEnvEntry (row : jsobj) : jsobj :=
  let secret := truthy (obj_get "isSecret" row) in
  [("key", obj_get "key" row); ("isSecret", JBool (is_true (obj_get "isSecret" row)));
   ("value", if secret then JUndef else obj_get "value" row);
   ("valueMasked", if secret then js_or (obj_get "valueMasked" row) (maskSecretValue (obj_get "value" row))
                   else JStr (js_String (js_nullish (obj_get "value" row) (JStr ""))));
   ("source", js_or (obj_get "source" row) (JStr "api")); ("updatedAt", js_or (obj_get "updatedAt" row) JNull)].

Definition maskEnvEntries (rows : list jsobj) : list jsobj := map maskEnvEntry rows.

(** ** Who may write *)

Definition secretEnvironmentKeys (entries_ : list EnvEntry) : list string :=
  map en_key (filter (fun e => (en_isSecret e || isSecretKey (en_key e)) = true) entries_).

Definition assertEnvironmentWriteAllowed (role : jsval) (entries_ : list EnvEntry) : result unit :=
  if can role "env:write" then Ok tt
  else
    let secretKeys := secretEnvironmentKeys entries_ in
    throw_if (negb (bool_decide (secretKeys = [])))
      (JsError "Error" ("role " +:+ js_String role +:+ " requires env:write to modify secret environment keys: " +:+ JsVal.join ", " secretKeys) (Some 403)).

(** ** Writing variables as text *)

Definition quote : ascii := "'"%char.
Definition env_line (kv : string * string) : string := unchars (chars kv.1 ++ "="%char :: quote :: chars kv.2 ++ [quote]).
Definition env_text (vars : list (string * string)) : string := JsVal.join (unchars [line_feed]) (map env_line vars).

(** White space right before a [#] *)
Fixpoint spaced_hash (l : list ascii) : bool :=
  match l with
  | c :: ((h :: _) as rest) => (is_space c && (code h =? 35)%N) || spaced_hash rest
  | _ => false
  end.

Definition writable (value : string) : bool :=
  negb (existsb (fun c => (code c =? 10)%N || (code c =? 13)%N) (chars value)) && negb (spaced_hash (chars value)).

(** ** Values *)

Lemma spaced_hash_cons c h l : spaced_hash (c :: h :: l) = (is_space c && (code h =? 35)%N) || spaced_hash (h :: l).
Proof. reflexivity. Qed.

Lemma comment_here_cons c l : comment_here (c :: l) =
  is_space c && match drop_while is_space (c :: l) with
                | h :: rest => (code h =? 35)%N && forallb (fun x => negb ((code x =? 10)%N || (code x =? 13)%N)) rest
                | [] => false
                end.
Proof. reflexivity. Qed.

Lemma comment_spaced l : comment_here l = true -> spaced_hash l = true.
Proof.
  induction l as [|c l IH]; [done|]. rewrite comment_here_cons. intros [Hc H]%andb_true_iff.
  cbn [drop_while] in H. rewrite Hc in H. destruct l as [|h l]; [done|]. rewrite spaced_hash_cons, Hc. apply orb_true_iff.
  destruct (is_space h) eqn:Hh; [right|left].
  - apply IH. rewrite comment_here_cons, Hh. exact H.
  - cbn [drop_while] in H. rewrite Hh in H. by apply andb_true_iff in H as [-> _].
Qed.

Lemma strip_comment_id l : spaced_hash l = false -> strip_comment l = l.
Proof.
  induction l as [|c l IH]; [done|]. intros H. cbn [strip_comment].
  destruct (comment_here (c :: l)) eqn:E; [apply comment_spaced in E; congruence|]. f_equal. apply IH.
  destruct l; [done|]. rewrite spaced_hash_cons in H. by apply orb_false_iff in H as [_ ->].
Qed.

Lemma spaced_hash_snoc l z : (code z =? 35)%N = false -> spaced_hash (l ++ [z]) = spaced_hash l.
Proof.
  intros Hz. induction l as [|c l IH]; [done|]. destruct l as [|h l]; [cbn; by rewrite Hz, andb_false_r|].
  change ((c :: h :: l) ++ [z]) with (c :: h :: (l ++ [z])). rewrite !spaced_hash_cons. f_equal. exact IH.
Qed.

Lemma inner_quoted l : inner (quote :: l ++ [quote]) = l.
Proof. unfold inner. cbn [drop length]. rewrite length_app. cbn [length]. replace (S (length l + 1) - 2)%nat with (length l) by lia. apply take_app_length. Qed.

Lemma unquote_quoted v : spaced_hash (chars v) = false -> unquoteEnvValue (unchars (quote :: chars v ++ [quote])) = v.
Proof.
  intros Hv. unfold unquoteEnvValue. rewrite chars_unchars, strip_comment_id.
  2: { destruct (chars v ++ [quote]) as [|h k] eqn:E; [done|]. rewrite spaced_hash_cons, <- E. by rewrite spaced_hash_snoc. }
  cbv zeta. unfold quoted_by. cbn [rev app]. rewrite rev_app_distr. cbn [rev app].
  replace (code quote =? 34)%N with false by done. replace (code quote =? 39)%N with true by done. cbn [andb].
  by rewrite inner_quoted, unchars_chars.
Qed.

(** ** Lines *)

Lemma key_char_facts c : key_char c = true -> is_space c = false /\ (code c =? 61)%N = false /\ (code c =? 10)%N = false.
Proof. char_cases c; vm_compute; intuition congruence. Qed.

Lemma key_start_facts c : key_start c = true -> key_char c = true /\ (code c =? 35)%N = false.
Proof. char_cases c; vm_compute; intuition congruence. Qed.

Lemma hash_apart c : (code c =? 35)%N = false -> Ascii.eqb "#" c = false.
Proof. char_cases c; vm_compute; congruence. Qed.

Lemma env_key_cons key : ENV_KEY_RE key = true -> exists c l, chars key = c :: l /\ key_start c = true /\ forallb key_char (c :: l) = true.
Proof.
  unfold ENV_KEY_RE. destruct (chars key) as [|c l]; [done|]. intros [Hc Hl]%andb_true_iff. exists c, l. split_and!; [done|done|].
  cbn [forallb]. by rewrite (proj1 (key_start_facts c Hc)), Hl.
Qed.

Lemma strip_ends (a z : ascii) l : is_space a = false -> is_space z = false -> strip_chars is_space (a :: l ++ [z]) = a :: l ++ [z].
Proof.
  intros Ha Hz. apply strip_chars_id.
  - intros x k [= <- _]. done.
  - intros x k H. change (a :: l ++ [z]) with ((a :: l) ++ [z]) in H. by apply app_inj_tail in H as [_ <-].
Qed.

Lemma strip_words l : forallb key_char l = true -> strip_chars is_space l = l.
Proof.
  intros H. rewrite forallb_forall in H. apply strip_chars_id; intros x k ->; apply key_char_facts, H; [by left|apply in_or_app; right; by left].
Qed.

Lemma break_key l rest : forallb key_char l = true -> break_at (fun c => (code c =? 61)%N) (l ++ "="%char :: rest) = (l, Some rest).
Proof.
  induction l as [|c l IH]; [done|]. cbn [forallb app break_at]. intros [Hc Hl]%andb_true_iff.
  destruct (key_char_facts c Hc) as (_ & -> & _). by rewrite IH.
Qed.

Lemma drop_key l x rest : forallb key_char l = true -> key_char x = false -> drop_while key_char (l ++ x :: rest) = x :: rest.
Proof. intros Hl Hx. induction l as [|c l IH]; cbn; [by rewrite Hx|]. cbn in Hl. apply andb_true_iff in Hl as [-> Hl]. by apply IH. Qed.

Lemma no_export l rest : forallb key_char l = true -> startsWith (unchars (l ++ "="%char :: rest)) "export " = false.
Proof.
  intros Hl. apply not_true_is_false. intros (t & E)%startsWith_spec. apply (f_equal chars) in E. rewrite chars_unchars, chars_app in E.
  apply (f_equal (drop_while key_char)) in E. rewrite drop_key in E by done.
  change (chars "export ") with (chars "export" ++ [" "%char]) in E. rewrite <- app_assoc in E. cbn [app] in E.
  rewrite drop_key in E by done. discriminate E.
Qed.

Lemma parse_env_line source number key value : ENV_KEY_RE key = true -> writable value = true ->
  parse_line source number (env_line (key, value)) = Entry (env_entry key value (isSecretKey key) source).
Proof.
  intros (c & l & Hk & Hc & Hl)%env_key_cons [_ Hv%negb_true_iff]%andb_true_iff. unfold parse_line, env_line. cbn [fst snd].
  destruct (key_start_facts c Hc) as [Hcc Hch]. destruct (key_char_facts c Hcc) as (Hcs & _ & _).
  assert (trim (unchars (chars key ++ "="%char :: quote :: chars value ++ [quote])) = unchars (chars key ++ "="%char :: quote :: chars value ++ [quote])) as Ht.
  { unfold trim. rewrite chars_unchars. f_equal. rewrite Hk. change ((c :: l) ++ "="%char :: quote :: chars value ++ [quote]) with (c :: l ++ ("="%char :: quote :: chars value) ++ [quote]).
    rewrite app_assoc. by apply strip_ends. }
  rewrite Ht. cbv zeta.
  replace (str_empty _ || startsWith _ "#") with false.
  2: { symmetry. unfold startsWith. rewrite chars_unchars, Hk. apply orb_false_iff. split; [done|]. cbn. rewrite andb_true_r. by apply hash_apart. }
  unfold without_export. rewrite no_export by (by rewrite Hk). rewrite chars_unchars, break_key by (by rewrite Hk).
  rewrite Hk. cbv iota beta zeta. rewrite <- Hk, unchars_chars.
  assert (trim key = key) as -> by (unfold trim; rewrite Hk, strip_words, <- Hk by done; apply unchars_chars).
  unfold trim at 1. rewrite chars_unchars, strip_ends by done. rewrite unquote_quoted by done.
  assert (ENV_KEY_RE key = true) as -> by (unfold ENV_KEY_RE; rewrite Hk; cbn [forallb] in Hl; apply andb_true_iff in Hl as [_ ->]; by rewrite Hc).
  done.
Qed.

(** ** Whole files *)

Lemma split_join (ls : list (list ascii)) x : Forall (fun l => x ∉ l) ls -> ls <> [] ->
  split_chars x (chars (JsVal.join (unchars [x]) (map unchars ls))) = ls.
Proof.
  intros H Hne. induction H as [|l ls Hl Hls IH]; [done|]. destruct ls as [|k ls].
  - cbn. rewrite chars_unchars. by apply split_chars_none.
  - change (JsVal.join (unchars [x]) (map unchars (l :: k :: ls))) with (unchars l +:+ unchars [x] +:+ JsVal.join (unchars [x]) (map unchars (k :: ls))).
    rewrite !chars_app, !chars_unchars. cbn [app]. rewrite split_chars_sep by done. by rewrite IH.
Qed.

Lemma env_line_breaks key value x : ENV_KEY_RE key = true -> writable value = true -> (code x =? 10)%N || (code x =? 13)%N = true -> x ∉ chars (env_line (key, value)).
Proof.
  intros (c & l & Hk & _ & Hl)%env_key_cons [Hv%negb_true_iff _]%andb_true_iff Hx Hin. unfold env_line in Hin. cbn [fst snd] in Hin. rewrite chars_unchars, Hk in Hin.
  apply elem_of_app in Hin as [Hin|Hin].
  - rewrite forallb_forall in Hl. apply list_elem_of_In, Hl in Hin. revert Hx Hin. clear. char_cases x; vm_compute; congruence.
  - apply elem_of_cons in Hin as [-> |Hin]; [done|]. apply elem_of_cons in Hin as [-> |Hin]; [done|].
    apply elem_of_app in Hin as [Hin|Hin%list_elem_of_singleton]; [|by subst].
    assert (existsb (fun c => (code c =? 10)%N || (code c =? 13)%N) (chars value) = true); [|congruence].
    apply existsb_exists. exists x. split; [by apply list_elem_of_In|done].
Qed.

Lemma drop_returns_id ls : Forall (fun l => carriage_return ∉ l) ls -> drop_returns ls = ls.
Proof.
  assert (forall l, carriage_return ∉ l -> drop_return l = l) as Hd.
  { intros l Hl. unfold drop_return. destruct (rev l) as [|c r] eqn:E; [apply (f_equal (@rev ascii)) in E; by rewrite rev_involutive in E|].
    destruct (code c =? 13)%N eqn:Ec; [|done]. exfalso. apply Hl. assert (c = carriage_return) as <- by (revert Ec; clear; char_cases c; vm_compute; congruence).
    apply list_elem_of_In, in_rev. rewrite E. by left. }
  induction 1 as [|l ls Hl Hls IH]; [done|]. destruct ls; [done|]. cbn [drop_returns]. by rewrite Hd, <- IH at 1.
Qed.

Lemma env_lines_text vars : vars <> [] -> Forall (fun kv => ENV_KEY_RE kv.1 = true /\ writable kv.2 = true) vars ->
  env_lines (env_text vars) = map env_line vars.
Proof.
  intros Hne H. unfold env_lines, env_text.
  replace (map env_line vars) with (map unchars (map (fun kv => chars (env_line kv)) vars)) by (rewrite map_map; apply map_ext; intros kv; apply unchars_chars).
  f_equal. rewrite split_join.
  - apply drop_returns_id. apply Forall_map. eapply Forall_impl; [exact H|]. intros [key value] [? ?]. by apply env_line_breaks.
  - apply Forall_map. eapply Forall_impl; [exact H|]. intros [key value] [? ?]. by apply env_line_breaks.
  - by destruct vars.
Qed.

Lemma parse_env_lines source number vars : Forall (fun kv => ENV_KEY_RE kv.1 = true /\ writable kv.2 = true) vars ->
  parse_lines source number (map env_line vars) = (map (fun kv => env_entry kv.1 kv.2 (isSecretKey kv.1) source) vars, []).
Proof.
  intros H. revert number. induction H as [|[key value] vars [Hk Hv] _ IH]; intros number; [done|]. cbn [map parse_lines].
  by rewrite IH, parse_env_line.
Qed.

(** Environment files round trip: writing variables one per line, each
    value between single quotes, and parsing the text gives the same variables
    in order, each marked secret by its key, with no error; for values without
    line breaks and without a [#] after white space. *)
Theorem env_file_round_trip vars source :
  Forall (fun kv => ENV_KEY_RE kv.1 = true /\ writable kv.2 = true) vars ->
  exists parsed, parseDotEnv (env_text vars) source true = Ok parsed /\ pe_errors parsed = []
    /\ map (fun e => (en_key e, en_value e)) (pe_entries parsed) = vars
    /\ Forall (fun e => en_isSecret e = isSecretKey (en_key e)) (pe_entries parsed)
    /\ (pe_plainCount parsed + pe_secretCount parsed)%nat = length vars.
Proof.
  intros H. assert (parse_lines (JStr (str_or source ".env")) 1 (env_lines (env_text vars))
    = (map (fun kv => env_entry kv.1 kv.2 (isSecretKey kv.1) (JStr (str_or source ".env"))) vars, [])) as Hp.
  { destruct vars as [|kv vars']; [done|]. rewrite env_lines_text by done. by apply parse_env_lines. }
  unfold parseDotEnv. rewrite Hp. eexists. split; [reflexivity|]. split_and!; [done| | |]; cbn [pe_entries pe_plainCount pe_secretCount].
  - rewrite map_map. cbn. rewrite <- (map_id vars) at 2. apply map_ext. by intros [].
  - apply Forall_map, Forall_true. done.
  - clear. induction vars as [|kv vars IH]; [done|]. cbn [map]. rewrite !filter_cons. cbn [en_isSecret env_entry length].
    destruct (isSecretKey kv.1); repeat (case_decide; try done); cbn [length]; lia.
Qed.

(** ** Comments cut quoted values *)

(** The comment is cut off before the quotes are looked at: a quoted value with
    a [#] after a space loses its end and keeps its opening quote. *)
Theorem quoted_comment_cut source number :
  parse_line source number "GREETING='hello #1'" = Entry (env_entry "GREETING" "'hello" false source).
Proof. reflexivity. Qed.

(** ** Application *)

Definition sample_vars : list (string * string) := [("GREETING", "hello world"); ("DATABASE_URL", "postgres://u:p#w@db/x"); ("EMPTY", "")].

Lemma env_file_round_trip_witness :
  exists parsed, parseDotEnv (env_text sample_vars) "" true = Ok parsed /\ pe_errors parsed = []
    /\ map (fun e => (en_key e, en_value e)) (pe_entries parsed) = sample_vars
    /\ Forall (fun e => en_isSecret e = isSecretKey (en_key e)) (pe_entries parsed)
    /\ (pe_plainCount parsed + pe_secretCount parsed)%nat = length sample_vars.
Proof. apply (env_file_round_trip sample_vars ""). repeat constructor. Defined.

Close Scope Z_scope.
