(* ===== verification/Environments.v ===== *)
(** * Environments of services ([packages/core/src/store.ts], [secret-vault.ts])

    Secrets are sealed with AES-256-GCM under a key derived from the
    configuration; variables of a service are written to its row, to the
    runtime specification and to the table of variables, secret values only to
    the vault.  The cipher, its random vectors and SHA-256 are parameters. *)

From S2P Require Import Prelude JsString JsMap JsVal Ids Secrets Accounts Workflows ControlPlane EnvFiles.

Open Scope Z_scope.

(** ** The vault *)

Record VaultEnv := mkVaultEnv { ve_encryptionKey : string; ve_secretEncryptionKey : string; ve_nodeEnv : string }.

Definition DEV_KEY : string := "raibitserver-local-dev-encryption-key-32b".

Definition configured_key (env : VaultEnv) : string := str_or (ve_encryptionKey env) (ve_secretEncryptionKey env).

Section Vault.
(** SHA-256 of a text; encryption of a text under a key and a vector gives the
    ciphertext and the tag in base64url, decryption [None] when the tag does
    not authenticate. *)
Context (sha256 : string -> string) (gcm_encrypt : string -> string -> string -> string * string) (gcm_decrypt : string -> string -> string -> string -> option string).

(** [secret] is the option, which defaults to the configuration. *)
Definition keyMaterial (env : VaultEnv) (option_ : option string) : result string :=
  let configured := configured_key env in
  let secret := default (str_or configured DEV_KEY) option_ in
  let usingRuntimeDefault := str_empty secret || bool_decide (secret = DEV_KEY) || bool_decide (secret = configured) in
  _ ← throw_if (usingRuntimeDefault && (str_empty configured || (str_length configured <? 32)) && bool_decide (toLowerCase (ve_nodeEnv env) = "production"))
        (JsError "Error" "RAIBITSERVER_SECRET_ENCRYPTION_KEY or ENCRYPTION_KEY with at least 32 characters is required in production" None);
  Ok (sha256 secret).

(** [iv] is the random vector in base64url. *)
Definition sealSecret (env : VaultEnv) (option_ : option string) (iv value : string) : result string :=
  key ← keyMaterial env option_;
  let '(ciphertext, tag) := gcm_encrypt key iv value in
  Ok (JsVal.join ":" ["aes256gcm"; "v1"; iv; tag; ciphertext]).

Definition unsupported_seal : jserror := JsError "Error" "unsupported sealed secret format" None.
Definition unauthentic : jserror := JsError "Error" "Unsupported state or unable to authenticate data" None.
Definition missing_part : jserror := JsError "TypeError" "The first argument must be of type string or an instance of Buffer" None.

Definition openSecret (env : VaultEnv) (option_ : option string) (sealed : string) : result string :=
  match split_on ":"%char sealed with
  | alg :: version :: parts =>
      if bool_decide (alg = "aes256gcm") && bool_decide (version = "v1") then
        key ← keyMaterial env option_;
        match parts with
        | iv :: tag :: ciphertext :: _ => match gcm_decrypt key iv tag ciphertext with Some value => Ok value | None => Throw unauthentic end
        | _ => Throw missing_part
        end
      else Throw unsupported_seal
  | _ => Throw unsupported_seal
  end.

(** ** The store *)

Record SecretRow := mkSecretRow {
  sec_id : string; sec_scopeType : string; sec_scopeId : string; sec_key : string; sec_sealedValue : string;
  sec_valueMasked : string; sec_metadata : jsval; sec_createdAt : Z; sec_updatedAt : Z
}.

Record EnvStore := mkEnvStore { ev_plane : ControlPlane; secrets : jsmap SecretRow; environmentVariables : jsmap jsobj }.

#[export] Instance EnvStore_rebuild : Rebuild EnvStore := fun s => mkEnvStore (ev_plane s) (secrets s) (environmentVariables s).

Definition ev_on_plane {A} (m : M ControlPlane A) : M EnvStore A := fun s =>
  let '(r, plane) := m (ev_plane s) in (r, s <| ev_plane := plane |>).

(** What is random in a request: the identifier drawn for a new secret and the
    vector drawn when a value is sealed. *)
Record Draws := mkDraws { dr_secret : string -> string; dr_iv : string -> string }.

Definition same_secret (scopeType scopeId key : string) (row : SecretRow) : Prop :=
  sec_scopeType row = scopeType /\ sec_scopeId row = scopeId /\ sec_key row = key.
#[export] Instance same_secret_dec scopeType scopeId key row : Decision (same_secret scopeType scopeId key row).
Proof. unfold same_secret. apply _. Defined.

Context (vault : VaultEnv).

Definition createSecret (scopeType scopeId key value actorUserId : string) (metadata : jsval) (draws : Draws) (now : Z) : M EnvStore string :=
  s ← get;
  let existing := js_find (same_secret scopeType scopeId key) (map_values (secrets s)) in
  let id := match existing with Some row => str_or (sec_id row) ("sec_" +:+ dr_secret draws key) | None => "sec_" +:+ dr_secret draws key end in
  sealed ← lift (sealSecret vault None (dr_iv draws key) value);
  let row := mkSecretRow id scopeType scopeId key sealed (mask_string value) (maskSecrets metadata)
               (match existing with Some row => sec_createdAt row | None => now end) now in
  _ ← modify (fun s => s <| secrets := map_set id row (secrets s) |>);
  _ ← ev_on_plane (cp_audit actorUserId "secret:upsert" scopeType scopeId (JObj [("key", JStr key); ("secretId", JStr id)]) now);
  mret id.

Definition getSecretValue (secretId : string) (s : EnvStore) : result (option string) :=
  match map_get secretId (secrets s) with
  | Some row => if str_empty (sec_sealedValue row) then Ok None else value ← openSecret vault None (sec_sealedValue row); Ok (Some value)
  | None => Ok None
  end.

(** [object[key] = value] on a plain object: the prototype cannot be a string. *)
Definition assign (key : string) (value : jsval) (object : jsobj) : jsobj :=
  if bool_decide (key = "__proto__") then object else map_set key value object.

Record Written := mkWritten { wr_environment : jsobj; wr_runtimeEnv : jsobj; wr_rows : list jsobj }.

Definition secret_json (secretId : option string) : jsval := match secretId with Some id => JStr id | None => JNull end.

Definition env_row (projectId serviceId : string) (entry : EnvEntry) (secretId : option string) (source : string) (now : Z) : jsobj :=
  [("id", JStr (stableId "env" [JStr serviceId; JStr (en_key entry)])); ("projectId", JStr projectId); ("serviceId", JStr serviceId);
   ("key", JStr (en_key entry)); ("value", if en_isSecret entry then JNull else JStr (en_value entry)); ("isSecret", JBool (en_isSecret entry));
   ("secretId", secret_json secretId); ("valueMasked", JStr (en_valueMasked entry));
   ("source", js_or (en_source entry) (JStr source)); ("updatedAt", timestamp now)].

Definition write_entry (projectId serviceId actorUserId source : string) (entry : EnvEntry) (draws : Draws) (now : Z) (w : Written) : M EnvStore Written :=
  secretId ← (if en_isSecret entry then
                id ← createSecret "service" serviceId (en_key entry) (en_value entry) actorUserId (JObj [("source", en_source entry)]) draws now;
                mret (Some id)
              else mret None);
  let environment := assign (en_key entry) (if en_isSecret entry then JStr ("secret:" +:+ js_String (secret_json secretId)) else JStr (en_value entry)) (wr_environment w) in
  let runtimeEnv := if en_isSecret entry then map_delete (en_key entry) (wr_runtimeEnv w) else assign (en_key entry) (JStr (en_value entry)) (wr_runtimeEnv w) in
  let row := env_row projectId serviceId entry secretId source now in
  _ ← modify (fun s => s <| environmentVariables := map_set (js_String (obj_get "id" row)) row (environmentVariables s) |>);
  mret (mkWritten environment runtimeEnv (wr_rows w ++ [row])).

Fixpoint write_entries (projectId serviceId actorUserId source : string) (entries_ : list EnvEntry) (draws : Draws) (now : Z) (w : Written) : M EnvStore Written :=
  match entries_ with
  | [] => mret w
  | entry :: rest => w' ← write_entry projectId serviceId actorUserId source entry draws now w; write_entries projectId serviceId actorUserId source rest draws now w'
  end.

Record EnvAnswer := mkEnvAnswer { ea_serviceId : string; ea_entries : list jsobj; ea_plainCount : nat; ea_secretCount : nat }.

Definition env_answer (serviceId : string) (rows : list jsobj) : EnvAnswer :=
  mkEnvAnswer serviceId (maskEnvEntries rows)
    (length (filter (fun row => truthy (obj_get "isSecret" row) = false) rows)) (length (filter (fun row => truthy (obj_get "isSecret" row) = true) rows)).

Definition service_of (projectId serviceId : string) (s : EnvStore) : result jsobj :=
  match map_get serviceId (services (ev_plane s)) with
  | None => Throw (notFound ("service not found: " +:+ serviceId))
  | Some service =>
      _ ← throw_if (negb (bool_decide (js_String (obj_get "projectId" service) = projectId))) (forbidden "service does not belong to project");
      Ok service
  end.

Definition service_with_environment (service : jsobj) (w : Written) (now : Z) : jsobj :=
  let desiredSpec := entries (obj_get "desiredSpec" service) in
  spread service
    [("environment", JObj (wr_environment w));
     ("desiredSpec", JObj (if bool_decide (wr_runtimeEnv w = []) then map_delete "env" desiredSpec else map_set "env" (JObj (wr_runtimeEnv w)) desiredSpec));
     ("updatedAt", timestamp now)].

Definition upsertServiceEnvironment (projectId serviceId : string) (input : jsval) (actorUserId source : string) (draws : Draws) (now : Z) : M EnvStore EnvAnswer :=
  s ← get;
  service ← lift (service_of projectId serviceId s);
  normalizedEntries ← lift (normalizeEnvEntries input source);
  let start := mkWritten (entries (obj_get "environment" service)) (entries (obj_get "env" (entries (obj_get "desiredSpec" service)))) [] in
  w ← write_entries projectId serviceId actorUserId source normalizedEntries draws now start;
  _ ← ev_on_plane (modify (fun p => p <| services := map_set serviceId (service_with_environment service w now) (services p) |>));
  _ ← ev_on_plane (cp_audit actorUserId "service.env:upsert" "service" serviceId
        (JObj [("keys", JArr (map (fun e => JStr (en_key e)) normalizedEntries)); ("source", JStr source)]) now);
  mret (env_answer serviceId (wr_rows w)).

Definition entry_json (e : EnvEntry) : jsval :=
  JObj [("key", JStr (en_key e)); ("value", JStr (en_value e)); ("isSecret", JBool (en_isSecret e)); ("valueMasked", JStr (en_valueMasked e)); ("source", en_source e)].

Definition importServiceEnvFile (projectId serviceId content actorUserId source : string) (draws : Draws) (now : Z) : M EnvStore (EnvAnswer * ParsedEnv) :=
  parsed ← lift (parseDotEnv content source true);
  answer ← upsertServiceEnvironment projectId serviceId (JArr (map entry_json (pe_entries parsed))) actorUserId source draws now;
  mret (answer, parsed).

Definition listServiceEnvironment (projectId serviceId : string) (s : EnvStore) : result EnvAnswer :=
  _ ← service_of projectId serviceId s;
  Ok (env_answer serviceId (filter (fun row => js_String (obj_get "serviceId" row) = serviceId) (map_values (environmentVariables s)))).
End Vault.

Close Scope Z_scope.
