(* ===== verification/EnvironmentSafety.v ===== *)
(** * Properties of service environments

    Sealed values open to what was sealed; secret values go to the vault and
    nowhere else; and what was written is what a service gets. *)

From S2P Require Import Prelude JsString JsMap JsVal Ids Secrets Accounts Workflows ControlPlane EnvFiles Environments.

Open Scope Z_scope.

Section Safety.
Context (sha256 : string -> string) (gcm_encrypt : string -> string -> string -> string * string) (gcm_decrypt : string -> string -> string -> string -> option string).
Context (vault : VaultEnv).

Notation upsert := (upsertServiceEnvironment sha256 gcm_encrypt vault).

(** ** Only the vault sees secret values *)

(** The store without its sealed values. *)
Definition shown_secret (row : SecretRow) : SecretRow :=
  mkSecretRow (sec_id row) (sec_scopeType row) (sec_scopeId row) (sec_key row) "" (sec_valueMasked row) (sec_metadata row) (sec_createdAt row) (sec_updatedAt row).
Definition shown_secrets (m : jsmap SecretRow) : jsmap SecretRow := map (fun kv => (kv.1, shown_secret kv.2)) m.
Definition shown (s : EnvStore) : EnvStore := mkEnvStore (ev_plane s) (shown_secrets (secrets s)) (environmentVariables s).

(** Two entries that differ at most in a secret value with the same mask. *)
Definition same_shown (e e' : EnvEntry) : Prop :=
  en_key e = en_key e' /\ en_isSecret e = en_isSecret e' /\ en_valueMasked e = en_valueMasked e' /\ en_source e = en_source e'.

(** Entries show a secret value masked and a plain value as it is. *)
Definition entry_ok (e : EnvEntry) : Prop := en_valueMasked e = if en_isSecret e then mask_string (en_value e) else en_value e.

(** Two computations that answer the same and show the same. *)
Definition alike {A} (m m' : M EnvStore A) : Prop :=
  forall s s', shown s = shown s' -> (m s).1 = (m' s').1 /\ shown (m s).2 = shown (m' s').2.

Lemma alike_ret {A} (a : A) : alike (mret a) (mret a).
Proof. intros s s' H. done. Qed.

Lemma alike_lift {A} (r : result A) : alike (lift r) (lift r).
Proof. intros s s' H. done. Qed.

Lemma alike_bind {A B} (m m' : M EnvStore A) (f f' : A -> M EnvStore B) :
  alike m m' -> (forall a, alike (f a) (f' a)) -> alike (m ≫= f) (m' ≫= f').
Proof.
  intros Hm Hf s s' H. unfold mbind, M_bind. destruct (Hm s s' H) as [H1 H2]. destruct (m s) as [r t], (m' s') as [r' t']. cbn in H1, H2. subst r'.
  destruct r as [a|e]; [by apply Hf|done].
Qed.

Lemma alike_plane {A} (m : M ControlPlane A) : alike (ev_on_plane m) (ev_on_plane m).
Proof.
  intros [p x y] [p' x' y'] [= -> Hx ->]. unfold ev_on_plane. cbn [ev_plane]. destruct (m p') as [r q]. split; [done|].
  unfold shown. cbn -[shown_secrets]. by rewrite Hx.
Qed.

Lemma alike_modify f f' : (forall s s', shown s = shown s' -> shown (f s) = shown (f' s')) -> alike (modify f) (modify f').
Proof. intros H s s' Hs. split; [done|]. cbn. by apply H. Qed.

Lemma alike_get {A} (f f' : EnvStore -> M EnvStore A) : (forall s s', shown s = shown s' -> alike (f s) (f' s')) -> alike (get ≫= f) (get ≫= f').
Proof. intros H s s' Hs. rewrite !run_get. by apply H. Qed.

Lemma shown_set id row m : shown_secrets (map_set id row m) = map_set id (shown_secret row) (shown_secrets m).
Proof. unfold shown_secrets. induction m as [|[k r] m IH]; [done|]. cbn [map_set map fst snd]. case_decide; [done|]. cbn [map fst snd]. f_equal. exact IH. Qed.

Lemma shown_values m : map_values (shown_secrets m) = map shown_secret (map_values m).
Proof. unfold map_values, shown_secrets. by induction m as [|[k r] m IH]; [|cbn; f_equal]. Qed.

Lemma find_shown scopeType scopeId key l :
  shown_secret <$> js_find (same_secret scopeType scopeId key) l = js_find (same_secret scopeType scopeId key) (map shown_secret l).
Proof.
  unfold js_find. change (map shown_secret l) with (shown_secret <$> l). rewrite list_find_fmap, <- !option_fmap_compose.
  change (same_secret scopeType scopeId key ∘ shown_secret) with (same_secret scopeType scopeId key).
  by destruct (list_find _ l) as [[i row]|].
Qed.

Lemma existing_shown scopeType scopeId key s s' : shown s = shown s' ->
  shown_secret <$> js_find (same_secret scopeType scopeId key) (map_values (secrets s))
  = shown_secret <$> js_find (same_secret scopeType scopeId key) (map_values (secrets s')).
Proof. intros [= _ H _]. rewrite !find_shown, <- !shown_values. by rewrite H. Qed.

Definition draws_alike (d d' : Draws) : Prop := forall key, dr_secret d key = dr_secret d' key.

Lemma createSecret_alike scopeType scopeId key value value' actor metadata d d' now :
  mask_string value = mask_string value' -> draws_alike d d' ->
  alike (createSecret sha256 gcm_encrypt vault scopeType scopeId key value actor metadata d now)
        (createSecret sha256 gcm_encrypt vault scopeType scopeId key value' actor metadata d' now).
Proof.
  intros Hm Hd. unfold createSecret. apply alike_get. intros s s' Hs. pose proof (existing_shown scopeType scopeId key s s' Hs) as He.
  set (o := js_find _ (map_values (secrets s))) in *. set (o' := js_find _ (map_values (secrets s'))) in *. clearbody o o'. rewrite (Hd key).
  assert (match o with Some row => str_or (sec_id row) ("sec_" +:+ dr_secret d' key) | None => "sec_" +:+ dr_secret d' key end
          = match o' with Some row => str_or (sec_id row) ("sec_" +:+ dr_secret d' key) | None => "sec_" +:+ dr_secret d' key end) as ->.
  { destruct o as [r|], o' as [r'|]; try done. injection He as [= E _]. cbn. by rewrite E. }
  assert (match o with Some row => sec_createdAt row | None => now end = match o' with Some row => sec_createdAt row | None => now end) as ->.
  { destruct o as [r|], o' as [r'|]; try done. by injection He. }
  set (id := match o' with Some row => str_or (sec_id row) _ | None => _ end). cbv zeta. unfold sealSecret.
  destruct (keyMaterial sha256 vault None) as [k|]; cbn [mbind result_bind]; [|intros t t' Ht; done].
  destruct (gcm_encrypt k (dr_iv d key) value) as [c tag], (gcm_encrypt k (dr_iv d' key) value') as [c' tag'].
  intros t t' Ht. rewrite !run_lift. revert t t' Ht. apply alike_bind; [|intros []; apply alike_bind; [apply alike_plane|intros []; apply alike_ret]].
  apply alike_modify. intros [p x y] [p' x' y'] [= -> Hx ->]. unfold shown. cbn -[shown_secrets]. rewrite !shown_set, Hx, Hm. done.
Qed.

Lemma plain_alike e e' : entry_ok e -> entry_ok e' -> same_shown e e' -> en_isSecret e = false -> en_value e = en_value e'.
Proof. intros H H' (_ & Hs & Hm & _) Hp. unfold entry_ok in *. rewrite <- Hs, Hp in H'. rewrite Hp in H. congruence. Qed.

Lemma write_entry_alike projectId serviceId actor source e e' d d' now w : entry_ok e -> entry_ok e' -> same_shown e e' -> draws_alike d d' ->
  alike (write_entry sha256 gcm_encrypt vault projectId serviceId actor source e d now w)
        (write_entry sha256 gcm_encrypt vault projectId serviceId actor source e' d' now w).
Proof.
  intros Ho Ho' Hsh Hd. pose proof (plain_alike e e' Ho Ho' Hsh) as Hp. destruct Hsh as (Hk & Hs & Hm & Hso). unfold write_entry. rewrite <- Hk, <- Hs, <- Hso.
  apply alike_bind.
  - destruct (en_isSecret e) eqn:Es; [|apply alike_ret]. apply alike_bind; [|intros id; apply alike_ret]. apply createSecret_alike; [|done].
    unfold entry_ok in *. rewrite <- Hs in Ho'. rewrite Es in Ho. congruence.
  - intros secretId. cbv zeta.
    assert (env_row projectId serviceId e secretId source now = env_row projectId serviceId e' secretId source now) as <-.
    { unfold env_row. rewrite Hk, <- Hs, Hm, Hso. destruct (en_isSecret e); [done|]. by rewrite Hp. }
    apply alike_bind; [apply alike_modify; intros [p x y] [p' x' y'] [= -> Hx ->]; unfold shown; cbn -[shown_secrets env_row]; by rewrite Hx|intros []].
    destruct (en_isSecret e); [apply alike_ret|]. rewrite Hp by done. apply alike_ret.
Qed.

Lemma write_entries_alike projectId serviceId actor source es es' d d' now w : Forall entry_ok es -> Forall entry_ok es' -> Forall2 same_shown es es' -> draws_alike d d' ->
  alike (write_entries sha256 gcm_encrypt vault projectId serviceId actor source es d now w)
        (write_entries sha256 gcm_encrypt vault projectId serviceId actor source es' d' now w).
Proof.
  intros Ho Ho' H Hd. revert w Ho Ho'. induction H as [|e e' es es' He _ IH]; intros w Ho Ho'; [apply alike_ret|].
  apply Forall_cons in Ho as [? ?], Ho' as [? ?]. cbn [write_entries]. apply alike_bind; [by apply write_entry_alike|]. intros w'. by apply IH.
Qed.

Lemma parse_lines_ok source number lines : Forall entry_ok (parse_lines source number lines).1.
Proof.
  revert number. induction lines as [|line lines IH]; intros number; [constructor|]. cbn [parse_lines]. specialize (IH (number + 1)).
  destruct (parse_lines source (number + 1) lines) as [es errs]. unfold parse_line.
  destruct (_ || _); [done|]. destruct (break_at _ _) as [[|c l] [after|]]; try done. destruct (ENV_KEY_RE _); [|done]. by constructor.
Qed.

Lemma normalize_entries_ok source raw es : normalize_entries source raw = Ok es -> Forall entry_ok es.
Proof.
  revert es. induction raw as [|entry raw IH]; intros es; cbn [normalize_entries]; [intros [= <-]; constructor|].
  intros (e & He & H)%bind_Ok. apply bind_Ok in H as (es' & Hes & [= <-]). constructor; [|by apply IH].
  unfold normalize_entry in He. apply bind_Ok in He as (? & _ & He). apply bind_Ok in He as (? & _ & [= <-]). done.
Qed.

Lemma normalize_ok input source es : normalizeEnvEntries input source = Ok es -> Forall entry_ok es.
Proof.
  destruct input as [| | | |text|l|fs]; cbn [normalizeEnvEntries]; try apply normalize_entries_ok.
  intros (parsed & Hp & [= <-])%bind_Ok. unfold parseDotEnv in Hp. pose proof (parse_lines_ok (JStr (str_or source ".env")) 1 (env_lines text)) as H.
  destruct (parse_lines _ _ _) as [es errs]. apply bind_Ok in Hp as (_ & _ & [= <-]). done.
Qed.

(** C7. Secret values go to the vault and nowhere else: two requests that
    differ only in secret values with the same mask, on stores that differ only
    in sealed values, get the same answer and leave stores that differ only in
    sealed values; the rows of the service, the variables, the audit log and
    the answer tell at most the mask of a secret. *)
Theorem secrets_confined projectId serviceId input input' es es' actor source d d' now s s' :
  normalizeEnvEntries input source = Ok es -> normalizeEnvEntries input' source = Ok es' -> Forall2 same_shown es es' ->
  draws_alike d d' -> shown s = shown s' ->
  let run := upsertServiceEnvironment sha256 gcm_encrypt vault projectId serviceId input actor source d now s in
  let run' := upsertServiceEnvironment sha256 gcm_encrypt vault projectId serviceId input' actor source d' now s' in
  run.1 = run'.1 /\ shown run.2 = shown run'.2.
Proof.
  intros H H' Hes Hd Hs. cbv zeta. revert s s' Hs. unfold upsertServiceEnvironment. rewrite H, H'. apply alike_get. intros s s' Hs.
  assert (service_of projectId serviceId s = service_of projectId serviceId s') as <- by (unfold service_of; by injection Hs as -> _ _).
  apply alike_bind; [apply alike_lift|intros service]. intros t t' Ht. rewrite !run_lift. revert t t' Ht. cbv zeta.
  assert (map (fun e => JStr (en_key e)) es = map (fun e => JStr (en_key e)) es') as <-.
  { clear -Hes. induction Hes as [|e e' es es' (Hk & _) _ IH]; [done|]. cbn. by rewrite Hk, IH. }
  apply alike_bind; [apply write_entries_alike; eauto using normalize_ok|intros w].
  apply alike_bind; [apply alike_plane|intros []]. apply alike_bind; [apply alike_plane|intros []]. apply alike_ret.
Qed.
End Safety.

(** ** What was written is what the service gets *)

Section ReadBack.
Context (sha256 : string -> string) (gcm_encrypt : string -> string -> string -> string * string) (gcm_decrypt : string -> string -> string -> string -> option string).
Context (vault : VaultEnv).

(** What the cipher promises: decryption undoes encryption, and base64url has
    no colon. *)
Definition colonless (s : string) : Prop := ":"%char ∉ chars s.
Record gcm_laws : Prop := {
  gcm_opens : forall key iv value, gcm_decrypt key iv (gcm_encrypt key iv value).2 (gcm_encrypt key iv value).1 = Some value;
  gcm_text : forall key iv value, colonless (gcm_encrypt key iv value).1 /\ colonless (gcm_encrypt key iv value).2
}.
Context (laws : gcm_laws).

Lemma split_parts (a : string) (l : list string) : colonless a -> l <> [] -> split_on ":"%char (JsVal.join ":" (a :: l)) = a :: split_on ":"%char (JsVal.join ":" l).
Proof.
  intros Ha Hl. destruct l as [|b l]; [done|]. by apply (split_on_sep ":"%char a (JsVal.join ":" (b :: l))).
Qed.

Lemma split_single a : colonless a -> split_on ":"%char a = [a].
Proof. apply split_on_none. Qed.

(** A sealed value opens to the value, under the same configuration. *)
Lemma open_seal option_ iv value sealed : colonless iv -> sealSecret sha256 gcm_encrypt vault option_ iv value = Ok sealed ->
  openSecret sha256 gcm_decrypt vault option_ sealed = Ok value /\ str_empty sealed = false.
Proof.
  intros Hiv. unfold sealSecret. intros (key & Hkey & H)%bind_Ok. destruct (gcm_encrypt key iv value) as [c t] eqn:E. assert (sealed = JsVal.join ":" ["aes256gcm"; "v1"; iv; t; c]) as -> by congruence. split; [|done].
  pose proof (gcm_opens laws key iv value) as Ho. destruct (gcm_text laws key iv value) as [Hc Ht]. rewrite E in Ho, Hc, Ht. cbn [fst snd] in *.
  unfold openSecret. rewrite split_parts; [|apply (bool_decide_unpack _); vm_compute; exact I|done].
  rewrite split_parts; [|apply (bool_decide_unpack _); vm_compute; exact I|done].
  rewrite (split_parts iv), (split_parts t), split_single by done. cbn [mbind]. rewrite Hkey. cbn [mbind result_bind]. cbn. by rewrite Ho.
Qed.

Context (serviceId : string) (d : Draws).
Context (fresh_iv : forall key, colonless (dr_iv d key)) (fresh_id : forall key key', dr_secret d key = dr_secret d key' -> key = key').

Definition drawn (key : string) : string := "sec_" +:+ dr_secret d key.

Lemma drawn_inj key key' : drawn key = drawn key' -> key = key'.
Proof. unfold drawn. intros H. apply fresh_id. by apply (inj (String.append "sec_")) in H. Qed.

Lemma drawn_nonempty key : str_empty (drawn key) = false.
Proof. done. Qed.

(** Secrets are stored under their identifiers, and an identifier drawn for a
    key is not in use for another. *)
Definition vault_ok (s : EnvStore) : Prop :=
  map_wf (secrets s)
  /\ (forall id row, map_get id (secrets s) = Some row -> sec_id row = id /\ str_empty id = false)
  /\ (forall key row, map_get (drawn key) (secrets s) = Some row -> same_secret "service" serviceId key row).

Lemma audit_effect actor action ttype tid meta now s r s' : ev_on_plane (cp_audit actor action ttype tid meta now) s = (r, s') ->
  secrets s' = secrets s /\ environmentVariables s' = environmentVariables s /\ services (ev_plane s') = services (ev_plane s).
Proof. by intros [= <- <-]. Qed.

Lemma createSecret_effect key value actor metadata now s id s' :
  createSecret sha256 gcm_encrypt vault "service" serviceId key value actor metadata d now s = (Ok id, s') -> vault_ok s ->
  vault_ok s' /\ services (ev_plane s') = services (ev_plane s) /\ environmentVariables s' = environmentVariables s
  /\ (exists row, map_get id (secrets s') = Some row /\ same_secret "service" serviceId key row
        /\ openSecret sha256 gcm_decrypt vault None (sec_sealedValue row) = Ok value /\ str_empty (sec_sealedValue row) = false)
  /\ (forall id' row, map_get id' (secrets s) = Some row -> sec_key row <> key -> map_get id' (secrets s') = Some row).
Proof.
  unfold createSecret. intros H (Hwf & Hid & Hdr). returns_in H. rename x into sealed.
  set (o := js_find _ _) in H. destruct (open_seal _ _ _ _ (fresh_iv key) L) as [Hopen Hne].
  apply bind_returns in H as ([] & s1 & Ha & H). returns_in H. subst.
  set (id := match o with Some row => str_or (sec_id row) (drawn key) | None => drawn key end).
  assert (str_empty id = false /\ (forall old, map_get id (secrets s) = Some old -> same_secret "service" serviceId key old)
    /\ (id = drawn key \/ is_Some (map_get id (secrets s)))) as (Hids & Hold & Hwhere).
  { subst id. destruct (js_find (same_secret "service" serviceId key) (map_values (secrets s))) as [old|] eqn:Ho; subst o; [|split_and!; [done|by apply Hdr|by left]].
    apply js_find_Some in Ho as (i & Hi & Hs & _). apply list_elem_of_lookup_2, map_values_elem in Hi as (k & Hk); [|done].
    destruct (Hid k old Hk) as [<- He]. unfold str_or. rewrite He. split_and!; [done| |right; by rewrite Hk]. intros old' Hold. congruence. }
  apply audit_effect in Ha as (Hs & He & Hsv). cbn in Hs, He, Hsv. fold (drawn key) in Hs. fold id in Hs. cbv zeta.
  match type of Hs with _ = map_set _ ?r _ => set (row := r) in Hs end. fold (drawn key). fold id.
  assert (same_secret "service" serviceId key row) as Hrow by done.
  split_and!; [split_and!|done|done| |].
  - rewrite Hs. by apply map_wf_set.
  - intros id' r'. rewrite Hs. destruct (decide (id = id')) as [<-|Hne']; [rewrite map_get_set_eq; by intros [= <-]|rewrite map_get_set_ne by done; apply Hid].
  - intros key' r'. rewrite Hs. destruct (decide (id = drawn key')) as [Heq|Hne']; [|rewrite map_get_set_ne by done; apply Hdr].
    rewrite <- Heq, map_get_set_eq. intros [= <-]. assert (key = key') as <-; [|done]. destruct Hwhere as [Hw|[old Hw]]; [apply drawn_inj; congruence|].
    rewrite Heq in Hw. destruct (Hdr _ _ Hw) as (_ & _ & <-). rewrite <- Heq in Hw. by destruct (Hold _ Hw) as (_ & _ & ?).
  - exists row. rewrite Hs, map_get_set_eq. done.
  - intros id' r' Hr' Hk. rewrite Hs. rewrite map_get_set_ne; [done|]. intros <-. by destruct (Hold r' Hr') as (_ & _ & ?).
Qed.

(** ** The loop over the entries *)

(** The variable [e] is in place: a secret as a reference to a secret that
    opens to its value and is not in the runtime environment, a plain value in
    both. *)
Definition in_place (e : EnvEntry) (w : Written) (s : EnvStore) : Prop :=
  if en_isSecret e then
    map_get (en_key e) (wr_runtimeEnv w) = None
    /\ exists id row, map_get (en_key e) (wr_environment w) = Some (JStr ("secret:" +:+ id)) /\ map_get id (secrets s) = Some row
       /\ same_secret "service" serviceId (en_key e) row
       /\ openSecret sha256 gcm_decrypt vault None (sec_sealedValue row) = Ok (en_value e) /\ str_empty (sec_sealedValue row) = false
  else map_get (en_key e) (wr_environment w) = Some (JStr (en_value e)) /\ map_get (en_key e) (wr_runtimeEnv w) = Some (JStr (en_value e)).

Lemma assign_eq key v o : key <> "__proto__" -> map_get key (assign key v o) = Some v.
Proof. intros H. unfold assign. rewrite bool_decide_false by done. apply map_get_set_eq. Qed.
Lemma assign_ne key key' v o : key <> key' -> map_get key' (assign key v o) = map_get key' o.
Proof. intros H. unfold assign. case_bool_decide; [done|]. by apply map_get_set_ne. Qed.

Notation write := (write_entry sha256 gcm_encrypt vault).

(** Writing an entry puts it in place and leaves the entries of other keys. *)
Lemma write_entry_effect projectId actor source e now w s w' s' : write projectId serviceId actor source e d now w s = (Ok w', s') -> vault_ok s ->
  vault_ok s' /\ services (ev_plane s') = services (ev_plane s)
  /\ (en_key e <> "__proto__" -> in_place e w' s')
  /\ (forall e', en_key e' <> en_key e -> in_place e' w s -> in_place e' w' s').
Proof.
  intros H Hok. unfold write_entry in H. apply bind_returns in H as (secretId & s1 & H1 & H). cbv zeta in H. returns_in H. subst.
  destruct (en_isSecret e) eqn:Es.
  - apply bind_returns in H1 as (id & s2 & H1 & H2). returns_in H2. subst. destruct (createSecret_effect _ _ _ _ _ _ _ _ H1 Hok) as (Hok' & Hsv & Hev & (row & Hr & Hrow & Ho & Hne) & Hkeep).
    split_and!; [done|done| |].
    + intros Hp. unfold in_place. rewrite Es. cbn [wr_runtimeEnv wr_environment]. split; [apply map_get_delete_eq|]. exists id, row. rewrite assign_eq by done. split_and!; [reflexivity|exact Hr|exact Hrow|exact Ho|exact Hne].
    + intros e' Hk. unfold in_place. cbn [wr_runtimeEnv wr_environment]. rewrite !assign_ne, !map_get_delete_ne by congruence. destruct (en_isSecret e'); [|done].
      intros [Hn (id' & row' & He' & Hr' & Hrow' & Ho')]. split; [done|]. exists id', row'. destruct Ho' as [Ho' Hne']. split_and!; [exact He'| |exact Hrow'|exact Ho'|exact Hne']. apply Hkeep; [exact Hr'|]. destruct Hrow' as (_ & _ & ->). done.
  - returns_in H1. subst. split_and!; [done|done| |].
    + intros Hp. unfold in_place. rewrite Es. cbn [wr_runtimeEnv wr_environment]. by rewrite !assign_eq.
    + intros e' Hk. unfold in_place. cbn [wr_runtimeEnv wr_environment]. by rewrite !assign_ne by congruence.
Qed.

Lemma write_entries_effect projectId actor source es now w s w' s' :
  write_entries sha256 gcm_encrypt vault projectId serviceId actor source es d now w s = (Ok w', s') -> vault_ok s ->
  vault_ok s' /\ services (ev_plane s') = services (ev_plane s)
  /\ (forall e, en_key e ∉ map en_key es -> in_place e w s -> in_place e w' s')
  /\ (forall pre e post, es = pre ++ e :: post -> en_key e ∉ map en_key post -> en_key e <> "__proto__" -> in_place e w' s').
Proof.
  revert w s. induction es as [|e0 es IH]; intros w s H Hok; cbn [write_entries] in H.
  - returns_in H. subst. split_and!; [done|done|done|]. intros [|x pre] e post; done.
  - apply bind_returns in H as (w1 & s1 & H1 & H). destruct (write_entry_effect _ _ _ _ _ _ _ _ _ H1 Hok) as (Hok1 & Hsv1 & Hset & Hkeep).
    destruct (IH _ _ H Hok1) as (Hok' & Hsv' & Hkeep' & Hset'). split_and!; [done|congruence| |].
    + intros e [Hne Hnin]%not_elem_of_cons He. apply Hkeep'; [done|]. by apply Hkeep.
    + intros [|x pre] e post [= -> Hes] Hlast Hp; [|by apply (Hset' pre e post)]. subst es. apply Hkeep'; [done|]. by apply Hset.
Qed.

(** C27. A service gets the environment that was written: after a successful
    write, the last value given to every key is what the service refers to; a
    plain value in its environment and its runtime specification, a secret as a
    reference whose value the vault opens to what was given, and absent from
    the runtime specification. *)
Theorem environment_read_back projectId input actor source now s a s' pre e post :
  upsertServiceEnvironment sha256 gcm_encrypt vault projectId serviceId input actor source d now s = (Ok a, s') -> vault_ok s ->
  normalizeEnvEntries input source = Ok (pre ++ e :: post) -> en_key e ∉ map en_key post -> en_key e <> "__proto__" ->
  exists service, map_get serviceId (services (ev_plane s')) = Some service /\ vault_ok s'
    /\ let env := field (en_key e) (obj_get "environment" service) in
       let runtime := field (en_key e) (field "env" (obj_get "desiredSpec" service)) in
       if en_isSecret e then runtime = JUndef /\ exists id, env = JStr ("secret:" +:+ id) /\ getSecretValue sha256 gcm_decrypt vault id s' = Ok (Some (en_value e))
       else env = JStr (en_value e) /\ runtime = JStr (en_value e).
Proof.
  intros H Hok Hn Hlast Hp. unfold upsertServiceEnvironment in H. rewrite Hn in H. apply get_returns in H. apply lift_returns in H as (service & _ & H).
  apply lift_returns in H as (es & [= <-] & H). cbv zeta in H. apply bind_returns in H as (w & s1 & Hw & H).
  destruct (write_entries_effect _ _ _ _ _ _ _ _ _ Hw Hok) as (Hok1 & _ & _ & Hset). specialize (Hset pre e post eq_refl Hlast Hp).
  apply bind_returns in H as ([] & s2 & H2 & H). injection H2 as <-. apply bind_returns in H as ([] & s3 & H3 & H). returns_in H. subst.
  apply audit_effect in H3 as (Hs & _ & Hsv). cbn in Hs, Hsv. exists (service_with_environment service w now). split_and!.
  - rewrite Hsv. apply map_get_set_eq.
  - unfold vault_ok. rewrite Hs. exact Hok1.
  - cbv zeta. unfold service_with_environment. cbv zeta. rewrite !spread_cons. cbn [spread foldl].
    rewrite (obj_get_set_ne "updatedAt" "environment"), (obj_get_set_ne "desiredSpec" "environment"), obj_get_set_eq by done.
    rewrite (obj_get_set_ne "updatedAt" "desiredSpec"), obj_get_set_eq by done. cbn [field].
    assert (forall spec, field (en_key e) (obj_get "env" (if bool_decide (wr_runtimeEnv w = []) then map_delete "env" spec else map_set "env" (JObj (wr_runtimeEnv w)) spec))
              = default JUndef (map_get (en_key e) (wr_runtimeEnv w))) as ->.
    { intros spec. case_bool_decide as Hnil; [rewrite obj_get_map_get, map_get_delete_eq, Hnil; done|]. rewrite obj_get_set_eq. cbn [field]. by rewrite obj_get_map_get. }
    rewrite obj_get_map_get. unfold in_place in Hset. destruct (en_isSecret e); [|by destruct Hset as [-> ->]].
    destruct Hset as [-> (id & row & -> & Hr & _ & Ho & Hne)]. split; [done|]. exists id. split; [done|]. unfold getSecretValue. by rewrite Hs, Hr, Hne, Ho.
Qed.
End ReadBack.

(** ** Application *)

(** A toy cipher: two letters for every character. *)
Definition toy_letters (c : ascii) : list ascii := [chr (97 + code c / 16); chr (97 + code c mod 16)].
Fixpoint toy_read (l : list ascii) : list ascii :=
  match l with a :: b :: rest => chr ((code a - 97) * 16 + (code b - 97)) :: toy_read rest | _ => [] end.
Definition toy_encrypt (key iv value : string) : string * string := (unchars (flat_map toy_letters (chars value)), "tag").
Definition toy_decrypt (key iv tag text : string) : option string := Some (unchars (toy_read (chars text))).

Lemma toy_letters_facts c : toy_read (toy_letters c) = [c] /\ ":"%char ∉ toy_letters c.
Proof. split; [by char_cases c|]. char_cases c; (apply (bool_decide_unpack _); vm_compute; exact I). Qed.

Lemma toy_laws : gcm_laws toy_encrypt toy_decrypt.
Proof.
  split.
  - intros key iv value. unfold toy_decrypt, toy_encrypt. cbn [fst snd]. rewrite chars_unchars. f_equal. rewrite <- (unchars_chars value) at 2. f_equal.
    induction (chars value) as [|c l IH]; [done|]. cbn [flat_map toy_letters app toy_read]. rewrite IH. f_equal. pose proof (proj1 (toy_letters_facts c)) as H. by injection H.
  - intros key iv value. unfold colonless, toy_encrypt. cbn [fst snd]. split; [|apply (bool_decide_unpack _); vm_compute; exact I].
    rewrite chars_unchars. intros H%list_elem_of_In%in_flat_map. destruct H as (c & _ & H). by apply (proj2 (toy_letters_facts c)), list_elem_of_In.
Qed.

Definition dev_vault : VaultEnv := mkVaultEnv "" "" "development".
Definition site_id : string := "svc-prj-org-school-robotics-site-web".
Definition site_draws : Draws := mkDraws (fun key => key) (fun _ => "iv").
Definition env_store : EnvStore :=
  mkEnvStore (empty_control_plane <| services := [(site_id, [("id", JStr site_id); ("projectId", JStr "prj")])] |>) [] [].

Definition site_input (password : string) : jsval :=
  JObj [("GREETING", JStr "hello"); ("ADMIN_PASSWORD", JStr password)].

Notation site_upsert input := (upsertServiceEnvironment (fun text => text) toy_encrypt dev_vault "prj" site_id input "dan" "api" site_draws 1000 env_store).

Lemma env_store_ok : vault_ok site_id site_draws env_store.
Proof. split_and!; [constructor|done|done]. Qed.

(** Two passwords with the same mask: the same answer and the same store but
    for the sealed value. *)
Lemma secrets_confined_witness :
  (site_upsert (site_input "ab-secret-yz")).1 = (site_upsert (site_input "ab-hidden-yz")).1
  /\ shown (site_upsert (site_input "ab-secret-yz")).2 = shown (site_upsert (site_input "ab-hidden-yz")).2.
Proof.
  apply (secrets_confined (fun text => text) toy_encrypt dev_vault "prj" site_id (site_input "ab-secret-yz") (site_input "ab-hidden-yz")
    [env_entry "GREETING" "hello" false (JStr "api"); env_entry "ADMIN_PASSWORD" "ab-secret-yz" true (JStr "api")]
    [env_entry "GREETING" "hello" false (JStr "api"); env_entry "ADMIN_PASSWORD" "ab-hidden-yz" true (JStr "api")]);
    [vm_compute; reflexivity|vm_compute; reflexivity|repeat constructor|intros key; reflexivity|reflexivity].
Defined.

Lemma environment_read_back_witness :
  exists a s' service id, site_upsert (site_input "open sesame") = (Ok a, s') /\ map_get site_id (services (ev_plane s')) = Some service
    /\ field "ADMIN_PASSWORD" (obj_get "environment" service) = JStr ("secret:" +:+ id)
    /\ getSecretValue (fun text => text) toy_decrypt dev_vault id s' = Ok (Some "open sesame").
Proof.
  destruct (site_upsert (site_input "open sesame")) as [r s'] eqn:E.
  assert (exists a, r = Ok a) as [a ->] by (apply (f_equal fst) in E; vm_compute in E; subst r; eexists; reflexivity).
  destruct (environment_read_back (fun text => text) toy_encrypt toy_decrypt dev_vault toy_laws site_id site_draws
      ltac:(intros key; apply (bool_decide_unpack _); vm_compute; exact I) ltac:(intros key key' H; exact H)
      "prj" (site_input "open sesame") "dan" "api" 1000 env_store a s'
      [env_entry "GREETING" "hello" false (JStr "api")] (env_entry "ADMIN_PASSWORD" "open sesame" true (JStr "api")) [] E env_store_ok)
    as (service & Hs & _ & _ & id & He & Hv); [vm_compute; reflexivity|apply not_elem_of_nil|discriminate|].
  exists a, s', service, id. split_and!; [reflexivity|exact Hs|exact He|exact Hv].
Defined.

(** The row of a variable is stored under an identifier cut to 63 characters:
    two variables of a service with a usual name share it, and only the second
    is listed, although both are counted and used. *)
Theorem listed_variables_collide :
  let input := JObj [("DATABASE_CONNECTION_POOL_MIN", JStr "1"); ("DATABASE_CONNECTION_POOL_MAX", JStr "9")] in
  let '(r, s') := site_upsert input in
  (match r with Ok a => Some (ea_plainCount a) | Throw _ => None end) = Some 2%nat
  /\ (match listServiceEnvironment "prj" site_id s' with Ok a => map (obj_get "key") (ea_entries a) | Throw _ => [] end) = [JStr "DATABASE_CONNECTION_POOL_MAX"].
Proof. vm_compute. split; reflexivity. Qed.

Close Scope Z_scope.
