(* ===== verification/DeploymentRequests.v ===== *)
(** * Requests for deployments ([packages/core/src/persistence.ts], the
    in-memory repository)

    What a caller goes through before the store is changed: quotas are checked
    for everything the request needs, and the change is undone as a whole when
    it throws.  Retries and redeployments find their source, are answered once
    per idempotency key and start only when no other deployment of the service
    is under way.  [localeCompare] is a parameter. *)

From Stdlib Require Import QArith.
From S2P Require Import Prelude JsString JsMap JsVal Ids Lifecycle Accounts Workflows ControlPlane Deployments DeploymentOperations Quotas.

Open Scope Z_scope.

(** ** Quotas *)

Record QuotaRequirement := mkRequirement { qr_metric : string; qr_increment : Z }.

(** The sum of the increments of every metric, in the order of the metrics,
    without those that ask for nothing. *)
Definition combineQuotaRequirements (requirements : list QuotaRequirement) : list QuotaRequirement :=
  let combined := foldl (fun m r => if str_empty (qr_metric r) then m
                                    else map_set (qr_metric r) (default 0 (map_get (qr_metric r) m) + qr_increment r) m) [] requirements in
  filter (fun r => 0 < qr_increment r) (map (fun kv => mkRequirement kv.1 kv.2) combined).

Definition deploymentQuotaRequirements (deploymentType : jsval) : list QuotaRequirement :=
  mkRequirement "maxDeploymentsPerDay" 1
  :: (if bool_decide (toLowerCase (js_String (js_or deploymentType (JStr "production"))) = "preview") then [mkRequirement "maxPreviewDeployments" 1] else []).

Section Requests.
Context (dateParse : string -> option Z) (fraction_text : Q -> string) (localeCompare : string -> string -> comparison).
Context (usageRecords : list jsobj).

Fixpoint enforce_all (userId action : string) (requirements : list QuotaRequirement) (now : Z) : M ControlPlane unit :=
  match requirements with
  | [] => mret tt
  | r :: rest =>
      _ ← enforceUserCan dateParse fraction_text userId action (qr_metric r) (Fin (inject_Z (qr_increment r))) usageRecords now;
      enforce_all userId action rest now
  end.

(** [try { return mutation(); } catch (error) { restoreInMemoryStore(...); throw error; }]:
    the snapshot is the whole store. *)
Definition undone_on_error {A} (mutation : M ControlPlane A) : M ControlPlane A := fun s =>
  match mutation s with (Throw e, _) => (Throw e, s) | done => done end.

(** The empty actor is no actor. *)
Definition runQuotaMutation {A} (actorUserId action : string) (requirements : list QuotaRequirement) (mutation : M ControlPlane A) (now : Z) : M ControlPlane A :=
  _ ← (if str_empty actorUserId then mret tt else enforce_all actorUserId action (combineQuotaRequirements requirements) now);
  undone_on_error mutation.

(** ** Retries and redeployments *)

Definition isDeleting (row : jsobj) : bool := bool_decide (toUpperCase (text_or_empty (obj_get "status" row)) ∈ ["DELETE_REQUESTED"; "DELETING"]).
Definition assertMutable (row : jsobj) (kind : string) : result unit := throw_if (isDeleting row) (conflict (kind +:+ " is being deleted")).

Definition terminal_row (row : jsobj) : bool :=
  match as_string (obj_get "status" row) with Some status => bool_decide (status ∈ terminalLifecycleInputs machine_deployment) | None => false end.

Definition of_service (serviceId : string) (row : jsobj) : Prop := as_string (obj_get "serviceId" row) = Some serviceId.
#[export] Instance of_service_dec serviceId row : Decision (of_service serviceId row).
Proof. unfold of_service. apply _. Defined.
Definition service_rows (serviceId : string) (s : ControlPlane) : list jsobj := filter (of_service serviceId) (map_values (deployments s)).

(** [b.createdAt.localeCompare(a.createdAt) || b.id.localeCompare(a.id)], not positive *)
Definition newer_first (a b : jsobj) : bool :=
  match localeCompare (js_String (obj_get "createdAt" b)) (js_String (obj_get "createdAt" a)) with
  | Lt => true
  | Gt => false
  | Eq => match localeCompare (js_String (obj_get "id" b)) (js_String (obj_get "id" a)) with Gt => false | _ => true end
  end.

Fixpoint eligible_rows (rows : list jsobj) : result (list jsobj) :=
  match rows with
  | [] => Ok []
  | row :: rest => keep ← eligibleDeploymentSource row; others ← eligible_rows rest; Ok (if keep : bool then row :: others else others)
  end.

Definition operation_source (input : DeploymentOperation) (s : ControlPlane) : result (option jsobj) :=
  match op_operation input with
  | retry => Ok (map_get (default "" (op_sourceDeploymentId input)) (deployments s))
  | redeploy => rows ← eligible_rows (service_rows (op_serviceId input) s); Ok (head (js_sort newer_first rows))
  end.

Record OperationAnswer := mkOperationAnswer { oa_deployment : jsobj; oa_job : WorkflowJob }.
Definition oa_operationId (a : OperationAnswer) : string := wj_id (oa_job a).
Definition oa_streamHref (a : OperationAnswer) : string := "/deployments/" +:+ js_String (obj_get "id" (oa_deployment a)) +:+ "/stream".

(** The deployment an earlier request with the same key made. *)
Definition same_request (input : DeploymentOperation) (row : jsobj) : Prop :=
  of_service (op_serviceId input) row /\ as_string (obj_get "requestIdempotencyKey" row) = Some (op_requestIdempotencyKey input).
#[export] Instance same_request_dec input row : Decision (same_request input row).
Proof. unfold same_request, of_service. apply _. Defined.

Definition job_of (row : jsobj) (job : WorkflowJob) : Prop :=
  as_string (obj_get "id" row) = Some (wj_targetId job) /\ wj_targetType job = "deployment".
#[export] Instance job_of_dec row job : Decision (job_of row job).
Proof. unfold job_of. apply _. Defined.

Definition source_not_found : jserror := DeploymentOperationError "DEPLOYMENT_SOURCE_NOT_FOUND" 404.

Definition replay_operation (input : DeploymentOperation) (existing : jsobj) (s : ControlPlane) : result OperationAnswer :=
  match js_find (job_of existing) (workflowJobs (cp_workflow s)) with
  | None => Throw (DeploymentOperationError "LINEAGE_JOB_MISSING" 409)
  | Some job => _ ← assertOperationReplay input (wj_payload job); Ok (mkOperationAnswer existing job)
  end.

Definition start_operation (input : DeploymentOperation) (candidate : jsobj) (now : Z) : M ControlPlane OperationAnswer :=
  deployment ← createDeployment candidate now;
  job ← on_workflow (enqueueWorkflowJob (successorWorkflow candidate input) now);
  mret (mkOperationAnswer deployment job).

Definition createDeploymentOperation (input : DeploymentOperation) (uuid : string) (now : Z) : M ControlPlane OperationAnswer :=
  s ← get;
  match map_get (op_serviceId input) (services s) with
  | None => raise source_not_found
  | Some service =>
      match js_find (same_request input) (map_values (deployments s)) with
      | Some existing => lift (replay_operation input existing s)
      | None =>
          source ← lift (operation_source input s);
          candidate ← lift (deploymentSuccessor source input uuid);
          _ ← lift (throw_if (existsb (fun row => negb (terminal_row row)) (service_rows (op_serviceId input) s)) (DeploymentOperationError "ACTIVE_DEPLOYMENT" 409));
          _ ← lift (assertMutable service "service");
          match lookup_row (obj_get "projectId" service) (projects s) with
          | None => raise source_not_found
          | Some project =>
              _ ← lift (assertMutable project "project");
              runQuotaMutation (if bool_decide (op_requestedByUserId input = "system") then "" else op_requestedByUserId input) "deployment:create"
                (deploymentQuotaRequirements (obj_get "deploymentType" candidate)) (start_operation input candidate now) now
          end
      end
  end.

(** ** Other requests *)

(** A deployment and its job; the deployment is the input itself or its
    property [deployment]. *)
Definition createDeploymentWorkflow (input : jsobj) (now : Z) : M ControlPlane (jsobj * WorkflowJob) :=
  let requestedDeployment := match obj_get "deployment" input with JObj d => d | _ => input end in
  let workflow := entries (obj_get "workflow" input) in
  runQuotaMutation (text_or_empty (js_or (obj_get "actorUserId" input) (obj_get "actorUserId" requestedDeployment))) "deployment:create"
    (deploymentQuotaRequirements (obj_get "deploymentType" requestedDeployment))
    (deployment ← createDeployment requestedDeployment now;
     job ← on_workflow (enqueueWorkflowJob (mkInput "" (str_or (text_or_empty (obj_get "type" workflow)) "build-and-deploy") "" "deployment" (js_String (obj_get "id" deployment)) "" ""
             (spread (entries (obj_get "payload" workflow)) [("deploymentId", obj_get "id" deployment)]) None None None None None None None) now);
     mret (deployment, job)) now.

Definition repository_cancelDeployment (deploymentId : string) (input : CancelInput) (now : Z) : M ControlPlane (option jsobj) :=
  runQuotaMutation "" "deployment:cancel" [] (cancelDeployment deploymentId input now) now.

Definition repository_rollbackDeployment (actorUserId deploymentId previousDeploymentId branch : string) (now : Z) : M ControlPlane RollbackResult :=
  s ← get;
  let deploymentType := match map_get deploymentId (deployments s) with Some row => obj_get "deploymentType" row | None => JUndef end in
  runQuotaMutation actorUserId "deployment:create" (deploymentQuotaRequirements deploymentType)
    (rollbackDeployment dateParse deploymentId previousDeploymentId branch now) now.
End Requests.

Close Scope Z_scope.
