(* ===== verification/DeploymentRequestSafety.v ===== *)
(** * Properties of requests for deployments

    A request that fails changes nothing but the audit log and the default
    quota; one that succeeds starts the only deployment under way of its
    service, within the daily quota, and is answered the same when repeated. *)

From Stdlib Require Import QArith.
From S2P Require Import Prelude JsString JsMap JsVal Ids Lifecycle Secrets Accounts Redaction Workflows ControlPlane Deployments DeploymentSafety DeploymentOperations DeploymentOperationSafety DeploymentExamples Quotas QuotaSafety DeploymentRequests.

Open Scope Z_scope.

Section Requests.
Context (dateParse : string -> option Z) (fraction_text : Q -> string) (localeCompare : string -> string -> comparison).
Context (usageRecords : list jsobj).

Notation request := (createDeploymentOperation dateParse fraction_text localeCompare usageRecords).
Notation enforce := (enforce_all dateParse fraction_text usageRecords).

(** ** Quotas *)

Lemma enforce_all_logged userId action rs now s r s' : enforce userId action rs now s = (r, s') -> only_logged s s'.
Proof.
  revert s. induction rs as [|q rs IH]; intros s; cbn [enforce_all]; [intros [= <- <-]; apply only_logged_refl|].
  unfold mbind, M_bind. destruct (enforceUserCan _ _ _ _ _ _ _ _ s) as [r1 s1] eqn:E. apply enforce_only_logged in E.
  destruct r1 as [[]|e]; [|intros [= <- <-]; done]. intros H%IH. by eapply only_logged_trans.
Qed.

(** Whether a mutation under a quota ends in the mutation or before it. *)
Lemma quota_mutation_cases {A} actor action rs (m : M ControlPlane A) now s r s' :
  runQuotaMutation dateParse fraction_text usageRecords actor action rs m now s = (r, s') ->
  match r with
  | Throw e => only_logged s s'
  | Ok a => exists s1, only_logged s s1 /\ m s1 = (Ok a, s')
      /\ (str_empty actor = false -> enforce actor action (combineQuotaRequirements rs) now s = (Ok tt, s1))
  end.
Proof.
  unfold runQuotaMutation, mbind, M_bind. destruct (str_empty actor) eqn:Ea.
  - cbn [mret M_ret]. unfold mret, M_ret, undone_on_error. destruct (m s) as [[a|e] t] eqn:E; intros [= <- <-]; [|apply only_logged_refl].
    exists s. split_and!; [apply only_logged_refl|done|done].
  - destruct (enforce _ _ _ _ s) as [[[]|e] s1] eqn:E; pose proof (enforce_all_logged _ _ _ _ _ _ _ E) as Hl; [|by intros [= <- <-]].
    unfold undone_on_error. destruct (m s1) as [[a|e] t] eqn:Em; intros [= <- <-]; [|done]. by exists s1.
Qed.

(** ** The ways a request ends *)

Lemma request_cases input uuid now s r s' : request input uuid now s = (r, s') ->
  match r with
  | Throw e => only_logged s s'
  | Ok a =>
      (exists existing, js_find (same_request input) (map_values (deployments s)) = Some existing
         /\ replay_operation input existing s = Ok a /\ s' = s)
      \/ exists source candidate s1, js_find (same_request input) (map_values (deployments s)) = None
         /\ deploymentSuccessor source input uuid = Ok candidate
         /\ Forall (fun row => terminal_row row = true) (service_rows (op_serviceId input) s)
         /\ is_Some (map_get (op_serviceId input) (services s))
         /\ only_logged s s1 /\ start_operation input candidate now s1 = (Ok a, s')
         /\ (op_requestedByUserId input <> "system" -> op_requestedByUserId input <> "" ->
             enforce (op_requestedByUserId input) "deployment:create" (combineQuotaRequirements (deploymentQuotaRequirements (obj_get "deploymentType" candidate))) now s = (Ok tt, s1))
  end.
Proof.
  unfold createDeploymentOperation. rewrite run_get. destruct (map_get (op_serviceId input) (services s)) as [service|] eqn:Hs.
  2: { intros [= <- <-]. apply only_logged_refl. }
  destruct (js_find (same_request input) _) as [existing|] eqn:Hf.
  { unfold lift. destruct (replay_operation input existing s) as [a|e] eqn:Hr; intros [= <- <-]; [left; by exists existing|apply only_logged_refl]. }
  repeat match goal with
    | |- context [(lift ?r ≫= _) _] => rewrite run_lift; destruct r eqn:?; [|intros [= <- <-]; apply only_logged_refl]
    | |- context [match lookup_row ?k ?t with _ => _ end] => destruct (lookup_row k t) eqn:?; [|intros [= <- <-]; apply only_logged_refl]
    end.
  intros H%quota_mutation_cases. destruct r as [ans|err]; [|done]. destruct H as (s1 & Hl & Hm & He). right.
  eexists _, _, s1. split_and!; [done|eassumption| |by rewrite ?Hs|done|exact Hm|].
  - match goal with H : throw_if (existsb _ _) _ = Ok _ |- _ => apply throw_if_Ok in H; rename H into Hx end.
    apply Forall_forall. intros row Hrow. destruct (terminal_row row) eqn:E; [done|]. exfalso.
    assert (existsb (fun row => negb (terminal_row row)) (service_rows (op_serviceId input) s) = true); [|congruence].
    apply existsb_exists. exists row. rewrite E. split; [by apply list_elem_of_In|done].
  - intros H1 H2. rewrite bool_decide_false in He by done. apply He. by rewrite str_empty_eq, bool_decide_false.
Qed.

(** ** The new deployment *)

Lemma key_masked k l : isSecretKey k = false -> obj_get k (entries (maskSecrets (JObj l))) = maskSecrets (obj_get k l).
Proof.
  intros Hk. cbn [maskSecrets entries]. induction l as [|[k' v] l IH]; [done|]. cbn [map obj_get]. case_decide as E; [|exact IH].
  subst k'. by rewrite Hk, andb_false_r.
Qed.

Lemma obj_get_without k keys o : k ∉ keys -> obj_get k (without keys o) = obj_get k o.
Proof.
  intros Hk. unfold without. induction o as [|[k' v] o IH]; [done|]. rewrite filter_cons. cbn [obj_get]. destruct (decide (k' = k)) as [->|Hne].
  - rewrite decide_True by done. cbn [obj_get]. by rewrite decide_True.
  - case_decide; cbn [obj_get]; [by rewrite (decide_False (P := k' = k))|done].
Qed.

Lemma masked_keys l : (entries (maskSecrets (JObj l))).*1 = l.*1.
Proof. cbn [maskSecrets entries]. induction l as [|[k v] l IH]; [done|]. cbn. by f_equal. Qed.

(** A property [createDeployment] does not name is copied as it is masked. *)
Lemma deployment_row_rest k input status service now :
  NoDup input.*1 -> k ∉ DEPLOYMENT_PARAMETERS -> k ∉ INITIAL_DEPLOYMENT_HEALTH.*1 -> k ∉ ["desiredSpecSnapshot"; "snapshotVersion"] ->
  isSecretKey k = false -> k ∈ input.*1 ->
  obj_get k (deployment_row input status service now) = maskSecrets (obj_get k input).
Proof.
  intros Hn Hp Hh Hs Hk Hin. unfold deployment_row. cbv zeta. rewrite !obj_get_spread_notin by done.
  rewrite obj_get_map_get, map_get_spread.
  - rewrite <- (obj_get_without k DEPLOYMENT_PARAMETERS input), <- key_masked by done. rewrite obj_get_map_get.
    destruct (map_get k (entries _)) as [v|] eqn:E; [done|]. exfalso. apply map_get_None in E. apply E. unfold map_keys. rewrite masked_keys.
    apply list_elem_of_fmap in Hin as ([k' v] & -> & Hin). apply list_elem_of_fmap. exists (k', v). split; [done|]. by apply list_elem_of_filter.
  - rewrite masked_keys. unfold without. eapply sublist_NoDup; [exact Hn|]. apply fmap_sublist, sublist_filter.
Qed.

Lemma successor_keys src spec input uuid status from : NoDup (successor_row src spec input uuid status from).*1.
Proof. apply (bool_decide_unpack _). vm_compute. exact I. Qed.

(** A request that starts a deployment: its row, its job, and nothing else but
    the audit log and the events. *)
Definition started (input : DeploymentOperation) (uuid : string) (s : ControlPlane) (a : OperationAnswer) (s' : ControlPlane) : Prop :=
  let id := "dep_" +:+ uuid in
  deployments s' = map_set id (oa_deployment a) (deployments s)
  /\ workflowJobs (cp_workflow s') = workflowJobs (cp_workflow s) ++ [oa_job a]
  /\ services s' = services s /\ projects s' = projects s /\ members (accounts (cp_workflow s')) = members (accounts (cp_workflow s))
  /\ obj_get "id" (oa_deployment a) = JStr id /\ obj_get "serviceId" (oa_deployment a) = JStr (op_serviceId input)
  /\ obj_get "status" (oa_deployment a) = JStr "queued"
  /\ obj_get "requestIdempotencyKey" (oa_deployment a) = JStr (maskSecretLikeString (op_requestIdempotencyKey input))
  /\ wj_targetId (oa_job a) = id /\ wj_targetType (oa_job a) = "deployment"
  /\ obj_get "operationRequest" (wj_payload (oa_job a)) = sanitizeWorkflowValue (JObj (operationIdentity input)).

Lemma sanitized_key k l : isSecretKey k = false -> obj_get k (sanitize_payload l) = sanitizeWorkflowValue (obj_get k l).
Proof.
  intros Hk. unfold sanitize_payload. cbn [sanitizeWorkflowValue]. induction l as [|[k' v] l IH]; [done|]. cbn [map obj_get]. case_decide as E; [|exact IH].
  subst k'. by rewrite Hk.
Qed.

Lemma successor_payload candidate input : obj_get "operationRequest" (wi_payload (successorWorkflow candidate input)) = JObj (operationIdentity input).
Proof. unfold successorWorkflow. cbn [wi_payload]. by destruct (truthy (obj_get "previewLineageId" candidate)). Qed.

Lemma successor_job candidate input id now job : obj_get "id" candidate = JStr id -> id <> "" ->
  createWorkflowJobRecord (successorWorkflow candidate input) now = Ok job ->
  wj_targetId job = id /\ wj_targetType job = "deployment" /\ wj_payload job = sanitize_payload (wi_payload (successorWorkflow candidate input)).
Proof.
  intros Hid Hne. unfold createWorkflowJobRecord. rewrite bind_Ok. intros ([] & _ & H). rewrite bind_Ok in H. destruct H as (st & _ & [= <-]). cbn.
  rewrite Hid. cbn. split_and!; [|done|done]. unfold str_or. by rewrite str_empty_eq, bool_decide_false.
Qed.

Lemma deployment_id_nonempty uuid : "dep_" +:+ uuid <> "".
Proof. done. Qed.

Lemma successor_own_row src spec input uuid from service now :
  as_string (obj_get "serviceId" src) = Some (op_serviceId input) ->
  let row := deployment_row (successor_row src spec input uuid "queued" from) "queued" service now in
  obj_get "id" row = JStr ("dep_" +:+ uuid) /\ obj_get "serviceId" row = JStr (op_serviceId input) /\ obj_get "status" row = JStr "queued"
  /\ obj_get "requestIdempotencyKey" row = JStr (maskSecretLikeString (op_requestIdempotencyKey input)).
Proof.
  intros Hsv row. unfold row. split_and!.
  1-3: rewrite deployment_row_param by (apply (bool_decide_unpack _); vm_compute; exact I).
  - unfold deployment_own. cbn [obj_get]. rewrite decide_True by done. by rewrite (deployment_id_given _ ("dep_" +:+ uuid)).
  - change (obj_get "serviceId" src = JStr (op_serviceId input)). clear row. destruct (obj_get "serviceId" src); try discriminate Hsv. by injection Hsv as ->.
  - reflexivity.
  - rewrite deployment_row_rest; [reflexivity|apply successor_keys|apply (bool_decide_unpack _); vm_compute; exact I ..].
Qed.

Lemma start_started src input uuid candidate now s a s' :
  successor_of src input uuid candidate -> start_operation input candidate now s = (Ok a, s') -> started input uuid s a s'.
Proof.
  intros (spec & st & from & Hsv & _ & _ & _ & _ & _ & _ & ->) H. unfold start_operation, mbind, M_bind in H.
  unfold createDeployment in H. rewrite run_get in H.
  change (normalizeDeploymentStatus _) with (Ok "queued" : result string) in H. rewrite run_lift in H. cbv zeta in H.
  destruct (successor_own_row src spec input uuid from (lookup_row (obj_get "serviceId" (successor_row src spec input uuid "queued" from)) (services s)) now Hsv) as (Hid & Hs & Hst & Hk).
  set (row := deployment_row _ _ _ _) in *. clearbody row. rewrite Hid in H.
  unfold on_workflow, enqueueWorkflowJob, modify, mbind, M_bind, lift in H.
  destruct (createWorkflowJobRecord _ now) as [job|e] eqn:Ej; [|done].
  apply (successor_job _ _ ("dep_" +:+ uuid)) in Ej as (Ht & Hty & Hp); [|done..].
  injection H as <- <-. unfold started. cbn [oa_deployment oa_job]. split_and!; try done.
  rewrite Hp, sanitized_key by reflexivity. by rewrite successor_payload.
Qed.

(** A request that is not a repetition. *)
Lemma request_new input uuid now s a s' : request input uuid now s = (Ok a, s') ->
  js_find (same_request input) (map_values (deployments s)) = None ->
  Forall (fun row => terminal_row row = true) (service_rows (op_serviceId input) s) /\ started input uuid s a s'.
Proof.
  intros [(existing & Hf & _)|(source & cand & s1 & _ & Hc & Hdone & _ & (q & logs & _ & ->) & Hrun & _)]%request_cases Hnone; [congruence|].
  split; [done|]. apply deploymentSuccessor_Ok in Hc as (src & _ & Hc). exact (start_started _ _ _ _ _ _ _ _ Hc Hrun).
Qed.

(** A refused request leaves no trace but the log: when a retry or a
    redeployment fails, for whatever reason and at whatever step, deployments,
    jobs, services and everything else in the store are as they were, but for
    the audit log and the default quota of the account. *)
Theorem request_refused_clean input uuid now s e s' :
  createDeploymentOperation dateParse fraction_text localeCompare usageRecords input uuid now s = (Throw e, s') -> only_logged s s'.
Proof. apply request_cases. Qed.
(** C6. One deployment at a time: a request answered with a new deployment left
    every other deployment of the service finished, and the new one is stored
    under a fresh identifier, queued, with its job at the end of the queue. *)
Theorem one_active_deployment input uuid now s a s' :
  createDeploymentOperation dateParse fraction_text localeCompare usageRecords input uuid now s = (Ok a, s') ->
  js_find (same_request input) (map_values (deployments s)) = None ->
  map_get ("dep_" +:+ uuid) (deployments s) = None ->
  map_get ("dep_" +:+ uuid) (deployments s') = Some (oa_deployment a)
  /\ terminal_row (oa_deployment a) = false
  /\ (forall row, row ∈ service_rows (op_serviceId input) s' -> terminal_row row = false -> row = oa_deployment a)
  /\ (forall id, id <> "dep_" +:+ uuid -> map_get id (deployments s') = map_get id (deployments s))
  /\ workflowJobs (cp_workflow s') = workflowJobs (cp_workflow s) ++ [oa_job a] /\ wj_targetId (oa_job a) = "dep_" +:+ uuid.
Proof.
  intros H Hnone Hfresh. apply request_new in H; [|done]. destruct H as (Hdone & Hd & Hj & _ & _ & _ & _ & _ & Hst & _ & Ht & _).
  split_and!; [by rewrite Hd, map_get_set_eq|unfold terminal_row; by rewrite Hst| | |done|done].
  - intros row Hrow Hterm. unfold service_rows in Hrow. apply list_elem_of_filter in Hrow as [Hsv Hrow].
    rewrite Hd, map_set_fresh in Hrow by done. unfold map_values in Hrow. rewrite fmap_app in Hrow.
    apply elem_of_app in Hrow as [Hrow|Hrow%list_elem_of_singleton]; [|done]. exfalso.
    assert (terminal_row row = true); [|congruence]. rewrite Forall_forall in Hdone. apply Hdone. by apply list_elem_of_filter.
  - intros id Hid. rewrite Hd. by apply map_get_set_ne.
Qed.
(** ** Repetition *)

Lemma lower_slash c : is_key_char c = true -> lower_char c <> "/"%char.
Proof. destruct c as [[] [] [] [] [] [] [] []]; vm_compute; congruence. Qed.

Lemma no_secret_url l : Forall (fun c => is_key_char c = true) l -> match_secret_url l = None.
Proof.
  intros Hl. unfold match_secret_url. destruct (list_find _ _) as [[i scheme]|] eqn:E; [|done]. exfalso.
  apply list_find_Some in E as (_ & [Hp _] & _). apply prefixb_spec in Hp as (k & Hk).
  assert ("/"%char ∈ lower_char <$> l) as Hin.
  { rewrite Hk, chars_app. apply elem_of_app. left. apply elem_of_app. right. apply (bool_decide_unpack _). vm_compute. exact I. }
  apply list_elem_of_fmap in Hin as (c & Hc & Hin). rewrite Forall_forall in Hl. by apply (lower_slash c (Hl c Hin)).
Qed.

Lemma key_unmasked fuel w l : Forall (fun c => is_key_char c = true) l -> mask_urls fuel w l = l.
Proof.
  revert w l. induction fuel as [|n IH]; intros w l Hl; [done|]. destruct l as [|c l]; [done|]. cbn [mask_urls].
  replace (if w then None else match_secret_url (c :: l)) with (None : option (list ascii * list ascii)) by (destruct w; [done|]; by rewrite no_secret_url).
  f_equal. apply IH. by inversion Hl.
Qed.

Lemma key_kept key : class_pattern is_key_char 1 128 key = true -> maskSecretLikeString key = key.
Proof.
  unfold class_pattern. intros H. unfold maskSecretLikeString. rewrite key_unmasked, unchars_chars; [done|].
  apply Forall_forall. intros c Hc. apply andb_true_iff in H as [_ H]. rewrite forallb_forall in H. apply H. by apply list_elem_of_In.
Qed.

Lemma identity_replays input payload :
  (forall id, op_sourceDeploymentId input = Some id -> sanitizeLogRecord (JStr id) = JStr id) ->
  obj_get "operationRequest" payload = sanitizeWorkflowValue (JObj (operationIdentity input)) -> assertOperationReplay input payload = Ok tt.
Proof.
  intros Hid Hp. unfold assertOperationReplay. rewrite Hp. apply throw_if_Ok.
  assert (sanitizeWorkflowValue (JObj (operationIdentity input)) = JObj (operationIdentity input)) as ->.
  { unfold operationIdentity. cbn -[sanitizeLogRecord]. repeat f_equal.
    - by destruct (op_operation input).
    - destruct (op_sourceDeploymentId input) as [id|]; [|done]. by apply Hid. }
  change (negb (bool_decide (Some (operation_text (op_operation input)) = Some (operation_text (op_operation input))))
          || negb (same_source (json_source (op_sourceDeploymentId input)) (op_sourceDeploymentId input))
          || negb (bool_decide (Some (op_snapshotVersion input) = Some (op_snapshotVersion input))) = false).
  rewrite !bool_decide_true by done. destruct (op_sourceDeploymentId input) as [id|]; cbn; [by rewrite bool_decide_true|done].
Qed.

(** ** The daily quota *)

(** A check that passes for a user with a quota of their own. *)
Lemma enforce_with_quota userId action metric increment now s s' user row limit :
  enforceUserCan dateParse fraction_text userId action metric increment usageRecords now s = (Ok tt, s') ->
  map_get userId (users (accounts (cp_workflow s))) = Some user -> ~ exempt user ->
  js_find (fun row => q_userId row = userId) (map_values (quotas (accounts (cp_workflow s)))) = Some row ->
  metric <> "" -> map_get metric (q_limits row) = Some limit ->
  exceeds (add_amount (usage_of metric (quotaUsageForUser dateParse userId usageRecords now s)) (match increment with NotANumber => Fin 0 | a => a end))
    (Fin (inject_Z limit)) = false /\ s' = s.
Proof.
  intros H Hu Hex Hq Hm Hl. unfold enforceUserCan in H. rewrite run_get, Hu in H. destruct (isActiveBan user now); [done|].
  replace (bool_decide (u_role user = "ADMIN") || bool_decide (u_accountType user = "CLUB_MEMBER")) with false in H
    by (symmetry; apply orb_false_iff; split; apply bool_decide_eq_false; intros ?; apply Hex; (by left + by right)).
  destruct (negb _); [done|]. rewrite Hq in H. unfold mbind, M_bind, mret, M_ret, get in H. rewrite str_empty_eq, bool_decide_false, Hl in H by done. cbv zeta in H.
  destruct (exceeds _ _); [done|]. by injection H as <-.
Qed.

Lemma deployment_requirements v : exists rest, combineQuotaRequirements (deploymentQuotaRequirements v) = mkRequirement "maxDeploymentsPerDay" 1 :: rest.
Proof. unfold deploymentQuotaRequirements. case_bool_decide; eexists; reflexivity. Qed.

(** The rows counted today after one more deployment. *)
Lemma todays_after input uuid now s a s' userId : started input uuid s a s' -> map_get ("dep_" +:+ uuid) (deployments s) = None ->
  (length (todays dateParse (user_scope userId s') now) <= length (todays dateParse (user_scope userId s) now) + 1)%nat.
Proof.
  intros (Hd & _ & Hs & Hp & Hm & _) Hfresh. unfold todays, user_scope. cbn [sc_deployments]. rewrite Hd, Hs, Hp, Hm, map_set_fresh by done.
  assert (map_values (deployments s ++ [("dep_" +:+ uuid, oa_deployment a)]) = map_values (deployments s) ++ [oa_deployment a]) as -> by (unfold map_values; by rewrite fmap_app).
  rewrite !filter_app, length_app. apply Nat.add_le_mono_l. etransitivity; [apply length_filter|]. etransitivity; [apply length_filter|]. done.
Qed.

(** The daily quota holds: after a request of an approved user who is not
    exempt was answered with a new deployment, the deployments started today in
    the organizations of the user, the new one included, are within the limit
    of the quota of the user. *)
Theorem deployments_within_quota input uuid now s a s' user row limit :
  let userId := op_requestedByUserId input in
  createDeploymentOperation dateParse fraction_text localeCompare usageRecords input uuid now s = (Ok a, s') ->
  js_find (same_request input) (map_values (deployments s)) = None ->
  map_get ("dep_" +:+ uuid) (deployments s) = None ->
  userId <> "system" -> userId <> "" ->
  map_get userId (users (accounts (cp_workflow s))) = Some user -> ~ exempt user ->
  js_find (fun row => q_userId row = userId) (map_values (quotas (accounts (cp_workflow s)))) = Some row ->
  map_get "maxDeploymentsPerDay" (q_limits row) = Some limit ->
  Z.of_nat (length (todays dateParse (user_scope userId s') now)) <= limit.
Proof.
  intros userId H Hnone Hfresh Hsys Hne Hu Hex Hq Hl. pose proof H as Hnew. apply request_new in Hnew as [_ Hnew]; [|done].
  pose proof (todays_after _ _ now _ _ _ userId Hnew Hfresh) as Hlen.
  apply request_cases in H as [(? & ? & _)|(source & cand & s1 & _ & _ & _ & _ & _ & _ & He)]; [congruence|].
  specialize (He Hsys Hne). destruct (deployment_requirements (obj_get "deploymentType" cand)) as [rest Hreq]. rewrite Hreq in He.
  cbn [enforce_all qr_metric qr_increment] in He. unfold mbind, M_bind in He. destruct (enforceUserCan _ _ _ _ _ _ _ _ s) as [[[]|e] s2] eqn:E; [|done].
  eapply enforce_with_quota in E as [Hx _]; [|done..]. cbv beta iota in Hx.
  rewrite (counted_usage _ _ _ _ _ _ (Z.of_nat (length (todays dateParse (user_scope userId s) now)))), exceeds_sum_int in Hx by reflexivity.
  apply Z.ltb_ge in Hx. lia.
Qed.
End Requests.

(** ** Application *)

(** Mia may deploy three times a day and retries a failed deployment. *)
Definition mia : User :=
  mkUser "usr_1" "Mia" "" false "mia@school.ac.kr" None None None "USER" "NON_CLUB" "APPROVED" 0 None None None None None 0 0.
Definition mias_quota : QuotaRow := Build_QuotaRow "q" "usr_1" "NON_CLUB" [("maxDeploymentsPerDay", 3)] 0 0.
Definition mias_plane : ControlPlane :=
  mkControlPlane
    (mkWorkflowStore (empty_accounts <| users := [("usr_1", mia)] |> <| quotas := [("q", mias_quota)] |> <| members := [mkMember "org" "usr_1" "owner" None None None] |>) [])
    [("p", [("id", JStr "p"); ("organizationId", JStr "org")])]
    [("svc_1", [("id", JStr "svc_1"); ("projectId", JStr "p")])] [] [("dep_1", failed_image_deployment)] [].

Notation mias_request := (createDeploymentOperation any_date no_text (fun _ _ => Eq) []).
Definition mias_run := mias_request retry_request "u1" 1000 mias_plane.
Definition mias_answer : OperationAnswer := match mias_run.1 with Ok a => a | Throw _ => mkOperationAnswer [] (mkJob "" "" "" "" "" [] 0 0 0 None None 0 0) end.

Lemma mias_answer_is : mias_request retry_request "u1" 1000 mias_plane = (Ok mias_answer, mias_run.2).
Proof. vm_compute. reflexivity. Qed.

Lemma request_refused_clean_witness : exists e s', mias_request redeploy_request "u2" 2000 mias_run.2 = (Throw e, s') /\ only_logged mias_run.2 s'.
Proof.
  exists (DeploymentOperationError "ACTIVE_DEPLOYMENT" 409), mias_run.2.
  assert (mias_request redeploy_request "u2" 2000 mias_run.2 = (Throw (DeploymentOperationError "ACTIVE_DEPLOYMENT" 409), mias_run.2)) as E by (vm_compute; reflexivity).
  split; [exact E|]. exact (request_refused_clean _ _ _ _ _ _ _ _ _ _ E).
Defined.

Lemma one_active_deployment_witness :
  map_get "dep_u1" (deployments mias_run.2) = Some (oa_deployment mias_answer) /\ terminal_row (oa_deployment mias_answer) = false.
Proof.
  destruct (one_active_deployment _ _ _ _ _ _ _ _ _ _ mias_answer_is) as (H1 & H2 & _); [vm_compute; reflexivity..|]. split; [exact H1|exact H2].
Defined.


Lemma deployments_within_quota_witness : Z.of_nat (length (todays any_date (user_scope "usr_1" mias_run.2) 1000)) <= 3.
Proof.
  apply (deployments_within_quota _ _ _ _ _ _ _ _ _ _ mia mias_quota 3 mias_answer_is);
    [vm_compute; reflexivity|vm_compute; reflexivity|vm_compute; discriminate|vm_compute; discriminate|vm_compute; reflexivity| |vm_compute; reflexivity..].
  intros [H|H]; vm_compute in H; discriminate H.
Defined.

Close Scope Z_scope.
