(* ===== verification/DeploymentHistory.v ===== *)
(** * The history of deployments ([packages/core/src/deployment-history.ts])

    The deployments of a project, filtered, newest first and page by page, with
    signed cursors that hold for one project and one set of filters, and for
    each deployment the action its reader may take.  The pages are complete,
    cursors cannot be made up, and what is offered can be done, but for two
    defects at the end.  [Date.parse], [localeCompare], JSON, base64url, SHA-256
    and HMAC are parameters. *)

From Stdlib Require Import QArith.
From S2P Require Import Prelude JsString JsMap JsVal Ids Lifecycle Secrets Accounts Redaction Workflows ControlPlane Deployments DeploymentSafety DeploymentOperations DeploymentOperationSafety DeploymentExamples Quotas DeploymentRequests Paging.

Open Scope Z_scope.

Definition DeploymentHistoryError : jserror := JsError "DeploymentHistoryError" "INVALID_DEPLOYMENT_HISTORY_QUERY" (Some 400).

Record DeploymentHistoryQuery := mkHistoryQuery {
  hq_serviceId : option string; hq_environment : option string; hq_status : option string; hq_trigger : option string;
  hq_from : option string; hq_to : option string; hq_limit : Z; hq_cursor : option string
}.

Record DeploymentHistoryScope := mkHistoryScope { hs_organizationId : string; hs_projectId : string; hs_cursorSecret : string }.

Section History.
Context (dateParse : string -> option Z) (localeCompare : string -> string -> comparison).
Context (jsonText : jsval -> string) (jsonParse : string -> option jsval) (toBase64 fromBase64 : string -> string).
Context (sha256 : string -> string) (hmac : string -> string -> string).

(** ** The query *)

Definition history_timestamp (value : jsval) : result string :=
  match dateParse (js_String value) with Some t => Ok (toISOString t) | None => Throw DeploymentHistoryError end.

Definition optionalMatch (value : jsval) (pattern : string -> bool) : result (option string) :=
  match value with
  | JUndef => Ok None
  | JStr s => if pattern s then Ok (Some s) else Throw DeploymentHistoryError
  | _ => Throw DeploymentHistoryError
  end.

Definition optionalTimestamp (value : jsval) : result (option string) :=
  match value with
  | JUndef => Ok None
  | JStr s => t ← history_timestamp (JStr s); Ok (Some t)
  | _ => Throw DeploymentHistoryError
  end.

Definition ENVIRONMENTS : list string := ["production"; "preview"; "manual"].

(** [/^.{1,512}$/u], [/^[A-Za-z0-9._:-]{1,128}$/] and [/^[A-Za-z0-9_-]{1,2048}$/] *)
Definition one_line_text (s : string) : bool := class_pattern (fun c => negb ((code c =? 10)%N || (code c =? 13)%N)) 1 512 s.
Definition trigger_text (s : string) : bool := class_pattern is_key_char 1 128 s.
Definition cursor_chars (s : string) : bool := class_pattern (fun c => is_alnum c || (code c =? 95)%N || is_hyphen c) 1 2048 s.

Definition HISTORY_KEYS : list string := ["serviceId"; "environment"; "status"; "trigger"; "from"; "to"; "limit"; "cursor"].

(** Undefined and empty items do not count. *)
Definition counted_item (v : jsval) : bool := match v with JUndef | JStr "" => false | _ => true end.

Definition history_limit (v : jsval) : result Z :=
  match v with
  | JUndef => Ok 25
  | _ => match to_number v with
         | NInt n => if (1 <=? n) && (n <=? 100) then Ok n else Throw DeploymentHistoryError
         | _ => Throw DeploymentHistoryError
         end
  end.

Definition optional_status (v : jsval) : result (option string) :=
  match v with
  | JUndef => Ok None
  | _ => match normalizeDeploymentStatus v with Ok s => Ok (Some s) | Throw _ => Throw DeploymentHistoryError end
  end.

Definition parseDeploymentHistoryQuery (value : jsval) : result DeploymentHistoryQuery :=
  match value with
  | JObj fs =>
      let input := filter (fun kv => counted_item kv.2 = true) fs in
      let f := fun k => obj_get k input in
      _ ← throw_if (existsb (fun k => negb (bool_decide (k ∈ HISTORY_KEYS))) input.*1) DeploymentHistoryError;
      serviceId ← optionalMatch (f "serviceId") one_line_text;
      environment ← optionalMatch (f "environment") (fun s => bool_decide (s ∈ ENVIRONMENTS));
      trigger ← optionalMatch (f "trigger") trigger_text;
      from ← optionalTimestamp (f "from");
      to ← optionalTimestamp (f "to");
      cursor ← optionalMatch (f "cursor") cursor_chars;
      limit ← history_limit (f "limit");
      _ ← throw_if (match from, to with Some a, Some b => str_lt b a | _, _ => false end) DeploymentHistoryError;
      status ← optional_status (f "status");
      Ok (mkHistoryQuery serviceId environment status trigger from to limit cursor)
  | _ => Throw DeploymentHistoryError
  end.

(** ** Cursors *)

Definition option_json (v : option string) : jsval := match v with Some s => JStr s | None => JNull end.

Definition publicFilters (query : DeploymentHistoryQuery) : jsobj :=
  [("serviceId", option_json (hq_serviceId query)); ("environment", option_json (hq_environment query)); ("status", option_json (hq_status query));
   ("trigger", option_json (hq_trigger query)); ("from", option_json (hq_from query)); ("to", option_json (hq_to query))].

Definition filterFingerprint (query : DeploymentHistoryQuery) : string := toBase64 (sha256 (jsonText (JObj (publicFilters query)))).

Definition cursorKey (secret : string) : result string :=
  if str_empty secret then Throw DeploymentHistoryError else Ok ("deployment-history-v1" +:+ unchars [chr 0] +:+ secret).

(** A position is the time and the identifier of a deployment. *)
Notation HistoryPosition := (string * string)%type.

Definition cursor_payload (position : HistoryPosition) (scope : DeploymentHistoryScope) (query : DeploymentHistoryQuery) : jsobj :=
  [("v", JNum (NInt 1)); ("o", JStr (hs_organizationId scope)); ("p", JStr (hs_projectId scope)); ("f", JStr (filterFingerprint query));
   ("at", JStr position.1); ("id", JStr position.2)].

Definition encodeDeploymentHistoryCursor (position : HistoryPosition) (scope : DeploymentHistoryScope) (query : DeploymentHistoryQuery) : result string :=
  let payload := cursor_payload position scope query in
  key ← cursorKey (hs_cursorSecret scope);
  Ok (toBase64 (jsonText (JObj (payload ++ [("h", JStr (toBase64 (hmac key (jsonText (JObj payload)))))])))).

(** The parts of a cursor: organization, project, filters, time, identifier and signature *)
Definition isCursor (value : jsval) : option (string * string * string * HistoryPosition * string) :=
  match value with
  | JObj fs =>
      if bool_decide (js_sort String.leb fs.*1 = ["at"; "f"; "h"; "id"; "o"; "p"; "v"]) && bool_decide (as_integer (obj_get "v" fs) = Some 1) then
        match as_string (obj_get "o" fs), as_string (obj_get "p" fs), as_string (obj_get "f" fs), as_string (obj_get "at" fs), as_string (obj_get "id" fs),
              as_string (obj_get "h" fs) with
        | Some o, Some p, Some f, Some at_, Some id, Some h => Some (o, p, f, (at_, id), h)
        | _, _, _, _, _, _ => None
        end
      else None
  | _ => None
  end.

Definition decodeDeploymentHistoryCursor (value : string) (scope : DeploymentHistoryScope) (query : DeploymentHistoryQuery) : result HistoryPosition :=
  match jsonParse (fromBase64 value) with
  | None => Throw DeploymentHistoryError
  | Some parsed =>
      match isCursor parsed with
      | None => Throw DeploymentHistoryError
      | Some (o, p, f, position, h) =>
          _ ← throw_if (negb (bool_decide (o = hs_organizationId scope)) || negb (bool_decide (p = hs_projectId scope))
                        || negb (bool_decide (f = filterFingerprint query))) DeploymentHistoryError;
          key ← cursorKey (hs_cursorSecret scope);
          _ ← throw_if (negb (bool_decide (fromBase64 h = hmac key (jsonText (JObj (map_delete "h" (entries parsed))))))) DeploymentHistoryError;
          at_ ← history_timestamp (JStr position.1);
          Ok (at_, position.2)
      end
  end.

(** ** Positions and filters *)

(** [comparePosition]: the collation of times, then of identifiers *)
Definition comparePosition (a b : HistoryPosition) : comparison :=
  match localeCompare a.1 b.1 with Eq => localeCompare a.2 b.2 | c => c end.

(** A deployment with its position *)
Notation Placed := (HistoryPosition * jsobj)%type.

Definition position (row : jsobj) : result Placed :=
  at_ ← history_timestamp (obj_get "createdAt" row);
  Ok ((at_, js_String (obj_get "id" row)), row).

Definition history_environment (value : jsval) : string :=
  let normalized := toLowerCase (js_String (js_or value (JStr "production"))) in
  if bool_decide (normalized ∈ ["preview"; "manual"]) then normalized else "production".

(** [!wanted || value === wanted] *)
Definition wanted_or (wanted : option string) (test : string -> bool) : bool := match wanted with Some w => str_empty w || test w | None => true end.
Definition agrees (wanted : option string) (value : string) : bool := wanted_or wanted (fun w => bool_decide (value = w)).

Definition matchesFilters (placed : Placed) (query : DeploymentHistoryQuery) : result bool :=
  let f := fun k => obj_get k placed.2 in
  if negb (wanted_or (hq_serviceId query) (fun id => bool_decide (as_string (f "serviceId") = Some id))) then Ok false
  else if negb (agrees (hq_environment query) (history_environment (f "deploymentType"))) then Ok false
  else
    status_ok ← (match hq_status query with
                 | Some wanted => if str_empty wanted then Ok true else s ← normalizeDeploymentStatus (f "status"); Ok (bool_decide (s = wanted))
                 | None => Ok true
                 end);
    Ok (status_ok && agrees (toLowerCase <$> hq_trigger query) (toLowerCase (js_String (f "triggerType")))
        && wanted_or (hq_from query) (fun from => negb (str_lt placed.1.1 from))
        && wanted_or (hq_to query) (fun to => negb (str_lt to placed.1.1))).

Fixpoint matching (rows : list jsobj) (query : DeploymentHistoryQuery) : result (list Placed) :=
  match rows with
  | [] => Ok []
  | row :: rest =>
      placed ← position row;
      keep ← matchesFilters placed query;
      others ← matching rest query;
      Ok (if keep : bool then placed :: others else others)
  end.

(** [comparePosition(right, position(left))] is not positive. *)
Definition newest (left right : Placed) : bool := match comparePosition right.1 left.1 with Gt => false | _ => true end.

Definition beyond (cursor : option HistoryPosition) (placed : Placed) : bool :=
  match cursor with None => true | Some c => match comparePosition placed.1 c with Lt => true | _ => false end end.

(** The rows of a page and, when there are more, the last of them *)
Definition select_page (rows : list Placed) (cursor : option HistoryPosition) (limit : nat) : list Placed * option Placed :=
  let selected := take (limit + 1) (js_sort newest (filter (fun placed => beyond cursor placed = true) rows)) in
  (take limit selected, if (limit <? length selected)%nat then last (take limit selected) else None).

(** ** Actions *)

Inductive ActionType := act_retry | act_redeploy | act_cancel | act_rollback.

(** The method and the confirmation are the same for every action. *)
Record HistoryAction := mkAction { ha_type : ActionType; ha_targetId : string; ha_href : string; ha_snapshotVersion : option Z }.

Definition positiveInteger (v : jsval) : option Z := match as_integer v with Some n => if 0 <? n then Some n else None | None => None end.
Definition nonnegativeInteger (v : jsval) : option Z := match as_integer v with Some n => if 0 <=? n then Some n else None | None => None end.

Definition replay_request (source : jsobj) (operation : Operation) (snapshotVersion : Z) : DeploymentOperation :=
  mkOperation operation (js_String (obj_get "serviceId" source)) (Some (js_String (obj_get "id" source))) "history" "history" snapshotVersion.

(** Whether the operation would accept the deployment as its source *)
Definition canReplay (source : jsobj) (operation : Operation) : result bool :=
  match positiveInteger (obj_get "snapshotVersion" source) with
  | None => Ok false
  | Some version =>
      match deploymentSuccessor (Some source) (replay_request source operation version) "" with
      | Ok _ => Ok true
      | Throw e => if bool_decide (err_class e = "DeploymentOperationError") then Ok false else Throw e
      end
  end.

Definition other_row (row candidate : jsobj) : bool := negb (bool_decide (as_string (obj_get "id" candidate) = as_string (obj_get "id" row))).

(** [rows.some((candidate) => candidate.id !== row.id && !isDeploymentTerminal(candidate.status))] *)
Fixpoint other_active (rows : list jsobj) (row : jsobj) : result bool :=
  match rows with
  | [] => Ok false
  | candidate :: rest =>
      active ← (if other_row row candidate then t ← isDeploymentTerminal (obj_get "status" candidate); Ok (negb t) else Ok false);
      if active : bool then Ok true else other_active rest row
  end.

Definition RETRY_STATUSES : list string := ["BUILD_FAILED"; "FAILED"].

Definition retryReason (row : jsobj) (serviceRows : list jsobj) (execute : bool) : result (option string) :=
  if negb execute then Ok (Some "PERMISSION_DENIED") else
  status ← normalizeDeploymentStatus (obj_get "status" row);
  if negb (bool_decide (status ∈ RETRY_STATUSES)) then Ok (Some "STATUS_NOT_RETRYABLE") else
  active ← other_active serviceRows row;
  if active : bool then Ok (Some "ACTIVE_DEPLOYMENT") else
  replayable ← canReplay row retry;
  Ok (if replayable : bool then None else Some "SOURCE_NOT_RETRYABLE").

(** The READY deployments with an image besides the current one *)
Fixpoint ready_others (rows : list jsobj) (current : jsobj) : result (list jsobj) :=
  match rows with
  | [] => Ok []
  | row :: rest =>
      keep ← (if other_row current row then s ← normalizeDeploymentStatus (obj_get "status" row); Ok (bool_decide (s = "READY") && has_image row) else Ok false);
      others ← ready_others rest current;
      Ok (if keep : bool then row :: others else others)
  end.

Fixpoint place_all (rows : list jsobj) : result (list Placed) :=
  match rows with [] => Ok [] | row :: rest => p ← position row; ps ← place_all rest; Ok (p :: ps) end.

Definition previousReady (rows : list jsobj) (current : jsobj) : result (option jsobj) :=
  others ← ready_others rows current;
  placed ← place_all others;
  match placed with
  | [] => Ok None
  | _ => here ← position current;
         Ok (snd <$> head (js_sort newest (filter (fun p => beyond (Some here.1) p = true) placed)))
  end.

Fixpoint replayable_rows (rows : list jsobj) : result (list jsobj) :=
  match rows with
  | [] => Ok []
  | row :: rest => keep ← canReplay row redeploy; others ← replayable_rows rest; Ok (if keep : bool then row :: others else others)
  end.

(** The comparator is called, and may throw, only when there are two rows. *)
Definition newest_row (rows : list jsobj) : result (option jsobj) :=
  match rows with
  | [] => Ok None
  | [row] => Ok (Some row)
  | _ => placed ← place_all rows; Ok (snd <$> head (js_sort newest placed))
  end.

Definition REDEPLOY_STATUSES : list string := ["READY"; "CANCELLED"; "CLEANED_UP"].

Definition eligibleHistoryAction (row : jsobj) (serviceRows : list jsobj) (execute : bool) (snapshotVersion : option Z) : result (option HistoryAction) :=
  if negb execute then Ok None else
  let id := js_String (obj_get "id" row) in
  let serviceId := js_String (obj_get "serviceId" row) in
  status ← normalizeDeploymentStatus (obj_get "status" row);
  cancellable ← canCancelDeployment (JStr status);
  if cancellable : bool then Ok (Some (mkAction act_cancel id ("/deployments/" +:+ id +:+ "/cancel") None)) else
  reason ← (if bool_decide (status ∈ RETRY_STATUSES) then retryReason row serviceRows true else Ok (Some ""));
  match reason with
  | None => Ok (Some (mkAction act_retry id ("/deployments/" +:+ id +:+ "/retry") snapshotVersion))
  | Some _ =>
      active ← other_active serviceRows row;
      if active : bool then Ok None else
      previous ← (if bool_decide (status = "READY") then previousReady serviceRows row else Ok None);
      match previous with
      | Some _ => Ok (Some (mkAction act_rollback id ("/deployments/" +:+ id +:+ "/rollback") None))
      | None =>
          sources ← replayable_rows serviceRows;
          source ← newest_row sources;
          Ok (match source with
              | Some s => if bool_decide (status ∈ REDEPLOY_STATUSES)
                          then Some (mkAction act_redeploy serviceId ("/services/" +:+ serviceId +:+ "/redeploy") (positiveInteger (obj_get "snapshotVersion" s)))
                          else None
              | None => None
              end)
      end
  end.

(** ** Rows and pages *)

Definition nullableString (v : jsval) : option string := match v with JUndef | JNull | JStr "" => None | _ => Some (js_String v) end.
Definition nullableTimestamp (v : jsval) : result (option string) := if truthy v then t ← history_timestamp v; Ok (Some t) else Ok None.

(** The rollout status of the health of a row is its status. *)
Record HistoryRow := mkHistoryRow {
  hr_id : string; hr_projectId : string; hr_serviceId : string; hr_serviceName : string; hr_serviceSlug : string;
  hr_environment : string; hr_status : string; hr_trigger : string; hr_createdAt : string; hr_updatedAt : string;
  hr_commitSha : option string; hr_imageDigest : option string; hr_snapshotVersion : option Z;
  hr_sourceDeploymentId : option string; hr_retryOfDeploymentId : option string; hr_rollbackOfDeploymentId : option string;
  hr_previousDeploymentId : option string; hr_previewLineageId : option string; hr_previewGeneration : option Z;
  hr_requestedByUserId : option string; hr_requestIdempotencyKey : option string;
  hr_publicHealthStatus : string; hr_healthCheckedAt : option string; hr_healthFailureCode : option string; hr_observedGeneration : option Z;
  hr_retryReason : option string; hr_execute : bool; hr_eligibleAction : option HistoryAction
}.

Definition hr_retryable (row : HistoryRow) : bool := match hr_eligibleAction row with Some a => match ha_type a with act_retry => true | _ => false end | None => false end.

Definition deploymentHistoryRow (deployment service : jsobj) (serviceDeployments : list jsobj) (execute : bool) : result HistoryRow :=
  let f := fun k => obj_get k deployment in
  let g := fun k => js_String (obj_get k service) in
  status ← normalizeDeploymentStatus (f "status");
  let snapshotVersion := positiveInteger (f "snapshotVersion") in
  action ← eligibleHistoryAction deployment serviceDeployments execute snapshotVersion;
  createdAt ← history_timestamp (f "createdAt");
  updatedAt ← history_timestamp (f "updatedAt");
  healthCheckedAt ← nullableTimestamp (f "healthCheckedAt");
  reason ← retryReason deployment serviceDeployments execute;
  Ok (mkHistoryRow (js_String (f "id")) (js_String (f "projectId")) (g "id") (g "name") (g "slug")
        (history_environment (f "deploymentType")) status (js_String (js_or (f "triggerType") (JStr "manual"))) createdAt updatedAt
        (nullableString (js_or (f "commitSha") (f "commitHash"))) (nullableString (f "imageDigest")) snapshotVersion
        (nullableString (f "sourceDeploymentId")) (nullableString (f "retryOfDeploymentId")) (nullableString (f "rollbackOfDeploymentId"))
        (nullableString (f "previousDeploymentId")) (nullableString (f "previewLineageId")) (nonnegativeInteger (f "previewGeneration"))
        (nullableString (f "requestedByUserId")) (nullableString (f "requestIdempotencyKey"))
        (js_String (js_or (f "publicHealthStatus") (JStr "UNKNOWN"))) healthCheckedAt (nullableString (f "healthFailureCode"))
        (nonnegativeInteger (f "observedGeneration")) reason execute action).

Record HistoryPage := mkHistoryPage { hp_deployments : list HistoryRow; hp_limit : Z; hp_nextCursor : option string; hp_filters : jsobj }.

Definition history_cursor (query : DeploymentHistoryQuery) (scope : DeploymentHistoryScope) : result (option HistoryPosition) :=
  match hq_cursor query with
  | Some text => if str_empty text then Ok None else c ← decodeDeploymentHistoryCursor text scope query; Ok (Some c)
  | None => Ok None
  end.

(** The deployments of a page *)
Definition selected_page (deployments_ : list jsobj) (query : DeploymentHistoryQuery) (scope : DeploymentHistoryScope) : result (list Placed * option Placed) :=
  cursor ← history_cursor query scope;
  rows ← matching deployments_ query;
  Ok (select_page rows cursor (Z.to_nat (hq_limit query))).

Definition next_cursor (last_ : option Placed) (query : DeploymentHistoryQuery) (scope : DeploymentHistoryScope) : result (option string) :=
  match last_ with
  | Some p => text ← encodeDeploymentHistoryCursor p.1 scope query; Ok (Some text)
  | None => Ok None
  end.

Definition same_service (a b : jsobj) : Prop := as_string (obj_get "serviceId" a) = as_string (obj_get "serviceId" b).
#[export] Instance same_service_dec a b : Decision (same_service a b).
Proof. unfold same_service. apply _. Defined.

(** The last service with an identifier is the one a [Map] keeps. *)
Definition service_of_row (services_ : list jsobj) (row : jsobj) : jsobj :=
  default [] (js_find (fun service => js_String (obj_get "id" service) = js_String (obj_get "serviceId" row)) (rev services_)).

Fixpoint history_rows (placed : list Placed) (services_ actionDeployments : list jsobj) (execute : bool) : result (list HistoryRow) :=
  match placed with
  | [] => Ok []
  | (_, row) :: rest =>
      shown ← deploymentHistoryRow row (service_of_row services_ row) (filter (same_service row) actionDeployments) execute;
      others ← history_rows rest services_ actionDeployments execute;
      Ok (shown :: others)
  end.

Definition deploymentHistoryPage (deployments_ : list jsobj) (actionDeployments : option (list jsobj)) (services_ : list jsobj)
    (query : DeploymentHistoryQuery) (scope : DeploymentHistoryScope) (execute : bool) : result HistoryPage :=
  page ← selected_page deployments_ query scope;
  rows ← history_rows page.1 services_ (default deployments_ actionDeployments) execute;
  next ← next_cursor page.2 query scope;
  Ok (mkHistoryPage rows (hq_limit query) next (publicFilters query)).

(** ** Properties: cursors *)

(** The object a cursor is the text of *)
Definition signed_cursor (key : string) (p : HistoryPosition) (scope : DeploymentHistoryScope) (query : DeploymentHistoryQuery) : jsval :=
  let payload := cursor_payload p scope query in
  JObj (payload ++ [("h", JStr (toBase64 (hmac key (jsonText (JObj payload)))))]).

(** JSON and base64url read back what they wrote for this cursor. *)
Definition reads_back (key : string) (p : HistoryPosition) (scope : DeploymentHistoryScope) (query : DeploymentHistoryQuery) : Prop :=
  let cursor := signed_cursor key p scope query in
  str_empty (toBase64 (jsonText cursor)) = false /\ jsonParse (fromBase64 (toBase64 (jsonText cursor))) = Some cursor
  /\ fromBase64 (toBase64 (hmac key (jsonText (JObj (cursor_payload p scope query))))) = hmac key (jsonText (JObj (cursor_payload p scope query))).

Lemma isCursor_signed key p scope query :
  isCursor (signed_cursor key p scope query) =
  Some (hs_organizationId scope, hs_projectId scope, filterFingerprint query, p, toBase64 (hmac key (jsonText (JObj (cursor_payload p scope query))))).
Proof. by destruct p. Qed.

(** What a cursor made for one scope and query gives under another *)
Lemma decode_encoded key p scope query scope' query' :
  reads_back key p scope query -> cursorKey (hs_cursorSecret scope') = Ok key ->
  decodeDeploymentHistoryCursor (toBase64 (jsonText (signed_cursor key p scope query))) scope' query' =
  if bool_decide (hs_organizationId scope = hs_organizationId scope') && bool_decide (hs_projectId scope = hs_projectId scope')
     && bool_decide (filterFingerprint query = filterFingerprint query')
  then at_ ← history_timestamp (JStr p.1); Ok (at_, p.2) else Throw DeploymentHistoryError.
Proof.
  intros (_ & H1 & H2) Hk. unfold decodeDeploymentHistoryCursor. rewrite H1, isCursor_signed.
  destruct (bool_decide _); [|done]. destruct (bool_decide _); [|done]. destruct (bool_decide _); [|done]. cbn [negb orb andb throw_if mbind result_bind].
  rewrite Hk. cbn [mbind result_bind]. rewrite H2.
  change (map_delete "h" (entries (signed_cursor key p scope query))) with (cursor_payload p scope query). by rewrite bool_decide_true.
Qed.

(** Cursors round trip and stay where they belong: a cursor is read as the
    position it was made for, and refused under another organization, project
    or set of filters. *)
Theorem history_cursor_round_trip p scope query text scope' query' :
  encodeDeploymentHistoryCursor p scope query = Ok text -> hs_cursorSecret scope' = hs_cursorSecret scope ->
  (forall key, cursorKey (hs_cursorSecret scope) = Ok key -> reads_back key p scope query) -> history_timestamp (JStr p.1) = Ok p.1 ->
  decodeDeploymentHistoryCursor text scope query = Ok p
  /\ (hs_organizationId scope <> hs_organizationId scope' \/ hs_projectId scope <> hs_projectId scope' \/ filterFingerprint query <> filterFingerprint query' ->
      decodeDeploymentHistoryCursor text scope' query' = Throw DeploymentHistoryError).
Proof.
  intros H Hs Hr Ht. unfold encodeDeploymentHistoryCursor in H. destruct (cursorKey (hs_cursorSecret scope)) as [key|] eqn:Hk; [|done].
  assert (text = toBase64 (jsonText (signed_cursor key p scope query))) as -> by (injection H as <-; reflexivity). specialize (Hr key eq_refl). split.
  - rewrite (decode_encoded key) by done. rewrite !bool_decide_true, Ht by done. by destruct p.
  - intros Hne. rewrite (decode_encoded key) by (done || by rewrite Hs). destruct (bool_decide (hs_organizationId scope = _)) eqn:E1; [|done].
    destruct (bool_decide (hs_projectId scope = _)) eqn:E2; [|done]. destruct (bool_decide (filterFingerprint query = _)) eqn:E3; [|done].
    apply bool_decide_eq_true in E1, E2, E3. destruct Hne as [?|[?|?]]; congruence.
Qed.

(** Cursors cannot be made up: one that is accepted names the organization
    and the project of the request and its filters, and carries the signature
    of what it says under the secret of the server. *)
Theorem history_cursor_authentic text scope query p : decodeDeploymentHistoryCursor text scope query = Ok p ->
  exists fs key, jsonParse (fromBase64 text) = Some (JObj fs) /\ cursorKey (hs_cursorSecret scope) = Ok key
    /\ obj_get "o" fs = JStr (hs_organizationId scope) /\ obj_get "p" fs = JStr (hs_projectId scope) /\ obj_get "f" fs = JStr (filterFingerprint query)
    /\ obj_get "id" fs = JStr p.2
    /\ exists h, obj_get "h" fs = JStr h /\ fromBase64 h = hmac key (jsonText (JObj (map_delete "h" fs))).
Proof.
  unfold decodeDeploymentHistoryCursor. destruct (jsonParse _) as [parsed|] eqn:Hp; [|done]. destruct (isCursor parsed) as [[[[[o pr] f] pos] h]|] eqn:Hc; [|done].
  unfold isCursor in Hc. destruct parsed as [| | | | | |fs]; try done. destruct (_ && _); [|done].
  destruct (obj_get "o" fs) eqn:Eo; try done. destruct (obj_get "p" fs) eqn:Ep; try done. destruct (obj_get "f" fs) eqn:Ef; try done.
  destruct (obj_get "at" fs) eqn:Ea; try done. destruct (obj_get "id" fs) eqn:Ei; try done. destruct (obj_get "h" fs) eqn:Eh; try done. cbn in Hc.
  injection Hc as <- <- <- <- <-. intros H. apply bind_Ok in H as ([] & G%throw_if_Ok & H). apply bind_Ok in H as (key & Hk & H).
  apply bind_Ok in H as ([] & G2%throw_if_Ok & H). apply bind_Ok in H as (at_ & _ & [= <-]).
  repeat (apply orb_false_iff in G as [G ?%negb_false_iff%bool_decide_eq_true]). apply negb_false_iff, bool_decide_eq_true in G, G2. subst.
  exists fs, key. split_and!; try done. by exists s4.
Qed.

(** ** Properties: pages *)

Definition with_cursor (query : DeploymentHistoryQuery) (cursor : option string) : DeploymentHistoryQuery :=
  mkHistoryQuery (hq_serviceId query) (hq_environment query) (hq_status query) (hq_trigger query) (hq_from query) (hq_to query) (hq_limit query) cursor.

(** What a client that follows the cursors is shown *)
Fixpoint history_walk (deployments_ services_ : list jsobj) (actionDeployments : option (list jsobj)) (query : DeploymentHistoryQuery)
    (scope : DeploymentHistoryScope) (execute : bool) (fuel : nat) (cursor : option string) : result (list HistoryRow) :=
  match fuel with
  | O => Ok []
  | S fuel' =>
      page ← deploymentHistoryPage deployments_ actionDeployments services_ (with_cursor query cursor) scope execute;
      rest ← (match hp_nextCursor page with
              | Some next => history_walk deployments_ services_ actionDeployments query scope execute fuel' (Some next)
              | None => Ok []
              end);
      Ok (hp_deployments page ++ rest)
  end.

(** [b] comes on a later page than [a]. *)
Definition older (a b : Placed) : bool := pair_lt b.1 a.1.

(** The collation is the order of code units on these positions, which are ASCII. *)
Definition collates (placed : list Placed) : Prop :=
  forall a b, a ∈ placed -> b ∈ placed ->
    localeCompare a.1.1 b.1.1 = String.compare a.1.1 b.1.1 /\ localeCompare a.1.2 b.1.2 = String.compare a.1.2 b.1.2.

Lemma older_laws : (forall x, older x x = false) /\ (forall x y z, older x y = true -> older y z = true -> older x z = true)
  /\ (forall x y z, older y x = false -> older z y = false -> older z x = false).
Proof.
  unfold older. split_and!; [intros; apply pair_lt_irrefl| |].
  - intros x y z H1 H2. by eapply pair_lt_trans.
  - intros x y z H1 H2. by eapply pair_lt_weak.
Qed.

Lemma comparePosition_older placed a b : collates placed -> a ∈ placed -> b ∈ placed ->
  comparePosition b.1 a.1 = if older a b then Lt else if older b a then Gt else Eq.
Proof.
  intros Hc Ha Hb. destruct (Hc b a Hb Ha) as [E1 E2]. unfold comparePosition, older, pair_lt. rewrite E1, E2. destruct a as [[ta ia] a], b as [[tb ib] b]. cbn.
  unfold str_lt. rewrite (String.compare_antisym ta tb), (String.compare_antisym ia ib). destruct (String.compare tb ta) eqn:E; cbn.
  - apply String.compare_eq_iff in E as ->. rewrite bool_decide_true by done. by destruct (String.compare ib ia).
  - done.
  - rewrite bool_decide_false; [done|]. intros ->. pose proof (String.compare_antisym ta ta) as Hi. by rewrite E in Hi.
Qed.

Lemma older_asym a b : older a b = true -> older b a = false.
Proof.
  destruct older_laws as (H1 & H2 & _). intros H. destruct (older b a) eqn:E; [|done]. pose proof (H1 a) as Hi. by rewrite (H2 a b a H E) in Hi.
Qed.

Lemma newest_older placed a b : collates placed -> a ∈ placed -> b ∈ placed -> newest a b = not_after older a b.
Proof.
  intros Hc Ha Hb. unfold newest, not_after. rewrite (comparePosition_older placed) by done. destruct (older a b) eqn:E; [|by destruct (older b a)].
  by rewrite (older_asym a b E).
Qed.

Lemma beyond_older placed c a : collates placed -> a ∈ placed -> c ∈ placed -> beyond (Some c.1) a = older c a.
Proof.
  intros Hc Ha Hb. unfold beyond. rewrite (comparePosition_older placed) by done. by destruct (older c a), (older a c).
Qed.

(** The pages of the history are those of the order. *)
Lemma select_page_older placed limit c : collates placed -> match c with Some x => x ∈ placed | None => True end ->
  select_page placed (fst <$> c) limit = page older placed limit c.
Proof.
  intros Hc Hin. unfold select_page, page.
  assert (filter (fun p => beyond (fst <$> c) p = true) placed = match c with Some x => filter (fun row => older x row = true) placed | None => placed end) as ->.
  { destruct c as [x|]; cbn [fmap option_fmap option_map]; [|by apply filter_all, Forall_forall].
    apply filter_ext_in. intros a Ha. by rewrite (beyond_older placed). }
  rewrite (js_sort_ext _ (not_after older)); [done|]. intros x y Hx Hy. apply (newest_older placed); [done|..]; destruct c as [z|]; try done.
  - by apply list_elem_of_filter in Hx as [_ ?].
  - by apply list_elem_of_filter in Hy as [_ ?].
Qed.

Lemma matching_cursor rows query c : matching rows (with_cursor query c) = matching rows query.
Proof. induction rows as [|row rows IH]; [done|]. cbn [matching]. by rewrite IH. Qed.

Lemma history_rows_app a b services_ actions execute :
  history_rows (a ++ b) services_ actions execute = (x ← history_rows a services_ actions execute; y ← history_rows b services_ actions execute; Ok (x ++ y)).
Proof.
  induction a as [|[p row] a IH]; cbn [history_rows app].
  - by destruct (history_rows b services_ actions execute).
  - destruct (deploymentHistoryRow _ _ _ _); [|done]. cbn [mbind result_bind]. rewrite IH.
    destruct (history_rows a services_ actions execute); [|done]. cbn [mbind result_bind]. by destruct (history_rows b services_ actions execute).
Qed.

(** A page ends with one of its rows. *)
Lemma page_last_listed placed limit c x : (page older placed limit c).2 = Some x -> x ∈ placed.
Proof.
  unfold page. cbn [snd]. destruct (_ <? _)%nat; [|done]. intros Hx%last_Some_elem_of.
  apply elem_of_take in Hx as (i & Hx & _). apply list_elem_of_lookup_2, elem_of_take in Hx as (j & Hx & _).
  apply list_elem_of_lookup_2 in Hx. rewrite js_sort_perm in Hx. destruct c; [by apply list_elem_of_filter in Hx as [_ ?]|done].
Qed.

Lemma placed_total placed x y : NoDup placed.*1 -> x ∈ placed -> y ∈ placed -> x <> y -> older x y = true \/ older y x = true.
Proof.
  intros Hn Hx Hy Hne. unfold older. destruct (pair_lt_trichotomy y.1 x.1) as [?|[E|?]]; [by left| |by right]. destruct Hne.
  apply list_elem_of_lookup in Hx as [i Hi], Hy as [j Hj].
  assert (i = j) as -> by (eapply (NoDup_lookup placed.*1); [done|by rewrite list_lookup_fmap, Hi|by rewrite list_lookup_fmap, Hj; cbn; rewrite E]). congruence.
Qed.

Section complete.
Context (deployments_ services_ : list jsobj) (actionDeployments : option (list jsobj)).
Context (query : DeploymentHistoryQuery) (scope : DeploymentHistoryScope) (execute : bool) (key : string) (placed : list Placed).
Hypothesis rows_match : matching deployments_ query = Ok placed.
Hypothesis rows_collate : collates placed.
Hypothesis secret : cursorKey (hs_cursorSecret scope) = Ok key.
Hypothesis readable : forall p, p ∈ placed -> reads_back key p.1 scope query /\ history_timestamp (JStr p.1.1) = Ok p.1.1.
Notation shown := (fun rows => history_rows rows services_ (default deployments_ actionDeployments) execute).
Notation cursor_text p := (toBase64 (jsonText (signed_cursor key p scope query))).

Lemma history_page_older c text : match c with Some x => x ∈ placed /\ text = Some (cursor_text x.1) | None => text = None end ->
  let listed := page older placed (Z.to_nat (hq_limit query)) c in
  deploymentHistoryPage deployments_ actionDeployments services_ (with_cursor query text) scope execute =
  (rows ← shown listed.1; Ok (mkHistoryPage rows (hq_limit query) ((fun x => cursor_text x.1) <$> listed.2) (publicFilters query))).
Proof.
  intros Hc listed. unfold deploymentHistoryPage, selected_page. rewrite matching_cursor, rows_match.
  assert (history_cursor (with_cursor query text) scope = Ok (fst <$> c)) as ->.
  { unfold history_cursor. destruct c as [x|]; [|by subst]. destruct Hc as [Hx ->]. cbn [with_cursor hq_cursor]. destruct (readable x Hx) as [Hr Ht].
    destruct (Hr) as [-> _]. rewrite (decode_encoded key) by done. rewrite !bool_decide_true, Ht by done. by destruct x as [[??]?]. }
  cbn [mbind result_bind hq_limit with_cursor]. rewrite select_page_older by (done || by destruct c as [x|]; [destruct Hc|]). fold listed.
  destruct (shown listed.1); [|done]. cbn [mbind result_bind]. destruct (listed.2) as [x|]; [|done]. cbn [next_cursor]. unfold encodeDeploymentHistoryCursor.
  by rewrite secret.
Qed.

Lemma history_walk_pages fuel c text : match c with Some x => x ∈ placed /\ text = Some (cursor_text x.1) | None => text = None end ->
  history_walk deployments_ services_ actionDeployments query scope execute fuel text =
  shown (walk older placed (Z.to_nat (hq_limit query)) fuel c).
Proof.
  revert c text. induction fuel as [|fuel IH]; intros c text Hc; [done|]. cbn [history_walk walk]. rewrite (history_page_older c text Hc).
  rewrite history_rows_app. destruct (shown (page older placed (Z.to_nat (hq_limit query)) c).1); [|done]. cbn [mbind result_bind hp_nextCursor hp_deployments].
  destruct ((page older placed (Z.to_nat (hq_limit query)) c).2) as [x|] eqn:E; cbn [fmap option_fmap option_map]; [|done].
  rewrite (IH (Some x)) by (split; [by eapply page_last_listed|done]). done.
Qed.

Lemma history_walk_all fuel : NoDup placed.*1 -> 1 <= hq_limit query -> (length placed < fuel)%nat ->
  history_walk deployments_ services_ actionDeployments query scope execute fuel None = shown (js_sort newest placed).
Proof.
  intros Hn Hl Hf. destruct older_laws as (H1 & H2 & H3). rewrite (history_walk_pages fuel None None) by done.
  rewrite (walk_all older H1 H2 H3 placed (Z.to_nat (hq_limit query))); [|apply sorted_ordered; try done|lia|done].
  - f_equal. apply js_sort_ext. intros x y Hx Hy. by rewrite (newest_older placed).
  - by apply NoDup_fmap_1 in Hn.
  - intros x y ???. by apply (placed_total placed).
Qed.
End complete.

Lemma matching_length rows query placed : matching rows query = Ok placed -> (length placed <= length rows)%nat.
Proof.
  revert placed. induction rows as [|row rows IH]; cbn [matching]; intros placed; [by intros [= <-]|]. intros H. apply bind_Ok in H as (p & _ & H).
  apply bind_Ok in H as (keep & _ & H). apply bind_Ok in H as (others & Ho & [= <-]). specialize (IH others Ho). destruct keep; cbn; lia.
Qed.

(** C31. The history is complete: following the cursors from the first page,
    with any page size, ends and shows every deployment that passes the filters
    exactly once, newest first. *)
Theorem history_complete deployments_ services_ actionDeployments query scope execute key placed :
  matching deployments_ query = Ok placed -> NoDup placed.*1 -> collates placed -> cursorKey (hs_cursorSecret scope) = Ok key ->
  (forall p, p ∈ placed -> reads_back key p.1 scope query /\ history_timestamp (JStr p.1.1) = Ok p.1.1) -> 1 <= hq_limit query ->
  exists listed, listed ≡ₚ placed /\ (forall i j a b, listed !! i = Some a -> listed !! j = Some b -> (i < j)%nat -> pair_lt b.1 a.1 = true)
    /\ history_walk deployments_ services_ actionDeployments query scope execute (S (length deployments_)) None
       = history_rows listed services_ (default deployments_ actionDeployments) execute.
Proof.
  intros Hm Hn Hc Hk Hr Hl. pose proof (matching_length _ _ _ Hm). exists (js_sort newest placed). split; [apply js_sort_perm|]. split.
  - destruct older_laws as (H1 & H2 & H3). rewrite (js_sort_ext _ (not_after older)) by (intros; by eapply newest_older).
    apply (sorted_ordered older H1 H2 H3); [by apply NoDup_fmap_1 in Hn|]. intros x y ???. by apply (placed_total placed).
  - apply (history_walk_all _ _ _ _ _ _ key placed); try done. lia.
Qed.

(** ** Properties: actions *)

(** A stored deployment of the service of [row]: a status of the contract, a text as identifier. *)
Definition stored_beside (row r : jsobj) : Prop :=
  (exists st, obj_get "status" r = JStr st /\ st ∈ SchemaLifecycle.DeploymentStatusSchema) /\ (exists id, obj_get "id" r = JStr id)
  /\ obj_get "serviceId" r = obj_get "serviceId" row /\ obj_get "projectId" r = obj_get "projectId" row.

Lemma schema_status st : st ∈ SchemaLifecycle.DeploymentStatusSchema ->
  normalizeDeploymentStatus (JStr st) = Ok st /\ isDeploymentTerminal (JStr st) = Ok (bool_decide (st ∈ terminalLifecycleInputs machine_deployment)).
Proof.
  intros H. assert (Forall (fun st => normalizeDeploymentStatus (JStr st) = Ok st
    /\ isDeploymentTerminal (JStr st) = Ok (bool_decide (st ∈ terminalLifecycleInputs machine_deployment))) SchemaLifecycle.DeploymentStatusSchema) as Hall
    by (repeat constructor; vm_compute; reflexivity). rewrite Forall_forall in Hall. by apply Hall.
Qed.

Lemma other_active_false rows row : Forall (stored_beside row) rows -> other_active rows row = Ok false ->
  forall r, r ∈ rows -> obj_get "id" r <> obj_get "id" row -> terminal_row r = true.
Proof.
  intros Hs. induction Hs as [|r rows ((st & Hst & Hin) & (id & Hid) & _) _ IH]; cbn [other_active]; intros H x; [by intros ?%not_elem_of_nil|].
  destruct (schema_status st Hin) as [_ Ht]. apply bind_Ok in H as (active & Ha & H). destruct active; [done|]. intros [-> |Hx]%elem_of_cons Hne; [|by apply IH].
  unfold terminal_row. rewrite Hst. cbn [as_string]. revert Ha. rewrite Hst, Ht. assert (other_row row r = true) as ->.
  { unfold other_row. apply negb_true_iff, bool_decide_eq_false. rewrite Hid. destruct (obj_get "id" row); cbn [as_string]; congruence. }
  cbn [mbind result_bind]. generalize (bool_decide (st ∈ terminalLifecycleInputs machine_deployment)). by intros [].
Qed.

Lemma ready_others_in rows row others p : ready_others rows row = Ok others -> p ∈ others ->
  p ∈ rows /\ other_row row p = true /\ normalizeDeploymentStatus (obj_get "status" p) = Ok "READY" /\ has_image p = true.
Proof.
  revert others. induction rows as [|r rows IH]; cbn [ready_others]; intros others; [by intros [= <-] ?%not_elem_of_nil|].
  intros H Hp. apply bind_Ok in H as (keep & Hk & H). apply bind_Ok in H as (rest & Hr & [= <-]).
  assert ((keep = true /\ p = r) \/ p ∈ rest) as [[-> ->]|Hrest] by (destruct keep; [apply elem_of_cons in Hp as [?|?]|]; auto).
  - split; [by left|]. destruct (other_row row r); [|discriminate]. apply bind_Ok in Hk as (s & Hs & [= Hb]).
    apply andb_true_iff in Hb as [->%bool_decide_eq_true Hi]. rewrite Hs. auto.
  - destruct (IH rest Hr Hrest) as [? Hrow]. split; [by right|exact Hrow].
Qed.

Lemma ready_deployments_total rows row current : Forall (stored_beside row) rows -> exists ready, ready_deployments rows current = Ok ready.
Proof.
  induction 1 as [|r rows ((st & Hst & Hin) & _) _ [ready IH]]; [by eexists|]. destruct (schema_status st Hin) as [Hn _].
  cbn [ready_deployments]. rewrite IH, Hst, Hn. destruct (_ && _); cbn; eexists; reflexivity.
Qed.

(** When a deployment is ready before this one, the rollback finds a source. *)
Lemma rollback_source_found rows row others p : Forall (stored_beside row) (row :: rows) -> ready_others rows row = Ok others -> p ∈ others ->
  exists previous, latestReadyDeploymentForService dateParse rows row = Ok (Some previous) /\ validateRollbackSource row (Some previous) "" = Ok previous.
Proof.
  intros [[_ [[id Hid] _]] Hs]%Forall_cons Ho Hp. destruct (ready_others_in _ _ _ _ Ho Hp) as (Hin & Hne & Hst & Him).
  destruct (ready_deployments_total rows row row Hs) as [ready Hr]. pose proof (ready_deployments_spec _ _ _ Hr) as Hspec. rewrite Forall_forall in Hs.
  assert (p ∈ ready) as Hpr.
  { apply Hspec. split; [done|]. destruct (Hs p Hin) as (_ & (pid & Hpid) & Hsv & _). unfold rollback_candidate. rewrite Hpid, Hid, Hsv. split_and!; try done.
    cbn. intros ->. unfold other_row in Hne. by rewrite Hid, Hpid, bool_decide_true in Hne. }
  unfold latestReadyDeploymentForService. rewrite Hr. cbn [mbind result_bind mret result_ret]. destruct (js_sort (later_first dateParse) ready) as [|q l] eqn:El.
  { rewrite <- (js_sort_perm (later_first dateParse)), El in Hpr. by apply not_elem_of_nil in Hpr. }
  exists q. split; [done|]. assert (q ∈ ready) as [Hq (_ & _ & Hqs & Hqi)]%Hspec by (rewrite <- (js_sort_perm (later_first dateParse)), El; by left).
  destruct (Hs q Hq) as ((st & Hqst & Hqin) & _ & Hqv & Hqp). destruct (schema_status st Hqin) as [Hn _]. unfold normalizeDeploymentStatus in Hn.
  rewrite Hqst, Hn in Hqs. injection Hqs as ->. unfold validateRollbackSource. rewrite Hqst, Hqv, Hqp, Hqi, !bool_decide_true by done. reflexivity.
Qed.

Lemma canReplay_accepts source o : canReplay source o = Ok true -> exists v, positiveInteger (obj_get "snapshotVersion" source) = Some v
  /\ forall user key uuid, exists d,
       deploymentSuccessor (Some source) (mkOperation o (js_String (obj_get "serviceId" source)) (Some (js_String (obj_get "id" source))) user key v) uuid = Ok d.
Proof.
  unfold canReplay. destruct (positiveInteger _) as [v|]; [|done]. intros H. exists v. split; [done|]. intros user key uuid.
  destruct (deploymentSuccessor _ _ _) as [d|e] eqn:E; [|by destruct (bool_decide _)].
  apply deploymentSuccessor_Ok in E as (src & [= <-] & spec & st & from & H1 & H2 & H3 & H4 & H5 & H6 & H7 & _).
  eexists. apply deploymentSuccessor_Ok. exists source. split; [done|]. exists spec, st, from. by split_and!.
Qed.

Lemma replayable_rows_in rows found r : replayable_rows rows = Ok found -> r ∈ found -> r ∈ rows /\ canReplay r redeploy = Ok true.
Proof.
  revert found. induction rows as [|x rows IH]; cbn [replayable_rows]; intros found; [by intros [= <-] ?%not_elem_of_nil|].
  intros H Hr. apply bind_Ok in H as (keep & Hk & H). apply bind_Ok in H as (rest & Hrest & [= <-]).
  assert ((keep = true /\ r = x) \/ r ∈ rest) as [[-> ->]|Hin] by (destruct keep; [apply elem_of_cons in Hr as [?|?]|]; auto).
  - split; [by left|exact Hk].
  - destruct (IH rest Hrest Hin). split; [by right|done].
Qed.

Lemma place_all_rows rows placed : place_all rows = Ok placed -> placed.*2 = rows.
Proof.
  revert placed. induction rows as [|row rows IH]; cbn [place_all]; intros placed; [by intros [= <-]|]. intros H. apply bind_Ok in H as (p & Hp & H).
  apply bind_Ok in H as (ps & Hps & [= <-]). apply bind_Ok in Hp as (t & _ & [= <-]). rewrite fmap_cons. by rewrite (IH ps Hps).
Qed.

Lemma newest_row_in rows r : newest_row rows = Ok (Some r) -> r ∈ rows.
Proof.
  unfold newest_row. destruct rows as [|x [|y rows]]; [done|intros [= <-]; by left|]. intros H. apply bind_Ok in H as (placed & Hp & [= Hh]).
  apply place_all_rows in Hp. rewrite <- Hp. destruct (js_sort newest placed) as [|q l] eqn:E; [done|]. injection Hh as <-.
  apply (list_elem_of_fmap_2 snd). rewrite <- (js_sort_perm newest), E. by left.
Qed.

Lemma previousReady_others rows row p : previousReady rows row = Ok (Some p) -> exists others q, ready_others rows row = Ok others /\ q ∈ others.
Proof.
  unfold previousReady. intros H. apply bind_Ok in H as (others & Ho & H). apply bind_Ok in H as (placed & Hp & H). exists others.
  apply place_all_rows in Hp. destruct placed as [|q placed]; [done|]. exists (q.2). split; [done|]. rewrite <- Hp. by left.
Qed.

Lemma retryReason_none row rows : retryReason row rows true = Ok None -> other_active rows row = Ok false /\ canReplay row retry = Ok true.
Proof.
  unfold retryReason. cbn [negb]. intros H. apply bind_Ok in H as (st & _ & H). destruct (negb _); [done|]. apply bind_Ok in H as (active & Ha & H).
  destruct active; [done|]. apply bind_Ok in H as (replayable & Hr & H). by destruct replayable.
Qed.

(** The rows that a redeployment chooses from *)
Lemma eligible_rows_spec rows row : Forall (stored_beside row) rows -> exists found, eligible_rows rows = Ok found
  /\ forall r, r ∈ found <-> r ∈ rows /\ eligibleDeploymentSource r = Ok true.
Proof.
  induction 1 as [|r rows ((st & Hst & Hin) & _) _ (found & Hf & IH)]; [exists []; split; [done|]; intros r; split; [by intros ?%not_elem_of_nil|by intros [?%not_elem_of_nil _]]|].
  destruct (schema_status st Hin) as [Hn _]. cbn [eligible_rows]. assert (exists b, eligibleDeploymentSource r = Ok b) as [b Hb]
    by (unfold eligibleDeploymentSource; rewrite Hst, Hn; by eexists).
  rewrite Hb, Hf. cbn [mbind result_bind]. exists (if b then r :: found else found). split; [done|]. intros x. rewrite elem_of_cons. destruct b.
  - rewrite elem_of_cons, IH. split; [intros [->|[? ?]]; auto|]. intros [[->|?] ?]; auto.
  - rewrite IH. split; [intros [? ?]; auto|]. intros [[->|?] ?]; [congruence|auto].
Qed.

Lemma canReplay_redeploy source : canReplay source redeploy = Ok true ->
  positiveInteger (obj_get "snapshotVersion" source) = Some 1 /\ eligibleDeploymentSource source = Ok true.
Proof.
  unfold canReplay. destruct (positiveInteger _) as [v|]; [|done]. destruct (deploymentSuccessor _ _ _) as [d|e] eqn:E; [|by destruct (bool_decide _)].
  intros _. apply deploymentSuccessor_Ok in E as (src & [= <-] & spec & st & from & _ & H2 & H3 & _ & _ & H6 & _). cbn in H6. subst v. split; [done|].
  unfold eligibleDeploymentSource. rewrite H2. cbn [mbind result_bind mret result_ret]. f_equal. apply bool_decide_eq_true. exact H3.
Qed.

Lemma redeploy_chosen row rows source : Forall (stored_beside row) rows -> source ∈ rows -> canReplay source redeploy = Ok true ->
  let replays source v := forall user key uuid, exists d,
    deploymentSuccessor (Some source) (mkOperation redeploy (js_String (obj_get "serviceId" source)) (Some (js_String (obj_get "id" source))) user key v) uuid = Ok d in
  exists v, positiveInteger (obj_get "snapshotVersion" source) = Some v /\ (exists source, source ∈ rows /\ replays source v)
    /\ ((forall r, r ∈ rows -> eligibleDeploymentSource r = Ok true -> canReplay r redeploy = Ok true) ->
        exists found source, eligible_rows rows = Ok found /\ head (js_sort (newer_first localeCompare) found) = Some source /\ replays source v).
Proof.
  intros Hs Hin Hcan replays. destruct (canReplay_redeploy _ Hcan) as [Hv He]. exists 1. split; [done|].
  assert (forall r, canReplay r redeploy = Ok true -> replays r 1) as Hall.
  { intros r Hr. destruct (canReplay_accepts _ _ Hr) as (v & Hv' & Hd). destruct (canReplay_redeploy _ Hr) as [Hv1 _]. by simplify_eq. }
  split; [exists source; split; [done|by apply Hall]|]. intros Hold. destruct (eligible_rows_spec rows row Hs) as (found & Hf & Hspec). exists found.
  destruct (js_sort (newer_first localeCompare) found) as [|q l] eqn:El.
  { assert (source ∈ found) as Hsf by (by apply Hspec). rewrite <- (js_sort_perm (newer_first localeCompare)), El in Hsf. by apply not_elem_of_nil in Hsf. }
  exists q. split; [done|]. split; [done|]. assert (q ∈ found) as [Hq1 Hq2]%Hspec by (rewrite <- (js_sort_perm (newer_first localeCompare)), El; by left).
  by apply Hall, Hold.
Qed.

(** What makes an offered action one the operation accepts.  A redeployment
    takes the newest deployment with an eligible status, which need not be one
    that can be replayed. *)
Definition acceptable (row : jsobj) (rows : list jsobj) (a : HistoryAction) : Prop :=
  let idle := forall r, r ∈ rows -> obj_get "id" r <> obj_get "id" row -> terminal_row r = true in
  let replays source o v := forall user key uuid, exists d,
    deploymentSuccessor (Some source) (mkOperation o (js_String (obj_get "serviceId" source)) (Some (js_String (obj_get "id" source))) user key v) uuid = Ok d in
  match ha_type a with
  | act_cancel => canCancelDeployment (obj_get "status" row) = Ok true
  | act_retry => idle /\ exists v, ha_snapshotVersion a = Some v /\ replays row retry v
  | act_rollback => idle /\ exists previous, latestReadyDeploymentForService dateParse rows row = Ok (Some previous) /\ validateRollbackSource row (Some previous) "" = Ok previous
  | act_redeploy =>
      idle /\ exists v, ha_snapshotVersion a = Some v /\ (exists source, source ∈ rows /\ replays source redeploy v)
      /\ ((forall r, r ∈ rows -> eligibleDeploymentSource r = Ok true -> canReplay r redeploy = Ok true) ->
          exists found source, eligible_rows rows = Ok found /\ head (js_sort (newer_first localeCompare) found) = Some source /\ replays source redeploy v)
  end.

(** C24. What an offer of the history guarantees: a cancellation is offered for
    a deployment whose status can be cancelled; a retry, with the snapshot version
    of the deployment, when the operation accepts it as a source for whoever
    asks; a rollback when the operation finds a source for it; a redeployment
    when some deployment of the service can be replayed with the snapshot version
    offered, and if all those with an eligible status can, then so can the one
    the operation takes (see [redeploy_offer_refused] for the other case); and a
    retry, a redeployment or a rollback only when no other deployment of the
    service is active. *)
Theorem offered_actions_accepted row rows a :
  eligibleHistoryAction row rows true (positiveInteger (obj_get "snapshotVersion" row)) = Ok (Some a) -> Forall (stored_beside row) (row :: rows) ->
  acceptable row rows a.
Proof.
  intros H Hs. pose proof Hs as [((st & Hst & Hin) & _) Hrows]%Forall_cons. destruct (schema_status st Hin) as [Hn _].
  unfold eligibleHistoryAction in H. cbn [negb] in H. rewrite Hst, Hn in H. cbn [mbind result_bind] in H. apply bind_Ok in H as (cancellable & Hc & H).
  destruct cancellable; [injection H as <-; unfold acceptable; cbn [ha_type]; by rewrite Hst|]. apply bind_Ok in H as (reason & Hreason & H). destruct reason as [text|].
  - apply bind_Ok in H as (active & Ha & H). destruct active; [done|]. pose proof (other_active_false rows row Hrows Ha) as Hidle.
    apply bind_Ok in H as (previous & Hp & H). destruct previous as [p|].
    + injection H as <-. split; [exact Hidle|]. destruct (bool_decide (st = _)); [|discriminate Hp]. destruct (previousReady_others _ _ _ Hp) as (others & q & Ho & Hq).
      by eapply rollback_source_found.
    + apply bind_Ok in H as (sources & Hsources & H). apply bind_Ok in H as (source & Hsource & H). destruct source as [source|]; [|done].
      destruct (bool_decide (st ∈ REDEPLOY_STATUSES)); [|discriminate H]. injection H as <-. split; [exact Hidle|]. apply newest_row_in in Hsource.
      destruct (replayable_rows_in _ _ _ Hsources Hsource) as [Hr Hcan]. by apply (redeploy_chosen row).
  - injection H as <-. destruct (bool_decide (st ∈ RETRY_STATUSES)); [|discriminate Hreason]. apply retryReason_none in Hreason as [Ha Hcan]. split; [by apply other_active_false|].
    by apply canReplay_accepts.
Qed.

End History.

(** ** Application *)

(** Stand-ins for dates, JSON and signatures *)
Definition history_instants : list Z := [1000; 2000; 3000; 4000].
Definition history_dates (s : string) : option Z := js_find (fun t => toISOString t = s) history_instants.
Definition plain_json (v : jsval) : string :=
  match v with JObj fs => foldr (fun kv text => kv.1 +:+ ":" +:+ js_String kv.2 +:+ ";" +:+ text) "" fs | _ => js_String v end.
Definition plain_hmac (key text : string) : string := key +:+ text.

Definition history_scope : DeploymentHistoryScope := mkHistoryScope "org" "p" "secret".
Definition history_query : DeploymentHistoryQuery := mkHistoryQuery None None None None None None 2 None.

Definition club_deployment (id status : string) (at_ : Z) : jsobj :=
  [("id", JStr id); ("serviceId", JStr "svc_1"); ("projectId", JStr "p"); ("status", JStr status); ("createdAt", timestamp at_); ("updatedAt", timestamp at_);
   ("imageUrl", JStr "registry/web:1")].
Definition replayable (row : jsobj) : jsobj :=
  spread row [("snapshotVersion", JNum (NInt 1)); ("desiredSpecSnapshot", JObj [("repoUrl", JStr "https://github.com/team/app")]);
              ("commitSha", JStr "0123456789abcdef0123456789abcdef01234567")].

Definition club_history : list jsobj :=
  [club_deployment "dep_a" "READY" 1000; club_deployment "dep_b" "CANCELLED" 2000; replayable (club_deployment "dep_c" "FAILED" 3000)].
Definition club_placed : list (string * string * jsobj) := map (fun row => ((js_String (obj_get "createdAt" row), js_String (obj_get "id" row)), row)) club_history.

Definition club_key : string := match cursorKey "secret" with Ok key => key | Throw _ => "" end.
Definition club_cursor (p : string * string) : jsval := signed_cursor plain_json id id plain_hmac club_key p history_scope history_query.
Definition plain_parse (s : string) : option jsval := js_find (fun v => plain_json v = s) (map (fun p => club_cursor p.1) club_placed).

Notation club_decode := (decodeDeploymentHistoryCursor history_dates plain_json plain_parse id id id plain_hmac).
Notation club_walk := (history_walk history_dates String.compare plain_json plain_parse id id id plain_hmac club_history [] None history_query history_scope true).

Lemma club_reads_back p : p ∈ club_placed ->
  reads_back plain_json plain_parse id id id plain_hmac club_key p.1 history_scope history_query /\ history_timestamp history_dates (JStr p.1.1) = Ok p.1.1.
Proof.
  intros H. assert (Forall (fun p => reads_back plain_json plain_parse id id id plain_hmac club_key p.1 history_scope history_query
    /\ history_timestamp history_dates (JStr p.1.1) = Ok p.1.1) club_placed) as Hall by (repeat constructor; vm_compute; reflexivity).
  rewrite Forall_forall in Hall. by apply Hall.
Qed.

Definition club_position : string * string := (toISOString 2000, "dep_b").
Definition club_text : string := match encodeDeploymentHistoryCursor plain_json id id plain_hmac club_position history_scope history_query with Ok t => t | Throw _ => "" end.
Definition other_scope : DeploymentHistoryScope := mkHistoryScope "org" "q" "secret".

Lemma history_cursor_round_trip_witness : club_decode club_text history_scope history_query = Ok club_position
  /\ club_decode club_text other_scope history_query = Throw DeploymentHistoryError.
Proof.
  destruct (history_cursor_round_trip history_dates plain_json plain_parse id id id plain_hmac club_position history_scope history_query club_text other_scope history_query)
    as [H1 H2]; [vm_compute; reflexivity|reflexivity| |vm_compute; reflexivity|].
  - intros key [= <-]. apply (club_reads_back (club_position, club_deployment "dep_b" "CANCELLED" 2000)).
    apply list_elem_of_In. right; left. vm_compute. reflexivity.
  - split; [exact H1|]. apply H2. right; left. discriminate.
Defined.

Lemma history_cursor_authentic_witness : exists fs key, plain_parse club_text = Some (JObj fs) /\ cursorKey "secret" = Ok key
  /\ obj_get "p" fs = JStr "p" /\ obj_get "id" fs = JStr "dep_b".
Proof.
  destruct (history_cursor_authentic history_dates plain_json plain_parse id id id plain_hmac club_text history_scope history_query club_position)
    as (fs & key & H1 & H2 & _ & H3 & _ & H4 & _); [vm_compute; reflexivity|]. exists fs, key. split; [exact H1|]. split; [exact H2|]. split; [exact H3|exact H4].
Defined.

Lemma history_complete_witness : exists listed, listed ≡ₚ club_placed /\ club_walk 4%nat None = history_rows history_dates String.compare listed [] club_history true.
Proof.
  destruct (history_complete history_dates String.compare plain_json plain_parse id id id plain_hmac club_history [] None history_query history_scope true club_key club_placed)
    as (listed & H1 & _ & H2); [vm_compute; reflexivity|apply (bool_decide_unpack _); vm_compute; exact I|split; reflexivity|reflexivity|apply club_reads_back|cbn; lia|].
  exists listed. split; [exact H1|exact H2].
Defined.

Lemma offered_actions_accepted_witness : exists d,
  deploymentSuccessor (Some (replayable (club_deployment "dep_c" "FAILED" 3000))) (mkOperation retry "svc_1" (Some "dep_c") "usr_1" "k" 1) "u1" = Ok d.
Proof.
  destruct (offered_actions_accepted history_dates String.compare (replayable (club_deployment "dep_c" "FAILED" 3000)) club_history
    (mkAction act_retry "dep_c" "/deployments/dep_c/retry" (Some 1))) as (_ & v & Hv & Hd); [vm_compute; reflexivity| |].
  - repeat constructor; (eexists; split; [reflexivity|apply (bool_decide_unpack _); vm_compute; exact I]) || (eexists; reflexivity).
  - injection Hv as <-. exact (Hd "usr_1" "k" "u1").
Defined.

(** ** Where an offer does not hold *)

(** The newest eligible deployment has no snapshot, an older one has: the
    history offers a redeployment for the older one, and the request for it
    takes the newest and is refused. *)
Definition mixed_history : list (string * jsobj) :=
  [("dep_a", replayable (club_deployment "dep_a" "BUILD_FAILED" 1000)); ("dep_b", club_deployment "dep_b" "FAILED" 2000); ("dep_c", club_deployment "dep_c" "CANCELLED" 3000)].
Definition mixed_plane : ControlPlane :=
  empty_control_plane <| projects := [("p", [("id", JStr "p"); ("organizationId", JStr "org")])] |>
    <| services := [("svc_1", [("id", JStr "svc_1"); ("projectId", JStr "p")])] |> <| deployments := mixed_history |>.

Example redeploy_offer_refused :
  eligibleHistoryAction history_dates String.compare (club_deployment "dep_c" "CANCELLED" 3000) (map_values mixed_history) true None
    = Ok (Some (mkAction act_redeploy "svc_1" "/services/svc_1/redeploy" (Some 1)))
  /\ (createDeploymentOperation history_dates (fun _ => "") String.compare [] (mkOperation redeploy "svc_1" None "usr_1" "k" 1) "u1" 4000 mixed_plane).1
    = Throw (DeploymentOperationError "SNAPSHOT_UNAVAILABLE" 409).
Proof. split; vm_compute; reflexivity. Qed.

(** The rollback of a deployment with a ready one before it and one after it
    takes the image of the one after it. *)
Definition image_of (r : result RollbackResult) : jsval := match r with Ok r => obj_get "imageUrl" (rb_deployment r) | Throw _ => JUndef end.
Definition released_row (id image : string) (at_ : Z) : jsobj := spread (club_deployment id "READY" at_) [("imageUrl", JStr image)].
Definition three_releases : list (string * jsobj) :=
  [("dep_a", released_row "dep_a" "registry/web:1" 1000); ("dep_b", released_row "dep_b" "registry/web:2" 2000); ("dep_c", released_row "dep_c" "registry/web:3" 3000)].

Example rollback_goes_forward :
  (fun p => default JUndef (obj_get "imageUrl" <$> p)) <$> match previousReady history_dates String.compare (map_values three_releases) (released_row "dep_b" "registry/web:2" 2000) with Ok p => Some p | _ => None end
    = Some (JStr "registry/web:1")
  /\ eligibleHistoryAction history_dates String.compare (released_row "dep_b" "registry/web:2" 2000) (map_values three_releases) true None
    = Ok (Some (mkAction act_rollback "dep_b" "/deployments/dep_b/rollback" None))
  /\ image_of (rollbackDeployment history_dates "dep_b" "" "" 4000 (mixed_plane <| deployments := three_releases |>)).1 = JStr "registry/web:3".
Proof. split_and!; vm_compute; reflexivity. Qed.

Close Scope Z_scope.
