(* ===== verification/Catalog.v ===== *)
(** * The catalog of managed resources ([packages/core/src/catalog.ts],
    [resource-capabilities.ts], [resource-capabilities-v1.json])

    Which engines tenants can ask for, under which names, what the platform can
    do with each in which environment, and the variables a service attached to
    one gets.  The Korean texts of the capability contract occur only in
    messages and are left out. *)

From S2P Require Import Prelude JsString JsMap JsVal Ids Workflows ControlPlane.

Open Scope Z_scope.

(** ** Capabilities *)

Record Capability := mkCapability {
  cap_engine : string; cap_aliases : list string; cap_runtime : string; cap_imageKey : option string; cap_reasonCode : string;
  cap_local : list (string * bool); cap_release : list (string * bool); cap_planOnly : list (string * bool)
}.

Definition operations (provision authenticatedHealth attach query schema backup restore : bool) : list (string * bool) :=
  [("provision", provision); ("authenticatedHealth", authenticatedHealth); ("attach", attach); ("query", query); ("schema", schema);
   ("backup", backup); ("restore", restore)].

Definition plans (query schema backup restore : bool) : list (string * bool) :=
  [("query", query); ("schema", schema); ("backup", backup); ("restore", restore)].

Definition RESOURCE_CAPABILITIES : list Capability :=
  [mkCapability "postgresql" ["postgres"; "pg"] "dedicated-local" (Some "postgresql") "LOCAL_ONLY"
     (operations true true true true true false false) (operations false false false false false false false)
     (plans false false true true);
   mkCapability "mysql" [] "dedicated-local" (Some "mysql") "LOCAL_ONLY"
     (operations true true true false false false false) (operations false false false false false false false)
     (plans true true true true);
   mkCapability "mariadb" [] "dedicated-local" (Some "mariadb") "LOCAL_ONLY"
     (operations true true true false false false false) (operations false false false false false false false)
     (plans true true true true);
   mkCapability "mongodb" ["mongo"] "dedicated-local" (Some "mongodb") "LOCAL_ONLY"
     (operations true true true false false false false) (operations false false false false false false false)
     (plans true true true true);
   mkCapability "sqlite" ["sqlite3"] "sqlite-local" None "LOCAL_ONLY"
     (operations true false false true true false false) (operations false false false false false false false)
     (plans false false true true);
   mkCapability "redis" [] "dedicated-local" (Some "redis") "LOCAL_ONLY"
     (operations true true true false false false false) (operations false false false false false false false)
     (plans true true true true);
   mkCapability "valkey" [] "dedicated-local" (Some "valkey") "LOCAL_ONLY"
     (operations true true true false false false false) (operations false false false false false false false)
     (plans true true true true);
   mkCapability "object-storage" ["s3"; "minio"; "object"; "storage"] "unavailable" None "ENGINE_NOT_IMPLEMENTED"
     (operations false false false false false false false) (operations false false false false false false false)
     (plans false false false false);
   mkCapability "vector-db" ["vector"; "weaviate"; "milvus"] "unavailable" None "ENGINE_NOT_IMPLEMENTED"
     (operations false false false false false false false) (operations false false false false false false false)
     (plans false false false false);
   mkCapability "qdrant" [] "unavailable" None "ENGINE_NOT_IMPLEMENTED"
     (operations false false false false false false false) (operations false false false false false false false)
     (plans false false false false);
   mkCapability "nats" [] "unavailable" None "ENGINE_NOT_IMPLEMENTED"
     (operations false false false false false false false) (operations false false false false false false false)
     (plans false false false false);
   mkCapability "message-queue" ["queue"; "kafka"; "redpanda"; "rabbitmq"] "unavailable" None "ENGINE_NOT_IMPLEMENTED"
     (operations false false false false false false false) (operations false false false false false false false)
     (plans false false false false)].

(** [value.replaceAll('_', '-')] *)
Definition dashed (s : string) : string := unchars (map (fun c => if (code c =? 95)%N then "-"%char else c) (chars s)).

Definition has_name (normalized : string) (entry : Capability) : Prop := cap_engine entry = normalized \/ normalized ∈ cap_aliases entry.
#[export] Instance has_name_dec normalized entry : Decision (has_name normalized entry).
Proof. unfold has_name. apply _. Defined.

Definition resourceCapability (engine : string) : option Capability :=
  js_find (has_name (dashed (toLowerCase (trim engine)))) RESOURCE_CAPABILITIES.

Inductive ResourceEnvironment := env_local | env_release.

Definition capability_in (environment : ResourceEnvironment) (c : Capability) : list (string * bool) :=
  match environment with env_local => cap_local c | env_release => cap_release c end.

Definition capability_unavailable (engine : string) : jserror :=
  let reasonCode := match resourceCapability engine with Some c => cap_reasonCode c | None => "ENGINE_NOT_IMPLEMENTED" end in
  JsError "ResourceCapabilityUnavailable" ("RESOURCE_CAPABILITY_UNAVAILABLE: " +:+ reasonCode) (Some 400).

Definition requireResourceCapability (engine operation : string) (environment : ResourceEnvironment) : result Capability :=
  match resourceCapability engine with
  | Some c => match map_get operation (capability_in environment c) with
              | Some true => Ok c
              | _ => Throw (capability_unavailable engine)
              end
  | None => Throw (capability_unavailable engine)
  end.

(** [Object.entries(operations).filter(([, enabled]) => enabled).map(([operation]) => operation)] *)
Definition enabled_operations (l : list (string * bool)) : list string := (filter (fun kv => kv.2 = true) l).*1.

(** ** The catalog *)

Definition metadata (type_ engine displayName defaultVersion : string) (priority : Z) (operator : string) (env features : list string) : jsobj :=
  [("type", JStr type_); ("engine", JStr engine); ("displayName", JStr displayName); ("defaultVersion", JStr defaultVersion);
   ("priority", JNum (NInt priority)); ("operator", JStr operator); ("env", JArr (map JStr env)); ("features", JArr (map JStr features))].

Definition RESOURCE_METADATA : jsmap jsobj :=
  [("postgresql", metadata "database" "postgresql" "PostgreSQL" "16" 1
      "CloudNativePG"
      ["DATABASE_URL"; "POSTGRES_URL"; "PGHOST"; "PGPORT"; "PGDATABASE"; "PGUSER"; "PGPASSWORD"]
      ["shared-provider"; "sql-editor"; "table-browser"; "extensions"; "backup-restore"; "pitr"; "read-replica"; "pooling"; "per-role-limits"]);
   ("mysql", metadata "database" "mysql" "MySQL" "8" 1
      "Percona Operator for MySQL"
      ["MYSQL_URL"; "MYSQL_HOST"; "MYSQL_PORT"; "MYSQL_DATABASE"; "MYSQL_USER"; "MYSQL_PASSWORD"]
      ["shared-provider"; "sql-editor"; "table-browser"; "indexes"; "slow-query-logs"; "backup-restore"]);
   ("mariadb", metadata "database" "mariadb" "MariaDB" "11" 2
      "MariaDB Operator or Percona-compatible profile"
      ["MARIADB_URL"; "MYSQL_URL"; "MYSQL_HOST"; "MYSQL_PORT"; "MYSQL_DATABASE"; "MYSQL_USER"; "MYSQL_PASSWORD"]
      ["shared-provider"; "sql-editor"; "table-browser"; "backup-restore"]);
   ("mongodb", metadata "database" "mongodb" "MongoDB" "7" 2
      "MongoDB Kubernetes Operator / Atlas Operator"
      ["MONGODB_URI"; "MONGO_URL"; "MONGO_HOST"; "MONGO_DATABASE"; "MONGO_USER"; "MONGO_PASSWORD"]
      ["shared-provider"; "collection-browser"; "document-editor"; "index-management"; "backup-restore"]);
   ("sqlite", metadata "database" "sqlite" "SQLite" "3" 3
      "PVC-backed file database provider"
      ["DATABASE_URL"; "SQLITE_PATH"]
      ["sql-editor"; "table-browser"; "pvc-mount"; "single-writer-warning"]);
   ("redis", metadata "cache" "redis" "Redis" "7" 1
      "Redis Operator / Redis Enterprise Operator / Upstash adapter"
      ["REDIS_URL"; "REDIS_HOST"; "REDIS_PORT"; "REDIS_USERNAME"; "REDIS_PASSWORD"; "REDIS_KEY_PREFIX"]
      ["shared-provider"; "acl-key-prefix"; "key-browser"; "ttl"; "memory-usage"; "eviction-policy"; "pubsub-monitoring"]);
   ("valkey", metadata "cache" "valkey" "Valkey" "8" 1
      "Valkey/Redis-compatible provider adapter"
      ["REDIS_URL"; "VALKEY_URL"; "REDIS_HOST"; "REDIS_PORT"; "REDIS_USERNAME"; "REDIS_PASSWORD"; "REDIS_KEY_PREFIX"; "VALKEY_KEY_PREFIX"]
      ["shared-provider"; "acl-key-prefix"; "key-browser"; "ttl"; "memory-usage"; "pubsub-monitoring"]);
   ("object-storage", metadata "storage" "s3-compatible" "Object Storage" "s3" 1
      "MinIO / S3-compatible provider adapter"
      ["S3_ENDPOINT"; "S3_BUCKET"; "S3_REGION"; "S3_ACCESS_KEY"; "S3_SECRET_KEY"]
      ["bucket-management"; "presigned-url"; "cors"; "public-private-policy"; "cdn-ready"]);
   ("vector-db", metadata "vector" "qdrant-compatible" "Vector Database" "latest" 3
      "Qdrant/Weaviate/Milvus provider adapter"
      ["VECTOR_DB_URL"; "VECTOR_DB_API_KEY"; "VECTOR_DB_COLLECTION"]
      ["collection-management"; "embedding-dimensions"; "similarity-search-test"; "usage-monitoring"]);
   ("qdrant", metadata "vector" "qdrant" "Qdrant" "latest" 2
      "Qdrant local/provider adapter"
      ["VECTOR_DB_URL"; "VECTOR_DB_API_KEY"; "VECTOR_DB_COLLECTION"]
      ["collection-management"; "similarity-search-test"; "usage-monitoring"]);
   ("nats", metadata "queue" "nats" "NATS" "latest" 2
      "NATS local/provider adapter"
      ["QUEUE_URL"; "QUEUE_USERNAME"; "QUEUE_PASSWORD"; "QUEUE_TOPIC"]
      ["subjects"; "jetstream-connection-info"; "usage-monitoring"]);
   ("message-queue", metadata "queue" "nats-compatible" "Message Queue" "latest" 4
      "NATS/Kafka/Redpanda/RabbitMQ provider adapter"
      ["QUEUE_URL"; "QUEUE_USERNAME"; "QUEUE_PASSWORD"; "QUEUE_TOPIC"]
      ["topic-management"; "consumer-lag"; "dead-letter-queue"; "usage-monitoring"])].

Definition flags_json (l : list (string * bool)) : jsval := JObj (map (fun kv => (kv.1, JBool kv.2)) l).

Definition capability_json (c : Capability) : jsval :=
  JObj [("engine", JStr (cap_engine c)); ("aliases", JArr (map JStr (cap_aliases c))); ("runtime", JStr (cap_runtime c));
        ("imageKey", match cap_imageKey c with Some k => JStr k | None => JNull end); ("reasonCode", JStr (cap_reasonCode c));
        ("local", flags_json (cap_local c)); ("release", flags_json (cap_release c)); ("planOnly", flags_json (cap_planOnly c))].

Definition capability_value (c : option Capability) : jsval := match c with Some c => capability_json c | None => JUndef end.

(** Operator and features of an entry come from its capabilities. *)
Definition catalog_row (key : string) (row : jsobj) : jsobj :=
  let capabilities := resourceCapability key in
  spread row [("capabilities", capability_value capabilities);
              ("operator", match capabilities with Some c => JStr (cap_runtime c) | None => JUndef end);
              ("features", JArr (map JStr (enabled_operations (match capabilities with Some c => cap_local c | None => [] end))))].

Definition RESOURCE_CATALOG : jsmap jsobj := map (fun kv => (kv.1, catalog_row kv.1 kv.2)) RESOURCE_METADATA.

Definition listCatalog : list jsobj :=
  map (fun kv => spread [("key", JStr kv.1)] (spread kv.2 [("capabilities", capability_value (resourceCapability kv.1))])) RESOURCE_CATALOG.

Definition ENGINE_ALIASES : list (list string * string) :=
  [(["postgres"; "postgresql"; "pg"], "postgresql"); (["mysql"], "mysql"); (["mariadb"], "mariadb"); (["mongo"; "mongodb"], "mongodb");
   (["redis"], "redis"); (["valkey"], "valkey"); (["sqlite"; "sqlite3"], "sqlite");
   (["s3"; "minio"; "object"; "object-storage"; "storage"], "object-storage"); (["qdrant"], "qdrant");
   (["vector"; "vector-db"; "weaviate"; "milvus"], "vector-db"); (["nats"], "nats");
   (["queue"; "message-queue"; "kafka"; "redpanda"; "rabbitmq"], "message-queue")].

Definition normalizeResourceEngine (engine : jsval) : string :=
  let value := dashed (toLowerCase (js_String (js_or engine (JStr "")))) in
  match js_find (fun row => value ∈ row.1) ENGINE_ALIASES with Some row => row.2 | None => value end.

(** The catalog is a plain object: the one inherited property whose name has
    only small letters is found too. *)
Definition catalog_lookup (key : string) : option jsobj :=
  match map_get key RESOURCE_CATALOG with
  | Some entry => Some entry
  | None => if bool_decide (key = "constructor") then Some [] else None
  end.

Definition getCatalogEntry (engine : jsval) : result jsobj :=
  let key := normalizeResourceEngine engine in
  match catalog_lookup key with
  | None => Throw (JsError "Error" ("unsupported resource engine: " +:+ js_String engine) None)
  | Some entry => Ok (spread (spread [("key", JStr key)] entry) [("capabilities", capability_value (resourceCapability key))])
  end.

(** The normalized names are the keys of the catalog, and stay as they are. *)
Lemma normalize_engine_known engine : normalizeResourceEngine engine ∈ map_keys RESOURCE_CATALOG \/
  normalizeResourceEngine engine = dashed (toLowerCase (js_String (js_or engine (JStr "")))).
Proof.
  unfold normalizeResourceEngine. destruct (js_find _ _) as [row|] eqn:E; [left|by right].
  apply js_find_elem in E as [Hin _]. revert row Hin. apply Forall_forall. apply (bool_decide_unpack _). vm_compute. exact I.
Qed.

Lemma catalog_keys_fixed : Forall (fun key => normalizeResourceEngine (JStr key) = key) (map_keys RESOURCE_CATALOG).
Proof. apply (bool_decide_unpack _). vm_compute. exact I. Qed.

Close Scope Z_scope.
