(* ===== verification/EnvInjection.v ===== *)
(** * Connection variables of resources ([packages/core/src/env-injection.ts])

    What a service attached to a managed resource gets in its environment:
    hosts, names and credentials from the resource itself or, where they are
    not known yet, names derived from the project and placeholders.  The host
    of the PostgreSQL pooler is an environment variable of the platform and a
    parameter here. *)

From Stdlib Require Import QArith Qround.
From S2P Require Import Prelude JsString JsMap JsVal Ids Workflows ControlPlane Catalog.
From stdpp Require Import pretty.

Open Scope Z_scope.

(** [value.replace(/-/g, '_')] *)
Definition underscored (s : string) : string := unchars (map (fun c => if is_hyphen c then "_"%char else c) (chars s)).

(** The first value that is not falsy, or the last. *)
Definition first_of (values : list jsval) (last_ : jsval) : jsval := foldr js_or last_ values.

Section Connections.
(** [process.env.RAIBITSERVER_POSTGRES_POOLER_HOST], empty when not set. *)
Context (poolerHost : string).

Definition defaultSharedProviderHost (engine : string) (projectSlug : jsval) : string :=
  let project := slugify_default (js_or projectSlug (JStr "project")) in
  if bool_decide (engine = "postgresql") then str_or poolerHost "pgbouncer.shared-providers.svc.cluster.local"
  else if bool_decide (engine = "mysql") || bool_decide (engine = "mariadb") then "mysql.shared-providers.svc.cluster.local"
  else if bool_decide (engine = "mongodb") then "mongodb.shared-providers.svc.cluster.local"
  else if bool_decide (engine = "redis") then "redis.shared-providers.svc.cluster.local"
  else if bool_decide (engine = "valkey") then "valkey.shared-providers.svc.cluster.local"
  else slugify_default (JStr (str_or engine "resource")) +:+ "." +:+ project +:+ ".svc.cluster.local".

(** [resource.engine || resource.type] *)
Definition engine_of (resource : jsobj) : string := normalizeResourceEngine (js_or (obj_get "engine" resource) (obj_get "type" resource)).

Definition hostFor (resource : jsobj) (projectSlug : jsval) : jsval :=
  let f := fun k => obj_get k resource in
  first_of [f "poolerHost"; f "providerHost"; f "sharedHost"; f "internalHost"; f "host"]
    (JStr (defaultSharedProviderHost (engine_of resource) (js_or projectSlug (f "projectSlug")))).

Definition uniqueTenantScope (resource : jsobj) (projectSlug : jsval) : jsval :=
  let f := fun k => obj_get k resource in
  let explicit := first_of [projectSlug; f "projectSlug"] (f "project") in
  if truthy explicit then explicit
  else
    let present := fun v => match v with JUndef | JNull => false | _ => negb (str_empty (js_String v)) end in
    match List.filter present [f "organizationId"; f "projectId"; f "id"] with
    | [] => JStr "project"
    | parts => JStr (slice0 48 (JsVal.join "-" (map slugify_default parts)))
    end.

Definition sharedTenantName (resource : jsobj) (suffix : string) (projectSlug : jsval) : string :=
  let project := underscored (slugify_default (uniqueTenantScope resource projectSlug)) in
  let name := underscored (slugify_default (first_of [obj_get "name" resource; obj_get "engine" resource] (JStr suffix))) in
  slice0 63 (project +:+ "_" +:+ name +:+ "_" +:+ suffix).

Definition userFor (resource : jsobj) (projectSlug : jsval) : jsval :=
  js_or (obj_get "username" resource) (JStr (sharedTenantName resource "app" projectSlug)).

Definition databaseFor (resource : jsobj) (projectSlug : jsval) : jsval :=
  js_or (obj_get "databaseName" resource) (JStr (underscored (sharedTenantName resource "db" projectSlug))).

Definition deterministicProviderPlaceholder (resource : jsobj) (projectSlug : jsval) (engine suffix : string) : string :=
  let f := fun k => obj_get k resource in
  let project := slugify_default (first_of [projectSlug; f "projectSlug"; f "project"] (JStr "project")) in
  let name := slugify_default (first_of [f "name"; f "slug"; JStr engine] (JStr "resource")) in
  let suffixPart := if str_empty suffix then "" else "-" +:+ slugify_default (JStr suffix) in
  slice0 96 ("provider-managed-" +:+ project +:+ "-" +:+ name +:+ suffixPart).

Definition passwordFor (resource : jsobj) (projectSlug : jsval) (engine : string) : jsval :=
  let f := fun k => obj_get k resource in
  first_of [f "password"; f "generatedPassword"; field "password" (f "desiredSpec"); field "password" (f "desiredState")]
    (JStr (deterministicProviderPlaceholder resource projectSlug engine "")).

(** [[^a-zA-Z0-9:_-]] *)
Definition prefix_char (c : ascii) : bool := is_alnum c || (code c =? 58)%N || (code c =? 95)%N || is_hyphen c.

Definition redisKeyPrefixFor (resource : jsobj) (projectSlug : jsval) : string :=
  let fallback := slugify_default (uniqueTenantScope resource projectSlug) +:+ ":"
                  +:+ slugify_default (js_or (obj_get "name" resource) (JStr "cache")) +:+ ":" in
  let given := js_String (js_or (obj_get "keyPrefix" resource) (JStr fallback)) in
  let raw := str_or (slice0 128 (unchars (map (fun c => if prefix_char c then c else "_"%char) (chars given)))) fallback in
  if endsWith raw ":" then raw else raw +:+ ":".

(** ** Connection limits *)

Definition clampConnectionLimit (value : jsval) : option Z :=
  match to_number value with
  | NInt z => if z <=? 0 then None else Some (Z.min (Z.max z 1) 50)
  | NFrac _ q => if Qle_bool q 0 then None else Some (Z.min (Z.max (Qfloor q) 1) 50)
  | NNaN | NInf _ => None
  end.

Definition connectionLimitForResource (resource : jsobj) : option Z :=
  let f := fun k => obj_get k resource in
  let explicit := js_nullish (f "connectionLimit") (js_nullish (f "maxConnections")
                    (js_nullish (field "connectionLimit" (f "desiredState")) (field "connectionLimit" (f "desiredSpec")))) in
  match explicit with
  | JUndef | JNull | JStr "" =>
      let plan := toLowerCase (js_String (first_of [f "plan"; f "tier"; field "plan" (f "desiredState"); field "plan" (f "desiredSpec")] (JStr ""))) in
      if bool_decide (plan = "shared-small") || bool_decide (plan = "shared") || startsWith plan "shared-" then Some 3 else None
  | _ => clampConnectionLimit explicit
  end.

Definition appendConnectionLimit (url : string) (limit : option Z) : string :=
  match limit with
  | None => url
  | Some n => url +:+ (if infixb (chars "?") (chars url) then "&" else "?") +:+ "connection_limit=" +:+ pretty n
  end.

Definition limit_variable (key : string) (limit : option Z) : jsobj := match limit with Some n => [(key, JStr (pretty n))] | None => [] end.

Definition defaultPort (engine : string) : Z :=
  match map_get engine [("postgresql", 5432); ("mysql", 3306); ("mariadb", 3306); ("mongodb", 27017); ("redis", 6379); ("valkey", 6379);
                        ("sqlite", 0); ("object-storage", 9000); ("vector-db", 6333); ("qdrant", 6333); ("message-queue", 4222); ("nats", 4222)] with
  | Some port => port
  | None => 0
  end.

(** ** The variables *)

(** [`${protocol}://${username}:${password}@${host}:${port}`] *)
Definition credential_url (protocol : string) (username password host port : jsval) : string :=
  protocol +:+ "://" +:+ js_String username +:+ ":" +:+ js_String password +:+ "@" +:+ js_String host +:+ ":" +:+ js_String port.

(** What the variables are made of. *)
Record Connection := mkConnection {
  cn_host : jsval; cn_port : jsval; cn_username : jsval; cn_password : jsval; cn_database : jsval; cn_bucket : jsval; cn_limit : option Z;
  cn_prefix : string; cn_placeholder : string -> string
}.

(** The environment of each key of the catalog, in the order of assignment;
    [f] reads the properties of the resource. *)
Definition engine_env (key : string) (f : string -> jsval) (c : Connection) : option jsobj :=
  let '(mkConnection host port username password database bucket connectionLimit keyPrefix placeholder) := c in
  let port_text := JStr (js_String port) in
  if bool_decide (key = "postgresql") then
    let url := JStr (appendConnectionLimit (credential_url "postgresql" username password host port +:+ "/" +:+ js_String database) connectionLimit) in
    Some ([("DATABASE_URL", url); ("POSTGRES_URL", url); ("PGHOST", host); ("PGPORT", port_text); ("PGDATABASE", database);
           ("PGUSER", username); ("PGPASSWORD", password)] ++ limit_variable "PG_CONNECTION_LIMIT" connectionLimit)
  else if bool_decide (key = "mysql") || bool_decide (key = "mariadb") then
    let url := JStr (appendConnectionLimit (credential_url "mysql" username password host port +:+ "/" +:+ js_String database) connectionLimit) in
    Some ([("MYSQL_URL", url); ("MYSQL_HOST", host); ("MYSQL_PORT", port_text); ("MYSQL_DATABASE", database); ("MYSQL_USER", username);
           ("MYSQL_PASSWORD", password)] ++ limit_variable "MYSQL_CONNECTION_LIMIT" connectionLimit
          ++ (if bool_decide (key = "mariadb") then [("MARIADB_URL", url)] else []))
  else if bool_decide (key = "mongodb") then
    let url := JStr (credential_url "mongodb" username password host port +:+ "/" +:+ js_String database) in
    Some [("MONGODB_URI", url); ("MONGO_URL", url); ("MONGO_HOST", host); ("MONGO_DATABASE", database); ("MONGO_USER", username);
          ("MONGO_PASSWORD", password)]
  else if bool_decide (key = "sqlite") then
    let path := js_or (f "sqlitePath") (JStr ("/data/" +:+ slugify_default (js_or (f "name") (JStr "app")) +:+ ".db")) in
    Some [("SQLITE_PATH", path); ("DATABASE_URL", JStr ("sqlite:" +:+ js_String path))]
  else if bool_decide (key = "redis") || bool_decide (key = "valkey") then
    let url := JStr (credential_url (if truthy (f "tls") then "rediss" else "redis") username password host port) in
    let prefix := JStr keyPrefix in
    Some ([("REDIS_USERNAME", username); ("REDIS_URL", url)] ++ (if bool_decide (key = "valkey") then [("VALKEY_URL", url)] else [])
          ++ [("REDIS_HOST", host); ("REDIS_PORT", port_text); ("REDIS_PASSWORD", password); ("REDIS_KEY_PREFIX", prefix)]
          ++ (if bool_decide (key = "valkey") then [("VALKEY_KEY_PREFIX", prefix)] else []))
  else if bool_decide (key = "object-storage") then
    Some [("S3_ENDPOINT", js_or (f "endpoint") (JStr ("https://" +:+ js_String host))); ("S3_BUCKET", bucket);
          ("S3_REGION", js_or (f "region") (JStr "local")); ("S3_ACCESS_KEY", js_or (f "accessKey") (JStr (placeholder "access-key")));
          ("S3_SECRET_KEY", js_or (f "secretKey") (JStr (placeholder "secret-key")))]
  else if bool_decide (key = "vector-db") || bool_decide (key = "qdrant") then
    Some [("VECTOR_DB_URL", js_or (f "url") (JStr ("http://" +:+ js_String host +:+ ":" +:+ js_String port)));
          ("VECTOR_DB_API_KEY", js_or (f "apiKey") (JStr (placeholder "api-key")));
          ("VECTOR_DB_COLLECTION", js_or (f "collection") (JStr (slugify_default (js_or (f "name") (JStr "collection")))))]
  else if bool_decide (key = "message-queue") || bool_decide (key = "nats") then
    Some [("QUEUE_URL", js_or (f "url") (JStr ("nats://" +:+ js_String host +:+ ":" +:+ js_String port)));
          ("QUEUE_USERNAME", username); ("QUEUE_PASSWORD", password);
          ("QUEUE_TOPIC", js_or (f "topic") (JStr (slugify_default (js_or (f "name") (JStr "events")))))]
  else None.

Definition connection_of (key : string) (resource : jsobj) (projectSlug : jsval) : Connection :=
  let f := fun k => obj_get k resource in
  mkConnection (hostFor resource projectSlug) (js_or (f "port") (JNum (NInt (defaultPort key)))) (userFor resource projectSlug)
    (passwordFor resource projectSlug key) (databaseFor resource projectSlug)
    (js_or (f "bucket") (JStr (slugify_default (js_or (f "name") (JStr "bucket"))))) (connectionLimitForResource resource)
    (redisKeyPrefixFor resource projectSlug) (deterministicProviderPlaceholder resource projectSlug key).

Definition connectionEnvForResource (resource : jsobj) (projectSlug : jsval) : result jsobj :=
  let engine := engine_of resource in
  _ ← getCatalogEntry (JStr engine);
  match engine_env engine (fun k => obj_get k resource) (connection_of engine resource projectSlug) with
  | Some env => Ok env
  | None => Throw (JsError "Error" ("unsupported resource: " +:+ engine) None)
  end.

(** ** Injection *)

(** [attachedNames.has(resource.name)]: names are strings, and
    [attachedResources] is an array where it is given. *)
Definition same_name (a b : jsval) : bool := match a, b with JStr s, JStr t => bool_decide (s = t) | _, _ => false end.

Definition attached (service resource : jsobj) : bool :=
  match obj_get "attachedResources" service with
  | JArr names => existsb (same_name (obj_get "name" resource)) names
  | _ => true
  end.

Fixpoint inject_all (service : jsobj) (resources : list jsobj) (projectSlug : jsval) (resourceEnvByName : jsmap jsobj) (base : jsobj) : result jsobj :=
  match resources with
  | [] => Ok base
  | resource :: rest =>
      if attached service resource then
        env ← (match map_get (js_String (obj_get "name" resource)) resourceEnvByName with
               | Some env => Ok env
               | None => connectionEnvForResource resource projectSlug
               end);
        inject_all service rest projectSlug resourceEnvByName (spread base env)
      else inject_all service rest projectSlug resourceEnvByName base
  end.

Definition injectResourceEnv (service : jsobj) (resources : list jsobj) (projectSlug : jsval) (resourceEnvByName : jsmap jsobj) : result jsobj :=
  inject_all service resources projectSlug resourceEnvByName (entries (obj_get "environment" service)).
End Connections.

Close Scope Z_scope.
