(* ===== verification/ServiceRuntime.v ===== *)
(** * What a service may ask of the cluster ([packages/core/src/service-runtime.ts],
    [deployment-health.ts], [packages/schemas/src/deployment-health-contract.ts])

    Processor and memory quantities, persistent storage and its consequences
    for replicas, and the paths the platform probes.  CPU quantities go through
    double arithmetic, which is written out. *)

From Stdlib Require Import QArith.
From S2P Require Import Prelude JsString JsMap JsVal Ids Secrets Accounts Redaction Workflows ControlPlane Deployments.

Open Scope Z_scope.

(** ** Doubles *)

(** The integer nearest to [n / d], the even one of two equally near ones. *)
Definition round_even (n d : Z) : Z :=
  let q := n / d in let r := n mod d in
  if 2 * r <? d then q else if d <? 2 * r then q + 1 else if Z.even q then q else q + 1.

(** [a / b * 2 ^ s], as numerator and denominator. *)
Definition scaled_by (s a b : Z) : Z * Z := if 0 <=? s then (a * 2 ^ s, b) else (a, b * 2 ^ (- s)).

(** The exponent of the leading bit of [a / b]. *)
Definition leading_bit (a b : Z) : Z :=
  let l := Z.log2 a - Z.log2 b in
  let '(n, d) := scaled_by (- l) a b in if d <=? n then l else l - 1.

(** The double nearest to [a / b], for positive numbers in the normal range. *)
Definition double_of (a b : Z) : Q :=
  let s := 52 - leading_bit a b in
  let '(n, d) := scaled_by s a b in
  let m := round_even n d in
  if 0 <=? s then Qmake m (Z.to_pos (2 ^ s)) else inject_Z (m * 2 ^ (- s)).

Definition double_of_Q (x : Q) : Q := double_of (Qnum x) (Zpos (Qden x)).

(** ** Quantities *)

Definition reject (message : string) : jserror := badRequest message.

Definition digits_of (l : list ascii) : option Z := nonempty_digits 10 dec_digit l.

(** Digits that do not start with zero. *)
Definition positive_digits (l : list ascii) : option Z :=
  match l with "0"%char :: _ => None | _ => digits_of l end.

(** Zero or digits without a leading zero, and at most three decimals: the
    value in thousandths. *)
Definition thousandths (l : list ascii) : option Z :=
  let '(whole, fraction) := break_at (fun c => (code c =? 46)%N) l in
  let units := match whole with ["0"%char] => Some 0 | _ => positive_digits whole end in
  match units, fraction with
  | Some u, None => Some (u * 1000)
  | Some u, Some f => if (length f <=? 3)%nat then (fun d => u * 1000 + d * 10 ^ (3 - Z.of_nat (length f))) <$> digits_of f else None
  | None, _ => None
  end.

(** [Number(value) * 1000] of a decimal with [n] thousandths *)
Definition times_thousand (n : Z) : Q :=
  if n =? 0 then 0%Q else let x := double_of n 1000 in double_of_Q (x * 1000).

Definition cpu_value (s : string) : option Q :=
  let l := chars s in
  match last l with
  | Some "m"%char => inject_Z <$> positive_digits (take (length l - 1) l)
  | _ => times_thousand <$> thousandths l
  end.

Definition cpu (value : jsval) : result Q :=
  match value with
  | JStr s =>
      match cpu_value s with
      | None => Throw (reject "CPU must use cores or integer millicores")
      | Some r => if Qle_bool r 0 || negb (Qle_bool r 8000) then Throw (reject "CPU must be between 1m and 8000m") else Ok r
      end
  | _ => Throw (reject "CPU must use cores or integer millicores")
  end.

Definition memory (value : jsval) : result Z :=
  let wrong := reject "Memory must use positive integer Mi or Gi" in
  match value with
  | JStr s =>
      let factor := if endsWith s "Mi" then Some 1 else if endsWith s "Gi" then Some 1024 else None in
      match factor, positive_digits (take (length (chars s) - 2) (chars s)) with
      | Some f, Some n => if 16384 <? n * f then Throw (reject "Memory cannot exceed 16Gi") else Ok (n * f)
      | _, _ => Throw wrong
      end
  | _ => Throw wrong
  end.

Definition record (value : jsval) (label : string) : result jsobj :=
  match value with JObj fs => Ok fs | _ => Throw (reject (label +:+ " must be an object")) end.

Definition only_keys (allowed : list string) (o : jsobj) (message : string) : result unit :=
  throw_if (existsb (fun k => negb (bool_decide (k ∈ allowed))) o.*1) (reject message).

(** ** Validation *)

Definition check_group (resources : jsobj) (name : string) : result unit :=
  match obj_get name resources with
  | JUndef => Ok tt
  | value => fs ← record value name; only_keys ["cpu"; "memory"; "ephemeral-storage"] fs "Only CPU and memory are configurable"
  end.

Definition quantity (resources : jsobj) (group key fallback : string) : jsval :=
  js_nullish (field key (obj_get group resources)) (JStr fallback).

Definition validate_resources (value : jsval) : result unit :=
  match value with
  | JUndef => Ok tt
  | _ =>
      resources ← record value "resources";
      _ ← only_keys ["requests"; "limits"] resources "Unknown resource group";
      _ ← check_group resources "requests";
      _ ← check_group resources "limits";
      requested ← cpu (quantity resources "requests" "cpu" "100m");
      limit ← cpu (quantity resources "limits" "cpu" "500m");
      _ ← throw_if (negb (Qle_bool requested limit)) (reject "CPU request exceeds limit");
      requested_memory ← memory (quantity resources "requests" "memory" "128Mi");
      memory_limit ← memory (quantity resources "limits" "memory" "512Mi");
      throw_if (memory_limit <? requested_memory) (reject "Memory request exceeds limit")
  end.

Definition path_char (c : ascii) : bool := is_alnum c || (code c =? 95)%N || is_hyphen c.

(** [/data] and any number of further segments of [[A-Za-z0-9_-]]. *)
Definition data_path (s : string) : bool :=
  match split_on "/"%char s with
  | "" :: "data" :: segments => forallb (fun segment => negb (str_empty segment) && forallb path_char (chars segment)) segments
  | _ => false
  end.

Definition equals_one (v : jsval) : bool := bool_decide (as_integer v = Some 1).
Definition undefined_or_one (v : jsval) : bool := match v with JUndef => true | _ => equals_one v end.

Definition service_type (service : jsobj) : string := toLowerCase (js_String (js_or (obj_get "type" service) (JStr "web"))).

Definition validate_persistence (service : jsobj) : result unit :=
  match obj_get "persistence" service with
  | JUndef | JNull => Ok tt
  | value =>
      persistent ← record value "persistence";
      _ ← only_keys ["sizeGi"; "mountPath"] persistent "Unknown persistence option";
      _ ← throw_if (match as_integer (obj_get "sizeGi" persistent) with Some n => (n <? 1) || (100 <? n) | None => true end)
            (reject "Persistence sizeGi must be an integer from 1 to 100");
      _ ← throw_if (match as_string (obj_get "mountPath" persistent) with Some p => (200 <? str_length p) || negb (data_path p) | None => true end)
            (reject "Persistence mountPath must be /data or a safe descendant");
      _ ← throw_if (negb (bool_decide (service_type service ∈ ["web"; "private"; "worker"]))) (reject "Persistence requires a web, private or worker service");
      _ ← throw_if (bool_decide (as_string (obj_get "sleepPolicy" service) = Some "scale-to-zero")) (reject "Persistent services must remain always-on");
      let scaling := obj_get "scaling" service in
      throw_if (existsb (fun v => negb (undefined_or_one v)) [obj_get "replicas" service; field "minReplicas" scaling; field "maxReplicas" scaling])
        (reject "Persistent services require exactly one replica")
  end.

Definition validateServiceRuntime (service : jsobj) : result unit :=
  _ ← validate_resources (obj_get "resources" service);
  validate_persistence service.

(** [a === b] for the names of services: strings, [null] or [undefined] *)
Definition same_text (a b : jsval) : bool :=
  match a, b with JStr s, JStr t => bool_decide (s = t) | JUndef, JUndef | JNull, JNull => true | _, _ => false end.

Definition overlay (row : jsobj) : jsobj := spread (entries (obj_get "desiredSpec" row)) (entries (obj_get "desiredState" row)).

Definition merged_group (group : string) (previous next : jsval) : string * jsval :=
  (group, JObj (spread (entries (field group previous)) (entries (field group next)))).

Definition validateServiceRuntimeUpdate (current updates : jsobj) : result unit :=
  let previous := spread (overlay current) current in
  let next := spread (spread previous (overlay updates)) updates in
  let next := match obj_get "resources" next with
              | JObj resources =>
                  map_set "resources" (JObj (spread resources [merged_group "requests" (obj_get "resources" previous) (JObj resources);
                                                               merged_group "limits" (obj_get "resources" previous) (JObj resources)])) next
              | _ => next
              end in
  _ ← validateServiceRuntime next;
  let stored := obj_get "persistence" previous in
  let asked := obj_get "persistence" next in
  throw_if (truthy stored
            && (negb (truthy asked)
                || negb (bool_decide (as_integer (field "sizeGi" stored) = as_integer (field "sizeGi" asked)))
                || negb (bool_decide (as_string (field "mountPath" stored) = as_string (field "mountPath" asked)))
                || negb (same_text (obj_get "name" next) (obj_get "name" previous))
                || negb (same_text (obj_get "slug" next) (obj_get "slug" previous))))
    (reject "Existing persistent storage size, path and service identity cannot be changed; use an explicit data migration").

(** ** Health paths *)

(** [[\\\s?#\u0000-\u001f\u007f-\u009f]] on code points *)
Definition unsafe_point (n : N) : bool :=
  ((n <=? 32) || (n =? 92) || (n =? 63) || (n =? 35) || ((127 <=? n) && (n <=? 160)) || (n =? 5760) || ((8192 <=? n) && (n <=? 8202))
   || (n =? 8232) || (n =? 8233) || (n =? 8239) || (n =? 8287) || (n =? 12288) || (n =? 65279))%N.

(** An escape [%XX] at the start: its byte and the rest. *)
Definition take_escape (l : list ascii) : option (N * list ascii) :=
  match l with
  | "%"%char :: a :: b :: rest =>
      match hex_digit a, hex_digit b with Some x, Some y => Some (Z.to_N (x * 16 + y), rest) | _, _ => None end
  | _ => None
  end.

Fixpoint continuation (n : nat) (point : N) (l : list ascii) : option (N * list ascii) :=
  match n with
  | O => Some (point, l)
  | S n => match take_escape l with
           | Some (b, rest) => if ((128 <=? b) && (b <? 192))%N then continuation n (point * 64 + (b - 128))%N rest else None
           | None => None
           end
  end.

(** Number of further bytes, bits of the point and smallest point of a leading byte. *)
Definition leading_byte (b : N) : option (nat * N * N) :=
  if ((192 <=? b) && (b <? 224))%N then Some (1%nat, (b - 192)%N, 128%N)
  else if ((224 <=? b) && (b <? 240))%N then Some (2%nat, (b - 224)%N, 2048%N)
  else if ((240 <=? b) && (b <? 248))%N then Some (3%nat, (b - 240)%N, 65536%N)
  else None.

Definition decode_point (b : N) (rest : list ascii) : option (N * list ascii) :=
  if (b <? 128)%N then Some (b, rest)
  else match leading_byte b with
       | Some (n, bits, least) =>
           match continuation n bits rest with
           | Some (p, rest') => if ((least <=? p) && (p <=? 1114111) && negb ((55296 <=? p) && (p <=? 57343)))%N then Some (p, rest') else None
           | None => None
           end
       | None => None
       end.

(** [decodeURIComponent]: the code points, [None] when it throws.  Every step
    consumes a character, so the length is enough fuel. *)
Fixpoint decodeURIComponent (fuel : nat) (l : list ascii) : option (list N) :=
  match fuel, l with
  | _, [] => Some []
  | O, _ => None
  | S fuel, c :: l' =>
      if (code c =? 37)%N then
        match take_escape l with
        | Some (b, rest) => match decode_point b rest with Some (p, rest') => cons p <$> decodeURIComponent fuel rest' | None => None end
        | None => None
        end
      else cons (code c) <$> decodeURIComponent fuel l'
  end.

(** [/%(?:2f|5c|0[0-9a-f]|1[0-9a-f]|7f|3f|23|25)/i] *)
Definition forbidden_escape (l : list ascii) : bool :=
  match take_escape l with Some (b, _) => ((b =? 47) || (b =? 92) || (b <? 32) || (b =? 127) || (b =? 63) || (b =? 35) || (b =? 37))%N | None => false end.

Definition bad_escape (l : list ascii) : bool := match l with "%"%char :: _ => match take_escape l with None => true | Some _ => false end | _ => false end.

Fixpoint split_points (l : list N) : list (list N) :=
  match l with
  | [] => [[]]
  | n :: l' => match split_points l' with
               | part :: parts => if (n =? 47)%N then [] :: part :: parts else (n :: part) :: parts
               | [] => [[n]]
               end
  end.

Definition dot_segment (part : list N) : bool := bool_decide (part = [46%N]) || bool_decide (part = [46%N; 46%N]).

Definition isSafeHealthPath (value : jsval) : bool :=
  match value with
  | JStr s =>
      let l := chars s in
      negb (1024 <? byteLength l)%nat
      && match l with c :: rest => (code c =? 47)%N && negb (prefixb (chars "/") rest) | [] => false end
      && negb (existsb (fun c => unsafe_point (code c)) l)
      && negb (search bad_escape l) && negb (search forbidden_escape l)
      && match decodeURIComponent (length l) l with
         | Some decoded => negb (existsb unsafe_point decoded) && negb (existsb dot_segment (split_points decoded))
         | None => false
         end
  | _ => false
  end.

Definition HEALTH_PATH_FIELDS : list string := ["healthCheckPath"; "livenessPath"; "readinessPath"; "publicHealthPath"].

Definition HealthPathError (field : string) : jserror := JsError "HealthPathError" ("INVALID_HEALTH_PATH: " +:+ field) (Some 400).

Fixpoint own_paths (fields : list string) (input result_ : jsobj) : result jsobj :=
  match fields with
  | [] => Ok result_
  | k :: rest =>
      if hasOwn k input then
        match obj_get k input with
        | JNull => own_paths rest input (map_set k JNull result_)
        | value => if isSafeHealthPath value then own_paths rest input (map_set k value result_) else Throw (HealthPathError k)
        end
      else own_paths rest input result_
  end.

Definition path_json (path : jsval) : jsval := JObj [("path", path)].

Definition alias_path (input result_ : jsobj) : result jsobj :=
  if negb (hasOwn "healthCheck" input) then Ok result_ else
  let own := hasOwn "healthCheckPath" input in
  match obj_get "healthCheck" input with
  | JNull => let r := map_set "healthCheck" JNull result_ in Ok (if own then r else map_set "healthCheckPath" JNull r)
  | JObj [("path", path)] =>
      _ ← throw_if (negb (isSafeHealthPath path)) (HealthPathError "healthCheck.path");
      let r := map_set "healthCheck" (path_json path) result_ in
      _ ← throw_if (match as_string (obj_get "healthCheckPath" r) with Some p => negb (bool_decide (as_string path = Some p)) | None => false end)
            (HealthPathError "healthCheckPath");
      Ok (if own then r else map_set "healthCheckPath" path r)
  | _ => Throw (HealthPathError "healthCheck.path")
  end.

Definition parseHealthPaths (input : jsobj) : result jsobj :=
  r ← own_paths HEALTH_PATH_FIELDS input [];
  r ← alias_path input r;
  let r := if hasOwn "healthCheckPath" input
           then map_set "healthCheck" (match obj_get "healthCheckPath" r with JStr p => path_json (JStr p) | _ => JNull end) r else r in
  _ ← throw_if (match obj_get "publicHealthPath" input with JUndef | JNull => false | _ => true end
                && match obj_get "type" input with JUndef => false | t => negb (bool_decide (toLowerCase (js_String t) = "web")) end)
        (HealthPathError "publicHealthPath");
  Ok r.

Definition serviceHealthInput (input : jsobj) : result jsobj :=
  let nested := entries (obj_get "desiredSpec" input) in
  _ ← parseHealthPaths nested;
  paths ← parseHealthPaths (spread nested input);
  Ok (spread paths (if truthy (obj_get "desiredSpec" input) then [("desiredSpec", JObj (spread nested paths))] else [])).

(** ** Probes *)

Definition probe (port : jsval) (path : jsval) (failureThreshold : Z) : jsval :=
  JObj ([match path with JStr _ => ("httpGet", JObj [("path", path); ("port", port)]) | _ => ("tcpSocket", JObj [("port", port)]) end]
        ++ [("initialDelaySeconds", JNum (NInt 5)); ("periodSeconds", JNum (NInt 10)); ("timeoutSeconds", JNum (NInt 2));
            ("failureThreshold", JNum (NInt failureThreshold))]).

Definition serviceHealthProbes (service : jsobj) (port : jsval) : result jsobj :=
  if negb (bool_decide (service_type service = "web")) then Ok []
  else
    paths ← parseHealthPaths service;
    let common := obj_get "healthCheckPath" paths in
    let readiness := obj_get "readinessPath" paths in
    Ok [("startupProbe", probe port (js_or common readiness) 30); ("readinessProbe", probe port (js_or readiness common) 3);
        ("livenessProbe", probe port (js_or (obj_get "livenessPath" paths) common) 3)].

Close Scope Z_scope.
