(* ===== verification/SourceDiscovery.v ===== *)
(** * Finding an application in its source ([packages/core/src/source-discovery.ts])

    Paths a tenant writes are brought into a normal form that stays inside the
    checkout; files that may hold secrets are dropped before anything looks at
    them; then Dockerfiles, manifests and lock files decide the root of the
    application.  [localeCompare] is a parameter. *)

From S2P Require Import Prelude JsString JsMap JsVal Ids Secrets Workflows ControlPlane.

(** ** Paths *)

Definition slash : ascii := "/"%char.
Definition segments_of (path : string) : list string := split_on slash path.
Definition path_of (segments : list string) : string := JsVal.join "/" segments.

(** One segment of [posix.normalize], on the segments kept so far, last first. *)
Definition push_segment (allowAboveRoot : bool) (kept : list string) (segment : string) : list string :=
  if bool_decide (segment = "") || bool_decide (segment = ".") then kept
  else if bool_decide (segment = "..") then
    match kept with
    | top :: rest => if bool_decide (top = "..") then (if allowAboveRoot then segment :: kept else kept) else rest
    | [] => if allowAboveRoot then [segment] else []
    end
  else segment :: kept.

Definition normalized_segments (allowAboveRoot : bool) (path : string) : list string :=
  rev (foldl (push_segment allowAboveRoot) [] (segments_of path)).

Definition posix_normalize (path : string) : string :=
  if str_empty path then "." else
  let isAbsolute := startsWith path "/" in
  let trailing := endsWith path "/" in
  let normal := path_of (normalized_segments (negb isAbsolute) path) in
  if str_empty normal then (if isAbsolute then "/" else if trailing then "./" else ".")
  else (if isAbsolute then "/" else "") +:+ normal +:+ (if trailing then "/" else "").

(** [.replace(/^\.\//, '').replace(/\/$/, '')] *)
Definition drop_dot_slash (s : string) : string := if startsWith s "./" then unchars (drop 2 (chars s)) else s.
Definition drop_last_slash (s : string) : string := if endsWith s "/" then unchars (take (length (chars s) - 1) (chars s)) else s.

Definition forward_slashes (s : string) : string := unchars (map (fun c => if (code c =? 92)%N then slash else c) (chars s)).

(** [/^[A-Za-z]:\//] *)
Definition drive_path (s : string) : bool :=
  match chars s with a :: b :: c :: _ => (is_lower a || is_upper a) && (code b =? 58)%N && (code c =? 47)%N | _ => false end.

Definition normalizeSourcePath (value : jsval) (fallback : string) : string :=
  let input := forward_slashes (trim (js_String (js_or value (JStr fallback)))) in
  if drive_path input || startsWith input "//" then fallback else
  let normalized := str_or (drop_last_slash (drop_dot_slash (posix_normalize (str_or input fallback)))) "." in
  if bool_decide (normalized = "..") || startsWith normalized "../" || startsWith normalized "/" then fallback else normalized.

(** [posix.basename] and [posix.dirname] of a path in normal form *)
Definition basename (path : string) : string := List.last (segments_of path) "".
Definition dirname (path : string) : string := match removelast (segments_of path) with [] => "." | l => path_of l end.

(** ** Files *)

Definition IGNORED_SEGMENTS : list string := [".git"; "node_modules"].
Definition MANIFEST_NAMES : list string :=
  ["package.json"; "requirements.txt"; "pyproject.toml"; "pom.xml"; "build.gradle"; "build.gradle.kts"; "go.mod"; "index.html"].
Definition LOCKFILE_MANAGERS : jsmap string :=
  [("pnpm-lock.yaml", "pnpm"); ("yarn.lock", "yarn"); ("bun.lock", "bun"); ("bun.lockb", "bun"); ("package-lock.json", "npm");
   ("npm-shrinkwrap.json", "npm")].

(** Properties every plain object inherits. *)
Definition INHERITED : list string :=
  ["constructor"; "__defineGetter__"; "__defineSetter__"; "hasOwnProperty"; "__lookupGetter__"; "__lookupSetter__"; "isPrototypeOf";
   "propertyIsEnumerable"; "toString"; "valueOf"; "__proto__"; "toLocaleString"].

Inductive LockManager := Manager (name : string) | InheritedProperty (name : string).

(** [LOCKFILE_MANAGERS[name]] *)
Definition lock_manager (name : string) : option LockManager :=
  match map_get name LOCKFILE_MANAGERS with
  | Some manager => Some (Manager manager)
  | None => if bool_decide (name ∈ INHERITED) then Some (InheritedProperty name) else None
  end.

Definition isIgnoredPath (path : string) : bool := existsb (fun segment => bool_decide (segment ∈ IGNORED_SEGMENTS)) (segments_of path).

Definition isSecretEnvFile (name : string) : bool :=
  let base := toLowerCase (basename name) in
  startsWith base ".env" && negb (endsWith base ".example") && negb (endsWith base ".sample").

(** The place of a file, or nothing for one that is left out. *)
Definition kept_path (rawPath : string) : option string :=
  let path := normalizeSourcePath (JStr rawPath) "" in
  if str_empty path || bool_decide (path = ".") || isIgnoredPath path || isSecretEnvFile path then None else Some path.

(** [object[key] = contents] on a plain object; the name of the prototype
    takes no text. *)
Definition set_file (key : string) (contents : jsval) (m : jsobj) : jsobj :=
  if bool_decide (key = "__proto__") then m else map_set key contents m.

Definition normalizedFiles (files : jsobj) : jsobj :=
  foldl (fun m file => match kept_path file.1 with Some path => set_file path file.2 m | None => m end) [] files.

Definition directoryOf (path : string) : string := dirname path.

(** [/^dockerfile(?:\..+)?$/i] on the last segment *)
Definition isDockerfile (path : string) : bool :=
  let base := chars (toLowerCase (basename path)) in
  prefixb (chars "dockerfile") base
  && match drop 10 base with
     | [] => true
     | "."%char :: ((_ :: _) as rest) => forallb (fun c => negb ((code c =? 10)%N || (code c =? 13)%N)) rest
     | _ => false
     end.

(** [.split(/\r?\n/)] *)
Definition lines_of (text : string) : list (list ascii) :=
  map (fun line => match rev line with c :: k => if (code c =? 13)%N then rev k else line | [] => line end)
      (map chars (split_on (chr 10) text)).

Definition name_start (c : ascii) : bool := is_lower c || is_upper c || (code c =? 95)%N.
Definition name_char (c : ascii) : bool := is_alnum c || (code c =? 95)%N.

(** A name and an equals sign after optional white space. *)
Definition assigned_name (l : list ascii) : option string :=
  match l with
  | c :: _ => if name_start c then
                let '(name, rest) := span name_char l in
                match drop_while is_space rest with "="%char :: _ => Some (unchars name) | _ => None end
              else None
  | [] => None
  end.

(** The name of an assignment, with the word [export] before it taken off
    where that leaves an assignment. *)
Definition env_line_key (line : list ascii) : option string :=
  let l := drop_while is_space line in
  let after := drop 6 l in
  let exported := if prefixb (chars "export") l && match after with c :: _ => is_space c | [] => false end
                  then assigned_name (drop_while is_space after) else None in
  match exported with Some key => Some key | None => assigned_name l end.

Fixpoint distinct (l : list string) : list string :=
  match l with [] => [] | x :: l' => x :: filter (fun y => y <> x) (distinct l') end.

(** [[...set].sort()] *)
Definition sorted_set (l : list string) : list string := js_sort String.leb (distinct l).

Definition envKeys (contents : jsval) : list string :=
  sorted_set (omap env_line_key (lines_of (js_String (js_or contents (JStr ""))))).

(** ** Roots *)

Section Discovery.
Context (localeCompare : string -> string -> comparison).

Definition before_or_same (a b : string) : bool := match localeCompare a b with Gt => false | _ => true end.

Record AppRoot := mkAppRoot { ar_rootDirectory : string; ar_signals : list string }.

Definition signal_of (path : string) : option (string * string) :=
  let base := basename path in
  if negb (bool_decide (base ∈ MANIFEST_NAMES)) && negb (isDockerfile path) then None
  else Some (directoryOf path, if isDockerfile path then "Dockerfile" else base).

Definition candidateRoots (files : jsobj) : list AppRoot :=
  let roots := foldl (fun m path => match signal_of path with
                                    | Some (root, signal) => map_set root (default [] (map_get root m) ++ [signal]) m
                                    | None => m
                                    end) [] files.*1 in
  js_sort (fun a b => before_or_same (ar_rootDirectory a) (ar_rootDirectory b)) (map (fun kv => mkAppRoot kv.1 (sorted_set kv.2)) roots).

Definition runnable (candidate : AppRoot) : Prop :=
  existsb (fun signal => bool_decide (signal = "Dockerfile") || bool_decide (signal ∈ MANIFEST_NAMES)) (ar_signals candidate) = true.

Definition chooseRoot (candidates : list AppRoot) (requestedRoot : string) (serviceName : jsval) : string :=
  if negb (bool_decide (requestedRoot = ".")) then requestedRoot
  else if existsb (fun c => bool_decide (ar_rootDirectory c = ".")) candidates then "."
  else
    let ready := filter runnable candidates in
    let only := match ready with [c] => ar_rootDirectory c | _ => "." end in
    if truthy serviceName then
      let normalizedName := toLowerCase (normalizeSourcePath serviceName ".") in
      match filter (fun c => toLowerCase (basename (ar_rootDirectory c)) = normalizedName) ready with
      | [c] => ar_rootDirectory c
      | _ => only
      end
    else only.

Definition pathIsWithinRoot (path root : string) : bool :=
  bool_decide (root = ".") || bool_decide (path = root) || startsWith path (root +:+ "/").

Definition scoped_name (root path : string) : option string :=
  if pathIsWithinRoot path root then
    let relative := if bool_decide (root = ".") then path else unchars (drop (length (chars root) + 1) (chars path)) in
    if str_empty relative || includes relative "/" then None else Some relative
  else None.

Definition filesAtSourceRoot (files : jsobj) (rootDirectory : jsval) : jsobj :=
  let root := normalizeSourcePath rootDirectory "." in
  foldl (fun m file => match scoped_name root file.1 with Some relative => set_file relative file.2 m | None => m end) [] (normalizedFiles files).

Definition at_root_first (rootDirectory a b : string) : bool :=
  let place := fun path => if bool_decide (directoryOf path = rootDirectory) then 0 else 1 in
  match Nat.compare (place a) (place b) with Lt => true | Gt => false | Eq => before_or_same a b end.

(** [/\.env\.(?:example|sample)$/i] *)
Definition isEnvExample (path : string) : bool :=
  let base := toLowerCase (basename path) in endsWith base ".env.example" || endsWith base ".env.sample".

Record Discovery := mkDiscovery {
  ds_rootDirectory : string; ds_dockerfilePath : option string; ds_manifestFiles : list string; ds_lockfilePath : option string;
  ds_packageManager : option LockManager; ds_suggestedEnvironmentKeys : list string; ds_appRoots : list AppRoot
}.

Definition discoverSource (files : jsobj) (rootDirectory serviceName : jsval) : Discovery :=
  let safeFiles := normalizedFiles files in
  let requestedRoot := normalizeSourcePath (js_or rootDirectory (JStr ".")) "." in
  let appRoots := candidateRoots safeFiles in
  let root := chooseRoot appRoots requestedRoot serviceName in
  let rootFiles := filter (fun path => pathIsWithinRoot path root = true) safeFiles.*1 in
  let dockerfiles := js_sort (at_root_first root) (filter (fun path => isDockerfile path = true) rootFiles) in
  let manifestFiles := js_sort String.leb (filter (fun path => basename path ∈ MANIFEST_NAMES) rootFiles) in
  let lockfiles := js_sort (at_root_first root) (filter (fun path => is_Some (lock_manager (basename path))) rootFiles) in
  let environmentKeys := concat (map (fun path => envKeys (obj_get path safeFiles)) (filter (fun path => isEnvExample path = true) rootFiles)) in
  let lockfilePath := head lockfiles in
  mkDiscovery root (head dockerfiles) manifestFiles lockfilePath (lockfilePath ≫= fun path => lock_manager (basename path))
    (sorted_set environmentKeys) appRoots.
End Discovery.
