(* ===== verification/BuildStrategy.v ===== *)
(** * How a service is built ([packages/core/src/framework-detector.ts],
    [build-strategy.ts])

    A prebuilt image, a Dockerfile, a custom command, a detected framework or a
    buildpack, in this order, with the steps of the build and the image it ends
    in.  [JSON.parse], [localeCompare] and SHA-256 are parameters. *)

From S2P Require Import Prelude JsString JsMap JsVal Ids Workflows ControlPlane DomainRouter SourceDiscovery.

Open Scope Z_scope.

Definition json_text (s : option string) : jsval := match s with Some t => JStr t | None => JNull end.

Section Detection.
Context (JSON_parse : string -> option jsval).

Definition parseJson (value : jsval) : jsval :=
  if negb (truthy value) then JObj [] else
  match value with
  | JObj _ | JArr _ => value
  | _ => match JSON_parse (js_String value) with Some v => v | None => JObj [] end
  end.

Definition hasAnyDependency (pkg : jsval) (names : list string) : bool :=
  let deps := spread (spread (entries (field "dependencies" pkg)) (entries (field "devDependencies" pkg)))
                (entries (field "optionalDependencies" pkg)) in
  existsb (fun name => hasOwn name deps) names.

Definition fileExists (files : jsobj) (name : string) : bool := hasOwn name files.

Definition packageManagerFor (files : jsobj) (packageJson : jsval) : string :=
  if fileExists files "pnpm-lock.yaml" then "pnpm"
  else if fileExists files "yarn.lock" then "yarn"
  else if fileExists files "bun.lock" || fileExists files "bun.lockb" then "bun"
  else if fileExists files "package-lock.json" || fileExists files "npm-shrinkwrap.json" then "npm"
  else
    let configured := toLowerCase (hd "" (split_on "@"%char (js_String (js_or (field "packageManager" packageJson) (JStr ""))))) in
    if bool_decide (configured ∈ ["npm"; "pnpm"; "yarn"; "bun"]) then configured else "npm".

(** [text.match(/^yarn@(\d+)/)?.[1] || 1] *)
Definition yarn_version (text : string) : Z :=
  if startsWith text "yarn@" then
    match (Secrets.span is_digit (drop 5 (chars text))).1 with
    | [] => 1
    | digits => default 1 (digits_value 10 dec_digit 0 digits)
    end
  else 1.

Definition installCommandFor (files : jsobj) (packageJson : jsval) : string :=
  let manager := packageManagerFor files packageJson in
  if bool_decide (manager = "pnpm") then (if fileExists files "pnpm-lock.yaml" then "pnpm install --frozen-lockfile" else "pnpm install")
  else if bool_decide (manager = "yarn") then
    let version := yarn_version (js_String (js_or (field "packageManager" packageJson) (JStr ""))) in
    if fileExists files "yarn.lock" then (if 2 <=? version then "yarn install --immutable" else "yarn install --frozen-lockfile") else "yarn install"
  else if bool_decide (manager = "bun") then
    (if fileExists files "bun.lock" || fileExists files "bun.lockb" then "bun install --frozen-lockfile" else "bun install")
  else (if fileExists files "package-lock.json" || fileExists files "npm-shrinkwrap.json" then "npm ci" else "npm install").

Definition scriptCommand (packageJson : jsval) (script : string) (fallback : jsval) : jsval :=
  js_or (field script (field "scripts" packageJson)) fallback.

(** The result of the detection. *)
Record Framework := mkFramework {
  fw_framework : string; fw_runtime : string; fw_installCommand : jsval; fw_buildCommand : jsval; fw_startCommand : jsval;
  fw_port : Z; fw_outputDirectory : jsval; fw_staticContainer : jsval
}.

Definition node_framework (files : jsobj) (packageJson : jsval) : Framework :=
  let install := JStr (installCommandFor files packageJson) in
  let script := scriptCommand packageJson in
  let build := script "build" (JStr "npm run build") in
  if hasAnyDependency packageJson ["next"] then
    mkFramework "nextjs" "node" install build (script "start" (JStr "npm start")) 3000 (JStr ".next") JUndef
  else if hasAnyDependency packageJson ["nuxt"] then
    mkFramework "nuxt" "node" install build (script "start" (JStr "node .output/server/index.mjs")) 3000 (JStr ".output") JUndef
  else if hasAnyDependency packageJson ["@sveltejs/kit"] then
    mkFramework "sveltekit" "node" install build (script "start" (JStr "node build")) 3000 (JStr "build") JUndef
  else if hasAnyDependency packageJson ["astro"] then
    let server := hasAnyDependency packageJson ["@astrojs/node"] in
    mkFramework "astro" (if server then "node" else "static") install build
      (if server then script "start" (JStr "node dist/server/entry.mjs") else JNull) (if server then 4321 else 80) (JStr "dist")
      (if server then JUndef else JStr "caddy")
  else if hasAnyDependency packageJson ["@nestjs/core"] then
    mkFramework "nestjs" "node" install build (script "start" (JStr "npm run start:prod")) 3000 (JStr "dist") JUndef
  else if hasAnyDependency packageJson ["express"; "fastify"; "koa"; "hono"] then
    mkFramework "node-http" "node" install (script "build" JNull) (script "start" (JStr "npm start")) 3000 JNull JUndef
  else if hasAnyDependency packageJson ["vite"; "@vitejs/plugin-react"; "vue"; "svelte"] then
    mkFramework "static-spa" "static" install build JNull 80 (JStr "dist") (JStr "caddy")
  else
    mkFramework "node-generic" "node" install (script "build" JNull) (script "start" (JStr "npm start")) 3000
      (if truthy (script "build" JUndef) then JStr "dist" else JNull) JUndef.

(** [String(file || '').toLowerCase()] *)
Definition lower_file (files : jsobj) (name : string) : string := toLowerCase (js_String (js_or (obj_get name files) (JStr ""))).
Definition line_break : string := unchars [chr 10].

Definition python_framework (files : jsobj) : Framework :=
  let manifest := lower_file files "requirements.txt" +:+ line_break +:+ lower_file files "pyproject.toml" in
  let isFastApi := includes manifest "fastapi" in
  let isDjango := includes manifest "django" in
  let isFlask := includes manifest "flask" in
  mkFramework (if isFastApi then "fastapi" else if isDjango then "django" else if isFlask then "flask" else "python") "python"
    (JStr (if fileExists files "requirements.txt" then "pip install -r requirements.txt" else "pip install .")) JNull
    (JStr (if isFastApi then "uvicorn main:app --host 0.0.0.0 --port $PORT"
           else if isDjango then "python manage.py runserver 0.0.0.0:$PORT"
           else if isFlask then "flask run --host 0.0.0.0 --port $PORT" else "python app.py")) 8000 JNull JUndef.

Definition java_framework (files : jsobj) : Framework :=
  let manifest := lower_file files "pom.xml" +:+ line_break +:+ lower_file files "build.gradle" +:+ line_break
                  +:+ lower_file files "build.gradle.kts" in
  let isSpring := includes manifest "spring-boot" || includes manifest "springframework.boot" in
  let isMaven := fileExists files "pom.xml" in
  mkFramework (if isSpring then "spring-boot" else "java") "jvm" JNull
    (JStr (if isMaven then "mvn package -DskipTests" else "./gradlew build -x test"))
    (JStr (if isSpring then "java -jar " +:+ (if isMaven then "target/*.jar" else "build/libs/*.jar") else "java -jar app.jar")) 8080
    (JStr (if isMaven then "target" else "build/libs")) JUndef.

(** Reading [package.json] throws when its text is [null]. *)
Definition detectFramework (files : jsobj) : result Framework :=
  let packageJson := parseJson (obj_get "package.json" files) in
  _ ← throw_if (match packageJson with JNull => true | _ => false end) (JsError "TypeError" "Cannot read properties of null (reading 'scripts')" None);
  Ok (if fileExists files "package.json" then node_framework files packageJson
      else if fileExists files "requirements.txt" || fileExists files "pyproject.toml" then python_framework files
      else if fileExists files "pom.xml" || fileExists files "build.gradle" || fileExists files "build.gradle.kts" then java_framework files
      else if fileExists files "go.mod" then
        mkFramework "go" "go" JNull (JStr "go build -o app ./...") (JStr "./app") 8080 (JStr ".") JUndef
      else if fileExists files "index.html" then mkFramework "static-html" "static" JNull JNull JNull 80 (JStr ".") (JStr "caddy")
      else mkFramework "unknown" "container" JNull JNull JNull 8080 JNull JUndef).

Definition framework_json (f : Framework) : jsval :=
  JObj ([("framework", JStr (fw_framework f)); ("runtime", JStr (fw_runtime f)); ("serviceType", JStr "web");
         ("installCommand", fw_installCommand f); ("buildCommand", fw_buildCommand f); ("startCommand", fw_startCommand f);
         ("port", JNum (NInt (fw_port f))); ("outputDirectory", fw_outputDirectory f)]
        ++ match fw_staticContainer f with JUndef => [] | c => [("staticContainer", c)] end).

(** ** The strategy *)

Context (localeCompare : string -> string -> comparison) (sha256_hex : string -> string).

Definition AUTO : string := "auto".
Definition DOCKERFILE : string := "dockerfile".
Definition BUILDPACK : string := "buildpack".
Definition CUSTOM : string := "custom".
Definition PREBUILT_IMAGE : string := "prebuilt-image".
Definition DEFAULT_PORT : Z := 8080.
Definition DEFAULT_REGISTRY : string := "registry.raibitserver.local".
Definition WORKLOAD_PIPELINE : list string := ["source"; "build"; "image"; "registry"; "kubernetes-workload"; "network-route"; "domain-and-tls"].

Definition normalizeMode (mode : jsval) : string :=
  if negb (truthy mode) then AUTO else
  let value := toLowerCase (js_String mode) in
  if bool_decide (value ∈ ["dockerfile"; "docker"]) then DOCKERFILE
  else if bool_decide (value ∈ ["buildpack"; "buildpacks"; "nixpacks"]) then BUILDPACK
  else if bool_decide (value ∈ ["custom"; "custom-command"]) then CUSTOM
  else if bool_decide (value ∈ ["image"; "prebuilt"; "prebuilt-image"]) then PREBUILT_IMAGE
  else AUTO.

Record BuildPlan := mkBuildPlan {
  bp_service : string; bp_mode : string; bp_sourceType : jsval; bp_image : string; bp_reason : string; bp_framework : jsval;
  bp_buildSteps : list jsval; bp_port : jsval; bp_startCommand : jsval; bp_registry : string; bp_domainPattern : jsval;
  bp_buildCache : bool; bp_vulnerabilityScan : bool
}.

Definition imageFor (name : string) (service : jsobj) : string :=
  let f := fun k => obj_get k service in
  js_String (js_or (f "registry") (JStr DEFAULT_REGISTRY)) +:+ "/"
  +:+ slugify_default (js_or (f "projectSlug") (js_or (f "project") (JStr "project"))) +:+ "/" +:+ name +:+ ":"
  +:+ slugify_default (js_or (f "revision") (js_or (f "commitHash") (JStr "latest"))).

Definition buildPlan (mode name : string) (sourceType : jsval) (image reason : string) (buildSteps : list jsval) (port startCommand framework : jsval) : BuildPlan :=
  let parts := if includes image "/" then split_on "/"%char image else [DEFAULT_REGISTRY; "project"] in
  mkBuildPlan name mode sourceType image reason framework buildSteps port startCommand (hd "" parts)
    (serviceHostname sha256_hex [("serviceName", JStr name); ("projectSlug", JStr (nth 1 parts "project")); ("organizationSlug", JStr "org");
                                 ("baseDomain", JStr DEFAULT_DOMAIN)])
    (negb (bool_decide (mode = PREBUILT_IMAGE))) (negb (bool_decide (mode = PREBUILT_IMAGE))).

Definition clone_step (rootDirectory : string) : jsval := JObj [("type", JStr "clone-or-upload"); ("rootDirectory", JStr rootDirectory)].
Definition scan_step : jsval := JObj [("type", JStr "image-scan"); ("scanners", JArr [JStr "trivy-compatible"]); ("required", JBool true)].
Definition push_step (service : jsobj) : jsval :=
  JObj [("type", JStr "push"); ("registry", js_or (obj_get "registry" service) (JStr DEFAULT_REGISTRY))].

(** A step of a framework build that is left out when there is no command. *)
Definition command_step (type_ : string) (command : jsval) (more : jsobj) : list jsval :=
  if truthy command then [JObj ([("type", JStr type_); ("command", command)] ++ more)] else [].

Definition runtime_port (service : jsobj) (detected : option Z) : jsval :=
  js_or (obj_get "port" service) (js_or (match detected with Some p => JNum (NInt p) | None => JUndef end) (JNum (NInt DEFAULT_PORT))).

Definition resolveBuildStrategy (service files : jsobj) : result BuildPlan :=
  let f := fun k => obj_get k service in
  let sourceType := js_or (f "sourceType") (JStr "github") in
  let requestedMode := normalizeMode (f "buildMode") in
  let name := slugify_default (js_or (f "name") (JStr "service")) in
  let discovery := discoverSource localeCompare files (f "rootDirectory") (f "name") in
  let rootDirectory := normalizeSourcePath (js_or (f "rootDirectory") (JStr (ds_rootDirectory discovery))) "." in
  let found := match ds_dockerfilePath discovery with Some path => JStr path | None => JNull end in
  let dockerfilePath := normalizeSourcePath (js_or (f "dockerfilePath") (js_or found (JStr "Dockerfile"))) "." in
  let buildContext := normalizeSourcePath (js_or (f "buildContext") (JStr rootDirectory)) "." in
  let customBuildCommand := js_or (f "buildCommand") (js_or (f "customBuildCommand") JNull) in
  let image := js_or (f "image") (js_or (f "imageUrl") JNull) in
  let startCommand := js_or (f "startCommand") JNull in
  if bool_decide (as_string sourceType = Some "image")
     || (bool_decide (requestedMode = PREBUILT_IMAGE) && negb (truthy (f "dockerfilePath")) && negb (truthy found)) then
    _ ← throw_if (negb (truthy image)) (JsError "Error" "prebuilt image source requires service.image or service.imageUrl" None);
    match image with
    | JStr text => Ok (buildPlan PREBUILT_IMAGE name sourceType text "prebuilt container image provided" [] (runtime_port service None) JNull JNull)
    | _ => Throw (JsError "TypeError" "image.includes is not a function" None)
    end
  else if bool_decide (requestedMode = DOCKERFILE) || truthy (f "dockerfilePath") || truthy found then
    Ok (buildPlan DOCKERFILE name sourceType (imageFor name service)
          (if truthy (f "dockerfilePath") then "user configured Dockerfile path" else "Dockerfile detected before auto build")
          [clone_step rootDirectory;
           JObj [("type", JStr "docker-build"); ("dockerfilePath", JStr dockerfilePath); ("buildContext", JStr buildContext); ("cache", JBool true)];
           scan_step; JObj [("type", JStr "image-sign"); ("signer", JStr "cosign-compatible"); ("required", JBool false)]; push_step service]
          (runtime_port service None) startCommand JNull)
  else if bool_decide (requestedMode = CUSTOM) || truthy customBuildCommand then
    Ok (buildPlan CUSTOM name sourceType (imageFor name service) "custom build command configured"
          ([clone_step rootDirectory] ++ command_step "install" (f "installCommand") []
           ++ [JObj [("type", JStr "custom-build"); ("command", js_or customBuildCommand (JStr "npm run build"))];
               JObj [("type", JStr "package-runtime"); ("startCommand", js_or (f "startCommand") (JStr "npm start"));
                     ("outputDirectory", js_or (f "outputDirectory") JNull)];
               scan_step; push_step service])
          (runtime_port service None) (js_or (f "startCommand") (JStr "npm start")) JNull)
  else
    detected ← detectFramework (filesAtSourceRoot files (JStr rootDirectory));
    if bool_decide (requestedMode = AUTO) && negb (bool_decide (fw_framework detected = "unknown")) then
      let start := js_or (f "startCommand") (fw_startCommand detected) in
      Ok (buildPlan "framework" name sourceType (imageFor name service) ("framework detected: " +:+ fw_framework detected)
            ([clone_step rootDirectory] ++ command_step "install" (fw_installCommand detected) []
             ++ command_step "framework-build" (fw_buildCommand detected) [("framework", JStr (fw_framework detected))]
             ++ [(if bool_decide (fw_runtime detected = "static")
                  then JObj [("type", JStr "static-container"); ("server", js_or (fw_staticContainer detected) (JStr "caddy"));
                             ("outputDirectory", js_or (fw_outputDirectory detected) (JStr "."))]
                  else JObj [("type", JStr "package-runtime"); ("startCommand", start)]);
                 scan_step; push_step service])
            (runtime_port service (Some (fw_port detected))) start (framework_json detected))
    else
      Ok (buildPlan BUILDPACK name sourceType (imageFor name service)
            (if bool_decide (requestedMode = BUILDPACK) then "buildpack explicitly configured"
             else "fallback to Cloud Native Buildpacks/Nixpacks style builder")
            [clone_step rootDirectory;
             JObj [("type", JStr "buildpack-detect"); ("builders", JArr [JStr "paketo"; JStr "herokuish"; JStr "nixpacks-compatible"])];
             JObj [("type", JStr "buildpack-build"); ("cache", JBool true);
                   ("timeoutSeconds", js_or (f "buildTimeoutSeconds") (JNum (NInt 1200)))];
             scan_step; push_step service]
            (runtime_port service None) startCommand JNull).
End Detection.

Close Scope Z_scope.
