(* ===== verification/Manifests.v ===== *)
(** * Compiling a project for the cluster ([packages/core/src/manifest-compiler.ts])

    A project description becomes build plans, resource plans, hostnames and
    Kubernetes manifests: one namespace per tenant, workloads with fixed
    security settings, configuration split into secret and plain parts, and
    network policies.  The description is what the tenant wrote; the options
    of the ingress come from the platform.  Services and resources are objects,
    [spec.services] and [spec.resources] arrays. *)

From Stdlib Require Import QArith.
From S2P Require Import Prelude JsString JsMap JsVal Ids Secrets Accounts Workflows ControlPlane Domains DomainRouter Security ServiceRuntime Catalog EnvInjection SourceDiscovery BuildStrategy.
From stdpp Require Import pretty.

Open Scope Z_scope.

Definition DEFAULT_INGRESS_CUSTOM_HTTP_ERRORS : string := "500,502,503,504".
Definition DEFAULT_INGRESS_GATEWAY_NAMESPACE : string := "ingress-nginx".
Definition PRIVATE_IPV4_EGRESS_EXCEPTIONS : list string := ["10.0.0.0/8"; "100.64.0.0/10"; "169.254.0.0/16"; "172.16.0.0/12"; "192.168.0.0/16"].
Definition PRIVATE_IPV6_EGRESS_EXCEPTIONS : list string := ["::1/128"; "fc00::/7"; "fe80::/10"; "fd00:ec2::254/128"].

Definition WEB : string := "web".
Definition PRIVATE : string := "private".
Definition CRON : string := "cron".
Definition JOB : string := "job".

Definition num (z : Z) : jsval := JNum (NInt z).
Definition texts (l : list string) : jsval := JArr (map JStr l).

(** ** Options of the platform *)

Definition trustedIngressGatewayNamespace (value : jsval) : result string :=
  let namespace := trim (js_String (js_or value (JStr DEFAULT_INGRESS_GATEWAY_NAMESPACE))) in
  _ ← throw_if ((63 <? str_length namespace) || negb (label_pattern namespace))
        (JsError "Error" "invalid ingress gateway namespace: expected a Kubernetes DNS label" None);
  Ok namespace.

Record IngressErrors := mkIngressErrors { ie_disabled : bool; ie_customHttpErrors : string; ie_middleware : string }.

Definition bad_status : jserror :=
  JsError "Error" "invalid ingress custom HTTP errors: expected comma-separated HTTP status codes from 400 through 599" None.

Definition status_code (value : string) : result Z :=
  match chars value with
  | [_; _; _] => match digits_of (chars value) with
                 | Some n => if (n <? 400) || (599 <? n) then Throw bad_status else Ok n
                 | None => Throw bad_status
                 end
  | _ => Throw bad_status
  end.

Fixpoint status_codes (values : list string) : result (list Z) :=
  match values with [] => Ok [] | v :: rest => n ← status_code v; ns ← status_codes rest; Ok (n :: ns) end.

(** [/^[a-z0-9](?:[a-z0-9.-]{0,251}[a-z0-9])?@kubernetescrd$/] *)
Definition TRAEFIK_MIDDLEWARE_PATTERN (s : string) : bool :=
  endsWith s "@kubernetescrd"
  && (let name := take (length (chars s) - 14) (chars s) in
      let inner := fun c => is_lower_alnum c || is_hyphen c || (code c =? 46)%N in
      (1 <=? length name)%nat && (length name <=? 253)%nat && forallb inner name
      && match head name, last name with Some a, Some z => is_lower_alnum a && is_lower_alnum z | _, _ => false end).

Definition trustedIngressErrorOptions (trustedOptions : jsobj) : result IngressErrors :=
  let configured := obj_get "ingressCustomHttpErrors" trustedOptions in
  if match configured with JStr s => bool_decide (toLowerCase (trim s) = "disabled") | _ => false end then Ok (mkIngressErrors true "" "") else
  let raw := match configured with JStr s => if str_empty (trim s) then JStr DEFAULT_INGRESS_CUSTOM_HTTP_ERRORS else configured | _ => configured end in
  let values := match raw with
                | JArr l => map js_String l
                | _ => split_on ","%char (js_String (js_nullish raw (JStr DEFAULT_INGRESS_CUSTOM_HTTP_ERRORS)))
                end in
  statuses ← status_codes (distinct (filter (fun s => s <> "") (map trim values)));
  _ ← throw_if (match statuses with [] => true | _ => false end)
        (JsError "Error" "invalid ingress custom HTTP errors: at least one HTTP status code is required" None);
  let middleware := toLowerCase (trim (js_String (js_nullish (obj_get "ingressErrorMiddleware" trustedOptions) (JStr "")))) in
  _ ← throw_if (negb (str_empty middleware) && negb (TRAEFIK_MIDDLEWARE_PATTERN middleware))
        (JsError "Error" "invalid ingress error middleware: expected <namespace>-<name>@kubernetescrd" None);
  Ok (mkIngressErrors false (JsVal.join "," (map pretty (js_sort Z.leb statuses))) middleware).

(** ** Numbers *)

(** [a > b] *)
Definition num_gt (a b : jsnum) : bool :=
  match a, b with
  | NNaN, _ | _, NNaN => false
  | NInf na, NInf nb => negb na && nb
  | NInf na, _ => negb na
  | _, NInf nb => nb
  | NInt x, NInt y => y <? x
  | NInt x, NFrac _ q => negb (Qle_bool (inject_Z x) q)
  | NFrac _ p, NInt y => negb (Qle_bool p (inject_Z y))
  | NFrac _ p, NFrac _ q => negb (Qle_bool p q)
  end.

Section Compiler.
Context (poolerHost : string) (JSON_parse : string -> option jsval) (localeCompare : string -> string -> comparison) (sha256_hex : string -> string).

(** ** Names *)

Definition kubernetesServiceName (service : jsobj) : string :=
  let f := fun k => obj_get k service in
  boundedDnsLabel sha256_hex (js_or (f "name") (js_or (f "slug") (js_or (f "id") (JStr "service")))) 63
    (js_or (f "id") (js_or (f "name") (f "slug"))).

Definition NUL : string := unchars [chr 0].

Definition derivedServiceObjectName (service : jsobj) (suffix : string) : string :=
  let serviceName := kubernetesServiceName service in
  boundedDnsLabel sha256_hex (JStr (serviceName +:+ "-" +:+ suffix)) 63
    (JStr (js_String (js_or (obj_get "id" service) (JStr serviceName)) +:+ NUL +:+ suffix)).

Definition labelsFor (projectSlug serviceName : string) (type_ : jsval) : jsval :=
  JObj [("app.kubernetes.io/name", JStr serviceName); ("app.kubernetes.io/managed-by", JStr "raibitserver");
        ("raibitserver.io/project", JStr projectSlug); ("raibitserver.io/service", JStr serviceName); ("raibitserver.io/service-type", type_)].

Definition manifest (apiVersion kind : string) (metadata spec : jsval) : jsval :=
  JObj [("apiVersion", JStr apiVersion); ("kind", JStr kind); ("metadata", metadata); ("spec", spec)].

Definition namespaceManifest (namespace projectSlug : string) : jsval :=
  JObj [("apiVersion", JStr "v1"); ("kind", JStr "Namespace");
        ("metadata", JObj [("name", JStr namespace);
                           ("labels", JObj [("raibitserver.io/project", JStr projectSlug); ("pod-security.kubernetes.io/enforce", JStr "restricted")])])].

Definition meta (name namespace : string) (labels : jsval) : jsval := JObj [("name", JStr name); ("namespace", JStr namespace); ("labels", labels)].

(** ** Configuration *)

Definition env_ref (source name key : string) : jsval :=
  JObj [("name", JStr key); ("valueFrom", JObj [(source, JObj [("name", JStr name); ("key", JStr key)])])].

Definition envRefs (plain secret : list (string * string)) (secretName configMapName : string) : list jsval :=
  map (env_ref "configMapKeyRef" configMapName) plain.*1 ++ map (env_ref "secretKeyRef" secretName) secret.*1.

Definition text_data (data : list (string * string)) : jsval := JObj (map (fun kv => (kv.1, JStr kv.2)) data).

Definition hasProviderManagedPlaceholder (data : list (string * string)) : bool := existsb (fun kv => includes kv.2 "provider-managed-") data.

Definition secretManifest (namespace name : string) (labels : jsval) (data : list (string * string)) : jsval :=
  JObj [("apiVersion", JStr "v1"); ("kind", JStr "Secret");
        ("metadata", JObj ([("name", JStr name); ("namespace", JStr namespace); ("labels", labels)]
                           ++ (if hasProviderManagedPlaceholder data
                               then [("annotations", JObj [("raibitserver.io/provider-contract", JStr "not-live-secret")])] else [])));
        ("type", JStr "Opaque"); ("stringData", text_data data)].

Definition configMapManifest (namespace name : string) (labels : jsval) (data : list (string * string)) : jsval :=
  JObj [("apiVersion", JStr "v1"); ("kind", JStr "ConfigMap"); ("metadata", meta name namespace labels); ("data", text_data data)].

(** ** Workloads *)

Definition DEFAULT_POD_SECURITY_CONTEXT : jsval :=
  JObj [("fsGroup", num 10001); ("seccompProfile", JObj [("type", JStr "RuntimeDefault")])].

Definition persistent (service : jsobj) : bool := truthy (obj_get "persistence" service).

Definition resource_amounts (configured : jsval) (cpu_ memory_ storage : string) : jsval :=
  JObj [("cpu", js_or (field "cpu" configured) (JStr cpu_)); ("memory", js_or (field "memory" configured) (JStr memory_));
        ("ephemeral-storage", JStr storage)].

Definition containerFor (service : jsobj) (image : string) (port : jsval) (plain secret : list (string * string)) : result jsval :=
  let f := fun k => obj_get k service in
  probes ← serviceHealthProbes service port;
  Ok (JObj (spread
    [("name", JStr (kubernetesServiceName service)); ("image", JStr image); ("imagePullPolicy", JStr "IfNotPresent");
     ("ports", JArr (if truthy port then [JObj [("name", JStr "http"); ("containerPort", port)]] else []));
     ("env", JArr (envRefs plain secret (derivedServiceObjectName service "env") (derivedServiceObjectName service "config")));
     ("command", js_or (f "command") JUndef); ("args", js_or (f "args") JUndef);
     ("resources", JObj [("requests", resource_amounts (field "requests" (f "resources")) "100m" "128Mi" "64Mi");
                         ("limits", resource_amounts (field "limits" (f "resources")) "500m" "512Mi" "256Mi")]);
     ("volumeMounts", JArr (JObj [("name", JStr "tmp"); ("mountPath", JStr "/tmp")]
                            :: if persistent service then [JObj [("name", JStr "data"); ("mountPath", field "mountPath" (f "persistence"))]] else []));
     ("securityContext", secureContainerDefaults (JObj service))] probes)).

Definition podSpec (service : jsobj) (image : string) (port : jsval) (plain secret : list (string * string)) (restartPolicy : string) : result jsval :=
  container ← containerFor service image port plain secret;
  Ok (JObj ([("securityContext", DEFAULT_POD_SECURITY_CONTEXT); ("restartPolicy", JStr restartPolicy); ("containers", JArr [container]);
             ("volumes", JArr (JObj [("name", JStr "tmp"); ("emptyDir", JObj [("sizeLimit", JStr "128Mi")])]
                :: if persistent service
                   then [JObj [("name", JStr "data"); ("persistentVolumeClaim", JObj [("claimName", JStr (derivedServiceObjectName service "data"))])]]
                   else []))]
            ++ (if persistent service then [("terminationGracePeriodSeconds", num 300)] else [])
            ++ [("automountServiceAccountToken", JBool false)])).

Definition replicas_of (service : jsobj) : jsval :=
  if persistent service then num 1
  else if bool_decide (as_string (obj_get "sleepPolicy" service) = Some "scale-to-zero") then num 0
  else JNum (to_number (js_nullish (field "minReplicas" (obj_get "scaling" service)) (js_nullish (obj_get "replicas" service) (num 1)))).

Definition name_selector (serviceName : string) : jsval := JObj [("app.kubernetes.io/name", JStr serviceName)].

Definition deploymentManifest (namespace : string) (service : jsobj) (labels : jsval) (image : string) (port : jsval) (plain secret : list (string * string)) : result jsval :=
  pod ← podSpec service image port plain secret "Always";
  let serviceName := kubernetesServiceName service in
  Ok (manifest "apps/v1" "Deployment" (meta serviceName namespace labels)
    (JObj [("replicas", replicas_of service); ("selector", JObj [("matchLabels", name_selector serviceName)]);
           ("strategy", if persistent service then JObj [("type", JStr "Recreate")]
                        else JObj [("type", JStr "RollingUpdate"); ("rollingUpdate", JObj [("maxUnavailable", num 0); ("maxSurge", num 1)])]);
           ("template", JObj [("metadata", JObj [("labels", labels);
                                                 ("annotations", JObj [("raibitserver.io/sleep-policy", js_or (obj_get "sleepPolicy" service) (JStr "always-on"))])]);
                              ("spec", pod)])])).

Definition persistentVolumeClaimManifest (namespace : string) (service : jsobj) (labels : jsval) : jsval :=
  manifest "v1" "PersistentVolumeClaim" (meta (derivedServiceObjectName service "data") namespace labels)
    (JObj [("accessModes", texts ["ReadWriteOnce"]);
           ("resources", JObj [("requests", JObj [("storage", JStr (js_String (field "sizeGi" (obj_get "persistence" service)) +:+ "Gi"))])])]).

Definition cronJobManifest (namespace : string) (service : jsobj) (labels : jsval) (image : string) (port : jsval) (plain secret : list (string * string)) : result jsval :=
  let f := fun k => obj_get k service in
  pod ← podSpec service image port plain secret "OnFailure";
  Ok (manifest "batch/v1" "CronJob" (meta (kubernetesServiceName service) namespace labels)
    (JObj [("schedule", js_or (f "schedule") (JStr "0 * * * *")); ("concurrencyPolicy", js_or (f "concurrencyPolicy") (JStr "Forbid"));
           ("successfulJobsHistoryLimit", num 3); ("failedJobsHistoryLimit", num 3);
           ("jobTemplate", JObj [("spec", JObj [("backoffLimit", js_nullish (f "backoffLimit") (num 2));
                                                ("template", JObj [("metadata", JObj [("labels", labels)]); ("spec", pod)])])])])).

Definition jobManifest (namespace : string) (service : jsobj) (labels : jsval) (image : string) (port : jsval) (plain secret : list (string * string)) : result jsval :=
  pod ← podSpec service image port plain secret "Never";
  Ok (manifest "batch/v1" "Job" (meta (kubernetesServiceName service) namespace labels)
    (JObj [("backoffLimit", js_nullish (obj_get "backoffLimit" service) (num 1));
           ("template", JObj [("metadata", JObj [("labels", labels)]); ("spec", pod)])])).

Definition serviceManifest (namespace serviceName : string) (labels port : jsval) : jsval :=
  manifest "v1" "Service" (meta serviceName namespace labels)
    (JObj [("type", JStr "ClusterIP"); ("selector", name_selector serviceName);
           ("ports", JArr [JObj [("name", JStr "http"); ("port", port); ("targetPort", JStr "http")]])]).

Definition ingress_host (service : jsobj) (serviceRouteName organizationSlug projectSlug baseDomain : jsval) : jsval :=
  serviceHostname sha256_hex
    [("organizationSlug", organizationSlug); ("projectSlug", projectSlug); ("serviceName", serviceRouteName);
     ("baseDomain", js_or (obj_get "baseDomain" service) (js_or baseDomain (JStr DEFAULT_DOMAIN)));
     ("customDomain", js_or (obj_get "domain" service) JNull)].

Definition ingressManifest (namespace : string) (service : jsobj) (serviceRouteName organizationSlug projectSlug baseDomain labels port : jsval) (errors : IngressErrors) : jsval :=
  let serviceName := kubernetesServiceName service in
  let host := ingress_host service serviceRouteName organizationSlug projectSlug baseDomain in
  manifest "networking.k8s.io/v1" "Ingress"
    (JObj [("name", JStr serviceName); ("namespace", JStr namespace); ("labels", labels);
           ("annotations", JObj ([("cert-manager.io/cluster-issuer", js_or (obj_get "tlsIssuer" service) (JStr "letsencrypt"))]
              ++ (if ie_disabled errors then [] else [("nginx.ingress.kubernetes.io/custom-http-errors", JStr (ie_customHttpErrors errors))])
              ++ [("traefik.ingress.kubernetes.io/router.entrypoints", JStr "websecure")]
              ++ (if negb (ie_disabled errors) && negb (str_empty (ie_middleware errors))
                  then [("traefik.ingress.kubernetes.io/router.middlewares", JStr (ie_middleware errors))] else [])
              ++ [("raibitserver.io/hostname", host)]))])
    (JObj [("tls", JArr [JObj [("hosts", JArr [host]); ("secretName", JStr (derivedServiceObjectName service "tls"))]]);
           ("rules", JArr [JObj [("host", host);
              ("http", JObj [("paths", JArr [JObj [("path", JStr "/"); ("pathType", JStr "Prefix");
                 ("backend", JObj [("service", JObj [("name", JStr serviceName); ("port", JObj [("number", port)])])])]])])]])]).

Definition hpaManifest (namespace : string) (service : jsobj) (scaling : jsval) : jsval :=
  manifest "autoscaling/v2" "HorizontalPodAutoscaler" (JObj [("name", JStr (derivedServiceObjectName service "hpa")); ("namespace", JStr namespace)])
    (JObj [("scaleTargetRef", JObj [("apiVersion", JStr "apps/v1"); ("kind", JStr "Deployment"); ("name", JStr (kubernetesServiceName service))]);
           ("minReplicas", js_nullish (field "minReplicas" scaling) (num 1)); ("maxReplicas", field "maxReplicas" scaling);
           ("metrics", js_or (field "metrics" scaling)
              (JArr [JObj [("type", JStr "Resource"); ("resource", JObj [("name", JStr "cpu"); ("target", JObj [("type", JStr "Utilization"); ("averageUtilization", num 70)])])]]))]).

Definition pdbManifest (namespace : string) (service : jsobj) (labels availability : jsval) : result jsval :=
  _ ← throw_if (match availability with JNull => true | _ => false end) (JsError "TypeError" "Cannot read properties of null (reading 'minAvailable')" None);
  Ok (manifest "policy/v1" "PodDisruptionBudget" (meta (derivedServiceObjectName service "pdb") namespace labels)
    (JObj [("minAvailable", js_nullish (field "minAvailable" availability) (num 0));
           ("selector", JObj [("matchLabels", name_selector (kubernetesServiceName service))])])).

(** ** One service *)

Record ServiceContext := mkContext {
  cx_namespace : string; cx_projectSlug : string; cx_organizationRouteSlug : jsval; cx_projectRouteSlug : jsval; cx_serviceRouteName : jsval;
  cx_baseDomain : jsval; cx_resources : list jsobj; cx_resourceEnvByName : jsmap jsobj; cx_image : string; cx_ingressErrors : IngressErrors
}.

Definition is_type (type_ : jsval) (s : string) : bool := bool_decide (as_string type_ = Some s).

Definition scales (service : jsobj) : bool :=
  let scaling := obj_get "scaling" service in
  negb (persistent service) && truthy (field "maxReplicas" scaling)
  && num_gt (to_number (field "maxReplicas" scaling)) (to_number (js_or (field "minReplicas" scaling) (num 1))).

Definition configuration (cx : ServiceContext) (service : jsobj) (labels : jsval) (plain secret : list (string * string)) : list jsval :=
  (match secret with [] => [] | _ => [secretManifest (cx_namespace cx) (derivedServiceObjectName service "env") labels secret] end)
  ++ (match plain with [] => [] | _ => [configMapManifest (cx_namespace cx) (derivedServiceObjectName service "config") labels plain] end)
  ++ (if persistent service then [persistentVolumeClaimManifest (cx_namespace cx) service labels] else []).

(** The manifests of a service with its environment split. *)
Definition service_manifests (cx : ServiceContext) (service : jsobj) (plain secret : list (string * string)) : result (list jsval) :=
  let namespace := cx_namespace cx in
  let serviceName := kubernetesServiceName service in
  let type_ := js_or (obj_get "type" service) (JStr WEB) in
  let port := JNum (to_number (js_or (obj_get "port" service) (num DEFAULT_PORT))) in
  let labels := labelsFor (cx_projectSlug cx) serviceName type_ in
  let out := configuration cx service labels plain secret in
  if is_type type_ CRON then cron ← cronJobManifest namespace service labels (cx_image cx) port plain secret; Ok (out ++ [cron])
  else if is_type type_ JOB then job ← jobManifest namespace service labels (cx_image cx) port plain secret; Ok (out ++ [job])
  else
    deployment ← deploymentManifest namespace service labels (cx_image cx) port plain secret;
    pdb ← pdbManifest namespace service labels (obj_get "availability" service);
    Ok (out ++ [deployment]
        ++ (if (is_type type_ WEB || is_type type_ PRIVATE) && truthy port then [serviceManifest namespace serviceName labels port] else [])
        ++ (if is_type type_ WEB
            then [ingressManifest namespace service (cx_serviceRouteName cx) (cx_organizationRouteSlug cx) (cx_projectRouteSlug cx) (cx_baseDomain cx)
                    labels port (cx_ingressErrors cx)] else [])
        ++ (if scales service then [hpaManifest namespace service (obj_get "scaling" service)] else [])
        ++ [pdb]).

Definition compileService (cx : ServiceContext) (service : jsobj) : result (list jsval) :=
  env ← injectResourceEnv poolerHost service (cx_resources cx) (JStr (cx_projectSlug cx)) (cx_resourceEnvByName cx);
  let '(plain, secret) := splitEnvForSecret env in service_manifests cx service plain secret.

(** ** Network policies *)

Definition namespace_peer (name : string) : jsval := JObj [("namespaceSelector", JObj [("matchLabels", JObj [("kubernetes.io/metadata.name", JStr name)])])].

Definition tenantIsolationNetworkPolicy (namespace : string) (services resources : list jsobj) (gateway : string) : jsobj :=
  [("apiVersion", JStr "networking.k8s.io/v1"); ("kind", JStr "NetworkPolicy");
   ("metadata", JObj [("name", JStr "tenant-isolation"); ("namespace", JStr namespace)]);
   ("spec", JObj [("podSelector", JObj []); ("policyTypes", texts ["Ingress"; "Egress"]);
      ("ingress", JArr [JObj [("from", JArr [namespace_peer gateway])]]);
      ("egress", JArr [JObj [("to", JArr [JObj [("namespaceSelector", JObj [("matchLabels", JObj [("kubernetes.io/metadata.name", JStr "kube-system")])]);
                                               ("podSelector", JObj [("matchLabels", JObj [("k8s-app", JStr "kube-dns")])])]]);
                             ("ports", JArr [JObj [("protocol", JStr "UDP"); ("port", num 53)]; JObj [("protocol", JStr "TCP"); ("port", num 53)]])];
                       JObj [("to", JArr [namespace_peer namespace])]])]);
   ("raibitserver", JObj [("ingressFromGatewayOnly", JBool true); ("ingressGatewayNamespace", JStr gateway);
      ("blocksSameNamespaceIngressByDefault", JBool true);
      ("allowsSameNamespaceEgressToServices", texts (map kubernetesServiceName services));
      ("allowsSameNamespaceEgressToResources", texts (map (fun r => slugify_default (obj_get "name" r)) resources));
      ("allowsDnsEgress", JBool true); ("blocksMetadataEndpoint", JBool true); ("blocksControlPlane", JBool true);
      ("blocksCrossProject", JBool true); ("publicEgressServices", JArr [])])].

Definition ip_block (cidr : string) (except : list string) : jsval :=
  JObj [("to", JArr [JObj [("ipBlock", JObj [("cidr", JStr cidr); ("except", texts except)])]])].

Definition servicePublicEgressPolicy (namespace projectSlug : string) (service : jsobj) : jsobj :=
  let serviceName := kubernetesServiceName service in
  [("apiVersion", JStr "networking.k8s.io/v1"); ("kind", JStr "NetworkPolicy");
   ("metadata", meta (derivedServiceObjectName service "public-egress") namespace (labelsFor projectSlug serviceName (JStr "egress-policy")));
   ("spec", JObj [("podSelector", JObj [("matchLabels", name_selector serviceName)]); ("policyTypes", texts ["Egress"]);
      ("egress", JArr [ip_block "0.0.0.0/0" PRIVATE_IPV4_EGRESS_EXCEPTIONS; ip_block "::/0" PRIVATE_IPV6_EGRESS_EXCEPTIONS])]);
   ("raibitserver", JObj [("service", JStr serviceName); ("publicInternetEgress", JBool true); ("scopedToServicePodSelector", JBool true);
      ("ipv4Except", texts PRIVATE_IPV4_EGRESS_EXCEPTIONS); ("ipv6Except", texts PRIVATE_IPV6_EGRESS_EXCEPTIONS)])].

Definition public_egress (service : jsobj) : bool :=
  is_true (obj_get "allowPublicEgress" service) || is_true (obj_get "publicEgress" service)
  || is_true (field "publicInternet" (obj_get "egress" service)).

Definition networkPolicyManifests (namespace projectSlug : string) (services resources : list jsobj) (gateway : string) : list jsval :=
  let base := tenantIsolationNetworkPolicy namespace services resources gateway in
  let publicEgress := map (servicePublicEgressPolicy namespace projectSlug) (List.filter public_egress services) in
  let named := map (fun policy => field "service" (obj_get "raibitserver" policy)) publicEgress in
  let base := map_set "raibitserver" (JObj (map_set "publicEgressServices" (JArr named) (entries (obj_get "raibitserver" base)))) base in
  JObj base :: map JObj publicEgress.

(** ** The project *)

(** [filter(Boolean)] and [trim] of the texts of a value or of an array *)
Definition arrayStrings (value : jsval) : list string :=
  let items := match value with JArr l => l | v => [v] end in
  filter (fun s => s <> "") (map trim (map js_String (List.filter (fun v => match v with JUndef | JNull => false | _ => true end) items))).

Definition imagePrePullList (spec : jsobj) (buildPlans : list BuildPlan) : list string :=
  let f := fun k => obj_get k spec in
  let explicit := arrayStrings (f "prePullImages") ++ arrayStrings (field "prePullImages" (f "performance")) ++ arrayStrings (field "prePullImages" (f "runtime")) in
  let includeBuildOutputs := is_true (field "prePullBuildImages" (f "performance")) || is_true (field "prePullBuildImages" (f "runtime")) in
  take 20 (distinct (filter (fun s => s <> "") (explicit ++ (if includeBuildOutputs then map bp_image buildPlans else [])))).

Definition resourcePlan (resource : jsobj) (namespace projectSlug : string) : result jsval :=
  let f := fun k => obj_get k resource in
  let engine := engine_of resource in
  capabilities ← requireResourceCapability engine "provision" env_local;
  entry ← getCatalogEntry (JStr engine);
  let e := fun k => obj_get k entry in
  Ok (JObj [("name", JStr (slugify_default (f "name"))); ("namespace", JStr namespace); ("project", JStr projectSlug); ("catalogKey", e "key");
            ("displayName", e "displayName"); ("type", e "type"); ("engine", e "engine"); ("version", js_or (f "version") (e "defaultVersion"));
            ("provider", js_or (f "provider") (JStr "hybrid-managed")); ("operator", e "operator"); ("plan", js_or (f "plan") (JStr "shared-small"));
            ("capabilities", capability_json capabilities); ("lifecycle", texts (enabled_operations (cap_local capabilities))); ("env", e "env")]).

Fixpoint collect {A B} (f : A -> result B) (l : list A) : result (list B) :=
  match l with [] => Ok [] | x :: rest => y ← f x; ys ← collect f rest; Ok (y :: ys) end.

Record ProjectPlan := mkPlan {
  pp_organization : jsval; pp_project : string; pp_namespace : string; pp_buildPlans : list BuildPlan; pp_ignoredImages : list string;
  pp_resourcePlans : list jsval; pp_domainPlan : DomainPlan; pp_manifests : list jsval; pp_findings : list (jsval * Finding)
}.

Definition file_map (filesByService : jsobj) (service : jsobj) (serviceName : string) : jsobj :=
  entries (js_or (obj_get (js_String (obj_get "name" service)) filesByService) (js_or (obj_get serviceName filesByService) (JObj []))).

(** What the services of a project share. *)
Definition compile_service (spec filesByService : jsobj) (cx : ServiceContext) (service : jsobj) : result (BuildPlan * list jsval) :=
  _ ← validateServiceRuntime service;
  let serviceName := kubernetesServiceName service in
  let serviceRouteName := js_or (obj_get "slug" service) (js_or (obj_get "name" service) (JStr serviceName)) in
  let fullService := map_set "name" (JStr serviceName)
                       (spread [("projectSlug", JStr (cx_projectSlug cx)); ("registry", obj_get "registry" spec)] service) in
  plan ← resolveBuildStrategy JSON_parse localeCompare sha256_hex fullService (file_map filesByService service serviceName);
  manifests ← compileService (mkContext (cx_namespace cx) (cx_projectSlug cx) (cx_organizationRouteSlug cx) (cx_projectRouteSlug cx) serviceRouteName
                                (cx_baseDomain cx) (cx_resources cx) (cx_resourceEnvByName cx) (bp_image plan) (cx_ingressErrors cx)) fullService;
  Ok (plan, manifests).

Definition compileProject (spec filesByService trustedOptions : jsobj) : result ProjectPlan :=
  let s := fun k => obj_get k spec in
  let organization := js_or (s "organization") (JObj [("slug", js_or (s "organizationSlug") (JStr "default"))]) in
  let project := js_or (s "project") (JObj [("name", js_or (s "name") (JStr "project")); ("slug", js_or (s "slug") (js_or (s "name") (JStr "project")))]) in
  let projectRouteSlug := js_or (field "slug" project) (js_or (field "name" project) (JStr "project")) in
  let organizationRouteSlug := js_or (field "slug" organization) (js_or (field "name" organization) (JStr "org")) in
  let organizationIdentity := js_or (field "id" organization) (js_or (s "organizationId") organizationRouteSlug) in
  let projectIdentity := js_or (field "id" project) (js_or (s "projectId") JNull) in
  let projectSlug := slugify_default (js_or (field "slug" project) (field "name" project)) in
  let baseDomain := js_or (s "baseDomain") (JStr DEFAULT_DOMAIN) in
  gateway ← trustedIngressGatewayNamespace (param "ingressGatewayNamespace" (JStr DEFAULT_INGRESS_GATEWAY_NAMESPACE) trustedOptions);
  errors ← trustedIngressErrorOptions trustedOptions;
  let namespace := tenantProjectLabel sha256_hex organizationIdentity projectRouteSlug
                     (if truthy projectIdentity then JStr (js_String organizationIdentity +:+ NUL +:+ js_String projectIdentity) else JUndef) in
  let services := map entries (array_or_empty (s "services")) in
  let resources := map entries (array_or_empty (s "resources")) in
  resourcePlans ← collect (fun r => resourcePlan r namespace projectSlug) resources;
  envs ← collect (fun r => env ← connectionEnvForResource poolerHost r (JStr projectSlug); Ok (js_String (obj_get "name" r), env)) resources;
  let resourceEnvByName := foldl (fun m kv => map_set kv.1 kv.2 m) [] envs in
  let cx := mkContext namespace projectSlug organizationRouteSlug projectRouteSlug JUndef baseDomain resources resourceEnvByName "" errors in
  compiled ← collect (compile_service spec filesByService cx) services;
  let buildPlans := map fst compiled in
  Ok (mkPlan (js_or (field "slug" organization) (js_or (field "name" organization) (JStr "default"))) projectSlug namespace buildPlans
        (imagePrePullList spec buildPlans) resourcePlans (domainPlanForProject sha256_hex spec)
        (namespaceManifest namespace projectSlug :: concat (map snd compiled) ++ networkPolicyManifests namespace projectSlug services resources gateway)
        (concat (map (fun service => map (fun finding => (obj_get "name" service, finding)) (sr_findings (validateServiceSecurity (JObj service)))) services))).
End Compiler.

Close Scope Z_scope.
