(* ===== verification/ManifestSafety.v ===== *)
(** * Properties of compiled manifests

    Everything a tenant deploys stays in its namespace, runs without
    privileges whatever the tenant asked for, refers only to configuration
    that is deployed with it, and reaches no private network. *)

From Stdlib Require Import QArith.
From S2P Require Import Prelude JsString JsMap JsVal Ids Secrets Accounts Workflows ControlPlane Domains DomainRouter DomainRouterSafety Security ServiceRuntime Catalog EnvInjection SourceDiscovery BuildStrategy Manifests.

Open Scope Z_scope.

(** ** Compilation, step by step *)

Lemma collect_Ok {A B} (f : A -> result B) l ys : collect f l = Ok ys -> Forall2 (fun x y => f x = Ok y) l ys.
Proof.
  revert ys. induction l as [|x l IH]; intros ys; cbn [collect]; [intros [= <-]; constructor|].
  rewrite bind_Ok. intros (y & Hy & H). rewrite bind_Ok in H. destruct H as (zs & Hzs & [= <-]). constructor; [done|by apply IH].
Qed.

Lemma elem_of_concat {A} (x : A) ls : x ∈ concat ls <-> exists l, x ∈ l /\ l ∈ ls.
Proof.
  rewrite list_elem_of_In, in_concat. split; intros (l & H1 & H2); exists l; rewrite !list_elem_of_In in *; tauto.
Qed.

(** The pod of a workload manifest. *)
Definition pod_of (m : jsval) : jsval :=
  match field "kind" m with
  | JStr "CronJob" => field "spec" (field "template" (field "spec" (field "jobTemplate" (field "spec" m))))
  | JStr "Job" | JStr "Deployment" => field "spec" (field "template" (field "spec" m))
  | _ => JUndef
  end.

(** What a container of a tenant may do. *)
Definition hardened (user : Z) : jsval :=
  JObj [("runAsNonRoot", JBool true); ("runAsUser", num user); ("privileged", JBool false); ("allowPrivilegeEscalation", JBool false);
        ("readOnlyRootFilesystem", JBool true); ("capabilities", JObj [("drop", JArr [JStr "ALL"])]);
        ("seccompProfile", JObj [("type", JStr "RuntimeDefault")])].

(** The properties a pod has: none of the host's. *)
Definition POD_KEYS : list string :=
  ["securityContext"; "restartPolicy"; "containers"; "volumes"; "terminationGracePeriodSeconds"; "automountServiceAccountToken"].

Definition tmp_volume : jsval := JObj [("name", JStr "tmp"); ("emptyDir", JObj [("sizeLimit", JStr "128Mi")])].
Definition claim_volume (claim : string) : jsval := JObj [("name", JStr "data"); ("persistentVolumeClaim", JObj [("claimName", JStr claim)])].

Definition limited (container : jsval) : Prop :=
  let limits := field "limits" (field "resources" container) in
  truthy (field "cpu" limits) = true /\ truthy (field "memory" limits) = true /\ truthy (field "ephemeral-storage" limits) = true.

Definition hardened_pod (pod : jsval) : Prop :=
  (forall k, k ∈ obj_keys pod -> k ∈ POD_KEYS)
  /\ field "automountServiceAccountToken" pod = JBool false
  /\ (exists claims, field "volumes" pod = JArr (tmp_volume :: map claim_volume claims))
  /\ exists container user, field "containers" pod = JArr [container] /\ 0 < user
       /\ field "securityContext" container = hardened user /\ limited container.

(** A manifest among [ms] of a kind and name has the key in its data. *)
Definition provides (ms : list jsval) (kind data name key : string) : Prop :=
  exists m, m ∈ ms /\ field "kind" m = JStr kind /\ field "name" (field "metadata" m) = JStr name /\ key ∈ obj_keys (field data m).

Section Compiled.
Context (poolerHost : string) (JSON_parse : string -> option jsval) (localeCompare : string -> string -> comparison) (sha256_hex : string -> string).

Notation compile := (compileProject poolerHost JSON_parse localeCompare sha256_hex).
Notation compile_one := (compile_service poolerHost JSON_parse localeCompare sha256_hex).
Notation service_name := (kubernetesServiceName sha256_hex).

(** Services and resources of a description. *)
Definition spec_services (spec : jsobj) : list jsobj := map entries (array_or_empty (obj_get "services" spec)).

Lemma compile_cases spec files options p : compile spec files options = Ok p ->
  exists gateway cx compiled,
    cx_namespace cx = pp_namespace p /\ (exists a b c, pp_namespace p = tenantProjectLabel sha256_hex a b c)
    /\ Forall2 (fun service out => compile_one spec files cx service = Ok out) (spec_services spec) compiled
    /\ pp_manifests p = namespaceManifest (pp_namespace p) (pp_project p) :: concat (map snd compiled)
                        ++ networkPolicyManifests sha256_hex (pp_namespace p) (pp_project p) (spec_services spec)
                             (map entries (array_or_empty (obj_get "resources" spec))) gateway.
Proof.
  unfold compileProject. rewrite bind_Ok. intros (gateway & _ & H). rewrite bind_Ok in H. destruct H as (errors & _ & H).
  cbv zeta in H. rewrite bind_Ok in H. destruct H as (plans & _ & H). rewrite bind_Ok in H. destruct H as (envs & _ & H).
  rewrite bind_Ok in H. destruct H as (compiled & Hc & [= <-]). apply collect_Ok in Hc. cbn [pp_namespace pp_project pp_manifests].
  eexists gateway, _, compiled. split_and!; [|by do 3 eexists|exact Hc|reflexivity]. reflexivity.
Qed.

(** A property of all manifests from one of each part. *)
Lemma manifests_Forall spec files options p (P : jsval -> Prop) :
  compile spec files options = Ok p ->
  P (namespaceManifest (pp_namespace p) (pp_project p)) ->
  (forall services resources gateway, Forall P (networkPolicyManifests sha256_hex (pp_namespace p) (pp_project p) services resources gateway)) ->
  (forall cx service out, cx_namespace cx = pp_namespace p -> compile_one spec files cx service = Ok out -> Forall P out.2) ->
  Forall P (pp_manifests p).
Proof.
  intros H Hn Hp Hs. destruct (compile_cases _ _ _ _ H) as (gateway & cx & compiled & Hcx & _ & Hall & ->).
  constructor; [done|]. apply Forall_app. split; [|apply Hp]. apply Forall_concat, Forall_forall. intros out Hin.
  apply list_elem_of_fmap in Hin as (res & -> & Hin). apply list_elem_of_lookup in Hin as (i & Hi).
  destruct (Forall2_lookup_r _ _ _ _ _ Hall Hi) as (service & _ & Hrun). by eapply Hs.
Qed.

(** The manifests of a service, and the pod of its workload. *)
Lemma compileService_cases cx service out : compileService poolerHost sha256_hex cx service = Ok out ->
  let ns := cx_namespace cx in
  let type_ := js_or (obj_get "type" service) (JStr WEB) in
  let labels := labelsFor (cx_projectSlug cx) (service_name service) type_ in
  let port := JNum (to_number (js_or (obj_get "port" service) (num DEFAULT_PORT))) in
  exists plain secret workload rest,
    (exists env, injectResourceEnv poolerHost service (cx_resources cx) (JStr (cx_projectSlug cx)) (cx_resourceEnvByName cx) = Ok env
       /\ splitEnvForSecret env = (plain, secret))
    /\ out = configuration sha256_hex cx service labels plain secret ++ workload :: rest
    /\ (cronJobManifest sha256_hex ns service labels (cx_image cx) port plain secret = Ok workload
        \/ jobManifest sha256_hex ns service labels (cx_image cx) port plain secret = Ok workload
        \/ deploymentManifest sha256_hex ns service labels (cx_image cx) port plain secret = Ok workload)
    /\ Forall (fun m => m = serviceManifest ns (service_name service) labels port
                        \/ (exists a b c d, m = ingressManifest sha256_hex ns service a b c d labels port (cx_ingressErrors cx))
                        \/ m = hpaManifest sha256_hex ns service (obj_get "scaling" service)
                        \/ pdbManifest sha256_hex ns service labels (obj_get "availability" service) = Ok m) rest.
Proof.
  intros H ns type_ labels port. unfold compileService in H. rewrite bind_Ok in H. destruct H as (env & He & H).
  destruct (splitEnvForSecret env) as [plain secret] eqn:Es. unfold service_manifests in H. cbv zeta in H. fold ns in H.
  fold type_ in H. fold labels in H. fold port in H. exists plain, secret.
  destruct (is_type type_ CRON); [|destruct (is_type type_ JOB)].
  1-2: rewrite bind_Ok in H; destruct H as (w & Hw & [= <-]); exists w, []; split_and!; [by exists env|done|tauto|constructor].
  rewrite bind_Ok in H. destruct H as (w & Hw & H). rewrite bind_Ok in H. destruct H as (pdb & Hpdb & [= <-]).
  eexists w, _. split_and!; [by exists env|reflexivity|by right; right|].
  apply Forall_app; split; [|apply Forall_app; split; [|apply Forall_app; split]].
  - destruct (_ && _); [|constructor]. constructor; [by left|constructor].
  - destruct (is_type type_ WEB); [|constructor]. constructor; [right; left; by do 4 eexists|constructor].
  - destruct (scales service); [|constructor]. constructor; [by right; right; left|constructor].
  - constructor; [by right; right; right|constructor].
Qed.

Lemma compile_service_run spec files cx service out : compile_one spec files cx service = Ok out ->
  exists cx' full, cx_namespace cx' = cx_namespace cx /\ compileService poolerHost sha256_hex cx' full = Ok out.2.
Proof.
  unfold compile_service. rewrite bind_Ok. intros ([] & _ & H). cbv zeta in H. rewrite bind_Ok in H. destruct H as (plan & _ & H).
  rewrite bind_Ok in H. destruct H as (ms & Hm & [= <-]). eexists _, _. split; [|exact Hm]. reflexivity.
Qed.
(** The workload of a service holds its pod. *)
Lemma workload_pod ns service labels image port plain secret w :
  cronJobManifest sha256_hex ns service labels image port plain secret = Ok w
  \/ jobManifest sha256_hex ns service labels image port plain secret = Ok w
  \/ deploymentManifest sha256_hex ns service labels image port plain secret = Ok w ->
  exists policy pod, podSpec sha256_hex service image port plain secret policy = Ok pod /\ pod_of w = pod
    /\ field "metadata" w = meta (service_name service) ns labels /\ field "kind" w ∈ [JStr "CronJob"; JStr "Job"; JStr "Deployment"].
Proof.
  intros [H|[H|H]]; [unfold cronJobManifest in H; cbv zeta in H|unfold jobManifest in H|unfold deploymentManifest in H];
    rewrite bind_Ok in H; destruct H as (pod & Hp & [= <-]); eexists _, pod; (split_and!; [exact Hp|reflexivity|reflexivity|]); cbn; set_solver.
Qed.

Lemma pdb_is ns service labels availability m : pdbManifest sha256_hex ns service labels availability = Ok m ->
  field "metadata" m = meta (derivedServiceObjectName sha256_hex service "pdb") ns labels /\ field "kind" m = JStr "PodDisruptionBudget".
Proof. unfold pdbManifest. rewrite bind_Ok. intros ([] & _ & [= <-]). done. Qed.

(** ** Namespaces *)

Definition in_namespace (ns : string) (m : jsval) : Prop :=
  field "namespace" (field "metadata" m) = JStr ns
  \/ (field "kind" m = JStr "Namespace" /\ field "name" (field "metadata" m) = JStr ns).

Lemma configuration_namespace cx service labels plain secret :
  Forall (in_namespace (cx_namespace cx)) (configuration sha256_hex cx service labels plain secret).
Proof.
  unfold configuration. apply Forall_app; split; [|apply Forall_app; split].
  - destruct secret as [|kv secret]; constructor; [|constructor]. left. reflexivity.
  - destruct plain; constructor; [by left|constructor].
  - destruct (persistent service); constructor; [by left|constructor].
Qed.

Lemma compiled_namespace cx service out : compileService poolerHost sha256_hex cx service = Ok out -> Forall (in_namespace (cx_namespace cx)) out.
Proof.
  intros (plain & secret & w & rest & _ & -> & Hw & Hrest)%compileService_cases. apply Forall_app; split; [apply configuration_namespace|].
  apply workload_pod in Hw as (policy & pod & _ & _ & Hm & _). constructor; [left; by rewrite Hm|].
  eapply Forall_impl; [exact Hrest|]. intros m [->|[(a & b & c & d & ->)|[->|Hp%pdb_is]]]; left; [done..|]. destruct Hp as [-> _]. done.
Qed.

(** Tenants are separated: the namespace of a compiled project is a DNS
    label of at most 63 characters, and every manifest is that namespace or an
    object in it. *)
Theorem manifests_in_namespace spec files options p :
  (forall s, class_pattern is_lower_hex 64 64 (sha256_hex s) = true) ->
  compileProject poolerHost JSON_parse localeCompare sha256_hex spec files options = Ok p ->
  label_pattern (pp_namespace p) = true /\ (length (chars (pp_namespace p)) <= 63)%nat
  /\ Forall (in_namespace (pp_namespace p)) (pp_manifests p).
Proof.
  intros Hsha H. destruct (compile_cases _ _ _ _ H) as (_ & _ & _ & _ & (a & b & c & Hns) & _).
  destruct (boundedDnsLabel_ok sha256_hex Hsha (JStr (tenantRouteIdentity a b)) 63 c) as [Hl Hlen]; [lia|]. split_and!; [by rewrite Hns|by rewrite Hns|].
  apply (manifests_Forall _ _ _ _ _ H); [by right|..].
  - intros services resources gateway. unfold networkPolicyManifests. cbv zeta. constructor; [by left|].
    apply Forall_forall. intros m (policy & -> & Hin)%list_elem_of_fmap. apply list_elem_of_fmap in Hin as (service & -> & _). by left.
  - intros cx service out <- (cx' & full & <- & Hrun)%compile_service_run. by eapply compiled_namespace.
Qed.
(** ** Hardening *)

Lemma probes_keys service port probes : serviceHealthProbes service port = Ok probes -> forall k, k ∉ ["startupProbe"; "readinessProbe"; "livenessProbe"] -> k ∉ probes.*1.
Proof.
  unfold serviceHealthProbes. destruct (negb _); [intros [= <-] k _; apply not_elem_of_nil|]. rewrite bind_Ok. intros (paths & _ & [= <-]) k Hk. exact Hk.
Qed.

(** The container of a pod, with its own properties. *)
Lemma pod_container service image port plain secret policy pod : podSpec sha256_hex service image port plain secret policy = Ok pod ->
  exists c, field "containers" pod = JArr [c]
    /\ field "env" c = JArr (envRefs plain secret (derivedServiceObjectName sha256_hex service "env") (derivedServiceObjectName sha256_hex service "config"))
    /\ field "securityContext" c = secureContainerDefaults (JObj service)
    /\ field "resources" c = JObj [("requests", resource_amounts (field "requests" (obj_get "resources" service)) "100m" "128Mi" "64Mi");
                                   ("limits", resource_amounts (field "limits" (obj_get "resources" service)) "500m" "512Mi" "256Mi")].
Proof.
  unfold podSpec. rewrite bind_Ok. intros (c & Hc & [= <-]). exists c. split; [reflexivity|].
  unfold containerFor in Hc. cbv zeta in Hc. rewrite bind_Ok in Hc. destruct Hc as (probes & Hp & [= <-]). pose proof (probes_keys _ _ _ Hp) as Hk.
  unfold field. rewrite !obj_get_spread_notin by (apply Hk; apply (bool_decide_unpack _); vm_compute; exact I). split_and!; reflexivity.
Qed.

Lemma pod_shape service image port plain secret policy pod : podSpec sha256_hex service image port plain secret policy = Ok pod ->
  (forall k, k ∈ obj_keys pod -> k ∈ POD_KEYS) /\ field "automountServiceAccountToken" pod = JBool false
  /\ exists more, field "volumes" pod = JArr (tmp_volume :: more)
       /\ more = (if persistent service then [claim_volume (derivedServiceObjectName sha256_hex service "data")] else []).
Proof.
  unfold podSpec. rewrite bind_Ok. intros (c & _ & [= <-]). destruct (persistent service); (split_and!; [|reflexivity|eexists; split; reflexivity]);
    cbn [obj_keys app]; intros k Hk; vm_compute in Hk |- *; set_solver.
Qed.

Lemma secure_context service : exists user, 0 < user /\ secureContainerDefaults service = hardened user.
Proof.
  unfold secureContainerDefaults. destruct (to_number _) as [z| | |]; try (by exists DEFAULT_RUN_AS_USER).
  destruct (Z.ltb_spec 0 z); [by exists z|by exists DEFAULT_RUN_AS_USER].
Qed.

Lemma truthy_or a b : truthy b = true -> truthy (js_or a b) = true.
Proof. unfold js_or. by destruct (truthy a) eqn:E. Qed.

Lemma pod_hardened service image port plain secret policy pod : podSpec sha256_hex service image port plain secret policy = Ok pod -> hardened_pod pod.
Proof.
  intros H. destruct (pod_shape _ _ _ _ _ _ _ H) as (Hk & Ha & more & Hv & Hm). destruct (pod_container _ _ _ _ _ _ _ H) as (c & Hc & _ & Hs & Hr).
  destruct (secure_context (JObj service)) as (user & Hu & Hu'). split_and!; [done|done| |].
  - exists (if persistent service then [derivedServiceObjectName sha256_hex service "data"] else []). rewrite Hv, Hm. by destruct (persistent service).
  - exists c, user. split_and!; [done|done|congruence|]. unfold limited. rewrite Hr. cbv zeta. unfold resource_amounts.
    split_and!; cbn [field obj_get decide]; repeat (rewrite decide_True by done || rewrite decide_False by done); cbn [field obj_get];
      repeat (rewrite decide_True by done || rewrite decide_False by done); [by apply truthy_or|by apply truthy_or|done].
Qed.

Lemma configuration_kinds cx service labels plain secret :
  Forall (fun m => field "kind" m ∈ [JStr "Secret"; JStr "ConfigMap"; JStr "PersistentVolumeClaim"]) (configuration sha256_hex cx service labels plain secret).
Proof.
  unfold configuration. apply Forall_app; split; [|apply Forall_app; split].
  - destruct secret as [|kv secret]; constructor; [|constructor]. left.
  - destruct plain; constructor; [right; left|constructor].
  - destruct (persistent service); constructor; [right; right; left|constructor].
Qed.

(** Where the pods of a project come from: one service each, deployed together
    with its configuration. *)
Lemma service_pod cx service out m : compileService poolerHost sha256_hex cx service = Ok out -> m ∈ out -> pod_of m <> JUndef ->
  exists plain secret labels port policy, podSpec sha256_hex service (cx_image cx) port plain secret policy = Ok (pod_of m)
    /\ configuration sha256_hex cx service labels plain secret ⊆ out.
Proof.
  intros (plain & secret & w & rest & _ & -> & Hw & Hrest)%compileService_cases Hm Hpod. eexists plain, secret, _, _.
  apply workload_pod in Hw as (policy & pod & Hp & Hw & _). exists policy. split; [|by apply list_subseteq_app_l].
  apply elem_of_app in Hm as [Hm|Hm]; [|apply elem_of_cons in Hm as [->|Hm]; [by rewrite Hw|]]; exfalso; apply Hpod; unfold pod_of.
  - pose proof (configuration_kinds cx service) as Hk. eapply Forall_forall in Hm; [|apply Hk].
    repeat (apply elem_of_cons in Hm as [Hm|Hm]; [by rewrite Hm|]). by apply not_elem_of_nil in Hm.
  - rewrite Forall_forall in Hrest. apply Hrest in Hm as [->|[(a & b & c & d & ->)|[->|Hpdb%pdb_is]]]; [done..|]. by rewrite (proj2 Hpdb).
Qed.

Lemma pod_origin spec files options p m :
  compile spec files options = Ok p -> m ∈ pp_manifests p -> pod_of m <> JUndef ->
  exists cx service out, compileService poolerHost sha256_hex cx service = Ok out /\ m ∈ out /\ out ⊆ pp_manifests p.
Proof.
  intros H Hm Hpod. destruct (compile_cases _ _ _ _ H) as (gateway & cx & compiled & _ & _ & Hall & E). rewrite E in Hm |- *.
  apply elem_of_cons in Hm as [->|Hm]; [done|]. apply elem_of_app in Hm as [Hm|Hm].
  - apply elem_of_concat in Hm as (out & Hm & Hin). pose proof Hin as Hout. apply list_elem_of_fmap in Hin as (res & -> & Hin).
    apply list_elem_of_lookup in Hin as (i & Hi). destruct (Forall2_lookup_r _ _ _ _ _ Hall Hi) as (service & _ & Hrun).
    apply compile_service_run in Hrun as (cx' & full & _ & Hrun). exists cx', full, res.2. split_and!; [done|done|].
    intros x Hx. right. apply elem_of_app. left. apply elem_of_concat. by exists res.2.
  - exfalso. apply Hpod. unfold networkPolicyManifests in Hm. cbv zeta in Hm. apply elem_of_cons in Hm as [->|Hm]; [done|].
    apply list_elem_of_fmap in Hm as (policy & -> & Hin). by apply list_elem_of_fmap in Hin as (service & -> & _).
Qed.

(** C5. Workloads are harmless: whatever a tenant writes, every workload of a
    compiled project runs one container as a user other than root, without
    privileges, added capabilities, a writable root file system or a service
    account token, in a pod that shares nothing with its host, mounts only
    its scratch volume and its own claim, and has limits on processor, memory
    and scratch space. *)
Theorem workloads_hardened spec files options p m :
  compileProject poolerHost JSON_parse localeCompare sha256_hex spec files options = Ok p ->
  m ∈ pp_manifests p -> pod_of m <> JUndef -> hardened_pod (pod_of m).
Proof.
  intros H Hm Hpod. destruct (pod_origin _ _ _ _ _ H Hm Hpod) as (cx & service & out & Hrun & Hin & _).
  destruct (service_pod _ _ _ _ Hrun Hin Hpod) as (plain & secret & labels & port & policy & Hp & _). by eapply pod_hardened.
Qed.
(** ** References *)

Lemma configuration_provides cx service labels plain secret :
  (forall key, key ∈ plain.*1 -> provides (configuration sha256_hex cx service labels plain secret) "ConfigMap" "data"
                                   (derivedServiceObjectName sha256_hex service "config") key)
  /\ (forall key, key ∈ secret.*1 -> provides (configuration sha256_hex cx service labels plain secret) "Secret" "stringData"
                                       (derivedServiceObjectName sha256_hex service "env") key).
Proof.
  assert (forall data : list (string * string), obj_keys (text_data data) = data.*1) as Hkeys.
  { intros data. unfold text_data. cbn [obj_keys]. rewrite <- list_fmap_compose. by apply list_fmap_ext. }
  split; intros key Hkey; unfold configuration.
  - destruct plain as [|kv plain]; [by apply not_elem_of_nil in Hkey|]. exists (configMapManifest (cx_namespace cx) (derivedServiceObjectName sha256_hex service "config") labels (kv :: plain)).
    split_and!; [|reflexivity|reflexivity|].
    + apply elem_of_app. right. apply elem_of_app. left. by left.
    + change (key ∈ obj_keys (text_data (kv :: plain))). by rewrite Hkeys.
  - destruct secret as [|kv secret]; [by apply not_elem_of_nil in Hkey|]. exists (secretManifest (cx_namespace cx) (derivedServiceObjectName sha256_hex service "env") labels (kv :: secret)).
    split_and!; [|reflexivity|reflexivity|].
    + apply elem_of_app. left. by left.
    + change (key ∈ obj_keys (text_data (kv :: secret))). by rewrite Hkeys.
Qed.

Lemma provides_mono ms ms' kind data name key : ms ⊆ ms' -> provides ms kind data name key -> provides ms' kind data name key.
Proof. intros Hs (m & Hm & H). exists m. split; [by apply Hs|done]. Qed.

(** C28. Nothing dangles: every variable of a container of a compiled project
    comes from a key of a ConfigMap or Secret that the project deploys too, and
    every claim a pod mounts is deployed. *)
Theorem references_resolve spec files options p m container :
  compileProject poolerHost JSON_parse localeCompare sha256_hex spec files options = Ok p ->
  m ∈ pp_manifests p -> field "containers" (pod_of m) = JArr [container] ->
  (forall ref, ref ∈ items (field "env" container) -> exists name key,
     (ref = env_ref "configMapKeyRef" name key /\ provides (pp_manifests p) "ConfigMap" "data" name key)
     \/ (ref = env_ref "secretKeyRef" name key /\ provides (pp_manifests p) "Secret" "stringData" name key))
  /\ (forall claim, claim_volume claim ∈ items (field "volumes" (pod_of m)) ->
        exists m', m' ∈ pp_manifests p /\ field "kind" m' = JStr "PersistentVolumeClaim" /\ field "name" (field "metadata" m') = JStr claim).
Proof.
  intros H Hm Hc. assert (pod_of m <> JUndef) as Hpod by (intros E; by rewrite E in Hc).
  destruct (pod_origin _ _ _ _ _ H Hm Hpod) as (cx & service & out & Hrun & Hin & Hsub).
  destruct (service_pod _ _ _ _ Hrun Hin Hpod) as (plain & secret & labels & port & policy & Hp & Hconf).
  destruct (configuration_provides cx service labels plain secret) as [Hplain Hsecret]. split.
  - destruct (pod_container _ _ _ _ _ _ _ Hp) as (c & Hc' & He & _). rewrite Hc in Hc'. injection Hc' as <-. rewrite He.
    intros ref [Hr|Hr]%elem_of_app; apply list_elem_of_fmap in Hr as (key & -> & Hkey); eexists _, key; [left|right]; (split; [reflexivity|]).
    + eapply provides_mono; [|by apply Hplain]. by etransitivity.
    + eapply provides_mono; [|by apply Hsecret]. by etransitivity.
  - destruct (pod_shape _ _ _ _ _ _ _ Hp) as (_ & _ & more & Hv & Hmore). rewrite Hv, Hmore. intros claim Hclaim. cbn [items] in Hclaim.
    apply elem_of_cons in Hclaim as [Hclaim|Hclaim]; [done|]. destruct (persistent service) eqn:Eper; [|by apply not_elem_of_nil in Hclaim].
    apply list_elem_of_singleton in Hclaim. injection Hclaim as ->.
    exists (persistentVolumeClaimManifest sha256_hex (cx_namespace cx) service labels). split_and!; [|reflexivity|reflexivity].
    apply Hsub, Hconf. unfold configuration. rewrite Eper. apply elem_of_app. right. apply elem_of_app. right. by left.
Qed.

(** ** Network access *)

(** [a.b.c.d/n]: the address as a number, and the length of the prefix. *)
Definition cidr4 (s : string) : option (Z * Z) :=
  match split_on "/"%char s with
  | [address; prefix] =>
      match map (fun part => digits_of (chars part)) (split_on "."%char address), digits_of (chars prefix) with
      | [Some a; Some b; Some c; Some d], Some n => Some (((a * 256 + b) * 256 + c) * 256 + d, n)
      | _, _ => None
      end
  | _ => None
  end.

Definition within4 (ip : Z) (s : string) : bool :=
  match cidr4 s with Some (base, n) => ip / 2 ^ (32 - n) =? base / 2 ^ (32 - n) | None => false end.

(** The text before and after the first [::] *)
Fixpoint split_gap (l : list ascii) : list ascii * option (list ascii) :=
  match l with
  | ":"%char :: ":"%char :: l' => ([], Some l')
  | c :: l' => let '(before, after) := split_gap l' in (c :: before, after)
  | [] => ([], None)
  end.

(** The groups of four hexadecimal digits in a part of an address *)
Definition groups6 (l : list ascii) : option (list Z) :=
  match l with [] => Some [] | _ => mapM (fun part => nonempty_digits 16 hex_digit part) (split_chars ":"%char l) end.

Definition address6 (l : list ascii) : option Z :=
  let value := fold_left (fun acc g => acc * 65536 + g) in
  match split_gap l with
  | (whole, None) => match groups6 whole with Some gs => if (length gs =? 8)%nat then Some (value gs 0) else None | None => None end
  | (front, Some back) =>
      match groups6 front, groups6 back with
      | Some a, Some b => if (length a + length b <=? 7)%nat then Some (value (a ++ replicate (8 - length a - length b) 0 ++ b) 0) else None
      | _, _ => None
      end
  end.

Definition cidr6 (s : string) : option (Z * Z) :=
  match split_on "/"%char s with
  | [address; prefix] => match address6 (chars address), digits_of (chars prefix) with Some a, Some n => Some (a, n) | _, _ => None end
  | _ => None
  end.

Definition within6 (ip : Z) (s : string) : bool :=
  match cidr6 s with Some (base, n) => ip / 2 ^ (128 - n) =? base / 2 ^ (128 - n) | None => false end.

Inductive Address := ipv4 (ip : Z) | ipv6 (ip : Z).

Definition in_block (address : Address) (s : string) : bool := match address with ipv4 ip => within4 ip s | ipv6 ip => within6 ip s end.

(** An address block without its exceptions. *)
Definition block_admits (address : Address) (block : jsval) : bool :=
  in_block address (js_String (field "cidr" block)) && negb (existsb (fun e => in_block address (js_String e)) (items (field "except" block))).

(** A policy lets its pods reach an address outside of the cluster. *)
Definition admits (policy : jsval) (address : Address) : bool :=
  existsb (fun rule => existsb (fun peer => block_admits address (field "ipBlock" peer)) (items (field "to" rule))) (items (field "egress" (field "spec" policy))).

(** 10/8, 100.64/10, 169.254/16 with the metadata endpoint, 172.16/12 and
    192.168/16; ::1, fc00::/7 with the metadata endpoint fd00:ec2::254, and
    fe80::/10; as intervals. *)
Definition private_address (address : Address) : Prop :=
  match address with
  | ipv4 ip => 167772160 <= ip <= 184549375 \/ 1681915904 <= ip <= 1686110207 \/ 2851995648 <= ip <= 2852061183
      \/ 2886729728 <= ip <= 2887778303 \/ 3232235520 <= ip <= 3232301055
  | ipv6 ip => ip = 1 \/ 64512 * 2 ^ 112 <= ip < 65024 * 2 ^ 112 \/ 65152 * 2 ^ 112 <= ip < 65216 * 2 ^ 112
  end.

Example metadata_addresses : cidr4 "169.254.169.254/32" = Some (2852039166, 32) /\ cidr6 "fd00:ec2::254/128" = Some (64768 * 2 ^ 112 + 3778 * 2 ^ 96 + 596, 128).
Proof. vm_compute. done. Qed.

Lemma private4_excepted ip : private_address (ipv4 ip) -> existsb (within4 ip) PRIVATE_IPV4_EGRESS_EXCEPTIONS = true.
Proof.
  intros H. unfold PRIVATE_IPV4_EGRESS_EXCEPTIONS, within4. cbn [existsb].
  repeat match goal with |- context [cidr4 ?s] => let v := eval vm_compute in (cidr4 s) in change (cidr4 s) with v end. cbv iota beta.
  repeat match goal with |- context [2 ^ (32 - ?n)] => let v := eval vm_compute in (2 ^ (32 - n)) in change (2 ^ (32 - n)) with v end.
  destruct H as [H|[H|[H|[H|H]]]].
  - replace (ip / 16777216) with 10 by (apply (Z.div_unique _ _ _ (ip - 167772160)); lia). done.
  - replace (ip / 4194304) with 401 by (apply (Z.div_unique _ _ _ (ip - 1681915904)); lia). by rewrite !orb_true_r.
  - replace (ip / 65536) with 43518 by (apply (Z.div_unique _ _ _ (ip - 2851995648)); lia). by rewrite !orb_true_r.
  - replace (ip / 1048576) with 2753 by (apply (Z.div_unique _ _ _ (ip - 2886729728)); lia). by rewrite !orb_true_r.
  - replace (ip / 65536) with 49320 by (apply (Z.div_unique _ _ _ (ip - 3232235520)); lia). by rewrite !orb_true_r.
Qed.

Lemma private6_excepted ip : private_address (ipv6 ip) -> existsb (within6 ip) PRIVATE_IPV6_EGRESS_EXCEPTIONS = true.
Proof.
  intros H. unfold PRIVATE_IPV6_EGRESS_EXCEPTIONS, within6. cbn [existsb].
  repeat match goal with |- context [cidr6 ?s] => let v := eval vm_compute in (cidr6 s) in change (cidr6 s) with v end. cbv iota beta.
  destruct H as [->|[H|H]]; [done|..].
  - replace (ip / 2 ^ (128 - 7)) with 126 by (apply (Z.div_unique _ _ _ (ip - 64512 * 2 ^ 112)); lia). by rewrite !orb_true_r.
  - replace (ip / 2 ^ (128 - 10)) with 1018 by (apply (Z.div_unique _ _ _ (ip - 65152 * 2 ^ 112)); lia). by rewrite !orb_true_r.
Qed.

Lemma blocks_private address : private_address address ->
  block_admits address (JObj [("cidr", JStr "0.0.0.0/0"); ("except", texts PRIVATE_IPV4_EGRESS_EXCEPTIONS)]) = false
  /\ block_admits address (JObj [("cidr", JStr "::/0"); ("except", texts PRIVATE_IPV6_EGRESS_EXCEPTIONS)]) = false.
Proof.
  destruct address as [ip|ip]; intros H; [apply private4_excepted in H; split; [|done]|apply private6_excepted in H; split; [done|]];
    unfold block_admits; apply andb_false_iff; right; apply negb_false_iff; exact H.
Qed.

Lemma compiled_kinds cx service out : compileService poolerHost sha256_hex cx service = Ok out -> Forall (fun m => field "kind" m <> JStr "NetworkPolicy") out.
Proof.
  intros (plain & secret & w & rest & _ & -> & Hw & Hrest)%compileService_cases. apply Forall_app; split.
  - unfold configuration. apply Forall_app; split; [by destruct secret; repeat constructor|]. apply Forall_app; split; [by destruct plain; repeat constructor|].
    destruct (persistent service); by repeat constructor.
  - apply workload_pod in Hw as (policy & pod & _ & _ & _ & Hk). constructor; [intros E; rewrite E in Hk; set_solver|].
    eapply Forall_impl; [exact Hrest|]. intros m [->|[(a & b & c & d & ->)|[->|Hp%pdb_is]]]; [done..|]. by destruct Hp as [_ ->].
Qed.

(** C25. Tenants reach no private network: the only policies that let pods reach
    an address outside of the cluster, IPv4 or IPv6, are those of services that
    ask for public access; they select the pods of that service, and no address
    of a private, shared or link-local range, nor a metadata endpoint, is among
    what they admit. *)
Theorem egress_public_only spec files options p m address :
  compileProject poolerHost JSON_parse localeCompare sha256_hex spec files options = Ok p ->
  m ∈ pp_manifests p -> field "kind" m = JStr "NetworkPolicy" -> admits m address = true ->
  (private_address address -> False)
  /\ exists service, service ∈ spec_services spec /\ public_egress service = true
       /\ field "podSelector" (field "spec" m) = JObj [("matchLabels", name_selector (kubernetesServiceName sha256_hex service))].
Proof.
  intros H Hm Hk Ha. destruct (compile_cases _ _ _ _ H) as (gateway & cx & compiled & _ & _ & Hall & Ems). rewrite Ems in Hm. clear Ems H.
  apply elem_of_cons in Hm as [->|Hm]; [done|]. apply elem_of_app in Hm as [Hm|Hm].
  { apply elem_of_concat in Hm as (out & Hm & Hout). apply list_elem_of_fmap in Hout as (res & -> & Hin). apply list_elem_of_lookup in Hin as (i & Hi).
    destruct (Forall2_lookup_r _ _ _ _ _ Hall Hi) as (service & _ & Hrun). apply compile_service_run in Hrun as (cx' & full & _ & Hrun).
    apply compiled_kinds in Hrun. rewrite Forall_forall in Hrun. by apply Hrun in Hm. }
  unfold networkPolicyManifests in Hm. cbv zeta in Hm. apply elem_of_cons in Hm as [->|Hm].
  { exfalso. destruct address; discriminate Ha. }
  apply list_elem_of_fmap in Hm as (policy & -> & Hm). apply list_elem_of_fmap in Hm as (service & -> & Hm).
  apply list_elem_of_In, filter_In in Hm as [Hm Hpub]. rewrite <- list_elem_of_In in Hm. split; [|by exists service].
  intros [H1 H2]%blocks_private. unfold admits in Ha. cbn [items field] in Ha.
  change (block_admits address (JObj [("cidr", JStr "0.0.0.0/0"); ("except", texts PRIVATE_IPV4_EGRESS_EXCEPTIONS)]) || false
          || (block_admits address (JObj [("cidr", JStr "::/0"); ("except", texts PRIVATE_IPV6_EGRESS_EXCEPTIONS)]) || false || false) = true) in Ha.
  rewrite H1, H2 in Ha. discriminate Ha.
Qed.
End Compiled.
