(* ===== verification/ManifestSecrets.v ===== *)
(** * Where the secrets of a tenant end up

    The values of secret variables reach the Secret of their service and no
    other manifest; the credentials of most resources are secret variables. *)

From Stdlib Require Import QArith.
From S2P Require Import Prelude JsString JsMap JsVal Ids Secrets Accounts Redaction Workflows ControlPlane Domains DomainRouter Security ServiceRuntime Catalog EnvInjection SourceDiscovery BuildStrategy Manifests ManifestSafety.

Open Scope Z_scope.

(** ** Objects that differ in some values *)

(** The same keys in the same order, with related values. *)
Definition rows_rel (R : string -> jsval -> jsval -> Prop) (m1 m2 : jsobj) : Prop := Forall2 (fun a b => a.1 = b.1 /\ R a.1 a.2 b.2) m1 m2.

Section Related.
Context (R : string -> jsval -> jsval -> Prop) (R_refl : forall k v, R k v v).

Lemma rel_refl m : rows_rel R m m.
Proof using R_refl. apply Forall_Forall2_diag, Forall_true. by split. Qed.

Lemma rel_set k v1 v2 m1 m2 : R k v1 v2 -> rows_rel R m1 m2 -> rows_rel R (map_set k v1 m1) (map_set k v2 m2).
Proof.
  intros Hv. induction 1 as [|[k1 w1] [k2 w2] l1 l2 [Hk Hw] Hl IH]; [by repeat constructor|]. cbn in Hk, Hw |- *. subst k2.
  case_decide; (constructor; [|done]); split; cbn; by subst.
Qed.

Lemma rel_spread o1 o2 c1 c2 : rows_rel R o1 o2 -> rows_rel R c1 c2 -> rows_rel R (spread o1 c1) (spread o2 c2).
Proof.
  intros Ho Hc. revert o1 o2 Ho. induction Hc as [|[k1 v1] [k2 v2] l1 l2 [Hk Hv] Hl IH]; intros o1 o2 Ho; [done|]. cbn in Hk, Hv. subst k2.
  rewrite !spread_cons. by apply IH, rel_set.
Qed.

Lemma rel_get k m1 m2 : rows_rel R m1 m2 -> option_Forall2 (R k) (map_get k m1) (map_get k m2).
Proof.
  induction 1 as [|[k1 w1] [k2 w2] l1 l2 [Hk Hw] Hl IH]; [constructor|]. cbn in Hk, Hw |- *. subst k2.
  case_decide; [|done]. subst. by constructor.
Qed.
End Related.

(** Environments with the same values where the key is not that of a secret. *)
Definition agree : jsobj -> jsobj -> Prop := rows_rel (fun k a b => isSecretKey k = false -> a = b).

Lemma set_keys (k v1 v2 : string) (m1 m2 : list (string * string)) : m1.*1 = m2.*1 -> (map_set k v1 m1).*1 = (map_set k v2 m2).*1.
Proof.
  intros H. change (map_keys (map_set k v1 m1) = map_keys (map_set k v2 m2)). rewrite !map_keys_set. unfold map_has.
  assert (is_Some (map_get k m1) <-> is_Some (map_get k m2)) as Hs.
  { rewrite <- !not_eq_None_Some, !map_get_None. unfold map_keys. by rewrite H. }
  unfold map_keys. rewrite H. destruct (map_get k m1), (map_get k m2); try done; exfalso.
  - by destruct (proj1 Hs (ex_intro _ _ eq_refl)).
  - by destruct (proj2 Hs (ex_intro _ _ eq_refl)).
Qed.

(** Splitting shows the plain part and the names of the secret part only. *)
Lemma split_agree e1 e2 : agree e1 e2 ->
  (splitEnvForSecret e1).1 = (splitEnvForSecret e2).1 /\ (splitEnvForSecret e1).2.*1 = (splitEnvForSecret e2).2.*1.
Proof.
  unfold splitEnvForSecret. assert (forall p s1 s2, s1.*1 = s2.*1 -> agree e1 e2 ->
    let step := (fun '(plain, secret) '(key, value) => if isSecretKey key then (plain, map_set key (js_String value) secret) else (map_set key (js_String value) plain, secret)) in
    (foldl step (p, s1) e1).1 = (foldl step (p, s2) e2).1 /\ (foldl step (p, s1) e1).2.*1 = (foldl step (p, s2) e2).2.*1) as Hgen; [|by apply Hgen].
  intros p s1 s2 Hs H. revert p s1 s2 Hs. induction H as [|[k1 v1] [k2 v2] l1 l2 [Hk Hv] Hl IH]; intros p s1 s2 Hs; [done|].
  cbn in Hk, Hv. subst k2. cbn [foldl]. destruct (isSecretKey k1); [by apply IH, set_keys|]. rewrite Hv by done. by apply IH.
Qed.

(** ** Services that differ in their environment *)

Definition same_but_env (s1 s2 : jsobj) : Prop := forall k, k <> "environment" -> map_get k s1 = map_get k s2.

Section Blind.
Context (poolerHost : string) (JSON_parse : string -> option jsval) (localeCompare : string -> string -> comparison) (sha256_hex : string -> string).
Context (s1 s2 : jsobj) (Hsame : same_but_env s1 s2).

Lemma blind_get k : k <> "environment" -> obj_get k s1 = obj_get k s2.
Proof using Hsame. intros H. by rewrite !obj_get_map_get, Hsame. Qed.

Lemma blind_has k : k <> "environment" -> hasOwn k s1 = hasOwn k s2.
Proof using Hsame. intros H. unfold hasOwn, map_has. by rewrite Hsame. Qed.

(** What reads single properties of a service reads the same of both. *)
Ltac blind := cbv zeta beta; cbn [field]; rewrite ?blind_get, ?blind_has by done; try reflexivity.

Lemma blind_runtime : validateServiceRuntime s1 = validateServiceRuntime s2.
Proof using Hsame. unfold validateServiceRuntime, validate_persistence, service_type. blind. Qed.

Lemma blind_name : kubernetesServiceName sha256_hex s1 = kubernetesServiceName sha256_hex s2.
Proof using Hsame. unfold kubernetesServiceName. blind. Qed.

Lemma blind_derived suffix : derivedServiceObjectName sha256_hex s1 suffix = derivedServiceObjectName sha256_hex s2 suffix.
Proof using Hsame. unfold derivedServiceObjectName. rewrite blind_name. blind. Qed.

Lemma blind_persistent : persistent s1 = persistent s2.
Proof using Hsame. unfold persistent. blind. Qed.

Lemma blind_own fields r : "environment" ∉ fields -> own_paths fields s1 r = own_paths fields s2 r.
Proof using Hsame.
  revert r. induction fields as [|k rest IH]; intros r; cbn [own_paths]; [done|]. intros [Hk Hr]%not_elem_of_cons.
  rewrite (blind_get k), (blind_has k) by done. destruct (hasOwn k s2); [|by apply IH]. destruct (obj_get k s2); try (destruct (isSafeHealthPath _); [|done]); by apply IH.
Qed.

Lemma blind_alias r : alias_path s1 r = alias_path s2 r.
Proof using Hsame. unfold alias_path. blind. Qed.

Lemma blind_paths : parseHealthPaths s1 = parseHealthPaths s2.
Proof using Hsame.
  unfold parseHealthPaths. rewrite blind_own by (apply (bool_decide_unpack _); vm_compute; exact I).
  rewrite (blind_has "healthCheckPath"), (blind_get "publicHealthPath"), (blind_get "type") by done.
  destruct (own_paths HEALTH_PATH_FIELDS s2 []) as [r|]; [|done]. cbn [mbind result_bind]. by rewrite blind_alias.
Qed.

Lemma blind_probes port : serviceHealthProbes s1 port = serviceHealthProbes s2 port.
Proof using Hsame. unfold serviceHealthProbes. rewrite blind_paths. unfold service_type. by rewrite (blind_get "type"). Qed.

Lemma blind_context : secureContainerDefaults (JObj s1) = secureContainerDefaults (JObj s2).
Proof using Hsame. unfold secureContainerDefaults. blind. Qed.

Lemma blind_build files : resolveBuildStrategy JSON_parse localeCompare sha256_hex s1 files = resolveBuildStrategy JSON_parse localeCompare sha256_hex s2 files.
Proof using Hsame. unfold resolveBuildStrategy, imageFor, runtime_port, push_step. blind. Qed.

Lemma blind_pod image port plain secret policy : podSpec sha256_hex s1 image port plain secret policy = podSpec sha256_hex s2 image port plain secret policy.
Proof using Hsame.
  unfold podSpec, containerFor. rewrite blind_probes, blind_name, blind_persistent, blind_context, !blind_derived. blind.
Qed.

Lemma blind_manifests cx plain secret : service_manifests sha256_hex cx s1 plain secret = service_manifests sha256_hex cx s2 plain secret.
Proof using Hsame.
  unfold service_manifests, configuration, cronJobManifest, jobManifest, deploymentManifest, persistentVolumeClaimManifest, ingressManifest, ingress_host,
    hpaManifest, pdbManifest, scales, replicas_of.
  rewrite !blind_pod, !blind_name, !blind_persistent, !blind_derived. blind.
Qed.
End Blind.

(** ** What is seen without reading Secrets *)

(** Of a Secret its name, its namespace and the names of its entries. *)
Definition seen (m : jsval) : jsval :=
  if bool_decide (as_string (field "kind" m) = Some "Secret")
  then JObj [("kind", JStr "Secret"); ("name", field "name" (field "metadata" m)); ("namespace", field "namespace" (field "metadata" m));
             ("labels", field "labels" (field "metadata" m)); ("keys", texts (obj_keys (field "stringData" m)))]
  else m.

Definition seen_alike (r1 r2 : result (list jsval)) : Prop :=
  match r1, r2 with
  | Ok ms1, Ok ms2 => map seen ms1 = map seen ms2
  | Throw e1, Throw e2 => e1 = e2
  | _, _ => False
  end.

Section Seen.
Context (poolerHost : string) (JSON_parse : string -> option jsval) (localeCompare : string -> string -> comparison) (sha256_hex : string -> string).

Lemma pod_keys service image port plain secret1 secret2 policy : secret1.*1 = secret2.*1 ->
  podSpec sha256_hex service image port plain secret1 policy = podSpec sha256_hex service image port plain secret2 policy.
Proof. intros H. unfold podSpec, containerFor, envRefs. by rewrite H. Qed.

Lemma data_keys (data : list (string * string)) : obj_keys (text_data data) = data.*1.
Proof. unfold text_data. cbn [obj_keys]. rewrite <- list_fmap_compose. by apply list_fmap_ext. Qed.

Lemma configuration_seen cx service labels plain secret1 secret2 : secret1.*1 = secret2.*1 ->
  map seen (configuration sha256_hex cx service labels plain secret1) = map seen (configuration sha256_hex cx service labels plain secret2).
Proof.
  intros H. unfold configuration. rewrite !map_app. f_equal. destruct secret1 as [|kv1 l1], secret2 as [|kv2 l2]; try done. cbn [map].
  f_equal. unfold seen.
  change (JObj [("kind", JStr "Secret"); ("name", JStr (derivedServiceObjectName sha256_hex service "env")); ("namespace", JStr (cx_namespace cx)); ("labels", labels);
                ("keys", texts (obj_keys (text_data (kv1 :: l1))))]
          = JObj [("kind", JStr "Secret"); ("name", JStr (derivedServiceObjectName sha256_hex service "env")); ("namespace", JStr (cx_namespace cx)); ("labels", labels);
                  ("keys", texts (obj_keys (text_data (kv2 :: l2))))]).
  by rewrite !data_keys, H.
Qed.

Lemma manifests_seen cx service plain secret1 secret2 : secret1.*1 = secret2.*1 ->
  seen_alike (service_manifests sha256_hex cx service plain secret1) (service_manifests sha256_hex cx service plain secret2).
Proof.
  intros H. unfold service_manifests. cbv zeta. unfold cronJobManifest, jobManifest, deploymentManifest. cbv zeta. rewrite !(pod_keys _ _ _ _ _ _ _ H).
  destruct (is_type _ CRON); [|destruct (is_type _ JOB)].
  1-2: destruct (podSpec _ _ _ _ _ _ _); [|done]; cbn [seen_alike mbind result_bind]; unfold seen_alike; cbn; rewrite !map_app; f_equal; by apply configuration_seen.
  destruct (podSpec _ _ _ _ _ _ _); [|done]. cbn [mbind result_bind]. destruct (pdbManifest _ _ _ _ _); [|done]. cbn [mbind result_bind seen_alike].
  rewrite !map_app. f_equal. by apply configuration_seen.
Qed.

(** Attached resources are looked up by name, whatever the environment. *)
Lemma inject_agree service1 service2 resources projectSlug byName base1 base2 :
  obj_get "attachedResources" service1 = obj_get "attachedResources" service2 -> agree base1 base2 ->
  match inject_all poolerHost service1 resources projectSlug byName base1, inject_all poolerHost service2 resources projectSlug byName base2 with
  | Ok e1, Ok e2 => agree e1 e2
  | Throw a, Throw b => a = b
  | _, _ => False
  end.
Proof.
  intros Ha. revert base1 base2. induction resources as [|r rest IH]; intros base1 base2 Hb; cbn [inject_all]; [done|].
  unfold attached. rewrite Ha. destruct (match obj_get "attachedResources" service2 with JArr names => _ | _ => true end); [|by apply IH].
  destruct (match map_get _ byName with Some _ => _ | None => _ end) as [env|e]; cbn; [|done]. apply IH, rel_spread; [done|]. by apply rel_refl.
Qed.

(** C21. Secrets stay in Secrets: two services that differ only in the values of
    secret variables compile to the same build plan and to manifests that
    cannot be told apart without reading the data of a Secret, or fail alike. *)
Theorem secret_values_confined spec files cx service e1 e2 :
  agree e1 e2 ->
  match compile_service poolerHost JSON_parse localeCompare sha256_hex spec files cx (map_set "environment" (JObj e1) service),
        compile_service poolerHost JSON_parse localeCompare sha256_hex spec files cx (map_set "environment" (JObj e2) service) with
  | Ok out1, Ok out2 => out1.1 = out2.1 /\ map seen out1.2 = map seen out2.2
  | Throw a, Throw b => a = b
  | _, _ => False
  end.
Proof.
  intros He. set (s1 := map_set "environment" (JObj e1) service). set (s2 := map_set "environment" (JObj e2) service).
  set (R := fun (k : string) (a b : jsval) => a = b \/ (k = "environment" /\ a = JObj e1 /\ b = JObj e2)).
  assert (forall k v, R k v v) as Hrefl by (by left).
  assert (rows_rel R s1 s2) as Hrel by (apply rel_set; [right; done|by apply rel_refl]).
  assert (forall m1 m2, rows_rel R m1 m2 -> same_but_env m1 m2) as Hblind.
  { intros m1 m2 H k Hk. apply (rel_get R k) in H. inversion H as [x y [->|[? _]]| ]; done. }
  pose proof (Hblind _ _ Hrel) as Hs. unfold compile_service. rewrite (blind_runtime s1 s2 Hs), !(blind_name sha256_hex s1 s2 Hs). unfold file_map.
  rewrite !(blind_get s1 s2 Hs) by done. destruct (validateServiceRuntime s2) as [[]|]; [|done]. cbn [mbind result_bind]. cbv zeta.
  set (f1 := map_set "name" _ (spread _ s1)). set (f2 := map_set "name" _ (spread _ s2)).
  assert (rows_rel R f1 f2) as Hf by (apply rel_set; [apply Hrefl|apply rel_spread; [by apply rel_refl|done]]).
  rewrite (blind_build _ _ _ f1 f2 (Hblind _ _ Hf)). destruct (resolveBuildStrategy _ _ _ f2 _) as [plan|]; [|done]. cbn [mbind result_bind].
  unfold compileService, injectResourceEnv. set (cx' := mkContext _ _ _ _ _ _ _ _ _ _).
  assert (agree (entries (obj_get "environment" f1)) (entries (obj_get "environment" f2))) as Henv.
  { rewrite !obj_get_map_get. apply (rel_get R "environment") in Hf. inversion Hf as [x y [->|(_ & -> & ->)] E1 E2|E1 E2]; cbn; [by apply rel_refl|done|constructor]. }
  pose proof (inject_agree f1 f2 (cx_resources cx') (JStr (cx_projectSlug cx')) (cx_resourceEnvByName cx') _ _ (blind_get f1 f2 (Hblind _ _ Hf) "attachedResources" ltac:(done)) Henv) as Hinj.
  destruct (inject_all _ f1 _ _ _ _) as [env1|a], (inject_all _ f2 _ _ _ _) as [env2|b]; try done. cbn [mbind result_bind].
  apply split_agree in Hinj as [Hp Hk]. destruct (splitEnvForSecret env1) as [p1 k1], (splitEnvForSecret env2) as [p2 k2]. cbn in Hp, Hk. subst p2.
  rewrite (blind_manifests sha256_hex f1 f2 (Hblind _ _ Hf)). pose proof (manifests_seen cx' f2 p1 k1 k2 Hk) as Hseen.
  destruct (service_manifests _ cx' f2 p1 k1), (service_manifests _ cx' f2 p1 k2); cbn in Hseen |- *; done.
Qed.
(** ** Credentials of resources *)

Ltac other_keys := cbv zeta beta; rewrite ?obj_get_set_ne by done; try reflexivity.

Lemma engine_password r pw : engine_of (map_set "password" pw r) = engine_of r.
Proof. unfold engine_of. other_keys. Qed.

(** The password is the only part of a connection that changes with it. *)
Lemma connection_other key r pw projectSlug :
  connection_of poolerHost key (map_set "password" pw r) projectSlug
  = let c := connection_of poolerHost key r projectSlug in
    mkConnection (cn_host c) (cn_port c) (cn_username c) (passwordFor (map_set "password" pw r) projectSlug key) (cn_database c) (cn_bucket c) (cn_limit c)
      (cn_prefix c) (cn_placeholder c).
Proof.
  unfold connection_of. cbn [cn_host cn_port cn_username cn_database cn_bucket cn_limit cn_prefix cn_placeholder].
  assert (forall k, k <> "password" -> obj_get k (map_set "password" pw r) = obj_get k r) as E by (intros; by apply obj_get_set_ne).
  assert (uniqueTenantScope (map_set "password" pw r) projectSlug = uniqueTenantScope r projectSlug) as Escope by (unfold uniqueTenantScope; by rewrite !E).
  assert (forall suffix, sharedTenantName (map_set "password" pw r) suffix projectSlug = sharedTenantName r suffix projectSlug) as Eshared
    by (intros; unfold sharedTenantName; by rewrite Escope, !E).
  f_equal.
  - unfold hostFor. by rewrite engine_password, !E.
  - by rewrite E.
  - unfold userFor. by rewrite Eshared, E.
  - unfold databaseFor. by rewrite Eshared, E.
  - by rewrite !E.
  - unfold connectionLimitForResource. by rewrite !E.
  - unfold redisKeyPrefixFor. by rewrite Escope, !E.
  - unfold deterministicProviderPlaceholder. by rewrite !E.
Qed.

Lemma engine_reads key (f g : string -> jsval) c : (forall k, k <> "password" -> f k = g k) -> engine_env key f c = engine_env key g c.
Proof. intros E. destruct c. unfold engine_env. by rewrite !E. Qed.

Lemma agree_same k v m1 m2 : agree m1 m2 -> agree ((k, v) :: m1) ((k, v) :: m2).
Proof. intros H. constructor; [|exact H]. split; [reflexivity|]. intros _. reflexivity. Qed.

Lemma agree_secret k v1 v2 m1 m2 : isSecretKey k = true -> agree m1 m2 -> agree ((k, v1) :: m1) ((k, v2) :: m2).
Proof. intros Hk H. constructor; [|exact H]. split; [reflexivity|]. cbn [fst]. rewrite Hk. intros E. discriminate E. Qed.

Lemma agree_refl m : agree m m.
Proof. apply rel_refl. intros k v _. reflexivity. Qed.

Ltac each_variable := repeat first [apply agree_refl|apply agree_same|apply agree_secret; [vm_compute; reflexivity|]].

(** The variables of an engine, as a function of the password. *)
Lemma engine_password_agree key f host port username p1 p2 database bucket limit prefix placeholder : key ∉ ["mongodb"; "valkey"] ->
  match engine_env key f (mkConnection host port username p1 database bucket limit prefix placeholder),
        engine_env key f (mkConnection host port username p2 database bucket limit prefix placeholder) with
  | Some e1, Some e2 => agree e1 e2
  | None, None => True
  | _, _ => False
  end.
Proof.
  intros [Hm [Hv _]%not_elem_of_cons]%not_elem_of_cons. unfold engine_env.
  rewrite (bool_decide_eq_false_2 (key = "mongodb")), (bool_decide_eq_false_2 (key = "valkey")) by done. cbv zeta.
  destruct (bool_decide (key = "postgresql")); [cbn [app]; each_variable|].
  destruct (bool_decide (key = "mariadb")); [rewrite orb_true_r; cbn [app]; each_variable; apply Forall2_app; each_variable|].
  destruct (bool_decide (key = "mysql")); cbn [orb]; [cbn [app]; each_variable; apply Forall2_app; each_variable|].
  destruct (bool_decide (key = "sqlite")); [each_variable|].
  destruct (bool_decide (key = "redis")); cbn [orb]; [cbn [app]; each_variable|].
  destruct (bool_decide (key = "object-storage")); [each_variable|].
  destruct (bool_decide (key = "vector-db") || bool_decide (key = "qdrant")); [each_variable|].
  destruct (bool_decide (key = "message-queue") || bool_decide (key = "nats")); [each_variable|]. exact I.
Qed.

(** Passwords stay in Secrets: the plain configuration of a service attached
    to a managed resource does not depend on the password of the resource,
    except for MongoDB and Valkey. *)
Theorem password_confined r pw1 pw2 projectSlug env1 env2 :
  connectionEnvForResource poolerHost (map_set "password" pw1 r) projectSlug = Ok env1 ->
  connectionEnvForResource poolerHost (map_set "password" pw2 r) projectSlug = Ok env2 ->
  engine_of r ∉ ["mongodb"; "valkey"] ->
  (splitEnvForSecret env1).1 = (splitEnvForSecret env2).1.
Proof.
  unfold connectionEnvForResource. rewrite !engine_password. destruct (getCatalogEntry _); [|done]. cbn [mbind result_bind].
  assert (forall pw k, k <> "password" -> obj_get k (map_set "password" pw r) = obj_get k r) as E by (intros; by apply obj_get_set_ne).
  rewrite !connection_other, !(engine_reads _ _ _ _ (E _)). intros H1 H2 Hkey. cbv zeta in H1, H2.
  set (p1 := passwordFor (map_set "password" pw1 r) _ _) in H1. set (p2 := passwordFor (map_set "password" pw2 r) _ _) in H2.
  destruct (connection_of poolerHost (engine_of r) r projectSlug) as [h po u p d bu li pre pl].
  pose proof (engine_password_agree (engine_of r) (fun k => obj_get k r) h po u p1 p2 d bu li pre pl Hkey) as H.
  destruct (engine_env _ _ _) as [e1|] in H1, H; [|done]. destruct (engine_env _ _ _) as [e2|] in H2, H; [|done].
  injection H1 as <-. injection H2 as <-. by apply split_agree.
Qed.
End Seen.

Close Scope Z_scope.
