(* ===== verification/ServiceRuntimeSafety.v ===== *)
(** * Properties of runtime settings

    Double arithmetic is close enough to the exact quantities that an accepted
    service never asks for more than its limit; a volume, once there, keeps
    its place. *)

From Stdlib Require Import QArith Lqa.
From S2P Require Import Prelude JsString JsMap JsVal Ids Secrets Accounts Redaction Workflows ControlPlane Deployments ServiceRuntime.

Open Scope Z_scope.

(** ** Rounding *)

Lemma round_even_near n d : 0 < d -> 2 * Z.abs (round_even n d * d - n) <= d.
Proof.
  intros Hd. unfold round_even. cbv zeta. pose proof (Z.div_mod n d ltac:(lia)) as E. pose proof (Z.mod_pos_bound n d Hd) as B.
  set (q := n / d) in *. set (r := n mod d) in *. clearbody q r. subst n.
  destruct (Z.ltb_spec (2 * r) d); [nia|]. destruct (Z.ltb_spec d (2 * r)); [nia|]. destruct (Z.even q); nia.
Qed.

(** [2 ^ l <= a / b] *)
Definition above (l a b : Z) : Prop := (0 <= l -> b * 2 ^ l <= a) /\ (l < 0 -> b <= a * 2 ^ (- l)).

Lemma leading_bit_above a b : 0 < a -> 0 < b -> above (leading_bit a b) a b.
Proof.
  intros Ha Hb. unfold leading_bit, scaled_by. cbv zeta. set (l := Z.log2 a - Z.log2 b). pose proof (Z.log2_spec a Ha) as La. pose proof (Z.log2_spec b Hb) as Lb.
  pose proof (Z.log2_nonneg a). pose proof (Z.log2_nonneg b).
  assert (above (l - 1) a b) as Hlow.
  { unfold above, l. split; intros Hl.
    - apply Z.le_trans with (2 ^ Z.log2 a); [|lia]. replace (2 ^ Z.log2 a) with (2 ^ Z.succ (Z.log2 b) * 2 ^ (Z.log2 a - Z.log2 b - 1)) by (rewrite <- Z.pow_add_r by lia; f_equal; lia).
      apply Z.mul_le_mono_nonneg_r; [|lia]. apply Z.pow_nonneg. lia.
    - apply Z.le_trans with (2 ^ Z.succ (Z.log2 b)); [lia|].
      replace (2 ^ Z.succ (Z.log2 b)) with (2 ^ Z.log2 a * 2 ^ (- (Z.log2 a - Z.log2 b - 1))) by (rewrite <- Z.pow_add_r by lia; f_equal; lia).
      apply Z.mul_le_mono_nonneg_r; [|lia]. apply Z.pow_nonneg. lia. }
  destruct (Z.leb_spec 0 (- l)) as [Hl|Hl].
  - destruct (Z.leb_spec b (a * 2 ^ (- l))); [|done]. split; [|done]. intros Hl'. replace l with 0 in * by lia. cbn in *. lia.
  - destruct (Z.leb_spec (b * 2 ^ (- - l)) a) as [H'|_]; [|done]. rewrite Z.opp_involutive in H'. split; [done|lia].
Qed.

(** The significand has at least 53 bits. *)
Lemma significand_large a b : 0 < a -> 0 < b ->
  let '(n, d) := scaled_by (52 - leading_bit a b) a b in 0 < d /\ d * 2 ^ 52 <= n.
Proof.
  intros Ha Hb. destruct (leading_bit_above a b Ha Hb) as [H1 H2]. set (l := leading_bit a b) in *. clearbody l. unfold scaled_by.
  destruct (Z.leb_spec 0 (52 - l)) as [Hs|Hs]; [split; [done|]|].
  - destruct (Z.le_gt_cases 0 l) as [Hl|Hl].
    + replace (2 ^ 52) with (2 ^ l * 2 ^ (52 - l)) by (rewrite <- Z.pow_add_r by lia; f_equal; lia).
      rewrite Z.mul_assoc. apply Z.mul_le_mono_nonneg_r; [apply Z.pow_nonneg; lia|auto].
    + replace (2 ^ (52 - l)) with (2 ^ (- l) * 2 ^ 52) by (rewrite <- Z.pow_add_r by lia; f_equal; lia).
      rewrite Z.mul_assoc. apply Z.mul_le_mono_nonneg_r; [lia|auto].
  - assert (0 < 2 ^ (- (52 - l))) by (apply Z.pow_pos_nonneg; lia). split; [nia|].
    rewrite <- Z.mul_assoc, <- Z.pow_add_r by lia. replace (- (52 - l) + 52) with l by lia. apply H1. lia.
Qed.

Definition epsilon : Q := 1 # 9007199254740992.

(** The double nearest to a positive number is within half a unit of it. *)
Lemma double_of_close a b : 0 < a -> 0 < b ->
  ((1 - epsilon) * (a # Z.to_pos b) <= double_of a b <= (1 + epsilon) * (a # Z.to_pos b))%Q.
Proof.
  intros Ha Hb. pose proof (significand_large a b Ha Hb) as Hsig. unfold double_of. set (s := 52 - leading_bit a b) in *. clearbody s.
  unfold scaled_by in *. change (2 ^ 52) with 4503599627370496 in Hsig.
  destruct (Z.leb_spec 0 s) as [Hs|Hs]; destruct Hsig as [Hd Hsig].
  - assert (0 < 2 ^ s) as Hpow by (apply Z.pow_pos_nonneg; lia). pose proof (round_even_near (a * 2 ^ s) b Hb) as Hr. cbv zeta.
    set (m := round_even _ _) in *. clearbody m. set (w := 2 ^ s) in *. clearbody w. unfold Qle, Qmult, Qminus, Qplus, Qopp, epsilon. cbn [Qnum Qden].
    rewrite !Pos2Z.inj_mul, !Z2Pos.id by lia. split; nia.
  - assert (0 < 2 ^ (- s)) as Hpow by (apply Z.pow_pos_nonneg; lia). pose proof (round_even_near a (b * 2 ^ (- s)) Hd) as Hr. cbv zeta.
    set (m := round_even _ _) in *. clearbody m. set (w := 2 ^ (- s)) in *. clearbody w. unfold Qle, Qmult, Qminus, Qplus, Qopp, epsilon, inject_Z. cbn [Qnum Qden].
    rewrite !Pos2Z.inj_mul, !Z2Pos.id by lia. split; nia.
Qed.

(** ** Millicores *)

(** [Number(value) * 1000] is the exact number of thousandths, but for two
    roundings. *)
Lemma times_thousand_close n : 0 < n -> ((1 - 3 * epsilon) * inject_Z n <= times_thousand n <= (1 + 3 * epsilon) * inject_Z n)%Q.
Proof.
  intros Hn. unfold times_thousand. destruct (Z.eqb_spec n 0); [lia|]. cbv zeta. destruct (double_of_close n 1000 Hn ltac:(lia)) as [Hlow Hhigh].
  set (x := double_of n 1000) in *. clearbody x. change (Z.to_pos 1000) with 1000%positive in *.
  assert ((n # 1000) == inject_Z n * (1 # 1000))%Q as E by (unfold Qeq, Qmult, inject_Z; cbn [Qnum Qden]; lia). rewrite E in Hlow, Hhigh. clear E.
  assert (0 < inject_Z n)%Q as Hq by (unfold Qlt, inject_Z; cbn [Qnum Qden]; lia). set (q := inject_Z n) in *. clearbody q. unfold epsilon in *.
  assert (0 < x * 1000)%Q as Hx by nra. destruct x as [a b]. unfold double_of_Q.
  assert (0 < Qnum ((a # b) * 1000)) as Ha by (unfold Qlt in Hx; cbn [Qnum Qden] in *; lia).
  destruct (double_of_close (Qnum ((a # b) * 1000)) (Zpos (Qden ((a # b) * 1000))) Ha ltac:(lia)) as [Hlow2 Hhigh2]. unfold epsilon in *.
  change (Z.to_pos (Z.pos ?p)) with p in *. set (y := double_of _ _) in *. clearbody y. set (x := (a # b)%Q) in *.
  change (Qnum (x * 1000) # Qden (x * 1000))%Q with (x * 1000)%Q in *. clearbody x. split; nra.
Qed.

Lemma digits_at_least acc l n : 0 <= acc -> digits_value 10 dec_digit acc l = Some n -> acc <= n.
Proof.
  revert acc. induction l as [|c l IH]; intros acc Ha H; cbn [digits_value] in H; [injection H as <-; lia|].
  unfold dec_digit in H. destruct (is_digit c) eqn:Hc; [|done]. unfold is_digit, in_range in Hc. apply andb_true_iff in Hc as [Hc%N.leb_le _].
  apply IH in H; lia.
Qed.

Lemma digits_nonneg l n : digits_of l = Some n -> 0 <= n.
Proof. unfold digits_of, nonempty_digits. destruct l as [|c l]; [done|]. apply digits_at_least. lia. Qed.

Lemma positive_digits_pos l n : positive_digits l = Some n -> 1 <= n.
Proof.
  intros H. assert (exists c l', l = c :: l' /\ c <> "0"%char /\ digits_of l = Some n) as (c & l' & -> & Hc & Hd).
  { unfold positive_digits in H. destruct l as [|c l]; [done|]. exists c, l. split; [done|]. split; [intros ->; done|].
    destruct c as [b1 b2 b3 b4 b5 b6 b7 b8]. by destruct b1, b2, b3, b4, b5, b6, b7, b8. }
  unfold digits_of, nonempty_digits in Hd. cbn [digits_value] in Hd. destruct (dec_digit c) as [d|] eqn:E; [|done].
  unfold dec_digit in E. destruct (is_digit c) eqn:Hr; [|done]. injection E as <-. unfold is_digit, in_range in Hr. apply andb_true_iff in Hr as [Hr%N.leb_le _].
  assert (code c <> 48%N) by (intros E; apply Hc; by rewrite <- (ascii_N_embedding c), <- (ascii_N_embedding "0"%char); unfold code in E; rewrite E).
  apply digits_at_least in Hd; lia.
Qed.

(** The exact amount a quantity stands for, in thousandths of a core. *)
Definition millicores (s : string) : option Z :=
  let l := chars s in
  match last l with
  | Some "m"%char => positive_digits (take (length l - 1) l)
  | _ => thousandths l
  end.

Lemma thousandths_nonneg l n : thousandths l = Some n -> 0 <= n.
Proof.
  unfold thousandths. destruct (break_at _ l) as [whole fraction].
  set (units := match whole with ["0"%char] => Some 0 | _ => positive_digits whole end).
  assert (forall u, units = Some u -> 0 <= u) as Hu.
  { intros u Hu. assert (u = 0 \/ positive_digits whole = Some u) as [->|Hp%positive_digits_pos]; [|lia|lia]. unfold units in Hu. clear -Hu.
    destruct whole as [|c [|c' w]]; [by right| |]; destruct c as [b1 b2 b3 b4 b5 b6 b7 b8]; destruct b1, b2, b3, b4, b5, b6, b7, b8; try (by right); left; congruence. }
  clearbody units. destruct units as [u|]; [|done]. specialize (Hu u eq_refl). destruct fraction as [f|]; [|intros [= <-]; lia].
  destruct (length f <=? 3)%nat; [|done]. destruct (digits_of f) as [d|] eqn:Hd; [|done]. apply digits_nonneg in Hd. intros [= <-].
  assert (0 <= 10 ^ (3 - Z.of_nat (length f))) by (apply Z.pow_nonneg; lia). nia.
Qed.

(** An accepted quantity is within half a millicore of the exact one, which is
    within the limits of the platform. *)
Lemma cpu_exact v r : cpu v = Ok r ->
  exists s n, v = JStr s /\ millicores s = Some n /\ 1 <= n <= 8000 /\ (inject_Z n - (1 # 2) < r < inject_Z n + (1 # 2))%Q.
Proof.
  unfold cpu. destruct v as [| | | |s| |]; try done. intros H.
  assert (cpu_value s = Some r /\ (0 < r)%Q /\ (r <= 8000)%Q) as (Hv & Hpos & Hmax).
  { destruct (cpu_value s) as [q|]; [|done]. destruct (Qle_bool q 0) eqn:E0; [done|]. destruct (Qle_bool q 8000) eqn:E1; [|done]. injection H as ->.
    split; [done|]. split; [|by apply Qle_bool_iff]. apply Qnot_le_lt. intros E. apply Qle_bool_iff in E. congruence. }
  clear H. exists s. assert (exists n, millicores s = Some n /\ 0 <= n /\ (r = inject_Z n \/ r = times_thousand n)) as (n & Hn & Hn0 & Hr).
  { unfold cpu_value, millicores in *. set (c := last (chars s)) in *. clearbody c.
    assert (forall k, positive_digits (take (length (chars s) - 1) (chars s)) = Some k -> 0 <= k) as Hp by (intros k Hk%positive_digits_pos; lia).
    assert (forall o, inject_Z <$> o = Some r -> (forall k, o = Some k -> 0 <= k) -> exists n, o = Some n /\ 0 <= n /\ (r = inject_Z n \/ r = times_thousand n)) as A1
      by (intros [k|] [=] Hk; exists k; auto).
    assert (times_thousand <$> thousandths (chars s) = Some r -> exists n, thousandths (chars s) = Some n /\ 0 <= n /\ (r = inject_Z n \/ r = times_thousand n)) as A2.
    { pose proof (thousandths_nonneg (chars s)) as Ht. destruct (thousandths (chars s)) as [k|]; intros [=]. exists k. auto. }
    destruct c as [[b1 b2 b3 b4 b5 b6 b7 b8]|]; [|by apply A2]. destruct b1, b2, b3, b4, b5, b6, b7, b8; try (by apply A2); by apply A1. }
  exists n. split; [done|]. split; [done|]. assert (0 < n) as Hn1.
  { destruct (Z.eq_dec n 0) as [->|]; [|lia]. exfalso. destruct Hr as [->| ->]; done. }
  assert (((1 - 3 * epsilon) * inject_Z n <= r <= (1 + 3 * epsilon) * inject_Z n)%Q) as [Hl Hh].
  { destruct Hr as [->| ->]; [|by apply times_thousand_close]. assert (0 < inject_Z n)%Q as Hq by (unfold Qlt, inject_Z; cbn [Qnum Qden]; lia).
    set (q := inject_Z n) in *. clearbody q. unfold epsilon. split; nra. }
  assert (n <= 8000) as Hn2.
  { apply Z.lt_succ_r. rewrite Zlt_Qlt in Hn1 |- *. unfold epsilon in *. change (inject_Z (Z.succ 8000)) with (8001%Q). change (inject_Z 0) with 0%Q in Hn1.
    set (q := inject_Z n) in *. clearbody q. nra. }
  split; [lia|]. rewrite Zlt_Qlt in Hn1. rewrite Zle_Qle in Hn2. unfold epsilon in *. change (inject_Z 8000) with 8000%Q in Hn2. change (inject_Z 0) with 0%Q in Hn1.
  set (q := inject_Z n) in *. clearbody q. split; nra.
Qed.

Lemma memory_exact v n : memory v = Ok n -> 1 <= n <= 16384.
Proof.
  unfold memory. destruct v as [| | | |s| |]; try done. cbv zeta.
  destruct (if endsWith s "Mi" then Some 1 else if endsWith s "Gi" then Some 1024 else None) as [f|] eqn:Hf; [|done].
  destruct (positive_digits _) as [k|] eqn:Hk; [|done]. apply positive_digits_pos in Hk. destruct (Z.ltb_spec 16384 (k * f)); [done|]. intros [= <-].
  assert (f = 1 \/ f = 1024) by (destruct (endsWith s "Mi"), (endsWith s "Gi"); naive_solver). lia.
Qed.

(** ** Validation *)

(** What an amount of resources of a service is when it is not given. *)
Definition asked (service : jsobj) (group key fallback : string) : jsval := quantity (entries (obj_get "resources" service)) group key fallback.

(** C30. Requests and limits: an accepted service asks for at least one millicore
    and one mebibyte, for no more than its own limits, and its limits are at
    most eight cores and 16 GiB, whatever rounding [Number(value) * 1000]
    does. *)
Theorem runtime_within_limits service :
  validateServiceRuntime service = Ok tt -> obj_get "resources" service <> JUndef ->
  exists requested limit requested_memory memory_limit,
    (match asked service "requests" "cpu" "100m" with JStr s => millicores s | _ => None end) = Some requested
    /\ (match asked service "limits" "cpu" "500m" with JStr s => millicores s | _ => None end) = Some limit
    /\ memory (asked service "requests" "memory" "128Mi") = Ok requested_memory /\ memory (asked service "limits" "memory" "512Mi") = Ok memory_limit
    /\ 1 <= requested <= limit /\ limit <= 8000 /\ 1 <= requested_memory <= memory_limit /\ memory_limit <= 16384.
Proof.
  unfold validateServiceRuntime, validate_resources, asked. intros (u & H & _)%bind_Ok Hdef. destruct (obj_get "resources" service) as [| | | | | |fs]; try done.
  cbn [record mbind result_bind entries] in *. apply bind_Ok in H as (? & _ & H). apply bind_Ok in H as (? & _ & H). apply bind_Ok in H as (? & _ & H).
  apply bind_Ok in H as (r & Hr & H). apply bind_Ok in H as (l & Hl & H). apply bind_Ok in H as (? & Hle & H). apply throw_if_Ok in Hle.
  apply bind_Ok in H as (rm & Hrm & H). apply bind_Ok in H as (lm & Hlm & H). apply throw_if_Ok in H.
  apply negb_false_iff, Qle_bool_iff in Hle. apply Z.ltb_ge in H. apply cpu_exact in Hr as (s1 & n1 & -> & E1 & B1 & C1). apply cpu_exact in Hl as (s2 & n2 & -> & E2 & B2 & C2).
  exists n1, n2, rm, lm. pose proof (memory_exact _ _ Hrm). pose proof (memory_exact _ _ Hlm). split; [done|]. split; [done|]. split; [done|]. split; [done|].
  assert (n1 < n2 + 1); [|lia]. rewrite Zlt_Qlt, inject_Z_plus. change (inject_Z 1) with 1%Q. lra.
Qed.

(** A volume is of a bounded size, under [/data], with one replica. *)
Lemma persistence_bounded service : validateServiceRuntime service = Ok tt -> truthy (obj_get "persistence" service) = true ->
  exists size path, field "sizeGi" (obj_get "persistence" service) = JNum (NInt size) /\ 1 <= size <= 100
    /\ field "mountPath" (obj_get "persistence" service) = JStr path /\ data_path path = true.
Proof.
  unfold validateServiceRuntime, validate_persistence. intros (u & _ & H)%bind_Ok Ht. destruct (obj_get "persistence" service) as [| | | | | |fs]; try done.
  cbn [record mbind result_bind field] in *. apply bind_Ok in H as (? & _ & H). apply bind_Ok in H as (? & Hs%throw_if_Ok & H).
  apply bind_Ok in H as (? & Hp%throw_if_Ok & _). destruct (obj_get "sizeGi" fs) as [| | |[size| | |]| | |]; try done. destruct (obj_get "mountPath" fs) as [| | | |path| |]; try done.
  cbn in Hs, Hp. apply orb_false_iff in Hs as [Hs1%Z.ltb_ge Hs2%Z.ltb_ge]. apply orb_false_iff in Hp as [_ Hp%negb_false_iff]. exists size, path. done.
Qed.

(** Volumes stay where they are: an update that is accepted for a service
    with stored data leaves the size and the path of the volume and the name of
    the service, which are those of the claim that holds the data. *)
Theorem volume_kept current updates :
  validateServiceRuntimeUpdate current updates = Ok tt ->
  let previous := spread (overlay current) current in
  let next := spread (spread previous (overlay updates)) updates in
  truthy (obj_get "persistence" previous) = true ->
  exists size path,
    field "sizeGi" (obj_get "persistence" previous) = JNum (NInt size) /\ field "sizeGi" (obj_get "persistence" next) = JNum (NInt size) /\ 1 <= size <= 100
    /\ field "mountPath" (obj_get "persistence" previous) = JStr path /\ field "mountPath" (obj_get "persistence" next) = JStr path /\ data_path path = true
    /\ obj_get "name" next = obj_get "name" previous /\ obj_get "slug" next = obj_get "slug" previous.
Proof.
  intros H previous next Hp. unfold validateServiceRuntimeUpdate in H. fold previous in H. cbv zeta in H. fold next in H. clearbody previous next.
  set (merged := match obj_get "resources" next with JObj _ => _ | _ => next end) in H.
  assert (forall k, k <> "resources" -> obj_get k merged = obj_get k next) as E by (intros k Hk; unfold merged; destruct (obj_get "resources" next); try done; by apply obj_get_set_ne).
  clearbody merged. apply bind_Ok in H as ([] & Hv & H%throw_if_Ok). rewrite Hp in H. cbn [andb] in H.
  repeat (apply orb_false_iff in H as [H ?%negb_false_iff]). apply negb_false_iff in H.
  rewrite !E in * by done. destruct (persistence_bounded _ Hv) as (size & path & Hsize & Hb & Hpath & Hdata); [by rewrite E|]. rewrite E in Hsize, Hpath by done.
  rewrite Hsize, Hpath in *. repeat match goal with X : bool_decide _ = true |- _ => apply bool_decide_eq_true_1 in X end.
  assert (forall a b, same_text a b = true -> a = b) as Hsame by (intros [| | | | | |] [| | | | | |] X; try done; cbn in X; apply bool_decide_eq_true_1 in X; by subst).
  exists size, path. repeat split; eauto; try lia.
  - destruct (field "sizeGi" (obj_get "persistence" previous)) as [| | |[]| | |]; try done. cbn in *. congruence.
  - destruct (field "mountPath" (obj_get "persistence" previous)) as [| | | | | |]; try done. cbn in *. congruence.
Qed.

Close Scope Z_scope.
