(* ===== verification/BuildSafety.v ===== *)
(** * Properties of source discovery and build plans

    No path a tenant writes leads a build out of the checkout, and files that
    hold secrets have no influence on it. *)

From S2P Require Import Prelude JsString JsMap JsVal Ids Secrets Workflows ControlPlane DomainRouter SourceDiscovery BuildStrategy.

Lemma str_app_assoc (a b c : string) : (a +:+ b) +:+ c = a +:+ (b +:+ c).
Proof. rewrite <- (unchars_chars ((a +:+ b) +:+ c)), <- (unchars_chars (a +:+ (b +:+ c))), !chars_app. by rewrite <- app_assoc. Qed.

Lemma str_app_nil (a : string) : a +:+ "" = a.
Proof. rewrite <- (unchars_chars (a +:+ "")), chars_app, app_nil_r. apply unchars_chars. Qed.

(** ** Paths inside the checkout *)

Definition descending (s : string) : Prop := s ∉ [""; "."; ".."].

(** The checkout itself or a descent from it. *)
Definition inside (path : string) : Prop := path = "." \/ Forall descending (segments_of path).

Definition slashless (s : string) : Prop := slash ∉ chars s.

Lemma segments_path l : l <> [] -> Forall slashless l -> segments_of (path_of l) = l.
Proof.
  intros Hl H. induction H as [|s l Hs Hall IH]; [done|]. destruct l as [|t l]; [by apply split_on_none|].
  transitivity (s :: segments_of (path_of (t :: l))); [by apply (split_on_sep slash s (path_of (t :: l)))|]. by rewrite IH.
Qed.

(** The first segment of a path that starts with a given one. *)
Lemma segments_starting p path : slashless p -> startsWith path (p +:+ "/") = true -> head (segments_of path) = Some p.
Proof.
  intros Hp [t ->]%startsWith_spec. unfold segments_of. rewrite str_app_assoc, (split_on_sep slash p t Hp : split_on slash (p +:+ "/" +:+ t) = _). done.
Qed.

(** ** Normal forms *)

(** Kept segments, last first: no empty or dot segment, dots only at the
    bottom. *)
Inductive stack : list string -> Prop :=
| stack_dots n : stack (replicate n "..")
| stack_push s l : descending s -> stack l -> stack (s :: l).

Lemma push_stack allow l s : stack l -> stack (push_segment allow l s).
Proof.
  intros H. unfold push_segment. destruct (decide (s = "")) as [->|H1]; [done|]. destruct (decide (s = ".")) as [->|H2]; [done|].
  rewrite (bool_decide_false (s = "")), (bool_decide_false (s = ".")) by done. cbn [orb]. destruct (decide (s = "..")) as [->|H3].
  - rewrite bool_decide_true by done. destruct H as [[|n]|t l Ht Hl].
    + destruct allow; [apply (stack_dots 1)|apply (stack_dots 0)].
    + cbn [replicate]. destruct allow; [apply (stack_dots (S (S n)))|apply (stack_dots (S n))].
    + rewrite bool_decide_false; [done|]. intros ->. by apply Ht; set_solver.
  - rewrite bool_decide_false by done. constructor; [|done]. unfold descending. set_solver.
Qed.

Lemma push_slashless allow l s : slashless s -> Forall slashless l -> Forall slashless (push_segment allow l s).
Proof.
  intros Hs H. unfold push_segment. destruct (_ || _); [done|]. destruct (bool_decide _); [|by constructor].
  destruct H as [|t l Ht Hl]; [destruct allow; by repeat constructor|]. destruct (bool_decide _); [destruct allow|]; by repeat constructor.
Qed.

Lemma normalized_stack allow path :
  stack (rev (normalized_segments allow path)) /\ Forall slashless (normalized_segments allow path).
Proof.
  unfold normalized_segments. rewrite rev_involutive. assert (forall segs l, Forall slashless segs -> stack l -> Forall slashless l ->
    stack (foldl (push_segment allow) l segs) /\ Forall slashless (foldl (push_segment allow) l segs)) as Hgen.
  { intros segs. induction segs as [|s segs IH]; intros l Hsegs Hl Hc; [done|]. apply Forall_cons in Hsegs as [Hs Hsegs].
    apply IH; [done|by apply push_stack|by apply push_slashless]. }
  destruct (Hgen (segments_of path) []) as [H1 H2]; [apply split_on_clean|apply (stack_dots 0)|constructor|]. split; [done|by apply Forall_rev].
Qed.

(** A stack that does not begin with dots has none. *)
Lemma stack_plain l : stack l -> last l <> Some ".." -> Forall descending l.
Proof.
  induction 1 as [n|s l Hs Hl IH]; intros Hlast.
  - destruct n as [|n]; [constructor|]. rewrite replicate_S_end, last_snoc in Hlast. done.
  - constructor; [done|]. apply IH. destruct l; [done|]. exact Hlast.
Qed.

Lemma stack_real l : stack l -> Forall (fun s => s <> "" /\ s <> ".") l.
Proof.
  induction 1 as [n|s l Hs Hl IH]; [by apply Forall_replicate|]. constructor; [|done]. unfold descending in Hs. set_solver.
Qed.

Lemma path_slash l : l <> [] -> path_of l +:+ "/" = path_of (l ++ [""]).
Proof.
  intros Hl. induction l as [|s l IH]; [done|]. destruct l as [|t l]; [done|].
  change (path_of (s :: t :: l)) with (s +:+ "/" +:+ path_of (t :: l)). change (path_of ((s :: t :: l) ++ [""])) with (s +:+ "/" +:+ path_of ((t :: l) ++ [""])).
  by rewrite <- IH, !str_app_assoc.
Qed.

Section Normal.
Context (segs : list string) (Hne : segs <> []) (Hstack : stack (rev segs)) (Hclean : Forall slashless segs).

Lemma path_segments : segments_of (path_of segs) = segs.
Proof using Hne Hstack Hclean. by apply segments_path. Qed.

Lemma real_segments : Forall (fun s => s <> "" /\ s <> ".") segs.
Proof using Hne Hstack Hclean. apply stack_real in Hstack. rewrite <- (rev_involutive segs). by apply Forall_rev. Qed.

Lemma slash_segments : segments_of (path_of segs +:+ "/") = segs ++ [""].
Proof using Hne Hstack Hclean.
  rewrite path_slash by done. apply segments_path; [by destruct segs|]. apply Forall_app. split; [done|]. repeat constructor. apply not_elem_of_nil.
Qed.

Lemma no_dot_slash tail : tail = "" \/ tail = "/" -> drop_dot_slash (path_of segs +:+ tail) = path_of segs +:+ tail.
Proof using Hne Hstack Hclean.
  intros Ht. unfold drop_dot_slash. destruct (startsWith _ "./") eqn:E; [|done]. exfalso.
  apply (segments_starting ".") in E; [|apply (bool_decide_unpack _); vm_compute; exact I].
  assert (head (segments_of (path_of segs +:+ tail)) = head segs) as Eh.
  { destruct Ht as [->| ->]; [|rewrite slash_segments; by destruct segs]. by rewrite str_app_nil, path_segments. }
  rewrite Eh in E. pose proof real_segments as Hr. destruct segs as [|s l]; [done|]. injection E as ->. apply Forall_cons in Hr as [[_ Hr] _]. done.
Qed.

Lemma no_last_slash : endsWith (path_of segs) "/" = false.
Proof using Hne Hstack Hclean.
  destruct (endsWith _ "/") eqn:E; [|done]. exfalso. unfold endsWith in E. apply prefixb_spec in E as [k Hk].
  assert (last (chars (path_of segs)) = Some slash) as Hl.
  { rewrite <- (rev_involutive (chars (path_of segs))), Hk. change (rev (chars "/")) with [slash]. cbn [app]. change (rev (slash :: k)) with (rev k ++ [slash]). by rewrite last_snoc. }
  apply split_chars_last in Hl as (p & ps & Hs & Hps). pose proof path_segments as Hsegs. unfold segments_of, split_on in Hsegs. rewrite Hs in Hsegs.
  pose proof real_segments as Hr. rewrite <- Hsegs in Hr. apply last_Some in Hps as [ps' ->]. rewrite fmap_cons, fmap_app in Hr.
  apply Forall_cons in Hr as [_ Hr]. apply Forall_app in Hr as [_ Hr]. apply Forall_cons in Hr as [[Hr _] _]. done.
Qed.

Lemma normal_nonempty : str_or (path_of segs) "." = path_of segs.
Proof using Hne Hstack Hclean.
  pose proof real_segments as Hr. unfold str_or. destruct segs as [|s l]; [done|]. apply Forall_cons in Hr as [[Hr _] _]. destruct s; [done|]. by destruct l.
Qed.

(** What is not an ascent is a descent. *)
Lemma normal_inside : path_of segs <> ".." -> startsWith (path_of segs) "../" = false -> inside (path_of segs).
Proof using Hne Hstack Hclean.
  intros H1 H2. right. rewrite path_segments. rewrite <- (rev_involutive segs). apply Forall_rev, stack_plain; [done|].
  destruct segs as [|s l]; [done|]. cbn [rev]. rewrite last_snoc. intros [= ->]. destruct l as [|t l]; [done|].
  assert (startsWith (path_of (".." :: t :: l)) "../" = true); [|congruence]. apply startsWith_spec. by exists (path_of (t :: l)).
Qed.

Lemma trimmed_slash tail : tail = "" \/ tail = "/" -> drop_last_slash (path_of segs +:+ tail) = path_of segs.
Proof using Hne Hstack Hclean.
  unfold drop_last_slash. intros [->| ->].
  - by rewrite str_app_nil, no_last_slash.
  - assert (endsWith (path_of segs +:+ "/") "/" = true) as -> by (unfold endsWith; rewrite chars_app; change (chars "/") with [slash]; by rewrite rev_app_distr).
    rewrite chars_app. change (chars "/") with [slash]. rewrite length_app. cbn [length]. rewrite Nat.add_sub, take_app_length. apply unchars_chars.
Qed.
End Normal.

Lemma absolute_kept x : str_empty x = false -> startsWith (str_or (drop_last_slash (drop_dot_slash ("/" +:+ x))) ".") "/" = true.
Proof.
  intros Hx. destruct x as [|c x]; [done|]. change (drop_dot_slash ("/" +:+ String c x)) with ("/" +:+ String c x). unfold drop_last_slash.
  destruct (endsWith _ "/"); [|done]. change (chars ("/" +:+ String c x)) with (slash :: chars (String c x)). cbn [length]. by rewrite Nat.sub_1_r.
Qed.

(** Whatever a path is, its normal form is the fallback or inside. *)
Lemma normalize_inside value fallback : normalizeSourcePath value fallback = fallback \/ inside (normalizeSourcePath value fallback).
Proof.
  unfold normalizeSourcePath. cbv zeta. set (input := forward_slashes _). destruct (_ || _); [by left|]. set (path := str_or input fallback).
  set (normalized := str_or _ "."). destruct (bool_decide (normalized = "..")) eqn:E1; [by left|]. destruct (startsWith normalized "../") eqn:E2; [by left|].
  destruct (startsWith normalized "/") eqn:E3; [by left|]. right. cbn [orb]. apply bool_decide_eq_false_1 in E1. unfold normalized in *. clear normalized.
  unfold posix_normalize in *. destruct (str_empty path); [by left|]. destruct (normalized_stack (negb (startsWith path "/")) path) as [Hs Hc].
  set (segs := normalized_segments _ _) in *. clearbody segs. cbv zeta in *. destruct (str_empty (path_of segs)) eqn:Ee.
  { left. by destruct (startsWith path "/"), (endsWith path "/"). }
  assert (segs <> []) as Hne by (by intros ->). destruct (startsWith path "/").
  { rewrite absolute_kept in E3; [done|]. destruct (path_of segs); done. }
  change ("" +:+ ?x) with x in *. set (tail := if endsWith path "/" then "/" else "") in *.
  assert (tail = "" \/ tail = "/") as Ht by (unfold tail; destruct (endsWith path "/"); auto). clearbody tail.
  rewrite no_dot_slash, trimmed_slash, normal_nonempty in * by done. by apply normal_inside.
Qed.

Lemma normalize_root value : inside (normalizeSourcePath value ".").
Proof. destruct (normalize_inside value ".") as [->|H]; [by left|done]. Qed.

(** ** Build plans *)

Section Plans.
Context (JSON_parse : string -> option jsval) (localeCompare : string -> string -> comparison) (sha256_hex : string -> string).

(** The paths a step of a build works on. *)
Definition PATH_KEYS : list string := ["rootDirectory"; "dockerfilePath"; "buildContext"].

Definition step_inside (step : jsval) : Prop :=
  forall k, k ∈ PATH_KEYS -> field k step = JUndef \/ exists path, field k step = JStr path /\ inside path.

Lemma clone_inside value : step_inside (clone_step (normalizeSourcePath value ".")).
Proof.
  intros k Hk. pose proof (normalize_root value) as H. set (p := normalizeSourcePath _ _) in *. clearbody p.
  repeat (apply elem_of_cons in Hk as [->|Hk]); [right; by exists p|by left|by left|by apply not_elem_of_nil in Hk].
Qed.

Lemma docker_inside dockerfile context : inside dockerfile -> inside context ->
  step_inside (JObj [("type", JStr "docker-build"); ("dockerfilePath", JStr dockerfile); ("buildContext", JStr context); ("cache", JBool true)]).
Proof.
  intros Hd Hc k Hk. repeat (apply elem_of_cons in Hk as [->|Hk]); [by left|right; by exists dockerfile|right; by exists context|by apply not_elem_of_nil in Hk].
Qed.

(** Steps without paths. *)
Lemma step_without fs : Forall (fun k => k ∉ PATH_KEYS) fs.*1 -> step_inside (JObj fs).
Proof.
  intros H k Hk. left. cbn [field]. rewrite obj_get_map_get. replace (map_get k fs) with (@None jsval); [done|]. symmetry. apply map_get_None. intros Hin.
  rewrite Forall_forall in H. by apply (H k).
Qed.

Lemma command_inside type_ command more : Forall (fun k => k ∉ PATH_KEYS) more.*1 -> Forall step_inside (command_step type_ command more).
Proof.
  intros H. unfold command_step. destruct (truthy command); [|constructor]. constructor; [|constructor]. apply step_without. cbn [app fmap list_fmap].
  do 2 (constructor; [apply (bool_decide_unpack _); vm_compute; exact I|]). exact H.
Qed.

Ltac pathless := apply step_without; repeat (constructor; [apply (bool_decide_unpack _); vm_compute; exact I|]); constructor.

(** C29. Builds stay in the checkout: the root directory, the Dockerfile and the
    build context of every step are the checkout or below it, by segments that
    do not ascend, whatever paths the tenant writes and whatever files the
    source holds. *)
Theorem build_paths_confined service files plan :
  resolveBuildStrategy JSON_parse localeCompare sha256_hex service files = Ok plan -> Forall step_inside (bp_buildSteps plan).
Proof.
  unfold resolveBuildStrategy. cbv zeta.
  set (root := normalizeSourcePath (js_or (obj_get "rootDirectory" service) _) "."). set (dockerfile := normalizeSourcePath (js_or (obj_get "dockerfilePath" service) _) ".").
  set (context := normalizeSourcePath (js_or (obj_get "buildContext" service) _) ".").
  assert (step_inside (clone_step root)) as Hclone by apply clone_inside.
  assert (inside dockerfile) as Hd by apply normalize_root. assert (inside context) as Hc by apply normalize_root. clearbody root dockerfile context.
  assert (step_inside scan_step) as Hscan by pathless. assert (step_inside (push_step service)) as Hpush by pathless.
  destruct (_ || _).
  { intros (_ & _ & H)%bind_Ok. destruct (js_or (obj_get "image" service) _); try done. injection H as <-. constructor. }
  destruct (_ || _); [intros [= <-]; cbn [bp_buildSteps buildPlan]; repeat (constructor; [first [done|by apply docker_inside|pathless]|]); constructor|].
  destruct (_ || _).
  { intros [= <-]. cbn [bp_buildSteps buildPlan]. constructor; [done|]. apply Forall_app. split; [by apply command_inside|].
    repeat (constructor; [first [done|pathless]|]). constructor. }
  intros (detected & _ & H)%bind_Ok. destruct (_ && _); injection H as <-; cbn [bp_buildSteps buildPlan].
  - constructor; [done|]. apply Forall_app. split; [by apply command_inside|]. apply Forall_app. split; [apply command_inside; constructor; [apply (bool_decide_unpack _); vm_compute; exact I|constructor]|].
    constructor; [destruct (bool_decide _); pathless|]. constructor; [done|]. by constructor.
  - repeat (constructor; [first [done|pathless]|]). constructor.
Qed.

(** ** Files with secrets *)

(** A file whose place in the checkout is that of an environment file. *)
Definition secret_file (file : string * jsval) : Prop := isSecretEnvFile (normalizeSourcePath (JStr file.1) "") = true.

Lemma normalized_without files : normalizedFiles files = normalizedFiles (filter (fun file => ~ secret_file file) files).
Proof.
  unfold normalizedFiles. generalize (@nil (string * jsval)) as m. induction files as [|file files IH]; intros m; [done|]. rewrite filter_cons. cbn [foldl].
  destruct (decide (~ secret_file file)) as [H|H]; cbn [foldl]; [by apply IH|]. rewrite <- IH. f_equal. unfold kept_path.
  apply dec_stable in H. unfold secret_file in H. rewrite H. by rewrite orb_true_r.
Qed.

(** Environment files have no influence: the plan of a build is the same
    with and without the files that may hold secrets, whatever is in them. *)
Theorem env_files_ignored service files :
  resolveBuildStrategy JSON_parse localeCompare sha256_hex service files
  = resolveBuildStrategy JSON_parse localeCompare sha256_hex service (filter (fun file => ~ secret_file file) files).
Proof.
  unfold resolveBuildStrategy, filesAtSourceRoot, discoverSource. by rewrite <- (normalized_without files).
Qed.
End Plans.
