(* ===== verification/ManifestExamples.v ===== *)
(** * Compiling a concrete project

    A shop with a database, compiled under a stand-in for SHA-256; the theorems
    on manifests, build plans and runtime settings applied to it; and inputs on
    which the code does not do what it means to. *)

From Stdlib Require Import QArith.
From S2P Require Import Prelude JsString JsMap JsVal Ids Secrets Accounts Redaction Workflows ControlPlane Domains DomainRouter DomainRouterSafety Security ServiceRuntime Catalog EnvInjection SourceDiscovery BuildStrategy Manifests ManifestSafety ManifestSecrets ServiceRuntimeSafety BuildSafety.

Open Scope Z_scope.

(** ** A project *)

Definition digest : string := "0123456789abcdef0123456789abcdef0123456789abcdef0123456789abcdef".
Definition sha (_ : string) : string := digest.
Definition no_json (_ : string) : option jsval := None.

Lemma sha_shape (s : string) : class_pattern is_lower_hex 64 64 (sha s) = true.
Proof. vm_compute. reflexivity. Qed.

Definition web : jsobj :=
  [("name", JStr "web"); ("sourceType", JStr "image"); ("image", JStr "nginx:1"); ("publicEgress", JBool true);
   ("environment", JObj [("LOG_LEVEL", JStr "info"); ("API_TOKEN", JStr "tok-1")]);
   ("persistence", JObj [("sizeGi", num 5); ("mountPath", JStr "/data/files")]);
   ("securityContext", JObj [("runAsUser", num 0)]);
   ("resources", JObj [("requests", JObj [("cpu", JStr "250m")]); ("limits", JObj [("cpu", JStr "1.5")])])].

Definition database (engine : string) : jsobj := [("name", JStr "db"); ("engine", JStr engine); ("password", JStr "hunter2")].

Definition shop (engine : string) : jsobj :=
  [("organizationSlug", JStr "acme"); ("name", JStr "Shop"); ("services", JArr [JObj web]); ("resources", JArr [JObj (database engine)])].

Definition compile_shop (engine : string) : result ProjectPlan := compileProject "" no_json String.compare sha (shop engine) [] [].

Definition nothing : ProjectPlan := mkPlan JUndef "" "" [] [] [] (domainPlanForProject sha []) [] [].
Definition shop_plan : ProjectPlan := Eval vm_compute in match compile_shop "postgresql" with Ok p => p | Throw _ => nothing end.

Lemma shop_compiles : compileProject "" no_json String.compare sha (shop "postgresql") [] [] = Ok shop_plan.
Proof. vm_compute. reflexivity. Qed.

(** The manifest of a kind, the last of several. *)
Definition of_kind (kind : string) (ms : list jsval) : jsval := foldl (fun found m => if bool_decide (as_string (field "kind" m) = Some kind) then m else found) JUndef ms.
Definition shop_deployment : jsval := Eval vm_compute in of_kind "Deployment" (pp_manifests shop_plan).
Definition shop_policy : jsval := Eval vm_compute in of_kind "NetworkPolicy" (pp_manifests shop_plan).
Definition shop_container : jsval := Eval vm_compute in nth 0 (items (field "containers" (pod_of shop_deployment))) JUndef.

Lemma kind_elem kind ms : of_kind kind ms <> JUndef -> of_kind kind ms ∈ ms.
Proof.
  unfold of_kind. assert (forall found, foldl (fun found m => if bool_decide (as_string (field "kind" m) = Some kind) then m else found) found ms = found
    \/ foldl (fun found m => if bool_decide (as_string (field "kind" m) = Some kind) then m else found) found ms ∈ ms) as H.
  { induction ms as [|m ms IH]; intros found; [by left|]. cbn [foldl]. destruct (bool_decide _).
    - right. destruct (IH m) as [->|Hin]; [by left|by right].
    - destruct (IH found) as [->|Hin]; [by left|by right; right]. }
  intros Hne. by destruct (H JUndef).
Qed.

Lemma deployment_elem : shop_deployment ∈ pp_manifests shop_plan.
Proof. apply (kind_elem "Deployment" (pp_manifests shop_plan)). vm_compute. discriminate. Qed.

Lemma policy_elem : shop_policy ∈ pp_manifests shop_plan.
Proof. apply (kind_elem "NetworkPolicy" (pp_manifests shop_plan)). vm_compute. discriminate. Qed.

(** ** The theorems on it *)

Lemma manifests_in_namespace_witness :
  label_pattern (pp_namespace shop_plan) = true /\ (length (chars (pp_namespace shop_plan)) <= 63)%nat
  /\ Forall (in_namespace (pp_namespace shop_plan)) (pp_manifests shop_plan).
Proof. exact (manifests_in_namespace "" no_json String.compare sha (shop "postgresql") [] [] shop_plan sha_shape shop_compiles). Defined.

Lemma workloads_hardened_witness : hardened_pod (pod_of shop_deployment).
Proof.
  apply (workloads_hardened "" no_json String.compare sha (shop "postgresql") [] [] shop_plan shop_deployment shop_compiles deployment_elem).
  vm_compute. discriminate.
Defined.

Lemma references_resolve_witness :
  (forall ref, ref ∈ items (field "env" shop_container) -> exists name key,
     (ref = env_ref "configMapKeyRef" name key /\ provides (pp_manifests shop_plan) "ConfigMap" "data" name key)
     \/ (ref = env_ref "secretKeyRef" name key /\ provides (pp_manifests shop_plan) "Secret" "stringData" name key))
  /\ (forall claim, claim_volume claim ∈ items (field "volumes" (pod_of shop_deployment)) ->
        exists m', m' ∈ pp_manifests shop_plan /\ field "kind" m' = JStr "PersistentVolumeClaim" /\ field "name" (field "metadata" m') = JStr claim).
Proof.
  apply (references_resolve "" no_json String.compare sha (shop "postgresql") [] [] shop_plan shop_deployment shop_container shop_compiles deployment_elem).
  vm_compute. reflexivity.
Defined.

(** 8.8.8.8, and 2001:4860:4860::8888 is reached as well. *)
Lemma egress_public_only_witness :
  admits shop_policy (ipv4 134744072) = true /\ admits shop_policy (ipv6 (8193 * 2 ^ 112 + 18528 * 2 ^ 96 + 18528 * 2 ^ 80 + 34952)) = true
  /\ (private_address (ipv4 134744072) -> False)
  /\ exists service, service ∈ spec_services (shop "postgresql") /\ public_egress service = true
       /\ field "podSelector" (field "spec" shop_policy) = JObj [("matchLabels", name_selector (kubernetesServiceName sha service))].
Proof.
  split; [vm_compute; reflexivity|]. split; [vm_compute; reflexivity|].
  apply (egress_public_only "" no_json String.compare sha (shop "postgresql") [] [] shop_plan shop_policy (ipv4 134744072) shop_compiles policy_elem); vm_compute; reflexivity.
Defined.

Definition env_with (token : string) : jsobj := [("LOG_LEVEL", JStr "info"); ("API_TOKEN", JStr token)].
Definition shop_context : ServiceContext :=
  mkContext "acme--shop" "shop" (JStr "acme") (JStr "Shop") JUndef (JStr "raibit.dev") [] [] "" (mkIngressErrors true "" "").

Lemma env_agree : agree (env_with "tok-1") (env_with "tok-2").
Proof. apply agree_same, agree_secret; [vm_compute; reflexivity|apply agree_refl]. Qed.

Lemma secret_values_confined_witness :
  match compile_service "" no_json String.compare sha [] [] shop_context (map_set "environment" (JObj (env_with "tok-1")) web),
        compile_service "" no_json String.compare sha [] [] shop_context (map_set "environment" (JObj (env_with "tok-2")) web) with
  | Ok out1, Ok out2 => out1.1 = out2.1 /\ map seen out1.2 = map seen out2.2
  | Throw a, Throw b => a = b
  | _, _ => False
  end.
Proof. exact (secret_values_confined "" no_json String.compare sha [] [] shop_context web (env_with "tok-1") (env_with "tok-2") env_agree). Defined.

Definition variables (engine password : string) : jsobj :=
  match connectionEnvForResource "" (map_set "password" (JStr password) (database engine)) (JStr "shop") with Ok env => env | Throw _ => [] end.

Lemma password_confined_witness :
  (splitEnvForSecret (variables "postgresql" "one")).1 = (splitEnvForSecret (variables "postgresql" "two")).1.
Proof.
  apply (password_confined "" (database "postgresql") (JStr "one") (JStr "two") (JStr "shop")); [vm_compute; reflexivity|vm_compute; reflexivity|].
  apply (bool_decide_unpack _). vm_compute. exact I.
Defined.

Lemma runtime_within_limits_witness : exists requested limit requested_memory memory_limit,
    (match asked web "requests" "cpu" "100m" with JStr s => millicores s | _ => None end) = Some requested
    /\ (match asked web "limits" "cpu" "500m" with JStr s => millicores s | _ => None end) = Some limit
    /\ memory (asked web "requests" "memory" "128Mi") = Ok requested_memory /\ memory (asked web "limits" "memory" "512Mi") = Ok memory_limit
    /\ 1 <= requested <= limit /\ limit <= 8000 /\ 1 <= requested_memory <= memory_limit /\ memory_limit <= 16384.
Proof. apply (runtime_within_limits web); [vm_compute; reflexivity|vm_compute; discriminate]. Defined.

Lemma volume_kept_witness :
  let updates := [("replicas", num 1)] in
  let previous := spread (overlay web) web in
  let next := spread (spread previous (overlay updates)) updates in
  exists size path,
    field "sizeGi" (obj_get "persistence" previous) = JNum (NInt size) /\ field "sizeGi" (obj_get "persistence" next) = JNum (NInt size) /\ 1 <= size <= 100
    /\ field "mountPath" (obj_get "persistence" previous) = JStr path /\ field "mountPath" (obj_get "persistence" next) = JStr path /\ data_path path = true
    /\ obj_get "name" next = obj_get "name" previous /\ obj_get "slug" next = obj_get "slug" previous.
Proof. apply (volume_kept web [("replicas", num 1)]); vm_compute; reflexivity. Defined.

Definition escaping : jsobj := [("name", JStr "web"); ("rootDirectory", JStr "../../etc"); ("dockerfilePath", JStr "a/../../b"); ("buildContext", JStr "./ok//x")].
Definition escaping_plan : BuildPlan :=
  Eval vm_compute in match resolveBuildStrategy no_json String.compare sha escaping [] with Ok p => p | Throw _ => buildPlan sha "" "" JUndef "" "" [] JUndef JUndef JUndef end.

Lemma build_paths_confined_witness : Forall step_inside (bp_buildSteps escaping_plan).
Proof. apply (build_paths_confined no_json String.compare sha escaping []). vm_compute. reflexivity. Defined.

(** ** Where the code and its intention part *)

Definition entry_with (part : string) (data : jsval) : bool := existsb (fun kv => includes (js_String kv.2) part) (entries data).

(** The address of a MongoDB or Valkey resource carries the password and is not
    the name of a secret: it is deployed as plain configuration. *)
Lemma mongo_password_in_config :
  (exists p, compileProject "" no_json String.compare sha (shop "mongodb") [] [] = Ok p /\ entry_with "hunter2" (field "data" (of_kind "ConfigMap" (pp_manifests p))) = true)
  /\ (exists p, compileProject "" no_json String.compare sha (shop "valkey") [] [] = Ok p /\ entry_with "hunter2" (field "data" (of_kind "ConfigMap" (pp_manifests p))) = true).
Proof. split; eexists; (split; [vm_compute; reflexivity|vm_compute; reflexivity]). Qed.

(** A file that is called like a property of every object is taken for a lock
    file, and the inherited function for the package manager. *)
Lemma inherited_lockfile :
  let d := discoverSource String.compare [("constructor", JStr ""); ("yarn.lock", JStr "")] JUndef JUndef in
  ds_lockfilePath d = Some "constructor" /\ ds_packageManager d = Some (InheritedProperty "constructor").
Proof. vm_compute. split; reflexivity. Qed.

(** A request that equals its limit is refused when the limit is written in
    cores whose product with 1000 rounds down. *)
Lemma equal_cpu_refused :
  millicores "1001m" = millicores "1.001"
  /\ validateServiceRuntime [("resources", JObj [("requests", JObj [("cpu", JStr "1001m")]); ("limits", JObj [("cpu", JStr "1.001")])])]
     = Throw (reject "CPU request exceeds limit").
Proof. vm_compute. split; reflexivity. Qed.

Close Scope Z_scope.
