(* ===== verification/TenantInputs.v ===== *)
(** * What tenants may write ([packages/schemas/src/desired-state-validation.ts],
    [packages/core/src/resource-sanitizer.ts], [security.ts])

    Requests to create or change services and resources: unknown and immutable
    fields are refused, quantities stay below quotas, connection details and
    status fields are dropped, storage and names are brought into one form.
    The properties follow the definitions. *)

From Stdlib Require Import QArith.
From S2P Require Import Prelude JsString JsMap JsVal Ids Secrets Accounts Redaction RedactionSafety Workflows ControlPlane Deployments Security ServiceRuntime ServiceRuntimeSafety Catalog.
From stdpp Require Import pretty.

Open Scope Z_scope.

(** [a === b] of values that are not objects; two objects are never the same. *)
Definition same_primitive (a b : jsval) : bool :=
  match a, b with
  | JUndef, JUndef | JNull, JNull => true
  | JBool x, JBool y => bool_decide (x = y)
  | JStr s, JStr t => bool_decide (s = t)
  | JNum (NInt x), JNum (NInt y) => x =? y
  | _, _ => false
  end.

(** ** Settings *)

Module DesiredState.

Definition SERVICE_SETTINGS_LIMITS : string -> Z := fun unit_ => if bool_decide (unit_ = "cpu") then 500 else 512.

Definition editable : list string :=
  ["name"; "type"; "sourceType"; "repoUrl"; "image"; "imageUrl"; "branch"; "rootDirectory"; "buildContext"; "dockerfilePath"; "installCommand";
   "buildCommand"; "startCommand"; "outputDirectory"; "port"; "healthCheck"; "resources"; "persistence"] ++ HEALTH_PATH_FIELDS.
Definition identity : list string :=
  ["id"; "projectId"; "organizationId"; "organizationSlug"; "slug"; "repositoryUrl"; "githubRepositoryId"; "githubInstallationId";
   "githubIntegrationId"; "githubRepository"; "sourceAccess"].
Definition resourceKeys : list string :=
  ["name"; "type"; "engine"; "provider"; "plan"; "region"; "version"; "storageMb"; "storageGb"; "databaseName"; "database"; "username"; "bucket";
   "collection"; "topic"; "backup"; "desiredSpec"].
Definition resourceSpecKeys : list string :=
  ["storageMb"; "storageGb"; "databaseName"; "database"; "username"; "bucket"; "collection"; "topic"; "schemas"; "tables"; "collections";
   "documents"; "keys"; "values"; "ttl"; "buckets"; "objects"; "subjects"].

Definition DesiredStateMutationError (field_ code_ : string) : jserror :=
  JsError "DesiredStateMutationError" (code_ +:+ ": " +:+ field_) (Some (if bool_decide (code_ = "IMMUTABLE_SETTINGS") then 409 else 400)).
Definition invalid (field_ : string) : jserror := DesiredStateMutationError field_ "INVALID_SETTINGS".
Definition immutable (field_ : string) : jserror := DesiredStateMutationError field_ "IMMUTABLE_SETTINGS".

Definition record (value : jsval) (field_ : string) : result jsobj := match value with JObj fs => Ok fs | _ => Throw (invalid field_) end.

(** The first key that is not allowed decides. *)
Fixpoint keys (names : list string) (allowed : list string) : result unit :=
  match names with
  | [] => Ok tt
  | k :: rest => if bool_decide (k ∈ allowed) then keys rest allowed
                 else Throw (if bool_decide (k ∈ identity) then immutable k else invalid k)
  end.

Definition text (value : jsval) (field_ : string) (maximum : Z) (empty : bool) : result unit :=
  match value with
  | JStr s => throw_if ((maximum <? str_length s) || existsb is_control (chars s) || (negb empty && str_empty (trim s))) (invalid field_)
  | _ => Throw (invalid field_)
  end.

Definition parseProjectMutation (input : jsval) : result jsobj :=
  parsed ← record input "project";
  _ ← keys parsed.*1 ["name"; "description"];
  _ ← (if hasOwn "name" parsed then text (obj_get "name" parsed) "name" 128 false else Ok tt);
  _ ← (if hasOwn "description" parsed then text (obj_get "description" parsed) "description" 4096 true else Ok tt);
  Ok parsed.

(** Zero, one or more digits with at most three decimals, in thousandths. *)
Definition decimal_thousandths (l : list ascii) : option Z :=
  let '(whole, fraction) := break_at (fun c => (code c =? 46)%N) l in
  match digits_of whole, fraction with
  | Some u, None => Some (u * 1000)
  | Some u, Some f => if (length f <=? 3)%nat then (fun d => u * 1000 + d * 10 ^ (3 - Z.of_nat (length f))) <$> digits_of f else None
  | None, _ => None
  end.

(** A number that is an integer. *)
Definition integer_of (q : Q) : option Z := if Qnum q mod Zpos (Qden q) =? 0 then Some (Qnum q / Zpos (Qden q)) else None.

Definition quantity_number (s unit_ : string) : option Z :=
  let l := chars s in
  if bool_decide (unit_ = "cpu") then
    match last l with
    | Some "m"%char => digits_of (take (length l - 1) l)
    | _ => match decimal_thousandths l with Some n => integer_of (times_thousand n) | None => None end
    end
  else
    let factor := if endsWith s "Mi" then Some 1 else if endsWith s "Gi" then Some 1024 else None in
    match factor, digits_of (take (length l - 2) l) with Some f, Some n => Some (n * f) | _, _ => None end.

Definition settingQuantity (value : jsval) (unit_ : string) : result Z :=
  match value with
  | JStr s =>
      match quantity_number s unit_ with
      | Some n => if safe_integer n && (1 <=? n) then Ok n else Throw (invalid ("resources." +:+ unit_))
      | None => Throw (invalid ("resources." +:+ unit_))
      end
  | _ => Throw (invalid ("resources." +:+ unit_))
  end.

Definition optionalRecord (value : jsval) : result jsobj :=
  match value with JUndef | JNull => Ok [] | _ => record value "stored settings" end.

Definition UNTYPED_FIELDS : list string := ["resources"; "persistence"; "healthCheck"; "port"] ++ HEALTH_PATH_FIELDS.
Definition PATH_FIELDS : list string := ["rootDirectory"; "buildContext"; "dockerfilePath"; "outputDirectory"].

(** A path that leaves its directory or names a drive or a scheme. *)
Definition escaping_path (s : string) : bool :=
  let normalized := unchars (map (fun c => if is_backslash c then "/"%char else c) (chars s)) in
  startsWith normalized "/" || includes normalized ":" || bool_decide (".." ∈ split_on "/"%char normalized).

Definition check_field (k : string) (value : jsval) : result unit :=
  if bool_decide (k ∈ UNTYPED_FIELDS) then Ok tt
  else
    let command := endsWith k "Command" in
    _ ← text value k (if bool_decide (k = "name") then 128 else if command then 4096 else 1024) command;
    throw_if (bool_decide (k ∈ PATH_FIELDS) && escaping_path (js_String value)) (invalid k).

Fixpoint check_fields (fs : jsobj) : result unit :=
  match fs with [] => Ok tt | (k, value) :: rest => _ ← check_field k value; check_fields rest end.

Definition check_choice (parsed : jsobj) (k : string) (choices : list string) : result unit :=
  match obj_get k parsed with
  | JUndef => Ok tt
  | v => throw_if (negb (bool_decide (js_String v ∈ choices))) (invalid k)
  end.

Fixpoint check_quantities (fs : jsobj) : result unit :=
  match fs with [] => Ok tt | (unit_, quantity_) :: rest => _ ← settingQuantity quantity_ unit_; check_quantities rest end.

Fixpoint check_groups (fs : jsobj) : result unit :=
  match fs with
  | [] => Ok tt
  | (kind, values) :: rest =>
      quantities ← record values ("resources." +:+ kind);
      _ ← keys quantities.*1 ["cpu"; "memory"];
      _ ← check_quantities quantities;
      check_groups rest
  end.

(** A request that exceeds its limit, where both are given. *)
Definition check_order (requests limits : jsobj) (unit_ : string) : result unit :=
  match obj_get unit_ requests, obj_get unit_ limits with
  | JUndef, _ | _, JUndef => Ok tt
  | r, l => requested ← settingQuantity r unit_; limit ← settingQuantity l unit_;
            throw_if (limit <? requested) (invalid ("resources.requests." +:+ unit_))
  end.

Definition check_resources (value : jsval) : result unit :=
  match value with
  | JUndef => Ok tt
  | _ =>
      resources ← record value "resources";
      _ ← keys resources.*1 ["requests"; "limits"];
      _ ← check_groups resources;
      requests ← optionalRecord (obj_get "requests" resources);
      limits ← optionalRecord (obj_get "limits" resources);
      _ ← check_order requests limits "cpu";
      check_order requests limits "memory"
  end.

Definition check_persistence (value : jsval) : result unit :=
  match value with
  | JUndef | JNull => Ok tt
  | _ =>
      persistence ← record value "persistence";
      _ ← keys persistence.*1 ["sizeGi"; "mountPath"];
      _ ← throw_if (match as_integer (obj_get "sizeGi" persistence) with Some n => (n <? 1) || (100 <? n) | None => true end) (invalid "persistence.sizeGi");
      throw_if (match as_string (obj_get "mountPath" persistence) with Some p => (200 <? str_length p) || negb (data_path p) | None => true end)
        (invalid "persistence.mountPath")
  end.

Definition parseServiceMutation (input : jsval) : result jsobj :=
  parsed ← record input "service";
  _ ← keys parsed.*1 editable;
  _ ← check_fields parsed;
  _ ← check_choice parsed "type" ["web"; "private"; "worker"; "cron"; "job"];
  _ ← check_choice parsed "sourceType" ["github"; "gitlab"; "zip"; "image"; "local"];
  _ ← (match obj_get "port" parsed with
       | JUndef => Ok tt
       | p => throw_if (match as_integer p with Some n => (n <? 1) || (65535 <? n) | None => true end) (invalid "port")
       end);
  paths ← parseHealthPaths parsed;
  let parsed := spread parsed paths in
  _ ← check_resources (obj_get "resources" parsed);
  _ ← check_persistence (obj_get "persistence" parsed);
  Ok parsed.

(** *** Against the stored service *)

Definition FIXED_FIELDS : list string := ["name"; "type"; "sourceType"; "repoUrl"; "image"; "imageUrl"].

Fixpoint check_fixed (names : list string) (current updates : jsobj) : result unit :=
  match names with
  | [] => Ok tt
  | k :: rest => _ ← throw_if (hasOwn k updates && negb (same_primitive (obj_get k updates) (obj_get k current))) (immutable k);
                 check_fixed rest current updates
  end.

Record MutationContext := mkMutationContext { mc_deployed : bool; mc_quota : option jsobj }.

Definition quota_field (unit_ : string) : string := if bool_decide (unit_ = "cpu") then "maxCpuMillicores" else "maxMemoryMb".

(** The largest amount of a unit a change may ask for. *)
Definition ceiling_of (context : MutationContext) (unit_ : string) : result Z :=
  match mc_quota context ≫= (fun row => match obj_get (quota_field unit_) row with JUndef => None | v => Some v end) with
  | None => Ok (SERVICE_SETTINGS_LIMITS unit_)
  | Some v => match as_integer v with
              | Some n => if safe_integer n && (0 <? n) then Ok n else Throw (invalid ("quota." +:+ unit_))
              | None => Throw (invalid ("quota." +:+ unit_))
              end
  end.

Definition check_ceiling (context : MutationContext) (previous merged : jsobj) (kind unit_ : string) : result unit :=
  ceiling ← ceiling_of context unit_;
  next ← settingQuantity (field unit_ (obj_get kind merged)) unit_;
  kept ← optionalRecord (obj_get kind previous);
  within ← (match obj_get unit_ kept with JUndef => Ok false | retained => q ← settingQuantity retained unit_; Ok (next <=? q) end);
  throw_if (negb within && (ceiling <? next)) (invalid ("resources." +:+ kind +:+ "." +:+ unit_)).

Definition merged_resources (previous patch : jsobj) : result jsobj :=
  pr ← optionalRecord (obj_get "requests" previous);
  nr ← optionalRecord (obj_get "requests" patch);
  pl ← optionalRecord (obj_get "limits" previous);
  nl ← optionalRecord (obj_get "limits" patch);
  Ok [("requests", JObj (spread (spread [("cpu", JStr "100m"); ("memory", JStr "128Mi")] pr) nr));
      ("limits", JObj (spread (spread [("cpu", JStr "500m"); ("memory", JStr "512Mi")] pl) nl))].

Definition serviceMutationState (current updates : jsobj) (context : MutationContext) : result jsobj :=
  _ ← (if mc_deployed context then check_fixed FIXED_FIELDS current updates else Ok tt);
  spec ← optionalRecord (obj_get "desiredSpec" current);
  state ← optionalRecord (obj_get "desiredState" current);
  let desired := spread (spread spec state) current in
  _ ← parseHealthPaths (spread desired updates);
  if negb (hasOwn "resources" updates) then Ok updates else
  previous ← optionalRecord (obj_get "resources" desired);
  patch ← record (obj_get "resources" updates) "resources";
  resources ← merged_resources previous patch;
  _ ← check_ceiling context previous resources "requests" "cpu";
  _ ← check_ceiling context previous resources "requests" "memory";
  _ ← check_ceiling context previous resources "limits" "cpu";
  _ ← check_ceiling context previous resources "limits" "memory";
  _ ← check_order (entries (obj_get "requests" resources)) (entries (obj_get "limits" resources)) "cpu";
  _ ← check_order (entries (obj_get "requests" resources)) (entries (obj_get "limits" resources)) "memory";
  Ok (map_set "resources" (JObj resources) updates).

Definition assertServiceReplacement (deployed : bool) : result unit := throw_if deployed (immutable "service replacement requires a new service").

Definition parseResourceMutation (input : jsval) : result jsobj :=
  parsed ← record input "resource";
  _ ← keys parsed.*1 resourceKeys;
  _ ← (match obj_get "desiredSpec" parsed with JUndef => Ok tt | v => spec ← record v "desiredSpec"; keys spec.*1 resourceSpecKeys end);
  Ok parsed.
End DesiredState.

(** ** Resources *)

Module ResourceInputs.

Definition SAFE_RESOURCE_KEYS : list string :=
  ["projectId"; "name"; "slug"; "type"; "engine"; "provider"; "plan"; "region"; "version"; "status"; "storageMb"; "storageGb"; "databaseName";
   "database"; "username"; "bucket"; "collection"; "topic"; "backup"; "desiredSpec"].

Definition BLOCKED_CONNECTION_KEYS : list string :=
  ["providerconnection"; "providercredentials"; "providercredential"; "connection"; "credentials"; "credential"; "connectionurl";
   "connectionsecretname"; "connectionstring"; "dsn"; "databaseurl"; "databaseuri"; "dburl"; "dburi"; "pgurl"; "pguri"; "pgdsn";
   "pgconnectionstring"; "pgconnectionurl"; "pgconnectionuri"; "jdbcurl"; "odbcurl"; "postgresurl"; "postgresqlurl"; "postgresuri";
   "postgresqluri"; "sqlitepath"; "mysqlurl"; "mysqluri"; "mariadburl"; "mariadburi"; "mongodburi"; "mongouri"; "mongoconnectionuri"; "redisurl";
   "redisuri"; "valkeyurl"; "valkeyuri"; "url"; "uri"; "password"; "token"; "secret"; "apikey"; "accesskey"; "secretkey"].

Definition PROVIDER_SPEC_KEYS : list string := ["storageMb"; "storageGb"; "databaseName"; "database"; "username"; "bucket"; "collection"; "topic"].

Definition CONSOLE_SPEC_KEYS_BY_ENGINE : jsmap (list string) :=
  [("postgresql", ["schemas"; "tables"]); ("mysql", ["schemas"; "tables"]); ("mariadb", ["schemas"; "tables"]);
   ("mongodb", ["collections"; "documents"]); ("redis", ["keys"; "values"; "ttl"]); ("valkey", ["keys"; "values"; "ttl"]);
   ("object-storage", ["buckets"; "objects"]); ("qdrant", ["collections"]); ("nats", ["subjects"])].

Definition badResourceRequest (message : string) : jserror := badRequest message.

(** *** Connection details *)

Definition PROVIDER_WORDS : list string :=
  ["database"; "db"; "postgres"; "postgresql"; "mysql"; "mariadb"; "mongo"; "mongodb"; "redis"; "valkey"; "sqlite"; "jdbc"; "odbc"].

(** The letters and digits of a key, in lower case. *)
Definition normalized_key (raw : string) : string := toLowerCase (unchars (filter (fun c => is_alnum c = true) (chars raw))).

Definition connection_prefix (normalized : string) : bool :=
  startsWith normalized "connection" || existsb (fun w => includes normalized (w +:+ "connection")) PROVIDER_WORDS.
Definition connection_suffix (normalized : string) : bool :=
  existsb (endsWith normalized) ["url"; "uri"; "dsn"; "string"; "connstr"; "connectionstring"].
Definition provider_prefix (normalized : string) : bool := existsb (startsWith normalized) ("pg" :: PROVIDER_WORDS).

Definition isBlockedConnectionKey (raw : string) : bool :=
  let normalized := normalized_key raw in
  bool_decide (normalized ∈ BLOCKED_CONNECTION_KEYS) || isSecretKey raw || isSecretKey normalized
  || (connection_prefix normalized && connection_suffix normalized)
  || (provider_prefix normalized && connection_suffix normalized)
  || (startsWith normalized "connection" && existsb (endsWith (unchars (drop 10 (chars normalized)))) ["url"; "uri"; "dsn"; "string"]).

Fixpoint sanitizeResourceValue (value : jsval) : jsval :=
  match value with
  | JArr l => JArr (map sanitizeResourceValue l)
  | JObj fs => JObj (omap (fun kv => match kv with (key, child) => if isBlockedConnectionKey key then None else Some (key, sanitizeResourceValue child) end) fs)
  | _ => value
  end.

Definition sanitize_record (fs : jsobj) : jsobj := entries (sanitizeResourceValue (JObj fs)).

Definition sanitizeTenantResourceInput (input : jsobj) : jsobj :=
  omap (fun kv => if bool_decide (kv.1 ∈ SAFE_RESOURCE_KEYS) && negb (isBlockedConnectionKey kv.1) then Some (kv.1, sanitizeResourceValue kv.2) else None) input.

(** *** One form for storage and names *)

(** The amounts of storage given so far, in megabytes. *)
Definition collectStorage (target : list Z) (label : string) (value : jsval) (multiplier : Z) : result (list Z) :=
  match value with
  | JUndef => Ok target
  | _ =>
      let numeric := match value with JNum n => n | JStr s => if str_empty (trim s) then NNaN else js_Number s | _ => NNaN end in
      match numeric with
      | NInt n => if n <=? 0 then Throw (badResourceRequest (label +:+ " must be a positive integer"))
                  else if safe_integer (n * multiplier) then Ok (target ++ [n * multiplier])
                  else Throw (badResourceRequest (label +:+ " is outside the supported range"))
      | _ => Throw (badResourceRequest (label +:+ " must be a positive integer"))
      end
  end.

Definition collect_four (a b : string * jsval) (c d : string * jsval) : result (list Z) :=
  l ← collectStorage [] a.1 a.2 1;
  l ← collectStorage l b.1 b.2 1024;
  l ← collectStorage l c.1 c.2 1;
  collectStorage l d.1 d.2 1024.

Definition canonical_text (label : string) (value : jsval) : result string :=
  match value with
  | JStr s => if str_empty (trim s) || (128 <? str_length s) || existsb is_control (chars s)
              then Throw (badResourceRequest (label +:+ " must be a non-empty string of at most 128 characters")) else Ok (trim s)
  | _ => Throw (badResourceRequest (label +:+ " must be a non-empty string of at most 128 characters"))
  end.

Fixpoint given_texts (sources : list (string * jsval)) : result (list string) :=
  match sources with
  | [] => Ok []
  | (_, JUndef) :: rest => given_texts rest
  | (label, value) :: rest => t ← canonical_text label value; ts ← given_texts rest; Ok (t :: ts)
  end.

Definition canonicalStringValue (sources : list (string * jsval)) (field_ : string) : result (option string) :=
  values ← given_texts sources;
  match values with
  | [] => Ok None
  | first :: rest => _ ← throw_if (existsb (fun v => negb (bool_decide (v = first))) rest) (badResourceRequest (field_ +:+ " values conflict")); Ok (Some first)
  end.

Definition canonicalEngine (value : jsval) : string :=
  let engine := toLowerCase (trim (js_String (js_or value (JStr "")))) in
  if bool_decide (engine ∈ ["postgres"; "pg"]) then "postgresql"
  else if bool_decide (engine ∈ ["mongo"]) then "mongodb"
  else if bool_decide (engine ∈ ["s3"; "minio"]) then "object-storage"
  else if bool_decide (engine ∈ ["vector-db"; "weaviate"; "milvus"]) then "qdrant"
  else if bool_decide (engine ∈ ["message-queue"; "rabbitmq"; "kafka"; "redpanda"]) then "nats"
  else engine.

(** *** What consoles show *)

Fixpoint map_result {A B} (f : nat -> A -> result B) (index : nat) (l : list A) : result (list B) :=
  match l with [] => Ok [] | x :: rest => y ← f index x; ys ← map_result f (S index) rest; Ok (y :: ys) end.

Definition at_index (name : string) (index : nat) : string := name +:+ "[" +:+ pretty index +:+ "]".

Definition one_text (label field_ : string) (value : jsval) : result jsval :=
  t ← canonicalStringValue [(label, value)] field_; Ok (match t with Some s => JStr s | None => JUndef end).

Definition canonicalStringList (value : jsval) (field_ : string) : result jsval :=
  let wrong := badResourceRequest (field_ +:+ " must be an array of at most 128 strings") in
  match value with
  | JArr l => _ ← throw_if (128 <? length l)%nat wrong;
              out ← map_result (fun i entry => one_text (at_index field_ i) field_ entry) 0 l; Ok (JArr out)
  | _ => Throw wrong
  end.

Definition deep_string (s : string) : bool := (4096 <? str_length s) || existsb (fun c => (code c =? 0)%N || (code c =? 127)%N) (chars s).
Definition bad_key (key : string) : bool := str_empty key || (256 <? str_length key) || existsb is_control (chars key).

(** [room] is how many further levels may be nested. *)
Fixpoint validateBoundedJson (room : nat) (field_ : string) (value : jsval) : result unit :=
  match room with
  | O => Throw (badResourceRequest (field_ +:+ " exceeds the maximum nesting depth"))
  | S room =>
      match value with
      | JStr s => throw_if (deep_string s) (badResourceRequest (field_ +:+ " contains an invalid string"))
      | JNull | JBool _ | JNum (NInt _) | JNum (NFrac _ _) => Ok tt
      | JArr l =>
          _ ← throw_if (128 <? length l)%nat (badResourceRequest (field_ +:+ " contains too many entries"));
          foldr (fun entry rest => _ ← validateBoundedJson room field_ entry; rest) (Ok tt) l
      | JObj fs =>
          _ ← throw_if (128 <? length fs)%nat (badResourceRequest (field_ +:+ " contains too many fields"));
          foldr (fun kv rest => _ ← throw_if (bad_key kv.1) (badResourceRequest (field_ +:+ " contains an invalid key"));
                                _ ← validateBoundedJson room field_ kv.2; rest) (Ok tt) fs
      | JUndef | JNum NNaN | JNum (NInf _) => Throw (badResourceRequest (field_ +:+ " contains an unsupported value"))
      end
  end.

Definition MAX_DEPTH : nat := 6.

Definition canonicalJsonRecord (value : jsval) (field_ : string) : result jsval :=
  let wrong := badResourceRequest (field_ +:+ " must be an object with at most 128 entries") in
  match value with
  | JObj fs => _ ← throw_if (128 <? length fs)%nat wrong; _ ← validateBoundedJson (S MAX_DEPTH) field_ value; Ok (sanitizeResourceValue value)
  | _ => Throw wrong
  end.

Definition canonical_object (index : nat) (entry : jsval) : result jsval :=
  let wrong := badResourceRequest (at_index "objects" index +:+ " has unsupported fields") in
  match entry with
  | JObj fs =>
      _ ← throw_if (existsb (fun k => negb (bool_decide (k ∈ ["key"; "size"]))) fs.*1) wrong;
      match obj_get "key" fs with
      | JUndef => Throw (badResourceRequest (at_index "objects" index +:+ ".key is required"))
      | key =>
          objectKey ← one_text (at_index "objects" index +:+ ".key") "key" key;
          match to_number (obj_get "size" fs) with
          | NInt size => if safe_integer size && (0 <=? size) then Ok (JObj [("key", objectKey); ("size", JNum (NInt size))])
                         else Throw (badResourceRequest (at_index "objects" index +:+ ".size must be a non-negative integer"))
          | _ => Throw (badResourceRequest (at_index "objects" index +:+ ".size must be a non-negative integer"))
          end
      end
  | _ => Throw wrong
  end.

Definition canonicalConsoleValue (key : string) (value : jsval) : result jsval :=
  if bool_decide (key ∈ ["keys"; "schemas"; "tables"; "collections"; "buckets"; "subjects"]) then canonicalStringList value key
  else if bool_decide (key ∈ ["values"; "ttl"; "documents"]) then canonicalJsonRecord value key
  else if bool_decide (key = "objects") then
    let wrong := badResourceRequest "objects must be an array of at most 128 entries" in
    match value with
    | JArr l => _ ← throw_if (128 <? length l)%nat wrong; out ← map_result canonical_object 0 l; Ok (JArr out)
    | _ => Throw wrong
    end
  else Throw (badResourceRequest ("unsupported managed resource desiredSpec field: " +:+ key)).

(** *** The specification of a resource *)

Fixpoint refuse_unknown (names console : list string) : result unit :=
  match names with
  | [] => Ok tt
  | k :: rest => _ ← throw_if (negb (bool_decide (k ∈ PROVIDER_SPEC_KEYS)) && negb (bool_decide (k ∈ console)))
                       (badResourceRequest ("unsupported managed resource desiredSpec field: " +:+ k));
                 refuse_unknown rest console
  end.

Definition MAX_STORAGE_MB : Z := 1024 * 1024.

Definition with_storage (input nested desiredSpec : jsobj) : result jsobj :=
  sources ← collect_four ("storageMb", obj_get "storageMb" input) ("storageGb", obj_get "storageGb" input)
              ("desiredSpec.storageMb", obj_get "storageMb" nested) ("desiredSpec.storageGb", obj_get "storageGb" nested);
  match sources with
  | storageMb :: rest =>
      _ ← throw_if (existsb (fun mb => negb (mb =? storageMb)) rest) (badResourceRequest "storageMb and storageGb values conflict");
      _ ← throw_if (MAX_STORAGE_MB <? storageMb) (badResourceRequest "managed resource storage cannot exceed 1024 GiB");
      Ok (map_delete "storageGb" (map_set "storageMb" (JNum (NInt storageMb)) desiredSpec))
  | [] =>
      match obj_get "storageGb" desiredSpec, obj_get "storageMb" desiredSpec with
      | JUndef, JUndef => Ok desiredSpec
      | _, _ =>
          inherited ← collectStorage [] "stored storageMb" (obj_get "storageMb" desiredSpec) 1;
          inherited ← collectStorage inherited "stored storageGb" (obj_get "storageGb" desiredSpec) 1024;
          Ok (map_delete "storageGb" (match inherited with mb :: _ => map_set "storageMb" (JNum (NInt mb)) desiredSpec | [] => desiredSpec end))
      end
  end.

Definition set_text (key : string) (value : option string) (desiredSpec : jsobj) : jsobj :=
  match value with Some s => map_set key (JStr s) desiredSpec | None => desiredSpec end.

Fixpoint with_texts (names : list string) (input nested desiredSpec : jsobj) : result jsobj :=
  match names with
  | [] => Ok desiredSpec
  | key :: rest =>
      value ← canonicalStringValue [(key, obj_get key input); ("desiredSpec." +:+ key, obj_get key nested)] key;
      with_texts rest input nested (set_text key value desiredSpec)
  end.

Fixpoint with_console (names : list string) (nested desiredSpec : jsobj) : result jsobj :=
  match names with
  | [] => Ok desiredSpec
  | key :: rest =>
      match obj_get key nested with
      | JUndef => with_console rest nested desiredSpec
      | value => v ← canonicalConsoleValue key value; with_console rest nested (map_set key v desiredSpec)
      end
  end.

Definition canonicalizeProviderDesiredSpec (input baseSpec : jsobj) (rejectUnknown : bool) : result jsobj :=
  _ ← (match rejectUnknown, obj_get "engine" input with
       | true, JUndef | false, _ => Ok tt
       | true, engine => _ ← requireResourceCapability (js_String engine) "provision" env_local; Ok tt
       end);
  nested ← (match obj_get "desiredSpec" input with
            | JUndef => Ok []
            | JObj fs => Ok fs
            | _ => Throw (badResourceRequest "desiredSpec must be an object")
            end);
  _ ← throw_if (hasOwn "backup" input || hasOwn "backup" nested) (badResourceRequest "managed resource backup configuration is not implemented");
  let console := default [] (map_get (canonicalEngine (obj_get "engine" input)) CONSOLE_SPEC_KEYS_BY_ENGINE) in
  _ ← (if rejectUnknown then refuse_unknown nested.*1 console else Ok tt);
  let desiredSpec := sanitize_record baseSpec in
  let desiredSpec := if rejectUnknown then desiredSpec else spread desiredSpec (map (fun kv => (kv.1, sanitizeResourceValue kv.2)) nested) in
  desiredSpec ← with_storage input nested desiredSpec;
  databaseName ← canonicalStringValue [("databaseName", obj_get "databaseName" input); ("database", obj_get "database" input);
                   ("desiredSpec.databaseName", obj_get "databaseName" nested); ("desiredSpec.database", obj_get "database" nested)] "databaseName";
  let desiredSpec := map_delete "database" (set_text "databaseName" databaseName desiredSpec) in
  desiredSpec ← with_texts ["username"; "bucket"; "collection"; "topic"] input nested desiredSpec;
  if rejectUnknown then with_console console nested desiredSpec else Ok desiredSpec.
End ResourceInputs.

(** ** Requests *)

Module TenantRequests.
Import DesiredState ResourceInputs.

Definition SAFE_SERVICE_KEYS : list string :=
  ["projectId"; "name"; "slug"; "type"; "runtimeType"; "sourceType"; "buildMode"; "repoUrl"; "repositoryUrl"; "githubRepositoryId"; "githubRepository";
   "githubIntegrationId"; "githubInstallationId"; "githubRepositoryVisibility"; "sourceAccess"; "branch"; "rootDirectory"; "buildContext"; "localPath";
   "dockerfilePath"; "installCommand"; "buildCommand"; "startCommand"; "command"; "args"; "outputDirectory"; "image"; "imageUrl"; "port"; "resources";
   "persistence"; "scaling"; "healthCheck"] ++ HEALTH_PATH_FIELDS
  ++ ["schedule"; "concurrencyPolicy"; "backoffLimit"; "availability"; "sleepPolicy"; "environment"; "env"; "attachedResources"; "desiredSpec"].

Definition SAFE_RESOURCE_API_KEYS : list string :=
  ["projectId"; "name"; "slug"; "type"; "engine"; "provider"; "plan"; "region"; "version"; "storageMb"; "storageGb"; "databaseName"; "database";
   "username"; "bucket"; "collection"; "topic"; "backup"; "desiredSpec"].

Definition RESOURCE_TYPES : list string := ["database"; "cache"; "storage"; "vector"; "queue"].
Definition RESOURCE_PLANS : list string := ["shared-small"; "dedicated-local"].

Section Services.
Context (parseUrl : string -> option ParsedUrl) (queryKeys : string -> list string).

(** [if (output[key] !== undefined) output[key] = f(output[key])] *)
Definition update_given (key : string) (f : jsval -> jsval) (output : jsobj) : jsobj :=
  match obj_get key output with JUndef => output | v => map_set key (f v) output end.

Definition with_port (output : jsobj) : jsobj :=
  match obj_get "port" output with
  | JUndef | JNull | JStr "" => output
  | v => map_set "port" (JNum (to_number v)) output
  end.

Definition with_repository (env : jsval) (output : jsobj) : result jsobj :=
  let given := js_or (obj_get "repoUrl" output) (obj_get "repositoryUrl" output) in
  output ← (if truthy given then url ← normalizeTenantGitUrl parseUrl queryKeys (js_String given) env; Ok (map_set "repoUrl" (JStr url) output) else Ok output);
  Ok (if truthy (obj_get "repositoryUrl" output) then map_delete "repositoryUrl" output else output).

Definition local_source (output : jsobj) : bool :=
  bool_decide (toLowerCase (js_String (js_or (obj_get "sourceType" output) (JStr "github"))) = "local")
  || truthy (obj_get "localPath" output)
  || isLocalOrFileSource (js_String (js_or (obj_get "repoUrl" output) (js_or (obj_get "buildContext" output) (JStr "")))).

Definition sanitized_spec (spec : jsval) : jsval :=
  match spec with
  | JObj fs => JObj (map_delete "desiredState" (map_delete "status" (sanitizeRuntimeCommandFields (pickKnown fs SAFE_SERVICE_KEYS))))
  | JArr _ => JObj []
  | v => v
  end.

Definition local_disabled : jserror := badRequest "local service sources are disabled for tenant API requests".

Definition sanitizeTenantServiceInput (input : jsobj) (allowGitHubBinding : bool) (env : jsval) : result jsobj :=
  _ ← (if allowGitHubBinding then Ok tt else assertNoTenantGitHubBinding (JObj input));
  health ← serviceHealthInput input;
  let output := sanitizeRuntimeCommandFields (pickKnown (spread input health) SAFE_SERVICE_KEYS) in
  let output := update_given "name" (fun v => JStr (trim (js_String (js_or v (JStr ""))))) output in
  let output := update_given "sourceType" (fun v => JStr (toLowerCase (js_String (js_or v (JStr "github"))))) output in
  let output := with_port output in
  output ← with_repository env output;
  _ ← throw_if (local_source output && negb (tenantLocalSourceAllowed env)) local_disabled;
  let output := match obj_get "desiredSpec" output with
                | JObj fs => map_set "desiredSpec" (sanitized_spec (JObj fs)) output
                | JArr l => map_set "desiredSpec" (sanitized_spec (JArr l)) output
                | _ => output
                end in
  let output := map_delete "id" (map_delete "desiredState" (map_delete "status" output)) in
  _ ← validateServiceRuntime (spread (entries (obj_get "desiredSpec" output)) output);
  Ok output.

(** [trusted]: the caller holds the token of internal mutations. *)
Definition sanitizeTenantServiceUpdate (input : jsobj) (trusted allowGitHubBinding : bool) (env : jsval) : result jsobj :=
  parsed ← (if trusted || allowGitHubBinding then Ok input else parseServiceMutation (JObj input));
  output ← sanitizeTenantServiceInput parsed allowGitHubBinding env;
  Ok (map_delete "projectId" output).
End Services.

(** *** Resources *)

(** [/^raibitserver-local-[a-z0-9-]+$/] *)
Definition local_provider (provider : string) : bool :=
  startsWith provider "raibitserver-local-"
  && match drop 19 (chars provider) with [] => false | rest => forallb (fun c => is_lower_alnum c || is_hyphen c) rest end.

Definition sqlite_engine (engine : string) : bool := bool_decide (engine ∈ ["sqlite"; "sqlite3"]).

Definition check_given (input : jsobj) (key : string) (bad : jsval -> bool) (message : jsval -> string) : result unit :=
  match obj_get key input with JUndef => Ok tt | v => throw_if (bad v) (badRequest (message v)) end.

Definition validateManagedResourceRouteFields (input : jsobj) : result unit :=
  let lower := fun v => toLowerCase (js_String v) in
  let lower_trimmed := fun v => toLowerCase (trim (js_String v)) in
  _ ← check_given input "name" (fun v => match v with JStr s => str_empty (trim s) || (128 <? str_length s) | _ => true end)
        (fun _ => "resource name must be a non-empty string of at most 128 characters");
  _ ← check_given input "type" (fun v => negb (bool_decide (lower v ∈ RESOURCE_TYPES))) (fun v => "unsupported managed resource type: " +:+ js_String v);
  _ ← (match obj_get "engine" input with JUndef => Ok tt | v => _ ← requireResourceCapability (js_String v) "provision" env_local; Ok tt end);
  _ ← check_given input "plan" (fun v => negb (bool_decide (lower v ∈ RESOURCE_PLANS))) (fun v => "unsupported managed resource plan: " +:+ js_String v);
  _ ← check_given input "region" (fun v => negb (bool_decide (lower_trimmed v = "local"))) (fun v => "unsupported managed resource region: " +:+ js_String v);
  _ ← check_given input "version" (fun v => negb (str_empty (trim (js_String v)))) (fun _ => "managed resource version selection is not implemented");
  check_given input "provider"
    (fun v => let provider := lower_trimmed v in
              negb (bool_decide (provider = "local-pvc") && sqlite_engine (lower_trimmed (js_or (obj_get "engine" input) (JStr ""))))
              && negb (bool_decide (provider ∈ ["local"; "raibitserver"; "managed-catalog"; "shared-provider"; "dedicated-local"])) && negb (local_provider provider))
    (fun v => "unsupported managed resource provider: " +:+ js_String v).

Definition MOVED_KEYS : list string := ["storageMb"; "storageGb"; "databaseName"; "database"; "username"; "bucket"; "collection"; "topic"; "backup"].

Definition sanitizeTenantResourceApiInput (input : jsobj) : result jsobj :=
  let output := pickKnown input SAFE_RESOURCE_API_KEYS in
  _ ← validateManagedResourceRouteFields output;
  let output := match obj_get "desiredSpec" output with JObj fs => map_set "desiredSpec" (sanitizeResourceValue (JObj fs)) output | _ => output end in
  let output := match obj_get "desiredSpec" output with
                | JObj fs => if sqlite_engine (toLowerCase (js_String (js_or (obj_get "engine" output) (JStr ""))))
                             then map_set "desiredSpec" (JObj (map_delete "sqlitePath" fs)) output else output
                | _ => output
                end in
  spec ← canonicalizeProviderDesiredSpec output [] true;
  Ok (foldl (fun o k => map_delete k o) (map_set "desiredSpec" (JObj spec) output) (MOVED_KEYS ++ ["status"; "desiredState"; "connectionSecretName"])).

Definition sanitizeTenantResourceApiUpdate (input : jsobj) (currentEngine : jsval) : result jsobj :=
  mutation ← parseResourceMutation (JObj input);
  let given := match currentEngine with
               | JUndef => mutation
               | engine => if hasOwn "engine" mutation then mutation else map_set "engine" engine mutation
               end in
  output ← sanitizeTenantResourceApiInput given;
  Ok (map_delete "projectId" output).
End TenantRequests.

Import DesiredState ResourceInputs TenantRequests.

(** ** Properties: settings *)

Lemma setting_positive v unit_ n : settingQuantity v unit_ = Ok n -> 1 <= n <= max_safe_integer.
Proof.
  unfold settingQuantity. destruct v; try done. destruct (quantity_number _ _) as [k|]; [|done].
  destruct (safe_integer k && (1 <=? k)) eqn:E; [|done]. intros [= <-]. apply andb_true_iff in E as [E1 E2%Z.leb_le].
  unfold safe_integer in E1. apply andb_true_iff in E1 as [_ E1%Z.leb_le]. lia.
Qed.

(** An amount a change may ask for: within the ceiling, or not above what the
    service has. *)
Definition amount_allowed (context : MutationContext) (previous : jsobj) (kind unit_ : string) (n : Z) : Prop :=
  (exists ceiling, ceiling_of context unit_ = Ok ceiling /\ n <= ceiling)
  \/ (exists kept, settingQuantity (field unit_ (obj_get kind previous)) unit_ = Ok kept /\ n <= kept).

Lemma check_ceiling_Ok context previous merged kind unit_ : check_ceiling context previous merged kind unit_ = Ok tt ->
  exists n, settingQuantity (field unit_ (obj_get kind merged)) unit_ = Ok n /\ 1 <= n /\ amount_allowed context previous kind unit_ n.
Proof.
  unfold check_ceiling. intros (ceiling & Hc & H)%bind_Ok. apply bind_Ok in H as (next & Hn & H). apply bind_Ok in H as (kept & Hk & H).
  apply bind_Ok in H as (within & Hw & H%throw_if_Ok). exists next. split; [done|]. split; [by apply setting_positive in Hn as [? _]|].
  apply andb_false_iff in H as [H%negb_false_iff|H%Z.ltb_ge]; [right|left; by exists ceiling]. subst within.
  assert (obj_get unit_ kept = field unit_ (obj_get kind previous)) as E.
  { unfold optionalRecord, record in Hk. destruct (obj_get kind previous); try done; by injection Hk as <-. }
  rewrite <- E. destruct (obj_get unit_ kept) eqn:Eu; try done;
    apply bind_Ok in Hw as (q & Hq & [= Hle%Z.leb_le]); by exists q.
Qed.

Lemma check_order_Ok requests limits unit_ r l : check_order requests limits unit_ = Ok tt ->
  settingQuantity (obj_get unit_ requests) unit_ = Ok r -> settingQuantity (obj_get unit_ limits) unit_ = Ok l -> r <= l.
Proof.
  unfold check_order. intros H Hr Hl. destruct (obj_get unit_ requests) eqn:Er; try done; destruct (obj_get unit_ limits) eqn:El; try done;
    rewrite Hr in H; cbn [mbind result_bind] in H; rewrite Hl in H; cbn [mbind result_bind] in H; apply throw_if_Ok, Z.ltb_ge in H; done.
Qed.

(** The resources a service has, over its specification and state. *)
Definition stored_resources (current : jsobj) : jsobj :=
  entries (obj_get "resources" (spread (spread (entries (obj_get "desiredSpec" current)) (entries (obj_get "desiredState" current))) current)).

Lemma optionalRecord_Ok v fs : optionalRecord v = Ok fs -> fs = entries v.
Proof. unfold optionalRecord, record. destruct v; try done; by intros [= <-]. Qed.

(** Settings stay within the quota: when a change of the resources of a
    service is accepted, what the service then asks for is at most its limits,
    and each of the four amounts is within the quota of the account, or within
    the default ceiling where there is none, or not above what the service
    already had. *)
Theorem settings_within_quota current updates context out unit_ :
  serviceMutationState current updates context = Ok out -> hasOwn "resources" updates = true -> unit_ ∈ ["cpu"; "memory"] ->
  exists requested limit,
    settingQuantity (field unit_ (field "requests" (obj_get "resources" out))) unit_ = Ok requested
    /\ settingQuantity (field unit_ (field "limits" (obj_get "resources" out))) unit_ = Ok limit
    /\ 1 <= requested <= limit
    /\ amount_allowed context (stored_resources current) "requests" unit_ requested
    /\ amount_allowed context (stored_resources current) "limits" unit_ limit.
Proof.
  unfold serviceMutationState. intros (? & _ & H)%bind_Ok Hr Hu. apply bind_Ok in H as (spec & ->%optionalRecord_Ok & H).
  apply bind_Ok in H as (state & ->%optionalRecord_Ok & H). cbv zeta in H. apply bind_Ok in H as (? & _ & H). rewrite Hr in H. cbn [negb] in H.
  apply bind_Ok in H as (previous & Hp%optionalRecord_Ok & H). fold (stored_resources current) in Hp. subst previous.
  apply bind_Ok in H as (patch & _ & H). apply bind_Ok in H as (resources & Hm & H).
  apply bind_Ok in H as ([] & (n1 & E1 & P1 & A1)%check_ceiling_Ok & H). apply bind_Ok in H as ([] & (n2 & E2 & P2 & A2)%check_ceiling_Ok & H).
  apply bind_Ok in H as ([] & (n3 & E3 & P3 & A3)%check_ceiling_Ok & H). apply bind_Ok in H as ([] & (n4 & E4 & P4 & A4)%check_ceiling_Ok & H).
  apply bind_Ok in H as ([] & O1 & H). apply bind_Ok in H as ([] & O2 & [= <-]). rewrite obj_get_set_eq. cbn [field].
  assert (forall k, k ∈ ["requests"; "limits"] -> exists fs, obj_get k resources = JObj fs) as Hrec.
  { unfold merged_resources in Hm. apply bind_Ok in Hm as (? & _ & Hm). apply bind_Ok in Hm as (? & _ & Hm). apply bind_Ok in Hm as (? & _ & Hm).
    apply bind_Ok in Hm as (? & _ & [= <-]). intros k Hk. repeat (apply elem_of_cons in Hk as [->|Hk]); [by eexists..|by apply not_elem_of_nil in Hk]. }
  destruct (Hrec "requests" ltac:(set_solver)) as [rs Ers]. destruct (Hrec "limits" ltac:(set_solver)) as [ls Els]. rewrite Ers, Els in *. cbn [field entries] in *.
  repeat (apply elem_of_cons in Hu as [->|Hu]); [exists n1, n3|exists n2, n4|by apply not_elem_of_nil in Hu].
  - pose proof (check_order_Ok _ _ _ _ _ O1 E1 E3). done.
  - pose proof (check_order_Ok _ _ _ _ _ O2 E2 E4). done.
Qed.

(** Accepted changes name only fields that tenants may edit. *)
Lemma keys_Ok names allowed : keys names allowed = Ok tt -> forall k, k ∈ names -> k ∈ allowed.
Proof.
  induction names as [|n names IH]; intros H k Hk; [by apply not_elem_of_nil in Hk|]. cbn [keys] in H. destruct (bool_decide_reflect (n ∈ allowed)); [|done].
  apply elem_of_cons in Hk as [->|Hk]; [done|by apply IH].
Qed.

(** A change of an identity field is refused as such when nothing before it is. *)
Lemma identity_refused before k after allowed : (forall x, x ∈ before -> x ∈ allowed) -> k ∈ identity -> k ∉ allowed ->
  keys (before ++ k :: after) allowed = Throw (immutable k).
Proof.
  intros Hb Hk Ha. induction before as [|x before IH]; cbn [app keys].
  - by rewrite bool_decide_false, bool_decide_true.
  - rewrite bool_decide_true by (apply Hb; by left). apply IH. intros y Hy. apply Hb. by right.
Qed.

(** ** Properties: services *)

Definition keys_in (allowed : list string) (o : jsobj) : Prop := forall k, k ∈ map_keys o -> k ∈ allowed.

Lemma keys_set allowed k v o : k ∈ allowed -> keys_in allowed o -> keys_in allowed (map_set k v o).
Proof. intros Hk H k' [->|Hin]%map_keys_set_subset; [done|by apply H]. Qed.

Lemma keys_delete allowed k o : keys_in allowed o -> keys_in allowed (map_delete k o).
Proof. intros H k' [Hin _]%map_keys_delete_subset. by apply H. Qed.

Lemma map_get_key {V} k (m : list (string * V)) v : map_get k m = Some v -> k ∈ map_keys m.
Proof. intros H. apply dec_stable. intros Hn%map_get_None. congruence. Qed.

Lemma keys_absent allowed k o : keys_in allowed o -> k ∉ allowed -> obj_get k o = JUndef.
Proof.
  intros H Hk. rewrite obj_get_map_get. destruct (map_get k o) eqn:E; [|done]. exfalso. apply Hk, H. by eapply map_get_key.
Qed.

Lemma keys_commands allowed o : keys_in allowed o -> keys_in allowed (sanitizeRuntimeCommandFields o).
Proof.
  unfold sanitizeRuntimeCommandFields. cbn [foldl]. intros H.
  assert (forall key x, keys_in allowed x -> keys_in allowed (if negb (map_has key x) then x else
    match obj_get key x with
    | JArr value => if (length value =? 0)%nat || (64 <? length value)%nat || existsb bad_argument value then map_delete key x else map_set key (JArr value) x
    | _ => map_delete key x end)) as Hstep; [|by apply Hstep, Hstep].
  intros key x Hx. destruct (map_has key x) eqn:E; cbn [negb]; [|done]. destruct (obj_get key x); try by apply keys_delete. destruct (_ || _); [by apply keys_delete|].
  apply keys_set; [|done]. apply Hx. unfold map_has in E. destruct (map_get key x) eqn:G; [|done]. by eapply map_get_key.
Qed.

Lemma keys_spread allowed a b : keys_in allowed a -> keys_in allowed b -> keys_in allowed (spread a b).
Proof.
  intros Ha Hb. revert a Ha. induction b as [|[k v] b IH]; intros a Ha; [done|]. rewrite spread_cons. apply IH.
  - intros k' Hk'. apply Hb. by right.
  - apply keys_set; [|done]. apply Hb. by left.
Qed.

Lemma keys_picked input allowed : keys_in allowed (pickKnown input allowed).
Proof. intros k Hk. by apply pickKnown_keys in Hk as [? _]. Qed.

(** Health fields and nothing else. *)
Definition HEALTH_KEYS : list string := HEALTH_PATH_FIELDS ++ ["healthCheck"; "desiredSpec"].

Lemma own_paths_keys fields input r out : (forall k, k ∈ fields -> k ∈ HEALTH_KEYS) -> keys_in HEALTH_KEYS r -> own_paths fields input r = Ok out -> keys_in HEALTH_KEYS out.
Proof.
  revert r. induction fields as [|k fields IH]; intros r Hf Hr H; cbn [own_paths] in H; [by injection H as <-|].
  assert (forall x, keys_in HEALTH_KEYS (map_set k x r)) as Hset by (intros x; apply keys_set; [apply Hf; by left|done]).
  assert (forall x, x ∈ fields -> x ∈ HEALTH_KEYS) as Hf' by (intros x Hx; apply Hf; by right).
  destruct (hasOwn k input); [|exact (IH r Hf' Hr H)].
  destruct (obj_get k input); try (destruct (isSafeHealthPath _); [|done]); exact (IH _ Hf' (Hset _) H).
Qed.

Ltac health_key := apply (bool_decide_unpack _); vm_compute; exact I.

(** An object with the one property [path], or any other. *)
Lemma one_path {A} (fs : jsobj) (P : jsval -> A) (Q : A) :
  (exists path, (match fs with [("path", path)] => P path | _ => Q end) = P path) \/ (match fs with [("path", path)] => P path | _ => Q end) = Q.
Proof.
  destruct fs as [|[k v] rest]; [by right|]. do 4 (destruct k as [|[[] [] [] [] [] [] [] []] k]; try (right; reflexivity)).
  destruct k as [|c k]; [|right; reflexivity]. destruct rest; [left; by exists v|right; reflexivity].
Qed.

Lemma parseHealthPaths_keys input out : parseHealthPaths input = Ok out -> keys_in HEALTH_KEYS out.
Proof.
  unfold parseHealthPaths. intros (r & Hr & H)%bind_Ok. apply own_paths_keys in Hr; [|intros k Hk; apply elem_of_app; by left|by intros k ?%not_elem_of_nil].
  apply bind_Ok in H as (r2 & Ha & H). cbv zeta in H. apply bind_Ok in H as (? & _ & [= <-]).
  assert (keys_in HEALTH_KEYS r2) as H2.
  { unfold alias_path in Ha. destruct (negb (hasOwn "healthCheck" input)); [by injection Ha as <-|]. cbv zeta in Ha.
    destruct (obj_get "healthCheck" input) as [| | | | | |fs]; try done.
    - injection Ha as <-. destruct (hasOwn "healthCheckPath" input); repeat (apply keys_set; [health_key|]); done.
    - destruct (one_path fs (fun path => _ ← throw_if (negb (isSafeHealthPath path)) (HealthPathError "healthCheck.path");
          let r' := map_set "healthCheck" (path_json path) r in
          _ ← throw_if (match as_string (obj_get "healthCheckPath" r') with Some p => negb (bool_decide (as_string path = Some p)) | None => false end)
                (HealthPathError "healthCheckPath");
          Ok (if hasOwn "healthCheckPath" input then r' else map_set "healthCheckPath" path r')) (Throw (HealthPathError "healthCheck.path"))) as [[path E]|E];
        apply (eq_trans (eq_sym E)) in Ha; [|discriminate Ha]. clear E.
      apply bind_Ok in Ha as (? & _ & Ha). apply bind_Ok in Ha as (? & _ & [= <-]). destruct (hasOwn "healthCheckPath" input); repeat (apply keys_set; [health_key|]); done. }
  destruct (hasOwn "healthCheckPath" input); [|done]. apply keys_set; [health_key|done].
Qed.

Lemma serviceHealthInput_keys input out : serviceHealthInput input = Ok out -> keys_in HEALTH_KEYS out.
Proof.
  unfold serviceHealthInput. cbv zeta. intros (? & _ & H)%bind_Ok. apply bind_Ok in H as (paths & Hp%parseHealthPaths_keys & [= <-]). apply keys_spread; [done|].
  destruct (truthy _); [|by intros k ?%not_elem_of_nil]. intros k [->|?%not_elem_of_nil]%elem_of_cons; [|done]. health_key.
Qed.

(** The fields of a request, with and without GitHub bindings. *)
Definition request_keys (allowGitHubBinding : bool) : list string :=
  if allowGitHubBinding then SAFE_SERVICE_KEYS else filter (fun k => k ∉ GITHUB_BINDING_KEYS) SAFE_SERVICE_KEYS.

Lemma binding_absent input k : assertNoTenantGitHubBinding (JObj input) = Ok tt -> k ∈ map_keys input -> k ∉ GITHUB_BINDING_KEYS.
Proof.
  unfold assertNoTenantGitHubBinding. intros H%throw_if_Ok Hk Hb. cbn [List.filter existsb] in H. apply orb_false_iff in H as [H _].
  assert (existsb (fun key => bool_decide (key ∈ obj_keys (JObj input))) GITHUB_BINDING_KEYS = true); [|congruence].
  apply existsb_exists. exists k. split; [by apply list_elem_of_In|]. by apply bool_decide_eq_true_2.
Qed.

Lemma picked_request (allow : bool) input health : (if allow then Ok tt else assertNoTenantGitHubBinding (JObj input)) = Ok tt -> keys_in HEALTH_KEYS health ->
  keys_in (request_keys allow) (pickKnown (spread input health) SAFE_SERVICE_KEYS).
Proof.
  intros Ha Hh k [Hs Hk]%pickKnown_keys. unfold request_keys. destruct allow; [done|]. apply list_elem_of_filter. split; [|done].
  assert (keys_in (map_keys input ++ map_keys health) (spread input health)) as Hsp by (apply keys_spread; intros x Hx; apply elem_of_app; auto).
  apply Hsp, elem_of_app in Hk as [Hk|Hk]; [by eapply binding_absent|]. apply Hh in Hk. revert k Hk Hs.
  assert (Forall (fun k => k ∉ GITHUB_BINDING_KEYS) HEALTH_KEYS) as Hf by health_key. rewrite Forall_forall in Hf. intros k Hk _. by apply Hf.
Qed.

Lemma given_key k o : obj_get k o <> JUndef -> k ∈ map_keys o.
Proof. rewrite obj_get_map_get. destruct (map_get k o) eqn:E; [|done]. intros _. by eapply map_get_key. Qed.

Lemma keys_given allowed k f o : keys_in allowed o -> keys_in allowed (update_given k f o).
Proof.
  intros H. unfold update_given. destruct (obj_get k o) eqn:E; try done; apply keys_set; try done; apply H, given_key; by rewrite E.
Qed.

Lemma keys_port allowed o : keys_in allowed o -> keys_in allowed (with_port o).
Proof.
  intros H. unfold with_port. destruct (obj_get "port" o) as [| | | |s| |] eqn:E; try done;
    try (apply keys_set; [apply H, given_key; by rewrite E|done]). destruct s; [done|]. apply keys_set; [apply H, given_key; by rewrite E|done].
Qed.

Section ServiceRequests.
Context (parseUrl : string -> option ParsedUrl) (queryKeys : string -> list string).

Lemma keys_repository allowed env o out : "repoUrl" ∈ allowed -> keys_in allowed o -> with_repository parseUrl queryKeys env o = Ok out -> keys_in allowed out.
Proof.
  intros Hr H. unfold with_repository. cbv zeta. intros (mid & Hm & [= <-])%bind_Ok. assert (keys_in allowed mid) as Hmid.
  { destruct (truthy _); [|by injection Hm as <-]. apply bind_Ok in Hm as (url & _ & [= <-]). by apply keys_set. }
  destruct (truthy (obj_get "repositoryUrl" mid)); [by apply keys_delete|done].
Qed.

Lemma safe_of_keys o : keys_in SAFE_SERVICE_KEYS o -> sr_ok (validateServiceSecurity (JObj o)) = true.
Proof.
  intros H. rewrite security_validation_exact. apply negb_true_iff. unfold unsafe_service, contextOf. cbn [field].
  assert (forall k, k ∉ SAFE_SERVICE_KEYS -> obj_get k o = JUndef) as E by (intros k Hk; by eapply keys_absent).
  rewrite !E by health_key. reflexivity.
Qed.

Lemma obj_get_delete_ne k k' (o : jsobj) : k <> k' -> obj_get k' (map_delete k o) = obj_get k' o.
Proof. intros H. by rewrite !obj_get_map_get, map_get_delete_ne. Qed.

(** What follows the check of the source leaves the source as it is. *)
Lemma local_kept (o : jsobj) spec : local_source (map_delete "id" (map_delete "desiredState" (map_delete "status" (map_set "desiredSpec" spec o)))) = local_source o
  /\ local_source (map_delete "id" (map_delete "desiredState" (map_delete "status" o))) = local_source o.
Proof. unfold local_source. split; rewrite !obj_get_delete_ne, ?obj_get_set_ne by done; reflexivity. Qed.

End ServiceRequests.

(** ** Properties: resources *)

(** No key at any depth names a connection or a secret. *)
Fixpoint clean (v : jsval) : bool :=
  match v with
  | JArr l => forallb clean l
  | JObj fs => forallb (fun kv => match kv with (k, child) => negb (isBlockedConnectionKey k) && clean child end) fs
  | _ => true
  end.

Lemma sanitize_clean v : clean (sanitizeResourceValue v) = true.
Proof.
  induction v as [| | | | |l IHl|fs IHf] using jsval_nested_ind; cbn [sanitizeResourceValue clean]; try done.
  - apply forallb_forall. intros x Hx. apply in_map_iff in Hx as (y & <- & Hy%list_elem_of_In). rewrite Forall_forall in IHl. by apply IHl.
  - induction IHf as [|[k x] fs Hx _ IH]; [done|]. cbn. destruct (isBlockedConnectionKey k) eqn:E; [done|]. cbn in Hx |- *. by rewrite E, Hx, IH.
Qed.

Lemma clean_fixed v : clean v = true -> sanitizeResourceValue v = v.
Proof.
  induction v as [| | | | |l IHl|fs IHf] using jsval_nested_ind; cbn [sanitizeResourceValue clean]; try done; intros H; f_equal.
  - induction IHl as [|x l Hx _ IH]; [done|]. cbn in H |- *. apply andb_true_iff in H as [H1 H2]. by rewrite Hx, IH.
  - induction IHf as [|[k x] fs Hx _ IH]; [done|]. cbn in H, Hx |- *. apply andb_true_iff in H as [[H1%negb_true_iff H2]%andb_true_iff H3]. by rewrite H1, Hx, IH.
Qed.

(** Sanitizing twice is sanitizing once. *)
Theorem sanitizeResourceValue_idempotent v : sanitizeResourceValue (sanitizeResourceValue v) = sanitizeResourceValue v.
Proof. apply clean_fixed, sanitize_clean. Qed.

Lemma clean_set k v fs : isBlockedConnectionKey k = false -> clean v = true -> clean (JObj fs) = true -> clean (JObj (map_set k v fs)) = true.
Proof.
  cbn [clean]. intros Hk Hv. induction fs as [|[k' v'] fs IH]; cbn [map_set forallb]; [by rewrite Hk, Hv|].
  intros H. destruct (decide (k' = k)) as [->|Hne]; cbn [forallb].
  - apply andb_true_iff in H as [_ H]. by rewrite Hk, Hv, H.
  - apply andb_true_iff in H as [H1 H2]. by rewrite H1, IH.
Qed.

Lemma clean_delete k fs : clean (JObj fs) = true -> clean (JObj (map_delete k fs)) = true.
Proof.
  cbn [clean]. intros H. apply forallb_forall. intros kv Hin. rewrite forallb_forall in H. apply H. apply list_elem_of_In. apply list_elem_of_In in Hin.
  revert Hin. unfold map_delete. clear H. induction fs as [|[k' v'] fs IH]; cbn; [done|]. case_decide; set_solver.
Qed.

Lemma map_result_Forall {A B} (P : B -> Prop) (f : nat -> A -> result B) i l out :
  (forall j x y, f j x = Ok y -> P y) -> map_result f i l = Ok out -> Forall P out.
Proof.
  intros Hf. revert i out. induction l as [|x l IH]; intros i out H; cbn [map_result] in H; [injection H as <-; constructor|].
  apply bind_Ok in H as (y & Hy & H). apply bind_Ok in H as (ys & Hys & [= <-]). constructor; [by eapply Hf|by eapply IH].
Qed.

Lemma one_text_clean label field_ v out : one_text label field_ v = Ok out -> clean out = true.
Proof. unfold one_text. intros (t & _ & [= <-])%bind_Ok. by destruct t. Qed.

Lemma array_clean l : Forall (fun v => clean v = true) l -> clean (JArr l) = true.
Proof. intros H. cbn [clean]. apply forallb_forall. intros x Hx%list_elem_of_In. rewrite Forall_forall in H. by apply H. Qed.

Lemma console_clean key v out : canonicalConsoleValue key v = Ok out -> clean out = true.
Proof.
  unfold canonicalConsoleValue. destruct (bool_decide _).
  { unfold canonicalStringList. cbv zeta. destruct v; try done. intros (? & _ & H)%bind_Ok. apply bind_Ok in H as (l' & Hl & [= <-]).
    apply array_clean. eapply map_result_Forall; [|exact Hl]. intros j entry y. apply one_text_clean. }
  destruct (bool_decide _).
  { unfold canonicalJsonRecord. cbv zeta. destruct v; try done. intros (? & _ & H)%bind_Ok. apply bind_Ok in H as (? & _ & [= <-]). exact (sanitize_clean (JObj fields)). }
  destruct (bool_decide _); [|done]. cbv zeta. destruct v; try done. intros (? & _ & H)%bind_Ok. apply bind_Ok in H as (l' & Hl & [= <-]).
  apply array_clean. eapply map_result_Forall; [|exact Hl]. intros j entry y. unfold canonical_object. cbv zeta. destruct entry; try done.
  intros ([] & _ & H)%bind_Ok. destruct (obj_get "key" fields) eqn:E; try done; (apply bind_Ok in H as (objectKey & Hk%one_text_clean & H));
    (destruct (to_number _); try done; destruct (_ && _); [|done]; injection H as <-; cbn [clean forallb]; rewrite Hk; vm_compute; reflexivity).
Qed.

(** *** Storage *)

Lemma collect_positive target label v m out : 0 < m -> collectStorage target label v m = Ok out -> Forall (fun mb => 1 <= mb) target -> Forall (fun mb => 1 <= mb) out.
Proof.
  intros Hm H Ht. unfold collectStorage in H.
  assert (out = target \/ exists n, 0 < n /\ out = target ++ [n * m]) as [->|(n & Hn & ->)]; [|done|].
  { destruct v as [| |b|n|s|l|fs]; [injection H as <-; by left|done|done| | |done|done].
    2: destruct (str_empty (trim s)); [done|]; set (n := js_Number s) in H; clearbody n.
    all: destruct n as [z| | |]; try done; destruct (Z.leb_spec z 0); [done|]; destruct (safe_integer _); [|done]; injection H as <-; right; by exists z. }
  apply Forall_app. split; [done|]. repeat constructor. nia.
Qed.

Definition storage_bounded (spec : jsobj) : Prop :=
  obj_get "storageMb" spec = JUndef \/ exists mb, obj_get "storageMb" spec = JNum (NInt mb) /\ 1 <= mb <= MAX_STORAGE_MB.

Definition spec_ok (spec : jsobj) : Prop := clean (JObj spec) = true /\ storage_bounded spec.

Lemma spec_set k v spec : isBlockedConnectionKey k = false -> k <> "storageMb" -> clean v = true -> spec_ok spec -> spec_ok (map_set k v spec).
Proof. intros Hk Hne Hv [H1 H2]. split; [by apply clean_set|]. unfold storage_bounded. by rewrite !obj_get_set_ne. Qed.

Lemma spec_delete k spec : k <> "storageMb" -> spec_ok spec -> spec_ok (map_delete k spec).
Proof. intros Hne [H1 H2]. split; [by apply clean_delete|]. unfold storage_bounded. by rewrite !obj_get_delete_ne. Qed.

Lemma storage_ok input nested spec : with_storage input nested [] = Ok spec -> spec_ok spec.
Proof.
  unfold with_storage, collect_four. intros (sources & Hs & H)%bind_Ok.
  apply bind_Ok in Hs as (l1 & H1 & Hs). apply bind_Ok in Hs as (l2 & H2 & Hs). apply bind_Ok in Hs as (l3 & H3 & Hs).
  assert (Forall (fun mb => 1 <= mb) sources) as Hpos by (repeat (eapply collect_positive; [|eassumption|]; [done|]); constructor).
  destruct sources as [|mb rest]; [injection H as <-; split; [done|by left]|].
  apply bind_Ok in H as (? & _ & H). apply bind_Ok in H as (? & Hmax%throw_if_Ok & [= <-]). apply Z.ltb_ge in Hmax. apply Forall_cons in Hpos as [Hmb _].
  split; [vm_compute; reflexivity|]. right. by exists mb.
Qed.

Lemma texts_ok names input nested spec out : Forall (fun k => isBlockedConnectionKey k = false /\ k <> "storageMb") names ->
  with_texts names input nested spec = Ok out -> spec_ok spec -> spec_ok out.
Proof.
  intros Hn. revert spec. induction Hn as [|k names [Hk Hne] Hn IH]; intros spec H Hs; cbn [with_texts] in H; [by injection H as <-|].
  apply bind_Ok in H as (t & _ & H). eapply IH; [exact H|]. destruct t; [by apply spec_set|done].
Qed.

Lemma console_ok names nested spec out : Forall (fun k => isBlockedConnectionKey k = false /\ k <> "storageMb") names ->
  with_console names nested spec = Ok out -> spec_ok spec -> spec_ok out.
Proof.
  intros Hn. revert spec. induction Hn as [|k names [Hk Hne] Hn IH]; intros spec H Hs; cbn [with_console] in H; [by injection H as <-|].
  destruct (obj_get k nested) eqn:E; try (by eapply IH); apply bind_Ok in H as (v & Hv%console_clean & H); (eapply IH; [exact H|]); by apply spec_set.
Qed.

Lemma console_names engine : Forall (fun k => isBlockedConnectionKey k = false /\ k <> "storageMb") (default [] (map_get engine CONSOLE_SPEC_KEYS_BY_ENGINE)).
Proof.
  assert (Forall (fun kv : string * list string => Forall (fun k => isBlockedConnectionKey k = false /\ k <> "storageMb") kv.2) CONSOLE_SPEC_KEYS_BY_ENGINE) as H
    by (apply (bool_decide_unpack _); vm_compute; exact I).
  induction H as [|[k v] m Hv Hm IH]; [constructor|]. cbn [map_get]. case_decide; [exact Hv|exact IH].
Qed.

Lemma canonical_ok input spec : canonicalizeProviderDesiredSpec input [] true = Ok spec -> spec_ok spec.
Proof.
  unfold canonicalizeProviderDesiredSpec. intros (? & _ & H)%bind_Ok. apply bind_Ok in H as (nested & _ & H). apply bind_Ok in H as (? & _ & H). cbv zeta in H.
  apply bind_Ok in H as (? & _ & H). apply bind_Ok in H as (s1 & H1%storage_ok & H). apply bind_Ok in H as (t & _ & H). apply bind_Ok in H as (s2 & H2 & H).
  eapply console_ok; [apply console_names|exact H|]. eapply texts_ok; [|exact H2|].
  { apply (bool_decide_unpack _). vm_compute. exact I. }
  apply spec_delete; [done|]. unfold set_text. destruct t; [|done]. apply spec_set; [vm_compute; reflexivity|done|done|done].
Qed.

Lemma canonical_engine input spec : canonicalizeProviderDesiredSpec input [] true = Ok spec ->
  obj_get "engine" input = JUndef \/ exists c, requireResourceCapability (js_String (obj_get "engine" input)) "provision" env_local = Ok c.
Proof.
  unfold canonicalizeProviderDesiredSpec. intros (? & He & _)%bind_Ok. destruct (obj_get "engine" input); [by left|..]; right; apply bind_Ok in He as (c & Hc & _); by exists c.
Qed.

Lemma deleted_keys names (o : jsobj) k : k ∈ map_keys (foldl (fun o k => map_delete k o) o names) -> k ∈ map_keys o /\ k ∉ names.
Proof.
  revert o. induction names as [|n names IH]; intros o H; cbn [foldl] in H; [split; [done|apply not_elem_of_nil]|].
  apply IH in H as [[H Hne]%map_keys_delete_subset Hn]. split; [done|]. by apply not_elem_of_cons.
Qed.

(** C23. Requests for resources are safe to store: what is accepted has only
    fields that tenants may set, names an engine the platform can provision,
    and its specification has no connection detail or secret at any depth and
    asks for at most 1024 GiB. *)
Theorem resource_request_sound input output :
  sanitizeTenantResourceApiInput input = Ok output ->
  (forall k, k ∈ map_keys output -> k ∈ SAFE_RESOURCE_API_KEYS /\ k ∉ MOVED_KEYS)
  /\ (obj_get "engine" output = JUndef \/ exists c, requireResourceCapability (js_String (obj_get "engine" output)) "provision" env_local = Ok c)
  /\ exists spec, obj_get "desiredSpec" output = JObj spec /\ clean (JObj spec) = true /\ storage_bounded spec.
Proof.
  unfold sanitizeTenantResourceApiInput. cbv zeta. intros (? & _ & H)%bind_Ok. set (o1 := match obj_get "desiredSpec" (pickKnown _ _) with JObj _ => _ | _ => _ end) in H.
  set (o2 := match obj_get "desiredSpec" o1 with JObj _ => _ | _ => _ end) in H.
  assert (keys_in SAFE_RESOURCE_API_KEYS o1) as H1 by (unfold o1; destruct (obj_get "desiredSpec" _); try apply keys_picked; apply keys_set; [health_key|apply keys_picked]).
  assert (keys_in SAFE_RESOURCE_API_KEYS o2) as H2.
  { unfold o2. destruct (obj_get "desiredSpec" o1); try done. destruct (sqlite_engine _); [|done]. apply keys_set; [health_key|done]. }
  clearbody o1 o2. apply bind_Ok in H as (spec & Hspec & [= <-]). pose proof (canonical_engine _ _ Hspec) as He. apply canonical_ok in Hspec. split_and!.
  - intros k Hk. apply (deleted_keys (MOVED_KEYS ++ ["status"; "desiredState"; "connectionSecretName"]) (map_set "desiredSpec" (JObj spec) o2)) in Hk as [Hk Hn].
    apply not_elem_of_app in Hn as [Hn _]. split; [|done]. assert (keys_in SAFE_RESOURCE_API_KEYS (map_set "desiredSpec" (JObj spec) o2)) as Hks by (apply keys_set; [health_key|done]). by apply Hks.
  - rewrite !obj_get_delete_ne, obj_get_set_ne by done. exact He.
  - exists spec. destruct Hspec as [Hc Hs]. split; [|done]. rewrite !obj_get_delete_ne by done. apply obj_get_set_eq.
Qed.

(** ** Examples *)

Definition production : jsval := JObj [("NODE_ENV", JStr "production")].
Definition no_url (_ : string) : option ParsedUrl := None.
Definition no_query (_ : string) : list string := [].

Definition api_request : jsobj :=
  [("name", JStr " api "); ("port", JStr "8080"); ("privileged", JBool true); ("repoUrl", JStr "git@github.com:acme/api.git");
   ("resources", JObj [("limits", JObj [("cpu", JStr "750m")])])].

Definition api_service : jsobj :=
  Eval vm_compute in match sanitizeTenantServiceInput no_url no_query api_request false production with Ok o => o | Throw _ => [] end.


Definition database_request : jsobj :=
  [("name", JStr "main"); ("engine", JStr "pg"); ("storageGb", JNum (NInt 2));
   ("desiredSpec", JObj [("storageMb", JStr "2048"); ("database", JStr "shop"); ("tables", JArr [JStr "orders"])])].

Definition database_resource : jsobj := Eval vm_compute in match sanitizeTenantResourceApiInput database_request with Ok o => o | Throw _ => [] end.

Lemma resource_request_sound_witness :
  (forall k, k ∈ map_keys database_resource -> k ∈ SAFE_RESOURCE_API_KEYS /\ k ∉ MOVED_KEYS)
  /\ (obj_get "engine" database_resource = JUndef \/ exists c, requireResourceCapability (js_String (obj_get "engine" database_resource)) "provision" env_local = Ok c)
  /\ exists spec, obj_get "desiredSpec" database_resource = JObj spec /\ clean (JObj spec) = true /\ storage_bounded spec.
Proof. apply (resource_request_sound database_request). vm_compute. reflexivity. Defined.

Definition small_service : jsobj := [("name", JStr "api"); ("desiredSpec", JObj [("resources", JObj [("limits", JObj [("cpu", JStr "2"); ("memory", JStr "512Mi")])])])].
Definition more_memory : jsobj := [("resources", JObj [("limits", JObj [("memory", JStr "1Gi")])])].
Definition account_context : MutationContext := mkMutationContext true (Some [("maxMemoryMb", JNum (NInt 1024))]).
Definition grown_service : jsobj := Eval vm_compute in match serviceMutationState small_service more_memory account_context with Ok o => o | Throw _ => [] end.

Lemma settings_within_quota_witness : exists requested limit,
    settingQuantity (field "memory" (field "requests" (obj_get "resources" grown_service))) "memory" = Ok requested
    /\ settingQuantity (field "memory" (field "limits" (obj_get "resources" grown_service))) "memory" = Ok limit
    /\ 1 <= requested <= limit
    /\ amount_allowed account_context (stored_resources small_service) "requests" "memory" requested
    /\ amount_allowed account_context (stored_resources small_service) "limits" "memory" limit.
Proof. apply (settings_within_quota small_service more_memory account_context); [vm_compute; reflexivity|vm_compute; reflexivity|set_solver]. Defined.

(** The check of local sources does not look into the specification: where
    local sources are disabled a path of the host is accepted there. *)
Lemma local_path_in_spec :
  match sanitizeTenantServiceInput no_url no_query [("name", JStr "web"); ("desiredSpec", JObj [("localPath", JStr "/etc")])] false production with
  | Ok output => field "localPath" (obj_get "desiredSpec" output) = JStr "/etc"
  | Throw _ => False
  end.
Proof. vm_compute. reflexivity. Qed.

(** Commands go through the redaction of logs: an option with a secret in its
    name loses its value. *)
Lemma start_command_redacted :
  match sanitizeTenantServiceInput no_url no_query [("name", JStr "web"); ("startCommand", JStr "serve --token=$TOKEN --port 80")] false production with
  | Ok output => obj_get "startCommand" output = JStr "serve --token=**** --port 80"
  | Throw _ => False
  end.
Proof. vm_compute. reflexivity. Qed.

Close Scope Z_scope.
