(* ===== verification/Services.v ===== *)
(** * Projects, services and resources of the store ([packages/core/src/store.ts],
    [project-settings.ts], [service-settings.ts], [resource-execution.ts],
    [store-helpers.ts])

    The rows tenants own in the in-memory store: creating, changing, attaching
    and deleting them, the settings a client edits against the version it read,
    and the deletion of a project with everything it holds.  A service row holds
    objects under [desiredSpec] and [desiredState] or nothing.  [Date.parse],
    SHA-256, [localeCompare], [JSON.parse] and the directory of the provider are
    parameters. *)

From Stdlib Require Import QArith.
From S2P Require Import Prelude JsString JsMap JsVal RecoveryProvenance Recovery RecoveryService Ids Secrets Accounts Redaction Workflows ControlPlane Deployments Quotas Security ServiceRuntime Catalog BuildStrategy Environments PreviewLineage PreviewWebhooks TenantInputs DeploymentSafety.
Import TenantInputs.DesiredState TenantInputs.ResourceInputs.

Open Scope Z_scope.

(** ** The store *)

Record TenantStore := mkTenants {
  tn_env : EnvStore;
  recoveryState : RecoveryState;
  buildLogs : list jsobj;
  runtimeLogs : list jsobj;
  resourceAttachments : list jsobj
}.

#[export] Instance TenantStore_rebuild : Rebuild TenantStore := fun s =>
  mkTenants (tn_env s) (recoveryState s) (buildLogs s) (runtimeLogs s) (resourceAttachments s).

Definition empty_tenants : TenantStore := mkTenants (mkEnvStore empty_control_plane [] []) emptyRecoveryState [] [] [].

Definition plane (s : TenantStore) : ControlPlane := ev_plane (tn_env s).

Definition on_env {A} (m : M EnvStore A) : M TenantStore A := fun s =>
  let '(r, e) := m (tn_env s) in (r, s <| tn_env := e |>).
Definition on_plane {A} (m : M ControlPlane A) : M TenantStore A := on_env (ev_on_plane m).

Definition tn_audit (actorUserId action targetType targetId : string) (metadata : jsval) (now : Z) : M TenantStore unit :=
  on_plane (cp_audit actorUserId action targetType targetId metadata now).

Definition set_project (id : string) (row : jsobj) : M TenantStore unit := on_plane (modify (fun p => p <| projects := map_set id row (projects p) |>)).
Definition set_service (id : string) (row : jsobj) : M TenantStore unit := on_plane (modify (fun p => p <| services := map_set id row (services p) |>)).
Definition set_resource (id : string) (row : jsobj) : M TenantStore unit := on_plane (modify (fun p => p <| resources := map_set id row (resources p) |>)).

(** [for (const x of l) f(x)] *)
Fixpoint for_each {S A} (f : A -> M S unit) (l : list A) : M S unit :=
  match l with [] => mret tt | x :: rest => _ ← f x; for_each f rest end.

Definition row_id (row : jsobj) : string := js_String (obj_get "id" row).
Definition of_project (projectId : string) (row : jsobj) : Prop := js_String (obj_get "projectId" row) = projectId.
#[export] Instance of_project_dec projectId row : Decision (of_project projectId row).
Proof. unfold of_project. apply _. Defined.

(** [[...this.deployments.values()].some((deployment) => deployment.serviceId === serviceId)] *)
Definition has_deployment (serviceId : string) (s : TenantStore) : bool :=
  existsb (fun d => same_primitive (obj_get "serviceId" d) (JStr serviceId)) (map_values (deployments (plane s))).

Set Default Proof Using "Type".

Section Store.
Context (dateParse : string -> option Z) (sha256_hex : string -> string) (localeCompare : string -> string -> comparison).
Context (JSON_parse : string -> option jsval) (sqliteRoot : string).

(** ** Times *)

Definition invalid_time : jserror := JsError "RangeError" "Invalid time value" None.
Definition MAX_TIME : Z := 8640000000000000.

(** [new Date(ms).toISOString()], where the number may be [NaN] *)
Definition iso (ms : option Z) : result string :=
  match ms with Some t => if Z.abs t <=? MAX_TIME then Ok (toISOString t) else Throw invalid_time | None => Throw invalid_time end.

(** A time after the one a row carries, and not before the clock. *)
Definition nextProjectUpdatedAt (current : string) (now : Z) : result string := iso ((fun t => Z.max now (t + 1)) <$> dateParse current).

Definition isoTimestamp (value : jsval) : result string := iso (dateParse (js_String value)).

(** ** Projects *)

Definition ProjectSettingsError : jserror := JsError "ProjectSettingsError" "STALE_PROJECT" (Some 409).
Definition ProjectSettingsInputError : jserror := JsError "ProjectSettingsInputError" "INVALID_PROJECT_SETTINGS" (Some 400).

Definition strictRecord (value : jsval) (allowed : list string) : result jsobj :=
  match value with
  | JObj fs => _ ← throw_if (existsb (fun k => negb (bool_decide (k ∈ allowed))) fs.*1) ProjectSettingsInputError; Ok fs
  | _ => Throw ProjectSettingsInputError
  end.

Record ProjectSettingsUpdate := mkProjectUpdate { pu_expectedUpdatedAt : string; pu_name : option string; pu_description : option string }.

Definition optional_text (v : jsval) : result (option string) :=
  match v with JUndef => Ok None | JStr s => Ok (Some s) | _ => Throw ProjectSettingsInputError end.

Definition parseProjectSettingsUpdate (value : jsval) : result ProjectSettingsUpdate :=
  input ← strictRecord value ["name"; "description"; "expectedUpdatedAt"];
  match obj_get "expectedUpdatedAt" input with
  | JStr expected =>
      _ ← throw_if (bool_decide (dateParse expected = None)) ProjectSettingsInputError;
      name ← optional_text (obj_get "name" input);
      description ← optional_text (obj_get "description" input);
      _ ← throw_if (bool_decide (name = None) && bool_decide (description = None)) ProjectSettingsInputError;
      Ok (mkProjectUpdate expected name description)
  | _ => Throw ProjectSettingsInputError
  end.

Definition parseProjectDeletionConfirmation (value : jsval) : result unit :=
  input ← strictRecord value ["confirmed"];
  throw_if (negb (is_true (obj_get "confirmed" input))) ProjectSettingsInputError.

Record ProjectView := mkProjectView {
  pv_id : string; pv_organizationId : string; pv_name : string; pv_slug : string; pv_description : string; pv_status : string;
  pv_updatedAt : string; pv_deletionRequestedAt : option string; pv_services : nat; pv_resources : nat; pv_previews : nat
}.

Definition projectSettingsView (project : jsobj) (serviceCount resourceCount previewCount : nat) : result ProjectView :=
  let f := fun k => obj_get k project in
  updatedAt ← isoTimestamp (f "updatedAt");
  requested ← (if truthy (f "deletionRequestedAt") then t ← isoTimestamp (f "deletionRequestedAt"); Ok (Some t) else Ok None);
  Ok (mkProjectView (js_String (f "id")) (js_String (f "organizationId")) (js_String (f "name")) (js_String (f "slug"))
        (js_String (js_nullish (f "description") (JStr ""))) (js_String (f "status")) updatedAt requested serviceCount resourceCount previewCount).

Record ScheduledDeletion := mkScheduled { sd_projectId : string; sd_status : string; sd_deletionRequestedAt : string }.

Definition DELETION_STATUSES : list string := ["DELETE_REQUESTED"; "DELETING"].

Definition scheduledProjectDeletion (project : jsobj) : result ScheduledDeletion :=
  let status := toUpperCase (js_String (obj_get "status" project)) in
  if bool_decide (status ∈ DELETION_STATUSES)
  then at_ ← isoTimestamp (obj_get "deletionRequestedAt" project); Ok (mkScheduled (js_String (obj_get "id" project)) status at_)
  else Throw ProjectSettingsInputError.

Definition createProject (input : jsobj) (now : Z) : M TenantStore jsobj :=
  let f := fun k => obj_get k input in
  let named := js_or (f "slug") (f "name") in
  let id := stableId "prj" [f "organizationId"; named] in
  let slug := slugify_default named in
  let project := [("id", JStr id); ("organizationId", f "organizationId"); ("name", f "name"); ("slug", JStr slug);
                  ("description", param "description" (JStr "") input); ("status", param "status" (JStr "active") input);
                  ("createdAt", timestamp now); ("updatedAt", timestamp now)] in
  s ← get;
  _ ← lift (match map_get id (projects (plane s)) with
            | Some existing => throw_if (negb (same_primitive (obj_get "organizationId" existing) (f "organizationId"))
                                         || negb (same_primitive (obj_get "slug" existing) (JStr slug))) (conflict "project_identity_collision")
            | None => Ok tt
            end);
  _ ← set_project id project;
  _ ← tn_audit "system" "project:create" "project" id (JObj [("organizationId", f "organizationId"); ("slug", JStr slug)]) now;
  mret project.

(** The properties of [keys] that are not undefined *)
Definition given (keys_ : list string) (o : jsobj) : jsobj :=
  omap (fun k => match obj_get k o with JUndef => None | v => Some (k, v) end) keys_.

Definition updateProject (projectId : string) (updates : jsobj) (now : Z) : M TenantStore (option jsobj) :=
  s ← get;
  match map_get projectId (projects (plane s)) with
  | None => mret None
  | Some current =>
      parsed ← lift (parseProjectMutation (JObj updates));
      let mutableUpdates := maskSecrets (JObj (given ["name"; "description"] parsed)) in
      let next := spread (spread current (entries mutableUpdates)) [("updatedAt", timestamp now)] in
      _ ← set_project projectId next;
      _ ← tn_audit "system" "project:update" "project" projectId mutableUpdates now;
      mret (Some next)
  end.

Definition is_preview (row : jsobj) : bool := bool_decide (toLowerCase (js_String (obj_get "deploymentType" row)) = "preview").

Definition getProjectSettings (projectId organizationId : string) (s : TenantStore) : result (option ProjectView) :=
  match map_get projectId (projects (plane s)) with
  | Some project =>
      if bool_decide (js_String (obj_get "organizationId" project) = organizationId) then
        let rows := fun table => filter (of_project projectId) (map_values table) in
        view ← projectSettingsView project (length (rows (services (plane s)))) (length (rows (resources (plane s))))
                 (length (filter (fun row => is_preview row = true) (rows (deployments (plane s)))));
        Ok (Some view)
      else Ok None
  | None => Ok None
  end.

Definition text_json (v : option string) : jsval := match v with Some s => JStr s | None => JUndef end.

Definition updateProjectSettings (projectId organizationId : string) (actorUserId : option string) (input : ProjectSettingsUpdate) (now : Z)
    : M TenantStore (option ProjectView) :=
  s ← get;
  match map_get projectId (projects (plane s)) with
  | None => mret None
  | Some current =>
      if negb (bool_decide (js_String (obj_get "organizationId" current) = organizationId)) then mret None else
      _ ← lift (throw_if (negb (bool_decide (js_String (obj_get "updatedAt" current) = pu_expectedUpdatedAt input))) ProjectSettingsError);
      let asked := given ["name"; "description"] [("name", text_json (pu_name input)); ("description", text_json (pu_description input))] in
      parsed ← lift (parseProjectMutation (JObj asked));
      let mutableUpdates := filter (fun kv => same_primitive kv.2 JUndef = false) parsed in
      updatedAt ← lift (nextProjectUpdatedAt (js_String (obj_get "updatedAt" current)) now);
      _ ← set_project projectId (spread (spread current mutableUpdates) [("updatedAt", JStr updatedAt)]);
      _ ← tn_audit (str_or (default "" actorUserId) "system") "project:settings-update" "project" projectId (maskSecrets (JObj mutableUpdates)) now;
      s' ← get;
      lift (getProjectSettings projectId organizationId s')
  end.

(** [{ ...row, status: 'DELETE_REQUESTED', deletionRequestedAt, updatedAt }] *)
Definition tombstone (row : jsobj) (now : Z) : result jsobj :=
  updatedAt ← nextProjectUpdatedAt (js_String (js_or (obj_get "updatedAt" row) (timestamp now))) now;
  Ok (spread row [("status", JStr "DELETE_REQUESTED"); ("deletionRequestedAt", timestamp now); ("updatedAt", JStr updatedAt)]).

Definition project_resource_ids (projectId : string) (s : TenantStore) : list string :=
  map row_id (filter (fun row => same_primitive (obj_get "projectId" row) (JStr projectId) = true) (map_values (resources (plane s)))).

Definition scheduleProjectDeletion (projectId organizationId : string) (actorUserId : option string) (now : Z)
    : M TenantStore (option ScheduledDeletion) :=
  s ← get;
  match map_get projectId (projects (plane s)) with
  | None => mret None
  | Some current =>
      if negb (bool_decide (js_String (obj_get "organizationId" current) = organizationId)) then mret None else
      _ ← lift (assertRecoveryPins (recoveryState s) (project_resource_ids projectId s));
      if bool_decide (toUpperCase (js_String (obj_get "status" current)) ∈ DELETION_STATUSES)
      then d ← lift (scheduledProjectDeletion current); mret (Some d)
      else
        row ← lift (tombstone current now);
        _ ← set_project projectId row;
        _ ← for_each (fun row => t ← lift (tombstone row now); set_service (row_id row) t) (filter (of_project projectId) (map_values (services (plane s))));
        _ ← for_each (fun row => t ← lift (tombstone row now); set_resource (row_id row) t) (filter (of_project projectId) (map_values (resources (plane s))));
        _ ← tn_audit (str_or (default "" actorUserId) "system") "project:delete-requested" "project" projectId
              (JObj [("organizationId", JStr organizationId)]) now;
        d ← lift (scheduledProjectDeletion row);
        mret (Some d)
  end.

(** ** Services *)

Definition effectiveServiceRuntime (service : jsobj) : jsobj := spread (overlay service) service.

Definition RUNTIME_KEYS : list string := ["resources"; "scaling"; "persistence"; "sleepPolicy"; "replicas"].

Definition runtimeServiceSpecPatch (service : jsobj) : jsobj :=
  omap (fun k => if hasOwn k service then Some (k, obj_get k service) else None) RUNTIME_KEYS.

Definition CREATE_PARAMS : list string := ["projectId"; "name"; "type"; "runtimeType"; "sourceType"; "image"; "imageUrl"].

(** [rest] with the specification and the state the request asks for *)
Definition with_desired (existing : option jsobj) (rest : jsobj) : jsobj :=
  let runtimeSpec := runtimeServiceSpecPatch rest in
  let stored := fun k => entries (match existing with Some row => obj_get k row | None => JUndef end) in
  if bool_decide (runtimeSpec = []) && negb (truthy (obj_get "desiredSpec" rest)) then rest else
  let desiredSpec := spread (spread (stored "desiredSpec") (entries (obj_get "desiredSpec" rest))) runtimeSpec in
  map_set "desiredState" (JObj (spread (spread (stored "desiredState") desiredSpec) runtimeSpec)) (map_set "desiredSpec" (JObj desiredSpec) rest).

Definition createService (input : jsobj) (allowGitHubBinding : bool) (now : Z) : M TenantStore jsobj :=
  let projectId := obj_get "projectId" input in
  let name := obj_get "name" input in
  let type_ := param "type" (JStr "web") input in
  let runtimeType := param "runtimeType" (JStr "container") input in
  let sourceType := param "sourceType" (JStr "github") input in
  let image := param "image" JNull input in
  let imageUrl := param "imageUrl" JNull input in
  let rest := without CREATE_PARAMS input in
  health ← lift (serviceHealthInput (spread rest [("type", type_)]));
  let rest := spread rest health in
  _ ← lift (if allowGitHubBinding then Ok tt else assertNoTenantGitHubBinding (JObj rest));
  let serviceId := stableId "svc" [projectId; name] in
  s ← get;
  let existing := map_get serviceId (services (plane s)) in
  let requested := spread rest [("projectId", projectId); ("name", name); ("type", type_); ("runtimeType", runtimeType);
                                ("sourceType", sourceType); ("image", image); ("imageUrl", imageUrl)] in
  _ ← lift (match existing with
            | Some row => validateServiceRuntimeUpdate row requested
            | None => validateServiceRuntime (effectiveServiceRuntime requested)
            end);
  let rest := with_desired existing (map_delete "desiredState" (map_delete "projectId" (map_delete "id" rest))) in
  let service := spread [("id", JStr serviceId); ("projectId", projectId); ("name", name); ("slug", JStr (slugify_default name)); ("type", type_);
                         ("runtimeType", runtimeType); ("sourceType", sourceType); ("image", js_or image (js_or imageUrl JUndef));
                         ("imageUrl", js_or imageUrl (js_or image JUndef)); ("status", JStr "created");
                         ("createdAt", timestamp now); ("updatedAt", timestamp now)] rest in
  _ ← lift (assertServiceReplacement (map_has serviceId (services (plane s)) && has_deployment serviceId s));
  _ ← set_service serviceId service;
  _ ← tn_audit "system" "service:create" "service" serviceId (JObj [("projectId", projectId); ("type", type_)]) now;
  mret service.

(** *** The GitHub repository of a service *)

Definition BINDING_KEYS : list (string * string) :=
  [("githubIntegrationId", "integrationId"); ("githubInstallationId", "installationId"); ("githubRepositoryId", "repositoryId");
   ("githubRepository", "repository"); ("githubRepositoryVisibility", "visibility"); ("repoUrl", "repoUrl"); ("sourceType", "sourceType")].

Definition expected_binding (current : jsobj) (key nested : string) : jsval :=
  if bool_decide (key = "repoUrl") then js_or (obj_get "repoUrl" current) (obj_get "repoUrl" (github_of current))
  else if bool_decide (key = "sourceType") then js_or (obj_get "sourceType" current) (JStr "github")
  else bound_to key nested current.

Definition repository_url (parsed : string * string) : string := "https://github.com/" +:+ repository_fullName parsed +:+ ".git".

(** The form in which a property of the binding is compared. *)
Definition binding_text (key : string) (value : jsval) : result string :=
  if bool_decide (key = "repoUrl") then p ← parseGitHubRepository (JStr (js_String value)); Ok (toLowerCase (repository_url p))
  else if bool_decide (key = "githubRepository") then p ← parseGitHubRepository (JStr (js_String value)); Ok (toLowerCase (repository_fullName p))
  else Ok (js_String value).

Definition binding_immutable : jserror := conflict "GitHub repository binding is immutable; create a new service to use another repository".

Fixpoint check_candidate (names : list (string * string)) (nested_names : bool) (current candidate : jsobj) : result unit :=
  match names with
  | [] => Ok tt
  | (key, nested) :: rest =>
      let candidateKey := if nested_names then nested else key in
      _ ← (if hasOwn candidateKey candidate then
             actual ← binding_text key (obj_get candidateKey candidate);
             wanted ← binding_text key (expected_binding current key nested);
             throw_if (negb (bool_decide (actual = wanted))) binding_immutable
           else Ok tt);
      check_candidate rest nested_names current candidate
  end.

Definition assertImmutableGitHubRepositoryBinding (current updates : jsobj) : result unit :=
  if negb (truthy (expected_binding current "githubRepositoryId" "repositoryId")) then Ok tt else
  _ ← check_candidate BINDING_KEYS false current updates;
  _ ← check_candidate BINDING_KEYS false current (entries (obj_get "desiredSpec" updates));
  _ ← check_candidate BINDING_KEYS false current (entries (obj_get "desiredState" updates));
  check_candidate BINDING_KEYS true current (entries (field "github" (obj_get "desiredState" updates))).

(** *** Changes *)

Record ServiceOptions := mkServiceOptions {
  so_internal : bool; so_allowGitHubBinding : bool; so_allowDesiredState : bool; so_actorUserId : option string
}.

(** The row of limits of the account that acts *)
Definition quota_object (row : QuotaRow) : jsobj := map (fun kv => (kv.1, JNum (NInt kv.2))) (q_limits row).

Definition actor_quota (actorUserId : option string) (s : TenantStore) : option jsobj :=
  quota_object <$> js_find (fun row => Some (q_userId row) = actorUserId) (map_values (quotas (accounts (cp_workflow (plane s))))).

Definition mutation_context (serviceId : string) (options : ServiceOptions) (s : TenantStore) : MutationContext :=
  mkMutationContext (has_deployment serviceId s) (actor_quota (so_actorUserId options) s).

Definition serviceVersion (service : jsobj) : string := js_String (js_nullish (obj_get "updatedAt" service) (obj_get "createdAt" service)).

(** The properties an update writes, once names and images agree *)
Definition normalized_update (updates : jsobj) (allowDesiredState : bool) : jsobj :=
  let n := map_delete "projectId" (map_delete "id" updates) in
  let n := if allowDesiredState then n else map_delete "desiredState" n in
  let n := if truthy (obj_get "slug" n) then map_set "slug" (JStr (slugify_default (obj_get "slug" n))) n else n in
  let n := if truthy (obj_get "image" n) && negb (truthy (obj_get "imageUrl" n)) then map_set "imageUrl" (obj_get "image" n) n else n in
  if truthy (obj_get "imageUrl" n) && negb (truthy (obj_get "image" n)) then map_set "image" (obj_get "imageUrl" n) n else n.

Definition desired_changes (current normalized desiredSpecPatch : jsobj) : jsobj :=
  if bool_decide (desiredSpecPatch = []) then [] else
  [("desiredSpec", JObj (spread (entries (obj_get "desiredSpec" current)) desiredSpecPatch));
   ("desiredState", JObj (spread (spread (entries (obj_get "desiredState" current)) desiredSpecPatch) (entries (obj_get "desiredState" normalized))))].

(** The row an update leaves, or why it is refused *)
Definition updated_service (current updates : jsobj) (context : MutationContext) (options : ServiceOptions) (now : Z) : result jsobj :=
  _ ← (if so_allowGitHubBinding options then Ok tt else assertNoTenantGitHubBinding (JObj updates));
  _ ← assertImmutableGitHubRepositoryBinding current updates;
  asked ← (if so_internal options || so_allowGitHubBinding options then Ok updates
           else parsed ← parseServiceMutation (JObj updates); serviceMutationState current parsed context);
  let normalized := entries (maskSecrets (JObj asked)) in
  _ ← validateServiceRuntimeUpdate current normalized;
  let normalized := normalized_update normalized (so_allowDesiredState options) in
  health ← parseHealthPaths normalized;
  let desiredSpecPatch := spread (spread (entries (obj_get "desiredSpec" normalized)) (runtimeServiceSpecPatch normalized)) health in
  updatedAt ← nextProjectUpdatedAt (js_String (js_or (obj_get "updatedAt" current) (obj_get "createdAt" current))) now;
  Ok (spread (spread (spread current normalized) (desired_changes current normalized desiredSpecPatch)) [("updatedAt", JStr updatedAt)]).

Definition updateService (serviceId : string) (updates : jsobj) (options : ServiceOptions) (now : Z) : M TenantStore (option jsobj) :=
  s ← get;
  match map_get serviceId (services (plane s)) with
  | None => mret None
  | Some current =>
      next ← lift (updated_service current updates (mutation_context serviceId options s) options now);
      _ ← set_service serviceId next;
      _ ← tn_audit "system" "service:update" "service" serviceId (maskSecrets (JObj updates)) now;
      mret (Some next)
  end.

(** *** Settings *)

Definition settingFields : list string :=
  ["name"; "type"; "sourceType"; "repoUrl"; "image"; "imageUrl"; "branch"; "rootDirectory"; "buildContext"; "dockerfilePath"; "installCommand";
   "buildCommand"; "startCommand"; "outputDirectory"; "port"; "healthCheckPath"; "livenessPath"; "readinessPath"; "publicHealthPath"; "resources";
   "persistence"].

Definition ServiceSettingsError (code_ : string) (status : Z) : jserror := JsError "ServiceSettingsError" code_ (Some status).

Definition assertExpectedServiceVersion (service : jsobj) (expectedUpdatedAt : string) : result unit :=
  throw_if (negb (bool_decide (serviceVersion service = expectedUpdatedAt))) (ServiceSettingsError "STALE_SERVICE" 409).

Record SettingsSnapshot := mkSnapshot { sn_serviceId : string; sn_projectId : string; sn_updatedAt : string; sn_deployed : bool; sn_settings : jsobj }.

Definition setting_of (service : jsobj) (field_ : string) : jsval :=
  js_nullish (obj_get field_ service)
    (js_nullish (obj_get field_ (entries (obj_get "desiredState" service))) (obj_get field_ (entries (obj_get "desiredSpec" service)))).

Definition serviceSettingsSnapshot (service : jsobj) (deployed : bool) : SettingsSnapshot :=
  mkSnapshot (js_String (obj_get "id" service)) (js_String (obj_get "projectId" service)) (serviceVersion service) deployed
    (omap (fun k => match setting_of service k with JUndef | JNull => None | v => Some (k, v) end) settingFields).

Record SettingsInput := mkSettingsInput { si_expectedUpdatedAt : string; si_changes : jsobj; si_files : jsobj }.

Definition settings_json (input : SettingsInput) : jsval :=
  JObj [("expectedUpdatedAt", JStr (si_expectedUpdatedAt input)); ("changes", JObj (si_changes input)); ("files", JObj (si_files input))].

Definition bad_file (entry : string * jsval) : bool :=
  (1024 <? str_length entry.1) || match entry.2 with JStr content => 1048576 <? str_length content | _ => true end.

Definition parseServiceSettingsInput (input : jsval) : result SettingsInput :=
  let parsed := entries input in
  let invalid := ServiceSettingsError "INVALID_SETTINGS" 400 in
  _ ← throw_if (existsb (fun k => negb (bool_decide (k ∈ ["expectedUpdatedAt"; "changes"; "files"]))) parsed.*1) invalid;
  match obj_get "expectedUpdatedAt" parsed with
  | JStr expected =>
      let files := entries (obj_get "files" parsed) in
      _ ← throw_if ((500 <? length files)%nat || existsb bad_file files) invalid;
      _ ← throw_if (1048576 <? foldl Z.add 0 (map (fun entry => str_length (js_String entry.2)) files)) invalid;
      changes ← parseServiceMutation (obj_get "changes" parsed);
      Ok (mkSettingsInput expected changes files)
  | _ => Throw invalid
  end.

Record SettingsPreview := mkPreview {
  sp_snapshot : SettingsSnapshot; sp_settings : jsobj; sp_diff : list (string * jsval * jsval); sp_before : BuildPlan; sp_after : BuildPlan
}.

Definition previewServiceSettings (service : jsobj) (input : SettingsInput) (context : MutationContext) : result SettingsPreview :=
  _ ← assertExpectedServiceVersion service (si_expectedUpdatedAt input);
  let before := serviceSettingsSnapshot service (mc_deployed context) in
  parsed ← parseServiceMutation (JObj (si_changes input));
  changes ← serviceMutationState service parsed context;
  _ ← validateServiceRuntimeUpdate service changes;
  let afterService := spread (spread service changes)
        [("desiredSpec", JObj (spread (entries (obj_get "desiredSpec" service)) changes));
         ("desiredState", JObj (spread (entries (obj_get "desiredState" service)) changes))] in
  let after := serviceSettingsSnapshot afterService (mc_deployed context) in
  let shown := fun snapshot k => js_nullish (obj_get k (sn_settings snapshot)) JNull in
  planBefore ← resolveBuildStrategy JSON_parse localeCompare sha256_hex service (si_files input);
  planAfter ← resolveBuildStrategy JSON_parse localeCompare sha256_hex afterService (si_files input);
  Ok (mkPreview before (sn_settings after) (map (fun k => (k, shown before k, shown after k)) (js_sort String.leb changes.*1)) planBefore planAfter).

Definition getServiceSettings (serviceId : string) (s : TenantStore) : option SettingsSnapshot :=
  (fun service => serviceSettingsSnapshot service (has_deployment serviceId s)) <$> map_get serviceId (services (plane s)).

(** The method [previewServiceSettings] of the store *)
Definition store_preview (serviceId : string) (input : jsval) (options : ServiceOptions) (s : TenantStore) : result (option SettingsPreview) :=
  match map_get serviceId (services (plane s)) with
  | None => Ok None
  | Some service =>
      parsed ← parseServiceSettingsInput input;
      let context := mutation_context serviceId options s in
      changes ← serviceMutationState service (si_changes parsed) context;
      _ ← validateServiceRuntimeUpdate service changes;
      preview ← previewServiceSettings service parsed context;
      Ok (Some preview)
  end.

Definition updateServiceSettings (serviceId : string) (input : jsval) (options : ServiceOptions) (now : Z) : M TenantStore (option SettingsSnapshot) :=
  parsed ← lift (parseServiceSettingsInput input);
  s ← get;
  preview ← lift (store_preview serviceId (settings_json parsed) options s);
  match preview with
  | None => mret None
  | Some _ =>
      _ ← updateService serviceId (si_changes parsed) options now;
      s' ← get;
      mret (getServiceSettings serviceId s')
  end.

(** *** Replacements *)

Record ReplacementInput := mkReplacement { ri_expectedUpdatedAt : string; ri_name : string; ri_source : jsobj }.

Definition confirmation_required : jserror := ServiceSettingsError "REPLACEMENT_CONFIRMATION_REQUIRED" 400.

Definition parseServiceReplacement (input : jsval) : result ReplacementInput :=
  let parsed := entries input in
  _ ← throw_if (existsb (fun k => negb (bool_decide (k ∈ ["expectedUpdatedAt"; "confirmed"; "name"; "source"]))) parsed.*1) confirmation_required;
  expected ← (match obj_get "expectedUpdatedAt" parsed with JStr t => Ok t | _ => Throw (ServiceSettingsError "STALE_SERVICE" 409) end);
  name ← (match is_true (obj_get "confirmed" parsed), obj_get "name" parsed with
          | true, JStr n => if str_empty (trim n) || (128 <? str_length n) then Throw confirmation_required else Ok (trim n)
          | _, _ => Throw confirmation_required
          end);
  let sourceInput := entries (obj_get "source" parsed) in
  _ ← throw_if (existsb (fun k => negb (bool_decide (k ∈ ["sourceType"; "repoUrl"; "image"; "imageUrl"]))) sourceInput.*1) confirmation_required;
  source ← parseServiceMutation (JObj sourceInput);
  _ ← throw_if (negb (hasOwn "sourceType" source)) confirmation_required;
  Ok (mkReplacement expected name source).

Definition createServiceReplacement (serviceId : string) (input : jsval) (now : Z) : M TenantStore (option jsobj) :=
  s ← get;
  match map_get serviceId (services (plane s)) with
  | None => mret None
  | Some service =>
      r ← lift (parseServiceReplacement input);
      _ ← lift (assertExpectedServiceVersion service (ri_expectedUpdatedAt r));
      _ ← lift (throw_if (negb (has_deployment serviceId s)) (ServiceSettingsError "REPLACEMENT_REQUIRES_DEPLOYMENT" 409));
      _ ← lift (throw_if (existsb (fun candidate => same_primitive (obj_get "projectId" candidate) (obj_get "projectId" service)
                                                   && same_primitive (obj_get "slug" candidate) (JStr (slugify_default (JStr (ri_name r)))))
                            (map_values (services (plane s)))) (ServiceSettingsError "REPLACEMENT_NAME_CONFLICT" 409));
      replacement ← createService (spread [("projectId", obj_get "projectId" service); ("name", JStr (ri_name r))] (ri_source r)) false now;
      mret (Some replacement)
  end.

(** *** Deletion *)

Definition persistent_storage : jserror :=
  conflict "persistent service storage requires project deletion or an explicit data migration before service deletion".

Definition serves (serviceId : string) (row : jsobj) : Prop := js_String (obj_get "serviceId" row) = serviceId.
#[export] Instance serves_dec serviceId row : Decision (serves serviceId row).
Proof. unfold serves. apply _. Defined.

Definition deployment_ids (serviceId : string) (s : TenantStore) : list string :=
  map row_id (filter (serves serviceId) (map_values (deployments (plane s)))).

(** The deletion of every row that belongs to the service *)
Definition purge_service (serviceId : string) (s : TenantStore) : TenantStore :=
  let ids := deployment_ids serviceId s in
  let p := plane s in
  let p := p <| deployments := foldl (fun table id => map_delete id table) (deployments p) ids |>
             <| deploymentEvents := filter (fun row => js_String (obj_get "deploymentId" row) ∉ ids) (deploymentEvents p) |>
             <| services := map_delete serviceId (services p) |> in
  s <| tn_env := (tn_env s) <| ev_plane := p |>
                            <| environmentVariables := filter (fun kv => ~ serves serviceId kv.2) (environmentVariables (tn_env s)) |> |>
    <| buildLogs := filter (fun row => js_String (obj_get "deploymentId" row) ∉ ids) (buildLogs s) |>
    <| runtimeLogs := filter (fun row => ~ serves serviceId row) (runtimeLogs s) |>
    <| resourceAttachments := filter (fun row => ~ serves serviceId row) (resourceAttachments s) |>.

Definition deleteService (serviceId : string) (allowPersistentDataDeletion : bool) (now : Z) : M TenantStore (option jsobj) :=
  s ← get;
  match map_get serviceId (services (plane s)) with
  | None => mret None
  | Some current =>
      _ ← lift (throw_if (exceeds (serviceStorageMb current) (Fin 0) && negb allowPersistentDataDeletion) persistent_storage);
      _ ← modify (purge_service serviceId);
      _ ← tn_audit "system" "service:delete" "service" serviceId (JObj [("projectId", obj_get "projectId" current)]) now;
      mret (Some current)
  end.

(** ** Resources *)

Definition pinned_image_name (c : ascii) : bool := is_alnum c || bool_decide (code c ∈ [46%N; 95%N; 58%N; 47%N; 45%N]).
Definition lower_hex (c : ascii) : bool := is_digit c || ((97 <=? code c)%N && (code c <=? 102)%N).

(** [/^[A-Za-z0-9][A-Za-z0-9._:/-]*@sha256:[a-f0-9]{64}$/] *)
Definition pinned_image (image : string) : bool :=
  match break_at (fun c => (code c =? 64)%N) (chars image) with
  | (first :: name, Some digest) =>
      is_alnum first && forallb pinned_image_name name && prefixb (chars "sha256:") digest
      && (length digest =? 71)%nat && forallb lower_hex (drop 7 digest)
  | _ => false
  end.

Definition unavailable (reasonCode : string) : jserror :=
  JsError "ResourceCapabilityUnavailable" ("RESOURCE_CAPABILITY_UNAVAILABLE: " +:+ reasonCode) (Some 400).

Definition resourceEnvironment (env : jsobj) : result ResourceEnvironment :=
  match obj_get "RAIBITSERVER_RESOURCE_ENVIRONMENT" env with
  | JStr "local" => Ok env_local
  | JStr "release" => Ok env_release
  | _ => Throw (unavailable "RESOURCE_ENVIRONMENT_UNAVAILABLE")
  end.

Definition environment_name (e : ResourceEnvironment) : string := match e with env_local => "local" | env_release => "release" end.

Definition requireResourceExecution (engine : string) (env : jsobj) : result jsobj :=
  environment ← resourceEnvironment env;
  capability ← requireResourceCapability engine "provision" environment;
  let execution := [("intent", JStr "live-provision"); ("environment", JStr (environment_name environment))] in
  if bool_decide (cap_runtime capability = "sqlite-local") then Ok execution else
  match obj_get ("RAIBITSERVER_PROVIDER_" +:+ toUpperCase (cap_engine capability) +:+ "_IMAGE") env with
  | JStr image => if pinned_image image then Ok (execution ++ [("image", JStr image)]) else Throw (unavailable "PROVIDER_IMAGE_UNAVAILABLE")
  | _ => Throw (unavailable "PROVIDER_IMAGE_UNAVAILABLE")
  end.

Definition resourceTypeForEngine (engine : string) : string :=
  if bool_decide (engine ∈ ["redis"; "valkey"]) then "cache"
  else if bool_decide (engine = "object-storage") then "storage"
  else if bool_decide (engine ∈ ["qdrant"; "vector-db"]) then "vector"
  else if bool_decide (engine ∈ ["nats"; "message-queue"]) then "queue"
  else "database".

Definition resourceNameFallback (name : jsval) : jsval :=
  match name with
  | JStr n => if str_empty (trim n) || existsb is_alnum (chars n) then JUndef else JStr ("resource-" +:+ slice0 20 (sha256_hex n))
  | _ => JUndef
  end.

Definition file_char (c : ascii) : bool := is_alnum c || bool_decide (code c ∈ [95%N; 46%N; 45%N]).

Definition providerOwnedSqlitePath (resourceId : string) : string :=
  let name := unchars (take 120 (map (fun c => if file_char c then c else "-"%char) (chars (str_or resourceId "resource")))) in
  sqliteRoot +:+ "/" +:+ str_or name "resource" +:+ ".sqlite".

Definition is_status (status : string) (row : jsobj) : bool := bool_decide (toUpperCase (text_or_empty (obj_get "status" row)) = status).

Definition with_path (sqlitePath : jsval) (spec : jsobj) : jsobj := if truthy sqlitePath then spread spec [("sqlitePath", sqlitePath)] else spec.

Definition RESOURCE_DEFAULTS : jsobj :=
  [("type", JStr "database"); ("provider", JStr "shared-provider"); ("plan", JStr "shared-small"); ("region", JStr "local"); ("status", JStr "provisioning")].

Definition RESOURCE_PARAMS : list string := ["projectId"; "name"; "type"; "engine"; "provider"; "plan"; "region"; "status"].

(** The request with the defaults of the parameters *)
Definition resource_request (input : jsobj) : jsobj :=
  let d := fun k => param k (obj_get k RESOURCE_DEFAULTS) input in
  spread (map (fun k => (k, d k)) RESOURCE_PARAMS) (without RESOURCE_PARAMS input).

Definition same_resource (safe row : jsobj) : Prop :=
  same_primitive (obj_get "projectId" row) (obj_get "projectId" safe) && same_primitive (obj_get "name" row) (obj_get "name" safe) = true.
#[export] Instance same_resource_dec safe row : Decision (same_resource safe row).
Proof. unfold same_resource. apply _. Defined.

Definition stored_of (existing : option jsobj) (k : string) : jsval := match existing with Some row => obj_get k row | None => JUndef end.

Definition createResource (input env : jsobj) (now : Z) : M TenantStore jsobj :=
  let safe := sanitizeTenantResourceInput (resource_request input) in
  let f := fun k => obj_get k safe in
  let normalizedEngine := normalizeResourceEngine (js_or (f "engine") (f "type")) in
  execution ← lift (requireResourceExecution normalizedEngine env);
  s ← get;
  let existing := js_find (same_resource safe) (map_values (resources (plane s))) in
  let stored := stored_of existing in
  let id := js_String (js_or (stored "id") (JStr (stableId "res" [f "projectId"; js_or (resourceNameFallback (f "name")) (f "name")]))) in
  if (match existing with Some row => is_status "READY" row | None => false end) then mret (default [] existing) else
  let sqlitePath := if bool_decide (normalizedEngine = "sqlite")
                    then js_or (stored "sqlitePath") (js_or (field "sqlitePath" (stored "desiredSpec")) (JStr (providerOwnedSqlitePath id))) else JNull in
  canonicalSpec ← lift (canonicalizeProviderDesiredSpec safe [] false);
  let desiredSpec := with_path sqlitePath canonicalSpec in
  let desiredState := spread safe [("engine", JStr normalizedEngine); ("desiredSpec", JObj desiredSpec); ("sqlitePath", js_or sqlitePath JUndef);
                                   ("resourceExecution", JObj execution)] in
  let asked := fun k => js_or (f k) (param k (obj_get k RESOURCE_DEFAULTS) input) in
  let base := [("id", JStr id); ("projectId", f "projectId"); ("type", js_or (f "type") (JStr (resourceTypeForEngine normalizedEngine))); ("name", f "name");
               ("slug", js_or (f "slug") (js_or (stored "slug") (js_or (resourceNameFallback (f "name")) (JStr (slugify_default (f "name"))))));
               ("engine", JStr normalizedEngine); ("provider", asked "provider"); ("status", asked "status"); ("plan", asked "plan"); ("region", asked "region");
               ("createdAt", timestamp now); ("updatedAt", timestamp now)] in
  let resource := spread (spread base safe) [("desiredSpec", JObj desiredSpec); ("desiredState", JObj desiredState); ("sqlitePath", js_or sqlitePath JUndef)] in
  _ ← set_resource id resource;
  _ ← tn_audit "system" "resource:create" "resource" id
        (JObj [("projectId", obj_get "projectId" resource); ("engine", obj_get "engine" resource); ("provider", obj_get "provider" resource)]) now;
  mret resource.

Definition updateResource (resourceId : string) (updates env : jsobj) (now : Z) : M TenantStore (option jsobj) :=
  s ← get;
  match map_get resourceId (resources (plane s)) with
  | None => mret None
  | Some current =>
      _ ← lift (parseResourceMutation (JObj updates));
      _ ← lift (throw_if (is_status "READY" current) (conflict "READY managed resources cannot be updated in place; delete and recreate the resource"));
      _ ← lift (throw_if (is_status "RECONCILING" current && negb (bool_decide (updates = [])))
                  (conflict "RECONCILING managed resources cannot be updated while the provisioner claim is active"));
      let kept := fun k => js_or (obj_get k updates) (obj_get k current) in
      let safe := sanitizeTenantResourceInput (spread updates [("projectId", obj_get "projectId" current); ("name", kept "name");
                                                               ("engine", kept "engine"); ("type", kept "type")]) in
      let engine := normalizeResourceEngine (js_or (obj_get "engine" safe) (obj_get "engine" current)) in
      execution ← lift (requireResourceExecution engine env);
      let sqlitePath := if bool_decide (engine = "sqlite") then js_or (obj_get "sqlitePath" current) (JStr (providerOwnedSqlitePath resourceId)) else JUndef in
      canonicalSpec ← lift (canonicalizeProviderDesiredSpec safe (entries (obj_get "desiredSpec" current)) false);
      let desiredSpec := with_path sqlitePath canonicalSpec in
      let slug := if truthy (obj_get "slug" safe) then JStr (slugify_default (obj_get "slug" safe))
                  else if truthy (obj_get "name" safe) then JStr (slugify_default (obj_get "name" safe)) else obj_get "slug" current in
      let desiredState := spread (spread (entries (obj_get "desiredState" current)) safe)
                            [("desiredSpec", JObj desiredSpec); ("sqlitePath", sqlitePath); ("resourceExecution", JObj execution)] in
      let next := spread (spread current safe)
                    [("engine", JStr engine); ("slug", slug); ("desiredSpec", JObj desiredSpec); ("desiredState", JObj desiredState);
                     ("sqlitePath", sqlitePath); ("updatedAt", timestamp now)] in
      _ ← set_resource resourceId next;
      _ ← tn_audit "system" "resource:update" "resource" resourceId (maskSecrets (JObj updates)) now;
      mret (Some next)
  end.

(** *** Attachments *)

(** [/^[A-Z_][A-Z0-9_]{0,127}$/] *)
Definition connection_key (key : string) : bool :=
  match chars key with
  | c :: l => (is_upper c || (code c =? 95)%N) && (length l <=? 127)%nat && forallb (fun d => is_upper d || is_digit d || (code d =? 95)%N) l
  | [] => false
  end.

Definition prefixEnv (env : jsobj) (envPrefix : jsval) : jsobj :=
  let underscore := fun c => (code c =? 95)%N in
  let collapsed := collapse_runs (fun c => negb (is_alnum c)) "_"%char false (chars (trim (text_or_empty envPrefix))) in
  let prefix := toUpperCase (unchars (strip_chars underscore collapsed)) in
  if str_empty prefix then env else spread [] (map (fun kv => (prefix +:+ "_" +:+ kv.1, kv.2)) env).

Definition secret_reference (secretName key : string) : jsval :=
  JObj [("valueFrom", JObj [("secretKeyRef", JObj [("name", JStr secretName); ("key", JStr key)])])].

Definition providerSecretEnvRefs (resource : jsobj) (envPrefix : jsval) : result jsobj :=
  _ ← throw_if (negb (is_status "READY" resource)) (conflict "resource must be READY before attachment");
  let connection := field "providerConnection" (obj_get "desiredState" resource) in
  let stored := obj_get "connectionSecretName" resource in
  let secretName := trim (text_or_empty (js_or (field "secretName" connection) stored)) in
  let keys := match field "environmentKeys" connection with JArr l => map js_String l | _ => [] end in
  _ ← throw_if (negb (label_pattern secretName) || (63 <? str_length secretName))
        (conflict "READY resource is missing a valid Kubernetes connection Secret reference");
  _ ← throw_if (truthy stored && negb (bool_decide (js_String stored = secretName))) (conflict "resource connection Secret metadata is inconsistent");
  _ ← throw_if (bool_decide (keys = []) || (64 <? length keys)%nat || existsb (fun k => negb (connection_key k)) keys)
        (conflict "READY resource is missing valid connection environment keys");
  Ok (prefixEnv (spread [] (map (fun k => (k, secret_reference secretName k)) keys)) envPrefix).

Definition kubernetesExternalSecretRef (reference : jsval) : result string :=
  let secretKeyRef := field "secretKeyRef" (field "valueFrom" reference) in
  _ ← throw_if (negb (truthy (field "name" secretKeyRef)) || negb (truthy (field "key" secretKeyRef))) (conflict "invalid Kubernetes Secret reference");
  Ok ("k8s:" +:+ js_String (field "name" secretKeyRef) +:+ "#" +:+ js_String (field "key" secretKeyRef)).

Definition entry_name (entry : jsval) : string := text_or_empty (field "name" entry).

Definition mergeSecretEnv (current : jsval) (injectedEnv : jsobj) (replaceKeys : list string) : list jsval :=
  let rows := filter (fun entry => entry_name entry ∉ replaceKeys) (items current) in
  let byName := spread [] (map (fun entry => (js_String (field "name" entry), entry)) rows) in
  map_values (spread byName (map (fun kv => (kv.1, JObj (spread [("name", JStr kv.1)] (entries kv.2)))) injectedEnv)).

Definition attaches (resourceId serviceId : string) (row : jsobj) : Prop :=
  js_String (obj_get "resourceId" row) = resourceId /\ js_String (obj_get "serviceId" row) = serviceId.
#[export] Instance attaches_dec resourceId serviceId row : Decision (attaches resourceId serviceId row).
Proof. unfold attaches. apply _. Defined.

(** The row of an injected variable *)
Definition injected_row (service : jsobj) (resourceId serviceId : string) (entry : string * jsval) (secretRef : string) (now : Z) : jsobj :=
  [("id", JStr (stableId "env" [JStr serviceId; JStr entry.1])); ("projectId", obj_get "projectId" service); ("serviceId", JStr serviceId);
   ("key", JStr entry.1); ("value", JNull); ("isSecret", JBool true); ("secretRef", JStr secretRef); ("valueMasked", JStr "****");
   ("source", JStr ("resource:" +:+ resourceId)); ("updatedAt", timestamp now)].

Definition inject_variable (service : jsobj) (resourceId serviceId : string) (now : Z) (entry : string * jsval) : M TenantStore unit :=
  secretRef ← lift (kubernetesExternalSecretRef entry.2);
  on_env (modify (fun e => e <| environmentVariables :=
    map_set (stableId "env" [JStr serviceId; JStr entry.1]) (injected_row service resourceId serviceId entry secretRef now) (environmentVariables e) |>)).

(** [service] with another list of secret variables *)
Definition with_secretEnv (service : jsobj) (secretEnv : list jsval) : jsval :=
  JObj (spread (entries (obj_get "desiredSpec" service)) [("secretEnv", JArr secretEnv)]).

Definition attachResource (resourceId serviceId : string) (envPrefix : jsval) (actorUserId : string) (now : Z) : M TenantStore jsobj :=
  s ← get;
  _ ← lift (assertRecoveryTargetPublished (recoveryState s) resourceId);
  resource ← lift (match map_get resourceId (resources (plane s)) with Some r => Ok r | None => Throw (notFound ("resource not found: " +:+ resourceId)) end);
  service ← lift (match map_get serviceId (services (plane s)) with Some r => Ok r | None => Throw (notFound ("service not found: " +:+ serviceId)) end);
  _ ← lift (throw_if (negb (same_primitive (obj_get "projectId" resource) (obj_get "projectId" service)))
              (forbidden "resource and service must be in the same project"));
  injectedEnv ← lift (providerSecretEnvRefs resource envPrefix);
  let row := [("id", JStr (stableId "attach" [JStr resourceId; JStr serviceId])); ("resourceId", JStr resourceId); ("serviceId", JStr serviceId);
              ("envPrefix", envPrefix); ("injectedEnv", JObj injectedEnv); ("createdAt", timestamp now); ("updatedAt", timestamp now)] in
  let index := js_findIndex (attaches resourceId serviceId) (resourceAttachments s) in
  let previous := index ≫= fun i => resourceAttachments s !! i in
  let stored := match previous with
                | Some old => spread (spread old row) [("createdAt", js_or (obj_get "createdAt" old) (timestamp now))]
                | None => row
                end in
  _ ← modify (fun s => s <| resourceAttachments := match index with Some i => <[i := stored]> (resourceAttachments s) | None => resourceAttachments s ++ [row] end |>);
  let previousKeys := match previous with Some old => (entries (obj_get "injectedEnv" old)).*1 | None => [] end in
  let secretEnv := mergeSecretEnv (field "secretEnv" (obj_get "desiredSpec" service)) injectedEnv previousKeys in
  _ ← set_service serviceId (spread service [("desiredSpec", with_secretEnv service secretEnv); ("updatedAt", timestamp now)]);
  _ ← for_each (inject_variable service resourceId serviceId now) injectedEnv;
  _ ← tn_audit actorUserId "resource:attach" "service" serviceId
        (JObj [("resourceId", JStr resourceId); ("envPrefix", envPrefix); ("envKeys", JArr (map JStr injectedEnv.*1))]) now;
  mret stored.

(** Remove the variable [key] a resource injected, and its secret. *)
Definition withdraw_key (resourceId serviceId key : string) (acc : EnvStore * jsobj) : EnvStore * jsobj :=
  let '(e, environment) := acc in
  let id := stableId "env" [JStr serviceId; JStr key] in
  match map_get id (environmentVariables e) with
  | Some row =>
      if is_str ("resource:" +:+ resourceId) (obj_get "source" row) then
        let secretRef := js_or (obj_get "secretRef" row) (obj_get "secretId" row) in
        let e := if truthy secretRef && negb (startsWith (js_String secretRef) "k8s:")
                 then e <| secrets := map_delete (js_String secretRef) (secrets e) |> else e in
        (e <| environmentVariables := map_delete id (environmentVariables e) |>, map_delete key environment)
      else acc
  | None => acc
  end.

Definition removeResourceInjectedEnvironment (now : Z) (attachment : jsobj) : M TenantStore unit := fun s =>
  let serviceId := js_String (obj_get "serviceId" attachment) in
  let resourceId := js_String (obj_get "resourceId" attachment) in
  let service := map_get serviceId (services (plane s)) in
  let removedKeys := (entries (obj_get "injectedEnv" attachment)).*1 in
  let '(e, environment) := foldl (fun acc key => withdraw_key resourceId serviceId key acc)
                             (tn_env s, entries (stored_of service "environment")) removedKeys in
  let s := s <| tn_env := e |> in
  match service with
  | None => (Ok tt, s)
  | Some row =>
      let secretEnv := filter (fun entry => entry_name entry ∉ removedKeys) (items (field "secretEnv" (obj_get "desiredSpec" row))) in
      set_service (row_id row) (spread row [("environment", JObj environment); ("desiredSpec", with_secretEnv row secretEnv); ("updatedAt", timestamp now)]) s
  end.

Definition of_resource (resourceId : string) (row : jsobj) : Prop := js_String (obj_get "resourceId" row) = resourceId.
#[export] Instance of_resource_dec resourceId row : Decision (of_resource resourceId row).
Proof. unfold of_resource. apply _. Defined.

Definition provider_secret (resourceId : string) (row : SecretRow) : Prop :=
  sec_scopeType row = "resource-provider-connection" /\ sec_scopeId row = resourceId.
#[export] Instance provider_secret_dec resourceId row : Decision (provider_secret resourceId row).
Proof. unfold provider_secret. apply _. Defined.

Definition deleteResource (resourceId : string) (now : Z) : M TenantStore (option jsobj) :=
  s ← get;
  _ ← lift (assertRecoveryPins (recoveryState s) [resourceId]);
  _ ← modify (fun s => s <| recoveryState := retireMemoryRecovery resourceId (recoveryState s) |>);
  match map_get resourceId (resources (plane s)) with
  | None => mret None
  | Some current =>
      _ ← for_each (removeResourceInjectedEnvironment now) (filter (of_resource resourceId) (resourceAttachments s));
      _ ← modify (fun s => s <| resourceAttachments := filter (fun row => ~ of_resource resourceId row) (resourceAttachments s) |>);
      _ ← on_env (modify (fun e => e <| secrets := filter (fun kv => ~ provider_secret resourceId kv.2) (secrets e) |>));
      _ ← on_plane (modify (fun p => p <| resources := map_delete resourceId (resources p) |>));
      _ ← tn_audit "system" "resource:delete" "resource" resourceId (JObj [("projectId", obj_get "projectId" current); ("engine", obj_get "engine" current)]) now;
      mret (Some current)
  end.

(** ** Deleting a project *)

Definition deleteProject (projectId : string) (now : Z) : M TenantStore (option jsobj) :=
  s ← get;
  _ ← lift (assertRecoveryPins (recoveryState s) (project_resource_ids projectId s));
  match map_get projectId (projects (plane s)) with
  | None => mret None
  | Some current =>
      _ ← for_each (fun row => _ ← deleteService (row_id row) true now; mret tt) (filter (of_project projectId) (map_values (services (plane s))));
      s ← get;
      _ ← for_each (fun row => _ ← deleteResource (row_id row) now; mret tt) (filter (of_project projectId) (map_values (resources (plane s))));
      _ ← on_plane (modify (fun p => p <| projects := map_delete projectId (projects p) |>));
      _ ← tn_audit "system" "project:delete" "project" projectId (JObj [("organizationId", obj_get "organizationId" current)]) now;
      mret (Some current)
  end.

(** ** Properties: effects of the steps *)

Definition with_workflow (w : WorkflowStore) (s : TenantStore) : TenantStore :=
  s <| tn_env := (tn_env s) <| ev_plane := (plane s) <| cp_workflow := w |> |> |>.

Lemma tn_audit_returns actor action ttype tid meta now s u s1 :
  tn_audit actor action ttype tid meta now s = (Ok u, s1) -> exists w, s1 = with_workflow w s.
Proof. intros [= _ <-]. by eexists. Qed.

Lemma set_service_returns id row s u s1 : set_service id row s = (Ok u, s1) ->
  s1 = s <| tn_env := (tn_env s) <| ev_plane := (plane s) <| services := map_set id row (services (plane s)) |> |> |>.
Proof. by intros [= _ <-]. Qed.

Lemma set_project_returns id row s u s1 : set_project id row s = (Ok u, s1) ->
  s1 = s <| tn_env := (tn_env s) <| ev_plane := (plane s) <| projects := map_set id row (projects (plane s)) |> |> |>.
Proof. by intros [= _ <-]. Qed.

Lemma same_primitive_eq a b : same_primitive a b = true -> a = b.
Proof.
  destruct a as [| |x|[x| | |]|x| |], b as [| |y|[y| | |]|y| |]; cbn; try done; intros H; f_equal; try by apply bool_decide_eq_true in H.
  f_equal. by apply Z.eqb_eq.
Qed.

(** A key that is none of those written out *)
Ltac absent := cbn; repeat (apply not_elem_of_cons; split; [done|]); apply not_elem_of_nil.

(** Take the writes and the audit off a successful run. *)
Ltac writes_in H :=
  repeat (returns_in H;
    lazymatch type of H with
    | (tn_audit _ _ _ _ _ _ ≫= _) _ = _ =>
        let w := fresh "w" in apply bind_returns in H as (? & ? & (w & ->)%tn_audit_returns & H); cbn beta zeta in H
    | (set_service _ _ ≫= _) _ = _ => apply bind_returns in H as (? & ? & ->%set_service_returns & H); cbn beta zeta in H
    | (set_project _ _ ≫= _) _ = _ => apply bind_returns in H as (? & ? & ->%set_project_returns & H); cbn beta zeta in H
    end); returns_in H.

Lemma updateService_returns serviceId updates options now s next s' :
  updateService serviceId updates options now s = (Ok (Some next), s') ->
  exists current, map_get serviceId (services (plane s)) = Some current
    /\ updated_service current updates (mutation_context serviceId options s) options now = Ok next
    /\ services (plane s') = map_set serviceId next (services (plane s)) /\ deployments (plane s') = deployments (plane s).
Proof.
  intros H. unfold updateService in H. returns_in H. destruct (map_get serviceId _) as [current|] eqn:Hc; [|by returns_in H; simplify_eq].
  writes_in H. simplify_eq. exists current. done.
Qed.

(** ** Versions *)

(** [Date.parse] reads what [toISOString] wrote at this time. *)
Definition reads_at (t : Z) : Prop := dateParse (toISOString t) = Some t.

Lemma iso_Ok t out : iso t = Ok out -> exists ms, t = Some ms /\ out = toISOString ms.
Proof. unfold iso. destruct t as [ms|]; [|done]. destruct (_ <=? _); [|done]. intros [= <-]. by exists ms. Qed.

(** A version is followed by another one. *)
Lemma next_version_differs current now out :
  (forall t, dateParse current = Some t -> reads_at (Z.max now (t + 1))) -> nextProjectUpdatedAt current now = Ok out -> out <> current.
Proof.
  intros Hr H. apply iso_Ok in H as (ms & H & ->). destruct (dateParse current) as [t|] eqn:E; [|done]. cbn in H. injection H as <-.
  intros Heq. specialize (Hr t eq_refl). unfold reads_at in Hr. rewrite Heq, E in Hr. injection Hr. lia.
Qed.

Lemma toISOString_ends t : last (chars (toISOString t)) = Some "Z"%char.
Proof.
  unfold toISOString. destruct (civil_from_days _) as [[y m] d]. rewrite !chars_app, !app_assoc. change (chars "Z") with ["Z"%char]. apply last_snoc.
Qed.

(** The version of a service is what its next time is computed from, unless the
    row carries a time that is no text of one. *)
Lemma version_differs service now out : let current := js_String (js_or (obj_get "updatedAt" service) (obj_get "createdAt" service)) in
  (forall t, dateParse current = Some t -> reads_at (Z.max now (t + 1))) -> nextProjectUpdatedAt current now = Ok out -> out <> serviceVersion service.
Proof.
  cbn zeta. intros Hr H. unfold serviceVersion, js_or in *. destruct (truthy (obj_get "updatedAt" service)) eqn:E.
  - destruct (obj_get "updatedAt" service); try discriminate E; by eapply next_version_differs.
  - apply iso_Ok in H as H'. destruct H' as (ms & _ & ->). intros Heq. pose proof (toISOString_ends ms) as Hl.
    destruct (obj_get "updatedAt" service) as [| |[]|[[]| | |]|[]| |]; try discriminate E; cbn [js_nullish] in Heq;
      try (by eapply next_version_differs); rewrite Heq in Hl; by vm_compute in Hl.
Qed.

Lemma updated_service_version current updates context options now next : updated_service current updates context options now = Ok next ->
  exists updatedAt, nextProjectUpdatedAt (js_String (js_or (obj_get "updatedAt" current) (obj_get "createdAt" current))) now = Ok updatedAt
    /\ obj_get "updatedAt" next = JStr updatedAt.
Proof.
  intros H. unfold updated_service in H. repeat (apply bind_Ok in H as (? & ? & H)). injection H as <-. eexists. split; [done|].
  apply (obj_get_spread_in "updatedAt" _ [] _ []). apply not_elem_of_nil.
Qed.

Lemma settings_again p q : parseServiceSettingsInput (settings_json p) = Ok q -> si_expectedUpdatedAt q = si_expectedUpdatedAt p.
Proof.
  intros H. unfold parseServiceSettingsInput, settings_json in H. cbn [entries] in H. apply bind_Ok in H as (_ & _ & H).
  match type of H with context [obj_get "expectedUpdatedAt" ?o] => change (obj_get "expectedUpdatedAt" o) with (JStr (si_expectedUpdatedAt p)) in H end.
  repeat (apply bind_Ok in H as (_ & _ & H) || (apply bind_Ok in H as (? & _ & H))). by injection H as <-.
Qed.

(** A preview is computed against the version the client read. *)
Lemma preview_version serviceId p options s preview : store_preview serviceId (settings_json p) options s = Ok (Some preview) ->
  exists service, map_get serviceId (services (plane s)) = Some service /\ serviceVersion service = si_expectedUpdatedAt p.
Proof.
  unfold store_preview. destruct (map_get serviceId _) as [service|]; [|done]. intros H. exists service. split; [done|].
  apply bind_Ok in H as (q & Hq & H). apply settings_again in Hq as <-. apply bind_Ok in H as (? & _ & H). apply bind_Ok in H as (? & _ & H).
  apply bind_Ok in H as (? & H & _). unfold previewServiceSettings in H. apply bind_Ok in H as ([] & H & _).
  apply throw_if_Ok, negb_false_iff, bool_decide_eq_true in H. done.
Qed.

Lemma updateServiceSettings_returns serviceId input options now s v s' :
  updateServiceSettings serviceId input options now s = (Ok (Some v), s') ->
  exists p current next, parseServiceSettingsInput input = Ok p /\ map_get serviceId (services (plane s)) = Some current
    /\ serviceVersion current = si_expectedUpdatedAt p /\ updateService serviceId (si_changes p) options now s = (Ok (Some next), s').
Proof.
  intros H. unfold updateServiceSettings in H. returns_in H. destruct x0 as [preview|]; [|by returns_in H; simplify_eq].
  apply preview_version in L0 as (current & Hc & Hv). apply bind_returns in H as (next & s1 & Hu & H). returns_in H. simplify_eq.
  destruct next as [next|]; [by exists x, current, next|]. exfalso. unfold updateService in Hu. returns_in Hu. rewrite Hc in Hu. writes_in Hu. done.
Qed.

(** C13. No lost updates: once a client has saved the settings of a service,
    saving other settings against the version it had read is refused, whoever
    asks and whatever the settings are, and changes nothing. *)
Theorem settings_no_lost_update serviceId input now options v s s1 input' now' options' first second :
  parseServiceSettingsInput input = Ok first -> parseServiceSettingsInput input' = Ok second ->
  si_expectedUpdatedAt second = si_expectedUpdatedAt first ->
  (forall service t, map_get serviceId (services (plane s)) = Some service ->
    dateParse (js_String (js_or (obj_get "updatedAt" service) (obj_get "createdAt" service))) = Some t -> reads_at (Z.max now (t + 1))) ->
  updateServiceSettings serviceId input options now s = (Ok (Some v), s1) ->
  exists e, updateServiceSettings serviceId input' options' now' s1 = (Throw e, s1).
Proof.
  intros Hf Hs Hsame Hr H. apply updateServiceSettings_returns in H as (p & current & next & Hp & Hc & Hv & Hu). rewrite Hf in Hp. injection Hp as <-.
  apply updateService_returns in Hu as (c & Hc' & Hup & Hservices & _). rewrite Hc in Hc'. injection Hc' as <-.
  apply updated_service_version in Hup as (updatedAt & Hnext & Hat).
  assert (serviceVersion next <> si_expectedUpdatedAt second) as Hne.
  { rewrite Hsame, <- Hv. unfold serviceVersion at 1. rewrite Hat. cbn. eapply version_differs; [|done]. intros t. by apply Hr. }
  unfold updateServiceSettings. rewrite run_lift, Hs, run_get, run_lift.
  destruct (store_preview serviceId (settings_json second) options' s1) as [[preview|]|e] eqn:E; [| |by exists e]; exfalso.
  - apply preview_version in E as (service & Hg & Hve). rewrite Hservices, map_get_set_eq in Hg. congruence.
  - unfold store_preview in E. rewrite Hservices, map_get_set_eq in E. by apply bind_Ok in E as (? & _ & (? & _ & (? & _ & (? & _ & [=])%bind_Ok)%bind_Ok)%bind_Ok).
Qed.

Lemma parsed_project fs parsed : parseProjectMutation (JObj fs) = Ok parsed -> parsed = fs /\ keys_in ["name"; "description"] parsed.
Proof.
  intros H. unfold parseProjectMutation in H. apply bind_Ok in H as (fs' & [= <-] & H). apply bind_Ok in H as ([] & Hk & H). unbind.
  split; [done|]. intros k. apply keys_Ok. done.
Qed.

(** The keys a change of a project's settings writes *)
Lemma settings_keys k fs parsed : parseProjectMutation (JObj fs) = Ok parsed -> k ∉ ["name"; "description"] ->
  k ∉ (filter (fun kv => same_primitive kv.2 JUndef = false) parsed).*1.
Proof.
  intros [_ Hk]%parsed_project Hn (kv & -> & [_ Hin]%list_elem_of_filter)%list_elem_of_fmap. apply Hn, Hk. by apply list_elem_of_fmap_2.
Qed.

Lemma updateProjectSettings_returns projectId organizationId actor input now s v s' :
  updateProjectSettings projectId organizationId actor input now s = (Ok (Some v), s') ->
  exists current next updatedAt, map_get projectId (projects (plane s)) = Some current
    /\ js_String (obj_get "organizationId" current) = organizationId /\ js_String (obj_get "updatedAt" current) = pu_expectedUpdatedAt input
    /\ nextProjectUpdatedAt (pu_expectedUpdatedAt input) now = Ok updatedAt
    /\ projects (plane s') = map_set projectId next (projects (plane s))
    /\ obj_get "updatedAt" next = JStr updatedAt /\ obj_get "organizationId" next = obj_get "organizationId" current.
Proof.
  intros H. unfold updateProjectSettings in H. returns_in H. destruct (map_get projectId _) as [current|] eqn:Hc; [|by returns_in H; simplify_eq].
  destruct (bool_decide (js_String (obj_get "organizationId" current) = organizationId)) eqn:Ho; cbn [negb] in H; [|by returns_in H; simplify_eq].
  writes_in H. injection H as L1 <-. apply negb_false_iff, bool_decide_eq_true in G. apply bool_decide_eq_true in Ho. rewrite G in *.
  exists current. eexists. exists x0. do 4 (split; [done|]). split; [reflexivity|]. split.
  - apply (obj_get_spread_in "updatedAt" _ [] _ []). apply not_elem_of_nil.
  - rewrite obj_get_set_ne by done. apply obj_get_spread_notin.
    eapply settings_keys; [done|]. apply (bool_decide_unpack _). vm_compute. exact I.
Qed.

(** No lost updates of projects: once the settings of a project have been
    saved, saving against the version read before is answered with a conflict
    and changes nothing. *)
Theorem project_settings_no_lost_update projectId organizationId actor input now v s s1 actor' input' now' :
  pu_expectedUpdatedAt input' = pu_expectedUpdatedAt input ->
  (forall t, dateParse (pu_expectedUpdatedAt input) = Some t -> reads_at (Z.max now (t + 1))) ->
  updateProjectSettings projectId organizationId actor input now s = (Ok (Some v), s1) ->
  updateProjectSettings projectId organizationId actor' input' now' s1 = (Throw ProjectSettingsError, s1).
Proof.
  intros Hsame Hr (current & next & updatedAt & Hc & Ho & Hv & Hn & Hp & Hat & Hno)%updateProjectSettings_returns.
  unfold updateProjectSettings. rewrite run_get. cbn beta. rewrite Hp, map_get_set_eq, Hno, Ho, bool_decide_true by done. cbn [negb].
  rewrite run_lift, Hat, Hsame, bool_decide_false; [done|]. by eapply next_version_differs.
Qed.

(** ** What an update leaves alone *)

Lemma normalized_keys allowed n allow : keys_in allowed n -> "slug" ∉ allowed -> "image" ∈ allowed -> "imageUrl" ∈ allowed ->
  keys_in allowed (normalized_update n allow).
Proof.
  intros H Hs Hi Hu. unfold normalized_update. set (n1 := if allow then _ else _).
  assert (keys_in allowed n1) as H1 by (subst n1; destruct allow; repeat apply keys_delete; done). clearbody n1.
  rewrite (keys_absent allowed "slug" n1) by done. cbn [truthy]. set (n2 := if _ && _ then _ else n1).
  assert (keys_in allowed n2) as H2 by (subst n2; destruct (_ && _); [by apply keys_set|done]). clearbody n2.
  destruct (_ && _); [by apply keys_set|done].
Qed.

Lemma normalized_get k n allow : k ∉ ["id"; "projectId"; "desiredState"; "slug"; "image"; "imageUrl"] ->
  map_get k (normalized_update n allow) = map_get k n.
Proof.
  intros Hk. assert (k <> "id" /\ k <> "projectId" /\ k <> "desiredState" /\ k <> "slug" /\ k <> "image" /\ k <> "imageUrl") as (H1 & H2 & H3 & H4 & H5 & H6)
    by (split_and!; intros ->; apply Hk; repeat constructor).
  unfold normalized_update. set (n1 := if allow then _ else _).
  assert (map_get k n1 = map_get k n) as <- by (subst n1; destruct allow; by rewrite ?map_get_delete_ne). clearbody n1.
  set (n2 := if truthy _ then _ else n1). assert (map_get k n2 = map_get k n1) as <- by (subst n2; destruct (truthy _); [by rewrite map_get_set_ne|done]).
  clearbody n2. set (n3 := if _ && _ then _ else n2). assert (map_get k n3 = map_get k n2) as <- by (subst n3; destruct (_ && _); [by rewrite map_get_set_ne|done]).
  clearbody n3. destruct (_ && _); [by rewrite map_get_set_ne|done].
Qed.

Lemma normalized_nodup n allow : map_wf n -> map_wf (normalized_update n allow).
Proof.
  intros H. unfold normalized_update. set (n1 := if allow then _ else _).
  assert (map_wf n1) as H1 by (subst n1; destruct allow; repeat apply map_wf_delete; done). clearbody n1.
  set (n2 := if truthy _ then _ else n1). assert (map_wf n2) as H2 by (subst n2; destruct (truthy _); [by apply map_wf_set|done]). clearbody n2.
  set (n3 := if _ && _ then _ else n2). assert (map_wf n3) as H3 by (subst n3; destruct (_ && _); [by apply map_wf_set|done]). clearbody n3.
  destruct (_ && _); [by apply map_wf_set|done].
Qed.

Lemma normalized_no_id n allow : map_get "id" (normalized_update n allow) = None.
Proof.
  unfold normalized_update. set (n1 := if allow then _ else _).
  assert (map_get "id" n1 = None) as H by (subst n1; destruct allow; rewrite ?map_get_delete_ne by done; apply map_get_delete_eq). clearbody n1.
  repeat (match goal with |- context [if ?b then map_set _ _ _ else _] => destruct b end; rewrite ?map_get_set_ne by done); done.
Qed.

Lemma get_masked k o : isSecretKey k = false -> map_get k (entries (maskSecrets (JObj o))) = maskSecrets <$> map_get k o.
Proof.
  intros Hk. cbn [maskSecrets entries]. induction o as [|[k' v] o IH]; [done|]. cbn [map map_get]. case_decide; [|done]. subst k'.
  by rewrite Hk, andb_false_r.
Qed.

Definition WRITTEN_KEYS : list string := "desiredSpec" :: editable.

Lemma parseServiceMutation_keys updates parsed : parseServiceMutation (JObj updates) = Ok parsed ->
  keys_in WRITTEN_KEYS parsed /\ (map_wf updates -> map_wf parsed) /\ (forall k, k ∉ HEALTH_KEYS -> map_get k parsed = map_get k updates).
Proof.
  intros H. unfold parseServiceMutation in H. apply bind_Ok in H as (fs & [= <-] & H). apply bind_Ok in H as ([] & Hk & H).
  do 4 (apply bind_Ok in H as (? & _ & H)). apply bind_Ok in H as (paths & Hp & H). apply parseHealthPaths_keys in Hp. unbind.
  split_and!.
  - apply keys_spread; intros k; [intros Hin; right; by eapply keys_Ok|]. intros Hin%Hp. revert k Hin. apply Forall_forall.
    apply (bool_decide_unpack _). vm_compute. exact I.
  - apply nodup_spread.
  - intros k Hn. apply map_get_spread_notin. intros Hin. apply Hn, Hp. done.
Qed.

(** What a change against the stored service writes, and which stored values it repeats. *)
Lemma mutation_state current parsed context out : serviceMutationState current parsed context = Ok out ->
  (out = parsed \/ exists r, out = map_set "resources" r parsed)
  /\ (mc_deployed context = true -> forall k v, k ∈ FIXED_FIELDS -> map_get k parsed = Some v -> v = obj_get k current).
Proof.
  intros H. unfold serviceMutationState in H. apply bind_Ok in H as ([] & Hf & H). do 3 (apply bind_Ok in H as (? & _ & H)). split.
  - destruct (hasOwn "resources" parsed); cbn [negb] in H; [right|left; by injection H]. repeat (apply bind_Ok in H as (? & _ & H)). injection H as <-. by eexists.
  - intros Hd k v Hk Hg. rewrite Hd in Hf. clear H. revert Hk Hf. induction FIXED_FIELDS as [|k' l IH]; [by intros ?%not_elem_of_nil|].
    intros Hk Hf. cbn [check_fixed] in Hf. apply bind_Ok in Hf as ([] & G%throw_if_Ok & Hf). apply elem_of_cons in Hk as [<-|Hk]; [|by apply IH].
    unfold hasOwn, map_has in G. rewrite Hg, obj_get_map_get, Hg in G. cbn in G. apply negb_false_iff, same_primitive_eq in G. done.
Qed.

Definition SOURCE_FIELDS : list string := ["name"; "type"; "sourceType"; "repoUrl"].

Lemma next_get current n patch u k : k ∉ ["desiredSpec"; "desiredState"; "updatedAt"] -> map_wf n ->
  obj_get k (map_set "updatedAt" (JStr u) (spread (spread current n) (desired_changes current n patch))) =
  match map_get k n with Some v => v | None => obj_get k current end.
Proof.
  intros Hk Hn. rewrite obj_get_set_ne by (intros <-; apply Hk; do 2 right; by left).
  rewrite obj_get_spread_notin by (unfold desired_changes; destruct (bool_decide _); [apply not_elem_of_nil|]; intros [-> | ->%list_elem_of_singleton]%elem_of_cons; apply Hk; [by left|right; by left]).
  rewrite !obj_get_map_get, map_get_spread by done. by destruct (map_get k n).
Qed.


(** ** Creation *)

Lemma with_desired_get k existing rest : k <> "desiredSpec" -> k <> "desiredState" -> map_get k (with_desired existing rest) = map_get k rest.
Proof. intros H1 H2. unfold with_desired. cbv zeta. destruct (_ && _); [done|]. by rewrite !map_get_set_ne. Qed.

(** A property no request may set *)
Lemma created_get k v base existing rest : k ∈ ["id"; "projectId"] -> map_get k base = Some v ->
  obj_get k (spread base (with_desired existing (map_delete "desiredState" (map_delete "projectId" (map_delete "id" rest))))) = v.
Proof.
  intros Hk Hb. rewrite obj_get_map_get, map_get_spread_notin; [by rewrite Hb|]. apply map_get_None.
  assert (k <> "desiredSpec" /\ k <> "desiredState") as [H1 H2] by (split; intros ->; revert Hk; apply (bool_decide_unpack _); vm_compute; exact I).
  rewrite with_desired_get, map_get_delete_ne by done. apply elem_of_cons in Hk as [-> | ->%list_elem_of_singleton].
  - rewrite map_get_delete_ne by done. apply map_get_delete_eq.
  - apply map_get_delete_eq.
Qed.

Lemma createService_returns input allow now s service s' : createService input allow now s = (Ok service, s') ->
  exists serviceId, obj_get "id" service = JStr serviceId /\ obj_get "projectId" service = obj_get "projectId" input
    /\ (map_has serviceId (services (plane s)) && has_deployment serviceId s = false)
    /\ exists w, s' = with_workflow w (s <| tn_env := (tn_env s) <| ev_plane := (plane s) <| services := map_set serviceId service (services (plane s)) |> |> |>).
Proof.
  intros H. unfold createService in H. returns_in H. apply throw_if_Ok in L2. writes_in H. subst service s'.
  exists (stableId "svc" [obj_get "projectId" input; obj_get "name" input]). split_and!; [..|done|by eexists]; apply created_get; try done.
  - by left.
  - right. by left.
Qed.

Lemma replacement_source input r : parseServiceReplacement input = Ok r -> keys_in WRITTEN_KEYS (ri_source r).
Proof.
  intros H. unfold parseServiceReplacement in H. do 4 (apply bind_Ok in H as (? & _ & H)). apply bind_Ok in H as (source & Hs & H). unbind.
  by apply parseServiceMutation_keys in Hs as [? _].
Qed.

(** C16. A replacement replaces nothing: when a replacement for a deployed
    service is created, the service it replaces and every other deployed
    service are as they were, and the replacement is another service of the
    same project. *)
Theorem replacement_preserves serviceId input now s replacement s' : createServiceReplacement serviceId input now s = (Ok (Some replacement), s') ->
  (forall k row, map_get k (services (plane s)) = Some row -> has_deployment k s = true -> map_get k (services (plane s')) = Some row)
  /\ exists service id, map_get serviceId (services (plane s)) = Some service /\ map_get serviceId (services (plane s')) = Some service
     /\ id <> serviceId /\ obj_get "id" replacement = JStr id /\ map_get id (services (plane s')) = Some replacement
     /\ obj_get "projectId" replacement = obj_get "projectId" service.
Proof.
  intros H. unfold createServiceReplacement in H. returns_in H. destruct (map_get serviceId (services (plane s))) as [service|] eqn:Hs; [|by returns_in H; simplify_eq].
  returns_in H. apply negb_false_iff in G. apply bind_returns in H as (r & s1 & H & Hret). returns_in Hret. simplify_eq.
  apply createService_returns in H as (id & Hid & Hp & Hg & w & ->).
  assert (forall k row, map_get k (services (plane s)) = Some row -> has_deployment k s = true -> id <> k) as Hne.
  { intros k row Hk Hd ->. unfold map_has in Hg. rewrite Hk, Hd in Hg. done. }
  assert (forall k row, map_get k (services (plane s)) = Some row -> has_deployment k s = true -> map_get k (map_set id replacement (services (plane s))) = Some row) as Hkeep.
  { intros k row Hk Hd. rewrite map_get_set_ne; [done|]. by eapply Hne. }
  split; [exact Hkeep|]. exists service, id. split; [done|]. split; [by apply Hkeep|]. split; [by eapply Hne|]. split; [done|].
  split; [apply map_get_set_eq|]. rewrite Hp.
  apply replacement_source in L. rewrite obj_get_spread_notin; [done|]. intros Hin%L. revert Hin. apply (bool_decide_unpack _). vm_compute. exact I.
Qed.

(** ** The tables *)

(** A table whose rows are stored under their identifiers *)
Definition keyed (table : jsmap jsobj) : Prop := map_wf table /\ forall k row, map_get k table = Some row -> obj_get "id" row = JStr k.

Lemma keyed_set k row table : keyed table -> obj_get "id" row = JStr k -> keyed (map_set k row table).
Proof.
  intros [Hw Hk] Hid. split; [by apply map_wf_set|]. intros k' row'. rewrite map_get_set. case_decide; [intros [= <-]; by subst|apply Hk].
Qed.

Lemma keyed_delete k table : keyed table -> keyed (map_delete k table).
Proof.
  intros [Hw Hk]. split; [by apply map_wf_delete|]. intros k' row' H. destruct (decide (k = k')) as [<-|]; [by rewrite map_get_delete_eq in H|].
  rewrite map_get_delete_ne in H by done. by apply Hk.
Qed.

Lemma keyed_values table row : keyed table -> row ∈ map_values table -> obj_get "id" row = JStr (row_id row) /\ map_get (row_id row) table = Some row.
Proof. intros [Hw Hk] [k H]%map_values_elem; [|done]. unfold row_id. rewrite (Hk k row H). done. Qed.

(** Rows are stored under their identifiers, and an attachment names a stored
    service and a stored resource. *)
Record tables_ok (ps ss rs : jsmap jsobj) (attachments : list jsobj) : Prop := {
  to_projects : keyed ps; to_services : keyed ss; to_resources : keyed rs;
  to_attachments : forall a, a ∈ attachments ->
    is_Some (map_get (js_String (obj_get "serviceId" a)) ss) /\ is_Some (map_get (js_String (obj_get "resourceId" a)) rs)
}.

Definition tenant_ok (s : TenantStore) : Prop := tables_ok (projects (plane s)) (services (plane s)) (resources (plane s)) (resourceAttachments s).

Definition preserves {S A} (I : S -> Prop) (m : M S A) : Prop := forall s, I s -> I (m s).2.

Section preservation.
Context {S : Type} (I : S -> Prop).

Lemma preserves_bind {A B} (m : M S A) (f : A -> M S B) : preserves I m -> (forall a, preserves I (f a)) -> preserves I (m ≫= f).
Proof. intros Hm Hf s Hs. apply run_bind_state; [by apply Hm|]. intros a s' _. apply Hf. Qed.

Lemma preserves_get {B} (f : S -> M S B) : (forall s, I s -> preserves I (f s)) -> preserves I (get ≫= f).
Proof. intros H s Hs. by apply H. Qed.

Lemma preserves_ret {A} (a : A) : preserves I (mret a : M S A).
Proof. by intros s. Qed.

Lemma preserves_lift {A B} (r : result A) (f : A -> M S B) : (forall a, r = Ok a -> preserves I (f a)) -> preserves I (lift r ≫= f).
Proof. intros H s Hs. rewrite run_lift. destruct r as [a|]; [by apply (H a)|done]. Qed.

Lemma preserves_for_each {A} (f : A -> M S unit) l : (forall x, x ∈ l -> preserves I (f x)) -> preserves I (for_each f l).
Proof.
  induction l as [|x l IH]; intros H; [apply preserves_ret|]. cbn [for_each]. apply preserves_bind; [apply H; by left|].
  intros _. apply IH. intros y Hy. apply H. by right.
Qed.
End preservation.

Lemma is_Some_set {V} k k' (v : V) m : is_Some (map_get k' m) -> is_Some (map_get k' (map_set k v m)).
Proof. intros H. rewrite map_get_set. case_decide; [by eexists|done]. Qed.

Lemma preserves_audit actor action ttype tid meta now : preserves tenant_ok (tn_audit actor action ttype tid meta now).
Proof. by intros s. Qed.

Lemma preserves_set_project id row : obj_get "id" row = JStr id -> preserves tenant_ok (set_project id row).
Proof. intros Hid s [Hp Hs Hr Ha]. split; [by apply keyed_set|done..]. Qed.

Lemma preserves_set_service id row : obj_get "id" row = JStr id -> preserves tenant_ok (set_service id row).
Proof. intros Hid s [Hp Hs Hr Ha]. split; [done|by apply keyed_set|done|]. intros a [H1 H2]%Ha. split; [by apply is_Some_set|done]. Qed.

Lemma preserves_set_resource id row : obj_get "id" row = JStr id -> preserves tenant_ok (set_resource id row).
Proof. intros Hid s [Hp Hs Hr Ha]. split; [done..|by apply keyed_set|]. intros a [H1 H2]%Ha. split; [done|by apply is_Some_set]. Qed.

Lemma preserves_on_env (g : EnvStore -> EnvStore) : (forall e, ev_plane (g e) = ev_plane e) -> preserves tenant_ok (on_env (modify g)).
Proof. intros H s Hs. unfold tenant_ok, plane in *. cbn. by rewrite H. Qed.

(** The steps of a body that keep the tables whatever they are given *)
Ltac steady :=
  repeat lazymatch goal with
  | |- preserves _ (mret _) => apply preserves_ret
  | |- preserves _ (tn_audit _ _ _ _ _ _) => apply preserves_audit
  | |- preserves _ (get ≫= _) => apply preserves_get; intros ? ?
  | |- preserves _ (lift _ ≫= _) => apply preserves_lift; intros ? ?
  | |- preserves _ (lift _) => intros ? ?; assumption
  | |- preserves _ (_ ≫= _) => apply preserves_bind; [|intros ?]
  | |- preserves _ (set_project _ _) => apply preserves_set_project
  | |- preserves _ (set_service _ _) => apply preserves_set_service
  | |- preserves _ (set_resource _ _) => apply preserves_set_resource
  | |- preserves _ (let _ := _ in _) => cbv zeta
  end.

Lemma preserves_createProject input now : preserves tenant_ok (createProject input now).
Proof. unfold createProject. steady. reflexivity. Qed.

Lemma keyed_get k row table : keyed table -> map_get k table = Some row -> obj_get "id" row = JStr k.
Proof. intros [_ H]. apply H. Qed.

Lemma id_kept current changes u : "id" ∉ changes.*1 -> obj_get "id" (map_set "updatedAt" u (spread current changes)) = obj_get "id" current.
Proof. intros H. rewrite obj_get_set_ne by done. by apply obj_get_spread_notin. Qed.

Lemma given_keys names o k : k ∈ (given names o).*1 -> k ∈ names.
Proof.
  unfold given. intros (kv & -> & (k' & Hin & Hg)%list_elem_of_omap)%list_elem_of_fmap. destruct (obj_get k' o); [done|injection Hg as <-; done..].
Qed.

Lemma preserves_updateProject projectId updates now : preserves tenant_ok (updateProject projectId updates now).
Proof.
  unfold updateProject. apply preserves_get. intros s Hs. destruct (map_get projectId _) as [current|] eqn:E; [|apply preserves_ret]. steady.
  rewrite <- (keyed_get projectId current (projects (plane s))) by (done || apply Hs). apply id_kept. rewrite keys_mask.
  intros Hin%given_keys. revert Hin. apply (bool_decide_unpack _). vm_compute. exact I.
Qed.

Lemma preserves_updateProjectSettings projectId organizationId actor input now : preserves tenant_ok (updateProjectSettings projectId organizationId actor input now).
Proof.
  unfold updateProjectSettings. apply preserves_get. intros s Hs. destruct (map_get projectId _) as [current|] eqn:E; [|apply preserves_ret].
  destruct (negb _); [apply preserves_ret|]. steady.
  rewrite <- (keyed_get projectId current (projects (plane s))) by (done || apply Hs). apply id_kept.
  eapply settings_keys; [done|]. apply (bool_decide_unpack _). vm_compute. exact I.
Qed.

Lemma tombstone_id row now t : tombstone row now = Ok t -> obj_get "id" t = obj_get "id" row.
Proof. intros H. unfold tombstone in H. unbind. by rewrite !obj_get_set_ne. Qed.

Lemma preserves_tombstones (set : string -> jsobj -> M TenantStore unit) table l now :
  (forall id row, obj_get "id" row = JStr id -> preserves tenant_ok (set id row)) -> keyed table -> (forall row, row ∈ l -> row ∈ map_values table) ->
  preserves tenant_ok (for_each (fun row => t ← lift (tombstone row now); set (row_id row) t) l).
Proof.
  intros Hset Hk Hl. apply preserves_for_each. intros row Hin%Hl. apply preserves_lift. intros t Ht. apply Hset. rewrite (tombstone_id _ _ _ Ht).
  by eapply keyed_values.
Qed.

Lemma preserves_scheduleProjectDeletion projectId organizationId actor now : preserves tenant_ok (scheduleProjectDeletion projectId organizationId actor now).
Proof.
  unfold scheduleProjectDeletion. apply preserves_get. intros s Hs. destruct (map_get projectId _) as [current|] eqn:E; [|apply preserves_ret].
  destruct (negb _); [apply preserves_ret|]. apply preserves_lift. intros _ _. destruct (bool_decide _); [steady|]. destruct Hs as [Hp Hv Hr _].
  apply preserves_lift. intros row Hrow. apply preserves_bind; [apply preserves_set_project; rewrite (tombstone_id _ _ _ Hrow); by apply (keyed_get _ _ _ Hp)|intros _].
  apply preserves_bind; [eapply preserves_tombstones; [apply preserves_set_service|exact Hv|by intros ? [_ ?]%list_elem_of_filter]|intros _].
  apply preserves_bind; [eapply preserves_tombstones; [apply preserves_set_resource|exact Hr|by intros ? [_ ?]%list_elem_of_filter]|intros _]. steady.
Qed.

Lemma preserves_createService input allow now : preserves tenant_ok (createService input allow now).
Proof. unfold createService. steady. apply created_get; [by left|done]. Qed.

Lemma updated_service_id current updates context options now next : updated_service current updates context options now = Ok next ->
  obj_get "id" next = obj_get "id" current.
Proof.
  intros H. unfold updated_service in H. repeat (apply bind_Ok in H as (? & ? & H)). injection H as <-. rewrite obj_get_set_ne by done.
  rewrite obj_get_spread_notin. 2: { unfold desired_changes. destruct (bool_decide _); absent. }
  apply obj_get_spread_notin, map_get_None. apply normalized_no_id.
Qed.

Lemma preserves_updateService serviceId updates options now : preserves tenant_ok (updateService serviceId updates options now).
Proof.
  unfold updateService. apply preserves_get. intros s Hs. destruct (map_get serviceId _) as [current|] eqn:E; [|apply preserves_ret]. steady.
  rewrite (updated_service_id _ _ _ _ _ _ H). exact (keyed_get _ _ _ (to_services _ _ _ _ Hs) E).
Qed.

Lemma preserves_updateServiceSettings serviceId input options now : preserves tenant_ok (updateServiceSettings serviceId input options now).
Proof.
  unfold updateServiceSettings. apply preserves_lift. intros p _. apply preserves_get. intros s Hs. apply preserves_lift. intros [preview|] _; [|apply preserves_ret].
  apply preserves_bind; [apply preserves_updateService|intros _]. steady.
Qed.

Lemma preserves_createServiceReplacement serviceId input now : preserves tenant_ok (createServiceReplacement serviceId input now).
Proof.
  unfold createServiceReplacement. apply preserves_get. intros s Hs. destruct (map_get serviceId _) as [current|] eqn:E; [|apply preserves_ret].
  do 4 (apply preserves_lift; intros ? ?). apply preserves_bind; [apply preserves_createService|intros ?; apply preserves_ret].
Qed.

Lemma safe_resource_keys input k : k ∈ (sanitizeTenantResourceInput input).*1 -> k ∈ SAFE_RESOURCE_KEYS.
Proof.
  unfold sanitizeTenantResourceInput. intros (kv & -> & (kv' & _ & H)%list_elem_of_omap)%list_elem_of_fmap.
  destruct (bool_decide _) eqn:E; [|done]. destruct (negb _); [|done]. injection H as <-. by apply bool_decide_eq_true in E.
Qed.

Lemma no_id_in_resource input : "id" ∉ (sanitizeTenantResourceInput input).*1.
Proof. intros Hin%safe_resource_keys. revert Hin. apply (bool_decide_unpack _). vm_compute. exact I. Qed.

Lemma preserves_createResource input env now : preserves tenant_ok (createResource input env now).
Proof.
  unfold createResource. apply preserves_lift. intros ? _. apply preserves_get. intros s Hs. cbv zeta. destruct (match js_find _ _ with Some _ => _ | None => _ end); [apply preserves_ret|].
  steady. rewrite obj_get_spread_notin by absent. by rewrite obj_get_spread_notin by apply no_id_in_resource.
Qed.

Lemma preserves_updateResource resourceId updates env now : preserves tenant_ok (updateResource resourceId updates env now).
Proof.
  unfold updateResource. apply preserves_get. intros s Hs. destruct (map_get resourceId _) as [current|] eqn:E; [|apply preserves_ret]. steady.
  rewrite obj_get_spread_notin by absent. rewrite obj_get_spread_notin by apply no_id_in_resource. exact (keyed_get _ _ _ (to_resources _ _ _ _ Hs) E).
Qed.

Lemma preserves_deleteService serviceId allow now : preserves tenant_ok (deleteService serviceId allow now).
Proof.
  unfold deleteService. apply preserves_get. intros s0 _. destruct (map_get serviceId _) as [current|]; [|apply preserves_ret]. apply preserves_lift. intros _ _.
  apply preserves_bind; [|intros _; steady]. intros s [Hp Hs Hr Ha]. split; [done|by apply keyed_delete|done|]. cbn.
  intros a [Hn Hin]%list_elem_of_filter. destruct (Ha a Hin) as [H1 H2]. split; [|done]. rewrite map_get_delete_ne; [done|]. intros Heq. by apply Hn.
Qed.

Lemma secretEnv_id service secretEnv more : "id" ∉ more.*1 -> obj_get "id" (spread service (("desiredSpec", with_secretEnv service secretEnv) :: more)) = obj_get "id" service.
Proof. intros H. apply obj_get_spread_notin. intros [?|?]%elem_of_cons; done. Qed.

Lemma preserves_inject service resourceId serviceId now l : preserves tenant_ok (for_each (inject_variable service resourceId serviceId now) l).
Proof.
  apply preserves_for_each. intros entry _. unfold inject_variable. apply preserves_lift. intros ref _. by apply preserves_on_env.
Qed.

Lemma insert_elem {A} (l : list A) i x y : y ∈ <[i := x]> l -> y = x \/ y ∈ l.
Proof. intros [j Hj]%list_elem_of_lookup. apply list_lookup_insert_Some in Hj as [(_ & -> & _)|[_ H]]; [by left|right; by eapply list_elem_of_lookup_2]. Qed.

(** What replaces or joins the attachments names the two it attaches. *)
Definition attaching (resourceId serviceId : string) (row : jsobj) : Prop :=
  js_String (obj_get "serviceId" row) = serviceId /\ js_String (obj_get "resourceId" row) = resourceId.

Lemma attaching_again old id resourceId serviceId p e c u created :
  let row := [("id", id); ("resourceId", JStr resourceId); ("serviceId", JStr serviceId); ("envPrefix", p); ("injectedEnv", e); ("createdAt", c); ("updatedAt", u)] in
  attaching resourceId serviceId (spread (spread old row) [("createdAt", created)]).
Proof.
  intros row. assert (forall k v a b, row = a ++ (k, JStr v) :: b -> k ∉ b.*1 -> k <> "createdAt" ->
    js_String (obj_get k (spread (spread old row) [("createdAt", created)])) = v) as H.
  { intros k v a b -> Hb Hk. rewrite obj_get_spread_notin by (by intros ?%list_elem_of_singleton). by rewrite obj_get_spread_in. }
  split; [apply (H "serviceId" serviceId [_; _] _ eq_refl)|apply (H "resourceId" resourceId [_] _ eq_refl)]; try done; absent.
Qed.

Lemma tables_attach ps ss rs l l' resourceId serviceId : tables_ok ps ss rs l -> is_Some (map_get serviceId ss) -> is_Some (map_get resourceId rs) ->
  (forall a, a ∈ l' -> attaching resourceId serviceId a \/ a ∈ l) -> tables_ok ps ss rs l'.
Proof. intros [Hp Hv Hr Ha] H1 H2 Hl. split; [done..|]. intros a [[-> ->]|Hin]%Hl; [done|by apply Ha]. Qed.

Lemma preserves_attachResource resourceId serviceId envPrefix actor now : preserves tenant_ok (attachResource resourceId serviceId envPrefix actor now).
Proof.
  intros s Hs. unfold attachResource. rewrite run_get. step_once; [|done]. rewrite run_lift. destruct (map_get resourceId _) as [resource|] eqn:Er; [|done].
  rewrite run_lift. destruct (map_get serviceId _) as [service|] eqn:Es; [|done]. step_once; [|done]. step_once; [|done]. cbv zeta. apply run_bind_state.
  - eapply (tables_attach _ _ _ (resourceAttachments s) _ resourceId serviceId); [exact Hs|by eexists|by eexists|]. intros attachment. cbn.
    destruct (js_findIndex _ _) as [i|] eqn:Ei.
    + intros [->|Hin]%insert_elem; [left|by right]. apply js_findIndex_Some in Ei as (old & Hold & _). cbn. rewrite Hold. apply attaching_again.
    + intros [Hin| ->%list_elem_of_singleton]%elem_of_app; [by right|by left].
  - intros [] s1 _. revert s1. apply preserves_bind; [apply preserves_set_service; rewrite secretEnv_id by absent; exact (keyed_get _ _ _ (to_services _ _ _ _ Hs) Es)|intros _].
    apply preserves_bind; [apply preserves_inject|intros _]. steady.
Qed.

Lemma withdraw_plane resourceId serviceId keys acc : ev_plane (foldl (fun acc key => withdraw_key resourceId serviceId key acc) acc keys).1 = ev_plane acc.1.
Proof.
  revert acc. induction keys as [|key keys IH]; intros acc; [done|]. cbn [foldl]. rewrite IH. destruct acc as [e environment]. unfold withdraw_key.
  destruct (map_get _ _); [|done]. destruct (is_str _ _); [|done]. by destruct (_ && _).
Qed.

Lemma preserves_withdraw now attachment : preserves tenant_ok (removeResourceInjectedEnvironment now attachment).
Proof.
  intros s Hs. unfold removeResourceInjectedEnvironment. cbv zeta.
  match goal with |- context [foldl ?f ?acc ?l] => pose proof (withdraw_plane (js_String (obj_get "resourceId" attachment)) (js_String (obj_get "serviceId" attachment)) l acc) as Hp;
    destruct (foldl f acc l) as [e environment] end. cbn in Hp.
  assert (tenant_ok (s <| tn_env := e |>)) as He by (unfold tenant_ok, plane in *; cbn; by rewrite Hp).
  destruct (map_get _ _) as [row|] eqn:E; [|done]. pose proof (keyed_get _ _ _ (to_services _ _ _ _ Hs) E) as Hid.
  apply preserves_set_service; [|done]. rewrite obj_get_spread_notin by absent. unfold row_id. by rewrite Hid.
Qed.

Lemma preserves_deleteResource resourceId now : preserves tenant_ok (deleteResource resourceId now).
Proof.
  unfold deleteResource. apply preserves_get. intros s0 _. apply preserves_lift. intros _ _. apply preserves_bind; [by intros s|intros _].
  destruct (map_get resourceId _) as [current|]; [|apply preserves_ret].
  apply preserves_bind; [apply preserves_for_each; intros a _; apply preserves_withdraw|intros _]. intros s [Hp Hv Hr Ha].
  split; [done..|by apply keyed_delete|]. cbn. intros a [Hn Hin]%list_elem_of_filter. destruct (Ha a Hin) as [H1 H2]. split; [done|].
  change (is_Some (map_get (js_String (obj_get "resourceId" a)) (map_delete resourceId (resources (plane s))))). rewrite map_get_delete_ne; [done|]. intros Heq. by apply Hn.
Qed.

Lemma preserves_deleteProject projectId now : preserves tenant_ok (deleteProject projectId now).
Proof.
  unfold deleteProject. apply preserves_get. intros s0 _. apply preserves_lift. intros _ _. destruct (map_get projectId _) as [current|]; [|apply preserves_ret].
  apply preserves_bind; [apply preserves_for_each; intros row _; apply preserves_bind; [apply preserves_deleteService|intros _; apply preserves_ret]|intros _].
  apply preserves_get. intros s1 _.
  apply preserves_bind; [apply preserves_for_each; intros row _; apply preserves_bind; [apply preserves_deleteResource|intros _; apply preserves_ret]|intros _].
  apply preserves_bind; [|intros _; steady]. intros s [Hp Hv Hr Ha]. split; [by apply keyed_delete|done..].
Qed.

(** ** Every store that requests lead to *)

Inductive tenant_step (s : TenantStore) : TenantStore -> Prop :=
| step_createProject input now : tenant_step s (createProject input now s).2
| step_updateProject projectId updates now : tenant_step s (updateProject projectId updates now s).2
| step_updateProjectSettings projectId organizationId actor input now : tenant_step s (updateProjectSettings projectId organizationId actor input now s).2
| step_scheduleProjectDeletion projectId organizationId actor now : tenant_step s (scheduleProjectDeletion projectId organizationId actor now s).2
| step_deleteProject projectId now : tenant_step s (deleteProject projectId now s).2
| step_createService input allow now : tenant_step s (createService input allow now s).2
| step_updateService serviceId updates options now : tenant_step s (updateService serviceId updates options now s).2
| step_updateServiceSettings serviceId input options now : tenant_step s (updateServiceSettings serviceId input options now s).2
| step_createServiceReplacement serviceId input now : tenant_step s (createServiceReplacement serviceId input now s).2
| step_deleteService serviceId allow now : tenant_step s (deleteService serviceId allow now s).2
| step_createResource input env now : tenant_step s (createResource input env now s).2
| step_updateResource resourceId updates env now : tenant_step s (updateResource resourceId updates env now s).2
| step_deleteResource resourceId now : tenant_step s (deleteResource resourceId now s).2
| step_attachResource resourceId serviceId envPrefix actor now : tenant_step s (attachResource resourceId serviceId envPrefix actor now s).2.

Lemma tenant_step_ok s s' : tenant_ok s -> tenant_step s s' -> tenant_ok s'.
Proof.
  intros Hs [].
  - by apply preserves_createProject.
  - by apply preserves_updateProject.
  - by apply preserves_updateProjectSettings.
  - by apply preserves_scheduleProjectDeletion.
  - by apply preserves_deleteProject.
  - by apply preserves_createService.
  - by apply preserves_updateService.
  - by apply preserves_updateServiceSettings.
  - by apply preserves_createServiceReplacement.
  - by apply preserves_deleteService.
  - by apply preserves_createResource.
  - by apply preserves_updateResource.
  - by apply preserves_deleteResource.
  - by apply preserves_attachResource.
Qed.

(** C14. Whatever tenants ask for, in any order and with requests that fail on
    the way, the tables stay consistent: every project, service and resource
    is stored under its identifier, and every attachment names a service and a
    resource that exist. *)
Theorem reachable_tables_ok s : rtc tenant_step empty_tenants s -> tenant_ok s.
Proof.
  assert (tenant_ok empty_tenants) as H0 by (split; [split; [apply map_wf_nil|done]..|by intros ? ?%not_elem_of_nil]).
  intros H. revert H0. induction H as [|s s1 s2 Hs _ IH]; [done|]. intros H0. by apply IH, (tenant_step_ok s).
Qed.

(** ** Deleting services *)

Lemma values_delete {V} k (m : list (string * V)) v : v ∈ map_values (map_delete k m) -> v ∈ map_values m.
Proof.
  unfold map_values. induction m as [|[k' v'] m IH]; [done|]. cbn. case_decide; cbn; [by right; apply IH|].
  intros [->|Hin]%elem_of_cons; [by left|right; by apply IH].
Qed.

Lemma values_filter {V} (P : string * V -> Prop) `{!forall x, Decision (P x)} m v : v ∈ map_values (filter P m) -> exists k, (k, v) ∈ m /\ P (k, v).
Proof. unfold map_values. intros ([k v'] & -> & [HP Hin]%list_elem_of_filter)%list_elem_of_fmap. by exists k. Qed.

Lemma get_deleted k ids (table : jsmap jsobj) :
  map_get k (foldl (fun t id => map_delete id t) table ids) = if decide (k ∈ ids) then None else map_get k table.
Proof.
  revert table. induction ids as [|id ids IH]; intros table; [done|]. cbn [foldl]. rewrite IH. destruct (decide (k ∈ ids)) as [H|H].
  - rewrite decide_True; [done|by right].
  - destruct (decide (id = k)) as [->|Hne]; [rewrite map_get_delete_eq, decide_True; [done|by left]|].
    rewrite map_get_delete_ne, decide_False; [done| |done]. intros [?|?]%elem_of_cons; congruence.
Qed.

Lemma keyed_deleted ids table : keyed table -> keyed (foldl (fun t id => map_delete id t) table ids).
Proof. revert table. induction ids as [|id ids IH]; intros table H; [done|]. by apply IH, keyed_delete. Qed.

(** No row of the store belongs to the service. *)
Record nothing_serves (id : string) (s : TenantStore) : Prop := {
  ns_deployments : forall d, d ∈ map_values (deployments (plane s)) -> ~ serves id d;
  ns_runtimeLogs : forall r, r ∈ runtimeLogs s -> ~ serves id r;
  ns_attachments : forall a, a ∈ resourceAttachments s -> ~ serves id a;
  ns_environment : forall v, v ∈ map_values (environmentVariables (tn_env s)) -> ~ serves id v
}.

(** No log line or event is left of the deployments. *)
Definition forgotten (ids : list string) (s : TenantStore) : Prop :=
  (forall row, row ∈ buildLogs s -> js_String (obj_get "deploymentId" row) ∉ ids)
  /\ (forall row, row ∈ deploymentEvents (plane s) -> js_String (obj_get "deploymentId" row) ∉ ids).

(** What the deletion of the services [ids] leaves *)
Record shrinks (ids : list string) (s s' : TenantStore) : Prop := {
  sh_services : forall k, map_get k (services (plane s')) = if decide (k ∈ ids) then None else map_get k (services (plane s));
  sh_resources : resources (plane s') = resources (plane s);
  sh_projects : projects (plane s') = projects (plane s);
  sh_gone : forall id, id ∈ ids -> nothing_serves id s';
  sh_less : forall id, nothing_serves id s -> nothing_serves id s';
  sh_kept : forall k d, map_get k (deployments (plane s)) = Some d -> (forall id, id ∈ ids -> ~ serves id d) -> map_get k (deployments (plane s')) = Some d;
  sh_keyed : keyed (deployments (plane s'));
  sh_forgets : forall id, id ∈ ids -> forgotten (deployment_ids id s) s';
  sh_forgotten : forall l, forgotten l s -> forgotten l s'
}.

Lemma shrinks_nil s : keyed (deployments (plane s)) -> shrinks [] s s.
Proof. intros H. split; try done; by intros ? ?%not_elem_of_nil. Qed.

Lemma deployment_ids_elem id d s : d ∈ map_values (deployments (plane s)) -> serves id d -> row_id d ∈ deployment_ids id s.
Proof. intros Hd Hs. apply list_elem_of_fmap. exists d. split; [done|]. by apply list_elem_of_filter. Qed.

Lemma shrinks_app a b s s1 s2 : keyed (deployments (plane s)) -> shrinks a s s1 -> shrinks b s1 s2 -> shrinks (a ++ b) s s2.
Proof.
  intros Hk Ha Hb. split.
  - intros k. rewrite (sh_services _ _ _ Hb), (sh_services _ _ _ Ha). destruct (decide (k ∈ a ++ b)) as [Hab|Hab].
    + apply elem_of_app in Hab as [?|?]; repeat case_decide; done.
    + rewrite !decide_False; [done|intros ?; apply Hab, elem_of_app; by left|intros ?; apply Hab, elem_of_app; by right].
  - rewrite (sh_resources _ _ _ Hb). apply Ha.
  - rewrite (sh_projects _ _ _ Hb). apply Ha.
  - intros id [H|H]%elem_of_app; [apply (sh_less _ _ _ Hb), (sh_gone _ _ _ Ha id H)|by apply (sh_gone _ _ _ Hb)].
  - intros id H. by apply (sh_less _ _ _ Hb), (sh_less _ _ _ Ha).
  - intros k d Hd Hn. apply (sh_kept _ _ _ Hb); [apply (sh_kept _ _ _ Ha)|]; [done|..]; intros id Hin; apply Hn, elem_of_app; auto.
  - apply Hb.
  - intros id Hid. destruct (decide (id ∈ a)) as [Hin|Hnot]; [by apply (sh_forgotten _ _ _ Hb), (sh_forgets _ _ _ Ha)|].
    assert (id ∈ b) as Hb' by (apply elem_of_app in Hid as [?|?]; done). destruct (sh_forgets _ _ _ Hb id Hb') as [F1 F2].
    assert (forall x, x ∈ deployment_ids id s -> x ∈ deployment_ids id s1) as Hsub.
    { intros x (d & -> & [Hs Hd]%list_elem_of_filter)%list_elem_of_fmap. apply deployment_ids_elem; [|done]. destruct (keyed_values _ _ Hk Hd) as [_ Hg].
      apply map_values_elem; [apply Ha|]. exists (row_id d). apply (sh_kept _ _ _ Ha); [done|]. intros id' Hin' Hs'. unfold serves in *. congruence. }
    split; intros row Hrow Hin%Hsub; [by eapply F1|by eapply F2].
  - intros l H. by apply (sh_forgotten _ _ _ Hb), (sh_forgotten _ _ _ Ha).
Qed.

Lemma purge_shrinks id w s : keyed (deployments (plane s)) -> shrinks [id] s (with_workflow w (purge_service id s)).
Proof.
  intros Hk.
  assert (forall k d, map_get k (deployments (plane s)) = Some d -> k ∈ deployment_ids id s <-> serves id d) as Hids.
  { intros k d Hd. pose proof (keyed_get _ _ _ Hk Hd) as Hid. split.
    - intros (d' & -> & [Hs Hd']%list_elem_of_filter)%list_elem_of_fmap. destruct (keyed_values _ _ Hk Hd') as [_ Hg]. rewrite Hg in Hd. by injection Hd as <-.
    - intros Hs. replace k with (row_id d) by (unfold row_id; by rewrite Hid). apply deployment_ids_elem; [|done]. apply map_values_elem; [apply Hk|by exists k]. }
  assert (forall d, d ∈ map_values (foldl (fun t i => map_delete i t) (deployments (plane s)) (deployment_ids id s)) ->
     ~ serves id d /\ d ∈ map_values (deployments (plane s))) as Hleft.
  { intros d Hd. apply map_values_elem in Hd as [k Hg]; [|by apply keyed_deleted]. rewrite get_deleted in Hg. case_decide as Hin; [done|].
    split; [by rewrite <- (Hids k d Hg)|]. apply map_values_elem; [apply Hk|by exists k]. }
  split; try reflexivity.
  - intros k. cbn. change (map_get k (map_delete id (services (plane s))) = if decide (k ∈ [id]) then None else map_get k (services (plane s))).
    case_decide as Hin; [apply list_elem_of_singleton in Hin as ->; apply map_get_delete_eq|]. apply map_get_delete_ne. intros ->. apply Hin. by left.
  - intros id' ->%list_elem_of_singleton. split; cbn.
    + intros d Hd. by apply Hleft in Hd as [? _].
    + by intros r [? _]%list_elem_of_filter.
    + by intros r [? _]%list_elem_of_filter.
    + intros v Hv. by apply values_filter in Hv as (k & _ & ?).
  - intros id' [H1 H2 H3 H4]. split; cbn.
    + intros d Hd. apply Hleft in Hd as [_ ?]. by apply H1.
    + intros r [_ ?]%list_elem_of_filter. by apply H2.
    + intros r [_ ?]%list_elem_of_filter. by apply H3.
    + intros v Hv. apply values_filter in Hv as (k & Hin & _). apply H4. apply list_elem_of_fmap. by exists (k, v).
  - intros k d Hd Hn. cbn. change (map_get k (foldl (fun t i => map_delete i t) (deployments (plane s)) (deployment_ids id s)) = Some d).
    rewrite get_deleted, decide_False; [done|]. rewrite (Hids k d Hd). apply Hn. by left.
  - by apply keyed_deleted.
  - intros id' ->%list_elem_of_singleton. split; cbn; by intros row [? _]%list_elem_of_filter.
  - intros l [F1 F2]. split; cbn; intros row [_ Hin]%list_elem_of_filter; [by apply F1|by apply F2].
Qed.

Lemma deleteService_returns id now s current r s' : map_get id (services (plane s)) = Some current ->
  deleteService id true now s = (Ok r, s') -> exists w, s' = with_workflow w (purge_service id s).
Proof. intros Hc H. unfold deleteService in H. returns_in H. rewrite Hc in H. writes_in H. subst. by eexists. Qed.

Lemma services_loop now rows s s' : keyed (deployments (plane s)) -> NoDup (map row_id rows) ->
  (forall row, row ∈ rows -> is_Some (map_get (row_id row) (services (plane s)))) ->
  for_each (fun row => _ ← deleteService (row_id row) true now; mret tt) rows s = (Ok tt, s') -> shrinks (map row_id rows) s s'.
Proof.
  revert s. induction rows as [|row rows IH]; intros s Hk Hnd Hin H.
  - cbn in H. injection H as <-. by apply shrinks_nil.
  - cbn [for_each] in H. apply bind_returns in H as ([] & s1 & H1 & H). apply bind_returns in H1 as (r & s1' & H1 & Hret). returns_in Hret. subst s1'.
    destruct (Hin row) as [current Hc]; [by left|]. destruct (deleteService_returns _ _ _ _ _ _ Hc H1) as (w & ->).
    pose proof (purge_shrinks (row_id row) w s Hk) as Hs. cbn [map] in Hnd. apply NoDup_cons in Hnd as [Hn Hnd].
    change (map row_id (row :: rows)) with ([row_id row] ++ map row_id rows). eapply shrinks_app; [done|exact Hs|]. apply IH; [apply Hs|done| |done].
    intros row' Hrow'. rewrite (sh_services _ _ _ Hs), decide_False; [apply Hin; by right|]. intros Heq%list_elem_of_singleton.
    apply Hn. rewrite <- Heq. by apply list_elem_of_fmap_2.
Qed.

(** ** Deleting resources *)

(** What the deletion of resources may change elsewhere *)
Record tame (s s' : TenantStore) : Prop := {
  tm_projects : projects (plane s') = projects (plane s);
  tm_deployments : deployments (plane s') = deployments (plane s);
  tm_events : deploymentEvents (plane s') = deploymentEvents (plane s);
  tm_buildLogs : buildLogs s' = buildLogs s;
  tm_runtimeLogs : runtimeLogs s' = runtimeLogs s;
  tm_services : forall k, (obj_get "projectId" <$> map_get k (services (plane s'))) = (obj_get "projectId" <$> map_get k (services (plane s)));
  tm_attachments : forall a, a ∈ resourceAttachments s' -> a ∈ resourceAttachments s;
  tm_environment : forall v, v ∈ map_values (environmentVariables (tn_env s')) -> v ∈ map_values (environmentVariables (tn_env s))
}.

#[local] Instance tame_refl : Reflexive tame.
Proof. intros s. by split. Qed.

#[local] Instance tame_trans : Transitive tame.
Proof.
  intros s1 s2 s3 [A1 A2 A3 A4 A5 A6 A7 A8] [B1 B2 B3 B4 B5 B6 B7 B8]. split; try congruence; auto.
Qed.

#[local] Instance tame_preorder : PreOrder tame.
Proof. split; apply _. Qed.

Lemma tame_serves id s s' : tame s s' -> nothing_serves id s -> nothing_serves id s'.
Proof.
  intros [_ Hd _ _ Hr _ Ha Hv] [H1 H2 H3 H4]. split; [by rewrite Hd|by rewrite Hr|..].
  - intros a Hin. by apply H3, Ha.
  - intros v Hin. by apply H4, Hv.
Qed.

Lemma tame_forgotten l s s' : tame s s' -> forgotten l s -> forgotten l s'.
Proof. intros [_ _ He Hb _ _ _ _] [F1 F2]. split; [by rewrite Hb|by rewrite He]. Qed.

(** A loop whose rounds keep an invariant and are related by a preorder *)
Lemma for_each_related {S A} (I : S -> Prop) (R : S -> S -> Prop) `{!PreOrder R} (f : A -> M S unit) l :
  (forall x s, x ∈ l -> I s -> I (f x s).2 /\ R s (f x s).2) -> forall s, I s -> I (for_each f l s).2 /\ R s (for_each f l s).2.
Proof.
  induction l as [|x l IH]; intros H s Hs; [done|]. cbn [for_each]. destruct (H x s) as [H1 R1]; [by left|done|].
  unfold mbind, M_bind. destruct (f x s) as [[[]|e] s1]; [|done]. cbn in *. destruct (IH (fun y t Hy => H y t (list_elem_of_further _ _ _ Hy)) s1 H1) as [H2 R2].
  split; [done|by etrans].
Qed.

Lemma withdraw_environment resourceId serviceId keys acc v :
  v ∈ map_values (environmentVariables (foldl (fun acc key => withdraw_key resourceId serviceId key acc) acc keys).1) -> v ∈ map_values (environmentVariables acc.1).
Proof.
  revert acc. induction keys as [|key keys IH]; intros acc; [done|]. cbn [foldl]. intros H%IH. destruct acc as [e environment]. unfold withdraw_key in H.
  destruct (map_get _ _); [|done]. destruct (is_str _ _); [|done]. cbn in H. apply values_delete in H. by destruct (_ && _).
Qed.

Lemma tame_set_service id row row' s : map_get id (services (plane s)) = Some row -> obj_get "projectId" row' = obj_get "projectId" row ->
  tame s (set_service id row' s).2.
Proof.
  intros Hg Hp. split; try done. intros k. change (obj_get "projectId" <$> map_get k (map_set id row' (services (plane s))) = obj_get "projectId" <$> map_get k (services (plane s))).
  rewrite map_get_set. case_decide as Hk; [|done]. subst k. rewrite Hg. cbn. by rewrite Hp.
Qed.

Lemma withdraw_tame now attachment s : tenant_ok s -> tame s (removeResourceInjectedEnvironment now attachment s).2.
Proof.
  intros Hs. unfold removeResourceInjectedEnvironment. cbv zeta.
  match goal with |- context [foldl ?f ?acc ?l] =>
    pose proof (withdraw_plane (js_String (obj_get "resourceId" attachment)) (js_String (obj_get "serviceId" attachment)) l acc) as Hp;
    pose proof (withdraw_environment (js_String (obj_get "resourceId" attachment)) (js_String (obj_get "serviceId" attachment)) l acc) as He;
    destruct (foldl f acc l) as [e environment] end. cbn in Hp, He.
  assert (tame s (s <| tn_env := e |>)) as Ht by (split; unfold plane; cbn; rewrite ?Hp; done).
  destruct (map_get _ _) as [row|] eqn:E; [|done]. etrans; [exact Ht|].
  assert (row_id row = js_String (obj_get "serviceId" attachment)) as -> by (unfold row_id; by rewrite (keyed_get _ _ _ (to_services _ _ _ _ Hs) E)).
  eapply tame_set_service; [unfold plane; cbn; rewrite Hp; exact E|]. apply obj_get_spread_notin. absent.
Qed.

Lemma frame_for_each {S A T} (proj : S -> T) (f : A -> M S unit) l : (forall x, frame proj (f x)) -> frame proj (for_each f l).
Proof. intros H. induction l as [|x l IH]; [apply frame_ret|]. by apply frame_bind. Qed.

Lemma withdraw_resources now attachment : frame (fun s => resources (plane s)) (removeResourceInjectedEnvironment now attachment).
Proof.
  intros s. unfold removeResourceInjectedEnvironment. cbv zeta.
  match goal with |- context [foldl ?f ?acc ?l] =>
    pose proof (withdraw_plane (js_String (obj_get "resourceId" attachment)) (js_String (obj_get "serviceId" attachment)) l acc) as Hp;
    destruct (foldl f acc l) as [e environment] end. cbn in Hp. destruct (map_get _ _); unfold plane; cbn; unfold plane; cbn; by rewrite Hp.
Qed.

Lemma deleteResource_returns id now s r s' : tenant_ok s -> deleteResource id now s = (Ok r, s') ->
  tame s s' /\ forall k, map_get k (resources (plane s')) = if decide (k = id) then None else map_get k (resources (plane s)).
Proof.
  intros Hs H. unfold deleteResource in H. returns_in H. set (s0 := s <| recoveryState := _ |>) in H. assert (tame s s0) as H0 by done.
  destruct (map_get id (resources (plane s))) as [current|] eqn:Hc.
  - apply bind_returns in H as ([] & s1 & Hl & H).
    destruct (for_each_related tenant_ok tame (removeResourceInjectedEnvironment now) (filter (of_resource id) (resourceAttachments s))) with (s := s0) as [_ Ht];
      [intros a t _ Ht; split; [by apply preserves_withdraw|by apply withdraw_tame]|exact Hs|].
    rewrite Hl in Ht. cbn in Ht.
    assert (resources (plane s1) = resources (plane s)) as Hr.
    { pose proof (frame_for_each _ _ (filter (of_resource id) (resourceAttachments s)) (withdraw_resources now) s0) as Hf. rewrite Hl in Hf. exact Hf. }
    assert (tame s s1) as Hs1 by (by etrans). injection H as _ <-. split.
    + etrans; [exact Hs1|]. split; try done. cbn. by intros a [_ ?]%list_elem_of_filter.
    + intros k. change (map_get k (map_delete id (resources (plane s1))) = if decide (k = id) then None else map_get k (resources (plane s))). rewrite Hr.
      case_decide as Hk; [subst k; apply map_get_delete_eq|]. by apply map_get_delete_ne.
  - returns_in H. subst. split; [done|]. intros k. case_decide; [by subst|done].
Qed.

Lemma resources_loop now rows s s' : tenant_ok s ->
  for_each (fun row => _ ← deleteResource (row_id row) now; mret tt) rows s = (Ok tt, s') ->
  tame s s' /\ forall k, map_get k (resources (plane s')) = if decide (k ∈ map row_id rows) then None else map_get k (resources (plane s)).
Proof.
  revert s. induction rows as [|row rows IH]; intros s Hs H; [by injection H as <-|].
  cbn [for_each] in H. apply bind_returns in H as ([] & s1 & H1 & H). apply bind_returns in H1 as (r & s1' & H1 & Hret). returns_in Hret. subst s1'.
  pose proof (preserves_deleteResource (row_id row) now s Hs) as Hs1. rewrite H1 in Hs1. cbn in Hs1.
  destruct (deleteResource_returns _ _ _ _ _ Hs H1) as [T1 R1]. destruct (IH s1 Hs1 H) as [T2 R2]. split; [by etrans|].
  intros k. rewrite R2, R1. cbn [map]. destruct (decide (k = row_id row)) as [->|Hne].
  - rewrite (decide_True _ _ (P := row_id row ∈ row_id row :: _)) by (by left). by case_decide.
  - destruct (decide (k ∈ map row_id rows)) as [Hin|Hnot]; [rewrite decide_True; [done|by right]|].
    rewrite decide_False; [done|]. by intros [?|?]%elem_of_cons.
Qed.

Definition project_ids (projectId : string) (table : jsmap jsobj) : list string := map row_id (filter (of_project projectId) (map_values table)).

Lemma project_ids_spec projectId table k : keyed table ->
  k ∈ project_ids projectId table <-> exists row, map_get k table = Some row /\ of_project projectId row.
Proof.
  intros Hk. split.
  - intros (row & -> & [Hp Hin]%list_elem_of_filter)%list_elem_of_fmap. exists row. split; [by apply keyed_values|done].
  - intros (row & Hg & Hp). apply list_elem_of_fmap. exists row. split; [unfold row_id; by rewrite (keyed_get _ _ _ Hk Hg)|].
    apply list_elem_of_filter. split; [done|]. apply map_values_elem; [apply Hk|by exists k].
Qed.

Lemma project_ids_nodup projectId table : keyed table -> NoDup (project_ids projectId table).
Proof.
  intros [Hw Hk]. unfold project_ids. assert (map row_id (map_values table) = map_keys table) as E.
  { assert (forall k row, (k, row) ∈ table -> row_id row = k) as H by (intros k row Hin%map_get_elem; [unfold row_id; by rewrite (Hk k row Hin)|done]).
    clear -H. unfold map_values, map_keys. induction table as [|[k row] table IH]; [done|]. cbn. f_equal; [apply H; by left|]. apply IH. intros k' row' Hin. apply H. by right. }
  assert (NoDup (map row_id (map_values table))) as Hn by (rewrite E; exact Hw). eapply sublist_NoDup; [exact Hn|]. apply fmap_sublist, sublist_filter.
Qed.

Lemma deleteProject_returns projectId now s p s' : tenant_ok s -> keyed (deployments (plane s)) -> deleteProject projectId now s = (Ok (Some p), s') ->
  exists s1 s2 w, shrinks (project_ids projectId (services (plane s))) s s1 /\ tame s1 s2
    /\ (forall k, map_get k (resources (plane s2)) = if decide (k ∈ project_ids projectId (resources (plane s))) then None else map_get k (resources (plane s)))
    /\ s' = with_workflow w (s2 <| tn_env := (tn_env s2) <| ev_plane := (plane s2) <| projects := map_delete projectId (projects (plane s2)) |> |> |>).
Proof.
  intros Hok Hk H. unfold deleteProject in H. returns_in H. destruct (map_get projectId (projects (plane s))) as [current|]; [|by returns_in H; simplify_eq].
  apply bind_returns in H as ([] & s1 & H1 & H).
  assert (shrinks (project_ids projectId (services (plane s))) s s1) as Hsh.
  { eapply services_loop; [done|apply project_ids_nodup, Hok| |exact H1]. intros row [_ Hin]%list_elem_of_filter.
    destruct (keyed_values _ _ (to_services _ _ _ _ Hok) Hin) as [_ ->]. by eexists. }
  assert (tenant_ok s1) as Hok1.
  { change s1 with (snd (Ok tt, s1)). rewrite <- H1. apply preserves_for_each; [|done]. intros row _. apply preserves_bind; [apply preserves_deleteService|intros ?; apply preserves_ret]. }
  returns_in H. apply bind_returns in H as ([] & s2 & H2 & H). destruct (resources_loop _ _ _ _ Hok1 H2) as [Ht Hr].
  exists s1, s2. injection H as _ <-. eexists. split; [done|]. split; [done|]. split; [|reflexivity]. by rewrite (sh_resources _ _ _ Hsh) in Hr.
Qed.

(** C12. Deleting a project deletes all of it and nothing else: no project,
    service or resource of it is left, and of its services no deployment, log,
    event, variable or attachment; the services of other projects still exist
    in their projects, and deployments of other services are as they were. *)
Theorem project_deletion_complete projectId now s p s' :
  tenant_ok s -> keyed (deployments (plane s)) -> deleteProject projectId now s = (Ok (Some p), s') ->
  map_get projectId (projects (plane s')) = None
  /\ (forall row, row ∈ map_values (services (plane s')) \/ row ∈ map_values (resources (plane s')) -> ~ of_project projectId row)
  /\ (forall k row, map_get k (services (plane s)) = Some row -> of_project projectId row -> nothing_serves k s' /\ forgotten (deployment_ids k s) s')
  /\ (forall k row, map_get k (services (plane s)) = Some row -> ~ of_project projectId row ->
        exists row', map_get k (services (plane s')) = Some row' /\ obj_get "projectId" row' = obj_get "projectId" row)
  /\ (forall k row, map_get k (resources (plane s)) = Some row -> ~ of_project projectId row -> map_get k (resources (plane s')) = Some row)
  /\ (forall k d, map_get k (deployments (plane s)) = Some d ->
        (forall id row, map_get id (services (plane s)) = Some row -> of_project projectId row -> ~ serves id d) -> map_get k (deployments (plane s')) = Some d).
Proof.
  intros Hok Hk H. pose proof (preserves_deleteProject projectId now s Hok) as Hok'. rewrite H in Hok'. cbn in Hok'.
  apply deleteProject_returns in H as (s1 & s2 & w & Hsh & Ht & Hr & Heq); [|done..].
  assert (services (plane s') = services (plane s2) /\ resources (plane s') = resources (plane s2) /\ deployments (plane s') = deployments (plane s2)) as (Es & Er & Ed) by (by subst s').
  destruct Hok as [_ Hv Hres _]. pose proof (fun k => project_ids_spec projectId _ k Hv) as Hids. pose proof (fun k => project_ids_spec projectId _ k Hres) as Hrids.
  pose proof (tm_services _ _ Ht) as Hproj. split_and!.
  - subst s'. apply map_get_delete_eq.
  - intros row [(k & Hg)%map_values_elem|(k & Hg)%map_values_elem] Hp; try apply Hok'.
    + rewrite Es in Hg. specialize (Hproj k). rewrite Hg, (sh_services _ _ _ Hsh) in Hproj. case_decide as Hin; [done|]. destruct (map_get k _) as [row0|] eqn:E; [|done].
      apply Hin, Hids. exists row0. split; [done|]. injection Hproj as Hproj. unfold of_project in *. by rewrite <- Hproj.
    + rewrite Er, Hr in Hg. case_decide as Hin; [done|]. apply Hin, Hrids. by exists row.
  - intros k row Hg Hp. assert (k ∈ project_ids projectId (services (plane s))) as Hin by (apply Hids; by exists row).
    split.
    + destruct (tame_serves k _ _ Ht (sh_gone _ _ _ Hsh k Hin)) as [N1 N2 N3 N4]. subst s'. by split.
    + destruct (tame_forgotten _ _ _ Ht (sh_forgets _ _ _ Hsh k Hin)) as [F1 F2]. subst s'. by split.
  - intros k row Hg Hp. specialize (Hproj k). rewrite (sh_services _ _ _ Hsh), decide_False, Hg, <- Es in Hproj; [|intros (row' & Hg' & ?)%Hids; congruence].
    apply fmap_Some in Hproj as (row' & Hrow' & ?). by exists row'.
  - intros k row Hg Hp. rewrite Er, Hr, decide_False; [done|]. intros (row' & Hg' & ?)%Hrids. congruence.
  - intros k d Hd Hn. rewrite Ed, (tm_deployments _ _ Ht). apply (sh_kept _ _ _ Hsh); [done|]. intros id (row & Hg & Hp)%Hids. by apply (Hn id row).
Qed.

End Store.

(** ** Examples *)

Definition example_date (s : string) : option Z :=
  if bool_decide (s = toISOString 1000) then Some 1000 else if bool_decide (s = toISOString 2000) then Some 2000 else None.

Definition example_options : ServiceOptions := mkServiceOptions false false false None.

Definition shop_id : string := "prj-org-acme-shop".

Definition shop_store : TenantStore :=
  let s := (createProject [("organizationId", JStr "org-acme"); ("name", JStr "shop")] 1000 empty_tenants).2 in
  (createService [("projectId", JStr shop_id); ("name", JStr "web"); ("sourceType", JStr "image"); ("image", JStr "app:1")] false 1000 s).2.

Definition web_id : string := "svc-prj-org-acme-shop-web".

Definition with_deployment (serviceId : string) (s : TenantStore) : TenantStore :=
  s <| tn_env := (tn_env s) <| ev_plane := (plane s) <| deployments := [("dep-1", [("id", JStr "dep-1"); ("serviceId", JStr serviceId)])] |> |> |>.

Definition deployed_shop : TenantStore := with_deployment web_id shop_store.

Definition port_update : jsobj := [("port", JNum (NInt 3000))].
Definition port_change : jsval := JObj [("expectedUpdatedAt", timestamp 1000); ("changes", JObj [("port", JNum (NInt 3000))])].
Definition branch_change : jsval := JObj [("expectedUpdatedAt", timestamp 1000); ("changes", JObj [("branch", JStr "main")])].

Definition no_json (_ : string) : option jsval := None.
Definition same_order (_ _ : string) : comparison := Eq.
Definition example_digest (s : string) : string := "0123456789abcdef0123456789abcdef".

Definition first_save : result (option SettingsSnapshot) * TenantStore :=
  updateServiceSettings example_date example_digest same_order no_json web_id port_change example_options 2000 deployed_shop.

Lemma settings_no_lost_update_witness :
  exists v e, first_save.1 = Ok (Some v)
    /\ updateServiceSettings example_date example_digest same_order no_json web_id branch_change example_options 2000 first_save.2 = (Throw e, first_save.2).
Proof.
  assert (exists v, first_save.1 = Ok (Some v)) as [v Hv] by (vm_compute; eexists; reflexivity).
  pose (p := mkSettingsInput (toISOString 1000) port_update []). pose (q := mkSettingsInput (toISOString 1000) [("branch", JStr "main")] []).
  assert (parseServiceSettingsInput port_change = Ok p) as Hp by (vm_compute; reflexivity).
  assert (parseServiceSettingsInput branch_change = Ok q) as Hq by (vm_compute; reflexivity).
  assert (first_save = (Ok (Some v), first_save.2)) as E by (rewrite <- Hv; apply surjective_pairing).
  destruct (settings_no_lost_update example_date example_digest same_order no_json web_id port_change 2000 example_options v deployed_shop first_save.2 branch_change 2000
    example_options p q Hp Hq eq_refl) as [e He]; [|exact E|exists v, e; split; [exact Hv|exact He]].
  intros service t Hs Ht. assert (t = 1000) as ->; [|vm_compute; reflexivity].
  vm_compute in Hs. injection Hs as <-. vm_compute in Ht. injection Ht as <-. reflexivity.
Defined.

Definition rename (name : string) : ProjectSettingsUpdate := mkProjectUpdate (toISOString 1000) (Some name) None.

Definition first_rename : result (option ProjectView) * TenantStore := updateProjectSettings example_date shop_id "org-acme" None (rename "Shop") 2000 shop_store.

Lemma project_settings_no_lost_update_witness :
  exists v, first_rename.1 = Ok (Some v)
    /\ updateProjectSettings example_date shop_id "org-acme" None (rename "Store") 2000 first_rename.2 = (Throw ProjectSettingsError, first_rename.2).
Proof.
  assert (exists v, first_rename.1 = Ok (Some v)) as [v Hv] by (vm_compute; eexists; reflexivity). exists v. split; [exact Hv|].
  assert (first_rename = (Ok (Some v), first_rename.2)) as E by (rewrite <- Hv; apply surjective_pairing).
  apply (project_settings_no_lost_update example_date shop_id "org-acme" None (rename "Shop") 2000 v shop_store first_rename.2 None (rename "Store") 2000 eq_refl); [|exact E].
  intros t Ht. assert (t = 1000) as ->; [|vm_compute; reflexivity]. vm_compute in Ht. injection Ht as <-. reflexivity.
Defined.

Definition port_save : result (option jsobj) * TenantStore := updateService example_date web_id port_update example_options 2000 deployed_shop.


Definition replacement_request : jsval :=
  JObj [("expectedUpdatedAt", timestamp 1000); ("confirmed", JBool true); ("name", JStr "web2"); ("source", JObj [("sourceType", JStr "image"); ("image", JStr "app:2")])].
Definition replaced : result (option jsobj) * TenantStore := createServiceReplacement web_id replacement_request 2000 deployed_shop.

Lemma replacement_preserves_witness : exists service replacement,
  replaced.1 = Ok (Some replacement) /\ map_get web_id (services (plane replaced.2)) = Some service /\ obj_get "projectId" replacement = obj_get "projectId" service.
Proof.
  assert (exists r, replaced.1 = Ok (Some r)) as [r Hr] by (vm_compute; eexists; reflexivity).
  assert (replaced = (Ok (Some r), replaced.2)) as E by (rewrite <- Hr; apply surjective_pairing).
  destruct (replacement_preserves web_id replacement_request 2000 deployed_shop r replaced.2 E) as (_ & service & id & _ & Hs & _ & _ & _ & Hp).
  exists service, r. split; [exact Hr|]. split; [exact Hs|exact Hp].
Defined.

Lemma reachable_tables_ok_witness : tenant_ok shop_store.
Proof.
  apply (reachable_tables_ok example_date example_digest same_order no_json "/data"). eapply rtc_l; [|eapply rtc_l; [|apply rtc_refl]].
  - apply step_createProject.
  - apply step_createService.
Defined.

Lemma empty_ok : tenant_ok empty_tenants.
Proof. split; [split; [apply map_wf_nil|done]..|by intros ? ?%not_elem_of_nil]. Qed.

Lemma shop_ok : tenant_ok shop_store.
Proof. apply preserves_createService, preserves_createProject, empty_ok. Qed.

Lemma with_deployment_ok id s : tenant_ok s -> tenant_ok (with_deployment id s) /\ keyed (deployments (plane (with_deployment id s))).
Proof.
  intros H. split; [exact H|]. split; [apply NoDup_singleton|]. intros k row Hg. cbn in Hg. case_decide as Hk; [|done]. injection Hg as <-. by rewrite <- Hk.
Qed.

Lemma project_deletion_complete_witness :
  let s := with_deployment web_id shop_store in
  exists p, (deleteProject shop_id 2000 s).1 = Ok (Some p)
    /\ map_get shop_id (projects (plane (deleteProject shop_id 2000 s).2)) = None /\ nothing_serves web_id (deleteProject shop_id 2000 s).2.
Proof.
  intros s. assert (exists p, (deleteProject shop_id 2000 s).1 = Ok (Some p)) as [p Hp] by (vm_compute; eexists; reflexivity). exists p.
  assert (exists row, map_get web_id (services (plane s)) = Some row) as (row & Hrow) by (vm_compute; eexists; reflexivity).
  assert (of_project shop_id row) as Hof by (revert Hrow; vm_compute; intros [= <-]; reflexivity).
  destruct (with_deployment_ok web_id shop_store shop_ok : tenant_ok s /\ keyed (deployments (plane s))) as [Hok Hk]. clearbody s.
  assert (deleteProject shop_id 2000 s = (Ok (Some p), (deleteProject shop_id 2000 s).2)) as E by (rewrite <- Hp; apply surjective_pairing).
  destruct (project_deletion_complete shop_id 2000 s p _ Hok Hk E) as (H1 & _ & H2 & _).
  split; [exact Hp|]. split; [exact H1|]. exact (proj1 (H2 web_id row Hrow Hof)).
Defined.

(** *** Defects *)

Definition long_project : string := "prj-org-riverside-trading-company-customer-portal-production".

Definition two_services : result jsobj * TenantStore :=
  let s := (createService [("projectId", JStr long_project); ("name", JStr "web"); ("sourceType", JStr "image"); ("image", JStr "portal:1")] false 1000 empty_tenants).2 in
  createService [("projectId", JStr long_project); ("name", JStr "worker"); ("sourceType", JStr "image"); ("image", JStr "jobs:1")] false 2000 s.

(** The identifier of a service is cut to 63 characters before the name it
    ends with: the second service of a project with a long identifier
    overwrites the first. *)
Lemma services_share_identifier : exists service,
  two_services.1 = Ok service /\ obj_get "name" service = JStr "worker" /\ map (obj_get "name") (map_values (services (plane two_services.2))) = [JStr "worker"].
Proof. vm_compute. eexists. split_and!; reflexivity. Qed.

Definition images_store : TenantStore :=
  with_deployment "svc-prj-org-acme-shop-api"
    (createService [("projectId", JStr shop_id); ("name", JStr "api"); ("sourceType", JStr "image"); ("image", JStr "app:1"); ("imageUrl", JStr "app:2")] false 1000
       empty_tenants).2.

(** The image of a deployed service is fixed, but an update that repeats
    [image] writes it over an [imageUrl] that differs. *)
Lemma image_url_overwritten : exists next,
  (updateService example_date "svc-prj-org-acme-shop-api" [("image", JStr "app:1")] example_options 2000 images_store).1 = Ok (Some next)
  /\ obj_get "imageUrl" next = JStr "app:1"
  /\ map (obj_get "imageUrl") (map_values (services (plane images_store))) = [JStr "app:2"].
Proof. vm_compute. eexists. split_and!; reflexivity. Qed.

Close Scope Z_scope.
